(* ===== verification/_CoqProject ===== *)
-Q . S2P
Prelude.v
Float64.v
FloatBounds.v
Crypto.v
Block.v
Packet.v
TokenCache.v
KeyRotation.v
ReplayCache.v
ReceiveWindow.v
AckHandler.v
RTTEstimator.v
Congestion.v
RateLimit.v
FirstSight.v
Modifiers.v
Padding.v
HeaderProtection.v
Framing.v
NoiseHandshake.v
Ntcp2Config.v
Ntcp2Handshake.v
SSU2Config.v
RatchetPayload.v
BuildRecords.v
NoiseIK.v
RatchetSession.v
SessionManager.v
Garlic.v
SessionInvariant.v
Fragments.v
DataPhase.v
Outbound.v
Session.v
Sha256.v
Options.v
SSU2Handshake.v
ConnHandshake.v
Dial.v
Listener.v
Shutdown.v
