(* ===== verification/Prelude.v ===== *)
(** * go-noise: SSU2, NTCP2 and the ECIES ratchet

    This library models the transports and the end-to-end layer of go-noise (the
    Go module under [src/]): the SSU2 transport from the bytes of a block to the
    datagrams of a connection, the generic Noise connection, NTCP2 from its
    handshake to its frames, and the ratchet sessions that garlic messages are
    encrypted with. It proves the properties that make
    them correct, bounded and safe against replay.

    ** The program and its parts

    An SSU2 connection ([ssu2/session]) exchanges UDP packets ([ssu2/wire]) whose
    encrypted payload is a list of typed blocks and whose header is masked. A
    writer cuts a message into blocks, gives each packet the next number and
    queues it; a send loop encrypts the queued packets, with the number as AEAD
    nonce, and tracks them until they are acknowledged; a timer re-queues those
    that are overdue. A receiver unmasks the header, opens the payload, admits a
    packet number once (receive window), records it for the next ACK block, hands
    each block to its handler, and reassembles fragmented messages. Round trips
    feed an RTT estimator, which the congestion controller and the retransmission
    timer read ([ssu2/reliability]). A connection starts with a Noise XK handshake
    of three messages ([ssu2/handshake]), the last of which may be fragmented, and
    which the connection sends again until they are answered. A listener
    ([ssu2/server]) takes the datagrams of one socket, gives those of known
    connections to them and makes connections for new ones; rate limits guard it,
    and it can demand a token that it sends to the address of a request first.
    Dialling makes a connection from settings ([ssu2/config]).

    An NTCP2 connection ([ntcp2], [conn]) writes a byte stream as frames: a
    length that is masked with SipHash, and an AEAD ciphertext that may be
    padded. It starts with a Noise XK handshake, whose ephemeral keys are hidden
    with AES-CBC and from whose hash the SipHash keys are derived. The connection
    below it ([conn]) drives a handshake of any Noise pattern, with retries;
    handshake messages pass through a chain of modifiers ([handshake]).

    The ratchet ([ratchet]) keeps a session per peer. The first message is a
    Noise IK message; the reply completes the handshake; further messages are
    encrypted under the keys of a symmetric ratchet and marked with the tags of a
    tag ratchet, by which the receiver finds the session. The manager keeps the
    sessions, their tags, a cache of handshake messages, and one-time keys.

    ** Files

    - [Prelude]: results of fallible code, machine integers with their
      wrap-around, big-endian encoding, byte slices, Go's map iteration in
      unspecified order (class [GoRange]) and [sort.Slice] (class [GoSort]),
      time, arrivals over a network, the shared tactics and hints.
    - [Float64]: Go's float64 on the Standard Library's [SpecFloat].
    - [FloatBounds]: bounds of rounded sums, products and quotients.
    - [Crypto]: the cryptographic libraries the ratchet calls, as classes with
      their laws, and demonstration instances for the witnesses.
    - [Block]: [wire/block.go], [wire/block_types.go],
      [wire/block_termination.go].
    - [Packet]: [wire/packet.go].
    - [TokenCache]: [wire/token_cache.go].
    - [KeyRotation]: [ssu2/handshake/key_rotation.go],
      [ssu2/handshake/key_rotation_state.go].
    - [ReplayCache]: [mod/replaycache/cache.go], [ntcp2/replay_cache.go].
    - [ReceiveWindow]: [reliability/receive_window.go].
    - [AckHandler]: [reliability/ack_handler.go].
    - [RTTEstimator]: [reliability/rtt_estimator.go].
    - [Congestion]: [reliability/congestion_control.go].
    - [RateLimit]: the limiters of [server/token_admission.go] and
      [server/listener.go].
    - [FirstSight]: the first-sight tracker of [server/token_admission.go].
    - [Modifiers]: [handshake/modifier.go], [handshake/modifier_chain.go] and the
      modifiers of [handshake].
    - [Padding]: [handshake/padding_engine.go] and the padding modifiers of
      [ssu2/wire] and [ntcp2].
    - [HeaderProtection]: [wire/header_protection.go], [wire/header_keys.go],
      [session/conn_state.go].
    - [Framing]: [ntcp2/conn_framing.go], [ntcp2/conn.go], [conn/io.go].
    - [NoiseHandshake]: the handshake driver of [conn] ([conn/handshake.go],
      [conn/retry.go], [conn/state.go], [conn/config.go]), for every pattern.
    - [Ntcp2Config]: [ntcp2/config.go], [ntcp2/kdf.go],
      [ntcp2/aes_obfuscation_modifier.go].
    - [Ntcp2Handshake]: [ntcp2/handshake.go], [ntcp2/transport.go] and the accept
      of [ntcp2/listener.go]; two connections from dialling to reading.
    - [SSU2Config]: [ssu2/config], [wire/chacha_obfuscation_modifier.go],
      [wire/introkey.go].
    - [RatchetPayload]: [ratchet/payload.go], [ratchet/payload_builder.go].
    - [BuildRecords]: [ratchet/build_record_crypto.go],
      [ratchet/build_request_ecies.go].
    - [NoiseIK]: [ratchet/noise_ik.go], [ratchet/noise_ik_nsr.go].
    - [RatchetSession]: [ratchet/session.go], [ratchet/ratchet_step.go],
      [ratchet/recv_window.go], [ratchet/crypto_helpers.go] and the parts of
      [ratchet/nextkey.go] that work on one session.
    - [SessionManager]: [ratchet/session_manager.go], [ratchet/session_table.go],
      [ratchet/session_lifecycle.go], [ratchet/session_freshness.go],
      [ratchet/session_encrypt.go], [ratchet/session_decrypt.go].
    - [Garlic]: two managers in a conversation.
    - [SessionInvariant]: what holds of the manager after any calls.
    - [Fragments]: [session/fragment_assembler.go], and the fragmentation of
      [session/conn_write.go].
    - [DataPhase]: [session/data_handler.go], [session/i2np_handler.go].
    - [Outbound]: the sending side of [session/conn.go] and
      [session/conn_write.go], and the retirement of acknowledged packets of
      [session/conn_read.go].
    - [Session]: the receiving side of a connection ([session/conn_read.go],
      [session/conn_data.go], [session/conn_lifecycle.go]), the packet router
      ([session/packet_router.go]), and two connected ends.
    - [Sha256]: SHA-256 and HMAC of Go's standard library, for the key derivation.
    - [Options]: [ssu2/handshake/options.go].
    - [SSU2Handshake]: the other files of [ssu2/handshake], a handler per end.
    - [ConnHandshake]: [session/conn_handshake.go], the installation of keys of
      [session/conn_data.go], and two connections that complete a handshake.
    - [Dial]: the constructor of [session/conn.go], and [server/transport.go].
    - [Listener]: [server/listener.go], [server/accept_loop.go],
      [server/retry.go], [server/intro_protection.go], and the packet router
      with connections that the listener shares.
    - [Shutdown]: [shutdown/shutdown.go], [listener/listener.go], the transport
      of the root package ([transport.go], [transport_factory.go],
      [transport_validate.go], [pool_wrapper.go]), and the life cycle of a Noise
      connection ([Close] and [SetShutdownManager] of [conn]).

    Definitions carry the names of the Go functions. A struct is a record of the
    same name, a method is a function from the record to the new record and the
    result; an error return is [Err] of a constructor that names the error site.
    Where two Go methods share a name, the type's name is put in front. The body
    of a loop that is a definition of its own is named after what it does.
    Logging is left out. A mutex makes a method one step; interleaving of
    goroutines is the order of the steps in the step relations ([cc_step],
    [dh_step], [out_step]) and call lists, and for the workers of a listener the
    order of their steps ([worker_step], [actions]). The ratchet's sessions and the
    connections of a listener, which several tables share by pointer, are in a
    heap. The handlers of the listener are written in a monad of steps that
    change it, emit events and may fail, with a Hoare logic for it ([triple]).

    ** What is proved

    - Wire formats: blocks, block lists, packets, New Token and Address blocks,
      connection IDs, ratchet payloads and build records round-trip; what is
      parsed is exactly what would be written; block order is normalised by the
      sender and the receiver's check accepts exactly that order; parsing
      terminates on every input. A protected header is recovered for every packet
      type whose keys the two ends choose consistently.
    - Receiving: any arrival order of the packets that a window can hold is
      released in number order; whatever is inserted, deliveries are consecutive and no number is
      accepted twice; sequence comparison is right across the wrap-around. A
      missing packet blocks the window, and [SetExpected] can wedge it.
    - Connections: of the messages written at one end, as many as the window of
      the other holds, each is delivered at the first arrival of its datagram and
      never again, over a network that reorders, repeats and loses datagrams
      (retransmissions have numbers of their own and are not part of this); a
      datagram that is not a Data packet that opens leaves the data, keys and state
      of an established connection alone, and what it can do is listed; the
      router delivers to the session a packet names and to no other; reads return
      the bytes of the messages in order.
    - Handshake: two new connections exchange their three messages and end with
      the same keys, the peer's connection ID and the initiator's static key; with
      the RouterInfo that the connection sends the responder is shown to refuse,
      and with another one it would complete the handshake, whatever order and
      repetition the fragments arrive in ([ssu2_handshake]). Waiting repeats the
      same datagram at the scheduled times only and ends at the deadline or when it
      is interrupted; collecting fragments returns whatever arrives; the negotiated
      padding of one end is the mirror of the other's.
    - Dialling and listening: settings are accepted exactly if their fields are in
      their ranges, and accepted ones give exactly the settings of a Noise
      connection; a dialled connection and one made to answer it exchange keys, as
      above. In any run of a listener, a connection for a SessionRequest
      needs a token issued to its address within the last minute and unused
      since, if tokens are required; a SessionRequest without one is answered with
      a Retry that the initiator reads and that is at most three times its size, and
      makes no connection. With workers that interleave, connections are registered
      once and accepted once, in an order that may differ, and the tables lead to
      the connection that has the ID; what a flood can fill is bounded. The
      buckets of the rate limits allow their burst and rate in every span of time,
      in spite of all roundings; the first-sight tracker implements its description. Lemmas at
      the end of [Listener] show requests that the listener answers wrongly.
    - Acknowledgments: an ACK generated from an encodable received set is read by
      the peer as exactly that set; for arbitrary bytes an accepted ACK names a
      bounded number of distinct packets and removes exactly these. Lemmas show
      the received sets for which the encoding fails.
    - Round trips and congestion: the float computations of the estimator are
      exact integer arithmetic for samples below 2^50 ns; estimates stay within
      the samples and converge; the timeout is the clamped RFC 6298 formula. The
      congestion window stays within its limits in every reachable state, losses
      within a round trip count once, and growth is exponential in slow start and
      at most one segment per window in congestion avoidance.
    - Messages: a message of at most 128 fragments is reassembled once, with nine
      bytes in front of it, for any order and repetition of arrivals; partial messages and the queue are bounded whatever
      the peer sends; I2NP blocks are delivered in order; signed relay blocks are
      dispatched only after the verifier that is set.
    - Sending: nonces are pairwise distinct in every run under one key; a
      retransmission re-queues exactly the overdue payloads under fresh numbers.
      The retry limit is shown never to act.
    - Tokens and replay: the token cache is bounded, tokens are valid for their
      address and time and are accepted at most once; the replay cache is
      bounded, reports no key it has not seen, and reports every key again until
      its time is over.
    - Key rotation: a rotation keeps the replaced key for its grace period and no
      longer; a key is rotated only at its minimum age unless forced.
    - Noise and NTCP2 handshakes: for every pattern the driver handles, two ends
      with the keys the pattern uses that exchange their messages through matching
      modifiers reach the established state with matching cipher states, unless a
      modifier refuses a message; a handshake is retried until it succeeds, as
      often as configured at most and with the configured delays. Two NTCP2 ends complete
      their handshake with the payloads they sent; a repeated first message is
      refused; the whole of it composed, bytes written after dialling and
      accepting are read unchanged. Configurations that cannot work are shown to
      fail.
    - Shutdown: whatever other goroutines do before and meanwhile, the first
      shutdown closes the registered listeners before it waits, and leaves a
      connection that was registered closed unless others unregister it or a
      handshake takes it out of the state Closed; apart from the latter, every
      socket is released once or belongs to an open object; all calls return the
      same error. A connection given to the manager after it was closed is shown to
      block the wait, and a handshake under way to make the socket be closed twice.
    - Streams: what NTCP2 reads return is what was written, whatever the sizes of
      writes and reads; a chain of modifiers that keep their contract recovers
      every message; padding fits the MTU and is removed.
    - Ratchet: a New Session and its reply give both ends the same keys and
      payloads; in a conversation every message is decrypted at its first arrival
      only; no counter opens two messages, and no New Session that names its
      sender is accepted twice, short of a flood; after any calls the two tag
      indices agree and lead to sessions that wait for the tag, the tables are
      bounded, and the least recently used session is the one evicted. Lemmas at the end of
      [SessionInvariant] show runs in which the manager leaves tags behind or a
      session stops working.

    ** Bounds and parameters

    Recursion is structural in the input, except where a loop consumes a prefix
    of a byte list (parsing, fragmenting): these take the length of the input as
    fuel, each turn consumes at least one byte, and lemmas show that the fuel
    suffices. The loop that collects the fragments of a handshake message has
    the packets that are queued and arrive as fuel. The loop that fills a window of session tags ends when the tags of
    the ratchet are distinct; its fuel is the size of the window and of the tag
    index. Theorems about a chain of the ratchet ask for distinct tags up to the
    horizon of 200, more than a chain uses before it rotates. Go's [int] is 64
    bits wide. A [time.Time] is a number of nanoseconds and the zero time is 0.
    Clock readings and random bytes are arguments. The order of map iteration is
    any order ([GoRange]); theorems hold for all of them. Code outside the
    repository is a parameter, with what its documentation promises as laws of a
    class: the AEAD, the header protection and the socket of the sending side
    ([SendEnv]), the cipher of a connection ([SSU2Cipher], [NoiseCipher]),
    ChaCha20 ([ChaCha20Lib]), SipHash ([SipHashLib]), random sources
    ([RandSource]), the relay and peer-test decoders ([PathLib]), the conversion
    of out-of-range floats ([FloatConv]), which Go leaves to the implementation,
    the Noise XK state and its cipher states ([NoiseXK], with the laws of a
    handshake in step in [NoiseXKLaws]), the I2P base64 ([I2PBase64],
    [I2PBase64Decoder]), the string forms of addresses, HKDF
    ([HKDFLib]), and for the ratchet SHA-256 and HKDF ([HashLib]), X25519 and Elligator 2
    ([CurveLib]), ChaCha20-Poly1305 ([AEADLib]), the Noise symmetric state
    ([NoiseLib]), the Noise handshake state of the generic connection
    ([NoiseHandshakeLib], with [NoiseHandshakeLaws] and [NTCP2NoiseLaws]), AES
    ([AESLib]), HMAC ([HMACLib]), the caller's replay detector
    ([ReplayDetector]) and modifiers ([UserModifier]), the ratchets ([RatchetLib]) and ECIES ([ECIESLib]).

    ** What is not modelled

    The default transport of the root package, a global variable that passes
    calls on to a transport, and the connection pool, a third-party package; the
    goroutines, timers and sockets that drive the modelled operations; the
    keepalive manager, a timer around two time stamps; the block router, through which no code of the
    repository routes blocks. *)

From Stdlib Require Import ZArith Lia.
From Stdlib Require Import Strings.Byte.
From stdpp Require Import base numbers list gmap sets strings sorting.

Declare Scope go_scope.
Delimit Scope go_scope with go.

#[local] Open Scope Z_scope.

(** ** Results of fallible code

    A Go function that returns [(T, error)] is a function into [result E T];
    [E] enumerates the error sites of the component. *)

Inductive result (E A : Type) : Type :=
| Ok (a : A)
| Err (e : E).
Arguments Ok {E A} a.
Arguments Err {E A} e.

Definition rbind {E A B} (r : result E A) (k : A -> result E B) : result E B :=
  match r with
  | Ok a => k a
  | Err e => Err e
  end.

Notation "'let*' x ':=' c 'in' k" := (rbind c (fun x => k))
  (at level 10, x pattern, c at level 200, k at level 200) : go_scope.

(** A library call, as an option, whose failure is reported as [e]. *)
Definition or_error {E A} (e : E) (o : option A) : result E A :=
  match o with Some a => Ok a | None => Err e end.

Definition is_ok {E A} (r : result E A) : bool :=
  match r with Ok _ => true | Err _ => false end.

(** ** Fixed-width integers

    A w-bit Go integer is a [Z]; the operations of the source that can leave
    the width are wrapped explicitly by these functions. *)

Definition wrap (w z : Z) : Z := z mod 2 ^ w.
Definition u8 (z : Z) : Z := wrap 8 z.
Definition u16 (z : Z) : Z := wrap 16 z.
Definition u32 (z : Z) : Z := wrap 32 z.
Definition u64 (z : Z) : Z := wrap 64 z.

(** Two's complement reading of a w-bit value. *)
Definition signed (w z : Z) : Z :=
  let r := wrap w z in
  if r <? 2 ^ (w - 1) then r else r - 2 ^ w.

Definition i32 (z : Z) : Z := signed 32 z.
Definition i64 (z : Z) : Z := signed 64 z.

Definition is_u8 (z : Z) : Prop := 0 <= z < 2 ^ 8.
Definition is_u16 (z : Z) : Prop := 0 <= z < 2 ^ 16.
Definition is_u32 (z : Z) : Prop := 0 <= z < 2 ^ 32.
Definition is_u64 (z : Z) : Prop := 0 <= z < 2 ^ 64.

(** ** Time

    A [time.Time] is its distance in nanoseconds from the zero time, so the zero
    value is 0; a [time.Duration] is a number of nanoseconds. [Time.Sub]
    saturates at the bounds of int64. *)

Definition maxDuration : Z := 2 ^ 63 - 1.
Definition minDuration : Z := - 2 ^ 63.

Definition time_sub (t u : Z) : Z := Z.max minDuration (Z.min maxDuration (t - u)).

Definition Millisecond : Z := 1000000.
Definition Second : Z := 1000000000.

(** ** Bytes *)

Abbreviation byte := Byte.byte.
Abbreviation bytes := (list Byte.byte).

Definition b2z (b : byte) : Z := Z.of_N (Byte.to_N b).

(** Go's [byte(x)] and [uint8(x)]: the low eight bits. *)
Definition z2b (z : Z) : byte :=
  match Byte.of_N (Z.to_N (z mod 256)) with
  | Some b => b
  | None => x00
  end.

(** [binary.BigEndian.PutUintN] (n bytes) and [binary.BigEndian.UintN]. *)
Fixpoint be_encode (n : nat) (z : Z) : bytes :=
  match n with
  | O => []
  | S n' => z2b (Z.shiftr z (8 * Z.of_nat n')) :: be_encode n' z
  end.

Fixpoint be_decode (bs : bytes) : Z :=
  match bs with
  | [] => 0
  | b :: t => b2z b * 256 ^ Z.of_nat (length t) + be_decode t
  end.

(** [binary.LittleEndian]. *)
Definition le_encode (n : nat) (z : Z) : bytes := reverse (be_encode n z).
Definition le_decode (bs : bytes) : Z := be_decode (reverse bs).

(** The Go slice expression [l[i:j]], for [i <= j <= len(l)]. *)
Definition slice {A} (i j : nat) (l : list A) : list A := take (j - i) (drop i l).

(** [len(x)] as a Go [int]. *)
Definition zlen {A} (l : list A) : Z := Z.of_nat (length l).

(** Indexing [l[i]] of a byte slice, for [i < len(l)]. *)
Definition byte_at (l : bytes) (i : nat) : Z :=
  match l !! i with Some b => b2z b | None => 0 end.

(** First entry of an association list: a Go [switch] over constants. *)
Fixpoint assoc {K V} `{EqDecision K} (k : K) (l : list (K * V)) : option V :=
  match l with
  | [] => None
  | (k', v) :: t => if decide (k = k') then Some v else assoc k t
  end.

#[export] Instance byte_eq_decision : EqDecision byte := Byte.byte_eq_dec.

(** ** Tactics *)

(** Splits every boolean test and option match of the goal and hypotheses,
    keeping the equations, and turns boolean comparisons into propositions. *)
Ltac bool_props :=
  repeat match goal with
  | H : (_ <? _) = true |- _ => apply Z.ltb_lt in H
  | H : (_ <? _) = false |- _ => apply Z.ltb_ge in H
  | H : (_ <=? _) = true |- _ => apply Z.leb_le in H
  | H : (_ <=? _) = false |- _ => apply Z.leb_gt in H
  | H : (_ =? _) = true |- _ => apply Z.eqb_eq in H
  | H : (_ =? _) = false |- _ => apply Z.eqb_neq in H
  | H : negb _ = true |- _ => apply negb_true_iff in H
  | H : negb _ = false |- _ => apply negb_false_iff in H
  | H : (_ && _)%bool = true |- _ => apply andb_true_iff in H; destruct H
  | H : (_ || _)%bool = false |- _ => apply orb_false_iff in H; destruct H
  end.

Ltac case_ifs :=
  repeat match goal with
  | |- context [if ?c then _ else _] =>
      lazymatch c with context [if _ then _ else _] => fail | _ => destruct c eqn:? end
  | H : context [if ?c then _ else _] |- _ =>
      lazymatch c with context [if _ then _ else _] => fail | _ => destruct c eqn:? end
  end; bool_props.

(** Inverts equations between results. *)
Ltac inv_result :=
  repeat match goal with
  | H : Ok _ = Ok _ |- _ => injection H as H
  | H : Err _ = Err _ |- _ => injection H as H
  | H : Ok _ = Err _ |- _ => discriminate H
  | H : Err _ = Ok _ |- _ => discriminate H
  | H : Some _ = Some _ |- _ => injection H as H
  | H : Some _ = None |- _ => discriminate H
  | H : None = Some _ |- _ => discriminate H
  | H : (_, _) = (_, _) |- _ => injection H as H
  end.

Lemma Ok_inj {E A} (a b : A) : @Ok E A a = Ok b -> a = b.
Proof. congruence. Qed.

Lemma Err_inj {E A} (a b : E) : @Err E A a = Err b -> a = b.
Proof. congruence. Qed.

Lemma rbind_Ok_inv {E A B} (r : result E A) (k : A -> result E B) b :
  rbind r k = Ok b -> exists a, r = Ok a /\ k a = Ok b.
Proof. destruct r as [a|e]; [by exists a|done]. Qed.

Lemma or_error_Ok_inv {E A} (e : E) (o : option A) a : or_error e o = Ok a -> o = Some a.
Proof. destruct o; simpl; congruence. Qed.

(** Inverts a successful chain of fallible steps: every step succeeded. *)
Ltac inv_binds :=
  repeat match goal with
  | H : rbind _ _ = Ok _ |- _ =>
      apply rbind_Ok_inv in H; let x := fresh "r" in let Hx := fresh "Hr" in destruct H as (x & Hx & H)
  | H : or_error _ _ = Ok _ |- _ => apply or_error_Ok_inv in H
  | H : (let '(_, _) := ?p in _) = Ok _ |- _ => destruct p eqn:?
  end.

(** ** Width lemmas *)

Lemma wrap_bound w z : 0 <= w -> 0 <= wrap w z < 2 ^ w.
Proof. intros. unfold wrap. apply Z.mod_pos_bound. lia. Qed.

Lemma u8_bound z : is_u8 (u8 z).
Proof. by apply wrap_bound. Qed.

Lemma u16_bound z : is_u16 (u16 z).
Proof. by apply wrap_bound. Qed.

Lemma u32_bound z : is_u32 (u32 z).
Proof. by apply wrap_bound. Qed.

Lemma u64_bound z : is_u64 (u64 z).
Proof. by apply wrap_bound. Qed.

Lemma u8_small z : is_u8 z -> u8 z = z.
Proof. apply Z.mod_small. Qed.

Lemma u16_small z : is_u16 z -> u16 z = z.
Proof. apply Z.mod_small. Qed.

Lemma u32_small z : is_u32 z -> u32 z = z.
Proof. apply Z.mod_small. Qed.

Lemma u64_small z : is_u64 z -> u64 z = z.
Proof. apply Z.mod_small. Qed.

Lemma i64_small z : - 2 ^ 63 <= z < 2 ^ 63 -> i64 z = z.
Proof.
  intros H. unfold i64, signed, wrap.
  destruct (Z.le_gt_cases 0 z).
  - rewrite Z.mod_small by lia. case_ifs; lia.
  - replace (z mod 2 ^ 64) with (z + 2 ^ 64).
    + case_ifs; lia.
    + symmetry. rewrite <- (Z.mod_add z 1) by lia. rewrite Z.mod_small; lia.
Qed.

(** ** Byte codec lemmas *)

Lemma b2z_bound b : 0 <= b2z b < 256.
Proof.
  unfold b2z. pose proof (Byte.to_N_bounded b). lia.
Qed.

Lemma b2z_z2b z : b2z (z2b z) = z mod 256.
Proof.
  unfold b2z, z2b. pose proof (Z.mod_pos_bound z 256 ltac:(lia)) as Hb.
  destruct (Byte.of_N (Z.to_N (z mod 256))) as [b|] eqn:E.
  - apply Byte.to_of_N in E. rewrite E. lia.
  - apply Byte.of_N_None_iff in E. lia.
Qed.

Lemma z2b_b2z b : z2b (b2z b) = b.
Proof.
  unfold z2b. pose proof (b2z_bound b). rewrite Z.mod_small by lia.
  unfold b2z. rewrite N2Z.id, Byte.of_to_N. done.
Qed.

Lemma b2z_inj b1 b2 : b2z b1 = b2z b2 -> b1 = b2.
Proof. intros H. rewrite <- (z2b_b2z b1), H. apply z2b_b2z. Qed.

Lemma b2z_z2b_u8 z : 0 <= z < 256 -> b2z (z2b z) = z.
Proof. intros. rewrite b2z_z2b. by apply Z.mod_small. Qed.

Lemma length_be_encode n z : length (be_encode n z) = n.
Proof. induction n; simpl; congruence. Qed.

Lemma pow256 n : 2 ^ (8 * Z.of_nat n) = 256 ^ Z.of_nat n.
Proof. rewrite Z.pow_mul_r by lia. done. Qed.

Lemma byte_at_bound bs i : 0 <= byte_at bs i < 256.
Proof. unfold byte_at. destruct (bs !! i); [apply b2z_bound|lia]. Qed.

Lemma be_decode_bound bs : 0 <= be_decode bs < 256 ^ zlen bs.
Proof.
  unfold zlen. induction bs as [|b t IH]; [done|].
  cbn [be_decode length]. rewrite Nat2Z.inj_succ, Z.pow_succ_r by lia.
  pose proof (b2z_bound b). nia.
Qed.

Lemma be_decode_app l1 l2 :
  be_decode (l1 ++ l2) = be_decode l1 * 256 ^ zlen l2 + be_decode l2.
Proof.
  unfold zlen. induction l1 as [|b t IH]; [done|].
  cbn [be_decode app]. rewrite IH, length_app, Nat2Z.inj_add, Z.pow_add_r by lia. lia.
Qed.

Lemma be_decode_encode n z : be_decode (be_encode n z) = z mod 256 ^ Z.of_nat n.
Proof.
  induction n as [|n IH]; [by rewrite Z.mod_1_r|].
  cbn [be_encode be_decode]. rewrite IH, length_be_encode, b2z_z2b.
  rewrite Z.shiftr_div_pow2, pow256, Nat2Z.inj_succ, Z.pow_succ_r by lia.
  rewrite (Z.mul_comm 256), Z.rem_mul_r by lia. lia.
Qed.

Lemma be_decode_inj l1 l2 :
  length l1 = length l2 -> be_decode l1 = be_decode l2 -> l1 = l2.
Proof.
  revert l2. induction l1 as [|b1 t1 IH]; intros [|b2 t2]; simpl; try done.
  intros [= Hlen] Heq. pose proof (be_decode_bound t1). pose proof (be_decode_bound t2).
  unfold zlen in *. rewrite Hlen in *.
  destruct (Z.div_mod_unique (256 ^ Z.of_nat (length t2)) (b2z b1) (b2z b2)
              (be_decode t1) (be_decode t2)) as [Hb Ht]; [lia..|].
  f_equal; [by apply b2z_inj|by apply IH].
Qed.

Lemma be_encode_decode n bs : length bs = n -> be_encode n (be_decode bs) = bs.
Proof.
  intros <-. apply be_decode_inj; [apply length_be_encode|].
  rewrite be_decode_encode. apply Z.mod_small, be_decode_bound.
Qed.

Lemma be_decode_encode_small n z :
  0 <= z < 256 ^ Z.of_nat n -> be_decode (be_encode n z) = z.
Proof. intros. rewrite be_decode_encode. by apply Z.mod_small. Qed.

(** ** Exclusive or *)

Lemma lxor_bound n a b : 0 <= n -> 0 <= a < 2 ^ n -> 0 <= b < 2 ^ n -> 0 <= Z.lxor a b < 2 ^ n.
Proof.
  intros Hn Ha Hb. split; [apply Z.lxor_nonneg; lia|].
  destruct (Z.eq_dec n 0) as [->|Hn0].
  { replace a with 0 by lia. replace b with 0 by lia. done. }
  destruct (Z.eq_dec (Z.lxor a b) 0) as [->|Hne]; [lia|].
  assert (0 <= Z.lxor a b) by (apply Z.lxor_nonneg; lia).
  assert (Hlog : forall x, 0 <= x < 2 ^ n -> Z.log2 x < n).
  { intros x Hx. destruct (Z.eq_dec x 0) as [->|]; [cbn; lia|]. apply Z.log2_lt_pow2; lia. }
  apply Z.log2_lt_pow2; [lia|]. eapply Z.le_lt_trans; [apply Z.log2_lxor; lia|].
  apply Z.max_lub_lt; by apply Hlog.
Qed.

Lemma lxor_cancel a b : Z.lxor (Z.lxor a b) b = a.
Proof. by rewrite Z.lxor_assoc, Z.lxor_nilpotent, Z.lxor_0_r. Qed.

Definition byte_xor (a b : byte) : byte := z2b (Z.lxor (b2z a) (b2z b)).

Lemma byte_xor_cancel a b : byte_xor (byte_xor a b) b = a.
Proof.
  unfold byte_xor. rewrite b2z_z2b_u8, lxor_cancel; [apply z2b_b2z|].
  apply (lxor_bound 8); [lia|apply b2z_bound..].
Qed.

(** ** Slices *)

Lemma slice_full {A} (l : list A) : slice 0 (length l) l = l.
Proof. unfold slice. rewrite drop_0, Nat.sub_0_r, firstn_all. done. Qed.

Lemma length_slice {A} i j (l : list A) :
  (i <= j)%nat -> (j <= length l)%nat -> length (slice i j l) = (j - i)%nat.
Proof. intros. unfold slice. rewrite length_take, length_drop. lia. Qed.

(** A slice that starts at the end of a known prefix. *)
Lemma slice_app {A} i j (l1 l2 l3 : list A) :
  i = length l1 -> j = (length l1 + length l2)%nat -> slice i j (l1 ++ l2 ++ l3) = l2.
Proof.
  intros -> ->. unfold slice. rewrite drop_app_length.
  replace (length l1 + length l2 - length l1)%nat with (length l2) by lia.
  apply take_app_length.
Qed.

Lemma slice_prefix {A} j (l1 l2 : list A) : j = length l1 -> slice 0 j (l1 ++ l2) = l1.
Proof. intros ->. apply (slice_app 0 _ []); done. Qed.

Lemma zlen_nil {A} : zlen (@nil A) = 0.
Proof. done. Qed.

Lemma zlen_cons {A} (x : A) l : zlen (x :: l) = zlen l + 1.
Proof. unfold zlen. simpl. lia. Qed.

Lemma zlen_app {A} (l1 l2 : list A) : zlen (l1 ++ l2) = zlen l1 + zlen l2.
Proof. unfold zlen. rewrite length_app. lia. Qed.

Lemma zlen_nonneg {A} (l : list A) : 0 <= zlen l.
Proof. unfold zlen. lia. Qed.

Lemma fmap_lookup_total_seq {A} `{Inhabited A} (l : list A) :
  (fun j => l !!! j) <$> seq 0 (length l) = l.
Proof.
  induction l as [|x l IH]; [done|]. cbn [length seq]. rewrite fmap_cons, <- fmap_S_seq.
  rewrite <- list_fmap_compose. f_equal. exact IH.
Qed.

Create HintDb go.
Create Rewrite HintDb go.
#[export] Hint Rewrite @zlen_nil @zlen_cons @zlen_app : go.
#[export] Hint Rewrite length_be_encode @length_app @length_take @length_drop : go.
#[export] Hint Resolve u8_bound u16_bound u32_bound u64_bound b2z_bound zlen_nonneg : go.

#[global] Arguments be_encode : simpl never.
#[global] Arguments be_decode : simpl never.
#[global] Arguments z2b : simpl never.
#[global] Arguments b2z : simpl never.

#[global] Program Instance byte_countable : Countable byte :=
  inj_countable Byte.to_N Byte.of_N _.
Next Obligation. intros b. apply Byte.of_to_N. Qed.

(** ** Ranging over Go maps

    [for k, v := range m] visits every entry once in an unspecified order. The
    order is an argument of the code that ranges, of this class. *)

Class GoRange (K V : Type) `{Countable K} := {
  go_range : gmap K V -> list (K * V);
  go_range_perm : forall m : gmap K V, go_range m ≡ₚ map_to_list m;
}.

(** One possible order. *)
Definition range_map_to_list (K V : Type) `{Countable K} : GoRange K V :=
  {| go_range := map_to_list; go_range_perm := fun m => Permutation_refl _ |}.

Section GoMaps.
Context {K V : Type} `{Countable K}.

(** The loop that looks for the entry with the smallest time stamp:
    [if first || t.Before(oldest)]. *)
Fixpoint scan_oldest (created : V -> Z) (l : list (K * V)) (best : option (K * Z))
    : option (K * Z) :=
  match l with
  | [] => best
  | (k, v) :: rest =>
      match best with
      | None => scan_oldest created rest (Some (k, created v))
      | Some (_, t) =>
          if created v <? t then scan_oldest created rest (Some (k, created v))
          else scan_oldest created rest best
      end
  end.

(** The loop that deletes the entries satisfying [P] and counts them. *)
Fixpoint delete_where (P : K -> V -> bool) (l : list (K * V)) (m : gmap K V) (removed : Z)
    : gmap K V * Z :=
  match l with
  | [] => (m, removed)
  | (k, v) :: rest =>
      if P k v then delete_where P rest (delete k m) (removed + 1)
      else delete_where P rest m removed
  end.

Lemma scan_oldest_spec created l best r :
  scan_oldest created l best = Some r ->
  (best = Some r \/ exists v, (r.1, v) ∈ l /\ created v = r.2) /\
  (forall k v, (k, v) ∈ l -> r.2 <= created v) /\
  (forall b, best = Some b -> r.2 <= b.2).
Proof.
  revert best. induction l as [|[k v] l IH]; intros best; simpl.
  - intros ->. split_and!; [by left|by intros ? ? ?%elem_of_nil|]. intros b [= ->]. lia.
  - destruct best as [[k0 t]|]; [destruct (created v <? t) eqn:E; bool_props|];
      intros (H1 & H2 & H3)%IH;
      (split_and!;
        [ destruct H1 as [H1|(v' & Hv & <-)];
          [ first [by left | right; injection H1 as <-; exists v; split; [by left|done]]
          | right; exists v'; split; [by right|done] ]
        | intros k' v' [[= -> ->]|Hin]%elem_of_cons; [|by eapply H2];
          specialize (H3 _ eq_refl); simpl in *; lia
        | intros b Hb; first [done | injection Hb as <-];
          specialize (H3 _ eq_refl); simpl in *; lia ]).
Qed.

Lemma scan_oldest_some created l k t :
  exists r, scan_oldest created l (Some (k, t)) = Some r.
Proof.
  revert k t. induction l as [|[k' v'] l IH]; intros k t; simpl; [by eexists|].
  destruct (_ <? _); apply IH.
Qed.

Lemma scan_oldest_none created l : scan_oldest created l None = None <-> l = [].
Proof.
  split; [|by intros ->]. destruct l as [|[k v] l]; [done|]. simpl.
  destruct (scan_oldest_some created l k (created v)) as [r ->]. done.
Qed.

Lemma delete_where_spec P l m removed :
  NoDup l.*1 -> (forall k v, (k, v) ∈ l -> m !! k = Some v) ->
  delete_where P l m removed =
    (filter (fun kv => ~ (kv.1 ∈ l.*1 /\ P kv.1 kv.2 = true)) m,
     removed + zlen (List.filter (fun kv => P kv.1 kv.2) l)).
Proof.
  revert m removed. induction l as [|[k v] l IH]; intros m removed Hnd Hin.
  - simpl. rewrite zlen_nil, Z.add_0_r, map_filter_id; [done|].
    intros i x _ [Hi _]. by apply elem_of_nil in Hi.
  - inversion_clear Hnd as [|? ? Hk Hnd']. simpl.
    pose proof (Hin k v ltac:(by left)) as Hkv.
    destruct (P k v) eqn:E.
    + rewrite IH; [|done|].
      * rewrite zlen_cons. f_equal; [|lia]. apply map_eq. intros i.
        apply option_eq. intros x. rewrite !map_lookup_filter_Some, lookup_delete_Some. simpl.
        destruct (decide (i = k)) as [->|Hne].
        -- split; [tauto|]. intros [Hx Hn]. exfalso. apply Hn. split; [by left|]. congruence.
        -- rewrite elem_of_cons. naive_solver.
      * intros k' v' Hin'. rewrite lookup_delete_ne; [by apply Hin; right|].
        intros <-. apply Hk. by apply (list_elem_of_fmap_2 fst) in Hin'.
    + rewrite IH; [|done|by intros; apply Hin; right]. f_equal.
      apply map_filter_strong_ext. intros i x. simpl. rewrite elem_of_cons.
      split; intros [Hx Hm]; (split; [|done]); intros [Hi Hp]; apply Hx.
      * destruct Hi as [->|Hi]; [congruence|done].
      * tauto.
Qed.

Lemma delete_where_count (R : GoRange K V) P m :
  zlen (List.filter (fun kv => P kv.1 kv.2) (go_range m))
  = Z.of_nat (size m) - Z.of_nat (size (filter (fun kv => P kv.1 kv.2 = false) m)).
Proof.
  assert (Hl : forall l : list (K * V),
    length l = (length (List.filter (fun kv => P kv.1 kv.2) l)
                + length (filter (fun kv => P kv.1 kv.2 = false) l))%nat).
  { intros l. induction l as [|kv l IH]; [done|]. rewrite filter_cons. simpl.
    destruct (P kv.1 kv.2) eqn:E; case_decide; simpl; (congruence || lia). }
  assert (Hnd : NoDup (filter (fun kv => P kv.1 kv.2 = false) (map_to_list m)).*1).
  { eapply sublist_NoDup; [|apply fmap_sublist, sublist_filter]. apply NoDup_fst_map_to_list. }
  unfold zlen. rewrite <- !length_map_to_list, map_filter_alt, map_to_list_to_map by done.
  pose proof (Hl (go_range m)) as Hg. rewrite (go_range_perm m) in Hg at 3.
  rewrite <- (go_range_perm m) at 1. lia.
Qed.
(** Deleting in a range loop over the map itself is a filter, and the
    counter is the number of entries that left the map. *)
Lemma delete_where_range (R : GoRange K V) P m removed :
  delete_where P (go_range m) m removed =
    (filter (fun kv => P kv.1 kv.2 = false) m,
     removed + (Z.of_nat (size m)
                - Z.of_nat (size (filter (fun kv => P kv.1 kv.2 = false) m)))).
Proof.
  rewrite <- (delete_where_count R).
  pose proof (go_range_perm m) as Hp.
  assert (Hin : forall k v, (k, v) ∈ go_range m <-> m !! k = Some v).
  { intros k v. by rewrite Hp, elem_of_map_to_list. }
  rewrite delete_where_spec.
  - f_equal. apply map_filter_strong_ext. intros i x. simpl.
    split; intros [Hn Hm]; (split; [|done]).
    + destruct (P i x) eqn:E; [|done]. exfalso. apply Hn. split; [|done].
      apply Hin in Hm. by apply (list_elem_of_fmap_2 fst) in Hm.
    + intros [_ Hx]. congruence.
  - rewrite Hp. apply NoDup_fst_map_to_list.
  - intros k v. apply Hin.
Qed.

Lemma go_range_elem {R : GoRange K V} m k v : (k, v) ∈ go_range m <-> m !! k = Some v.
Proof. by rewrite (go_range_perm m), elem_of_map_to_list. Qed.

Lemma go_range_empty (R : GoRange K V) : go_range (∅ : gmap K V) = [].
Proof. apply Permutation_nil_r. by rewrite (go_range_perm ∅), map_to_list_empty. Qed.

(** Looking for the oldest entry of a non-empty map finds one. *)
Lemma scan_oldest_range (R : GoRange K V) created m :
  m <> ∅ ->
  exists k v, scan_oldest created (go_range m) None = Some (k, created v)
    /\ m !! k = Some v /\ forall k' v', m !! k' = Some v' -> created v <= created v'.
Proof.
  intros Hne. destruct (scan_oldest created (go_range m) None) as [[k t]|] eqn:E.
  - apply scan_oldest_spec in E as ([?|(v & Hv & Ht)] & Hmin & _); [done|]. simpl in *.
    apply go_range_elem in Hv. exists k, v. split_and!; [by rewrite Ht|done|].
    intros k' v' Hk'. rewrite Ht. by eapply Hmin, go_range_elem.
  - apply scan_oldest_none in E. exfalso. apply Hne, map_to_list_empty_iff, Permutation_nil_r.
    by rewrite <- (go_range_perm m), E.
Qed.

Lemma size_delete_le (k : K) (m : gmap K V) : (size (delete k m) <= size m)%nat.
Proof. rewrite map_size_delete. destruct (m !! k); simpl; lia. Qed.

Lemma size_insert_le (k : K) v (m : gmap K V) : (size (<[k := v]> m) <= S (size m))%nat.
Proof. rewrite map_size_insert. destruct (m !! k); simpl; lia. Qed.
End GoMaps.

(** ** Sorting slices

    [sort.Slice] sorts by a comparison and is not stable: among equal elements
    any order may result. *)

Class GoSort (A : Type) := {
  sort_slice : (A -> A -> bool) -> list A -> list A;
  sort_slice_perm : forall less l, sort_slice less l ≡ₚ l;
  sort_slice_sorted : forall (key : A -> Z) l,
    StronglySorted (fun a b => key a <= key b) (sort_slice (fun a b => key a <? key b) l);
}.

(** One possible sort. *)
Section SortMerge.
Context {A : Type}.

Definition not_after (less : A -> A -> bool) (a b : A) : Prop := less b a = false.

#[local] Instance not_after_dec less : RelDecision (not_after less).
Proof. intros a b. unfold not_after. apply _. Defined.

#[program] Definition sort_merge : GoSort A :=
  {| sort_slice := fun less l => merge_sort (not_after less) l |}.
Next Obligation. intros. apply merge_sort_Permutation. Qed.
Next Obligation.
  intros key l. simpl.
  assert (Hs : StronglySorted (not_after (fun a b => key a <? key b))
    (merge_sort (not_after (fun a b => key a <? key b)) l)).
  { apply StronglySorted_merge_sort.
    - intros a b c. unfold not_after. rewrite !Z.ltb_ge. lia.
    - intros a b. unfold not_after. rewrite !Z.ltb_ge. lia. }
  induction Hs as [|a k Hk IH Ha]; constructor; [done|].
  eapply Forall_impl; [done|]. intros b. unfold not_after. rewrite Z.ltb_ge. done.
Qed.
End SortMerge.

(** The keys of a list deleted from a map one after the other. *)
Definition delete_keys {K V} `{Countable K} (l : list (K * V)) (m : gmap K V) : gmap K V :=
  foldl (fun m kv => delete kv.1 m) m l.

Section DeleteKeys.
Context {K V : Type} `{Countable K}.
Implicit Types (m : gmap K V).

Lemma lookup_delete_keys l m k :
  delete_keys l m !! k = if decide (k ∈ l.*1) then None else m !! k.
Proof.
  revert m. induction l as [|[k' v'] l IH]; intros m.
  { cbn. case_decide as Hk; [by apply elem_of_nil in Hk|done]. }
  unfold delete_keys in *. cbn [foldl fst]. rewrite IH. cbn. destruct (decide (k ∈ l.*1)).
  - rewrite decide_True; [done|by right].
  - destruct (decide (k = k')) as [->|Hne].
    + rewrite decide_True by (by left). by rewrite lookup_delete_eq.
    + rewrite decide_False by (intros [?|?]%elem_of_cons; done). by rewrite lookup_delete_ne.
Qed.

Lemma delete_keys_subseteq l m : delete_keys l m ⊆ m.
Proof. apply map_subseteq_spec. intros k v. rewrite lookup_delete_keys. by case_decide. Qed.

Lemma size_delete_keys l m :
  NoDup l.*1 -> (forall k v, (k, v) ∈ l -> is_Some (m !! k)) ->
  (size (delete_keys l m) + length l)%nat = size m.
Proof.
  revert m. induction l as [|[k v] l IH]; intros m Hnd Hin; [cbn; lia|].
  inversion_clear Hnd as [|? ? Hk Hnd']. destruct (Hin k v) as [x Hx]; [by left|].
  unfold delete_keys in *. cbn [foldl fst length]. specialize (IH (delete k m) Hnd').
  rewrite map_size_delete_Some in IH by (by eexists).
  assert (Hs : size m <> 0%nat) by (intros Hz; apply map_size_empty_inv in Hz; set_solver).
  rewrite Nat.add_succ_r, IH; [lia|]. intros k' v' Hl.
  rewrite lookup_delete_ne; [apply (Hin k' v'); by right|].
  intros <-. by apply (list_elem_of_fmap_2 fst) in Hl.
Qed.
End DeleteKeys.

(** ** Arrivals

    The messages of a list are sent over a network that may reorder, repeat and
    lose them; an arrival is the index of a message. *)

(** The arrivals without repetitions. *)
Fixpoint first_arrivals (seen : list nat) (l : list nat) : list nat :=
  match l with
  | [] => []
  | i :: rest => if decide (i ∈ seen) then first_arrivals seen rest
                 else i :: first_arrivals (i :: seen) rest
  end.

Lemma first_arrivals_spec seen l :
  NoDup (first_arrivals seen l)
  /\ forall i, i ∈ first_arrivals seen l <-> i ∈ l /\ i ∉ seen.
Proof.
  revert seen. induction l as [|j l IH]; intros seen; cbn [first_arrivals]; [split; [constructor|set_solver]|].
  case_decide as Hj.
  - destruct (IH seen) as [Hnd Hin]. split; [done|]. intros i. rewrite Hin. set_solver.
  - destruct (IH (j :: seen)) as [Hnd Hin]. split.
    + constructor; [rewrite Hin; set_solver|done].
    + intros i. rewrite elem_of_cons, Hin. destruct (decide (i = j)); set_solver.
Qed.

Lemma omap_lookup_seq {A} (l : list A) : omap (fun i => l !! i) (seq 0 (length l)) = l.
Proof.
  induction l as [|x l IH] using rev_ind; [done|].
  rewrite length_app, seq_app, omap_app. cbn. rewrite lookup_app_r, Nat.sub_diag by lia. cbn. f_equal.
  rewrite <- IH at 2. apply list_omap_ext, Forall2_same_length_lookup_2; [done|].
  intros k i j Hi Hj. assert (i = j) as <- by congruence.
  apply list_elem_of_lookup_2, elem_of_seq in Hi. apply lookup_app_l. lia.
Qed.

Lemma first_arrivals_below n l :
  Forall (fun i => i < n)%nat l -> forall i, i ∈ first_arrivals [] l -> i ∈ seq 0 n.
Proof.
  intros Hl i Hi. apply (proj2 (first_arrivals_spec [] l)) in Hi as [Hi _]. apply elem_of_seq.
  rewrite Forall_forall in Hl. specialize (Hl i Hi). simpl in Hl. lia.
Qed.

Lemma first_arrivals_length n l :
  Forall (fun i => i < n)%nat l -> (length (first_arrivals [] l) <= n)%nat.
Proof.
  intros Hl. rewrite <- (length_seq n 0). apply submseteq_length, NoDup_submseteq.
  - apply first_arrivals_spec.
  - by apply first_arrivals_below.
Qed.

Lemma first_arrivals_complete {A} (msgs : list A) l :
  Forall (fun i => i < length msgs)%nat l -> (forall i, (i < length msgs)%nat -> i ∈ l) ->
  omap (fun i => msgs !! i) (first_arrivals [] l) ≡ₚ msgs.
Proof.
  intros Hl Hall. destruct (first_arrivals_spec [] l) as [Hnd Hin].
  transitivity (omap (fun i => msgs !! i) (seq 0 (length msgs))); [|by rewrite omap_lookup_seq].
  apply omap_Permutation, NoDup_Permutation; [done|apply NoDup_seq|]. intros i. split; [by apply first_arrivals_below|].
  intros Hi%elem_of_seq. apply Hin. split; [apply Hall; lia|set_solver].
Qed.

(** ** Connection states

    [mod/state.go] *)

Inductive ConnState := StateInit | StateHandshaking | StateEstablished | StateClosing | StateClosed.

#[export] Instance ConnState_eq_dec : EqDecision ConnState.
Proof. solve_decision. Defined.

(** [bytes.Contains] *)
Fixpoint Contains (l sub : bytes) : bool :=
  bool_decide (take (length sub) l = sub)
  || match l with [] => false | _ :: l => Contains l sub end.

Lemma contains_short l sub : (length l < length sub)%nat -> Contains l sub = false.
Proof.
  assert (Htake : forall l0 : bytes, (length l0 < length sub)%nat -> bool_decide (take (length sub) l0 = sub) = false).
  { intros l0 Hl. apply bool_decide_eq_false_2. intros Heq. apply (f_equal length) in Heq. rewrite length_take in Heq. lia. }
  induction l as [|y l IH]; intros Hl; cbn [Contains]; rewrite Htake by done; [done|]. apply IH. cbn in Hl. lia.
Qed.

Lemma contains_prefix (l r : bytes) : Contains (l ++ r) l = true.
Proof. destruct (l ++ r) eqn:E; cbn [Contains]; rewrite <- E, take_app_length, bool_decide_eq_true_2; done. Qed.
