(* ===== verification/Float64.v ===== *)
(** * Go's [float64]

    IEEE 754 binary64 arithmetic with rounding to nearest even, by the Standard
    Library's [SpecFloat]. The conversion of a float64 that is out of range to an
    integer is implementation-specific in Go, so it is an operation of a class.
    The lemmas say when the arithmetic is exact: operands and result are integers
    of less than 53 bits, scaled by a power of two. *)

From Stdlib Require Import Floats.SpecFloat.
From stdpp Require Import base numbers.
From S2P Require Import Prelude.

#[local] Open Scope Z_scope.

Abbreviation float64 := spec_float.
Abbreviation fmul := (SFmul 53 1024).
Abbreviation fadd := (SFadd 53 1024).
Abbreviation fdiv := (SFdiv 53 1024).

(** [float64(z)] of an integer. *)
Definition f64 (z : Z) : float64 := binary_normalize 53 1024 z 0 false.

(** [math.Ceil] *)
Definition fceil (f : float64) : float64 :=
  match f with
  | S754_finite s m (Zneg d) =>
      let q := Zpos m / 2 ^ Zpos d in
      if s then SFopp (f64 q)
      else f64 (if Zpos m mod 2 ^ Zpos d =? 0 then q else q + 1)
  | _ => f
  end.

(** Constants of the source, all exact. *)
Definition f64_0_125 : float64 := binary_normalize 53 1024 1 (-3) false.
Definition f64_0_25 : float64 := binary_normalize 53 1024 1 (-2) false.
Definition f64_0_75 : float64 := binary_normalize 53 1024 3 (-2) false.
Definition f64_15_9375 : float64 := binary_normalize 53 1024 255 (-4) false.
Definition f64_0_875 : float64 := binary_normalize 53 1024 7 (-3) false.

Class FloatConv := {
  f2i_out_of_range : float64 -> Z;
  f2i_out_of_range_int64 : forall f, - 2 ^ 63 <= f2i_out_of_range f < 2 ^ 63;
}.

(** amd64 gives the smallest int64. *)
Definition amd64_conv : FloatConv.
Proof. refine {| f2i_out_of_range _ := - 2 ^ 63 |}. done. Defined.

(** [int64(f)]: truncation toward zero. *)
Definition f2i `{FloatConv} (f : float64) : Z :=
  match f with
  | S754_zero _ => 0
  | S754_finite s m e =>
      let a := if 0 <=? e then Z.pos m * 2 ^ e else Z.pos m / 2 ^ (- e) in
      let v := if s then - a else a in
      if (- 2 ^ 63 <=? v) && (v <? 2 ^ 63) then v else f2i_out_of_range f
  | _ => f2i_out_of_range f
  end.

(** [time.Duration.Seconds]. *)
Definition Seconds (d : Z) : float64 :=
  fadd (f64 (Z.quot d Second)) (fdiv (f64 (Z.rem d Second)) (f64 1000000000)).

Lemma f2i_int64 `{FloatConv} f : - 2 ^ 63 <= f2i f < 2 ^ 63.
Proof.
  destruct f as [s|s| |s m e]; simpl; try apply f2i_out_of_range_int64; [done|].
  destruct (_ && _) eqn:E; [bool_props; lia|apply f2i_out_of_range_int64].
Qed.

(** ** Exactness *)

(** The canonical float of [z * 2 ^ e]. *)
Definition canon (z e : Z) : float64 :=
  match z with
  | Zpos _ => let j := 52 - Z.log2 z in S754_finite false (Z.to_pos (z * 2 ^ j)) (e - j)
  | _ => S754_zero false
  end.

Definition fits (z e : Z) : Prop := 0 <= z < 2 ^ 53 /\ -200 <= e <= 200.

Lemma digits2_log2 m : Zpos (digits2_pos m) = Z.log2 (Zpos m) + 1.
Proof.
  induction m as [m IH|m IH|]; cbn [digits2_pos]; [| |done]; rewrite Pos2Z.inj_succ, IH.
  - rewrite (Pos2Z.inj_xI m), Z.log2_succ_double by lia. lia.
  - rewrite (Pos2Z.inj_xO m), Z.log2_double by lia. lia.
Qed.

Lemma iter_pos_nat {A} (f : A -> A) n x : SpecFloat.iter_pos f n x = Nat.iter (Pos.to_nat n) f x.
Proof.
  revert x. induction n as [n IH|n IH|]; intros x; cbn [SpecFloat.iter_pos]; [| |done]; rewrite !IH.
  - rewrite <- Nat.iter_add, <- Nat.iter_succ_r. f_equal. lia.
  - rewrite <- Nat.iter_add. f_equal. lia.
Qed.

Lemma shr_1_iter n z :
  0 <= z -> Nat.iter n shr_1 (Build_shr_record (z * 2 ^ Z.of_nat n) false false)
            = Build_shr_record z false false.
Proof.
  intros Hz. induction n as [|n IH]; [by rewrite Z.mul_1_r|].
  rewrite Nat.iter_succ_r. rewrite <- IH. f_equal.
  rewrite Nat2Z.inj_succ, Z.pow_succ_r by lia.
  replace (z * (2 * 2 ^ Z.of_nat n)) with (2 * (z * 2 ^ Z.of_nat n)) by lia.
  assert (0 <= z * 2 ^ Z.of_nat n) by lia. by destruct (z * 2 ^ Z.of_nat n).
Qed.

Lemma shr_exact z n e :
  0 <= z -> 0 <= n ->
  shr (Build_shr_record (z * 2 ^ n) false false) e n = (Build_shr_record z false false, e + n).
Proof.
  intros Hz Hn. destruct n as [|p|]; [|cbn [shr]|lia].
  - by rewrite Z.mul_1_r, Z.add_0_r.
  - f_equal. rewrite iter_pos_nat, <- (positive_nat_Z p). by apply shr_1_iter.
Qed.

Lemma log2_mul_pow2' z n : 0 < z -> 0 <= n -> Z.log2 (z * 2 ^ n) = Z.log2 z + n.
Proof. intros. rewrite Z.log2_mul_pow2 by lia. lia. Qed.

Lemma fexp_normal d e : -1000 <= d + e -> fexp 53 1024 (d + e) - e = d - 53.
Proof. unfold fexp, emin. lia. Qed.

(** Rounding a long mantissa whose tail is zero drops the tail. *)
Lemma round_aux_exact z e j :
  0 < z -> fits z e -> 0 <= j <= 300 -> 52 <= Z.log2 z + j ->
  binary_round_aux 53 1024 false (z * 2 ^ j) (e - j) loc_Exact = canon z e.
Proof.
  intros Hz [Hf He] Hj Hl. assert (Z.log2 z < 53) by (apply Z.log2_lt_pow2; lia).
  pose proof (Z.log2_nonneg z). set (k := 52 - Z.log2 z).
  assert (Hd : forall a b, 0 < a -> 0 <= b -> Zdigits2 (a * 2 ^ b) = Z.log2 a + b + 1).
  { intros a b Ha Hb. rewrite <- log2_mul_pow2' by lia. assert (0 < a * 2 ^ b) by lia.
    destruct (a * 2 ^ b); [lia| |lia]. apply digits2_log2. }
  unfold binary_round_aux, shr_fexp. cbn [shr_record_of_loc].
  rewrite Hd, fexp_normal by lia.
  replace (z * 2 ^ j) with (z * 2 ^ k * 2 ^ (Z.log2 z + j + 1 - 53))
    by (rewrite <- Z.mul_assoc, <- Z.pow_add_r by lia; f_equal; f_equal; lia).
  rewrite shr_exact by lia. cbn [shr_m loc_of_shr_record round_nearest_even].
  rewrite Hd, fexp_normal by lia.
  replace (Z.log2 z + k + 1 - 53) with 0 by lia. cbn [shr shr_m].
  assert (0 < z * 2 ^ k) by lia. unfold canon. destruct z as [|p|]; [lia| |lia]. fold k.
  destruct (Zpos p * 2 ^ k) as [|q|] eqn:E; [lia| |lia]. simpl Z.to_pos.
  destruct (Z.leb_spec (e - j + (Z.log2 (Zpos p) + j + 1 - 53)) (1024 - 53)); [|lia].
  f_equal. lia.
Qed.

Lemma iter_xO m p : Zpos (Pos.iter xO m p) = Zpos m * 2 ^ Zpos p.
Proof.
  rewrite Pos2Nat.inj_iter, <- (positive_nat_Z p).
  generalize (Pos.to_nat p). intros n. induction n as [|n IH]; [by rewrite Z.mul_1_r|].
  cbn [Nat.iter nat_rect]. rewrite Pos2Z.inj_xO. unfold Nat.iter in IH. rewrite IH.
  rewrite Nat2Z.inj_succ, Z.pow_succ_r by lia. lia.
Qed.

Lemma normalize_exact z e j :
  fits z e -> 0 <= j <= 200 ->
  binary_normalize 53 1024 (z * 2 ^ j) (e - j) false = canon z e.
Proof.
  intros Hf Hj. destruct (decide (z = 0)) as [->|Hz]; [done|].
  assert (Hpos : 0 < z) by (destruct Hf; lia). pose proof Hf as [Hz53 He].
  assert (Z.log2 z < 53) by (apply Z.log2_lt_pow2; lia). pose proof (Z.log2_nonneg z).
  assert (0 < z * 2 ^ j) by lia. destruct (z * 2 ^ j) as [|m|] eqn:Em; [lia| |lia].
  cbn [binary_normalize]. unfold binary_round, shl_align.
  assert (Hlog : Z.log2 (Zpos m) = Z.log2 z + j) by (rewrite <- Em; apply log2_mul_pow2'; lia).
  rewrite digits2_log2, Hlog, fexp_normal by lia.
  destruct (Z.log2 z + j + 1 - 53) as [|d|d] eqn:Ed.
  - rewrite <- Em. apply round_aux_exact; [done..|lia|lia].
  - rewrite <- Em. apply round_aux_exact; [done..|lia|lia].
  - rewrite iter_xO, <- Em, <- Z.mul_assoc, <- Z.pow_add_r by lia.
    replace (fexp 53 1024 (Z.log2 z + j + 1 + (e - j))) with (e - (j + Zpos d))
      by (pose proof (fexp_normal (Z.log2 z + j + 1) (e - j)); lia).
    apply round_aux_exact; [done..|lia|lia].
Qed.

(** [float64] of an integer below 2^53 is exact. *)
Lemma f64_exact z : 0 <= z < 2 ^ 53 -> f64 z = canon z 0.
Proof.
  intros Hz. unfold f64. rewrite <- (normalize_exact z 0 0) by (done || lia).
  by rewrite Z.mul_1_r.
Qed.

Lemma fmul_exact a ea b eb :
  fits a ea -> fits b eb -> fits (a * b) (ea + eb) ->
  fmul (canon a ea) (canon b eb) = canon (a * b) (ea + eb).
Proof.
  intros [Ha Hea] [Hb Heb] Hab. destruct (decide (a = 0)) as [->|]; [by destruct b|].
  destruct (decide (b = 0)) as [->|]; [rewrite Z.mul_0_r; by destruct a|].
  assert (Z.log2 a < 53) by (apply Z.log2_lt_pow2; lia).
  assert (Z.log2 b < 53) by (apply Z.log2_lt_pow2; lia).
  pose proof (Z.log2_nonneg a). pose proof (Z.log2_nonneg b).
  destruct a as [|pa|]; [lia| |lia]. destruct b as [|pb|]; [lia| |lia].
  unfold canon at 1 2. cbn [SFmul xorb]. set (ja := 52 - _). set (jb := 52 - Z.log2 (Zpos pb)).
  rewrite Pos2Z.inj_mul, !Z2Pos.id by lia.
  replace (Zpos pa * 2 ^ ja * (Zpos pb * 2 ^ jb)) with (Zpos pa * Zpos pb * 2 ^ (ja + jb))
    by (rewrite Z.pow_add_r by lia; ring).
  replace (ea - ja + (eb - jb)) with (ea + eb - (ja + jb)) by lia.
  apply round_aux_exact; [lia|done|lia|].
  pose proof (Z.log2_mul_below (Zpos pa) (Zpos pb)). lia.
Qed.

Lemma shl_align_value m e e' :
  e' <= e -> Zpos (shl_align m e e').1 = Zpos m * 2 ^ (e - e').
Proof.
  intros He. unfold shl_align. destruct (e' - e) as [|d|d] eqn:E; [|lia|].
  - replace (e - e') with 0 by lia. simpl. lia.
  - cbn [fst]. rewrite iter_xO. f_equal. f_equal. lia.
Qed.

Lemma fadd_exact a b e :
  fits a e -> fits b e -> fits (a + b) e ->
  fadd (canon a e) (canon b e) = canon (a + b) e.
Proof.
  intros [Ha He] [Hb _] Hab. destruct (decide (a = 0)) as [->|]; [by destruct b|].
  destruct (decide (b = 0)) as [->|]; [rewrite Z.add_0_r; by destruct a|].
  assert (Z.log2 a < 53) by (apply Z.log2_lt_pow2; lia).
  assert (Z.log2 b < 53) by (apply Z.log2_lt_pow2; lia).
  pose proof (Z.log2_nonneg a). pose proof (Z.log2_nonneg b).
  destruct a as [|pa|]; [lia| |lia]. destruct b as [|pb|]; [lia| |lia].
  unfold canon at 1 2. cbn [SFadd cond_Zopp]. set (ja := 52 - _). set (jb := 52 - Z.log2 (Zpos pb)).
  rewrite !shl_align_value by lia. rewrite !Z2Pos.id by lia.
  replace (Z.min (e - ja) (e - jb)) with (e - Z.max ja jb) by lia.
  rewrite <- !Z.mul_assoc, <- !Z.pow_add_r by lia.
  replace (ja + (e - ja - (e - Z.max ja jb))) with (Z.max ja jb) by lia.
  replace (jb + (e - jb - (e - Z.max ja jb))) with (Z.max ja jb) by lia.
  rewrite <- Z.mul_add_distr_r. apply normalize_exact; [done|lia].
Qed.

(** Converting [z / 2 ^ k] to an integer truncates. *)
Lemma f2i_exact `{FloatConv} z k : 0 <= z < 2 ^ 53 -> 0 <= k -> f2i (canon z (- k)) = z / 2 ^ k.
Proof.
  intros Hz Hk. destruct (decide (z = 0)) as [->|]; [by rewrite Z.div_0_l by lia|].
  destruct z as [|p|]; [lia| |lia]. assert (Z.log2 (Zpos p) < 53) by (apply Z.log2_lt_pow2; lia).
  unfold canon. cbn [f2i]. set (j := 52 - _).
  rewrite Z2Pos.id by lia.
  assert (Hv : (if 0 <=? - k - j then Zpos p * 2 ^ j * 2 ^ (- k - j)
                else Zpos p * 2 ^ j / 2 ^ (- (- k - j))) = Zpos p / 2 ^ k).
  { destruct (Z.leb_spec 0 (- k - j)).
    - replace k with 0 by lia. replace j with 0 by lia. simpl. rewrite Z.div_1_r. lia.
    - replace (- (- k - j)) with (k + j) by lia. rewrite Z.pow_add_r by lia.
      apply Z.div_mul_cancel_r; lia. }
  rewrite Hv. assert (0 <= Zpos p / 2 ^ k <= Zpos p).
  { split; [apply Z.div_pos; lia|]. apply Z.div_le_upper_bound; nia. }
  destruct (_ && _) eqn:E; [done|]. apply andb_false_iff in E as [?|?]; bool_props; lia.
Qed.

(** Converting [z * 2 ^ k] is exact as long as it is in range. *)
Lemma f2i_shift `{FloatConv} z k :
  0 < z < 2 ^ 53 -> 0 <= k -> f2i (canon z k) = if z * 2 ^ k <? 2 ^ 63 then z * 2 ^ k else f2i_out_of_range (canon z k).
Proof.
  intros Hz Hk. destruct z as [|p|]; [lia| |lia]. assert (Z.log2 (Zpos p) < 53) by (apply Z.log2_lt_pow2; lia).
  pose proof (Z.log2_nonneg (Zpos p)). unfold canon. cbn [f2i]. set (j := 52 - _). rewrite Z2Pos.id by lia.
  assert (Hv : (if 0 <=? k - j then Zpos p * 2 ^ j * 2 ^ (k - j) else Zpos p * 2 ^ j / 2 ^ (- (k - j))) = Zpos p * 2 ^ k).
  { destruct (Z.leb_spec 0 (k - j)).
    - rewrite <- Z.mul_assoc, <- Z.pow_add_r by lia. f_equal. f_equal. lia.
    - replace (2 ^ j) with (2 ^ k * 2 ^ (- (k - j))) by (rewrite <- Z.pow_add_r by lia; f_equal; lia).
      rewrite Z.mul_assoc. apply Z.div_mul. lia. }
  rewrite Hv. rewrite (proj2 (Z.leb_le (- 2 ^ 63) _)) by lia. cbn [andb]. done.
Qed.
