(* ===== verification/FloatBounds.v ===== *)
(** * Rounding errors of [float64]

    Bounds on the results of rounded arithmetic with non-negative numbers: a result
    is at most one unit in its last place away from the exact value. A float is
    measured in units of 2^-300, so that the bounds are statements about integers. *)

From Stdlib Require Import Floats.SpecFloat ZArith Lia.
From stdpp Require Import base numbers.
From S2P Require Import Prelude Float64.

#[local] Open Scope Z_scope.

Abbreviation fsub := (SFsub 53 1024).

Definition unit_exp : Z := 300.

(** A non-negative float in units of 2^-300. *)
Definition units (f : float64) : Z :=
  match f with
  | S754_finite false m e => Zpos m * 2 ^ (e + unit_exp)
  | _ => 0
  end.

(** The integer 1 in these units. *)
Definition U : Z := 2 ^ unit_exp.

(** Zero, or a positive number with 53 significant bits and an exponent within limits. *)
Definition normal (lo hi : Z) (f : float64) : Prop :=
  match f with
  | S754_zero s => s = false
  | S754_finite s m e => s = false /\ 2 ^ 52 <= Zpos m < 2 ^ 53 /\ lo <= e <= hi
  | _ => False
  end.

Lemma units_nonneg f : 0 <= units f.
Proof. destruct f as [| | |[] m e]; cbn; try done. assert (0 <= 2 ^ (e + unit_exp)) by (apply Z.pow_nonneg; lia). lia. Qed.

Lemma normal_weaken lo hi lo' hi' f : normal lo hi f -> lo' <= lo -> hi <= hi' -> normal lo' hi' f.
Proof. destruct f as [| | |s m e]; cbn; try done. intros (? & ? & ?) ? ?. split_and!; try done; lia. Qed.

Lemma Zdigits2_log2 z : 0 < z -> Zdigits2 z = Z.log2 z + 1.
Proof. destruct z; [lia| |lia]. intros _. apply digits2_log2. Qed.

(** ** Rounding *)

Lemma shr_1_m m r s : 0 <= m -> shr_m (shr_1 (Build_shr_record m r s)) = m / 2.
Proof.
  intros Hm. destruct m as [|[p|p|]|]; cbn [shr_1 shr_m]; [done| | |done|lia].
  - rewrite (Pos2Z.inj_xI p), Z.mul_comm, Z.div_add_l by lia. change (1 / 2) with 0. lia.
  - rewrite (Pos2Z.inj_xO p), Z.mul_comm, Z.div_mul by lia. done.
Qed.

Lemma shr_1_iter_m n mrs : 0 <= shr_m mrs -> shr_m (Nat.iter n shr_1 mrs) = shr_m mrs / 2 ^ Z.of_nat n.
Proof.
  intros Hm. induction n as [|n IH]; [by rewrite Z.div_1_r|]. cbn [Nat.iter nat_rect]. unfold Nat.iter in IH.
  destruct (nat_rect _ _ _ n) as [m r s] eqn:E. cbn [shr_m] in IH. rewrite shr_1_m.
  - rewrite IH, Z.div_div by lia. f_equal. rewrite Nat2Z.inj_succ, Z.pow_succ_r by lia. lia.
  - rewrite IH. apply Z.div_pos; lia.
Qed.

Lemma shr_m_shift z l e n : 0 <= z -> 0 <= n ->
  shr_m (shr (shr_record_of_loc z l) e n).1 = z / 2 ^ n /\ (shr (shr_record_of_loc z l) e n).2 = e + n.
Proof.
  intros Hz Hn. assert (Hm : shr_m (shr_record_of_loc z l) = z) by (by destruct l as [|[]]).
  destruct n as [|p|]; [|cbn [shr fst snd]|lia].
  - cbn [shr fst snd]. rewrite Hm, Z.div_1_r. lia.
  - split; [|done]. rewrite iter_pos_nat, shr_1_iter_m, Hm, positive_nat_Z by lia. done.
Qed.

Lemma round_even_cases m l : round_nearest_even m l = m \/ round_nearest_even m l = m + 1.
Proof. destruct l as [|[]]; cbn; try tauto. destruct (Z.even m); tauto. Qed.

(** The mantissa after both shifts of rounding. *)
Lemma renormalized r e :
  2 ^ 52 <= r <= 2 ^ 53 -> -900 <= e <= 900 ->
  exists m e', (let '(mrs, e'') := shr_fexp 53 1024 r e loc_Exact in (shr_m mrs, e'')) = (Zpos m, e')
    /\ 2 ^ 52 <= Zpos m < 2 ^ 53 /\ e <= e' <= e + 1 /\ forall k, 0 <= e + k -> Zpos m * 2 ^ (e' + k) = r * 2 ^ (e + k).
Proof.
  intros Hr He. destruct (decide (r = 2 ^ 53)) as [->|].
  - exists (Z.to_pos (2 ^ 52)), (e + 1). split_and!; [|done|done|lia|lia|].
    + unfold shr_fexp. change (Zdigits2 (2 ^ 53)) with 54. rewrite fexp_normal by lia. reflexivity.
    + intros k Hk. replace (e + 1 + k) with (1 + (e + k)) by lia. rewrite Z.pow_add_r by lia. cbn. lia.
  - assert (Z.log2 r = 52) by (apply Z.log2_unique; lia). exists (Z.to_pos r), e.
    rewrite Z2Pos.id by lia. split_and!; try lia.
    unfold shr_fexp. rewrite Zdigits2_log2, fexp_normal by lia. replace (_ - 53) with 0 by lia. done.
Qed.

Lemma round_aux_bounds z e l (n := Z.log2 z - 52) :
  2 ^ 52 <= z -> - unit_exp <= e -> -900 <= e + n <= 900 ->
  let f := binary_round_aux 53 1024 false z e l in
  normal (e + n) (e + n + 1) f
  /\ z / 2 ^ n * 2 ^ (e + n + unit_exp) <= units f <= (z / 2 ^ n + 1) * 2 ^ (e + n + unit_exp).
Proof.
  intros Hz He Hen. assert (52 <= Z.log2 z) by (apply Z.log2_le_pow2; lia). unfold unit_exp in *.
  pose proof (Z.log2_spec z ltac:(lia)) as [Hlo Hhi].
  assert (Hq : 2 ^ 52 <= z / 2 ^ n < 2 ^ 53).
  { split; [apply Z.div_le_lower_bound; [lia|]|apply Z.div_lt_upper_bound; [lia|]]; rewrite <- Z.pow_add_r by lia.
    - replace (n + 52) with (Z.log2 z) by lia. lia.
    - replace (n + 53) with (Z.succ (Z.log2 z)) by lia. lia. }
  unfold binary_round_aux. destruct (shr_fexp 53 1024 z e l) as [mrs e1] eqn:E1. unfold shr_fexp in E1.
  rewrite Zdigits2_log2, fexp_normal in E1 by lia. replace (Z.log2 z + 1 - 53) with n in E1 by lia.
  destruct (shr_m_shift z l e n) as [Hm He1]; [lia..|]. rewrite E1 in Hm, He1. cbn [fst snd] in *. subst e1.
  set (r := round_nearest_even _ _).
  assert (Hr : z / 2 ^ n <= r <= z / 2 ^ n + 1).
  { destruct (round_even_cases (shr_m mrs) (loc_of_shr_record mrs)) as [H1|H1]; unfold r; rewrite H1, Hm; lia. }
  destruct (renormalized r (e + n)) as (m & e' & E2 & Hm' & He' & Hv); [lia..|].
  destruct (shr_fexp 53 1024 r (e + n) loc_Exact) as [mrs2 e2]. injection E2 as Hm2 ->. rewrite Hm2.
  destruct (Z.leb_spec e' (1024 - 53)); [|lia]. cbn [normal units]. unfold unit_exp.
  rewrite (Hv 300) by lia. assert (0 <= 2 ^ (e + n + 300)) by (apply Z.pow_nonneg; lia). split; [split_and!; lia|nia].
Qed.

(** The result is close to the exact value [z * 2 ^ e], *)
Lemma round_aux_upper z e l :
  2 ^ 52 <= z -> - unit_exp <= e -> -900 <= e + (Z.log2 z - 52) <= 900 ->
  2 ^ 52 * units (binary_round_aux 53 1024 false z e l) <= (2 ^ 52 + 1) * (z * 2 ^ (e + unit_exp)).
Proof.
  intros Hz He Hen. assert (52 <= Z.log2 z) by (apply Z.log2_le_pow2; lia).
  destruct (round_aux_bounds z e l Hz He Hen) as (_ & _ & Hu). set (n := Z.log2 z - 52) in *.
  replace (e + n + unit_exp) with (n + (e + unit_exp)) in Hu by lia. rewrite Z.pow_add_r in Hu by lia.
  assert (Hq : 2 ^ 52 <= z / 2 ^ n).
  { apply Z.div_le_lower_bound; [lia|]. rewrite <- Z.pow_add_r by lia. replace (n + 52) with (Z.log2 z) by lia.
    by apply Z.log2_spec; lia. }
  pose proof (Z.mul_div_le z (2 ^ n) ltac:(lia)). set (q := z / 2 ^ n) in *.
  assert (0 <= 2 ^ (e + unit_exp)) by lia. assert (0 < 2 ^ n) by lia.
  assert ((q + 1) * 2 ^ 52 <= (2 ^ 52 + 1) * q) by lia. set (a := 2 ^ 52) in *. set (b := 2 ^ n) in *.
  set (c := 2 ^ (e + unit_exp)) in *. assert ((q + 1) * a * b <= (a + 1) * (b * q)) by nia. nia.
Qed.

(** and not below a whole number that the exact value is not below. *)
Lemma round_aux_whole k z e l :
  k <= 2 ^ 52 -> 2 ^ 52 <= z -> - unit_exp <= e -> -900 <= e + (Z.log2 z - 52) <= 900 -> k * U <= z * 2 ^ (e + unit_exp) ->
  k * U <= units (binary_round_aux 53 1024 false z e l).
Proof.
  intros Hk2 Hz He Hen Hk. assert (52 <= Z.log2 z) by (apply Z.log2_le_pow2; lia). unfold U, unit_exp in *.
  destruct (round_aux_bounds z e l) as (_ & Hl & _); [unfold unit_exp in *; lia..|]. set (n := Z.log2 z - 52) in *.
  etrans; [|exact Hl]. unfold unit_exp. destruct (Z.le_gt_cases (e + n) 0) as [Hle|Hgt].
  - assert (HU : 2 ^ 300 = 2 ^ (- (e + n)) * 2 ^ (e + n + 300)) by (rewrite <- Z.pow_add_r by lia; f_equal; lia).
    rewrite HU, Z.mul_assoc. apply Z.mul_le_mono_nonneg_r; [lia|]. apply Z.div_le_lower_bound; [lia|].
    replace (e + n + 300) with (n + (e + 300)) in HU by lia. rewrite Z.pow_add_r in HU by lia. rewrite HU in Hk.
    assert (0 < 2 ^ (e + 300)) by lia. nia.
  - assert (2 ^ 52 <= z / 2 ^ n).
    { apply Z.div_le_lower_bound; [lia|]. rewrite <- Z.pow_add_r by lia. replace (n + 52) with (Z.log2 z) by lia.
      by apply Z.log2_spec; lia. }
    assert (2 ^ 300 <= 2 ^ (e + n + 300)) by (apply Z.pow_le_mono_r; lia). nia.
Qed.

(** ** Comparison *)

Lemma units_finite_lt m1 e1 m2 e2 :
  2 ^ 52 <= Zpos m1 < 2 ^ 53 -> 2 ^ 52 <= Zpos m2 < 2 ^ 53 -> - unit_exp <= e1 -> e1 < e2 ->
  Zpos m1 * 2 ^ (e1 + unit_exp) < Zpos m2 * 2 ^ (e2 + unit_exp).
Proof.
  intros H1 H2 He Hlt. replace (e2 + unit_exp) with ((e1 + unit_exp) + (1 + (e2 - e1 - 1))) by lia.
  rewrite (Z.pow_add_r 2 (e1 + unit_exp)), (Z.pow_add_r 2 1) by lia. assert (1 <= 2 ^ (e2 - e1 - 1)) by lia.
  assert (0 < 2 ^ (e1 + unit_exp)) by lia. change (2 ^ 1) with 2.
  set (a := 2 ^ (e1 + unit_exp)) in *. set (b := 2 ^ (e2 - e1 - 1)) in *.
  assert (Zpos m1 < Zpos m2 * (2 * b)) by nia. nia.
Qed.

Lemma SFcompare_units lo hi lo' hi' f g :
  normal lo hi f -> normal lo' hi' g -> - unit_exp <= lo -> - unit_exp <= lo' -> SFcompare f g = Some (units f ?= units g).
Proof.
  intros Hf Hg Hlo Hlo'. destruct f as [s| | |s m e]; cbn in Hf; try done; destruct g as [s'| | |s' m' e']; cbn in Hg; try done.
  - destruct Hg as (-> & ? & ?). cbn [SFcompare units]. f_equal. symmetry. apply Z.compare_lt_iff.
    assert (0 < 2 ^ (e' + unit_exp)) by lia. lia.
  - destruct Hf as (-> & ? & ?). cbn [SFcompare units]. f_equal. symmetry. apply Z.compare_gt_iff.
    assert (0 < 2 ^ (e + unit_exp)) by lia. lia.
  - destruct Hf as (-> & Hm & He), Hg as (-> & Hm' & He'). cbn [SFcompare units]. f_equal.
    destruct (Z.compare_spec e e') as [->|Hlt|Hgt].
    + change (Pos.compare_cont Eq m m') with (Z.compare (Zpos m) (Zpos m')).
      rewrite !(Z.mul_comm _ (2 ^ _)). apply Zmult_compare_compat_l. assert (0 < 2 ^ (e' + unit_exp)) by lia. lia.
    + symmetry. apply Z.compare_lt_iff. apply units_finite_lt; (done || lia).
    + symmetry. apply Z.compare_gt_iff. apply units_finite_lt; (done || lia).
Qed.

Lemma SFltb_units lo hi lo' hi' f g :
  normal lo hi f -> normal lo' hi' g -> - unit_exp <= lo -> - unit_exp <= lo' -> SFltb f g = (units f <? units g).
Proof. intros. unfold SFltb. erewrite SFcompare_units by done. unfold Z.ltb. by destruct (_ ?= _). Qed.

Lemma SFleb_units lo hi lo' hi' f g :
  normal lo hi f -> normal lo' hi' g -> - unit_exp <= lo -> - unit_exp <= lo' -> SFleb f g = (units f <=? units g).
Proof. intros. unfold SFleb. erewrite SFcompare_units by done. unfold Z.leb. by destruct (_ ?= _). Qed.

Lemma SFcompare_antisym f g : SFcompare g f = option_map CompOpp (SFcompare f g).
Proof.
  destruct f as [[]|[]| |[] m e], g as [[]|[]| |[] m' e']; try done; cbn [SFcompare option_map]; f_equal; rewrite (Z.compare_antisym e e');
    destruct (e ?= e'); try done; cbn [CompOpp]; change (Pos.compare_cont Eq) with Pos.compare; rewrite (Pos.compare_antisym m m'); by destruct (m ?= m')%positive.
Qed.

Lemma SFleb_ltb f g : SFleb f g = true -> SFltb g f = false.
Proof. unfold SFleb, SFltb. rewrite (SFcompare_antisym f g). by destruct (SFcompare f g) as [[]|]. Qed.

(** ** Whole numbers and exact subtraction *)

Lemma canon_normal z e : 0 <= z < 2 ^ 53 -> normal (e - 52) e (canon z e).
Proof.
  intros Hz. destruct z as [|p|]; [done| |lia]. unfold canon, normal. set (j := 52 - Z.log2 (Zpos p)).
  assert (Z.log2 (Zpos p) < 53) by (apply Z.log2_lt_pow2; lia). pose proof (Z.log2_nonneg (Zpos p)).
  destruct (Z.log2_spec (Zpos p) ltac:(lia)) as [Hlo Hhi].
  rewrite Z2Pos.id by lia.
  assert (H52 : 2 ^ 52 = 2 ^ Z.log2 (Zpos p) * 2 ^ j) by (rewrite <- Z.pow_add_r by lia; f_equal; lia).
  assert (H53 : 2 ^ 53 = 2 ^ Z.succ (Z.log2 (Zpos p)) * 2 ^ j) by (rewrite <- Z.pow_add_r by lia; f_equal; lia).
  assert (0 < 2 ^ j) by lia. rewrite H52, H53. split_and!; try nia; lia.
Qed.

Lemma units_canon z e : 0 <= z < 2 ^ 53 -> - unit_exp + 52 <= e -> units (canon z e) = z * 2 ^ (e + unit_exp).
Proof.
  intros Hz He. destruct z as [|p|]; [done| |lia]. unfold canon, units.
  assert (Z.log2 (Zpos p) < 53) by (apply Z.log2_lt_pow2; lia). pose proof (Z.log2_nonneg (Zpos p)).
  rewrite Z2Pos.id by lia. rewrite <- Z.mul_assoc, <- Z.pow_add_r by lia. do 2 f_equal. lia.
Qed.

Lemma normal_small lo hi k f : normal lo hi f -> - unit_exp <= lo -> 0 <= k -> units f < 2 ^ k * U -> normal lo (k - 53) f.
Proof.
  destruct f as [| | |s m e]; cbn [normal]; try done. intros (-> & Hm & He) Hlo Hk Hu. split_and!; try done; try lia.
  cbn [units] in Hu. unfold U in Hu. rewrite <- Z.pow_add_r in Hu by (unfold unit_exp; lia).
  assert (2 ^ 52 * 2 ^ (e + unit_exp) < 2 ^ (k + unit_exp)) as Hlt by (assert (0 < 2 ^ (e + unit_exp)) by lia; nia).
  rewrite <- Z.pow_add_r in Hlt by lia. apply Z.pow_lt_mono_r_iff in Hlt; unfold unit_exp in *; lia.
Qed.

Lemma f64_normal z : 0 <= z < 2 ^ 53 -> normal (-52) 0 (f64 z).
Proof. intros Hz. rewrite f64_exact by done. by apply (canon_normal z 0). Qed.

Lemma units_f64 z : 0 <= z < 2 ^ 53 -> units (f64 z) = z * U.
Proof. intros Hz. rewrite f64_exact by done. by apply units_canon. Qed.

Lemma f64_small z k : 0 <= z < 2 ^ k -> 0 <= k <= 53 -> normal (-52) (k - 53) (f64 z).
Proof.
  intros Hz Hk. assert (2 ^ k <= 2 ^ 53) by (apply Z.pow_le_mono_r; lia).
  apply (normal_small _ 0); [by apply f64_normal; lia|done|lia|]. rewrite units_f64 by lia. by apply Z.mul_lt_mono_pos_r; [|lia].
Qed.

(** Subtracting one from a number that is not smaller is exact. *)
Lemma fsub_one lo t :
  normal lo 0 t -> - unit_exp <= lo -> U <= units t -> normal (-104) 0 (fsub t (f64 1)) /\ units (fsub t (f64 1)) = units t - U.
Proof.
  intros Ht Hlo Hu. destruct t as [s| | |s m e]; cbn in Ht; try done. destruct Ht as (-> & Hm & He).
  assert (-52 <= e).
  { destruct (Z.lt_ge_cases e (-52)) as [Hlt|]; [|done]. exfalso.
    assert (2 ^ (e + 300) <= 2 ^ 247) by (apply Z.pow_le_mono_r; lia).
    change U with (2 ^ 53 * 2 ^ 247) in Hu. cbn [units] in Hu. unfold unit_exp in Hu. nia. }
  rewrite f64_exact by lia. change (canon 1 0) with (S754_finite false (Z.to_pos (2 ^ 52)) (-52)).
  unfold SFsub, cond_Zopp. rewrite !shl_align_value by lia. replace (Z.min e (-52)) with (-52) by lia.
  replace (-52 - -52) with 0 by lia. rewrite Z.mul_1_r, Z2Pos.id by lia.
  assert (Hz : Zpos m * 2 ^ (e - -52) - 2 ^ 52 = (Zpos m - 2 ^ (- e)) * 2 ^ (e + 52)).
  { rewrite Z.mul_sub_distr_r, <- Z.pow_add_r by lia. replace (e - -52) with (e + 52) by lia. do 2 f_equal. lia. }
  assert (2 ^ (- e) <= Zpos m).
  { apply (Z.mul_le_mono_pos_r _ _ (2 ^ (e + 300))); [lia|]. rewrite <- Z.pow_add_r by lia.
    replace (- e + (e + 300)) with 300 by lia. exact Hu. }
  assert (1 <= 2 ^ (- e)) by lia. rewrite Hz. replace (-52) with (e - (e + 52)) by lia.
  rewrite normalize_exact by (unfold fits; lia). split.
  - eapply normal_weaken; [apply canon_normal; lia|lia|lia].
  - rewrite units_canon by (unfold unit_exp; lia). cbn [units]. rewrite Z.mul_sub_distr_r. f_equal.
    rewrite <- Z.pow_add_r by (unfold unit_exp; lia). unfold U. f_equal. lia.
Qed.

(** ** Products, sums and quotients *)

Lemma log2_between z a : 0 <= a -> 2 ^ a <= z < 2 ^ (a + 2) -> a <= Z.log2 z <= a + 1.
Proof.
  intros Ha [H1 H2]. split; [by apply Z.log2_le_pow2; lia|]. apply Z.lt_succ_r. apply Z.log2_lt_pow2; [lia|].
  by replace (Z.succ (a + 1)) with (a + 2) by lia.
Qed.

Lemma product_round ma mb (z := Zpos ma * Zpos mb) :
  2 ^ 52 <= Zpos ma < 2 ^ 53 -> 2 ^ 52 <= Zpos mb < 2 ^ 53 -> 2 ^ 52 <= z /\ 52 <= Z.log2 z - 52 <= 53.
Proof.
  intros H1 H2. assert (Hz : 2 ^ 104 <= z < 2 ^ (104 + 2)) by (unfold z; change (2 ^ 104) with (2 ^ 52 * 2 ^ 52);
    change (2 ^ (104 + 2)) with (2 ^ 53 * 2 ^ 53); nia).
  pose proof (log2_between z 104 ltac:(lia) Hz). split; lia.
Qed.

Lemma units_product ma ea mb eb :
  - unit_exp <= ea -> - unit_exp <= eb -> - unit_exp <= ea + eb ->
  units (S754_finite false ma ea) * units (S754_finite false mb eb) = Zpos ma * Zpos mb * 2 ^ (ea + eb + unit_exp) * U.
Proof.
  intros H1 H2 H3. cbn [units].
  replace (Zpos ma * 2 ^ (ea + unit_exp) * (Zpos mb * 2 ^ (eb + unit_exp)))
    with (Zpos ma * Zpos mb * (2 ^ (ea + unit_exp) * 2 ^ (eb + unit_exp))) by ring.
  rewrite <- (Z.mul_assoc _ _ U). f_equal. unfold U. rewrite <- !Z.pow_add_r by (unfold unit_exp in *; lia). f_equal. lia.
Qed.

(** The exact sum that is rounded. *)
Lemma sum_round ma ea mb eb (ez := Z.min ea eb) (z := Zpos ma * 2 ^ (ea - ez) + Zpos mb * 2 ^ (eb - ez)) :
  2 ^ 52 <= Zpos ma < 2 ^ 53 -> 2 ^ 52 <= Zpos mb < 2 ^ 53 -> - unit_exp <= ea <= 800 -> - unit_exp <= eb <= 800 ->
  fadd (S754_finite false ma ea) (S754_finite false mb eb) = binary_round_aux 53 1024 false z ez loc_Exact
  /\ 2 ^ 52 <= z /\ Z.max ea eb <= ez + (Z.log2 z - 52) <= Z.max ea eb + 1.
Proof.
  intros H1 H2 H3 H4. unfold unit_exp in *. set (d := Z.max ea eb - ez).
  assert (Hz : 2 ^ (52 + d) <= z < 2 ^ (52 + d + 2)).
  { rewrite (Z.pow_add_r 2 (52 + d)), (Z.pow_add_r 2 52) by lia. unfold z.
    assert (1 <= 2 ^ (ea - ez) <= 2 ^ d) by (split; [lia|apply Z.pow_le_mono_r; lia]).
    assert (1 <= 2 ^ (eb - ez) <= 2 ^ d) by (split; [lia|apply Z.pow_le_mono_r; lia]).
    assert (2 ^ (ea - ez) = 2 ^ d \/ 2 ^ (eb - ez) = 2 ^ d) by (destruct (Z.max_spec ea eb) as [[? E]|[? E]]; unfold d; rewrite E; tauto).
    set (x := 2 ^ d) in *. set (y := 2 ^ (ea - ez)) in *. set (w := 2 ^ (eb - ez)) in *. change (2 ^ 2) with 4. nia. }
  pose proof (log2_between z (52 + d) ltac:(lia) Hz) as Hl.
  assert (2 ^ 52 <= 2 ^ (52 + d)) by (apply Z.pow_le_mono_r; lia).
  split_and!; [|lia..].
  unfold SFadd, cond_Zopp. rewrite !shl_align_value by lia. fold ez. fold z. destruct z as [|p|] eqn:Ez; [lia| |lia].
  cbn [binary_normalize]. unfold binary_round, shl_align. rewrite digits2_log2, fexp_normal by lia.
  destruct (_ - 53) eqn:Ed; [done|done|lia].
Qed.

Lemma units_sum ma ea mb eb (ez := Z.min ea eb) :
  - unit_exp <= ea -> - unit_exp <= eb ->
  (Zpos ma * 2 ^ (ea - ez) + Zpos mb * 2 ^ (eb - ez)) * 2 ^ (ez + unit_exp)
  = units (S754_finite false ma ea) + units (S754_finite false mb eb).
Proof.
  intros H1 H2. cbn [units]. rewrite Z.mul_add_distr_r, <- !Z.mul_assoc, <- !Z.pow_add_r by lia.
  do 2 f_equal; f_equal; lia.
Qed.

Section Operations.
Context (la ha lb hb : Z) (a b : float64).
Context (Ha : normal la ha a) (Hb : normal lb hb b) (Hla : - unit_exp <= la) (Hlb : - unit_exp <= lb).

Lemma fmul_bounds :
  - unit_exp <= la + lb -> ha + hb <= 800 ->
  normal (la + lb + 52) (ha + hb + 54) (fmul a b) /\ 2 ^ 52 * (U * units (fmul a b)) <= (2 ^ 52 + 1) * (units a * units b).
Proof.
  intros Hlo Hhi. destruct a as [s| | |s m e]; cbn in Ha; try done; destruct b as [s'| | |s' m' e']; cbn in Hb; try done; subst.
  - cbn. split; [done|lia].
  - destruct Hb as (-> & ? & ?). cbn. split; [done|lia].
  - destruct Ha as (-> & ? & ?). cbn. split; [done|]. lia.
  - destruct Ha as (-> & Hm & He), Hb as (-> & Hm' & He').
    destruct (product_round m m') as [Hz Hl]; [done..|]. unfold unit_exp in *.
    cbn [SFmul xorb]. rewrite Pos2Z.inj_mul. split.
    + destruct (round_aux_bounds (Zpos m * Zpos m') (e + e') loc_Exact) as [Hn _]; [unfold unit_exp in *; lia..|].
      eapply normal_weaken; [exact Hn|lia|lia].
    + rewrite units_product by (unfold unit_exp; lia).
      pose proof (round_aux_upper (Zpos m * Zpos m') (e + e') loc_Exact) as Hu. unfold unit_exp in *.
      specialize (Hu ltac:(lia) ltac:(lia) ltac:(lia)). assert (0 < U) by done. nia.
Qed.

Lemma fmul_whole k :
  k <= 2 ^ 52 -> - unit_exp <= la + lb -> ha + hb <= 800 -> k * U * U <= units a * units b -> k * U <= units (fmul a b).
Proof.
  intros Hk2 Hlo Hhi Hk. assert (HU : 0 < U) by done.
  destruct a as [s| | |s m e]; cbn in Ha; try done; destruct b as [s'| | |s' m' e']; cbn in Hb; try done; subst.
  - cbn [units] in Hk. cbn. nia.
  - destruct Hb as (-> & ? & ?). cbn [units] in Hk. cbn. nia.
  - destruct Ha as (-> & ? & ?). cbn [units] in Hk. cbn. nia.
  - destruct Ha as (-> & Hm & He), Hb as (-> & Hm' & He').
    destruct (product_round m m') as [Hz Hl]; [done..|].
    rewrite units_product in Hk by (unfold unit_exp in *; lia).
    cbn [SFmul xorb]. rewrite Pos2Z.inj_mul. apply round_aux_whole; try (unfold unit_exp in *; lia). nia.
Qed.

Lemma fadd_bounds :
  ha <= 800 -> hb <= 800 ->
  normal (Z.min la lb) (Z.max ha hb + 2) (fadd a b) /\ 2 ^ 52 * units (fadd a b) <= (2 ^ 52 + 1) * (units a + units b).
Proof.
  intros Hha Hhb. pose proof (units_nonneg a). pose proof (units_nonneg b).
  destruct a as [s| | |s m e]; cbn in Ha; try done; destruct b as [s'| | |s' m' e']; cbn in Hb; try done; subst.
  - by split.
  - destruct Hb as (-> & ? & ?). cbn [SFadd]. split; [|lia]. cbn. split_and!; try done; lia.
  - destruct Ha as (-> & ? & ?). cbn [SFadd]. split; [|lia]. cbn. split_and!; try done; lia.
  - destruct Ha as (-> & Hm & He), Hb as (-> & Hm' & He').
    destruct (sum_round m e m' e') as (-> & Hz & Hl); [done..|lia|lia|]. rewrite <- units_sum by lia. unfold unit_exp in *. split.
    + destruct (round_aux_bounds (Zpos m * 2 ^ (e - Z.min e e') + Zpos m' * 2 ^ (e' - Z.min e e')) (Z.min e e') loc_Exact) as [Hn _];
        [unfold unit_exp in *; lia..|]. eapply normal_weaken; [exact Hn|lia|lia].
    + apply round_aux_upper; unfold unit_exp in *; lia.
Qed.

Lemma fadd_whole k :
  k <= 2 ^ 52 -> ha <= 800 -> hb <= 800 -> k * U <= units a + units b -> k * U <= units (fadd a b).
Proof.
  intros Hk2 Hha Hhb Hk.
  destruct a as [s| | |s m e]; cbn in Ha; try done; destruct b as [s'| | |s' m' e']; cbn in Hb; try done; subst.
  - done.
  - destruct Ha as (-> & ? & ?). cbn [SFadd]. cbn [units] in *. lia.
  - destruct Ha as (-> & Hm & He), Hb as (-> & Hm' & He').
    destruct (sum_round m e m' e') as (-> & Hz & Hl); [done..|lia|lia|]. rewrite <- units_sum in Hk by lia.
    apply round_aux_whole; unfold unit_exp in *; (done || lia).
Qed.

Lemma fdiv_bounds :
  units b <> 0 -> - unit_exp + 53 <= la - hb -> ha - lb <= 800 ->
  normal (la - hb - 53) (ha - lb) (fdiv a b) /\ 2 ^ 52 * (units b * units (fdiv a b)) <= (2 ^ 52 + 1) * (units a * U).
Proof.
  intros Hb0 Hlo Hhi. destruct a as [s| | |s m e]; cbn in Ha; try done; destruct b as [s'| | |s' m' e']; cbn in Hb; try done; subst.
  - destruct Hb as (-> & ? & ?). cbn. split; [done|lia].
  - destruct Ha as (-> & Hm & He), Hb as (-> & Hm' & He'). unfold unit_exp in *.
    assert (Z.log2 (Zpos m) = 52) by (apply Z.log2_unique; lia). assert (Z.log2 (Zpos m') = 52) by (apply Z.log2_unique; lia).
    cbn [SFdiv xorb]. unfold SFdiv_core_binary. rewrite !Zdigits2_log2 by lia.
    replace (Z.min _ _) with (e - e' - 53) by (unfold fexp, emin; lia). replace (e - e' - (e - e' - 53)) with 53 by lia.
    rewrite Z.shiftl_mul_pow2 by lia. pose proof (Z_div_mod (Zpos m * 2 ^ 53) (Zpos m') ltac:(lia)) as Hq.
    destruct (Z.div_eucl _ _) as [q r]. destruct Hq as [Hq Hr].
    assert (2 ^ 52 <= q < 2 ^ (52 + 2)) by nia. pose proof (log2_between q 52 ltac:(lia) ltac:(lia)). split.
    + destruct (round_aux_bounds q (e - e' - 53) (new_location (Zpos m') r)) as [Hn _]; [unfold unit_exp in *; lia..|].
      eapply normal_weaken; [exact Hn|lia|lia].
    + pose proof (round_aux_upper q (e - e' - 53) (new_location (Zpos m') r)) as Hu.
      specialize (Hu ltac:(lia) ltac:(unfold unit_exp; lia) ltac:(lia)). set (f := binary_round_aux _ _ _ _ _ _) in *.
      cbn [units]. unfold unit_exp in *.
      replace (Zpos m * 2 ^ (e + 300) * U) with (Zpos m * 2 ^ 53 * (2 ^ (e' + 300) * 2 ^ (e - e' - 53 + 300)))
        by (unfold U, unit_exp; rewrite <- !Z.mul_assoc, <- !Z.pow_add_r by lia; f_equal; f_equal; lia).
      assert (0 < 2 ^ (e' + 300)) by lia. assert (0 < 2 ^ (e - e' - 53 + 300)) by lia.
      set (x := 2 ^ (e' + 300)) in *. set (y := 2 ^ (e - e' - 53 + 300)) in *.
      assert (Zpos m' * q <= Zpos m * 2 ^ 53) by lia.
      transitivity (Zpos m' * x * ((2 ^ 52 + 1) * (q * y))); [nia|].
      transitivity ((2 ^ 52 + 1) * (Zpos m' * q * (x * y))); [lia|]. apply Z.mul_le_mono_nonneg_l; [lia|].
      apply Z.mul_le_mono_nonneg_r; lia.
Qed.
End Operations.

(** ** Durations *)

(** A duration in seconds is within one part in 2^51 of the exact number, and not below
    the whole seconds. *)
Lemma Seconds_bounds d :
  0 <= d < 2 ^ 63 ->
  normal (-120) (-1) (Seconds d)
  /\ 2 ^ 104 * (Second * units (Seconds d)) <= (2 ^ 52 + 1) ^ 2 * (d * U)
  /\ d / Second * U <= units (Seconds d).
Proof.
  intros Hd. unfold Seconds. rewrite Z.quot_div_nonneg, Z.rem_mod_nonneg by (unfold Second; lia).
  assert (Hq : 0 <= d / Second < 2 ^ 34) by (split; [apply Z.div_pos|apply Z.div_lt_upper_bound]; unfold Second; lia).
  pose proof (Z.mod_pos_bound d Second ltac:(done)) as Hr. pose proof (Z.div_mod d Second ltac:(done)) as Hdr.
  set (q := d / Second) in *. set (r := d mod Second) in *.
  assert (HU : 0 < U) by done. assert (Hsr : 0 <= r < 2 ^ 30) by (unfold Second in *; lia).
  assert (Hs : normal (-52) (-19) (f64 q)) by (apply (f64_small q 34); lia).
  assert (Hn : normal (-52) (-23) (f64 r)) by (apply (f64_small r 30); lia).
  assert (Hb : normal (-23) (-23) (f64 1000000000)) by (by vm_compute).
  assert (Hbu : units (f64 1000000000) = Second * U) by (rewrite units_f64; done).
  destruct (fdiv_bounds (-52) (-23) (-23) (-23) (f64 r) (f64 1000000000)) as [Hdn Hdu];
    [done|done|done|done|rewrite Hbu; unfold Second; lia|done|done|].
  rewrite Hbu, units_f64 in Hdu by lia. set (f := fdiv _ _) in *.
  assert (Hf : 2 ^ 52 * (Second * units f) <= (2 ^ 52 + 1) * (r * U)) by (clear -Hdu HU; set (a := 2 ^ 52) in *; nia).
  assert (r * U <= Second * U) by (apply Z.mul_le_mono_nonneg_r; lia).
  assert (Hfn : normal (-82) (-52) f) by (apply (normal_small _ 0 1); [eapply normal_weaken; [exact Hdn|lia|lia]|done|done|unfold Second in *; lia]).
  destruct (fadd_bounds (-52) (-19) (-82) (-52) (f64 q) f) as [Han Hau]; [done..|].
  rewrite units_f64 in Hau by lia. split_and!.
  - eapply normal_weaken; [exact Han|lia|lia].
  - set (g := units (fadd _ _)) in *. unfold Second in *. nia.
  - apply (fadd_whole (-52) (-19) (-82) (-52)); [done..|lia|done|done|]. rewrite units_f64 by lia. pose proof (units_nonneg f). lia.
Qed.
