(* ===== verification/Crypto.v ===== *)
(** * Cryptographic libraries

    The ratchet, the handshakes and the build records call hash functions, key
    derivation, X25519, Elligator2, ChaCha20-Poly1305 and the Noise symmetric
    state from packages outside the repository ([github.com/go-i2p/crypto],
    [github.com/go-i2p/noise]). They are classes here: the operations with the
    documented laws the code relies on. An operation that can fail returns an
    option. The randomness a key generation draws is an argument.

    The end of the file gives an instance of every class that can be evaluated. *)

From Stdlib Require Import ZArith Lia.
From Stdlib Require Import Strings.Byte Strings.String.
From stdpp Require Import base numbers list.
From S2P Require Import Prelude.

#[local] Open Scope Z_scope.

(** ** Hashes and key derivation *)

Class HashLib := {
  sha256 : bytes -> bytes;
  (* kdf.StandardHKDF key salt info n *)
  standard_hkdf : bytes -> bytes -> string -> nat -> option bytes;
  (* noise.HKDF1SHA256 and noise.HKDF2SHA256, of a chaining key and key material *)
  hkdf1 : bytes -> bytes -> bytes;
  hkdf2 : bytes -> bytes -> bytes * bytes;
  (* kdf.NewKeyDerivation(key).DeriveKeys(info, 2) *)
  derive_keys : bytes -> string -> option (bytes * bytes);
  (* kdf.NewKeyDerivation(key).DeriveSessionKeys(): root, symmetric, tag *)
  derive_session_keys : bytes -> option (bytes * bytes * bytes);
  sha256_length : forall d, length (sha256 d) = 32%nat;
}.

(** ** X25519 and Elligator2 *)

Class CurveLib := {
  x25519_public : bytes -> bytes;
  x25519_shared : bytes -> bytes -> option bytes;      (* private, public *)
  (* elligator2.GenerateKeyPair: public and private key *)
  elg2_generate : bytes -> option (bytes * bytes);
  elg2_encode : bytes -> option bytes;
  elg2_decode : bytes -> option bytes;
  x25519_shared_comm : forall a b, x25519_shared a (x25519_public b) = x25519_shared b (x25519_public a);
  elg2_generate_public : forall rnd pub priv, elg2_generate rnd = Some (pub, priv) -> pub = x25519_public priv;
  elg2_generate_length : forall rnd pub priv, elg2_generate rnd = Some (pub, priv) -> length pub = 32%nat;
  elg2_encode_length : forall pub e, elg2_encode pub = Some e -> length e = 32%nat;
  elg2_decode_encode : forall pub e, elg2_encode pub = Some e -> elg2_decode e = Some pub;
}.

(** ** ChaCha20-Poly1305

    [aead_encrypt key plaintext ad nonce] is the ciphertext and the tag; [None]
    stands for a failure of [NewAEAD] or of [Encrypt]. *)

Class AEADLib := {
  aead_encrypt : bytes -> bytes -> bytes -> bytes -> option (bytes * bytes);
  aead_decrypt : bytes -> bytes -> bytes -> bytes -> bytes -> option bytes;  (* key, ciphertext, tag, AD, nonce *)
  build_nonce : Z -> bytes;                                                (* noise.BuildNonce *)
  aead_decrypt_encrypt : forall key pt ad nonce ct tag,
    aead_encrypt key pt ad nonce = Some (ct, tag) -> aead_decrypt key ct tag ad nonce = Some pt;
  aead_lengths : forall key pt ad nonce ct tag,
    aead_encrypt key pt ad nonce = Some (ct, tag) -> length ct = length pt /\ length tag = 16%nat;
}.

(** ** The Noise symmetric state

    [noise.SymmetricState] for [ChaChaPoly_SHA256]: [ss_resume h ck] is a fresh
    state with the given handshake hash and chaining key. [ss_keyed] says that a
    key has been mixed in, so that encryption adds a tag. *)

Class NoiseLib := {
  SymmetricState : Type;
  ss_initialize : string -> SymmetricState;
  ss_resume : bytes -> bytes -> SymmetricState;
  ss_mix_hash : SymmetricState -> bytes -> SymmetricState;
  ss_mix_key : SymmetricState -> bytes -> SymmetricState;
  ss_encrypt : SymmetricState -> bytes -> SymmetricState * option bytes;     (* EncryptAndHash *)
  ss_decrypt : SymmetricState -> bytes -> SymmetricState * option bytes;     (* DecryptAndHash *)
  ss_chaining_key : SymmetricState -> bytes;
  ss_set_chaining_key : SymmetricState -> bytes -> SymmetricState;
  ss_handshake_hash : SymmetricState -> bytes;
  ss_keyed : SymmetricState -> bool;
  ss_decrypt_encrypt : forall s p s' c, ss_encrypt s p = (s', Some c) -> ss_decrypt s c = (s', Some p);
  ss_encrypt_length : forall s p s' c, ss_keyed s = true -> ss_encrypt s p = (s', Some c) ->
    length c = (length p + 16)%nat /\ ss_keyed s' = true;
  ss_mix_key_keyed : forall s k, ss_keyed (ss_mix_key s k) = true;
}.

(** ** Ratchets

    [github.com/go-i2p/crypto/ratchet]: the symmetric ratchet that gives message
    keys, the tag ratchet that gives session tags ([8]byte in Go), and the
    Diffie-Hellman ratchet. An operation returns the ratchet as it leaves it. *)

Class RatchetLib := {
  SymmetricRatchet : Type;
  TagRatchet : Type;
  DHRatchet : Type;
  new_symmetric : bytes -> SymmetricRatchet;
  new_tag : bytes -> TagRatchet;
  new_dh : bytes -> bytes -> bytes -> DHRatchet;                 (* root key, private, remote public *)
  derive_message_key : SymmetricRatchet -> Z -> SymmetricRatchet * option bytes;
  generate_next_tag : TagRatchet -> TagRatchet * option bytes;
  dh_generate : bytes -> DHRatchet -> DHRatchet * option bytes;  (* GenerateNewKeyPair *)
  dh_perform : DHRatchet -> DHRatchet * option (bytes * bytes);  (* sending and receiving chain keys *)
  dh_update : DHRatchet -> bytes -> DHRatchet * bool;            (* UpdateKeys: whether it succeeded *)
  generate_next_tag_length : forall r r' t, generate_next_tag r = (r', Some t) -> length t = 8%nat;
}.

(** [i2pbase64.EncodeToString], as bytes: four characters for three bytes, padded. *)
Class I2PBase64 := {
  base64 : bytes -> bytes;
  base64_length : forall l, length (base64 l) = (4 * ((length l + 2) / 3))%nat;
}.

(** ** An instance that can be evaluated

    The functions below satisfy the laws; they offer no security. The hash is a
    polynomial of the input modulo 2^48, the shared key of two keys their
    exclusive or, and a ciphertext is the plaintext with a tag that depends on
    the key, the nonce, the associated data and the text. *)

Definition demo_step (h : Z) (b : byte) : Z := Z.land (h * 1033 + b2z b + 1) (Z.ones 48).

Definition demo_digest (n : nat) (d : bytes) : bytes :=
  be_encode (Nat.min n 6) (foldl demo_step 12345 d) ++ replicate (n - 6) x00.

Lemma length_demo_digest n d : length (demo_digest n d) = n.
Proof. unfold demo_digest. rewrite length_app, length_be_encode, length_replicate. lia. Qed.

Definition demo_string (s : string) : bytes := list_byte_of_string s.

#[local] Instance demo_hash : HashLib := {|
  sha256 d := demo_digest 32 d;
  standard_hkdf k salt info n := Some (demo_digest n (k ++ salt ++ demo_string info));
  hkdf1 ck ikm := demo_digest 32 (ck ++ ikm);
  hkdf2 ck ikm := (demo_digest 32 (ck ++ ikm ++ [x01]), demo_digest 32 (ck ++ ikm ++ [x02]));
  derive_keys k info :=
    Some (demo_digest 32 (k ++ demo_string info ++ [x01]), demo_digest 32 (k ++ demo_string info ++ [x02]));
  derive_session_keys k :=
    Some (demo_digest 32 (k ++ [x01]), demo_digest 32 (k ++ [x02]), demo_digest 32 (k ++ [x03]));
  sha256_length d := length_demo_digest 32 d;
|}.

Lemma byte_xor_comm a b : byte_xor a b = byte_xor b a.
Proof. unfold byte_xor. by rewrite Z.lxor_comm. Qed.

Lemma zip_byte_xor_comm (a b : bytes) : zip_with byte_xor a b = zip_with byte_xor b a.
Proof. revert b. induction a as [|x a IH]; intros [|y b]; simpl; f_equal; auto using byte_xor_comm. Qed.

Definition demo_elg2_encode (pub : bytes) : option bytes :=
  if decide (length pub = 32%nat) then Some pub else None.

#[local] Instance demo_curve : CurveLib.
Proof.
  refine {|
    x25519_public priv := priv;
    x25519_shared a b := Some (zip_with byte_xor a b);
    elg2_generate rnd := let k := take 32 (rnd ++ replicate 32 x00) in Some (k, k);
    elg2_encode := demo_elg2_encode;
    elg2_decode e := Some e;
  |}.
  - intros. f_equal. apply zip_byte_xor_comm.
  - intros rnd pub priv Hk. apply (inj Some) in Hk. by apply pair_equal_spec in Hk as [<- <-].
  - intros rnd pub priv Hk. apply (inj Some) in Hk. apply pair_equal_spec in Hk as [<- _].
    rewrite length_take, length_app, length_replicate. lia.
  - unfold demo_elg2_encode. intros pub e. case_decide; [|done]. by intros [= <-].
  - unfold demo_elg2_encode. intros pub e. case_decide; [|done]. by intros [= <-].
Defined.

Definition demo_tag (key pt ad nonce : bytes) : bytes := demo_digest 16 (key ++ nonce ++ ad ++ pt).

#[local] Instance demo_aead : AEADLib.
Proof.
  refine {|
    aead_encrypt key pt ad nonce := Some (pt, demo_tag key pt ad nonce);
    aead_decrypt key ct tag ad nonce :=
      if decide (tag = demo_tag key ct ad nonce) then Some ct else None;
    build_nonce n := replicate 4 x00 ++ le_encode 8 n;
  |}.
  - intros key pt ad nonce ct tag [= <- <-]. by rewrite decide_True.
  - intros key pt ad nonce ct tag [= <- <-]. split; [done|]. apply length_demo_digest.
Defined.

(** The demo symmetric state: handshake hash, chaining key, key, nonce. *)
Record DemoSS := mkDemoSS { ds_h : bytes; ds_ck : bytes; ds_key : option bytes; ds_n : Z }.

Definition demo_mix_hash (s : DemoSS) (d : bytes) : DemoSS :=
  mkDemoSS (sha256 (ds_h s ++ d)) (ds_ck s) (ds_key s) (ds_n s).

Definition demo_ss_encrypt (s : DemoSS) (p : bytes) : DemoSS * option bytes :=
  match ds_key s with
  | None => (demo_mix_hash s p, Some p)
  | Some k =>
      let c := p ++ demo_tag k p (ds_h s) (build_nonce (ds_n s)) in
      (demo_mix_hash (mkDemoSS (ds_h s) (ds_ck s) (Some k) (ds_n s + 1)) c, Some c)
  end.

Definition demo_ss_decrypt (s : DemoSS) (c : bytes) : DemoSS * option bytes :=
  match ds_key s with
  | None => (demo_mix_hash s c, Some c)
  | Some k =>
      let p := take (length c - 16) c in
      if decide (drop (length c - 16) c = demo_tag k p (ds_h s) (build_nonce (ds_n s)))
      then (demo_mix_hash (mkDemoSS (ds_h s) (ds_ck s) (Some k) (ds_n s + 1)) c, Some p)
      else (s, None)
  end.

Lemma demo_ss_roundtrip s p s' c : demo_ss_encrypt s p = (s', Some c) -> demo_ss_decrypt s c = (s', Some p).
Proof.
  unfold demo_ss_encrypt, demo_ss_decrypt. destruct (ds_key s) as [k|]; [|by intros [= <- <-]].
  set (t := demo_tag k p _ _). assert (Ht : length t = 16%nat) by apply length_demo_digest.
  intros [Hs Hc]%pair_equal_spec. apply (inj Some) in Hc as <-.
  rewrite length_app, Ht, Nat.add_sub, take_app_length, drop_app_length.
  by rewrite decide_True, <- Hs.
Qed.

#[local] Instance demo_noise : NoiseLib.
Proof.
  refine {|
    SymmetricState := DemoSS;
    ss_initialize name := mkDemoSS (sha256 (demo_string name)) (sha256 (demo_string name)) None 0;
    ss_resume h ck := mkDemoSS h ck None 0;
    ss_mix_hash := demo_mix_hash;
    ss_mix_key s ikm := mkDemoSS (ds_h s) (hkdf2 (ds_ck s) ikm).1 (Some (hkdf2 (ds_ck s) ikm).2) 0;
    ss_encrypt := demo_ss_encrypt;
    ss_decrypt := demo_ss_decrypt;
    ss_chaining_key := ds_ck;
    ss_set_chaining_key s ck := mkDemoSS (ds_h s) ck (ds_key s) (ds_n s);
    ss_handshake_hash := ds_h;
    ss_keyed s := bool_decide (is_Some (ds_key s));
  |}.
  - apply demo_ss_roundtrip.
  - intros s p s' c. unfold demo_ss_encrypt. destruct (ds_key s) as [k|]; [|done].
    set (t := demo_tag k p _ _). assert (Ht : length t = 16%nat) by apply length_demo_digest.
    intros _ [Hs Hc]%pair_equal_spec. apply (inj Some) in Hc as <-. subst s'.
    rewrite length_app, Ht. done.
  - done.
Defined.

(** The demo ratchets: a key that is hashed at every step; the Diffie-Hellman
    ratchet keeps the root key, the private and the remote public key. *)
#[local] Instance demo_ratchet : RatchetLib.
Proof.
  refine {|
    SymmetricRatchet := bytes;
    TagRatchet := bytes;
    DHRatchet := bytes * bytes * bytes;
    new_symmetric k := k;
    new_tag k := k;
    new_dh root priv pub := (root, priv, pub);
    derive_message_key k n := (sha256 (k ++ [x01]), Some (sha256 (k ++ [x02])));
    generate_next_tag k := (sha256 (k ++ [x03]), Some (demo_digest 8 (k ++ [x04])));
    dh_generate rnd d := (d.1.1, rnd, d.2, Some rnd);
    dh_perform d :=
      let root := sha256 (d.1.1 ++ zip_with byte_xor d.1.2 d.2) in
      ((root, d.1.2, d.2), Some (sha256 (root ++ [x05]), sha256 (root ++ [x05])));
    dh_update d pub := ((d.1, pub), true);
  |}.
  intros r r' t [_ Ht]%pair_equal_spec. apply (inj Some) in Ht as <-. apply length_demo_digest.
Defined.

#[local] Instance demo_base64 : I2PBase64.
Proof.
  refine {| base64 l := l ++ replicate (4 * ((length l + 2) / 3) - length l) x41 |}.
  intros l. rewrite length_app, length_replicate. pose proof (Nat.div_mod (length l + 2) 3 ltac:(lia)).
  pose proof (Nat.mod_upper_bound (length l + 2) 3 ltac:(lia)). lia.
Defined.
