(* ===== verification/Block.v ===== *)
(** * SSU2 blocks

    Models [ssu2/wire/block.go], [ssu2/wire/block_types.go] and
    [ssu2/wire/block_termination.go]: the TLV codec of a block, the ordered
    serialisation of a payload, and the NewToken and Address block formats. *)

From Stdlib Require Import ZArith Lia.
From Stdlib Require Import Strings.Byte.
From stdpp Require Import base numbers list strings.
From S2P Require Import Prelude.

#[local] Open Scope Z_scope.

(** ** Data *)

Record SSU2Block := mkBlock {
  Type_ : byte;
  Data : bytes;
}.

#[export] Instance SSU2Block_eq_dec : EqDecision SSU2Block.
Proof. solve_decision. Defined.

Definition TokenSize : Z := 8.

Definition BlockTypeDateTime : byte := x00.
Definition BlockTypeOptions : byte := x01.
Definition BlockTypeRouterInfo : byte := x02.
Definition BlockTypeI2NPMessage : byte := x03.
Definition BlockTypeFirstFragment : byte := x04.
Definition BlockTypeFollowOnFragment : byte := x05.
Definition BlockTypeTermination : byte := x06.
Definition BlockTypeRelayRequest : byte := x07.
Definition BlockTypeRelayResponse : byte := x08.
Definition BlockTypeRelayIntro : byte := x09.
Definition BlockTypePeerTest : byte := x0a.
Definition BlockTypeNextNonce : byte := x0b.
Definition BlockTypeACK : byte := x0c.
Definition BlockTypeAddress : byte := x0d.
Definition BlockTypeReserved14 : byte := x0e.
Definition BlockTypeRelayTagRequest : byte := x0f.
Definition BlockTypeRelayTag : byte := x10.
Definition BlockTypeNewToken : byte := x11.
Definition BlockTypePathChallenge : byte := x12.
Definition BlockTypePathResponse : byte := x13.
Definition BlockTypeFirstPacketNumber : byte := x14.
Definition BlockTypeCongestion : byte := x15.
Definition BlockTypePadding : byte := xfe.

Definition minBlockHeaderSize : Z := 3.
Definition minDateTimeSize : Z := 4.
Definition minOptionsSize : Z := 12.
Definition minTerminationSize : Z := 9.
Definition minNextNonceSize : Z := 8.
Definition minACKSize : Z := 5.
Definition minReserved14Size : Z := 0.
Definition minAddressSizeIPv4 : Z := 6.
Definition minAddressSizeIPv6 : Z := 18.
Definition minRelayTagRequestSize : Z := 0.
Definition minRelayTagSize : Z := 4.
Definition minNewTokenSize : Z := 12.
Definition minFirstPacketNumberSize : Z := 4.
Definition minCongestionSize : Z := 1.
Definition maxBlockLength : Z := 65535.

(** The error sites of the component; [EInvalidBlock] and [EAtOffset] are the
    two [oops.Wrapf] layers, [EOutOfFuel] is never returned
    (see [DeserializeBlocks_total]). *)
Inductive BlockError :=
| EHeaderTooShort (have : Z)
| EInsufficientData (have need : Z)
| EDataTooLarge (len : Z)
| EDataTooShort (name : string) (len min : Z)
| EWrongType (expected got : byte)
| EBadTokenSize (len : Z)
| EAddressSize (len : Z)
| EInvalidBlock (e : BlockError)
| EAtOffset (offset : Z) (e : BlockError)
| ESerializeAt (index : Z) (e : BlockError)
| EOutOfFuel.

Definition NewSSU2Block (blockType : byte) (data : bytes) : SSU2Block :=
  mkBlock blockType data.

(** [GetBlockTypeName]: the switch as a table of its cases. *)
Definition blockTypeNames : list (byte * string) :=
  [ (BlockTypeDateTime, "DateTime"%string);
    (BlockTypeOptions, "Options"%string);
    (BlockTypeRouterInfo, "RouterInfo"%string);
    (BlockTypeI2NPMessage, "I2NPMessage"%string);
    (BlockTypeFirstFragment, "FirstFragment"%string);
    (BlockTypeFollowOnFragment, "FollowOnFragment"%string);
    (BlockTypeTermination, "Termination"%string);
    (BlockTypeRelayRequest, "RelayRequest"%string);
    (BlockTypeRelayResponse, "RelayResponse"%string);
    (BlockTypeRelayIntro, "RelayIntro"%string);
    (BlockTypePeerTest, "PeerTest"%string);
    (BlockTypeNextNonce, "NextNonce"%string);
    (BlockTypeACK, "ACK"%string);
    (BlockTypeAddress, "Address"%string);
    (BlockTypeReserved14, "Reserved14"%string);
    (BlockTypeRelayTagRequest, "RelayTagRequest"%string);
    (BlockTypeRelayTag, "RelayTag"%string);
    (BlockTypeNewToken, "NewToken"%string);
    (BlockTypePathChallenge, "PathChallenge"%string);
    (BlockTypePathResponse, "PathResponse"%string);
    (BlockTypeFirstPacketNumber, "FirstPacketNumber"%string);
    (BlockTypeCongestion, "Congestion"%string);
    (BlockTypePadding, "Padding"%string) ].

Definition GetBlockTypeName (blockType : byte) : string :=
  default "Unknown"%string (assoc blockType blockTypeNames).

Definition IsKnownBlockType (blockType : byte) : bool :=
  bool_decide (blockType ∈
    [ BlockTypeDateTime; BlockTypeOptions; BlockTypeRouterInfo;
      BlockTypeI2NPMessage; BlockTypeFirstFragment; BlockTypeFollowOnFragment;
      BlockTypeTermination; BlockTypeRelayRequest; BlockTypeRelayResponse;
      BlockTypeRelayIntro; BlockTypePeerTest; BlockTypeNextNonce;
      BlockTypeACK; BlockTypeAddress; BlockTypeReserved14;
      BlockTypeRelayTagRequest; BlockTypeRelayTag; BlockTypeNewToken;
      BlockTypePathChallenge; BlockTypePathResponse;
      BlockTypeFirstPacketNumber; BlockTypeCongestion; BlockTypePadding ]).

(** The package-level map [blockMinSizes]. *)
Definition blockMinSizes : list (byte * Z) :=
  [ (BlockTypeDateTime, minDateTimeSize);
    (BlockTypeOptions, minOptionsSize);
    (BlockTypeTermination, minTerminationSize);
    (BlockTypeNextNonce, minNextNonceSize);
    (BlockTypeACK, minACKSize);
    (BlockTypeReserved14, minReserved14Size);
    (BlockTypeAddress, minAddressSizeIPv4);
    (BlockTypeRelayTagRequest, minRelayTagRequestSize);
    (BlockTypeRelayTag, minRelayTagSize);
    (BlockTypeNewToken, minNewTokenSize);
    (BlockTypeFirstPacketNumber, minFirstPacketNumberSize);
    (BlockTypeCongestion, minCongestionSize) ].

(** ** Operations *)

(** [validate]: [None] is the nil error. *)
Definition validate (b : SSU2Block) : option BlockError :=
  let dataLen := zlen (Data b) in
  if maxBlockLength <? dataLen then Some (EDataTooLarge dataLen)
  else match assoc (Type_ b) blockMinSizes with
       | Some minSize =>
           if dataLen <? minSize
           then Some (EDataTooShort (GetBlockTypeName (Type_ b)) dataLen minSize)
           else None
       | None => None
       end.

Definition Serialize (b : SSU2Block) : result BlockError bytes :=
  match validate b with
  | Some e => Err (EInvalidBlock e)
  | None =>
      let dataLen := zlen (Data b) in
      Ok (Type_ b :: be_encode 2 (u16 dataLen) ++ Data b)
  end.

(** [Deserialize] mutates its receiver before it can fail, so the receiver is
    an argument and the resulting receiver is returned next to the result. *)
Definition Deserialize (b : SSU2Block) (data : bytes)
    : SSU2Block * result BlockError Z :=
  if zlen data <? minBlockHeaderSize then (b, Err (EHeaderTooShort (zlen data)))
  else
    let b := mkBlock (default x00 (data !! 0%nat)) (Data b) in
    let dataLen := be_decode (slice 1 3 data) in
    let totalLen := minBlockHeaderSize + dataLen in
    if zlen data <? totalLen
    then (b, Err (EInsufficientData (zlen data) totalLen))
    else
      let b := mkBlock (Type_ b) (slice 3 (3 + Z.to_nat dataLen) data) in
      match validate b with
      | Some e => (b, Err (EInvalidBlock e))
      | None => (b, Ok totalLen)
      end.

Definition Size (b : SSU2Block) : Z := minBlockHeaderSize + zlen (Data b).

(** The loop of [enforceBlockOrder]: the last Termination and the last Padding
    block seen, and the other blocks in order. *)
Fixpoint order_scan (blocks : list SSU2Block)
    (termBlock padBlock : option SSU2Block) (normal : list SSU2Block)
    : option SSU2Block * option SSU2Block * list SSU2Block :=
  match blocks with
  | [] => (termBlock, padBlock, normal)
  | b :: rest =>
      if decide (Type_ b = BlockTypeTermination) then order_scan rest (Some b) padBlock normal
      else if decide (Type_ b = BlockTypePadding) then order_scan rest termBlock (Some b) normal
      else order_scan rest termBlock padBlock (normal ++ [b])
  end.

Definition enforceBlockOrder (blocks : list SSU2Block) : list SSU2Block :=
  let '(termBlock, padBlock, normal) := order_scan blocks None None [] in
  let normal := match termBlock with Some t => normal ++ [t] | None => normal end in
  match padBlock with Some p => normal ++ [p] | None => normal end.

(** The serialisation loop of [SerializeBlocks], from index [i]. *)
Fixpoint serialize_loop (i : Z) (ordered : list SSU2Block) (buf : bytes)
    : result BlockError bytes :=
  match ordered with
  | [] => Ok buf
  | block :: rest =>
      match Serialize block with
      | Err e => Err (ESerializeAt i e)
      | Ok data => serialize_loop (i + 1) rest (buf ++ data)
      end
  end.

Definition SerializeBlocks (blocks : list SSU2Block) : result BlockError bytes :=
  if decide (length blocks = 0%nat) then Ok []
  else serialize_loop 0 (enforceBlockOrder blocks) [].

(** The loop of [DeserializeBlocks]; every iteration consumes at least three
    bytes, so [length data] iterations are enough. *)
Fixpoint deserialize_loop (fuel : nat) (data : bytes) (offset : nat)
    (blocks : list SSU2Block) : result BlockError (list SSU2Block) :=
  if decide (length data <= offset)%nat then Ok blocks
  else match fuel with
       | O => Err EOutOfFuel
       | S fuel =>
           match Deserialize (mkBlock x00 []) (drop offset data) with
           | (_, Err e) => Err (EAtOffset (Z.of_nat offset) e)
           | (block, Ok consumed) =>
               deserialize_loop fuel data (offset + Z.to_nat consumed) (blocks ++ [block])
           end
       end.

Definition DeserializeBlocks (data : bytes) : result BlockError (list SSU2Block) :=
  if decide (length data = 0%nat) then Ok []
  else deserialize_loop (length data) data 0 [].

Fixpoint FindBlockByType (blocks : list SSU2Block) (blockType : byte) : option SSU2Block :=
  match blocks with
  | [] => None
  | block :: rest =>
      if decide (Type_ block = blockType) then Some block else FindBlockByType rest blockType
  end.

(** ** NewToken and Address blocks *)

Record NewTokenBlock := mkNewTokenBlock {
  Expiration : Z;
  Token : bytes;
}.

(** [expiration] is [expiration.Unix()]; the conversion to uint32 truncates. *)
Definition NewNewTokenBlock (expiration : Z) (token : bytes) : result BlockError SSU2Block :=
  if decide (zlen token <> TokenSize) then Err (EBadTokenSize (zlen token))
  else Ok (NewSSU2Block BlockTypeNewToken (be_encode 4 (u32 expiration) ++ token)).

Definition ParseNewTokenBlock (block : SSU2Block) : result BlockError NewTokenBlock :=
  if decide (Type_ block <> BlockTypeNewToken)
  then Err (EWrongType BlockTypeNewToken (Type_ block))
  else if zlen (Data block) <? minNewTokenSize
  then Err (EDataTooShort "NewToken" (zlen (Data block)) minNewTokenSize)
  else Ok (mkNewTokenBlock (be_decode (slice 0 4 (Data block))) (drop 4 (Data block))).

Record AddressBlock := mkAddressBlock {
  IP : bytes;
  Port : Z;
}.

(** [net.IP.To4] and [net.IP.To16]; [None] is the nil IP. *)
Definition v4InV6Prefix : bytes :=
  [x00; x00; x00; x00; x00; x00; x00; x00; x00; x00; xff; xff].

Definition To4 (ip : bytes) : option bytes :=
  if decide (length ip = 4%nat) then Some ip
  else if decide (length ip = 16%nat /\ take 12 ip = v4InV6Prefix) then Some (drop 12 ip)
  else None.

Definition To16 (ip : bytes) : option bytes :=
  if decide (length ip = 4%nat) then Some (v4InV6Prefix ++ ip)
  else if decide (length ip = 16%nat) then Some ip
  else None.

(** [copy] into a fresh zeroed buffer of [n] bytes. *)
Definition copy_into (n : nat) (src : bytes) : bytes :=
  take n src ++ replicate (n - length src) x00.

Definition EncodeAddressBlock (ip : bytes) (port : Z) : SSU2Block :=
  match To4 ip with
  | Some ip4 => NewSSU2Block BlockTypeAddress (be_encode 2 port ++ copy_into 4 ip4)
  | None => NewSSU2Block BlockTypeAddress (be_encode 2 port ++ copy_into 16 (default [] (To16 ip)))
  end.

Definition DecodeAddressBlock (block : SSU2Block) : result BlockError AddressBlock :=
  if decide (Type_ block <> BlockTypeAddress)
  then Err (EWrongType BlockTypeAddress (Type_ block))
  else if zlen (Data block) =? minAddressSizeIPv4
  then Ok (mkAddressBlock (slice 2 6 (Data block)) (be_decode (slice 0 2 (Data block))))
  else if zlen (Data block) =? minAddressSizeIPv6
  then Ok (mkAddressBlock (slice 2 18 (Data block)) (be_decode (slice 0 2 (Data block))))
  else Err (EAddressSize (zlen (Data block))).

(** ** Termination reasons *)

Definition TerminationNormalClose : byte := x00.
Definition TerminationReceived : byte := x01.
Definition TerminationIdleTimeout : byte := x02.
Definition TerminationRouterShutdown : byte := x03.
Definition TerminationDataPhaseAEADFailure : byte := x04.
Definition TerminationIncompatibleOptions : byte := x05.
Definition TerminationIncompatibleSignature : byte := x06.
Definition TerminationClockSkew : byte := x07.
Definition TerminationPaddingViolation : byte := x08.
Definition TerminationAEADFramingError : byte := x09.
Definition TerminationPayloadFormatError : byte := x0a.
Definition TerminationSessionRequestError : byte := x0b.
Definition TerminationSessionCreatedError : byte := x0c.
Definition TerminationSessionConfirmedError : byte := x0d.
Definition TerminationTimeout : byte := x0e.
Definition TerminationRISigVerifyFail : byte := x0f.
Definition TerminationSParamMissing : byte := x10.
Definition TerminationBanned : byte := x11.
Definition TerminationBadToken : byte := x12.
Definition TerminationConnectionLimits : byte := x13.
Definition TerminationIncompatibleVersion : byte := x14.
Definition TerminationWrongNetID : byte := x15.
Definition TerminationReplacedByNewSession : byte := x16.

(** [TerminationReason.String]. *)
Definition terminationNames : list (byte * string) :=
  [ (TerminationNormalClose, "NormalClose"%string);
    (TerminationReceived, "TerminationReceived"%string);
    (TerminationIdleTimeout, "IdleTimeout"%string);
    (TerminationRouterShutdown, "RouterShutdown"%string);
    (TerminationDataPhaseAEADFailure, "DataPhaseAEADFailure"%string);
    (TerminationIncompatibleOptions, "IncompatibleOptions"%string);
    (TerminationIncompatibleSignature, "IncompatibleSignature"%string);
    (TerminationClockSkew, "ClockSkew"%string);
    (TerminationPaddingViolation, "PaddingViolation"%string);
    (TerminationAEADFramingError, "AEADFramingError"%string);
    (TerminationPayloadFormatError, "PayloadFormatError"%string);
    (TerminationSessionRequestError, "SessionRequestError"%string);
    (TerminationSessionCreatedError, "SessionCreatedError"%string);
    (TerminationSessionConfirmedError, "SessionConfirmedError"%string);
    (TerminationTimeout, "Timeout"%string);
    (TerminationRISigVerifyFail, "RISigVerifyFail"%string);
    (TerminationSParamMissing, "SParamMissing"%string);
    (TerminationBanned, "Banned"%string);
    (TerminationBadToken, "BadToken"%string);
    (TerminationConnectionLimits, "ConnectionLimits"%string);
    (TerminationIncompatibleVersion, "IncompatibleVersion"%string);
    (TerminationWrongNetID, "WrongNetID"%string);
    (TerminationReplacedByNewSession, "ReplacedByNewSession"%string) ].

Definition TerminationReason_String (r : byte) : string :=
  default "Unknown"%string (assoc r terminationNames).

(** ** The codec of one block *)

(** The serialised form of a valid block. *)
Definition wire_of (b : SSU2Block) : bytes :=
  [Type_ b] ++ be_encode 2 (zlen (Data b)) ++ Data b.

#[global] Arguments wire_of : simpl never.

Lemma validate_len b : validate b = None -> zlen (Data b) <= maxBlockLength.
Proof. unfold validate. case_ifs; [done|lia]. Qed.

Lemma Serialize_ok_iff b buf :
  Serialize b = Ok buf <-> validate b = None /\ buf = wire_of b.
Proof.
  unfold Serialize, wire_of. destruct (validate b) as [e|] eqn:E.
  - split; [done|by intros [? _]].
  - pose proof (validate_len _ E). unfold maxBlockLength in *. pose proof (zlen_nonneg (Data b)).
    rewrite u16_small by (unfold is_u16; lia). split; [by intros [= <-]|by intros [_ ->]].
Qed.

Lemma zlen_wire_of b : zlen (wire_of b) = Size b.
Proof.
  unfold wire_of, Size, minBlockHeaderSize. rewrite !zlen_app.
  unfold zlen at 1 2. rewrite length_be_encode. simpl. lia.
Qed.

Lemma Deserialize_wire_of b0 b rest :
  validate b = None ->
  Deserialize b0 (wire_of b ++ rest) = (b, Ok (Size b)).
Proof.
  intros Hv. pose proof (validate_len _ Hv) as Hl. unfold maxBlockLength in Hl.
  pose proof (zlen_nonneg (Data b)). pose proof (zlen_nonneg rest).
  unfold Deserialize. rewrite zlen_app, zlen_wire_of. unfold Size, minBlockHeaderSize.
  assert (Hd : be_decode (slice 1 3 (wire_of b ++ rest)) = zlen (Data b)).
  { unfold wire_of. rewrite <- !app_assoc, slice_app by done.
    apply be_decode_encode_small. simpl. lia. }
  rewrite Hd. destruct (_ <? 3) eqn:E1; bool_props; [lia|].
  destruct (_ <? _) eqn:E2; bool_props; [lia|].
  assert (Hs : slice 3 (3 + Z.to_nat (zlen (Data b))) (wire_of b ++ rest) = Data b).
  { unfold wire_of. rewrite <- !app_assoc, (app_assoc [Type_ b]).
    apply slice_app; [done|]. unfold zlen. rewrite Nat2Z.id. done. }
  rewrite Hs. simpl. destruct b as [t d]. simpl in *. by rewrite Hv.
Qed.

Lemma Deserialize_ok_inv b0 data b n :
  Deserialize b0 data = (b, Ok n) ->
  validate b = None /\ n = Size b /\ exists rest, data = wire_of b ++ rest.
Proof.
  unfold Deserialize. destruct (zlen data <? minBlockHeaderSize) eqn:E1; [done|].
  destruct (zlen data <? minBlockHeaderSize + _) eqn:E2; [done|]. bool_props.
  unfold minBlockHeaderSize, zlen in *.
  destruct data as [|t [|l1 [|l0 d]]]; cbn [length] in E1; try lia.
  change (slice 1 3 (t :: l1 :: l0 :: d)) with [l1; l0] in *.
  set (m := be_decode [l1; l0]) in *.
  assert (Hm : 0 <= m < 256 ^ 2) by apply (be_decode_bound [l1; l0]).
  replace (slice 3 (3 + Z.to_nat m) (t :: l1 :: l0 :: d)) with (take (Z.to_nat m) d)
    by (unfold slice; simpl; by rewrite Nat.sub_0_r).
  cbn [Type_]. destruct (validate _) eqn:Ev; [done|]. intros [= <- <-]. cbn [length] in E2.
  assert (Hl : length (take (Z.to_nat m) d) = Z.to_nat m) by (rewrite length_take; lia).
  split_and!; [done| |].
  - unfold Size, zlen, minBlockHeaderSize. simpl. lia.
  - exists (drop (Z.to_nat m) d). unfold wire_of, zlen. cbn [Data Type_]. rewrite Hl, Z2Nat.id by lia.
    rewrite (be_encode_decode 2 [l1; l0] eq_refl : be_encode 2 m = _). rewrite <- !app_assoc, take_drop. done.
Qed.

(** ** Sequences of blocks *)

Definition valid_blocks (bs : list SSU2Block) : Prop := Forall (fun b => validate b = None) bs.

Definition wire_of_blocks (bs : list SSU2Block) : bytes := concat (map wire_of bs).

Lemma wire_of_blocks_cons b bs : wire_of_blocks (b :: bs) = wire_of b ++ wire_of_blocks bs.
Proof. done. Qed.

Lemma serialize_loop_ok_iff i bs buf out :
  serialize_loop i bs buf = Ok out <-> valid_blocks bs /\ out = buf ++ wire_of_blocks bs.
Proof.
  revert i buf. induction bs as [|b bs IH]; intros i buf; simpl.
  - unfold wire_of_blocks. simpl. rewrite app_nil_r.
    split; [intros [= <-]; split; [constructor|done]|by intros [_ ->]].
  - destruct (Serialize b) as [d|e] eqn:E.
    + apply Serialize_ok_iff in E as [Hv ->]. rewrite IH. unfold wire_of_blocks. simpl.
      rewrite <- app_assoc. unfold valid_blocks. rewrite Forall_cons. tauto.
    + split; [done|]. intros [Hf _]. inversion_clear Hf as [|? ? Hv _].
      by rewrite (proj2 (Serialize_ok_iff _ _) (conj Hv eq_refl)) in E.
Qed.

Lemma deserialize_loop_complete fuel pre bs acc :
  valid_blocks bs -> (length bs <= fuel)%nat ->
  deserialize_loop fuel (pre ++ wire_of_blocks bs) (length pre) acc = Ok (acc ++ bs).
Proof.
  revert fuel pre acc. induction bs as [|b bs IH]; intros fuel pre acc Hv Hf.
  - unfold wire_of_blocks. simpl. rewrite !app_nil_r. destruct fuel; simpl; by rewrite decide_True.
  - inversion_clear Hv as [|? ? Hb Hbs]. destruct fuel as [|fuel]; simpl in Hf; [lia|]. simpl.
    rewrite decide_False by (rewrite length_app; simpl; lia).
    rewrite drop_app_length, wire_of_blocks_cons, Deserialize_wire_of by done.
    replace (length pre + Z.to_nat (Size b))%nat with (length (pre ++ wire_of b)).
    + rewrite app_assoc, IH by (done || lia). by rewrite <- app_assoc.
    + rewrite length_app. pose proof (zlen_wire_of b). unfold zlen in *. lia.
Qed.

Lemma deserialize_loop_sound fuel data offset acc out :
  deserialize_loop fuel data offset acc = Ok out ->
  exists bs, out = acc ++ bs /\ valid_blocks bs /\ drop offset data = wire_of_blocks bs.
Proof.
  revert offset acc. induction fuel as [|fuel IH]; intros offset acc; simpl;
    destruct (decide (length data <= offset)%nat) as [Hd|Hd].
  1, 3: intros [= <-]; exists []; rewrite app_nil_r, drop_ge by done;
        split_and!; [done|constructor|done].
  - done.
  - destruct (Deserialize _ _) as [b [n|e]] eqn:E; [|done]. intros H.
    apply Deserialize_ok_inv in E as (Hv & -> & rest & Hdrop).
    apply IH in H as (bs & -> & Hbs & Hrest). exists (b :: bs).
    rewrite <- app_assoc. split_and!; [done|by constructor|].
    rewrite wire_of_blocks_cons, <- Hrest, <- drop_drop, Hdrop.
    replace (Z.to_nat (Size b)) with (length (wire_of b)).
    + by rewrite drop_app_length.
    + pose proof (zlen_wire_of b). unfold zlen in *. lia.
Qed.

Lemma deserialize_loop_fuel fuel data offset acc :
  (length data - offset <= fuel)%nat ->
  deserialize_loop fuel data offset acc <> Err EOutOfFuel.
Proof.
  revert offset acc. induction fuel as [|fuel IH]; intros offset acc Hf; simpl;
    destruct (decide _) as [|Hd]; try done; [lia|].
  destruct (Deserialize _ _) as [b [n|e]] eqn:E; [|done].
  apply Deserialize_ok_inv in E as (_ & -> & _). apply IH.
  unfold Size, minBlockHeaderSize. pose proof (zlen_nonneg (Data b)). lia.
Qed.

(** ** Block order *)

Definition is_term (b : SSU2Block) : bool := bool_decide (Type_ b = BlockTypeTermination).
Definition is_pad (b : SSU2Block) : bool := bool_decide (Type_ b = BlockTypePadding).
Definition is_normal (b : SSU2Block) : bool := negb (is_term b) && negb (is_pad b).

Lemma is_term_not_pad b : is_term b = true -> is_pad b = false.
Proof.
  unfold is_term, is_pad. intros H%bool_decide_eq_true. rewrite H. done.
Qed.

(** What the blocks of a payload are ordered to: the normal blocks in their
    order, then the last Termination block, then the last Padding block. *)
Definition ordered_spec (bs : list SSU2Block) : list SSU2Block :=
  List.filter is_normal bs
  ++ option_list (last (List.filter is_term bs))
  ++ option_list (last (List.filter is_pad bs)).

Lemma order_scan_spec bs t p n :
  order_scan bs t p n =
    (match last (List.filter is_term bs) with Some b => Some b | None => t end,
     match last (List.filter is_pad bs) with Some b => Some b | None => p end,
     n ++ List.filter is_normal bs).
Proof.
  revert t p n. induction bs as [|b bs IH]; intros t p n; simpl; [by rewrite app_nil_r|].
  unfold is_normal, is_term, is_pad in *.
  destruct (decide (Type_ b = BlockTypeTermination)) as [Ht|Ht].
  - rewrite IH, (bool_decide_eq_true_2 _ Ht), bool_decide_eq_false_2 by (by rewrite Ht).
    cbn [negb andb]. rewrite last_cons. by destruct (last _).
  - rewrite (bool_decide_eq_false_2 _ Ht).
    destruct (decide (Type_ b = BlockTypePadding)) as [Hp|Hp].
    + rewrite IH, (bool_decide_eq_true_2 _ Hp). cbn [negb andb]. rewrite last_cons. by destruct (last (_ _ bs)), (last _).
    + rewrite IH, (bool_decide_eq_false_2 _ Hp). cbn [negb andb]. by rewrite <- app_assoc.
Qed.

Lemma enforceBlockOrder_ordered bs : enforceBlockOrder bs = ordered_spec bs.
Proof.
  unfold enforceBlockOrder, ordered_spec. rewrite order_scan_spec.
  destruct (last (List.filter is_term bs)), (last (List.filter is_pad bs)); simpl;
    by rewrite <- ?app_assoc, ?app_nil_r.
Qed.

(** ** Properties *)

(** parsing what [Serialize] produced, with anything behind it, gives back
    the same block and consumes exactly the bytes produced. *)
Theorem Serialize_Deserialize (b b0 : SSU2Block) (buf rest : bytes) :
  Serialize b = Ok buf -> Deserialize b0 (buf ++ rest) = (b, Ok (zlen buf)).
Proof.
  intros [Hv ->]%Serialize_ok_iff. rewrite zlen_wire_of. by apply Deserialize_wire_of.
Qed.

Definition sample_block : SSU2Block := mkBlock BlockTypeNextNonce (be_encode 8 77).

Lemma Serialize_Deserialize_witness :
  Deserialize (mkBlock x00 []) ((x0b :: x00 :: x08 :: be_encode 8 77) ++ [xff])
  = (sample_block, Ok 11).
Proof.
  apply (Serialize_Deserialize sample_block (mkBlock x00 [])
           (x0b :: x00 :: x08 :: be_encode 8 77) [xff]).
  vm_compute. reflexivity.
Defined.

(** the block encoding is canonical: whatever [Deserialize] accepts,
    [Serialize] maps back to exactly the bytes consumed, and at least the header
    and at most the input are consumed. *)
Theorem Deserialize_Serialize (b b0 : SSU2Block) (data : bytes) (n : Z) :
  Deserialize b0 data = (b, Ok n) ->
  Serialize b = Ok (take (Z.to_nat n) data) /\ minBlockHeaderSize <= n <= zlen data.
Proof.
  intros (Hv & -> & rest & ->)%Deserialize_ok_inv.
  assert (Hn : Z.to_nat (Size b) = length (wire_of b)).
  { pose proof (zlen_wire_of b). unfold zlen in *. lia. }
  rewrite Hn, take_app_length, zlen_app, zlen_wire_of, Serialize_ok_iff.
  pose proof (zlen_nonneg (Data b)). pose proof (zlen_nonneg rest). unfold Size. split; [done|lia].
Qed.

Lemma Deserialize_Serialize_witness :
  Serialize (mkBlock BlockTypeCongestion [x01]) = Ok [x15; x00; x01; x01]
  /\ minBlockHeaderSize <= 4 <= zlen [x15; x00; x01; x01; x99].
Proof.
  apply (Deserialize_Serialize (mkBlock BlockTypeCongestion [x01]) (mkBlock x00 [])
           [x15; x00; x01; x01; x99] 4).
  vm_compute. reflexivity.
Defined.

Lemma blocks_roundtrip (blocks : list SSU2Block) (buf : bytes) :
  SerializeBlocks blocks = Ok buf -> DeserializeBlocks buf = Ok (enforceBlockOrder blocks).
Proof.
  unfold SerializeBlocks, DeserializeBlocks. destruct (decide _) as [H|H].
  - intros [= <-]. destruct blocks; [done|simpl in H; lia].
  - intros [Hv ->]%serialize_loop_ok_iff. set (bs := enforceBlockOrder blocks) in *. simpl.
    destruct (decide (length (wire_of_blocks bs) = 0%nat)) as [Hz|Hz].
    + destruct bs as [|b bs]; [done|]. exfalso. rewrite wire_of_blocks_cons, length_app in Hz.
      pose proof (zlen_wire_of b). pose proof (zlen_nonneg (Data b)).
      unfold Size, minBlockHeaderSize, zlen in *. lia.
    + apply (deserialize_loop_complete _ [] bs []); [done|]. clear.
      induction bs as [|b bs IH]; [simpl; lia|]. rewrite wire_of_blocks_cons, length_app.
      pose proof (zlen_wire_of b). pose proof (zlen_nonneg (Data b)).
      unfold Size, minBlockHeaderSize, zlen in *. simpl. lia.
Qed.

(** a serialised payload parses to its blocks in the order the protocol
    requires. *)
Theorem SerializeBlocks_DeserializeBlocks (blocks : list SSU2Block) (buf : bytes) :
  SerializeBlocks blocks = Ok buf -> DeserializeBlocks buf = Ok (enforceBlockOrder blocks).
Proof. apply blocks_roundtrip. Qed.

Lemma SerializeBlocks_DeserializeBlocks_witness :
  DeserializeBlocks [x15; x00; x01; x03; xfe; x00; x00] =
  Ok (enforceBlockOrder [mkBlock BlockTypePadding []; mkBlock BlockTypeCongestion [x03]]).
Proof.
  apply (SerializeBlocks_DeserializeBlocks
           [mkBlock BlockTypePadding []; mkBlock BlockTypeCongestion [x03]]).
  vm_compute. reflexivity.
Defined.

(** [DeserializeBlocks] terminates on every input; on success the input is
    exactly the concatenation of the encodings of the blocks returned, each of
    which is valid, so no byte is skipped or read twice. *)
Theorem DeserializeBlocks_total (data : bytes) :
  DeserializeBlocks data <> Err EOutOfFuel /\
  forall blocks, DeserializeBlocks data = Ok blocks ->
    Forall (fun b => validate b = None) blocks /\ data = concat (map wire_of blocks).
Proof.
  unfold DeserializeBlocks. destruct (decide _) as [H|H].
  - split; [done|]. intros blocks [= <-]. destruct data; [done|simpl in H; lia].
  - split; [apply deserialize_loop_fuel; lia|].
    intros blocks (bs & -> & Hv & Hd)%deserialize_loop_sound. by rewrite drop_0 in Hd.
Qed.

(** the payload order: all ordinary blocks in their given order, then the
    last Termination block, then the last Padding block (earlier Termination or
    Padding blocks are dropped). *)
Theorem enforceBlockOrder_spec (blocks : list SSU2Block) :
  enforceBlockOrder blocks =
    List.filter is_normal blocks
    ++ option_list (last (List.filter is_term blocks))
    ++ option_list (last (List.filter is_pad blocks)).
Proof. apply enforceBlockOrder_ordered. Qed.

(** a NewToken block carries its expiration (as the low 32 bits of the Unix
    time) and its token unchanged. *)
Theorem NewToken_roundtrip (expiration : Z) (token : bytes) (block : SSU2Block) :
  NewNewTokenBlock expiration token = Ok block ->
  ParseNewTokenBlock block = Ok (mkNewTokenBlock (u32 expiration) token)
  /\ validate block = None.
Proof.
  unfold NewNewTokenBlock, TokenSize. destruct (decide _) as [|Hl]; [done|].
  intros <-%Ok_inj. apply dec_stable in Hl.
  unfold ParseNewTokenBlock, validate, minNewTokenSize, maxBlockLength. cbn [Data Type_ NewSSU2Block].
  assert (Hz : zlen (be_encode 4 (u32 expiration) ++ token) = 12).
  { rewrite zlen_app, Hl. done. }
  rewrite Hz. split; [|done]. rewrite decide_False by (intros Hn; by apply Hn). cbn -[be_decode].
  unfold slice. rewrite drop_0. rewrite take_app_length' by done.
  rewrite drop_app_length' by done.
  rewrite be_decode_encode_small; [done|]. apply u32_bound.
Qed.

Lemma NewToken_roundtrip_witness :
  ParseNewTokenBlock (mkBlock x11 (be_encode 4 1700000000 ++ replicate 8 x07))
  = Ok (mkNewTokenBlock (u32 1700000000) (replicate 8 x07))
  /\ validate (mkBlock x11 (be_encode 4 1700000000 ++ replicate 8 x07)) = None.
Proof.
  apply (NewToken_roundtrip 1700000000 (replicate 8 x07)). vm_compute. reflexivity.
Defined.

(** an Address block round trip: IPv4 addresses (4 bytes, or 16 bytes in
    IPv4-mapped form) come back as 4 bytes, other 16-byte addresses unchanged,
    and the port is preserved. *)
Theorem Address_roundtrip (ip : bytes) (port : Z) :
  length ip = 4%nat \/ length ip = 16%nat -> is_u16 port ->
  DecodeAddressBlock (EncodeAddressBlock ip port)
  = Ok (mkAddressBlock (default ip (To4 ip)) port).
Proof.
  intros Hlen Hp. unfold EncodeAddressBlock.
  assert (Hcopy : forall n (l : bytes), length l = n -> copy_into n l = l).
  { intros n l <-. unfold copy_into. rewrite firstn_all, Nat.sub_diag, app_nil_r. done. }
  assert (Hdec : forall n (l : bytes), length l = n -> n = 4%nat \/ n = 16%nat ->
    DecodeAddressBlock (NewSSU2Block BlockTypeAddress (be_encode 2 port ++ l))
    = Ok (mkAddressBlock l port)).
  { intros n l Hl Hn. unfold DecodeAddressBlock. cbn [Type_ Data NewSSU2Block].
    rewrite decide_False by (intros Hx; by apply Hx).
    assert (H02 : slice 0 2 (be_encode 2 port ++ l) = be_encode 2 port).
    { unfold slice. rewrite drop_0. by apply take_app_length'. }
    assert (H2 : forall j, j = (2 + length l)%nat -> slice 2 j (be_encode 2 port ++ l) = l).
    { intros j ->. rewrite <- (app_nil_r l) at 2. by apply slice_app. }
    rewrite H02, (be_decode_encode_small 2 port) by apply Hp.
    rewrite zlen_app. unfold zlen, minAddressSizeIPv4, minAddressSizeIPv6. rewrite length_be_encode.
    destruct Hn as [-> | ->]; rewrite Hl; simpl; by rewrite H2 by lia. }
  unfold To4, To16. destruct (decide (length ip = 4%nat)) as [H4|H4].
  - rewrite Hcopy by done. apply (Hdec 4%nat); auto.
  - destruct Hlen as [|H16]; [done|].
    destruct (decide (length ip = 16%nat /\ _)) as [[_ Hpre]|Hno].
    + assert (Hd : length (drop 12 ip) = 4%nat) by (rewrite length_drop; lia).
      rewrite Hcopy by done. apply (Hdec 4%nat); auto.
    + rewrite decide_True by done. simpl. rewrite Hcopy by done. apply (Hdec 16%nat); auto.
Qed.

Lemma Address_roundtrip_witness :
  DecodeAddressBlock (EncodeAddressBlock (v4InV6Prefix ++ [x7f; x00; x00; x01]) 9150)
  = Ok (mkAddressBlock [x7f; x00; x00; x01] 9150).
Proof.
  apply (Address_roundtrip (v4InV6Prefix ++ [x7f; x00; x00; x01]) 9150).
  - right. reflexivity.
  - split; [discriminate|reflexivity].
Defined.

(** The two switches over block types agree. *)
Lemma IsKnownBlockType_name (t : byte) :
  IsKnownBlockType t = negb (bool_decide (GetBlockTypeName t = "Unknown"%string)).
Proof. destruct t; vm_compute; reflexivity. Qed.

(** Distinct reason codes of the table have distinct names. *)
Lemma TerminationReason_String_inj (r1 r2 : byte) :
  b2z r1 <= 22 -> b2z r2 <= 22 ->
  TerminationReason_String r1 = TerminationReason_String r2 -> r1 = r2.
Proof.
  assert (Hdec : forall r, b2z r <= 22 ->
    exists n, list_find (fun p => p.2 = TerminationReason_String r) terminationNames
              = Some (n, (r, TerminationReason_String r))).
  { intros r Hr. destruct r; try (exfalso; revert Hr; vm_compute; congruence);
      eexists; vm_compute; reflexivity. }
  intros H1 H2 E. destruct (Hdec r1 H1) as [n1 E1]. destruct (Hdec r2 H2) as [n2 E2].
  rewrite E in E1. rewrite E1 in E2. congruence.
Qed.
