(* ===== verification/Packet.v ===== *)
(** * SSU2 packets

    Models [ssu2/wire/packet.go]: the packet structure, its wire form
    (header, optional ephemeral key, payload, MAC), its validation and the
    connection ID accessors. *)

From Stdlib Require Import ZArith Lia.
From Stdlib Require Import Strings.Byte.
From stdpp Require Import base numbers list strings.
From S2P Require Import Prelude.

#[local] Open Scope Z_scope.

(** ** Data *)

(** [Timestamp] is a time in nanoseconds. *)
Record SSU2Packet := mkPacket {
  Header : bytes;
  EphemeralKey : bytes;
  Payload : bytes;
  MAC : bytes;
  MessageType : byte;
  PacketNumber : Z;
  Timestamp : Z;
}.

#[export] Instance SSU2Packet_eq_dec : EqDecision SSU2Packet.
Proof. solve_decision. Defined.

Definition MessageTypeSessionRequest : byte := x00.
Definition MessageTypeSessionCreated : byte := x01.
Definition MessageTypeSessionConfirmed : byte := x02.
Definition MessageTypeData : byte := x06.
Definition MessageTypePeerTest : byte := x07.
Definition MessageTypeRetry : byte := x09.
Definition MessageTypeTokenRequest : byte := x0a.
Definition MessageTypeHolePunch : byte := x0b.

Definition ShortHeaderSize : nat := 16.
Definition LongHeaderSize : nat := 32.
Definition EphemeralKeySize : nat := 32.
Definition MACSize : nat := 16.

Definition MinPacketSize : nat := 40.
Definition MaxPacketSizeIPv4 : nat := 1472.
Definition MaxPacketSizeIPv6 : nat := 1452.

Definition SSU2ProtocolVersion : Z := 2.
Definition SSU2NetworkID : Z := 2.

Inductive PacketError :=
| EPacketTooShort (have min : nat)
| EProtocolVersion (got : Z)
| ENetworkID (got : Z)
| EMACPosition (macStart offset : nat)
| EHeaderSize (got expected : nat)
| EEphemeralKeySize (got : nat)
| EEphemeralKeyPresent
| EMACSize (got : nat)
| EPacketTooLarge (got : nat)
| EInvalidPacket (e : PacketError)
| EHeaderTooShort (have : nat).

(** ** Operations *)

Definition NewSSU2Packet (msgType : byte) (packetNum now : Z) : SSU2Packet :=
  mkPacket [] [] [] [] msgType packetNum now.

Definition hasEphemeralKey (p : SSU2Packet) : bool :=
  bool_decide (MessageType p = MessageTypeSessionRequest)
  || bool_decide (MessageType p = MessageTypeSessionCreated).

Definition getHeaderSize (p : SSU2Packet) : nat :=
  if decide (MessageType p = MessageTypeSessionConfirmed \/ MessageType p = MessageTypeData)
  then ShortHeaderSize else LongHeaderSize.

(** [validate]: [None] is the nil error. *)
Definition validate (p : SSU2Packet) : option PacketError :=
  let expectedHeaderSize := getHeaderSize p in
  if decide (length (Header p) <> expectedHeaderSize)
  then Some (EHeaderSize (length (Header p)) expectedHeaderSize)
  else if hasEphemeralKey p && negb (bool_decide (length (EphemeralKey p) = EphemeralKeySize))
  then Some (EEphemeralKeySize (length (EphemeralKey p)))
  else if negb (hasEphemeralKey p) && bool_decide (0 < length (EphemeralKey p))%nat
  then Some EEphemeralKeyPresent
  else if decide (length (MAC p) <> MACSize) then Some (EMACSize (length (MAC p)))
  else
    let totalSize := (length (Header p) + length (Payload p) + length (MAC p)
      + (if hasEphemeralKey p then length (EphemeralKey p) else 0))%nat in
    if decide (MaxPacketSizeIPv6 < totalSize)%nat then Some (EPacketTooLarge totalSize)
    else None.

(** [Serialize] writes the message type into byte 12 of the packet's own
    header, so the updated packet is returned too. *)
Definition Serialize (p : SSU2Packet) : SSU2Packet * result PacketError bytes :=
  match validate p with
  | Some e => (p, Err (EInvalidPacket e))
  | None =>
      let p := mkPacket (<[12%nat := MessageType p]> (Header p)) (EphemeralKey p) (Payload p)
                 (MAC p) (MessageType p) (PacketNumber p) (Timestamp p) in
      (p, Ok (Header p
              ++ (if hasEphemeralKey p && bool_decide (0 < length (EphemeralKey p))%nat
                  then EphemeralKey p else [])
              ++ Payload p ++ MAC p))
  end.

Definition validateLongHeader (data : bytes) (headerSize : nat) : option PacketError :=
  if decide (headerSize <> LongHeaderSize) then None
  else if negb (byte_at data 13 =? SSU2ProtocolVersion)
  then Some (EProtocolVersion (byte_at data 13))
  else if negb (byte_at data 14 =? SSU2NetworkID)
  then Some (ENetworkID (byte_at data 14))
  else None.

(** [parsePacketSections] leaves the ephemeral key of a packet without one, and
    the payload of a packet with an empty one, as they were in the receiver. *)
Definition parsePacketSections (p : SSU2Packet) (data : bytes) (headerSize : nat)
    : SSU2Packet * option PacketError :=
  let hasEphemeral := hasEphemeralKey p in
  let minSize := (headerSize + MACSize + (if hasEphemeral then EphemeralKeySize else 0))%nat in
  if decide (length data < minSize)%nat
  then (p, Some (EPacketTooShort (length data) minSize))
  else
    let hdr := take headerSize data in
    let '(eph, offset) :=
      if hasEphemeral
      then (slice headerSize (headerSize + EphemeralKeySize) data,
            (headerSize + EphemeralKeySize)%nat)
      else (EphemeralKey p, headerSize) in
    let macStart := (length data - MACSize)%nat in
    if decide (macStart < offset)%nat
    then (mkPacket hdr eph (Payload p) (MAC p) (MessageType p) (PacketNumber p) (Timestamp p),
          Some (EMACPosition macStart offset))
    else
      let payload := if decide (0 < macStart - offset)%nat
                     then slice offset macStart data else Payload p in
      (mkPacket hdr eph payload (drop macStart data)
         (MessageType p) (PacketNumber p) (Timestamp p), None).

(** [Deserialize] into the receiver [p], at time [now]. *)
Definition Deserialize (p : SSU2Packet) (data : bytes) (now : Z)
    : SSU2Packet * option PacketError :=
  if decide (length data < MinPacketSize)%nat
  then (p, Some (EPacketTooShort (length data) MinPacketSize))
  else
    let p := mkPacket (Header p) (EphemeralKey p) (Payload p) (MAC p)
               (default x00 (data !! 12%nat)) (PacketNumber p) (Timestamp p) in
    let headerSize := getHeaderSize p in
    match validateLongHeader data headerSize with
    | Some e => (p, Some e)
    | None =>
        match parsePacketSections p data headerSize with
        | (p, Some e) => (p, Some e)
        | (p, None) =>
            (mkPacket (Header p) (EphemeralKey p) (Payload p) (MAC p) (MessageType p)
               (be_decode (slice 8 12 (Header p))) now, None)
        end
    end.

Definition Size (p : SSU2Packet) : nat :=
  length (Header p) + length (Payload p) + length (MAC p)
  + (if hasEphemeralKey p && bool_decide (0 < length (EphemeralKey p))%nat
     then length (EphemeralKey p) else 0).

(** [Clone]: every non-empty slice is copied, empty ones stay nil. *)
Definition Clone (p : SSU2Packet) : SSU2Packet :=
  let copy (l : bytes) := if decide (0 < length l)%nat then take (length l) l else [] in
  mkPacket (copy (Header p)) (copy (EphemeralKey p)) (copy (Payload p)) (copy (MAC p))
    (MessageType p) (PacketNumber p) (Timestamp p).

Definition SetPacketNumber (p : SSU2Packet) (num : Z) : SSU2Packet :=
  mkPacket (Header p) (EphemeralKey p) (Payload p) (MAC p) (MessageType p) num (Timestamp p).

Definition IsHandshakePacket (p : SSU2Packet) : bool :=
  bool_decide (MessageType p = MessageTypeSessionRequest)
  || bool_decide (MessageType p = MessageTypeSessionCreated)
  || bool_decide (MessageType p = MessageTypeSessionConfirmed).

Definition IsDataPacket (p : SSU2Packet) : bool :=
  bool_decide (MessageType p = MessageTypeData).

Definition DecodeConnectionID (p : SSU2Packet) : result PacketError Z :=
  if decide (length (Header p) < 8)%nat then Err (EHeaderTooShort (length (Header p)))
  else Ok (be_decode (slice 0 8 (Header p))).

Definition EncodeConnectionID (p : SSU2Packet) (connID : Z)
    : SSU2Packet * option PacketError :=
  if decide (length (Header p) < 8)%nat then (p, Some (EHeaderTooShort (length (Header p))))
  else (mkPacket (be_encode 8 connID ++ drop 8 (Header p)) (EphemeralKey p) (Payload p) (MAC p)
          (MessageType p) (PacketNumber p) (Timestamp p), None).

(** ** Lemmas *)

(** The sections of a packet, concatenated. *)
Definition sections (p : SSU2Packet) : bytes :=
  Header p ++ EphemeralKey p ++ Payload p ++ MAC p.

(** The length the ephemeral key of a well-formed packet has. *)
Definition ephemeral_len (p : SSU2Packet) : nat :=
  if hasEphemeralKey p then EphemeralKeySize else 0.

Lemma getHeaderSize_cases p :
  getHeaderSize p = ShortHeaderSize \/ getHeaderSize p = LongHeaderSize.
Proof. unfold getHeaderSize. case_decide; auto. Qed.

Lemma validate_none_inv p :
  validate p = None ->
  length (Header p) = getHeaderSize p /\ length (EphemeralKey p) = ephemeral_len p
  /\ length (MAC p) = MACSize /\ (length (sections p) <= MaxPacketSizeIPv6)%nat.
Proof.
  unfold validate, ephemeral_len, sections. rewrite !length_app.
  destruct (decide _) as [|H1]; [done|]. apply dec_stable in H1.
  destruct (hasEphemeralKey p); cbn [negb andb].
  - destruct (bool_decide (length (EphemeralKey p) = EphemeralKeySize)) eqn:E2; [|done].
    apply bool_decide_eq_true in E2. cbn [negb andb].
    destruct (decide _) as [|H3]; [done|]. apply dec_stable in H3.
    destruct (decide _) as [|H4]; [done|]. intros _. split_and!; [done..|lia].
  - destruct (bool_decide _) eqn:E2; [done|]. apply bool_decide_eq_false in E2.
    destruct (decide _) as [|H3]; [done|]. apply dec_stable in H3.
    destruct (decide _) as [|H4]; [done|]. intros _. split_and!; [done|lia|done|lia].
Qed.

Lemma validate_none_intro p :
  length (Header p) = getHeaderSize p -> length (EphemeralKey p) = ephemeral_len p ->
  length (MAC p) = MACSize -> (length (sections p) <= MaxPacketSizeIPv6)%nat ->
  validate p = None.
Proof.
  unfold validate, ephemeral_len, sections. rewrite !length_app. intros H1 H2 H3 H4.
  rewrite decide_False by tauto. destruct (hasEphemeralKey p); cbn [negb andb];
    rewrite ?(bool_decide_eq_true_2 _ H2), ?(bool_decide_eq_false_2 (0 < _)%nat) by lia;
    cbn [negb andb]; rewrite decide_False by tauto; rewrite decide_False by lia; done.
Qed.

Lemma Serialize_ok_inv p p' buf :
  Serialize p = (p', Ok buf) ->
  validate p = None /\ buf = sections p' /\
  p' = mkPacket (<[12%nat := MessageType p]> (Header p)) (EphemeralKey p) (Payload p)
         (MAC p) (MessageType p) (PacketNumber p) (Timestamp p).
Proof.
  unfold Serialize. destruct (validate p) as [e|] eqn:Hv; [done|].
  intros H. apply pair_equal_spec in H as [<- <-%Ok_inj].
  apply validate_none_inv in Hv as (_ & He & _). split_and!; [done| |done].
  unfold sections, ephemeral_len in *.
  change (hasEphemeralKey (mkPacket _ _ _ _ _ _ _)) with (hasEphemeralKey p).
  cbn [Header EphemeralKey Payload MAC].
  destruct (hasEphemeralKey p); cbn [andb].
  - rewrite bool_decide_eq_true_2; [done|]. rewrite He. unfold EphemeralKeySize. lia.
  - by apply nil_length_inv in He as ->.
Qed.

(** Splitting a well-formed wire image back into its sections. *)
Lemma parsePacketSections_sections p q :
  MessageType q = MessageType p ->
  length (Header p) = getHeaderSize p -> length (EphemeralKey p) = ephemeral_len p ->
  length (MAC p) = MACSize -> EphemeralKey q = [] -> Payload q = [] ->
  parsePacketSections q (sections p) (getHeaderSize p) =
    (mkPacket (Header p) (EphemeralKey p) (Payload p) (MAC p)
       (MessageType p) (PacketNumber q) (Timestamp q), None).
Proof.
  intros Ht Hh He Hm Hqe Hqp. unfold parsePacketSections.
  assert (Hq : hasEphemeralKey q = hasEphemeralKey p) by (unfold hasEphemeralKey; by rewrite Ht).
  set (data := sections p).
  assert (Hlen : length data = (getHeaderSize p + ephemeral_len p + length (Payload p) + MACSize)%nat).
  { unfold data, sections. rewrite !length_app. lia. }
  assert (Hmac : drop (length data - MACSize) data = MAC p).
  { rewrite Hlen. unfold data, sections. rewrite !app_assoc. apply drop_app_length'.
    rewrite !length_app. lia. }
  assert (Hpay : slice (getHeaderSize p + ephemeral_len p) (length data - MACSize) data = Payload p).
  { rewrite Hlen. unfold data, sections. rewrite !app_assoc, <- app_assoc.
    apply slice_app; rewrite length_app; lia. }
  assert (Hpay0 : (if decide (0 < length data - MACSize - (getHeaderSize p + ephemeral_len p))%nat
    then slice (getHeaderSize p + ephemeral_len p) (length data - MACSize) data else Payload q)
    = Payload p).
  { case_decide; [done|]. rewrite Hqp. symmetry. apply nil_length_inv. lia. }
  rewrite Hq, Ht. unfold ephemeral_len in *.
  rewrite decide_False by (destruct (hasEphemeralKey p); lia).
  assert (Hhdr : take (getHeaderSize p) data = Header p) by (by apply take_app_length').
  destruct (hasEphemeralKey p).
  - assert (Heph : slice (getHeaderSize p) (getHeaderSize p + EphemeralKeySize) data
      = EphemeralKey p) by (apply slice_app; lia).
    rewrite decide_False by lia. by rewrite Hmac, Hhdr, Heph, Hpay0.
  - rewrite decide_False by lia. rewrite Nat.add_0_r in *.
    rewrite Hmac, Hhdr, Hqe, Hpay0. by apply nil_length_inv in He as ->.
Qed.

Lemma byte_at_app_l l1 l2 i : (i < length l1)%nat -> byte_at (l1 ++ l2) i = byte_at l1 i.
Proof. intros. unfold byte_at. by rewrite lookup_app_l. Qed.

(** The version and network bytes a long-header packet must carry. *)
Definition long_header_ok (p : SSU2Packet) : Prop :=
  getHeaderSize p = LongHeaderSize ->
  byte_at (Header p) 13 = SSU2ProtocolVersion /\ byte_at (Header p) 14 = SSU2NetworkID.

#[export] Instance long_header_ok_dec p : Decision (long_header_ok p).
Proof. unfold long_header_ok. solve_decision. Defined.

(** Parsing the sections of a packet whose header names its message type. *)
Lemma Deserialize_sections p q now :
  length (Header p) = getHeaderSize p -> length (EphemeralKey p) = ephemeral_len p ->
  length (MAC p) = MACSize -> Header p !! 12%nat = Some (MessageType p) ->
  long_header_ok p -> (MinPacketSize <= length (sections p))%nat ->
  EphemeralKey q = [] -> Payload q = [] ->
  Deserialize q (sections p) now =
    (mkPacket (Header p) (EphemeralKey p) (Payload p) (MAC p) (MessageType p)
       (be_decode (slice 8 12 (Header p))) now, None).
Proof.
  intros Hh He Hm H12 Hlong Hmin Hqe Hqp. unfold Deserialize.
  rewrite decide_False by lia.
  assert (Hlk : sections p !! 12%nat = Some (MessageType p)).
  { unfold sections. rewrite lookup_app_l; [done|]. by apply lookup_lt_Some in H12. }
  rewrite Hlk. cbn [default from_option id].
  set (q' := mkPacket _ _ _ _ _ _ _).
  assert (Hgs : getHeaderSize q' = getHeaderSize p) by done. rewrite Hgs.
  replace (validateLongHeader (sections p) (getHeaderSize p)) with (@None PacketError).
  - by rewrite (parsePacketSections_sections p q').
  - symmetry. unfold validateLongHeader. destruct (decide _) as [|Hl]; [done|].
    apply dec_stable in Hl. destruct (Hlong Hl) as [H13 H14]. unfold LongHeaderSize in Hl.
    unfold sections. rewrite !byte_at_app_l by lia. by rewrite H13, H14.
Qed.

Lemma parsePacketSections_inv q data hs p :
  parsePacketSections q data hs = (p, None) ->
  EphemeralKey q = [] -> Payload q = [] ->
  data = sections p /\ length (Header p) = hs /\ length (EphemeralKey p) = ephemeral_len p
  /\ length (MAC p) = MACSize /\ MessageType p = MessageType q.
Proof.
  unfold parsePacketSections. intros H He Hp. destruct (decide _) as [|Hl]; [done|].
  assert (Hpay : forall off, (off <= length data - MACSize)%nat ->
    data = take off data
      ++ (if decide (0 < length data - MACSize - off)%nat
          then slice off (length data - MACSize) data else Payload q)
      ++ drop (length data - MACSize) data).
  { intros off Ho. rewrite <- (take_drop off data) at 1. f_equal.
    unfold slice. case_decide.
    - rewrite <- (take_drop (length data - MACSize - off) (drop off data)) at 1.
      rewrite drop_drop. do 2 f_equal. lia.
    - rewrite Hp. simpl. f_equal. lia. }
  set (E := hasEphemeralKey q) in *. destruct E eqn:HE; (destruct (decide _) as [|Ho]; [done|]).
  all: apply pair_equal_spec in H as [<- _]; unfold sections, ephemeral_len.
  all: change (hasEphemeralKey (mkPacket _ _ _ _ _ _ _)) with E; rewrite HE.
  all: cbn [Header EphemeralKey Payload MAC MessageType].
  - split_and!; [|rewrite length_take; lia|rewrite length_slice; lia|rewrite length_drop; lia|done].
    assert (Htk : take (hs + EphemeralKeySize) data
      = take hs data ++ slice hs (hs + EphemeralKeySize) data).
    { rewrite <- (take_drop hs (take (hs + EphemeralKeySize) data)).
      unfold slice. rewrite take_take, skipn_firstn_comm. do 2 f_equal; lia. }
    rewrite (Hpay (hs + EphemeralKeySize)%nat) at 1 by lia. by rewrite Htk, <- app_assoc.
  - rewrite He. split_and!; [|rewrite length_take; lia|done|rewrite length_drop; lia|done].
    apply Hpay. lia.
Qed.

Lemma Deserialize_inv q data now p :
  Deserialize q data now = (p, None) ->
  EphemeralKey q = [] -> Payload q = [] ->
  data = sections p /\ length (Header p) = getHeaderSize p
  /\ length (EphemeralKey p) = ephemeral_len p /\ length (MAC p) = MACSize
  /\ Header p !! 12%nat = Some (MessageType p)
  /\ PacketNumber p = be_decode (slice 8 12 (Header p)).
Proof.
  unfold Deserialize. intros H He Hp. destruct (decide _) as [|Hl]; [done|].
  unfold MinPacketSize in Hl. set (q' := mkPacket _ _ _ _ _ _ _) in *.
  destruct (validateLongHeader _ _); [done|].
  destruct (parsePacketSections _ _ _) as [p1 [e|]] eqn:E; [done|].
  apply pair_equal_spec in H as [<- _].
  apply parsePacketSections_inv in E as (Hd & Hh & Heph & Hm & Ht); [|done..].
  assert (Hgs : getHeaderSize p1 = getHeaderSize q') by (unfold getHeaderSize; by rewrite Ht).
  split_and!; [done|exact (eq_trans Hh (eq_sym Hgs))|done|done| |done].
  cbn [Header MessageType]. rewrite Ht. cbn [MessageType q'].
  destruct (lookup_lt_is_Some_2 data 12) as [b Hb]; [lia|]. rewrite Hb. simpl.
  rewrite Hd in Hb. unfold sections in Hb. rewrite lookup_app_l in Hb; [done|].
  destruct (getHeaderSize_cases q') as [Hc|Hc]; rewrite Hc in Hh; rewrite Hh;
    unfold ShortHeaderSize, LongHeaderSize; lia.
Qed.

(** ** Properties *)

(** a packet that [Serialize] accepts and that has the minimum size, and for
    a long header the right version and network bytes, is parsed back to the
    same sections and message type; its packet number is the one in header
    bytes 8 to 11. *)
Theorem packet_roundtrip (p p' q : SSU2Packet) (buf : bytes) (now : Z) :
  Serialize p = (p', Ok buf) ->
  (MinPacketSize <= length buf)%nat -> long_header_ok p ->
  EphemeralKey q = [] -> Payload q = [] ->
  Deserialize q buf now =
    (mkPacket (<[12%nat := MessageType p]> (Header p)) (EphemeralKey p) (Payload p) (MAC p)
       (MessageType p) (be_decode (slice 8 12 (Header p))) now, None).
Proof.
  intros (Hv & -> & ->)%Serialize_ok_inv Hmin Hlong Hqe Hqp.
  apply validate_none_inv in Hv as (Hh & He & Hm & _).
  assert (H12 : (12 < length (Header p))%nat).
  { rewrite Hh. destruct (getHeaderSize_cases p) as [-> | ->];
      unfold ShortHeaderSize, LongHeaderSize; lia. }
  assert (Hne : forall i, i <> 12%nat ->
    byte_at (<[12%nat := MessageType p]> (Header p)) i = byte_at (Header p) i).
  { intros i Hi. unfold byte_at. by rewrite list_lookup_insert_ne. }
  assert (Hnum : slice 8 12 (<[12%nat := MessageType p]> (Header p)) = slice 8 12 (Header p)).
  { unfold slice. rewrite !take_drop_commute. by rewrite take_insert_ge. }
  rewrite Deserialize_sections; cbn [Header EphemeralKey Payload MAC MessageType]; try done.
  - by rewrite Hnum.
  - by rewrite length_insert.
  - by apply list_lookup_insert_eq.
  - intros Hl. cbn [Header]. rewrite !Hne by done. by apply Hlong.
Qed.

Definition sample_packet : SSU2Packet :=
  mkPacket (be_encode 8 4660 ++ be_encode 4 7 ++ be_encode 4 0) []
    (be_encode 8 1) (be_encode 16 2) MessageTypeData 7 0.

Lemma packet_roundtrip_witness :
  Deserialize (NewSSU2Packet x00 0 0) (sections (Serialize sample_packet).1) 5 =
    (mkPacket (<[12%nat := MessageTypeData]> (Header sample_packet)) []
       (be_encode 8 1) (be_encode 16 2) MessageTypeData 7 5, None).
Proof.
  apply (packet_roundtrip sample_packet (Serialize sample_packet).1 (NewSSU2Packet x00 0 0)
           (sections (Serialize sample_packet).1) 5).
  - vm_compute. reflexivity.
  - vm_compute. lia.
  - intros H. vm_compute in H. discriminate H.
  - reflexivity.
  - reflexivity.
Defined.

(** the packet encoding is canonical: what a fresh packet parses from a
    datagram of at most the IPv6 maximum, [Serialize] maps back to the same
    datagram, leaving the packet unchanged. *)
Theorem packet_canonical (p q : SSU2Packet) (data : bytes) (now : Z) :
  Deserialize q data now = (p, None) ->
  EphemeralKey q = [] -> Payload q = [] -> (length data <= MaxPacketSizeIPv6)%nat ->
  Serialize p = (p, Ok data).
Proof.
  intros H He Hp Hmax. apply Deserialize_inv in H as (Hd & Hh & Heph & Hm & H12 & _); [|done..].
  rewrite Hd in Hmax |- *. pose proof (validate_none_intro _ Hh Heph Hm Hmax) as Hv.
  destruct (Serialize p) as [p' [buf|e]] eqn:Es.
  - apply Serialize_ok_inv in Es as (_ & -> & ->).
    rewrite list_insert_id by done. by destruct p.
  - unfold Serialize in Es. by rewrite Hv in Es.
Qed.

Definition sample_datagram : bytes :=
  be_encode 8 4660 ++ be_encode 4 7 ++ [x06; x00; x00; x00] ++ be_encode 8 1 ++ be_encode 16 2.

Lemma packet_canonical_witness :
  Serialize (Deserialize (NewSSU2Packet x00 0 0) sample_datagram 5).1
  = ((Deserialize (NewSSU2Packet x00 0 0) sample_datagram 5).1, Ok sample_datagram).
Proof.
  apply (packet_canonical _ (NewSSU2Packet x00 0 0) sample_datagram 5).
  - vm_compute. reflexivity.
  - reflexivity.
  - reflexivity.
  - vm_compute. lia.
Defined.

(** [EncodeConnectionID] followed by [DecodeConnectionID] gives the ID back,
    and no header byte behind the first eight changes. *)
Theorem connection_id_roundtrip (p p' : SSU2Packet) (connID : Z) :
  is_u64 connID -> EncodeConnectionID p connID = (p', None) ->
  DecodeConnectionID p' = Ok connID /\ length (Header p') = length (Header p)
  /\ drop 8 (Header p') = drop 8 (Header p).
Proof.
  unfold EncodeConnectionID, DecodeConnectionID. intros Hid. destruct (decide _) as [|Hl]; [done|].
  intros H. apply pair_equal_spec in H as [<- _]. cbn [Header].
  rewrite length_app, length_drop, length_be_encode, decide_False by lia.
  split_and!; [|lia|by apply drop_app_length'].
  unfold slice. rewrite drop_0, take_app_length' by done.
  f_equal. apply be_decode_encode_small. apply Hid.
Qed.

Lemma connection_id_roundtrip_witness :
  DecodeConnectionID (EncodeConnectionID sample_packet 18446744073709551615).1
    = Ok 18446744073709551615
  /\ length (Header (EncodeConnectionID sample_packet 18446744073709551615).1)
     = length (Header sample_packet)
  /\ drop 8 (Header (EncodeConnectionID sample_packet 18446744073709551615).1)
     = drop 8 (Header sample_packet).
Proof.
  apply (connection_id_roundtrip sample_packet _ 18446744073709551615).
  - split; [discriminate|reflexivity].
  - reflexivity.
Defined.

(** The deep copy has the value of the original. *)
Lemma Clone_id (p : SSU2Packet) : Clone p = p.
Proof.
  assert (Hc : forall l : bytes, (if decide (0 < length l)%nat then take (length l) l else []) = l).
  { intros l. case_decide; [apply firstn_all|]. symmetry. apply nil_length_inv. lia. }
  unfold Clone. rewrite !Hc. by destruct p.
Qed.

(** [validate] has no lower bound: a Data packet with an empty payload passes
    [Serialize] as 32 bytes and no receiver accepts it. *)
Lemma Serialize_below_minimum :
  exists p p' buf, Serialize p = (p', Ok buf)
    /\ forall q now, (Deserialize q buf now).2 = Some (EPacketTooShort 32 MinPacketSize).
Proof.
  exists (mkPacket (be_encode 16 0) [] [] (be_encode 16 0) MessageTypeData 0 0).
  do 2 eexists. split; [reflexivity|]. intros q now. reflexivity.
Qed.
