(* ===== verification/TokenCache.v ===== *)
(** * The retry token cache

    Models [ssu2/wire/token_cache.go]. A cache maps the string form of a UDP
    address to the token issued to it. Clock readings ([time.Now], [time.Since])
    and the bytes read from the system's random source are arguments of the
    operations; [UDPAddr] and [UDPAddr.String] are parameters. *)

From Stdlib Require Import ZArith Lia.
From Stdlib Require Import Strings.Byte.
From stdpp Require Import base numbers list gmap strings.
From S2P Require Import Prelude Block.

#[local] Open Scope Z_scope.

Section TokenCache.

(** [net.UDPAddr] and its [String] method. *)
Context {UDPAddr : Type} (String_ : UDPAddr -> string).

(** ** Data *)

Record TokenEntry := mkTokenEntry {
  Value : bytes;
  Address : UDPAddr;
  CreatedAt : Z;
}.

Context {R : GoRange string TokenEntry}.

Record TokenCache := mkTokenCache {
  tokens : gmap string TokenEntry;
  ttl : Z;
  maxSize : Z;
}.

Inductive TokenError :=
| ENilAddress
| ETokenGenerationFailed.

Definition MaxTokenCacheSize : Z := 10000.

(** ** Operations *)

Definition NewTokenCache (t : Z) : TokenCache :=
  mkTokenCache ∅ (if t <=? 0 then 60 * Second else t) MaxTokenCacheSize.

Definition NewTokenCacheWithMaxSize (t size : Z) : TokenCache :=
  let tc := NewTokenCache t in
  if 0 <? size then mkTokenCache (tokens tc) (ttl tc) size else tc.

Definition set_tokens (tc : TokenCache) (m : gmap string TokenEntry) : TokenCache :=
  mkTokenCache m (ttl tc) (maxSize tc).

Definition evictOldestLocked (tc : TokenCache) : TokenCache :=
  match scan_oldest CreatedAt (go_range (tokens tc)) None with
  | Some (oldestKey, _) => set_tokens tc (delete oldestKey (tokens tc))
  | None => tc
  end.

(** [GenerateToken]: [rnd] is what the random source delivers ([None] is its
    error), [now] the clock read for the expiry test and [now'] the one read
    for the new token. *)
Definition GenerateToken (tc : TokenCache) (addr : option UDPAddr) (rnd : option bytes)
    (now now' : Z) : TokenCache * result TokenError bytes :=
  match addr with
  | None => (tc, Err ENilAddress)
  | Some addr =>
      let addrStr := String_ addr in
      let fresh :=
        match rnd with
        | None => (tc, Err ETokenGenerationFailed)
        | Some tokenValue =>
            let tc := if maxSize tc <=? Z.of_nat (size (tokens tc))
                      then evictOldestLocked tc else tc in
            (set_tokens tc (<[addrStr := mkTokenEntry tokenValue addr now']> (tokens tc)),
             Ok tokenValue)
        end in
      match tokens tc !! addrStr with
      | Some existingToken =>
          if time_sub now (CreatedAt existingToken) <=? ttl tc
          then (tc, Ok (Value existingToken)) else fresh
      | None => fresh
      end
  end.

Definition ValidateToken (tc : TokenCache) (tokenValue : bytes) (addr : option UDPAddr) (now : Z)
    : bool :=
  match addr with
  | None => false
  | Some addr =>
      if negb (zlen tokenValue =? TokenSize) then false
      else match tokens tc !! String_ addr with
           | None => false
           | Some token =>
               if ttl tc <? time_sub now (CreatedAt token) then false
               else bool_decide (Value token = tokenValue)
           end
  end.

Definition ConsumeToken (tc : TokenCache) (tokenValue : bytes) (addr : option UDPAddr) (now : Z)
    : TokenCache * bool :=
  match addr with
  | None => (tc, false)
  | Some addr =>
      if negb (zlen tokenValue =? TokenSize) then (tc, false)
      else
        let addrStr := String_ addr in
        match tokens tc !! addrStr with
        | None => (tc, false)
        | Some token =>
            if ttl tc <? time_sub now (CreatedAt token)
            then (set_tokens tc (delete addrStr (tokens tc)), false)
            else if negb (bool_decide (Value token = tokenValue)) then (tc, false)
            else (set_tokens tc (delete addrStr (tokens tc)), true)
        end
  end.

Definition Cleanup (tc : TokenCache) (now : Z) : TokenCache * Z :=
  let '(m, removed) :=
    delete_where (fun _ token => ttl tc <? time_sub now (CreatedAt token))
      (go_range (tokens tc)) (tokens tc) 0 in
  (set_tokens tc m, removed).

Definition Size (tc : TokenCache) : Z := Z.of_nat (size (tokens tc)).

Definition Clear (tc : TokenCache) : TokenCache := set_tokens tc ∅.

Definition InvalidateAddress (tc : TokenCache) (addr : option UDPAddr) : TokenCache :=
  match addr with
  | None => tc
  | Some addr => set_tokens tc (delete (String_ addr) (tokens tc))
  end.

(** ** The cache as a transition system *)

Inductive tc_step : TokenCache -> TokenCache -> Prop :=
| step_generate tc addr rnd now now' :
    tc_step tc (GenerateToken tc addr rnd now now').1
| step_consume tc v addr now :
    tc_step tc (ConsumeToken tc v addr now).1
| step_cleanup tc now :
    tc_step tc (Cleanup tc now).1
| step_clear tc :
    tc_step tc (Clear tc)
| step_invalidate tc addr :
    tc_step tc (InvalidateAddress tc addr).

(** ** Lemmas *)

(** The size bound with the configuration it depends on. *)
Definition tc_inv (size_ : Z) (tc : TokenCache) : Prop :=
  maxSize tc = size_ /\ 0 < size_ /\ Size tc <= size_.

(** The evicted entry is one with the smallest creation time. *)
Lemma evictOldestLocked_oldest tc :
  tokens tc <> ∅ ->
  exists k v, tokens tc !! k = Some v
    /\ (forall k' v', tokens tc !! k' = Some v' -> CreatedAt v <= CreatedAt v')
    /\ evictOldestLocked tc = set_tokens tc (delete k (tokens tc)).
Proof.
  intros (k & v & E & Hk & Hmin)%(scan_oldest_range R CreatedAt).
  exists k, v. split_and!; [done..|]. unfold evictOldestLocked. by rewrite E.
Qed.

Lemma evictOldestLocked_size tc :
  Size (evictOldestLocked tc) = Z.max 0 (Size tc - 1)
  /\ maxSize (evictOldestLocked tc) = maxSize tc /\ ttl (evictOldestLocked tc) = ttl tc.
Proof.
  unfold Size. destruct (decide (tokens tc = ∅)) as [He|Hne].
  - unfold evictOldestLocked. rewrite He, go_range_empty. simpl.
    by rewrite He, map_size_empty.
  - destruct (evictOldestLocked_oldest tc Hne) as (k & v & Hk & _ & ->). simpl.
    rewrite map_size_delete_Some by eauto.
    apply map_size_non_empty_iff in Hne. split_and!; [lia|done..].
Qed.

Lemma tc_step_inv size_ tc tc' : tc_inv size_ tc -> tc_step tc tc' -> tc_inv size_ tc'.
Proof.
  intros (Hm & Hp & Hs) Hstep. unfold tc_inv, Size in *.
  destruct Hstep as [tc addr rnd now now'|tc v addr now|tc now|tc|tc addr].
  - unfold GenerateToken. destruct addr as [addr|]; [|done].
    assert (Hfresh : forall tv, let tc1 := if maxSize tc <=? Z.of_nat (size (tokens tc))
        then evictOldestLocked tc else tc in
      tc_inv size_ (set_tokens tc1 (<[String_ addr := tv]> (tokens tc1)))).
    { intros tv tc1. unfold tc_inv, Size. cbn [maxSize tokens set_tokens].
      pose proof (size_insert_le (String_ addr) tv (tokens tc1)) as Hi. unfold tc1 in *.
      destruct (maxSize tc <=? _) eqn:E; bool_props; [|split_and!; [done..|lia]].
      destruct (evictOldestLocked_size tc) as (He & Hms & _). unfold Size in He.
      split_and!; [congruence|done|lia]. }
    destruct (tokens tc !! String_ addr) as [t|];
      [destruct (time_sub now (CreatedAt t) <=? ttl tc); [done|]|];
      (destruct rnd; [apply Hfresh|done]).
  - unfold ConsumeToken. destruct addr as [addr|]; [|done]. case_ifs; [done|].
    destruct (tokens tc !! String_ addr) as [t|]; [|done].
    pose proof (size_delete_le (String_ addr) (tokens tc)).
    case_ifs; simpl; try done; (split_and!; [done..|lia]).
  - unfold Cleanup. rewrite delete_where_range. simpl. split_and!; [done..|].
    pose proof (map_size_filter (fun kv : string * TokenEntry =>
      (ttl tc <? time_sub now (CreatedAt kv.2)) = false) (tokens tc)). lia.
  - simpl. rewrite map_size_empty. split_and!; [done..|lia].
  - destruct addr as [addr|]; [|done]. simpl.
    pose proof (size_delete_le (String_ addr) (tokens tc)). split_and!; [done..|lia].
Qed.

(** ** Properties *)

(** however the cache is used after its construction with bound [size_],
    it never holds more than [size_] tokens, and the bound never changes. *)
Theorem token_cache_bounded (t size_ : Z) (tc : TokenCache) :
  0 < size_ -> rtc tc_step (NewTokenCacheWithMaxSize t size_) tc ->
  Size tc <= size_ /\ maxSize tc = size_.
Proof.
  intros Hs Hrtc.
  assert (Hinv : tc_inv size_ (NewTokenCacheWithMaxSize t size_)).
  { unfold NewTokenCacheWithMaxSize, tc_inv, Size. rewrite (proj2 (Z.ltb_lt 0 size_) Hs).
    simpl. rewrite map_size_empty. split_and!; [done..|lia]. }
  induction Hrtc as [tc|tc tc1 tc2 Hstep _ IH].
  - by destruct Hinv as (? & _ & ?).
  - by apply IH, (tc_step_inv _ tc).
Qed.

Lemma ValidateToken_true tc v addr now :
  ValidateToken tc v (Some addr) now = true <->
  zlen v = TokenSize /\ exists t, tokens tc !! String_ addr = Some t
    /\ time_sub now (CreatedAt t) <= ttl tc /\ Value t = v.
Proof.
  unfold ValidateToken. split.
  - destruct (negb _) eqn:El; [done|]. bool_props.
    destruct (tokens tc !! String_ addr) as [t|]; [|done].
    destruct (ttl tc <? _) eqn:E; bool_props; [done|]. intros ?%bool_decide_eq_true. eauto.
  - intros (Hl & t & Ht & Hn & Hv). rewrite Hl, Ht. simpl.
    destruct (ttl tc <? _) eqn:E; bool_props; [lia|]. by apply bool_decide_eq_true.
Qed.

(** The entry of the address after a successful [GenerateToken]. *)
Lemma GenerateToken_entry tc tc' addr rnd now now' v :
  GenerateToken tc (Some addr) rnd now now' = (tc', Ok v) ->
  ttl tc' = ttl tc /\ exists t, tokens tc' !! String_ addr = Some t /\ Value t = v
    /\ (CreatedAt t = now' \/ time_sub now (CreatedAt t) <= ttl tc).
Proof.
  unfold GenerateToken. set (fresh := match rnd with Some _ => _ | None => _ end).
  assert (Hfresh : fresh = (tc', Ok v) ->
    ttl tc' = ttl tc /\ exists t, tokens tc' !! String_ addr = Some t /\ Value t = v
      /\ (CreatedAt t = now' \/ time_sub now (CreatedAt t) <= ttl tc)).
  { unfold fresh. destruct rnd as [r|]; [|done]. intros [<- <-%Ok_inj]%pair_equal_spec. split.
    - simpl. destruct (_ <=? _); [apply evictOldestLocked_size|done].
    - eexists. split; [apply lookup_insert_eq|]. simpl. split; [done|by left]. }
  destruct (tokens tc !! String_ addr) as [t|] eqn:Et; [|done].
  destruct (time_sub now (CreatedAt t) <=? ttl tc) eqn:E; bool_props; [|done].
  intros [<- <-%Ok_inj]%pair_equal_spec. eauto 10.
Qed.

(** The other entries are kept or evicted. *)
Lemma GenerateToken_others tc tc' addr rnd now now' r :
  GenerateToken tc (Some addr) rnd now now' = (tc', r) ->
  ttl tc' = ttl tc /\ (forall k e, k <> String_ addr -> tokens tc' !! k = Some e -> tokens tc !! k = Some e)
  /\ (is_ok r = false -> tc' = tc).
Proof.
  unfold GenerateToken. set (fresh := match rnd with Some _ => _ | None => _ end). intros H.
  assert (Hf : fresh = (tc', r) \/ tc' = tc /\ is_ok r = true).
  { destruct (tokens tc !! String_ addr); [|by left]. destruct (time_sub _ _ <=? _); [right; by injection H as <- <-|by left]. }
  destruct Hf as [Hf|[-> _]]; [|done]. clear H. unfold fresh in Hf. destruct rnd as [v|]; [|by injection Hf as <- <-].
  injection Hf as <- <-. split_and!; [|intros k e Hk|done].
  - cbn [ttl set_tokens]. destruct (_ <=? _); [apply evictOldestLocked_size|done].
  - cbn [tokens set_tokens]. rewrite lookup_insert_ne by done. destruct (_ <=? _); [|done].
    destruct (decide (tokens tc = ∅)) as [He|Hne]; [unfold evictOldestLocked; rewrite He, go_range_empty; cbn; by rewrite He|].
    destruct (evictOldestLocked_oldest tc Hne) as (k0 & e0 & _ & _ & ->). cbn [tokens set_tokens]. by intros [_ ?]%lookup_delete_Some.
Qed.

Lemma ConsumeToken_entries tc tc' v addr now ok :
  ConsumeToken tc v (Some addr) now = (tc', ok) ->
  ttl tc' = ttl tc /\ tokens tc' ⊆ tokens tc
  /\ (ok = true -> tokens tc' = delete (String_ addr) (tokens tc)
      /\ exists e, tokens tc !! String_ addr = Some e /\ Value e = v /\ time_sub now (CreatedAt e) <= ttl tc).
Proof.
  unfold ConsumeToken. destruct (negb (zlen v =? TokenSize)); [by intros [= <- <-]|].
  destruct (tokens tc !! String_ addr) as [e|]; [|by intros [= <- <-]].
  destruct (ttl tc <? _) eqn:Et; bool_props; [intros [= <- <-]; split_and!; [done|apply delete_subseteq|done]|].
  destruct (bool_decide (Value e = v)) eqn:Ev; cbn [negb]; intros [= <- <-]; [|done]. apply bool_decide_eq_true in Ev.
  split_and!; [done|apply delete_subseteq|]. intros _. split; [done|]. by exists e.
Qed.

Lemma Cleanup_entries tc now : ttl (Cleanup tc now).1 = ttl tc /\ tokens (Cleanup tc now).1 ⊆ tokens tc.
Proof. unfold Cleanup. rewrite delete_where_range. split; [done|]. apply map_filter_subseteq. Qed.

(** a token issued to an address is accepted for that address exactly until
    its time-to-live has passed since its creation, which is now or, for a token
    already in the cache, a time that is not yet expired; and until then every
    further request from the address returns the same token without touching
    the cache. *)
Theorem GenerateToken_valid (tc tc' : TokenCache) (addr : UDPAddr) (rnd : option bytes)
    (now now' : Z) (v : bytes) :
  GenerateToken tc (Some addr) rnd now now' = (tc', Ok v) -> zlen v = TokenSize ->
  exists created, (created = now' \/ time_sub now created <= ttl tc) /\
  forall later,
    ValidateToken tc' v (Some addr) later = (time_sub later created <=? ttl tc)
    /\ (time_sub later created <= ttl tc -> forall rnd2 now2,
         GenerateToken tc' (Some addr) rnd2 later now2 = (tc', Ok v)).
Proof.
  intros (Httl & t & Ht & <- & Hc)%GenerateToken_entry Hl.
  exists (CreatedAt t). split; [done|]. intros later. rewrite <- Httl. split.
  - apply eq_true_iff_eq. rewrite ValidateToken_true, Z.leb_le, Ht. naive_solver.
  - intros Hle rnd2 now2. unfold GenerateToken. rewrite Ht.
    by rewrite (proj2 (Z.leb_le _ _) Hle).
Qed.

(** [ConsumeToken] answers what [ValidateToken] answers; a consumed token,
    and any other token for that address, is then refused at every time until a
    new one is generated; and no other address is affected. *)
Theorem ConsumeToken_single_use (tc : TokenCache) (v : bytes) (addr : UDPAddr) (now : Z) :
  let r := ConsumeToken tc v (Some addr) now in
  r.2 = ValidateToken tc v (Some addr) now
  /\ (r.2 = true -> forall v' now', ValidateToken r.1 v' (Some addr) now' = false)
  /\ (forall addr2 v' now', String_ addr2 <> String_ addr ->
       ValidateToken r.1 v' (Some addr2) now' = ValidateToken tc v' (Some addr2) now').
Proof.
  unfold ConsumeToken, ValidateToken. destruct (negb (zlen v =? TokenSize)); [done|].
  destruct (tokens tc !! String_ addr) as [t|] eqn:Et; [|done].
  assert (Hne : forall addr2, String_ addr2 <> String_ addr ->
    delete (String_ addr) (tokens tc) !! String_ addr2 = tokens tc !! String_ addr2).
  { intros addr2 Hd. by rewrite lookup_delete_ne. }
  destruct (ttl tc <? _); [|destruct (bool_decide _) eqn:Eb]; simpl; split_and!; try done.
  - intros addr2 v' now' Hd. by rewrite Hne.
  - intros _ v' now'. rewrite lookup_delete_eq. by destruct (negb _).
  - intros addr2 v' now' Hd. by rewrite Hne.
Qed.

(** [Cleanup] removes exactly the expired tokens and returns how many they
    were, and no later validation can tell that it ran. *)
Theorem Cleanup_spec (tc : TokenCache) (now : Z) :
  let r := Cleanup tc now in
  tokens r.1 = filter (fun kv => time_sub now (CreatedAt kv.2) <= ttl tc) (tokens tc)
  /\ r.2 = Size tc - Size r.1
  /\ (forall v addr later, now <= later ->
       ValidateToken r.1 v addr later = ValidateToken tc v addr later).
Proof.
  unfold Cleanup, Size. rewrite delete_where_range. simpl.
  assert (Hf : filter (fun kv : string * TokenEntry => (ttl tc <? time_sub now (CreatedAt kv.2)) = false)
      (tokens tc) = filter (fun kv => time_sub now (CreatedAt kv.2) <= ttl tc) (tokens tc)).
  { apply map_filter_ext. intros k t _. simpl. apply Z.ltb_ge. }
  rewrite Hf. split_and!; [done|lia|].
  intros v [addr|] later Hlater; [|done].
  apply eq_true_iff_eq. rewrite !ValidateToken_true. simpl. apply and_iff_compat_l.
  split; intros (t & Ht & Hn & Hv); exists t; (split_and!; [|done..]).
  - by apply map_lookup_filter_Some in Ht as [Ht _].
  - apply map_lookup_filter_Some. simpl. split; [done|]. unfold time_sub in *. lia.
Qed.

End TokenCache.

(** ** Witnesses

    Addresses are their own strings. *)

Definition demo_range : GoRange string (@TokenEntry string) := range_map_to_list _ _.

Definition demo_cache : @TokenCache string :=
  (GenerateToken (R := demo_range) id (NewTokenCacheWithMaxSize 0 1) (Some "a"%string)
     (Some (be_encode 8 5)) 10 10).1.

Lemma token_cache_bounded_witness :
  Size (GenerateToken (R := demo_range) id demo_cache (Some "b"%string)
          (Some (be_encode 8 6)) 11 11).1 <= 1
  /\ maxSize (GenerateToken (R := demo_range) id demo_cache (Some "b"%string)
          (Some (be_encode 8 6)) 11 11).1 = 1.
Proof.
  apply (token_cache_bounded (R := demo_range) id 0 1).
  - lia.
  - eapply rtc_l; [|eapply rtc_l; [|apply rtc_refl]]; apply step_generate.
Defined.

Lemma GenerateToken_valid_witness :
  exists created, (created = 10 \/ time_sub 10 created <= ttl demo_cache) /\
  forall later,
    ValidateToken id demo_cache (be_encode 8 5) (Some "a"%string) later
      = (time_sub later created <=? ttl demo_cache)
    /\ (time_sub later created <= ttl demo_cache -> forall rnd2 now2,
         GenerateToken (R := demo_range) id demo_cache (Some "a"%string) rnd2 later now2
         = (demo_cache, Ok (be_encode 8 5))).
Proof.
  apply (GenerateToken_valid (R := demo_range) id (NewTokenCacheWithMaxSize 0 1) demo_cache
           "a"%string (Some (be_encode 8 5)) 10 10 (be_encode 8 5)); reflexivity.
Defined.
