(* ===== verification/KeyRotation.v ===== *)
(** * Rotation of static and introduction keys

    Models [ssu2/handshake/key_rotation.go] and
    [ssu2/handshake/key_rotation_state.go]. Keys are in a heap, since the goroutine
    that erases a retired key holds a pointer to it. A goroutine that waits for
    the end of the grace period or for the stop channel is an entry of [timers];
    it runs as an operation of its own. Channels are numbered. Clock readings and
    the bytes of the random source are arguments ([None] is its failure). *)

From Stdlib Require Import ZArith Lia.
From Stdlib Require Import Strings.Byte Sorting.Sorted.
From stdpp Require Import base numbers list gmap.
From S2P Require Import Prelude.

#[local] Open Scope Z_scope.

Definition Hour : Z := 3600 * Second.
Definition PublishedKeyMinAge : Z := 30 * 24 * Hour.
Definition UnpublishedKeyMinAge : Z := 2 * Hour.
Definition KeyGracePeriod : Z := 30 * Second.
Definition StaticKeySize : nat := 32.
Definition IntroKeySize : nat := 32.

(** ** Data *)

Inductive KeyState :=
| KeyStateActive
| KeyStatePendingRotation
| KeyStateRotating
| KeyStateRetired.

#[global] Instance KeyState_eq_dec : EqDecision KeyState.
Proof. solve_decision. Defined.

Record ManagedKey := mkKey {
  Key : bytes;
  CreatedAt : Z;
  State : KeyState;
  IsPublished : bool;
  RotatedAt : Z;               (* 0 is the zero time *)
  Successor : option positive;
}.

#[global] Instance ManagedKey_inhabited : Inhabited ManagedKey :=
  populate (mkKey [] 0 KeyStateActive false 0 None).

(** Which of the two keys. *)
Inductive slot := SlotStatic | SlotIntro.

#[global] Instance slot_eq_dec : EqDecision slot.
Proof. solve_decision. Defined.

Inductive KeyError :=
| EStaticKeySize (n : nat)
| EIntroKeySize (n : nat)
| ECannotRotateYet (remaining : Z)
| EKeyCannotRotate (s : slot)
| EKeyGeneration.

Record KeyRotationManager := mkKRM {
  keys : gmap positive ManagedKey;
  nextKey : positive;
  current : slot -> positive;              (* staticKey, introKey *)
  previous : slot -> option positive;      (* previousStaticKey, previousIntroKey *)
  onRotation : bool;                       (* whether the callback is set *)
  called : list (slot * positive * positive); (* its calls: old and new key *)
  stopCh : nat;
  nextCh : nat;
  closed : gset nat;
  timers : list (positive * Z * nat);      (* key, end of its grace period, channel *)
  running : bool;
}.

Definition update_slot {A} (f : slot -> A) (s : slot) (a : A) : slot -> A :=
  fun t => if decide (t = s) then a else f t.

Definition set_keys (m : KeyRotationManager) (k : gmap positive ManagedKey) : KeyRotationManager :=
  mkKRM k (nextKey m) (current m) (previous m) (onRotation m) (called m) (stopCh m) (nextCh m) (closed m)
    (timers m) (running m).

(** [key.f = ...] through a pointer. *)
Definition modify (m : KeyRotationManager) (p : positive) (f : ManagedKey -> ManagedKey) : KeyRotationManager :=
  set_keys m (alter f p (keys m)).

Definition current_key (m : KeyRotationManager) (s : slot) : ManagedKey := keys m !!! current m s.

(** ** Keys *)

Definition Age (k : ManagedKey) (now : Z) : Z := time_sub now (CreatedAt k).

Definition MinAge (k : ManagedKey) : Z := if IsPublished k then PublishedKeyMinAge else UnpublishedKeyMinAge.

Definition CanRotate (k : ManagedKey) (now : Z) : bool :=
  bool_decide (State k = KeyStateActive) && (MinAge k <=? Age k now).

Definition TimeUntilRotation (k : ManagedKey) (now : Z) : Z :=
  let remaining := MinAge k - Age k now in
  if remaining <? 0 then 0 else remaining.

Definition set_state (st : KeyState) (k : ManagedKey) : ManagedKey :=
  mkKey (Key k) (CreatedAt k) st (IsPublished k) (RotatedAt k) (Successor k).

Definition set_published (b : bool) (k : ManagedKey) : ManagedKey :=
  mkKey (Key k) (CreatedAt k) (State k) b (RotatedAt k) (Successor k).

Definition retire (now : Z) (next : positive) (k : ManagedKey) : ManagedKey :=
  mkKey (Key k) (CreatedAt k) KeyStateRetired (IsPublished k) now (Some next).

(** [securemem.SecureZero] on the key. *)
Definition zero_key (k : ManagedKey) : ManagedKey :=
  mkKey (replicate (length (Key k)) x00) (CreatedAt k) (State k) (IsPublished k) (RotatedAt k) (Successor k).

(** ** Operations *)

Definition NewKeyRotationManager (staticKey introKey : bytes) (isPublished : bool) (now : Z)
    : result KeyError KeyRotationManager :=
  if decide (length staticKey <> StaticKeySize) then Err (EStaticKeySize (length staticKey))
  else if decide (length introKey <> IntroKeySize) then Err (EIntroKeySize (length introKey))
  else Ok (mkKRM (<[1%positive := mkKey staticKey now KeyStateActive isPublished 0 None]>
                  {[2%positive := mkKey introKey now KeyStateActive isPublished 0 None]})
             3 (fun s => match s with SlotStatic => 1%positive | SlotIntro => 2%positive end) (fun _ => None)
             false [] 0 1 ∅ [] false).

Definition NewKeyRotationManagerWithAge (staticKey introKey : bytes) (keyAge : Z) (isPublished : bool) (now : Z)
    : result KeyError KeyRotationManager :=
  NewKeyRotationManager staticKey introKey isPublished (now - keyAge).

Definition SetRotationCallback (m : KeyRotationManager) (cb : bool) : KeyRotationManager :=
  mkKRM (keys m) (nextKey m) (current m) (previous m) cb (called m) (stopCh m) (nextCh m) (closed m)
    (timers m) (running m).

(** [GetStaticKey], [GetIntroKey]. *)
Definition GetKey (m : KeyRotationManager) (s : slot) : bytes := Key (current_key m s).

Definition getPreviousKey (m : KeyRotationManager) (mk : option positive) (now : Z) : option bytes :=
  match mk with
  | None => None
  | Some p =>
      let k := keys m !!! p in
      if RotatedAt k =? 0 then None
      else if KeyGracePeriod <? time_sub now (RotatedAt k) then None
      else Some (Key k)
  end.

(** [GetPreviousStaticKey], [GetPreviousIntroKey]. *)
Definition GetPreviousKey (m : KeyRotationManager) (s : slot) (now : Z) : option bytes :=
  getPreviousKey m (previous m s) now.

Definition SetPublished (m : KeyRotationManager) (isPublished : bool) : KeyRotationManager :=
  modify (modify m (current m SlotStatic) (set_published isPublished)) (current m SlotIntro)
    (set_published isPublished).

Definition checkRotationAllowed (k : ManagedKey) (now : Z) : option KeyError :=
  if CanRotate k now then None else Some (ECannotRotateYet (TimeUntilRotation k now)).

(** The keys after a rotation: the new key, the old one retired, the one before
    it erased. *)
Definition rotated_keys (m : KeyRotationManager) (s : slot) (newKey : bytes) (now : Z) : gmap positive ManagedKey :=
  let old := current m s in
  let new := nextKey m in
  let ks := <[new := mkKey newKey now KeyStateActive (IsPublished (keys m !!! old)) 0 None]>
              (alter (retire now new) old (keys m)) in
  match previous m s with Some q => alter zero_key q ks | None => ks end.

Definition rotateKeyLocked (m : KeyRotationManager) (s : slot) (rnd : option bytes) (now : Z)
    : KeyRotationManager * result KeyError bytes :=
  match rnd with
  | None => (m, Err EKeyGeneration)
  | Some newKey =>
      let old := current m s in
      let new := nextKey m in
      (mkKRM (rotated_keys m s newKey now) (Pos.succ new) (update_slot (current m) s new) (update_slot (previous m) s (Some old))
         (onRotation m) (if onRotation m then called m ++ [(s, old, new)] else called m)
         (stopCh m) (nextCh m) (closed m) (timers m ++ [(old, now + KeyGracePeriod, stopCh m)]) (running m),
       Ok newKey)
  end.

(** [RotateStaticKey], [RotateIntroKey]. *)
Definition RotateKey (m : KeyRotationManager) (s : slot) (rnd : option bytes) (now : Z)
    : KeyRotationManager * result KeyError bytes :=
  match checkRotationAllowed (current_key m s) now with
  | Some e => (m, Err e)
  | None => rotateKeyLocked m s rnd now
  end.

(** [ForceRotateStaticKey], [ForceRotateIntroKey]. *)
Definition ForceRotateKey (m : KeyRotationManager) (s : slot) (rnd : option bytes) (now : Z)
    : KeyRotationManager * result KeyError bytes :=
  rotateKeyLocked m s rnd now.

Definition RotateAllKeys (m : KeyRotationManager) (rnd1 rnd2 : option bytes) (now : Z)
    : KeyRotationManager * result KeyError (bytes * bytes) :=
  if negb (CanRotate (current_key m SlotStatic) now) then (m, Err (EKeyCannotRotate SlotStatic))
  else if negb (CanRotate (current_key m SlotIntro) now) then (m, Err (EKeyCannotRotate SlotIntro))
  else
    match rotateKeyLocked m SlotStatic rnd1 now with
    | (m, Err e) => (m, Err e)
    | (m, Ok staticKey) =>
        match rotateKeyLocked m SlotIntro rnd2 now with
        | (m, Err e) => (m, Err e)
        | (m, Ok introKey) => (m, Ok (staticKey, introKey))
        end
    end.

Definition Start (m : KeyRotationManager) : KeyRotationManager :=
  if running m then m
  else mkKRM (keys m) (nextKey m) (current m) (previous m) (onRotation m) (called m) (nextCh m) (S (nextCh m))
         (closed m) (timers m) true.

Definition Stop (m : KeyRotationManager) : KeyRotationManager :=
  if running m then
    mkKRM (keys m) (nextKey m) (current m) (previous m) (onRotation m) (called m) (stopCh m) (nextCh m)
      ({[stopCh m]} ∪ closed m) (timers m) false
  else m.

Definition check_key (m : KeyRotationManager) (s : slot) (now : Z) : KeyRotationManager :=
  let k := current_key m s in
  if bool_decide (State k = KeyStateActive) && CanRotate k now
  then modify m (current m s) (set_state KeyStatePendingRotation) else m.

Definition checkRotation (m : KeyRotationManager) (now : Z) : KeyRotationManager :=
  check_key (check_key m SlotStatic now) SlotIntro now.

(** The goroutine of the [i]th timer, when its timer or its channel lets it run. *)
Definition timer_fires (m : KeyRotationManager) (i : nat) (now : Z) : KeyRotationManager :=
  match timers m !! i with
  | None => m
  | Some (p, deadline, ch) =>
      if decide (deadline <= now \/ ch ∈ closed m) then
        let m := modify m p zero_key in
        mkKRM (keys m) (nextKey m) (current m) (previous m) (onRotation m) (called m) (stopCh m) (nextCh m)
          (closed m) (take i (timers m) ++ drop (S i) (timers m)) (running m)
      else m
  end.

(** ** Runs *)

Inductive krop :=
| OpRotate (s : slot) (rnd : option bytes)
| OpForce (s : slot) (rnd : option bytes)
| OpRotateAll (rnd1 rnd2 : option bytes)
| OpPublish (b : bool)
| OpCallback (b : bool)
| OpCheck                      (* a tick of runRotationChecker *)
| OpStart
| OpStop
| OpTimer (i : nat).

Definition krm_op (m : KeyRotationManager) (o : krop) (now : Z) : KeyRotationManager :=
  match o with
  | OpRotate s rnd => (RotateKey m s rnd now).1
  | OpForce s rnd => (ForceRotateKey m s rnd now).1
  | OpRotateAll rnd1 rnd2 => (RotateAllKeys m rnd1 rnd2 now).1
  | OpPublish b => SetPublished m b
  | OpCallback b => SetRotationCallback m b
  | OpCheck => checkRotation m now
  | OpStart => Start m
  | OpStop => Stop m
  | OpTimer i => timer_fires m i now
  end.

Definition krm_run (m : KeyRotationManager) (ops : list (krop * Z)) : KeyRotationManager :=
  foldl (fun m o => krm_op m o.1 o.2) m ops.

Definition is_rotation (o : krop) : bool :=
  match o with OpRotate _ _ | OpForce _ _ | OpRotateAll _ _ => true | _ => false end.

(** ** Invariant

    The keys in use are two, not retired; the timers and the previous keys are
    retired. *)

Definition retired (m : KeyRotationManager) (p : positive) : Prop :=
  exists k, keys m !! p = Some k /\ State k = KeyStateRetired.

Record krm_inv (m : KeyRotationManager) : Prop := {
  inv_next : forall p k, keys m !! p = Some k -> (p < nextKey m)%positive;
  inv_current : forall s, exists k, keys m !! current m s = Some k /\ State k <> KeyStateRetired;
  inv_distinct : current m SlotStatic <> current m SlotIntro;
  inv_timers : Forall (fun t => retired m t.1.1) (timers m);
  inv_previous : forall s p, previous m s = Some p -> retired m p;
}.

(** A change of one key that keeps its state retired or not retired. *)
Lemma modify_inv m p f :
  (forall k, State (f k) = KeyStateRetired <-> State k = KeyStateRetired) -> krm_inv m -> krm_inv (modify m p f).
Proof.
  intros Hf []. assert (Hret : forall q, retired m q -> retired (modify m p f) q).
  { intros q (k & Hk & Hr). unfold retired, modify, set_keys. cbn. destruct (decide (q = p)) as [->|].
    - rewrite lookup_alter_eq, Hk. exists (f k). split; [done|by apply Hf].
    - rewrite lookup_alter_ne by done. eauto. }
  split; cbn [modify set_keys keys nextKey current previous timers]; try done.
  - intros q k Hk. destruct (decide (q = p)) as [->|Hne].
    + rewrite lookup_alter_eq in Hk. apply fmap_Some in Hk as (k0 & Hk0 & _). eauto.
    + rewrite lookup_alter_ne in Hk by done. eauto.
  - intros s. destruct (inv_current0 s) as (k & Hk & Hr). destruct (decide (current m s = p)) as [Heq|].
    + rewrite Heq in *. rewrite lookup_alter_eq, Hk. exists (f k). split; [done|]. by rewrite Hf.
    + rewrite lookup_alter_ne by done. eauto.
  - eapply Forall_impl; [done|]. intros t Ht. by apply Hret.
  - intros s q Hq. by eapply Hret, inv_previous0.
Qed.

Lemma current_key_lookup m s k : keys m !! current m s = Some k -> current_key m s = k.
Proof. intros Hk. unfold current_key. by rewrite lookup_total_alt, Hk. Qed.

Lemma modify_key m p f :
  (forall k, Key (f k) = Key k) -> forall s, GetKey (modify m p f) s = GetKey m s.
Proof.
  intros Hf s. unfold GetKey, current_key, modify, set_keys. cbn. rewrite !lookup_total_alt.
  destruct (decide (current m s = p)) as [->|]; [|by rewrite lookup_alter_ne].
  rewrite lookup_alter_eq. destruct (keys m !! p); [apply Hf|done].
Qed.

(** An operation other than a rotation. *)
Lemma quiet_inv m o now : krm_inv m -> is_rotation o = false -> krm_inv (krm_op m o now).
Proof.
  intros Hi Ho. destruct o as [| | |b|b| | | |i]; try discriminate; cbn [krm_op].
  - unfold SetPublished. by repeat apply modify_inv.
  - destruct Hi. by split.
  - assert (Hck : forall m s, krm_inv m -> krm_inv (check_key m s now)).
    { clear. intros m s Hi. unfold check_key. destruct (bool_decide _) eqn:Hb; [|done]. destruct (CanRotate _ _); [|done]. cbn.
      destruct (inv_current m Hi s) as (k & Hk & Hr).
      pose proof (current_key_lookup m s k Hk) as Hck. destruct Hi. split; cbn; try done.
      - intros q k' Hk'. destruct (decide (q = current m s)) as [->|]; [eauto|]. rewrite lookup_alter_ne in Hk' by done. eauto.
      - intros s'. destruct (decide (current m s' = current m s)) as [->|].
        + rewrite lookup_alter_eq, Hk. eexists. split; [done|discriminate].
        + rewrite lookup_alter_ne by done. apply inv_current0.
      - eapply Forall_impl; [done|]. intros t (k' & Hk' & Hr'). exists k'. split; [|done].
        cbn. rewrite lookup_alter_ne; [done|]. congruence.
      - intros s' q Hq. destruct (inv_previous0 s' q Hq) as (k' & Hk' & Hr'). exists k'. split; [|done].
        cbn. rewrite lookup_alter_ne; [done|]. congruence. }
    unfold checkRotation. auto.
  - unfold Start. destruct (running m); [done|]. destruct Hi. by split.
  - unfold Stop. destruct (running m); [|done]. destruct Hi. by split.
  - unfold timer_fires. destruct (timers m !! i) as [[[p d] ch]|]; [|done]. case_decide; [|done].
    apply (modify_inv m p zero_key) in Hi; [|done]. destruct Hi. split; cbn in *; try done.
    apply Forall_app. split; [by apply Forall_take|by apply Forall_drop].
Qed.

(** *** Rotation *)

Section Rotated.
Context (m : KeyRotationManager) (Hi : krm_inv m) (s : slot) (newKey : bytes) (now : Z).

Lemma not_next p k : keys m !! p = Some k -> p <> nextKey m.
Proof. intros Hp ->. apply (inv_next m Hi) in Hp. lia. Qed.

(** A key that is neither new, nor current in the slot, nor erased. *)
Lemma rotated_frame p :
  p <> nextKey m -> p <> current m s -> previous m s <> Some p -> rotated_keys m s newKey now !! p = keys m !! p.
Proof.
  intros Hn Hc Hp. unfold rotated_keys. destruct (previous m s) as [q|].
  - rewrite lookup_alter_ne by congruence. rewrite lookup_insert_ne, lookup_alter_ne by done. done.
  - rewrite lookup_insert_ne, lookup_alter_ne by done. done.
Qed.

Lemma previous_not_current q s' : previous m s = Some q -> q <> current m s' /\ q <> nextKey m.
Proof.
  intros Hq. destruct (inv_previous m Hi s q Hq) as (k & Hk & Hr). split; [|by eapply not_next].
  intros ->. destruct (inv_current m Hi s') as (k' & Hk' & Hn). congruence.
Qed.

Lemma rotated_new :
  rotated_keys m s newKey now !! nextKey m
  = Some (mkKey newKey now KeyStateActive (IsPublished (keys m !!! current m s)) 0 None).
Proof.
  unfold rotated_keys. destruct (previous m s) as [q|] eqn:Hq; [|apply lookup_insert_eq].
  destruct (previous_not_current q s Hq). rewrite lookup_alter_ne by done. apply lookup_insert_eq.
Qed.

Lemma rotated_old :
  exists old, keys m !! current m s = Some old
    /\ rotated_keys m s newKey now !! current m s = Some (retire now (nextKey m) old).
Proof.
  destruct (inv_current m Hi s) as (old & Hold & _). exists old. split; [done|]. pose proof (not_next _ _ Hold).
  unfold rotated_keys. destruct (previous m s) as [q|] eqn:Hq;
    [destruct (previous_not_current q s Hq); rewrite lookup_alter_ne by done|];
    by rewrite lookup_insert_ne, lookup_alter_eq, Hold.
Qed.

Lemma rotated_other s' : s' <> s -> rotated_keys m s newKey now !! current m s' = keys m !! current m s'.
Proof.
  intros Hs. destruct (inv_current m Hi s') as (k & Hk & _). apply rotated_frame.
  - by eapply not_next.
  - pose proof (inv_distinct m Hi). destruct s, s'; congruence.
  - intros Hq. by destruct (previous_not_current _ s' Hq).
Qed.

Lemma rotated_retired p :
  retired m p -> exists k, rotated_keys m s newKey now !! p = Some k /\ State k = KeyStateRetired.
Proof.
  intros (k & Hk & Hr). assert (Hc : p <> current m s).
  { intros ->. destruct (inv_current m Hi s) as (k' & Hk' & Hn). congruence. }
  pose proof (not_next _ _ Hk) as Hn. destruct (decide (previous m s = Some p)) as [Hq|Hq].
  - unfold rotated_keys. rewrite Hq, lookup_alter_eq, lookup_insert_ne, lookup_alter_ne, Hk by done. by eexists.
  - rewrite rotated_frame by done. eauto.
Qed.

Lemma rotated_next p k : rotated_keys m s newKey now !! p = Some k -> (p < Pos.succ (nextKey m))%positive.
Proof.
  intros Hp. destruct (decide (p = nextKey m)) as [->|Hn]; [lia|].
  assert (is_Some (keys m !! p)) as [k' Hk'%(inv_next m Hi)]; [|lia].
  assert (Hs : is_Some (rotated_keys m s newKey now !! p)) by eauto. unfold rotated_keys in Hs.
  destruct (previous m s); rewrite ?lookup_alter_is_Some, lookup_insert_ne, lookup_alter_is_Some in Hs by done; done.
Qed.

Lemma rotate_inv m' k : rotateKeyLocked m s (Some newKey) now = (m', Ok k) -> krm_inv m'.
Proof.
  intros [= <- <-]. split; cbn.
  - apply rotated_next.
  - intros s'. unfold update_slot. case_decide as Hs; [rewrite rotated_new; eexists; split; [done|discriminate]|].
    rewrite rotated_other by done. apply (inv_current m Hi).
  - pose proof (inv_distinct m Hi). destruct (inv_current m Hi SlotStatic) as (k1 & Hk1 & _).
    destruct (inv_current m Hi SlotIntro) as (k2 & Hk2 & _). apply not_next in Hk1, Hk2.
    unfold update_slot. destruct s; repeat case_decide; congruence.
  - apply Forall_app. split; [eapply Forall_impl; [apply (inv_timers m Hi)|]; intros t; apply rotated_retired|].
    repeat constructor. destruct rotated_old as (old & _ & Ho). unfold retired. cbn. rewrite Ho. by eexists.
  - intros s' p. unfold update_slot. case_decide as Hs.
    + intros [= <-]. destruct rotated_old as (old & _ & Ho). unfold retired. cbn. rewrite Ho. by eexists.
    + intros Hp. apply rotated_retired. by eapply (inv_previous m Hi).
Qed.

End Rotated.

(** What a rotation does. *)
Lemma rotate_spec m s rnd now m' k :
  krm_inv m -> rotateKeyLocked m s rnd now = (m', Ok k) ->
  krm_inv m' /\ GetKey m' s = k /\ CreatedAt (current_key m' s) = now
  /\ (forall s', s' <> s -> current_key m' s' = current_key m s')
  /\ previous m' s = Some (current m s)
  /\ (exists old, keys m' !! current m s = Some old /\ Key old = GetKey m s /\ RotatedAt old = now)
  /\ timers m' = timers m ++ [(current m s, now + KeyGracePeriod, stopCh m)]
  /\ closed m' = closed m.
Proof.
  intros Hi Hr. destruct rnd as [newKey|]; [|discriminate].
  pose proof (rotate_inv m Hi s newKey now m' k Hr) as Hi'. injection Hr as <- <-.
  split; [exact Hi'|]. pose proof (rotated_new m Hi s newKey now) as Hn.
  unfold GetKey, current_key. cbn. unfold update_slot. rewrite !decide_True, lookup_total_alt, Hn by done.
  split_and!; try done.
  - intros s' Hs. rewrite decide_False by done. by rewrite !lookup_total_alt, rotated_other.
  - destruct (rotated_old m Hi s newKey now) as (old & Hold & Ho). rewrite Ho. eexists. split; [done|]. cbn.
    by rewrite lookup_total_alt, Hold.
Qed.

(** *** Other operations *)

Lemma modify_lookup m p f q :
  keys (modify m p f) !! q = if decide (q = p) then f <$> keys m !! q else keys m !! q.
Proof. cbn. case_decide as Hq; [subst; apply lookup_alter_eq|by apply lookup_alter_ne]. Qed.

(** An operation other than a rotation changes the keys by a function that keeps
    the times, and the bytes except of keys whose timer runs. *)
Lemma quiet_frame m o now :
  is_rotation o = false ->
  current (krm_op m o now) = current m /\ previous (krm_op m o now) = previous m
  /\ forall p k, keys m !! p = Some k -> exists k', keys (krm_op m o now) !! p = Some k'
       /\ CreatedAt k' = CreatedAt k /\ RotatedAt k' = RotatedAt k
       /\ (Key k' = Key k \/ exists d c, (p, d, c) ∈ timers m /\ (d <= now \/ c ∈ closed m)).
Proof.
  intros Ho. assert (Hmod : forall m p f, (forall k, CreatedAt (f k) = CreatedAt k /\ RotatedAt (f k) = RotatedAt k) ->
    forall q k, keys m !! q = Some k -> exists k', keys (modify m p f) !! q = Some k' /\ CreatedAt k' = CreatedAt k
      /\ RotatedAt k' = RotatedAt k /\ (Key k' = Key k \/ q = p /\ k' = f k)).
  { clear. intros m p f Hf q k Hk. rewrite modify_lookup. destruct (Hf k).
    case_decide; [rewrite Hk; exists (f k); split_and!; auto|exists k; auto]. }
  destruct o as [| | |b|b| | | |i]; try discriminate; cbn [krm_op].
  - split; [done|]. split; [done|]. intros p k Hk. unfold SetPublished.
    destruct (Hmod m (current m SlotStatic) (set_published b) ltac:(done) p k Hk) as (k1 & Hk1 & ? & ? & Hb1).
    destruct (Hmod (modify m (current m SlotStatic) (set_published b)) (current m SlotIntro) (set_published b)
      ltac:(done) p k1 Hk1) as (k2 & Hk2 & ? & ? & Hb2).
    exists k2. split_and!; [done|congruence|congruence|]. left. destruct Hb1 as [?|[_ ->]], Hb2 as [?|[_ ->]]; cbn in *; congruence.
  - split; [done|]. split; [done|]. intros p k Hk. by exists k; auto.
  - assert (Hck : forall m s, current (check_key m s now) = current m /\ previous (check_key m s now) = previous m
      /\ forall p k, keys m !! p = Some k -> exists k', keys (check_key m s now) !! p = Some k'
           /\ CreatedAt k' = CreatedAt k /\ RotatedAt k' = RotatedAt k /\ Key k' = Key k).
    { clear -Hmod. intros m s. unfold check_key. destruct (_ && _); [|by split_and!; eauto].
      split; [done|]. split; [done|]. intros p k Hk.
      destruct (Hmod m (current m s) (set_state KeyStatePendingRotation) ltac:(done) p k Hk) as (k1 & ? & ? & ? & Hb).
      exists k1. split_and!; try done. by destruct Hb as [?|[_ ->]]. }
    unfold checkRotation. destruct (Hck m SlotStatic) as (C1 & P1 & K1).
    destruct (Hck (check_key m SlotStatic now) SlotIntro) as (C2 & P2 & K2).
    split; [congruence|]. split; [congruence|]. intros p k Hk. destruct (K1 p k Hk) as (k1 & Hk1 & ? & ? & ?).
    destruct (K2 p k1 Hk1) as (k2 & Hk2 & ? & ? & ?). exists k2. split_and!; [done|congruence|congruence|]. left. congruence.
  - unfold Start. destruct (running m); (split; [done|]; split; [done|]; intros p k Hk; by exists k; auto).
  - unfold Stop. destruct (running m); (split; [done|]; split; [done|]; intros p k Hk; by exists k; auto).
  - unfold timer_fires. destruct (timers m !! i) as [[[p d] ch]|] eqn:Ht;
      [|split; [done|]; split; [done|]; intros p k Hk; by exists k; auto].
    case_decide as Hd; [|split; [done|]; split; [done|]; intros q k Hk; by exists k; auto].
    split; [done|]. split; [done|]. intros q k Hk. destruct (Hmod m p zero_key ltac:(done) q k Hk) as (k1 & ? & ? & ? & Hb).
    exists k1. split_and!; try done. destruct Hb as [?|[-> _]]; [auto|]. right. exists d, ch.
    split; [by eapply list_elem_of_lookup_2|done].
Qed.

(** The keys in use are left alone. *)
Lemma quiet_current m o now s :
  krm_inv m -> is_rotation o = false ->
  GetKey (krm_op m o now) s = GetKey m s /\ CreatedAt (current_key (krm_op m o now) s) = CreatedAt (current_key m s).
Proof.
  intros Hi Ho. destruct (quiet_frame m o now Ho) as (Hc & _ & Hk).
  destruct (inv_current m Hi s) as (k & Hks & Hn). destruct (Hk _ _ Hks) as (k' & Hk' & Hcr & _ & Hb).
  assert (Hcur : current_key (krm_op m o now) s = k') by (apply current_key_lookup; by rewrite Hc).
  unfold GetKey. rewrite Hcur, (current_key_lookup m s k Hks). split; [|done].
  destruct Hb as [?|(d & c & Hin & _)]; [done|]. pose proof (inv_timers m Hi) as Ht. rewrite Forall_forall in Ht.
  destruct (Ht _ Hin) as (k2 & Hk2 & Hr). cbn in Hk2. congruence.
Qed.

Lemma rotate_op_inv m o now : krm_inv m -> krm_inv (krm_op m o now).
Proof.
  intros Hi. assert (Hrot : forall m s rnd, krm_inv m -> krm_inv (rotateKeyLocked m s rnd now).1).
  { clear. intros m s rnd Hi. destruct (rotateKeyLocked m s rnd now) as [m' [k|e]] eqn:Hr.
    - by destruct (rotate_spec _ _ _ _ _ _ Hi Hr).
    - unfold rotateKeyLocked in Hr. destruct rnd; [discriminate|]. by injection Hr as <-. }
  destruct (is_rotation o) eqn:Ho; [|by apply quiet_inv]. destruct o as [s rnd|s rnd|r1 r2|b|b| | | |i]; try discriminate; cbn.
  - unfold RotateKey. destruct (checkRotationAllowed _ _); [done|auto].
  - unfold ForceRotateKey. auto.
  - unfold RotateAllKeys. destruct (negb _); [done|]. destruct (negb _); [done|].
    pose proof (Hrot m SlotStatic r1 Hi) as H1. destruct (rotateKeyLocked m SlotStatic r1 now) as [m1 [k1|]]; [|done].
    pose proof (Hrot m1 SlotIntro r2 H1) as H2. by destruct (rotateKeyLocked m1 SlotIntro r2 now) as [m2 [k2|]].
Qed.

Lemma krm_run_inv m ops : krm_inv m -> krm_inv (krm_run m ops).
Proof. revert m. induction ops as [|o ops IH]; intros m Hi; [done|]. apply IH. by apply rotate_op_inv. Qed.

Lemma new_krm_inv sk ik pub now m : NewKeyRotationManager sk ik pub now = Ok m -> krm_inv m.
Proof.
  unfold NewKeyRotationManager. repeat case_decide; try discriminate. intros [= <-]. split; cbn.
  - intros p k Hp. apply lookup_insert_Some in Hp as [[<- _]|[_ Hp]]; [lia|].
    apply lookup_singleton_Some in Hp as [<- _]. lia.
  - intros []; cbn; [rewrite lookup_insert_eq|rewrite lookup_insert_ne, lookup_singleton_eq by done]; (eexists; split; [done|discriminate]).
  - done.
  - constructor.
  - done.
Qed.

Lemma quiet_run m ops :
  krm_inv m -> Forall (fun o => is_rotation o.1 = false) ops ->
  forall s, GetKey (krm_run m ops) s = GetKey m s /\ previous (krm_run m ops) = previous m.
Proof.
  revert m. induction ops as [|[o now] ops IH]; intros m Hi Hq s; [done|].
  inversion_clear Hq as [|? ? Ho Hq']. cbn in Ho. destruct (quiet_current m o now s Hi Ho) as [Hk _].
  destruct (quiet_frame m o now Ho) as (_ & Hp & _). cbn [krm_run foldl fst snd].
  destruct (IH (krm_op m o now)) with (s := s) as [H1 H2]; [by apply quiet_inv|done|]. unfold krm_run in *.
  split; congruence.
Qed.

(** The previous key [p] until its timer may run. *)
Definition in_grace (p : positive) (key : bytes) (t : Z) (c : nat) (m : KeyRotationManager) : Prop :=
  (exists k, keys m !! p = Some k /\ Key k = key /\ RotatedAt k = t)
  /\ (forall d c', (p, d, c') ∈ timers m -> d = t + KeyGracePeriod /\ c' = c) /\ c ∉ closed m.

Lemma grace_step p key t c m o now :
  is_rotation o = false -> o <> OpStop -> now < t + KeyGracePeriod -> in_grace p key t c m ->
  in_grace p key t c (krm_op m o now).
Proof.
  intros Ho Hs Hnow ((k & Hk & Hkey & Hrot) & Ht & Hc). destruct (quiet_frame m o now Ho) as (_ & _ & Hf).
  destruct (Hf p k Hk) as (k' & Hk' & _ & Hr' & Hb).
  split; [|split].
  - exists k'. split_and!; [done| |congruence]. destruct Hb as [Hb|(d & c' & Hin & Hd)]; [congruence|].
    destruct (Ht d c' Hin) as [-> ->]. destruct Hd; [lia|done].
  - intros d c' Hin. apply Ht. revert Hin. destruct o as [| | |b|b| | | |i]; try discriminate; cbn [krm_op]; try done.
    + unfold checkRotation, check_key. by repeat destruct (_ && _).
    + unfold Start. by destruct (running m).
    + unfold timer_fires. destruct (timers m !! i) as [[[q d'] ch]|]; [|done]. case_decide; [|done]. cbn.
      rewrite elem_of_app. intros [Hin|Hin]; [by eapply subseteq_take|by eapply subseteq_drop].
  - destruct o as [| | |b|b| | | |i]; try discriminate; cbn [krm_op]; try done.
    + unfold checkRotation, check_key. by repeat destruct (_ && _).
    + unfold Start. by destruct (running m).
    + unfold timer_fires. destruct (timers m !! i) as [[[q d'] ch]|]; [|done]. by case_decide.
Qed.

Lemma grace_run p key t c now ops m :
  now < t + KeyGracePeriod -> Forall (fun o => is_rotation o.1 = false /\ t <= o.2 <= now) ops -> OpStop ∉ ops.*1 ->
  in_grace p key t c m -> in_grace p key t c (krm_run m ops).
Proof.
  intros Hnow. revert m. induction ops as [|[o u] ops IH]; intros m Hops Hst Hg; [done|].
  inversion_clear Hops as [|? ? [Ho Hu] Hops']. cbn in *. apply not_elem_of_cons in Hst as [Hs1 Hs2].
  apply IH; [done|done|]. apply grace_step; [done|congruence|lia|done].
Qed.

(** The time of its rotation stays with a key. *)
Lemma rotated_at_run p k ops m :
  Forall (fun o => is_rotation o.1 = false) ops -> keys m !! p = Some k ->
  exists k', keys (krm_run m ops) !! p = Some k' /\ RotatedAt k' = RotatedAt k.
Proof.
  revert m k. induction ops as [|[o u] ops IH]; intros m k Hq Hk; [by exists k|].
  inversion_clear Hq as [|? ? Ho Hq']. destruct (quiet_frame m o u Ho) as (_ & _ & Hf).
  destruct (Hf p k Hk) as (k1 & Hk1 & _ & Hr & _). destruct (IH (krm_op m o u) k1 Hq' Hk1) as (k2 & Hk2 & Hr2).
  exists k2. split; [done|congruence].
Qed.

(** C38: rotation with a grace period. A rotation installs the key it returns. From
    then on, whatever timers, checks and changes of the published flag happen,
    the key in use stays and the other key is untouched. The replaced key is
    still returned until the grace period of 30 seconds ends, as long as the
    manager is not stopped, and never afterwards. *)
Theorem rotation_grace (sk ik : bytes) (pub : bool) (t0 t now : Z) (ops ops' : list (krop * Z))
    (m0 m1 : KeyRotationManager) (s : slot) (rnd : option bytes) (k : bytes) :
  NewKeyRotationManager sk ik pub t0 = Ok m0 ->
  let m := krm_run m0 ops in
  RotateKey m s rnd t = (m1, Ok k) \/ ForceRotateKey m s rnd t = (m1, Ok k) -> 0 < t <= now ->
  Forall (fun o => is_rotation o.1 = false /\ t <= o.2 <= now) ops' ->
  let m2 := krm_run m1 ops' in
  GetKey m2 s = k /\ (forall s', s' <> s -> GetKey m2 s' = GetKey m s')
  /\ (now < t + KeyGracePeriod -> stopCh m ∉ closed m -> OpStop ∉ ops'.*1 -> GetPreviousKey m2 s now = Some (GetKey m s))
  /\ (t + KeyGracePeriod < now -> GetPreviousKey m2 s now = None).
Proof.
  intros Hnew m Hrot Ht Hops. cbv zeta.
  assert (Hi : krm_inv m) by (apply krm_run_inv; by eapply new_krm_inv).
  assert (Hr : rotateKeyLocked m s rnd t = (m1, Ok k)).
  { destruct Hrot as [Hrot|Hrot]; [|done]. unfold RotateKey in Hrot. by destruct (checkRotationAllowed _ _). }
  clear Hrot. clearbody m. destruct (rotate_spec _ _ _ _ _ _ Hi Hr) as (Hi1 & Hk & _ & Hoth & Hp & (old & Ho & Hok & Hor) & Htm & Hcl).
  assert (Hq : Forall (fun o => is_rotation o.1 = false) ops') by (eapply Forall_impl; [exact Hops|]; by intros o [? _]).
  split_and!.
  - by rewrite (proj1 (quiet_run m1 ops' Hi1 Hq s)).
  - intros s' Hs. rewrite (proj1 (quiet_run m1 ops' Hi1 Hq s')). unfold GetKey. by rewrite Hoth.
  - intros Hnow Hch Hst. destruct (grace_run (current m s) (GetKey m s) t (stopCh m) now ops' m1)
      as ((k' & Hk' & Hkey & Hrt) & _ & _); [done|done|done| |].
    { split; [by exists old|]. rewrite Htm, Hcl. split; [|done]. intros d c' [Hin|Hin]%elem_of_app.
      - pose proof (inv_timers m Hi) as Hti. rewrite Forall_forall in Hti. destruct (Hti _ Hin) as (k2 & Hk2 & Hr2).
        destruct (inv_current m Hi s) as (k3 & Hk3 & Hn3). cbn in Hk2. congruence.
      - apply list_elem_of_singleton in Hin. by injection Hin as -> ->. }
    unfold GetPreviousKey. rewrite (proj2 (quiet_run m1 ops' Hi1 Hq s)), Hp. cbn. rewrite lookup_total_alt, Hk'. cbn. rewrite Hrt.
    destruct (Z.eqb_spec t 0); [lia|]. destruct (Z.ltb_spec KeyGracePeriod (time_sub now t)) as [Hlt|]; [|congruence].
    unfold time_sub, KeyGracePeriod, Second, minDuration, maxDuration in *. lia.
  - intros Hnow. destruct (rotated_at_run _ _ ops' m1 Hq Ho) as (k' & Hk' & Hrt).
    unfold GetPreviousKey. rewrite (proj2 (quiet_run m1 ops' Hi1 Hq s)), Hp. cbn. rewrite lookup_total_alt, Hk'. cbn. rewrite Hrt, Hor.
    destruct (Z.eqb_spec t 0); [done|]. destruct (Z.ltb_spec KeyGracePeriod (time_sub now t)) as [|Hge]; [done|].
    unfold time_sub, KeyGracePeriod, Second, minDuration, maxDuration in *. lia.
Qed.

(** *** Minimum age *)

(** The times at which the key of the slot was installed. *)
Fixpoint installed (m : KeyRotationManager) (s : slot) (ops : list (krop * Z)) : list Z :=
  match ops with
  | [] => []
  | (o, now) :: ops =>
      let m' := krm_op m o now in
      (if decide (current m' s = current m s) then [] else [now]) ++ installed m' s ops
  end.

(** The age of the current key is counted from its last installation. *)
Definition aged (now : Z) (m m' : KeyRotationManager) : Prop :=
  (nextKey m <= nextKey m')%positive /\
  forall s, (current m' s = current m s /\ CreatedAt (current_key m' s) = CreatedAt (current_key m s))
            \/ ((nextKey m <= current m' s)%positive /\ CreatedAt (current_key m' s) = now).

Lemma aged_refl now m : aged now m m.
Proof. split; [lia|]. auto. Qed.

Lemma aged_trans now m1 m2 m3 : aged now m1 m2 -> aged now m2 m3 -> aged now m1 m3.
Proof.
  intros [L1 A1] [L2 A2]. split; [lia|]. intros s.
  destruct (A1 s) as [[? ?]|[? ?]], (A2 s) as [[? ?]|[? ?]]; [left|right..]; (split; [congruence || lia|congruence]).
Qed.

Lemma rotate_aged m s rnd now : krm_inv m -> aged now m (rotateKeyLocked m s rnd now).1.
Proof.
  intros Hi. destruct (rotateKeyLocked m s rnd now) as [m' [k|e]] eqn:Hr.
  - destruct (rotate_spec _ _ _ _ _ _ Hi Hr) as (_ & _ & Hc & Hoth & _).
    destruct rnd as [newKey|]; [|discriminate]. injection Hr as <- <-. split; [cbn; lia|]. intros s'.
    destruct (decide (s' = s)) as [->|Hs]; [right|left].
    + split; [|exact Hc]. cbn. unfold update_slot. rewrite decide_True by done. lia.
    + split; [|by rewrite Hoth]. cbn. unfold update_slot. by rewrite decide_False.
  - unfold rotateKeyLocked in Hr. destruct rnd; [discriminate|]. injection Hr as <-. apply aged_refl.
Qed.

Lemma op_aged m o now : krm_inv m -> aged now m (krm_op m o now).
Proof.
  intros Hi. destruct (is_rotation o) eqn:Ho.
  - destruct o as [s rnd|s rnd|r1 r2|b|b| | | |i]; try discriminate; cbn.
    + unfold RotateKey. destruct (checkRotationAllowed _ _); [apply aged_refl|by apply rotate_aged].
    + by apply rotate_aged.
    + unfold RotateAllKeys. destruct (negb _); [apply aged_refl|]. destruct (negb _); [apply aged_refl|].
      pose proof (rotate_aged m SlotStatic r1 now Hi) as A1.
      pose proof (rotate_op_inv m (OpForce SlotStatic r1) now Hi) as Hi1. cbn in Hi1. unfold ForceRotateKey in Hi1.
      destruct (rotateKeyLocked m SlotStatic r1 now) as [m1 [k1|]]; [|done]. cbn in *.
      pose proof (rotate_aged m1 SlotIntro r2 now Hi1) as A2.
      destruct (rotateKeyLocked m1 SlotIntro r2 now) as [m2 [k2|]]; by eapply aged_trans.
  - destruct (quiet_frame m o now Ho) as (Hc & _). split.
    + destruct o as [| | |b|b| | | |i]; try discriminate; cbn; try lia.
      * unfold checkRotation, check_key. repeat destruct (_ && _); cbn; lia.
      * unfold Start. destruct (running m); cbn; lia.
      * unfold Stop. destruct (running m); cbn; lia.
      * unfold timer_fires. destruct (timers m !! i) as [[[q d'] ch]|]; [|lia]. case_decide; cbn; lia.
    + intros s. left. split; [by rewrite Hc|by apply quiet_current].
Qed.

Lemma installed_bound m s ops u :
  krm_inv m -> CreatedAt (current_key m s) <= u -> Sorted Z.le (u :: ops.*2) ->
  Forall (fun t => t <= CreatedAt (current_key (krm_run m ops) s)) (installed m s ops)
  /\ CreatedAt (current_key m s) <= CreatedAt (current_key (krm_run m ops) s).
Proof.
  intros Hi Hu Hs. apply Sorted_StronglySorted in Hs; [|intros ???; lia]. revert m u Hi Hu Hs.
  induction ops as [|[o now] ops IH]; intros m u Hi Hu Hs; [split; [constructor|done]|].
  apply StronglySorted_inv in Hs as [Hs Hall]. cbn in Hs, Hall. inversion_clear Hall as [|? ? Hun Hall'].
  destruct (op_aged m o now Hi) as [_ Ha]. cbn [krm_run foldl fst snd installed]. fold (krm_run (krm_op m o now) ops).
  assert (Hnow : CreatedAt (current_key m s) <= CreatedAt (current_key (krm_op m o now) s) <= now)
    by (destruct (Ha s) as [[_ ->]|[_ ->]]; lia).
  destruct (IH (krm_op m o now) now) as [Hf Hle]; [by apply rotate_op_inv|lia|done|]. split; [|lia].
  apply Forall_app. split; [|done]. case_decide as Hc; [constructor|]. repeat constructor.
  destruct (Ha s) as [[? _]|[_ Hcr]]; [done|]. lia.
Qed.

(** minimum age. A rotation that is not forced succeeds only if the key is old
    enough: at least two hours, and thirty days if it is published, after every
    installation of a key in the slot, including the first. *)
Theorem rotation_minimum_age (sk ik : bytes) (pub : bool) (t0 now : Z) (ops : list (krop * Z))
    (m0 m' : KeyRotationManager) (s : slot) (rnd : option bytes) (k : bytes) :
  NewKeyRotationManager sk ik pub t0 = Ok m0 -> Sorted Z.le (t0 :: ops.*2) ->
  let m := krm_run m0 ops in
  RotateKey m s rnd now = (m', Ok k) ->
  Forall (fun t => (if IsPublished (current_key m s) then 30 * 24 * Hour else 2 * Hour) <= now - t)
    (t0 :: installed m0 s ops).
Proof.
  intros Hnew Hsort m Hrot. pose proof (new_krm_inv _ _ _ _ _ Hnew) as Hi0.
  assert (Hc0 : CreatedAt (current_key m0 s) = t0).
  { unfold NewKeyRotationManager in Hnew. repeat case_decide; try discriminate. injection Hnew as <-. by destruct s. }
  destruct (installed_bound m0 s ops t0) as [Hf Hle]; [done|lia|done|]. fold m in Hf, Hle.
  unfold RotateKey, checkRotationAllowed, CanRotate in Hrot.
  destruct (bool_decide _); [|discriminate]. destruct (Z.leb_spec (MinAge (current_key m s)) (Age (current_key m s) now)) as [Hage|];
    [|discriminate].
  assert (Hmin : (if IsPublished (current_key m s) then 30 * 24 * Hour else 2 * Hour) <= now - CreatedAt (current_key m s)).
  { unfold Age, MinAge, PublishedKeyMinAge, UnpublishedKeyMinAge, time_sub, minDuration, maxDuration, Hour, Second in *.
    destruct (IsPublished _); lia. }
  constructor; [lia|]. eapply Forall_impl; [exact Hf|]. intros t Ht. cbn in Ht. lia.
Qed.

(** ** Witnesses and limits *)

Definition Day : Z := 24 * Hour.

Definition demo_key (b : byte) : bytes := replicate 32 b.

(** A manager with published keys, at time 1. *)
Definition demo_manager : KeyRotationManager :=
  match NewKeyRotationManager (demo_key x01) (demo_key x02) true 1 with
  | Ok m => m
  | Err _ => mkKRM ∅ 1 (fun _ => 1%positive) (fun _ => None) false [] 0 0 ∅ [] false
  end.

Lemma rotation_grace_witness :
  let m1 := (RotateKey demo_manager SlotStatic (Some (demo_key x03)) (31 * Day)).1 in
  let m2 := krm_run m1 [(OpStart, 31 * Day); (OpTimer 0, 31 * Day + Second)] in
  GetKey m2 SlotStatic = demo_key x03
  /\ GetPreviousKey m2 SlotStatic (31 * Day + Second) = Some (demo_key x01).
Proof.
  cbv zeta.
  destruct (rotation_grace (demo_key x01) (demo_key x02) true 1 (31 * Day) (31 * Day + Second) []
    [(OpStart, 31 * Day); (OpTimer 0, 31 * Day + Second)] demo_manager
    (RotateKey demo_manager SlotStatic (Some (demo_key x03)) (31 * Day)).1 SlotStatic (Some (demo_key x03)) (demo_key x03))
    as (Hk & _ & Hp & _).
  - reflexivity.
  - left. vm_compute. reflexivity.
  - unfold Day, Hour, Second. lia.
  - repeat constructor; unfold Day, Hour, Second; cbn; lia.
  - split; [exact Hk|]. apply Hp.
    + unfold KeyGracePeriod, Second. lia.
    + apply not_elem_of_empty.
    + cbn. by intros [?|[?|?%elem_of_nil]%elem_of_cons]%elem_of_cons.
Defined.

Lemma rotation_minimum_age_witness :
  Forall (fun t => 30 * 24 * Hour <= 100 * Day - t) [1; 31 * Day].
Proof.
  apply (rotation_minimum_age (demo_key x01) (demo_key x02) true 1 (100 * Day)
    [(OpRotate SlotStatic (Some (demo_key x03)), 31 * Day)] demo_manager
    (RotateKey (krm_run demo_manager [(OpRotate SlotStatic (Some (demo_key x03)), 31 * Day)]) SlotStatic
       (Some (demo_key x04)) (100 * Day)).1 SlotStatic (Some (demo_key x04)) (demo_key x04)).
  - reflexivity.
  - repeat constructor. unfold Day, Hour, Second. cbn. lia.
  - vm_compute. reflexivity.
Defined.

(** A tick of the checker marks a key that may be rotated; a marked key is then
    refused by every rotation that is not forced. *)
Lemma marked_key_not_rotated :
  (RotateKey demo_manager SlotStatic (Some (demo_key x03)) (31 * Day)).2 = Ok (demo_key x03)
  /\ (RotateKey (checkRotation demo_manager (31 * Day)) SlotStatic (Some (demo_key x03)) (31 * Day)).2
     = Err (ECannotRotateYet 0)
  /\ (RotateKey (checkRotation demo_manager (31 * Day)) SlotStatic (Some (demo_key x03)) (365 * Day)).2
     = Err (ECannotRotateYet 0).
Proof. vm_compute. split_and!; reflexivity. Qed.

(** When the manager is stopped, the previous key is erased at once, and zeros are
    returned as the previous key until its grace period is over. *)
Lemma stop_erases_previous_key :
  let m := krm_run demo_manager [(OpStart, 31 * Day); (OpRotate SlotStatic (Some (demo_key x03)), 31 * Day);
             (OpStop, 31 * Day); (OpTimer 0, 31 * Day)] in
  GetPreviousKey m SlotStatic (31 * Day + Second) = Some (demo_key x00).
Proof. vm_compute. reflexivity. Qed.

(** If the random source fails for the second key, the first has been rotated. *)
Lemma partial_rotation :
  let '(m, r) := RotateAllKeys demo_manager (Some (demo_key x03)) None (31 * Day) in
  r = Err EKeyGeneration /\ GetKey m SlotStatic = demo_key x03 /\ GetKey m SlotIntro = demo_key x02.
Proof. vm_compute. split_and!; reflexivity. Qed.
