(* ===== verification/ReplayCache.v ===== *)
(** * The replay cache

    [mod/replaycache/cache.go], which the NTCP2, SSU2 and ratchet handshakes use
    to refuse repeated 32-byte keys, and its NTCP2 wrapper
    [ntcp2/replay_cache.go]. The clock is an argument. *)

From Stdlib Require Import ZArith Lia.
From Stdlib Require Import Strings.Byte.
From stdpp Require Import base numbers list gmap sets sorting.
From S2P Require Import Prelude.

#[local] Open Scope Z_scope.

(** ** Data *)

Record Config := mkConfig {
  TTL : Z;
  MaxSize : Z;
  CleanupInterval : Z;
}.

(** [done] says that the channel of that name is closed. *)
Record TTLCache := mkCache {
  entries : gmap bytes Z;
  ttl : Z;
  maxSize : Z;
  cleanupInterval : Z;
  done_ : bool;
}.

Definition set_entries (c : TTLCache) (m : gmap bytes Z) : TTLCache :=
  mkCache m (ttl c) (maxSize c) (cleanupInterval c) (done_ c).

(** ** Operations *)

Section ReplayCache.
Context {R : GoRange bytes Z} {Srt : GoSort (bytes * Z)}.

Definition New (cfg : Config) : TTLCache :=
  let cleanup := if CleanupInterval cfg <=? 0 then TTL cfg else CleanupInterval cfg in
  let size_ := if MaxSize cfg <=? 0 then 10000 else MaxSize cfg in
  mkCache ∅ (TTL cfg) size_ cleanup false.

Definition evict_count (n : nat) : nat := Nat.max 1 (n / 10).

Definition evictOldestLocked (c : TTLCache) : TTLCache :=
  let evictCount := evict_count (size (entries c)) in
  let all := sort_slice (fun a b => a.2 <? b.2) (go_range (entries c)) in
  set_entries c (delete_keys (take evictCount all) (entries c)).

Definition CheckAndAdd (c : TTLCache) (key : bytes) (now : Z) : TTLCache * bool :=
  let record :=
    let c := if maxSize c <=? Z.of_nat (size (entries c)) then evictOldestLocked c else c in
    (set_entries c (<[key := now]> (entries c)), false) in
  match entries c !! key with
  | Some firstSeen => if time_sub now firstSeen <? ttl c then (c, true) else record
  | None => record
  end.

Definition Size (c : TTLCache) : Z := Z.of_nat (size (entries c)).

Definition Close (c : TTLCache) : TTLCache :=
  mkCache (entries c) (ttl c) (maxSize c) (cleanupInterval c) true.

Definition Reset (c : TTLCache) : TTLCache :=
  set_entries c (delete_keys (go_range (entries c)) (entries c)).

Definition evictExpired (c : TTLCache) (now : Z) : TTLCache :=
  let cutoff := now - ttl c in
  set_entries c
    (delete_where (fun _ firstSeen => firstSeen <? cutoff) (go_range (entries c)) (entries c) 0).1.

(** ** The NTCP2 cache *)

Definition ClockSkewTolerance : Z := 60 * Second.
Definition replayCacheTTL : Z := 2 * ClockSkewTolerance.
Definition replayCacheCleanupInterval : Z := 30 * Second.
Definition replayCacheMaxSize : Z := 100000.

Definition NewReplayCache : TTLCache :=
  New (mkConfig replayCacheTTL replayCacheMaxSize replayCacheCleanupInterval).

(** ** Runs *)

Inductive op :=
| OpCheck (key : bytes) (now : Z)     (* CheckAndAdd *)
| OpExpire (now : Z)                  (* a tick of cleanupLoop *)
| OpClose.

Definition apply_op (c : TTLCache) (o : op) : TTLCache :=
  match o with
  | OpCheck key now => (CheckAndAdd c key now).1
  | OpExpire now => evictExpired c now
  | OpClose => Close c
  end.

Definition run (c : TTLCache) (ops : list op) : TTLCache := foldl apply_op c ops.

Definition op_time (o : op) : option Z :=
  match o with OpCheck _ t | OpExpire t => Some t | OpClose => None end.

Definition is_check (o : op) : bool :=
  match o with OpCheck _ _ => true | _ => false end.

(** ** Eviction *)

Definition oldest_first (c : TTLCache) : list (bytes * Z) :=
  sort_slice (fun a b => a.2 <? b.2) (go_range (entries c)).

Lemma oldest_first_perm c : oldest_first c ≡ₚ map_to_list (entries c).
Proof. unfold oldest_first. by rewrite sort_slice_perm, go_range_perm. Qed.

Lemma oldest_first_elem c k t : (k, t) ∈ oldest_first c <-> entries c !! k = Some t.
Proof. by rewrite oldest_first_perm, elem_of_map_to_list. Qed.

Lemma oldest_first_NoDup c : NoDup (oldest_first c).*1.
Proof. rewrite oldest_first_perm. apply NoDup_fst_map_to_list. Qed.

Lemma oldest_first_length c : length (oldest_first c) = size (entries c).
Proof. by rewrite oldest_first_perm, length_map_to_list. Qed.

Lemma evict_size c :
  entries c <> ∅ ->
  (size (entries (evictOldestLocked c)) < size (entries c))%nat.
Proof.
  intros Hne. unfold evictOldestLocked. fold (oldest_first c). cbn [set_entries entries].
  set (n := evict_count _).
  assert (Hs : (size (delete_keys (take n (oldest_first c)) (entries c))
    + length (take n (oldest_first c)))%nat = size (entries c)).
  { apply size_delete_keys.
    - eapply sublist_NoDup; [apply (oldest_first_NoDup c)|]. apply fmap_sublist, sublist_take.
    - intros k v Hk. exists v. apply oldest_first_elem.
      eapply elem_of_submseteq; [done|]. apply sublist_submseteq, sublist_take. }
  rewrite length_take, oldest_first_length in Hs.
  assert (size (entries c) <> 0%nat) by (by intros ?%map_size_empty_inv).
  assert (1 <= n)%nat by (unfold n, evict_count; lia). lia.
Qed.

(** The other entries at least as recent as [t]. *)
Definition newer (key : bytes) (t : Z) (m : gmap bytes Z) : gmap bytes Z :=
  filter (fun kv => kv.1 <> key /\ t <= kv.2) m.

Lemma evict_keeps c key t :
  entries c !! key = Some t ->
  (size (newer key t (entries c)) + evict_count (size (entries c)) < size (entries c))%nat ->
  entries (evictOldestLocked c) !! key = Some t.
Proof.
  intros Hk Hn. unfold evictOldestLocked. fold (oldest_first c). cbn [set_entries entries].
  rewrite lookup_delete_keys. set (n := evict_count _) in *. case_decide as Hin; [|done]. exfalso.
  pose proof (oldest_first_NoDup c) as Hnd. apply NoDup_fmap_1 in Hnd as Hnd1.
  assert (Hs : StronglySorted (fun a b : bytes * Z => a.2 <= b.2) (oldest_first c))
    by apply sort_slice_sorted.
  rewrite <- (take_drop n (oldest_first c)) in Hs, Hnd. rewrite fmap_app in Hnd.
  apply NoDup_app in Hnd as (_ & Hdis & Hndd).
  apply list_elem_of_fmap in Hin as ([k t'] & Hkk & Hin). cbn in Hkk. subst k.
  assert (t' = t).
  { assert (He : entries c !! key = Some t'); [|congruence]. apply oldest_first_elem.
    rewrite <- (take_drop n (oldest_first c)). apply elem_of_app. by left. }
  subst t'. assert (Hsub : drop n (oldest_first c) ⊆+ map_to_list (newer key t (entries c))).
  { apply NoDup_submseteq; [by apply NoDup_fmap_1 in Hndd|]. intros [k u] Hku.
    apply elem_of_map_to_list, map_lookup_filter_Some. cbn [fst snd]. split.
    - apply oldest_first_elem. rewrite <- (take_drop n (oldest_first c)). apply elem_of_app. by right.
    - split.
      + intros ->. apply (Hdis key); apply list_elem_of_fmap; by eexists (_, _).
      + by apply (StronglySorted_app_1_elem_of _ _ _ (key, t) (k, u) Hs). }
  apply submseteq_length in Hsub.
  rewrite length_drop, length_map_to_list, oldest_first_length in Hsub. lia.
Qed.

Lemma evict_frame c :
  ttl (evictOldestLocked c) = ttl c /\ maxSize (evictOldestLocked c) = maxSize c
  /\ entries (evictOldestLocked c) ⊆ entries c.
Proof. split_and!; [done..|]. apply delete_keys_subseteq. Qed.

Lemma evictExpired_entries c now :
  entries (evictExpired c now) = filter (fun kv => (kv.2 <? now - ttl c) = false) (entries c).
Proof. unfold evictExpired. by rewrite delete_where_range. Qed.

(** What a check does: it reports a key recorded less than [ttl] ago and changes
    nothing, or records the key in the cache less some evicted entries. *)
Lemma CheckAndAdd_cases c key now c' b :
  CheckAndAdd c key now = (c', b) ->
  (b = true /\ c' = c /\ exists t, entries c !! key = Some t /\ time_sub now t < ttl c)
  \/ (b = false /\ exists c0, (c0 = c /\ Z.of_nat (size (entries c)) < maxSize c
         \/ c0 = evictOldestLocked c /\ maxSize c <= Z.of_nat (size (entries c)))
       /\ c' = set_entries c0 (<[key := now]> (entries c0))
       /\ forall t, entries c !! key = Some t -> ttl c <= time_sub now t).
Proof.
  unfold CheckAndAdd. intros H.
  destruct (entries c !! key) as [t|] eqn:Hk; [destruct (Z.ltb_spec (time_sub now t) (ttl c))|].
  - apply (inj2 pair) in H as [<- <-]. left. eauto.
  - right. apply (inj2 pair) in H as [<- <-]. split; [done|]. eexists. split; [|split; [done|]].
    + destruct (Z.leb_spec (maxSize c) (Z.of_nat (size (entries c)))); auto.
    + by intros ? [= ->].
  - right. apply (inj2 pair) in H as [<- <-]. split; [done|]. eexists. split; [|split; [done|done]].
    destruct (Z.leb_spec (maxSize c) (Z.of_nat (size (entries c)))); auto.
Qed.

(** ** Size and origin of the entries *)

Definition checked (ops : list op) (k : bytes) (t : Z) : Prop := OpCheck k t ∈ ops.

Definition cache_inv (ops : list op) (c : TTLCache) : Prop :=
  0 < maxSize c /\ Z.of_nat (size (entries c)) <= maxSize c
  /\ forall k t, entries c !! k = Some t -> checked ops k t.

Lemma apply_op_inv ops c o :
  cache_inv ops c -> cache_inv (ops ++ [o]) (apply_op c o) /\ maxSize (apply_op c o) = maxSize c.
Proof.
  intros (Hm & Hs & Ho).
  assert (Hold : forall k t, entries c !! k = Some t -> checked (ops ++ [o]) k t)
    by (intros k t Hk; apply elem_of_app; left; by apply Ho).
  destruct o as [key now|now|]; cbn [apply_op]; [|split; [|done]; split; [done|]..].
  - destruct (CheckAndAdd c key now) as [c' b] eqn:E. cbn [fst].
    apply CheckAndAdd_cases in E as [(_ & -> & _)|(_ & c0 & Hc0 & -> & _)]; [done|].
    assert (H0 : maxSize c0 = maxSize c /\ entries c0 ⊆ entries c
      /\ Z.of_nat (size (entries c0)) < maxSize c).
    { destruct Hc0 as [[-> ?]|[-> Hfull]]; [done|]. destruct (evict_frame c) as (_ & ? & ?).
      split_and!; [done..|]. assert (Hne : entries c <> ∅).
      { intros He. rewrite He, map_size_empty in Hfull. lia. }
      pose proof (evict_size c Hne). lia. }
    destruct H0 as (H1 & H2 & H3). split; [|done]. split; [by cbn; rewrite H1|]. cbn. split.
    + pose proof (size_insert_le key now (entries c0)). lia.
    + intros k t [[<- <-]|[_ Hk]]%lookup_insert_Some; [apply elem_of_app; right; by left|].
      eapply Hold, lookup_weaken; done.
  - rewrite evictExpired_entries. split.
    + pose proof (map_size_filter (fun kv => (kv.2 <? now - ttl c) = false) (entries c)). cbn. lia.
    + intros k t [Hk _]%map_lookup_filter_Some. by apply Hold.
  - done.
Qed.

Lemma run_ttl c ops : ttl (run c ops) = ttl c.
Proof.
  revert c. induction ops as [|o ops IH]; intros c; [done|]. cbn. fold (run (apply_op c o) ops). rewrite IH.
  destruct o as [key now|now|]; cbn; [|done..]. unfold CheckAndAdd. destruct (entries c !! key); case_ifs; done.
Qed.

Lemma new_inv cfg : cache_inv [] (New cfg).
Proof.
  unfold New. split_and!; cbn; rewrite ?map_size_empty; [destruct (Z.leb_spec (MaxSize cfg) 0); lia..|].
  intros k t Hk. by rewrite lookup_empty in Hk.
Qed.

Lemma run_inv c ops0 ops :
  cache_inv ops0 c -> cache_inv (ops0 ++ ops) (run c ops) /\ maxSize (run c ops) = maxSize c.
Proof.
  revert c ops0. induction ops as [|o ops IH]; intros c ops0 Hi; cbn [run foldl].
  { by rewrite app_nil_r. }
  destruct (apply_op_inv ops0 c o Hi) as [Hi' Hm]. destruct (IH _ _ Hi') as [H1 H2].
  rewrite <- app_assoc in H1. split; [done|]. by rewrite <- Hm.
Qed.

(** whatever keys an attacker presents, the cache never holds more entries
    than its limit, and it never reports a replay of a key that was not presented
    less than the time to live ago. *)
Theorem replay_cache_sound (cfg : Config) (ops : list op) (key : bytes) (now : Z) :
  let c := run (New cfg) ops in
  Size c <= (if MaxSize cfg <=? 0 then 10000 else MaxSize cfg)
  /\ ((CheckAndAdd c key now).2 = true ->
      exists t, OpCheck key t ∈ ops /\ time_sub now t < TTL cfg).
Proof.
  cbv zeta. destruct (run_inv (New cfg) [] ops (new_inv cfg)) as [(_ & Hs & Ho) Hm]. cbn [app] in Ho.
  split; [unfold Size; rewrite Hm in Hs; exact Hs|].
  destruct (CheckAndAdd _ key now) as [c' b] eqn:E. cbn [snd]. intros ->.
  apply CheckAndAdd_cases in E as [(_ & _ & t & Hk & Hlt)|[? _]]; [|done].
  exists t. split; [by apply Ho|]. by rewrite run_ttl in Hlt.
Qed.

(** ** Detection *)

Definition fresh_inv (key : bytes) (t : Z) (n : nat) (c : TTLCache) : Prop :=
  entries c !! key = Some t /\ (size (newer key t (entries c)) <= n)%nat.

Lemma newer_mono (key : bytes) (t : Z) (m m' : gmap bytes Z) :
  m ⊆ m' -> (size (newer key t m) <= size (newer key t m'))%nat.
Proof.
  intros Hs. apply map_subseteq_size, map_subseteq_spec. intros k x.
  unfold newer. rewrite !map_lookup_filter_Some. intros [Hk HP]. split; [|done].
  by eapply lookup_weaken.
Qed.

Lemma newer_insert (key : bytes) (t : Z) (k : bytes) (now : Z) (m : gmap bytes Z) :
  (size (newer key t (<[k := now]> m)) <= S (size (newer key t m)))%nat.
Proof.
  etrans; [|apply (size_insert_le k now)].
  apply map_subseteq_size, map_subseteq_spec. intros i x. unfold newer.
  rewrite map_lookup_filter_Some. intros [[[-> ->]|[Hne Hi]]%lookup_insert_Some HP].
  - apply lookup_insert_eq.
  - rewrite lookup_insert_ne by done. by apply map_lookup_filter_Some.
Qed.

Lemma evict_count_mono a b : (a <= b)%nat -> (a - evict_count a <= b - evict_count b)%nat.
Proof.
  intros Hab. unfold evict_count.
  pose proof (Nat.div_mod a 10 ltac:(lia)). pose proof (Nat.div_mod b 10 ltac:(lia)).
  pose proof (Nat.mod_upper_bound a 10 ltac:(lia)). pose proof (Nat.mod_upper_bound b 10 ltac:(lia)).
  lia.
Qed.

Definition room (c : TTLCache) : nat := Z.to_nat (maxSize c) - evict_count (Z.to_nat (maxSize c)).

Lemma apply_op_fresh key t n t' c o :
  fresh_inv key t n c -> 0 < maxSize c -> (n < room c)%nat ->
  (forall u, op_time o = Some u -> t <= u <= t') -> t' - t < ttl c ->
  fresh_inv key t (if is_check o then S n else n) (apply_op c o)
  /\ maxSize (apply_op c o) = maxSize c /\ ttl (apply_op c o) = ttl c.
Proof.
  intros [Hk Hn] Hm Hroom Hto Httl. destruct o as [k now|now|]; cbn [apply_op is_check].
  - destruct (CheckAndAdd c k now) as [c' b] eqn:E. cbn [fst]. specialize (Hto now eq_refl).
    apply CheckAndAdd_cases in E as [(_ & -> & _)|(_ & c0 & Hc0 & -> & Hexp)].
    { split; [|done]. split; [done|lia]. }
    assert (Hkk : k <> key).
    { intros ->. specialize (Hexp t Hk). unfold time_sub, minDuration, maxDuration in Hexp. lia. }
    assert (H0 : fresh_inv key t n c0 /\ maxSize c0 = maxSize c /\ ttl c0 = ttl c).
    { destruct Hc0 as [[-> _]|[-> Hfull]]; [done|]. destruct (evict_frame c) as (? & ? & Hsub).
      split; [|done]. split; [|etrans; [by apply newer_mono|done]].
      apply evict_keeps; [done|]. unfold room in Hroom.
      pose proof (evict_count_mono (Z.to_nat (maxSize c)) (size (entries c))). lia. }
    destruct H0 as ([H1 H2] & H3 & H4). split; [|done].
    split; cbn [set_entries entries].
    + by rewrite lookup_insert_ne.
    + etrans; [apply newer_insert|]. lia.
  - split; [|done]. split; rewrite evictExpired_entries.
    + apply map_lookup_filter_Some. split; [done|]. cbn. apply Z.ltb_ge.
      specialize (Hto now eq_refl). lia.
    + etrans; [apply newer_mono, map_filter_subseteq|done].
  - done.
Qed.

Lemma run_fresh key t t' ops n c :
  fresh_inv key t n c -> 0 < maxSize c ->
  (n + length (List.filter is_check ops) < room c)%nat ->
  Forall (fun o => forall u, op_time o = Some u -> t <= u <= t') ops -> t' - t < ttl c ->
  entries (run c ops) !! key = Some t /\ ttl (run c ops) = ttl c.
Proof.
  revert n c. induction ops as [|o ops IH]; intros n c Hi Hm Hr Hf Ht; [by destruct Hi|].
  inversion_clear Hf as [|? ? Ho Hf']. cbn [List.filter] in Hr.
  destruct (apply_op_fresh key t n t' c o Hi Hm) as (H1 & H2 & H3);
    [destruct (is_check o); cbn in Hr; lia|done..|].
  cbn [run foldl]. rewrite <- H3. eapply (IH _ _ H1); [lia| |done|lia].
  unfold room in *. rewrite H2. destruct (is_check o); cbn in Hr; lia.
Qed.

(** A recorded key is the newest entry. *)
Lemma recorded_fresh c key t c1 :
  map_Forall (fun _ u => u < t) (entries c) -> CheckAndAdd c key t = (c1, false) ->
  fresh_inv key t 0 c1 /\ maxSize c1 = maxSize c /\ ttl c1 = ttl c.
Proof.
  intros Hold Hadd.
  apply CheckAndAdd_cases in Hadd as [[? _]|(_ & c0 & Hc0 & -> & _)]; [done|].
  assert (H0 : maxSize c0 = maxSize c /\ ttl c0 = ttl c /\ entries c0 ⊆ entries c).
  { destruct Hc0 as [[-> _]|[-> _]]; [done|]. by destruct (evict_frame c) as (? & ? & ?). }
  destruct H0 as (H1 & H2 & H3). split; [|done].
  split; [apply lookup_insert_eq|]. cbn. apply Nat.le_0_r, map_size_empty_iff, map_empty.
  intros i. apply map_lookup_filter_None. right. intros x Hx [Hne Hle]. cbn in *.
  rewrite lookup_insert_ne in Hx by done. apply (lookup_weaken _ (entries c)) in Hx; [|done].
  specialize (Hold i x Hx). cbn in Hold. lia.
Qed.

Lemma fresh_detected c key t t' :
  entries c !! key = Some t -> t <= t' < t + ttl c -> (CheckAndAdd c key t').2 = true.
Proof.
  intros Hk Ht. unfold CheckAndAdd. rewrite Hk.
  destruct (Z.ltb_spec (time_sub t' t) (ttl c)) as [|Hge]; [done|].
  unfold time_sub, minDuration, maxDuration in Hge. lia.
Qed.

(** replay detection. A key that was recorded is reported when it is presented
    again within the time to live, whatever happened in between (other keys,
    clean-ups, the key itself), as long as fewer other keys were presented than
    nine tenths of the cache, which eviction leaves untouched. *)
Theorem replay_detected (c c1 : TTLCache) (key : bytes) (t t' : Z) (ops : list op) :
  0 < maxSize c -> map_Forall (fun _ u => u < t) (entries c) ->
  CheckAndAdd c key t = (c1, false) ->
  Forall (fun o => forall u, op_time o = Some u -> t <= u <= t') ops ->
  t <= t' < t + ttl c ->
  (length (List.filter is_check ops) < room c)%nat ->
  (CheckAndAdd (run c1 ops) key t').2 = true.
Proof.
  intros Hm Hold Hadd Hops Ht Hroom.
  destruct (recorded_fresh c key t c1 Hold Hadd) as (Hf & H1 & H2).
  destruct (run_fresh key t t' ops 0 c1) as [Hk Hl]; [done|lia|unfold room in *; rewrite H1; lia|done|lia|].
  apply (fresh_detected _ _ t); [done|]. rewrite Hl, H2. lia.
Qed.
End ReplayCache.

(** ** Witnesses *)

Definition demo_range : GoRange bytes Z := range_map_to_list bytes Z.

Definition demo_key (n : nat) : bytes := replicate n x01 ++ replicate (32 - n) x00.

Definition demo_checks : list op :=
  (fun n => OpCheck (demo_key n) (Second + Z.of_nat n)) <$> seq 1 4.

Lemma replay_detected_witness :
  let cfg := mkConfig (2 * Second) 6 0 in
  let c1 := (CheckAndAdd (R := demo_range) (Srt := sort_merge) (New cfg) (demo_key 0) Second).1 in
  (CheckAndAdd (R := demo_range) (Srt := sort_merge)
     (run (R := demo_range) (Srt := sort_merge) c1 demo_checks) (demo_key 0) (2 * Second)).2 = true.
Proof.
  cbv zeta. apply (replay_detected (R := demo_range) (Srt := sort_merge)
    (New (mkConfig (2 * Second) 6 0)) _ (demo_key 0) Second (2 * Second) demo_checks).
  - reflexivity.
  - apply map_Forall_empty.
  - reflexivity.
  - repeat (constructor; [intros u [= <-]; split; discriminate|]). constructor.
  - split; [discriminate|reflexivity].
  - vm_compute. lia.
Defined.
