(* ===== verification/ReceiveWindow.v ===== *)
(** * The receive window

    Models [ssu2/reliability/receive_window.go]: the buffer that turns packets
    arriving in any order into an in-order stream, on 32-bit packet numbers. *)

From Stdlib Require Import ZArith Lia.
From Stdlib Require Import Strings.Byte.
From stdpp Require Import base numbers list gmap sets strings.
From S2P Require Import Prelude Packet.

#[local] Open Scope Z_scope.

(** ** Data *)

Record ReceiveWindow := mkWindow {
  expected : Z;
  window : gmap Z SSU2Packet;
  maxSize : Z;
}.

Definition DefaultMaxWindowSize : Z := 512.
Definition MaxPacketNumber : Z := 4294967295.

Inductive WindowError :=
| ENilPacket
| EOldPacket (pktNum : Z)
| EDuplicateExpected (pktNum : Z)
| EDuplicateFuture (pktNum : Z)
| EWindowFull (size : Z).

(** ** Operations *)

Definition NewReceiveWindow (exp size_ : Z) : ReceiveWindow :=
  mkWindow exp ∅ (if size_ <=? 0 then DefaultMaxWindowSize else size_).

(** [int32(a-b) < 0] on uint32. *)
Definition seqBefore (a b : Z) : bool := i32 (u32 (a - b)) <? 0.

(** The loop that releases consecutive buffered packets. Every iteration
    deletes a buffered packet, so [size window] iterations reach its exit. *)
Fixpoint release (fuel : nat) (exp : Z) (w : gmap Z SSU2Packet) (ready : list SSU2Packet)
    : Z * gmap Z SSU2Packet * list SSU2Packet :=
  match w !! exp with
  | Some buffered =>
      match fuel with
      | O => (exp, w, ready)
      | S fuel => release fuel (u32 (exp + 1)) (delete exp w) (ready ++ [buffered])
      end
  | None => (exp, w, ready)
  end.

Definition Insert (rw : ReceiveWindow) (packet : option SSU2Packet)
    : ReceiveWindow * result WindowError (list SSU2Packet) :=
  match packet with
  | None => (rw, Err ENilPacket)
  | Some packet =>
      let pktNum := PacketNumber packet in
      if seqBefore pktNum (expected rw) then (rw, Err (EOldPacket pktNum))
      else if pktNum =? expected rw then
        match window rw !! pktNum with
        | Some _ => (rw, Err (EDuplicateExpected pktNum))
        | None =>
            let '(e, w, ready) :=
              release (size (window rw)) (u32 (expected rw + 1)) (window rw) [packet] in
            (mkWindow e w (maxSize rw), Ok ready)
        end
      else
        match window rw !! pktNum with
        | Some _ => (rw, Err (EDuplicateFuture pktNum))
        | None =>
            if maxSize rw <=? Z.of_nat (size (window rw))
            then (rw, Err (EWindowFull (Z.of_nat (size (window rw)))))
            else (mkWindow (expected rw) (<[pktNum := packet]> (window rw)) (maxSize rw), Ok [])
        end
  end.

Definition GetWindowSize (rw : ReceiveWindow) : Z := Z.of_nat (size (window rw)).

Definition SetExpected {R : GoRange Z SSU2Packet} (rw : ReceiveWindow) (exp : Z) : ReceiveWindow :=
  let '(w, _) := delete_where (fun pktNum _ => seqBefore pktNum exp)
                   (go_range (window rw)) (window rw) 0 in
  mkWindow exp w (maxSize rw).

Definition Clear (rw : ReceiveWindow) (exp : Z) : ReceiveWindow := mkWindow exp ∅ (maxSize rw).

Definition HasGaps (rw : ReceiveWindow) : bool := (0 <? size (window rw))%nat.

Definition gap_scan (keys : list Z) (mn mx : Z) : Z * Z :=
  fold_left (fun '(mn, mx) pktNum =>
    (if pktNum <? mn then pktNum else mn, if mx <? pktNum then pktNum else mx)) keys (mn, mx).

Definition GetGapInfo {R : GoRange Z SSU2Packet} (rw : ReceiveWindow) : Z * Z * Z :=
  if decide (size (window rw) = 0%nat) then (0, 0, 0)
  else
    let '(mn, mx) := gap_scan (go_range (window rw)).*1 MaxPacketNumber 0 in
    (mn, mx, Z.of_nat (size (window rw))).

(** A sequence of [Insert] calls, with what each of them returns. *)
Fixpoint insert_all (rw : ReceiveWindow) (packets : list (option SSU2Packet))
    : ReceiveWindow * list (result WindowError (list SSU2Packet)) :=
  match packets with
  | [] => (rw, [])
  | p :: rest =>
      let '(rw1, r) := Insert rw p in
      let '(rw2, rs) := insert_all rw1 rest in
      (rw2, r :: rs)
  end.

(** The packets one call releases, and those of a sequence of calls, in order. *)
Definition released (r : result WindowError (list SSU2Packet)) : list SSU2Packet :=
  match r with Ok ready => ready | Err _ => [] end.

Definition delivered (rs : list (result WindowError (list SSU2Packet))) : list SSU2Packet := mjoin (released <$> rs).

(** ** Sequence numbers *)

(** The [n] packet numbers from [e] on. *)
Definition seqnums (e : Z) (n : nat) : list Z := (fun i => u32 (e + Z.of_nat i)) <$> seq 0 n.

Lemma seqBefore_distance a b :
  is_u32 a -> is_u32 b ->
  seqBefore a b = bool_decide (0 < u32 (b - a) <= 2 ^ 31).
Proof.
  unfold seqBefore, is_u32, i32, signed, u32, wrap. intros Ha Hb.
  rewrite Z.mod_mod by lia. apply eq_true_iff_eq. rewrite bool_decide_eq_true, Z.ltb_lt.
  destruct (Z.lt_trichotomy a b) as [Hlt|[->|Hgt]].
  - rewrite (Z.mod_small (b - a)) by lia.
    rewrite <- (Z.mod_add (a - b) 1), Z.mod_small by lia. case_ifs; lia.
  - rewrite Z.sub_diag, Z.mod_0_l by lia. case_ifs; lia.
  - rewrite (Z.mod_small (a - b)) by lia.
    rewrite <- (Z.mod_add (b - a) 1), Z.mod_small by lia. case_ifs; lia.
Qed.

Lemma u32_u32_add a b : u32 (u32 a + b) = u32 (a + b).
Proof. unfold u32, wrap. by rewrite Z.add_mod_idemp_l. Qed.

Lemma u32_sub_add a i j : u32 (u32 (a + i) - u32 (a + j)) = u32 (i - j).
Proof.
  unfold u32, wrap. rewrite <- Zminus_mod. f_equal. lia.
Qed.

Lemma length_seqnums e n : length (seqnums e n) = n.
Proof. unfold seqnums. by rewrite length_fmap, length_seq. Qed.

Lemma seqnums_S e n : is_u32 e -> seqnums e (S n) = e :: seqnums (u32 (e + 1)) n.
Proof.
  intros He. unfold seqnums. simpl. rewrite Z.add_0_r, u32_small by done. f_equal.
  rewrite <- seq_shift, <- list_fmap_compose. apply list_fmap_ext. intros _ i _. simpl.
  rewrite u32_u32_add. f_equal. lia.
Qed.

Lemma seqnums_app e n m : seqnums e (n + m) = seqnums e n ++ seqnums (u32 (e + Z.of_nat n)) m.
Proof.
  unfold seqnums. rewrite seq_app, fmap_app. f_equal. simpl.
  rewrite <- (Nat.add_0_r n) at 1. rewrite <- (fmap_add_seq n 0 m), <- list_fmap_compose.
  apply list_fmap_ext. intros _ i _. simpl. rewrite u32_u32_add. f_equal. lia.
Qed.

(** ** Invariants *)

(** Buffered packets are stored under their own number. *)
Definition keys_ok (w : gmap Z SSU2Packet) : Prop :=
  forall k p, w !! k = Some p -> PacketNumber p = k.

Definition rw_inv (rw : ReceiveWindow) : Prop :=
  is_u32 (expected rw) /\ keys_ok (window rw) /\ GetWindowSize rw <= maxSize rw.

Lemma keys_ok_delete k w : keys_ok w -> keys_ok (delete k w).
Proof. intros H i p [_ Hi]%lookup_delete_Some. by apply H. Qed.

(** What [release] does: it appends consecutively numbered packets, moves the
    expected number past them, and only removes packets. *)
Lemma release_spec fuel e w ready :
  is_u32 e -> keys_ok w ->
  exists l e' w', release fuel e w ready = (e', w', ready ++ l)
    /\ PacketNumber <$> l = seqnums e (length l) /\ e' = u32 (e + zlen l)
    /\ w' ⊆ w /\ (forall p, p ∈ l -> exists k, w !! k = Some p).
Proof.
  revert e w ready. induction fuel as [|fuel IH]; intros e w ready He Hk; simpl;
    destruct (w !! e) as [p|] eqn:Ep.
  1, 2, 4: exists [], e, w; rewrite app_nil_r, zlen_nil, Z.add_0_r, u32_small by done;
    split_and!; [done..|by intros ? ?%elem_of_nil].
  destruct (IH (u32 (e + 1)) (delete e w) (ready ++ [p]) (u32_bound _) (keys_ok_delete _ _ Hk))
    as (l & e' & w' & -> & Hl & -> & Hsub & Hin).
  exists (p :: l), (u32 (u32 (e + 1) + zlen l)), w'. split_and!.
  - by rewrite <- app_assoc.
  - rewrite fmap_cons, Hl. cbn [length]. rewrite seqnums_S by done. f_equal. by apply Hk.
  - rewrite zlen_cons, u32_u32_add. f_equal. lia.
  - etransitivity; [done|]. apply delete_subseteq.
  - intros q [->|Hq]%elem_of_cons; [by eexists|].
    destruct (Hin q Hq) as [k [_ Hk']%lookup_delete_Some]. eauto.
Qed.

(** With the fuel [Insert] gives it, [release] stops because the next expected
    packet is not buffered. *)
Lemma release_exit fuel e w ready :
  (size w <= fuel)%nat -> let '(e', w', _) := release fuel e w ready in w' !! e' = None.
Proof.
  revert e w ready. induction fuel as [|fuel IH]; intros e w ready Hf; simpl;
    destruct (w !! e) as [p|] eqn:Ep; try done.
  - assert (size w = 0%nat) as ->%map_size_empty_inv by lia. done.
  - apply IH. rewrite map_size_delete_Some by eauto. lia.
Qed.

(** The packets [Insert] releases are a segment of the stream. *)
Lemma Insert_segment rw packet :
  is_u32 (expected rw) -> keys_ok (window rw) ->
  let '(rw', r) := Insert rw packet in
  PacketNumber <$> released r = seqnums (expected rw) (length (released r))
  /\ expected rw' = u32 (expected rw + zlen (released r))
  /\ keys_ok (window rw') /\ maxSize rw' = maxSize rw.
Proof.
  intros He Hk. unfold Insert.
  assert (Hsame : PacketNumber <$> [] = seqnums (expected rw) 0
    /\ expected rw = u32 (expected rw + zlen (@nil SSU2Packet))).
  { rewrite zlen_nil, Z.add_0_r, u32_small by done. done. }
  destruct packet as [p|]; [|simpl; tauto].
  destruct (seqBefore _ _); [simpl; tauto|]. destruct (_ =? _) eqn:E; bool_props.
  - destruct (window rw !! PacketNumber p) as [q|]; [simpl; tauto|].
    destruct (release_spec (size (window rw)) (u32 (expected rw + 1)) (window rw) [p]
      (u32_bound _) Hk) as (l & e' & w' & -> & Hl & -> & Hsub & _).
    cbn [released expected window maxSize app]. split_and!; [| | |done].
    + rewrite fmap_cons, Hl. cbn [length]. rewrite seqnums_S by done. by rewrite E.
    + rewrite zlen_cons, u32_u32_add. f_equal. lia.
    + intros k q Hq. apply Hk. by eapply lookup_weaken.
  - destruct (window rw !! PacketNumber p) as [q|] eqn:Ew; [simpl; tauto|].
    destruct (_ <=? _); [simpl; tauto|]. cbn [released expected window maxSize].
    split_and!; [tauto..| |done].
    intros k q [[<- <-]|[_ Hq]]%lookup_insert_Some; [done|by apply Hk].
Qed.

Lemma Insert_inv rw packet : rw_inv rw -> rw_inv (Insert rw packet).1.
Proof.
  intros (He & Hk & Hs). pose proof (Insert_segment rw packet He Hk) as Hseg.
  destruct (Insert rw packet) as [rw' r] eqn:E. destruct Hseg as (_ & Hexp & Hk' & Hm).
  simpl. unfold rw_inv. rewrite Hexp. split_and!; [apply u32_bound|done|].
  unfold GetWindowSize in *. revert E. unfold Insert.
  destruct packet as [p|]; [|by intros [= <- _]].
  destruct (seqBefore _ _); [by intros [= <- _]|]. destruct (_ =? expected rw).
  - destruct (window rw !! PacketNumber p); [by intros [= <- _]|].
    destruct (release_spec (size (window rw)) (u32 (expected rw + 1)) (window rw) [p]
      (u32_bound _) Hk) as (l & e' & w' & -> & _ & _ & Hsub & _).
    intros [= <- _]. simpl. pose proof (map_subseteq_size _ _ Hsub). lia.
  - destruct (window rw !! PacketNumber p); [by intros [= <- _]|].
    destruct (_ <=? _) eqn:El; [by intros [= <- _]|]. bool_props. intros [= <- _]. simpl.
    pose proof (size_insert_le (PacketNumber p) p (window rw)). lia.
Qed.

(** ** Reordering

    [n] packets numbered consecutively from [e], arriving in any order. The
    state after a set [T] of them has arrived is determined by [T]: the prefix
    below [k] has been released, the others wait in the window. *)

Section Reordering.
Context (e : Z) (pk : nat -> SSU2Packet) (n : nat).
Hypothesis He : is_u32 e.
Hypothesis Hpk : forall i, (i < n)%nat -> PacketNumber (pk i) = u32 (e + Z.of_nat i).
Hypothesis Hn : Z.of_nat n <= 2 ^ 31.

Definition num (i : nat) : Z := u32 (e + Z.of_nat i).

Definition waiting (T : gset nat) (k : nat) (w : gmap Z SSU2Packet) : Prop :=
  (forall j, (j < n)%nat -> w !! num j = if decide (j ∈ T /\ (k <= j)%nat) then Some (pk j) else None)
  /\ (forall key p, w !! key = Some p -> exists j, (j < n)%nat /\ key = num j).

Lemma num_inj i j : (i <= n)%nat -> (j <= n)%nat -> num i = num j -> i = j.
Proof.
  intros Hi Hj Heq. pose proof (u32_sub_add e (Z.of_nat i) (Z.of_nat j)) as H.
  unfold num in Heq. rewrite Heq, Z.sub_diag in H. unfold u32, wrap in H.
  rewrite Z.mod_0_l in H by lia. symmetry in H. apply Z.mod_divide in H as [q Hq]; [|lia]. nia.
Qed.

Lemma waiting_delete T k w :
  k ∈ T -> (k < n)%nat -> waiting T k w -> waiting T (k + 1) (delete (num k) w).
Proof.
  intros HkS Hk [Hw1 Hw2]. split.
  - intros j Hj. destruct (decide (j = k)) as [->|Hne].
    + rewrite lookup_delete_eq, decide_False; [done|lia].
    + rewrite lookup_delete_ne, Hw1 by (try done; intros Heq%num_inj; lia).
      apply decide_ext. intuition lia.
  - intros key p [_ Hp]%lookup_delete_Some. eauto.
Qed.

Lemma release_waiting fuel T k w ready :
  (size w <= fuel)%nat -> (k <= n)%nat -> (forall i, (i < k)%nat -> i ∈ T) ->
  (forall i, i ∈ T -> (i < n)%nat) -> waiting T k w ->
  exists k' w', release fuel (num k) w ready = (num k', w', ready ++ (pk <$> seq k (k' - k)))
    /\ (k <= k' <= n)%nat /\ (forall i, (i < k')%nat -> i ∈ T) /\ (k' ∉ T) /\ waiting T k' w'.
Proof.
  revert k w ready. induction fuel as [|fuel IH]; intros k w ready Hf Hk Hpre HS Hw.
  all: assert (Hstop : w !! num k = None -> exists k' w',
    (num k, w, ready) = (num k', w', ready ++ (pk <$> seq k (k' - k)))
    /\ (k <= k' <= n)%nat /\ (forall i, (i < k')%nat -> i ∈ T) /\ (k' ∉ T) /\ waiting T k' w').
  1, 3: intros Hnone; exists k, w; rewrite Nat.sub_diag, app_nil_r;
    split_and!; [done|lia|lia|done| |done]; intros HkS; pose proof (HS k HkS) as Hlt;
    pose proof (proj1 Hw k Hlt) as Hl; rewrite Hnone, decide_True in Hl by (split; [done|lia]); done.
  - simpl. destruct (w !! num k) eqn:E; [|by apply Hstop].
    assert (size w = 0%nat) as ->%map_size_empty_inv by lia. done.
  - simpl. destruct (w !! num k) as [p|] eqn:E; [|by apply Hstop].
    destruct (proj2 Hw _ _ E) as (j & Hj & ->%num_inj); [|lia..].
    pose proof (proj1 Hw j Hj) as Hl. rewrite E in Hl. case_decide as HjS; [|done].
    injection Hl as ->. destruct HjS as [HjS _].
    replace (u32 (num j + 1)) with (num (j + 1)) by (unfold num; rewrite u32_u32_add; f_equal; lia).
    destruct (IH (j + 1)%nat (delete (num j) w) (ready ++ [pk j]))
      as (k' & w' & -> & Hk' & Hpre' & Hn' & Hw').
    + rewrite map_size_delete_Some by eauto. lia.
    + lia.
    + intros i Hi. destruct (decide (i = j)) as [->|]; [done|]. apply Hpre. lia.
    + done.
    + by apply waiting_delete.
    + exists k', w'. split_and!; [|lia..|done|done|done].
      replace (k' - j)%nat with (S (k' - (j + 1))) by lia. simpl.
      rewrite <- app_assoc, Nat.add_1_r. done.
Qed.

Lemma waiting_size T k w i :
  waiting T k w -> k ∉ T -> i ∉ T -> (k < i < n)%nat -> (size w + 1 < n)%nat.
Proof.
  intros [Hw1 Hw2] Hk Hi Hr.
  assert (Hnone : w !! num i = None) by (rewrite Hw1, decide_False; [done|tauto|lia]).
  assert (Hsub : dom (<[num i := pk i]> w) ⊆ list_to_set (num <$> seq 1 (n - 1))).
  { intros key Hkey. apply elem_of_list_to_set, list_elem_of_fmap.
    rewrite dom_insert, elem_of_union, elem_of_singleton, elem_of_dom in Hkey.
    destruct Hkey as [->|[p Hp]].
    - exists i. split; [done|]. apply elem_of_seq. lia.
    - destruct (Hw2 _ _ Hp) as (j & Hj & ->). exists j. split; [done|].
      rewrite Hw1 in Hp by done. case_decide as HjS; [|done].
      assert (j <> k) by (intros ->; tauto). apply elem_of_seq. lia. }
  apply subseteq_size in Hsub. rewrite size_dom, map_size_insert_None in Hsub by done.
  rewrite size_list_to_set, length_fmap, length_seq in Hsub; [lia|].
  apply NoDup_fmap_2_strong, NoDup_seq.
  intros x y Hx%elem_of_seq Hy%elem_of_seq. apply num_inj; lia.
Qed.
Context (size_ : Z).
Hypothesis Hsize : Z.of_nat n <= size_ + 1.

Lemma Insert_waiting T k w i :
  (k <= n)%nat -> (forall j, (j < k)%nat -> j ∈ T) -> (forall j, j ∈ T -> (j < n)%nat) ->
  (k ∉ T) -> waiting T k w -> (i < n)%nat -> (i ∉ T) ->
  exists k' w', Insert (mkWindow (num k) w size_) (Some (pk i))
      = (mkWindow (num k') w' size_, Ok (pk <$> seq k (k' - k)))
    /\ (k <= k' <= n)%nat /\ (forall j, (j < k')%nat -> j ∈ {[i]} ∪ T)
    /\ (k' ∉ ({[i]} ∪ T : gset nat)) /\ waiting ({[i]} ∪ T) k' w'.
Proof.
  intros Hk Hpre HT HkT Hw Hi HiT. unfold Insert. rewrite Hpk by done. fold (num i).
  cbn [expected window maxSize].
  assert (Hki : (k <= i)%nat).
  { destruct (decide (i < k)%nat) as [Hlt|]; [|lia]. by apply Hpre in Hlt. }
  assert (Hsb : seqBefore (num i) (num k) = false).
  { rewrite seqBefore_distance by apply u32_bound. apply bool_decide_eq_false.
    unfold num. rewrite u32_sub_add. unfold u32, wrap.
    destruct (decide (i = k)) as [->|Hne]; [rewrite Z.sub_diag, Z.mod_0_l; lia|].
    rewrite <- (Z.mod_add _ 1), Z.mod_small by lia. lia. }
  rewrite Hsb. assert (Hnone : w !! num i = None).
  { rewrite (proj1 Hw) by done. rewrite decide_False; [done|tauto]. }
  rewrite Hnone. destruct (decide (i = k)) as [->|Hne].
  - rewrite Z.eqb_refl.
    replace (u32 (num k + 1)) with (num (k + 1)) by (unfold num; rewrite u32_u32_add; f_equal; lia).
    destruct (release_waiting (size w) ({[k]} ∪ T) (k + 1) w [pk k])
      as (k' & w' & -> & Hk' & Hpre' & Hn' & Hw'); [lia|lia| | | |].
    + intros j Hj. destruct (decide (j = k)) as [->|]; [set_solver|].
      apply elem_of_union_r, Hpre. lia.
    + intros j [->%elem_of_singleton|Hj]%elem_of_union; [done|by apply HT].
    + split; [|apply Hw]. intros j Hj. rewrite (proj1 Hw) by done. apply decide_ext.
      rewrite elem_of_union, elem_of_singleton.
      split; [|lia || (intros [[->|?] ?]; [lia|split; [done|lia]])].
      intros [HjT Hle]. assert (j <> k) by (intros ->; done). split; [by right|lia].
    + exists k', w'. split_and!; [|lia..|done|done|done].
      replace (k' - k)%nat with (S (k' - (k + 1))) by lia. simpl. by rewrite Nat.add_1_r.
  - destruct (num i =? num k) eqn:E; bool_props; [apply num_inj in E; lia|].
    pose proof (waiting_size _ _ _ i Hw HkT HiT ltac:(lia)) as Hsz.
    destruct (size_ <=? _) eqn:El; bool_props; [lia|].
    exists k, (<[num i := pk i]> w). rewrite Nat.sub_diag.
    split_and!; [done|lia|lia| |set_solver|].
    + intros j Hj. by apply elem_of_union_r, Hpre.
    + split.
      * intros j Hj. destruct (decide (j = i)) as [->|Hji].
        -- rewrite lookup_insert_eq, decide_True; [done|]. split; [set_solver|lia].
        -- rewrite lookup_insert_ne by (intros Heq%num_inj; lia).
           rewrite (proj1 Hw) by done. apply decide_ext. set_solver.
      * intros key p [[<- <-]|[_ Hp]]%lookup_insert_Some; [by exists i|]. by apply Hw in Hp.
Qed.

Lemma insert_all_waiting l T k w :
  (k <= n)%nat -> (forall j, (j < k)%nat -> j ∈ T) -> (forall j, j ∈ T -> (j < n)%nat) ->
  (k ∉ T) -> waiting T k w ->
  NoDup l -> (forall j, j ∈ l -> (j < n)%nat /\ j ∉ T) ->
  exists k' w' outs, insert_all (mkWindow (num k) w size_) ((fun i => Some (pk i)) <$> l)
      = (mkWindow (num k') w' size_, Ok <$> outs)
    /\ mjoin outs = pk <$> seq k (k' - k)
    /\ (k <= k' <= n)%nat /\ (forall j, (j < k')%nat -> j ∈ list_to_set l ∪ T)
    /\ (k' ∉ (list_to_set l ∪ T : gset nat)) /\ waiting (list_to_set l ∪ T) k' w'.
Proof.
  revert T k w. induction l as [|i l IH]; intros T k w Hk Hpre HT HkT Hw Hnd Hl.
  - assert (HT0 : list_to_set (@nil nat) ∪ T = T) by set_solver.
    exists k, w, []. rewrite HT0, Nat.sub_diag. split_and!; first [done|lia].
  - inversion_clear Hnd as [|? ? Hil Hnd']. destruct (Hl i ltac:(by left)) as [Hi HiT].
    destruct (Insert_waiting T k w i) as (k1 & w1 & Hins & Hk1 & Hpre1 & Hn1 & Hw1); [done..|].
    destruct (IH ({[i]} ∪ T) k1 w1) as (k2 & w2 & outs & Hall & Houts & Hk2 & Hpre2 & Hn2 & Hw2);
      [lia|done| |done|done|done| |].
    + intros j [->%elem_of_singleton|Hj]%elem_of_union; [done|by apply HT].
    + intros j Hj. destruct (Hl j ltac:(by right)) as [? ?]. split; [done|].
      rewrite not_elem_of_union, not_elem_of_singleton. split; [by intros ->|done].
    + assert (HTeq : list_to_set (i :: l) ∪ T = list_to_set l ∪ ({[i]} ∪ T)) by set_solver.
      rewrite HTeq. exists k2, w2, ((pk <$> seq k (k1 - k)) :: outs). split_and!; [| |lia..|done|done|done].
      { rewrite fmap_cons. cbn [insert_all]. by rewrite Hins, Hall. }
      change ((pk <$> seq k (k1 - k)) ++ mjoin outs = pk <$> seq k (k2 - k)). rewrite Houts, <- fmap_app. f_equal. replace (k2 - k)%nat with ((k1 - k) + (k2 - k1))%nat by lia.
      rewrite seq_app. f_equal. f_equal. lia.
Qed.
End Reordering.

(** ** Admission

    Which packets are accepted depends on the numbers only: [admitted e n T rw]
    says that of the [n] numbers from [e] exactly those of [T] have been accepted. *)

Section Admission.
Context (e : Z) (n : nat) (size_ : Z).
Hypothesis He : is_u32 e.
Hypothesis Hn : Z.of_nat n <= 2 ^ 31.
Hypothesis Hsize : Z.of_nat n <= size_ + 1.

Definition admitted (T : gset nat) (rw : ReceiveWindow) : Prop :=
  exists pk k w, rw = mkWindow (num e k) w size_
    /\ (forall i, (i < n)%nat -> PacketNumber (pk i) = num e i)
    /\ (k <= n)%nat /\ (forall j, (j < k)%nat -> j ∈ T) /\ (forall j, j ∈ T -> (j < n)%nat)
    /\ (k ∉ T) /\ waiting e pk n T k w.

Lemma admitted_new T rw p i :
  admitted T rw -> (i < n)%nat -> i ∉ T -> PacketNumber p = num e i ->
  exists rw' ready, Insert rw (Some p) = (rw', Ok ready) /\ admitted ({[i]} ∪ T) rw'.
Proof.
  intros (pk & k & w & -> & Hpk & Hk & Hpre & HT & HkT & Hw) Hi HiT Hp.
  set (pk' := fun j => if decide (j = i) then p else pk j).
  assert (Hpk' : forall j, (j < n)%nat -> PacketNumber (pk' j) = num e j).
  { intros j Hj. unfold pk'. case_decide; [subst; done|by apply Hpk]. }
  assert (Hw' : waiting e pk' n T k w).
  { split; [|apply Hw]. intros j Hj. rewrite (proj1 Hw) by done.
    destruct (decide (j ∈ T /\ (k <= j)%nat)) as [[HjT _]|]; [|done].
    unfold pk'. rewrite decide_False by (intros ->; done). done. }
  destruct (Insert_waiting e pk' n He Hpk' Hn size_ Hsize T k w i) as (k' & w' & Hins & Hk' & Hpre' & Hkn & Hw2);
    [done..|].
  replace (pk' i) with p in Hins by (unfold pk'; by rewrite decide_True).
  exists (mkWindow (num e k') w' size_), (pk' <$> seq k (k' - k)). split; [done|].
  exists pk', k', w'. split_and!; [done|done|lia|done| |done|done].
  intros j [->%elem_of_singleton|Hj]%elem_of_union; [done|by apply HT].
Qed.

Lemma admitted_seen T rw p i :
  admitted T rw -> i ∈ T -> PacketNumber p = num e i ->
  exists err, Insert rw (Some p) = (rw, Err err).
Proof.
  intros (pk & k & w & -> & Hpk & Hk & Hpre & HT & HkT & Hw) HiT Hp.
  unfold Insert. rewrite Hp. cbn [expected window maxSize].
  pose proof (HT i HiT) as Hi. destruct (decide (i < k)%nat) as [Hlt|Hge].
  - assert (Hsb : seqBefore (num e i) (num e k) = true).
    { rewrite seqBefore_distance by apply u32_bound. apply bool_decide_eq_true.
      unfold num. rewrite u32_sub_add. unfold u32, wrap.
      rewrite Z.mod_small by lia. lia. }
    rewrite Hsb. eauto.
  - assert (Hne : i <> k) by (intros ->; done).
    assert (Hsome : w !! num e i = Some (pk i)).
    { rewrite (proj1 Hw) by done. rewrite decide_True; [done|]. split; [done|lia]. }
    rewrite Hsome. destruct (seqBefore _ _); [eauto|]. destruct (_ =? _); eauto.
Qed.

Lemma admitted_init : admitted ∅ (mkWindow e ∅ size_).
Proof.
  exists (fun i => NewSSU2Packet MessageTypeData (num e i) 0), 0%nat, ∅.
  split_and!; [|done|lia|lia|set_solver..|].
  - unfold num. rewrite Z.add_0_r, u32_small by done. done.
  - split; [|set_solver]. intros j Hj. rewrite decide_False by set_solver. done.
Qed.
End Admission.

(** ** Properties *)

(** in-order delivery: whatever packets are inserted, in whatever order and
    with whatever duplicates, the packets released over the whole run carry
    consecutive numbers from the expected one on (modulo 2^32), with none missing
    or repeated, and the expected number is the one behind them. *)
Theorem in_order_delivery (rw : ReceiveWindow) (packets : list (option SSU2Packet)) :
  rw_inv rw ->
  let '(rw', rs) := insert_all rw packets in
  let out := delivered rs in
  PacketNumber <$> out = seqnums (expected rw) (length out)
  /\ expected rw' = u32 (expected rw + zlen out) /\ rw_inv rw'.
Proof.
  revert rw. induction packets as [|p packets IH]; intros rw Hinv; cbn [insert_all].
  - change (delivered []) with (@nil SSU2Packet). cbv zeta. rewrite zlen_nil, Z.add_0_r, u32_small by apply Hinv. done.
  - pose proof (Insert_segment rw p (proj1 Hinv) (proj1 (proj2 Hinv))) as Hseg.
    pose proof (Insert_inv rw p Hinv) as Hinv1.
    destruct (Insert rw p) as [rw1 r]. destruct Hseg as (Hnum & Hexp & _ & _).
    specialize (IH rw1 Hinv1). destruct (insert_all rw1 packets) as [rw2 rs].
    destruct IH as (Hnum2 & Hexp2 & Hinv2). change (delivered (r :: rs)) with (released r ++ delivered rs).
    set (out := delivered rs) in *.
    rewrite fmap_app, Hnum, Hnum2, length_app, seqnums_app, zlen_app.
    unfold zlen in Hexp. rewrite Hexp in Hexp2 |- *. rewrite Hexp2, u32_u32_add.
    split_and!; [done| |done]. unfold zlen. f_equal. lia.
Qed.

Definition demo_packet (i : Z) : SSU2Packet := NewSSU2Packet MessageTypeData i 0.

Lemma in_order_delivery_witness :
  let '(rw', rs) := insert_all (NewReceiveWindow 4294967294 4)
    (Some ∘ demo_packet <$> [0; 4294967295; 0; 4294967294; 4294967294]) in
  let out := delivered rs in
  PacketNumber <$> out = seqnums 4294967294 (length out)
  /\ expected rw' = u32 (4294967294 + zlen out) /\ rw_inv rw'.
Proof.
  apply (in_order_delivery (NewReceiveWindow 4294967294 4)).
  split_and!; [split; [discriminate|reflexivity]|intros k p Hp; discriminate Hp|discriminate].
Defined.

(** C1: complete delivery under reordering: if the packets numbered from the
    expected number on all arrive, in any order, and there are at most one more
    of them than the window holds (and at most 2^31), then no call returns an
    error, exactly those packets are released, in number order, and the window
    ends empty. *)
Theorem reorder_delivery (e size_ : Z) (packets arrivals : list SSU2Packet) :
  is_u32 e -> 0 < size_ -> zlen packets <= 2 ^ 31 -> zlen packets <= size_ + 1 ->
  PacketNumber <$> packets = seqnums e (length packets) -> arrivals ≡ₚ packets ->
  exists outs, insert_all (NewReceiveWindow e size_) (Some <$> arrivals)
      = (mkWindow (u32 (e + zlen packets)) ∅ size_, Ok <$> outs)
    /\ mjoin outs = packets.
Proof.
  intros He Hs Hn31 Hn Hnum Hperm. set (n := length packets) in *.
  set (pk := fun i => default (demo_packet 0) (packets !! i)).
  assert (Hpks : packets = pk <$> seq 0 n).
  { apply list_eq_same_length with n; rewrite ?length_fmap, ?length_seq; [done..|].
    intros i x y Hi Hx Hy. rewrite list_lookup_fmap, lookup_seq_lt in Hy by done.
    injection Hy as <-. unfold pk. by rewrite Hx. }
  assert (Hpk : forall i, (i < n)%nat -> PacketNumber (pk i) = u32 (e + Z.of_nat i)).
  { intros i Hi. pose proof (f_equal (.!! i) Hnum) as Hi'.
    unfold seqnums in Hi'. rewrite !list_lookup_fmap, lookup_seq_lt in Hi' by done.
    destruct (lookup_lt_is_Some_2 packets i Hi) as [p Hp]. unfold pk. rewrite Hp in *.
    by injection Hi'. }
  assert (Hl : exists l, arrivals = pk <$> l /\ seq 0 n ≡ₚ l).
  { rewrite Hpks in Hperm. by apply Permutation_map_inv in Hperm. }
  destruct Hl as (l & -> & Hl).
  destruct (insert_all_waiting e pk n He Hpk Hn31 size_ Hn l ∅ 0 ∅)
    as (k & w & outs & Hall & Houts & Hk & Hpre & Hnk & Hw).
  - lia.
  - lia.
  - by intros j ?%elem_of_empty.
  - by intros ?%elem_of_empty.
  - split; [|by intros key p Hp%lookup_empty_Some].
    intros j Hj. rewrite lookup_empty, decide_False; [done|]. by intros [?%elem_of_empty _].
  - rewrite <- Hl. apply NoDup_seq.
  - intros j Hj. rewrite <- Hl, elem_of_seq in Hj. split; [lia|by apply not_elem_of_empty].
  - assert (k = n) as ->.
    { destruct (decide (k = n)) as [|Hne]; [done|]. exfalso. apply Hnk.
      apply elem_of_union_l, elem_of_list_to_set. rewrite <- Hl. apply elem_of_seq. lia. }
    assert (w = ∅) as ->.
    { apply map_empty. intros key. destruct (w !! key) as [p|] eqn:E; [|done].
      destruct (proj2 Hw _ _ E) as (j & Hj & ->). rewrite (proj1 Hw) in E by done.
      rewrite decide_False in E; [done|lia]. }
    unfold NewReceiveWindow. destruct (size_ <=? 0) eqn:El; bool_props; [lia|].
    unfold num in Hall at 1. simpl in Hall.
    rewrite Z.add_0_r, (u32_small e He) in Hall. rewrite Nat.sub_0_r, <- Hpks in Houts.
    exists outs. split; [|done]. rewrite <- list_fmap_compose. exact Hall.
Qed.

Lemma reorder_delivery_witness :
  exists outs, insert_all (NewReceiveWindow 4294967295 2) (Some <$> [demo_packet 1; demo_packet 4294967295; demo_packet 0])
      = (mkWindow 2 ∅ 2, Ok <$> outs)
    /\ mjoin outs = [demo_packet 4294967295; demo_packet 0; demo_packet 1].
Proof.
  apply (reorder_delivery 4294967295 2 [demo_packet 4294967295; demo_packet 0; demo_packet 1]).
  - split; [discriminate|reflexivity].
  - reflexivity.
  - discriminate.
  - discriminate.
  - reflexivity.
  - apply (Permutation_app_comm [demo_packet 1] [demo_packet 4294967295; demo_packet 0]).
Defined.

(** the half-space comparison: [seqBefore a b] holds exactly when [b] lies
    1 to 2^31 numbers ahead of [a]; so it is a strict order on numbers closer than
    2^31, across the wrap-around. *)
Theorem seqBefore_spec (a b : Z) :
  is_u32 a -> is_u32 b ->
  (seqBefore a b = true <-> 0 < u32 (b - a) <= 2 ^ 31)
  /\ (u32 (b - a) <> 2 ^ 31 -> seqBefore a b = true -> seqBefore b a = false).
Proof.
  intros Ha Hb. rewrite !seqBefore_distance by done. rewrite bool_decide_eq_true.
  split; [done|]. intros Hne Hd. apply bool_decide_eq_false.
  unfold u32, wrap, is_u32 in *. Z.div_mod_to_equations. lia.
Qed.

Lemma seqBefore_spec_witness :
  (seqBefore 4294967294 1 = true <-> 0 < u32 (1 - 4294967294) <= 2 ^ 31)
  /\ (u32 (1 - 4294967294) <> 2 ^ 31 -> seqBefore 4294967294 1 = true -> seqBefore 1 4294967294 = false).
Proof. apply (seqBefore_spec 4294967294 1); (split; [discriminate|reflexivity]). Defined.

(** [SetExpected] to a number that is itself buffered wedges the window:
    from then on no sequence of insertions releases anything, because the expected
    packet is refused as a duplicate and never taken from the buffer. *)
Theorem SetExpected_wedge (R : GoRange Z SSU2Packet) (rw : ReceiveWindow) (exp : Z) (q : SSU2Packet)
    (packets : list (option SSU2Packet)) :
  window rw !! exp = Some q -> is_u32 exp ->
  delivered (insert_all (SetExpected rw exp) packets).2 = []
  /\ expected (insert_all (SetExpected rw exp) packets).1 = exp.
Proof.
  intros Hq Hu.
  assert (Hstuck : forall rw, is_Some (window rw !! expected rw) ->
    delivered (insert_all rw packets).2 = [] /\ expected (insert_all rw packets).1 = expected rw).
  { induction packets as [|p packets IH]; intros rw0 Hs; [done|]. simpl.
    assert (Hone : released (Insert rw0 p).2 = [] /\ expected (Insert rw0 p).1 = expected rw0
      /\ is_Some (window (Insert rw0 p).1 !! expected rw0)).
    { unfold Insert. destruct p as [p|]; [|done]. destruct (seqBefore _ _); [done|].
      destruct (_ =? _) eqn:E; bool_props.
      - rewrite E. destruct Hs as [x Hx]. rewrite Hx. simpl. rewrite Hx. eauto.
      - destruct (window rw0 !! PacketNumber p); [done|]. destruct (_ <=? _); [done|].
        simpl. by rewrite lookup_insert_ne. }
    destruct (Insert rw0 p) as [rw1 r]. simpl in Hone. destruct Hone as (Hr & He & Hs1).
    rewrite <- He in Hs1. specialize (IH rw1 Hs1). destruct (insert_all rw1 packets) as [rw2 rs].
    simpl in *. destruct IH as [HD IH]. split; [|congruence].
    change (released r ++ delivered rs = []). by rewrite Hr, HD. }
  assert (Hw : is_Some (window (SetExpected rw exp) !! expected (SetExpected rw exp))
    /\ expected (SetExpected rw exp) = exp).
  { unfold SetExpected. rewrite delete_where_range. simpl. split; [|done].
    exists q. apply map_lookup_filter_Some. split; [done|]. simpl.
    rewrite seqBefore_distance by done. rewrite Z.sub_diag. done. }
  destruct Hw as [Hw He]. specialize (Hstuck _ Hw). by rewrite He in Hstuck.
Qed.

Lemma SetExpected_wedge_witness :
  let rw := (Insert (NewReceiveWindow 0 4) (Some (demo_packet 3))).1 in
  delivered (insert_all (SetExpected (R := range_map_to_list _ _) rw 3) [Some (demo_packet 3); Some (demo_packet 4)]).2 = []
  /\ expected (insert_all (SetExpected (R := range_map_to_list _ _) rw 3)
       [Some (demo_packet 3); Some (demo_packet 4)]).1 = 3.
Proof.
  apply (SetExpected_wedge (range_map_to_list _ _)
    (Insert (NewReceiveWindow 0 4) (Some (demo_packet 3))).1 3 (demo_packet 3)).
  - reflexivity.
  - split; [discriminate|reflexivity].
Defined.

(** ** Acceptance

    What the connection uses of [Insert] is whether it accepts the packet. *)

Fixpoint accept_all (rw : ReceiveWindow) (packets : list SSU2Packet)
    : ReceiveWindow * list SSU2Packet :=
  match packets with
  | [] => (rw, [])
  | p :: rest =>
      let '(rw1, r) := Insert rw (Some p) in
      let '(rw2, acc) := accept_all rw1 rest in
      (rw2, if is_ok r then p :: acc else acc)
  end.

(** a packet that never arrives blocks the window: as long as the expected
    number is missing nothing is released, and no more packets are accepted than
    the window has places left; every further packet of the session is refused. *)
Theorem gap_blocks_window (rw : ReceiveWindow) (packets : list SSU2Packet) :
  GetWindowSize rw <= maxSize rw ->
  Forall (fun p => PacketNumber p <> expected rw) packets ->
  let '(rw', acc) := accept_all rw packets in
  expected rw' = expected rw /\ zlen acc <= maxSize rw - GetWindowSize rw
  /\ GetWindowSize rw' = GetWindowSize rw + zlen acc.
Proof.
  intros Hs Hf. unfold GetWindowSize in *. revert rw Hs Hf.
  induction packets as [|p packets IH]; intros rw Hs Hf; cbn [accept_all].
  { rewrite zlen_nil. split_and!; lia. }
  inversion_clear Hf as [|? ? Hp Hf'].
  assert (Hins : exists rw1 r, Insert rw (Some p) = (rw1, r) /\ expected rw1 = expected rw
    /\ maxSize rw1 = maxSize rw /\ Z.of_nat (size (window rw1)) <= maxSize rw
    /\ Z.of_nat (size (window rw1)) = Z.of_nat (size (window rw)) + (if is_ok r then 1 else 0)).
  { unfold Insert.
    destruct (seqBefore _ _); [eexists _, _; split; [done|]; simpl; split_and!; (done || lia)|].
    destruct (Z.eqb_spec (PacketNumber p) (expected rw)); [done|].
    destruct (window rw !! PacketNumber p) as [q|] eqn:E;
      [eexists _, _; split; [done|]; simpl; split_and!; (done || lia)|].
    destruct (Z.leb_spec (maxSize rw) (Z.of_nat (size (window rw))));
      eexists _, _; (split; [done|]); simpl; [split_and!; (done || lia)|].
    rewrite map_size_insert_None by done. split_and!; (done || lia). }
  destruct Hins as (rw1 & r & -> & He & Hm & Hle & Hsz). specialize (IH rw1 ltac:(lia)).
  rewrite He in IH. specialize (IH Hf'). destruct (accept_all rw1 packets) as [rw2 acc].
  destruct IH as (IH1 & IH2 & IH3). destruct (is_ok r); rewrite ?zlen_cons; split_and!; lia.
Qed.

Lemma gap_blocks_window_witness :
  let '(rw', acc) := accept_all (NewReceiveWindow 0 2) (demo_packet <$> [1; 2; 3; 4; 5]) in
  acc = demo_packet <$> [1; 2] /\ expected rw' = 0 /\ zlen acc <= 2.
Proof.
  pose proof (gap_blocks_window (NewReceiveWindow 0 2) (demo_packet <$> [1; 2; 3; 4; 5])) as H.
  destruct (accept_all _ _) as [rw' acc] eqn:E. vm_compute in E. injection E as <- <-.
  destruct H as (H1 & H2 & _).
  - discriminate.
  - repeat (constructor; [discriminate|]). constructor.
  - split; [reflexivity|split; [exact H1|exact H2]].
Defined.

(** ** Replay protection

    Distances from the number [e0] the session started with; the numbers of the
    session stay within 2^31 of it. *)

Section Replay.
Context (e0 : Z).
Hypothesis He0 : is_u32 e0.

Definition dist (k : Z) : Z := u32 (k - e0).

Definition near (k : Z) : Prop := is_u32 k /\ dist k < 2 ^ 31.

(** The expected number is [m] numbers on, everything buffered lies ahead of it. *)
Definition replay_inv (acc : list Z) (rw : ReceiveWindow) : Prop :=
  (exists m, 0 <= m <= 2 ^ 31 /\ expected rw = u32 (e0 + m)
     /\ (forall k, k ∈ acc -> is_u32 k /\ (dist k < m \/ is_Some (window rw !! k)))
     /\ (forall k, is_Some (window rw !! k) -> near k)).

Lemma near_u32_add m : 0 <= m < 2 ^ 32 -> dist (u32 (e0 + m)) = m.
Proof.
  intros Hm. unfold dist. rewrite <- (u32_small e0) at 2 by done.
  replace e0 with (e0 + 0) at 2 by lia. rewrite u32_sub_add, Z.sub_0_r. apply u32_small. unfold is_u32. lia.
Qed.

Lemma near_dist k : is_u32 k -> k = u32 (e0 + dist k).
Proof.
  intros Hk. unfold dist, u32, wrap. rewrite Zplus_mod_idemp_r.
  replace (e0 + (k - e0)) with k by lia. symmetry. by apply Z.mod_small.
Qed.

(** Releasing only removes what it releases, and stays near. *)
Lemma release_near fuel m w ready :
  0 <= m <= 2 ^ 31 -> (forall k, is_Some (w !! k) -> near k) ->
  exists m' w' ready', release fuel (u32 (e0 + m)) w ready = (u32 (e0 + m'), w', ready')
    /\ m <= m' <= 2 ^ 31 /\ w' ⊆ w
    /\ (forall k, is_Some (w !! k) -> dist k < m' \/ is_Some (w' !! k)).
Proof.
  revert m w ready. induction fuel as [|fuel IH]; intros m w ready Hm Hn; simpl;
    destruct (w !! u32 (e0 + m)) as [p|] eqn:Ep.
  1, 2, 4: exists m, w, ready; split_and!; [done|lia|lia|done|by right].
  destruct (Hn (u32 (e0 + m))) as [_ Hd]; [by eexists|]. rewrite near_u32_add in Hd by lia.
  rewrite u32_u32_add, <- Z.add_assoc.
  destruct (IH (m + 1) (delete (u32 (e0 + m)) w) (ready ++ [p])) as (m' & w' & r' & -> & Hm' & Hw & Hr).
  - lia.
  - intros k [x [_ Hx]%lookup_delete_Some]. apply Hn. by eexists.
  - exists m', w', r'. split_and!; [done|lia|lia|etransitivity; [done|apply delete_subseteq]|].
    intros k Hk. destruct (decide (k = u32 (e0 + m))) as [->|Hne].
    + left. rewrite near_u32_add by lia. lia.
    + apply Hr. by rewrite lookup_delete_ne.
Qed.

(** An accepted packet is new, and stays refused from then on. *)
Lemma Insert_replay acc rw p :
  replay_inv acc rw -> near (PacketNumber p) ->
  let '(rw', r) := Insert rw (Some p) in
  (is_ok r = true -> (PacketNumber p ∉ acc) /\ replay_inv (PacketNumber p :: acc) rw')
  /\ (is_ok r = false -> rw' = rw).
Proof.
  intros (m & Hm & He & Ha & Hw) [Hu Hd]. set (k := PacketNumber p) in *.
  assert (Hpos : 0 <= dist k) by (unfold dist; apply u32_bound).
  assert (Hsb : seqBefore k (expected rw) = bool_decide (dist k < m)).
  { rewrite He, seqBefore_distance by (done || apply u32_bound). apply bool_decide_ext.
    rewrite (near_dist k) at 1 2 by done. rewrite !u32_sub_add.
    destruct (decide (dist k < m)) as [Hlt|Hge].
    - rewrite u32_small by (unfold is_u32; lia). lia.
    - split; [|lia]. unfold u32, wrap. destruct (decide (m = dist k)) as [->|];
        [rewrite Z.sub_diag, Z.mod_0_l; lia|].
      rewrite <- (Z.mod_add _ 1), Z.mod_small by lia. lia. }
  unfold Insert. fold k. rewrite Hsb.
  destruct (decide (dist k < m)) as [Hlt|Hge]; [rewrite bool_decide_true by done; done|].
  rewrite bool_decide_false by done.
  assert (Hnew : window rw !! k = None -> k ∉ acc).
  { intros Hnone Hk. destruct (Ha k Hk) as [_ [?|[x Hx]]]; [done|congruence]. }
  destruct (Z.eqb_spec k (expected rw)) as [Heq|Hne]; destruct (window rw !! k) eqn:Ek; try done.
  - assert (Hdm : dist k = m) by (rewrite Heq, He; apply near_u32_add; lia).
    rewrite He, u32_u32_add, <- Z.add_assoc.
    destruct (release_near (size (window rw)) (m + 1) (window rw) [p]) as (m' & w' & r' & -> & Hm' & Hsub & Hr);
      [lia|done|]. split; [|done]. intros _. split; [by apply Hnew|].
    exists m'. cbn [expected window]. split_and!; [lia|lia|done| |].
    + intros j [->|Hj]%elem_of_cons; [split; [done|left; lia]|].
      destruct (Ha j Hj) as [Hju [Hjd|Hjw]]; (split; [done|]); [left; lia|by apply Hr].
    + intros j [x Hx]. apply Hw. exists x. by eapply lookup_weaken.
  - destruct (_ <=? _); [done|]. split; [|done]. intros _. split; [by apply Hnew|].
    exists m. cbn [expected window]. split_and!; [lia|lia|done| |].
    + intros j [->|Hj]%elem_of_cons; [split; [done|right; by rewrite lookup_insert_eq]|].
      destruct (Ha j Hj) as [Hju [Hjd|Hjw]]; (split; [done|]); [by left|right].
      destruct (decide (j = k)) as [->|]; [by rewrite lookup_insert_eq|by rewrite lookup_insert_ne].
    + intros j [x [[<- _]|[_ Hx]]%lookup_insert_Some]; [done|]. apply Hw. by eexists.
Qed.

Lemma accept_all_replay acc rw packets :
  replay_inv acc rw -> NoDup acc -> Forall (fun p => near (PacketNumber p)) packets ->
  NoDup ((PacketNumber <$> (accept_all rw packets).2) ++ acc).
Proof.
  intros Hinv Hnd Hf. revert acc rw Hinv Hnd.
  induction Hf as [|p packets Hp Hf IH]; intros acc rw Hinv Hnd; [done|]. cbn [accept_all].
  pose proof (Insert_replay acc rw p Hinv Hp) as Hi. destruct (Insert rw (Some p)) as [rw1 r].
  destruct Hi as [H1 H2]. destruct (is_ok r).
  - destruct (H1 eq_refl) as [Hnew Hinv1]. specialize (IH (PacketNumber p :: acc) rw1 Hinv1).
    destruct (accept_all rw1 packets) as [rw2 a2]. cbn in *.
    rewrite Permutation_middle. apply IH. by constructor.
  - rewrite (H2 eq_refl). specialize (IH acc rw Hinv Hnd).
    by destruct (accept_all rw packets) as [rw2 a2].
Qed.
End Replay.

(** replay protection: in a session whose packet numbers stay within 2^31 of
    its first one, no packet number is accepted twice, whatever is inserted, in
    whatever order and however often. *)
Theorem no_packet_accepted_twice (e0 size_ : Z) (packets : list SSU2Packet) :
  is_u32 e0 -> Forall (fun p => is_u32 (PacketNumber p) /\ u32 (PacketNumber p - e0) < 2 ^ 31) packets ->
  NoDup (PacketNumber <$> (accept_all (NewReceiveWindow e0 size_) packets).2).
Proof.
  intros He Hf. rewrite <- (app_nil_r (PacketNumber <$> _)).
  apply (accept_all_replay e0 He); [|constructor|done].
  exists 0. unfold NewReceiveWindow. cbn [expected window].
  split_and!; [lia|lia|by rewrite Z.add_0_r, u32_small|by intros k Hk%elem_of_nil|].
  intros k [x Hx]. by rewrite lookup_empty in Hx.
Qed.

Lemma no_packet_accepted_twice_witness :
  NoDup (PacketNumber <$> (accept_all (NewReceiveWindow 5 4)
    (demo_packet <$> [6; 5; 6; 5; 8; 7; 8])).2).
Proof.
  apply (no_packet_accepted_twice 5 4).
  - split; [discriminate|reflexivity].
  - repeat (constructor; [split; [split; [discriminate|reflexivity]|reflexivity]|]). constructor.
Defined.
