(* ===== verification/AckHandler.v ===== *)
(** * Acknowledgments

    Models [ssu2/reliability/ack_handler.go]: recording received packets,
    encoding them as an ACK block (through number, count, nack/ack ranges),
    decoding an ACK block, and the set of packets awaiting acknowledgment. *)

From Stdlib Require Import ZArith Lia.
From Stdlib Require Import Strings.Byte.
From stdpp Require Import base numbers list gmap sorting strings.
From S2P Require Import Prelude Block.

#[local] Open Scope Z_scope.

(** ** Data *)

Record PendingACK := mkPending {
  PacketNumber : Z;
  SentTime : Z;
  Retries : Z;
}.

Record ACKHandler := mkACKHandler {
  receivedPackets : list Z;
  pendingACKs : gmap Z PendingACK;
  lastACKTime : Z;
  ackDelay : Z;
  ackThreshold : Z;
  maxACKDataSize : Z;
}.

Definition MaxNACKRangesPerACK : Z := 200.
Definition minACKInterval : Z := 5 * Millisecond.

Inductive ACKError :=
| EWrongBlockType (t : byte)
| EACKTooShort (len : Z)
| EAcntExceedsThroughPN (acnt throughPN : Z)
| ETooManyRanges (count : Z)
| ENackExceedsCursor (nacks cursor : Z)
| ECursorUnderflowNacks
| EAckExceedsCursor (acks cursor : Z)
| ECursorUnderflowAcks.

(** ** Operations *)

Definition NewACKHandler : ACKHandler :=
  mkACKHandler [] ∅ 0 (10 * Millisecond) 10 504.

Definition set_received (h : ACKHandler) (l : list Z) : ACKHandler :=
  mkACKHandler l (pendingACKs h) (lastACKTime h) (ackDelay h) (ackThreshold h) (maxACKDataSize h).

Definition set_pending (h : ACKHandler) (m : gmap Z PendingACK) : ACKHandler :=
  mkACKHandler (receivedPackets h) m (lastACKTime h) (ackDelay h) (ackThreshold h) (maxACKDataSize h).

Definition RecordReceived (h : ACKHandler) (packetNum : Z) : ACKHandler :=
  set_received h (receivedPackets h ++ [packetNum]).

Definition SetACKThreshold (h : ACKHandler) (threshold : Z) : ACKHandler :=
  mkACKHandler (receivedPackets h) (pendingACKs h) (lastACKTime h) (ackDelay h)
    (if threshold <? 1 then 1 else threshold) (maxACKDataSize h).

Definition SetMaxACKDataSize (h : ACKHandler) (size_ : Z) : ACKHandler :=
  mkACKHandler (receivedPackets h) (pendingACKs h) (lastACKTime h) (ackDelay h)
    (ackThreshold h) (if size_ <? 5 then 5 else size_).

Definition ShouldSendACK (h : ACKHandler) (rtt now : Z) : ACKHandler * bool :=
  if decide (length (receivedPackets h) = 0%nat) then (h, false)
  else
    let delay := Z.quot rtt 6 in
    let delay := if delay <? 10 * Millisecond then 10 * Millisecond else delay in
    let delay := if 150 * Millisecond <? delay then 150 * Millisecond else delay in
    let h := mkACKHandler (receivedPackets h) (pendingACKs h) (lastACKTime h) delay
               (ackThreshold h) (maxACKDataSize h) in
    let timeSinceLastACK := time_sub now (lastACKTime h) in
    let thresholdOrDelayMet :=
      (ackDelay h <=? timeSinceLastACK) || (ackThreshold h <=? zlen (receivedPackets h)) in
    (h, (minACKInterval <=? timeSinceLastACK) && thresholdOrDelayMet).

(** The inner loop of the insertion sort. The part of the array left of [i] is
    given from right to left; entries smaller than [key] move one place right. *)
Fixpoint shift_in (key : Z) (left : list Z) : list Z :=
  match left with
  | x :: rest => if x <? key then x :: shift_in key rest else key :: left
  | [] => [key]
  end.

Definition sort_desc (packets : list Z) : list Z :=
  reverse (fold_left (fun left key => shift_in key left) packets []).

(** The deduplication loop: [out] so far ends in [lst]. *)
Fixpoint dedup (lst : Z) (rest : list Z) : list Z :=
  match rest with
  | [] => []
  | x :: rest => if x =? lst then dedup lst rest else x :: dedup x rest
  end.

Definition SortDescDedupPackets (packets : list Z) : list Z :=
  match sort_desc packets with
  | [] => []
  | x :: rest => x :: dedup x rest
  end.

(** The loops that count how long [sorted[j] == sorted[j-1]-1] holds, where
    [prev] is [sorted[j-1]] and [rest] is [sorted[j:]]. *)
Fixpoint consecutive (prev : Z) (rest : list Z) : nat :=
  match rest with
  | x :: rest => if x =? u32 (prev - 1) then S (consecutive x rest) else 0
  | [] => 0
  end.

Definition countConsecutiveFromTop (sorted : list Z) : Z :=
  1 + Z.of_nat (consecutive (sorted !!! 0%nat) (drop 1 sorted)).

(** The main loop of [buildACKRanges]: each iteration moves [i] forward, so
    [length sorted] iterations are enough. *)
Fixpoint build_loop (fuel : nat) (sorted : list Z) (i : nat) (maxBytes : Z) (rangeBytes : bytes)
    : bytes :=
  match fuel with
  | O => rangeBytes
  | S fuel =>
      if decide (length sorted <= i)%nat then rangeBytes
      else if maxBytes <? zlen rangeBytes + 2 then rangeBytes
      else
        let prevPN := sorted !!! (i - 1)%nat in
        let nextPN := sorted !!! i in
        let nackCount := u32 (prevPN - nextPN - 1) in
        let nackCount := if nackCount <? 1 then 1 else nackCount in
        let nackCount := if 256 <? nackCount then 256 else nackCount in
        let run := S (consecutive nextPN (drop (i + 1) sorted)) in
        let j := (i + run)%nat in
        let ackRun := Z.of_nat run in
        let ackRun := if 256 <? ackRun then 256 else ackRun in
        build_loop fuel sorted j maxBytes
          (rangeBytes ++ [z2b (nackCount - 1); z2b (ackRun - 1)])
  end.

Definition buildACKRanges (sorted : list Z) (start : nat) (maxBytes : Z) : bytes :=
  build_loop (length sorted) sorted start maxBytes [].

(** [GenerateACK] at time [now]; the result [None] is the nil block. *)
Definition GenerateACK (h : ACKHandler) (now : Z) : ACKHandler * option SSU2Block :=
  if decide (length (receivedPackets h) = 0%nat) then (h, None)
  else
    let sorted := SortDescDedupPackets (receivedPackets h) in
    let throughPN := sorted !!! 0%nat in
    let acnt := countConsecutiveFromTop sorted - 1 in
    let rangeBytes := buildACKRanges sorted (Z.to_nat (acnt + 1)) (maxACKDataSize h - 5) in
    let data := be_encode 4 throughPN ++ [z2b acnt] ++ rangeBytes in
    (mkACKHandler [] (pendingACKs h) now (ackDelay h) (ackThreshold h) (maxACKDataSize h),
     Some (NewSSU2Block BlockTypeACK data)).

(** The loop over the initial run: [pn] is [throughPN - i]. *)
Fixpoint ack_initial (count : nat) (pn : Z) (acked : list Z) (pending : gmap Z PendingACK)
    : list Z * gmap Z PendingACK :=
  match count with
  | O => (acked, pending)
  | S count => ack_initial count (u32 (pn - 1)) (acked ++ [pn]) (delete pn pending)
  end.

(** The loop over one ack run; it fails when the cursor passes below zero. *)
Fixpoint ack_run (acks : nat) (cursor : Z) (acked : list Z) (pending : gmap Z PendingACK)
    : Z * list Z * gmap Z PendingACK * option ACKError :=
  match acks with
  | O => (cursor, acked, pending, None)
  | S acks =>
      let acked := acked ++ [u32 cursor] in
      let pending := delete (u32 cursor) pending in
      let cursor := cursor - 1 in
      if cursor <? 0 then (cursor, acked, pending, Some ECursorUnderflowAcks)
      else ack_run acks cursor acked pending
  end.

(** The loop over the range pairs, [ranges] being [data[offset:]]. *)
Fixpoint ack_ranges (ranges : bytes) (rangeCount cursor : Z) (acked : list Z)
    (pending : gmap Z PendingACK) : gmap Z PendingACK * result ACKError (list Z) :=
  match ranges with
  | b0 :: b1 :: rest =>
      let rangeCount := rangeCount + 1 in
      if MaxNACKRangesPerACK <? rangeCount then (pending, Err (ETooManyRanges rangeCount))
      else
        let nacks := b2z b0 + 1 in
        let acks := b2z b1 + 1 in
        if cursor <? nacks then (pending, Err (ENackExceedsCursor nacks cursor))
        else
          let cursor := cursor - nacks in
          if cursor <? 0 then (pending, Err ECursorUnderflowNacks)
          else if cursor + 1 <? acks then (pending, Err (EAckExceedsCursor acks cursor))
          else
            match ack_run (Z.to_nat acks) cursor acked pending with
            | (_, _, pending, Some e) => (pending, Err e)
            | (cursor, acked, pending, None) => ack_ranges rest rangeCount cursor acked pending
            end
  | _ => (pending, Ok acked)
  end.

Definition ProcessACK (h : ACKHandler) (ackBlock : SSU2Block)
    : ACKHandler * result ACKError (list Z) :=
  if decide (Type_ ackBlock <> BlockTypeACK) then (h, Err (EWrongBlockType (Type_ ackBlock)))
  else
    let data := Data ackBlock in
    if zlen data <? 5 then (h, Err (EACKTooShort (zlen data)))
    else
      let throughPN := be_decode (slice 0 4 data) in
      let acnt := byte_at data 4 in
      if throughPN <? acnt then (h, Err (EAcntExceedsThroughPN acnt throughPN))
      else
        let '(acked, pending) := ack_initial (Z.to_nat (acnt + 1)) throughPN [] (pendingACKs h) in
        let base := throughPN - acnt in
        if base =? 0 then (set_pending h pending, Ok acked)
        else
          let '(pending, r) := ack_ranges (drop 5 data) 0 (base - 1) acked pending in
          (set_pending h pending, r).

Definition AddPending (h : ACKHandler) (packetNum now : Z) : ACKHandler :=
  set_pending h (<[packetNum := mkPending packetNum now 0]> (pendingACKs h)).

Definition GetPending {R : GoRange Z PendingACK} (h : ACKHandler) : list Z :=
  (go_range (pendingACKs h)).*1.

Definition GetPendingPacket (h : ACKHandler) (packetNum : Z) : option PendingACK :=
  pendingACKs h !! packetNum.

Definition HasPending (h : ACKHandler) : bool := (0 <? size (pendingACKs h))%nat.

Definition ClearPending (h : ACKHandler) : ACKHandler := set_received (set_pending h ∅) [].

(** ** Sorting and deduplication *)

Abbreviation desc := (StronglySorted Z.gt).

Lemma shift_in_perm key l : shift_in key l ≡ₚ key :: l.
Proof.
  induction l as [|x l IH]; simpl; [done|]. destruct (x <? key); [|done].
  rewrite IH. apply Permutation_swap.
Qed.

Lemma shift_in_sorted key l : StronglySorted Z.le l -> StronglySorted Z.le (shift_in key l).
Proof.
  induction 1 as [|x l Hs IH Hx]; simpl; [by repeat constructor|].
  destruct (x <? key) eqn:E; bool_props.
  - constructor; [done|]. rewrite shift_in_perm. constructor; [lia|done].
  - constructor; [by constructor|]. constructor; [done|].
    eapply Forall_impl; [done|]. simpl. lia.
Qed.

Lemma sort_desc_spec l : StronglySorted Z.ge (sort_desc l) /\ sort_desc l ≡ₚ l.
Proof.
  unfold sort_desc.
  assert (H : forall acc, StronglySorted Z.le acc ->
    StronglySorted Z.le (fold_left (fun left key => shift_in key left) l acc)
    /\ fold_left (fun left key => shift_in key left) l acc ≡ₚ l ++ acc).
  { induction l as [|x l IH]; intros acc Hacc; simpl; [done|].
    destruct (IH (shift_in x acc)) as [H1 H2]; [by apply shift_in_sorted|]. split; [done|].
    rewrite H2, shift_in_perm. by rewrite Permutation_middle. }
  destruct (H []) as [H1 H2]; [constructor|]. rewrite app_nil_r in H2. split.
  - revert H1. generalize (fold_left (fun left key => shift_in key left) l []).
    clear. induction 1 as [|x l Hs IH Hx]; [constructor|]. rewrite reverse_cons.
    assert (Hx' : Forall (fun y => y >= x) (reverse l)).
    { rewrite reverse_Permutation. eapply Forall_impl; [done|]. simpl. lia. }
    revert Hx'. clear Hx. induction IH as [|y m Hm IHm Hy]; intros Hf; simpl.
    + by repeat constructor.
    + inversion_clear Hf. constructor; [by apply IHm|]. apply Forall_app. by repeat constructor.
  - by rewrite reverse_Permutation.
Qed.

Lemma dedup_spec lst rest :
  StronglySorted Z.ge (lst :: rest) ->
  desc (lst :: dedup lst rest) /\ forall x, x ∈ lst :: dedup lst rest <-> x ∈ lst :: rest.
Proof.
  revert lst. induction rest as [|y rest IH]; intros lst Hs; simpl;
    [split; [repeat constructor|done]|].
  inversion_clear Hs as [|? ? Hs1 Hf1]. inversion_clear Hf1 as [|? ? Hy Hf2].
  destruct (y =? lst) eqn:E; bool_props.
  - subst. destruct (IH lst Hs1) as [H1 H2]. split; [done|]. intros x. rewrite H2. set_solver.
  - destruct (IH y Hs1) as [H1 H2]. split.
    + constructor; [done|]. constructor; [lia|]. inversion_clear H1 as [|? ? _ Hlt].
      eapply Forall_impl; [done|]. simpl. lia.
    + intros x. rewrite elem_of_cons, H2, (elem_of_cons (y :: rest)). done.
Qed.

Lemma SortDescDedup_desc l :
  desc (SortDescDedupPackets l) /\ forall x, x ∈ SortDescDedupPackets l <-> x ∈ l.
Proof.
  unfold SortDescDedupPackets. destruct (sort_desc_spec l) as [H1 H2].
  destruct (sort_desc l) as [|x rest]; simpl in *.
  - split; [constructor|]. intros x. by rewrite <- H2.
  - destruct (dedup_spec x rest H1) as [H3 H4]. split; [done|]. intros y. by rewrite H4, H2.
Qed.

Lemma SortDescDedup_nonempty l : l <> [] -> SortDescDedupPackets l <> [].
Proof.
  intros Hne Hnil. destruct l as [|x l]; [done|].
  destruct (SortDescDedup_desc (x :: l)) as [_ Hin]. rewrite Hnil in Hin.
  specialize (Hin x). set_solver.
Qed.

(** ** Runs

    The reference view of a descending list: maximal runs [(s, m)], standing for
    the [m + 1] numbers [s, s-1, ..., s-m]. *)

Definition countdown (s : Z) (n : nat) : list Z := (fun i => s - Z.of_nat i) <$> seq 0 n.

Fixpoint runs (l : list Z) : list (Z * nat) :=
  match l with
  | [] => []
  | x :: l =>
      match runs l with
      | (s, m) :: t => if s =? x - 1 then (x, S m) :: t else (x, O) :: (s, m) :: t
      | [] => [(x, O)]
      end
  end.

Definition flatten_runs (rs : list (Z * nat)) : list Z :=
  concat ((fun '(s, m) => countdown s (S m)) <$> rs).

Lemma countdown_S s n : countdown s (S n) = s :: countdown (s - 1) n.
Proof.
  unfold countdown. simpl. rewrite Z.sub_0_r. f_equal.
  rewrite <- seq_shift, <- list_fmap_compose. apply list_fmap_ext. intros _ i _. simpl. lia.
Qed.

Lemma length_countdown s n : length (countdown s n) = n.
Proof. unfold countdown. by rewrite length_fmap, length_seq. Qed.

Lemma zlen_countdown s n : zlen (countdown s n) = Z.of_nat n.
Proof. unfold zlen. by rewrite length_countdown. Qed.

Lemma elem_of_countdown x s n : x ∈ countdown s n <-> s - Z.of_nat n < x <= s.
Proof.
  unfold countdown. rewrite list_elem_of_fmap. split.
  - intros (i & -> & Hi%elem_of_seq). lia.
  - intros Hx. exists (Z.to_nat (s - x)). rewrite elem_of_seq. lia.
Qed.

(** The loop counter against the reference view. *)
Lemma runs_consecutive x l :
  desc (x :: l) -> Forall is_u32 (x :: l) ->
  runs (x :: l) = (x, consecutive x l) :: runs (drop (consecutive x l) l)
  /\ l = countdown (x - 1) (consecutive x l) ++ drop (consecutive x l) l.
Proof.
  revert x. induction l as [|y l IH]; intros x Hd Hu; [done|].
  inversion_clear Hd as [|? ? Hd' Hx]. inversion_clear Hx as [|? ? Hxy _].
  inversion_clear Hu as [|? ? Hxu Hu']. inversion Hu' as [|? ? Hyu _]; subst.
  destruct (IH y Hd' Hu') as [IH1 IH2]. clear IH.
  assert (Hw : u32 (x - 1) = x - 1) by (apply u32_small; unfold is_u32 in *; lia).
  change (consecutive x (y :: l)) with (if y =? u32 (x - 1) then S (consecutive y l) else O).
  rewrite Hw. change (runs (x :: y :: l)) with
    (match runs (y :: l) with
     | (s, m) :: t => if s =? x - 1 then (x, S m) :: t else (x, O) :: (s, m) :: t
     | [] => [(x, O)] end).
  rewrite IH1. destruct (y =? x - 1) eqn:E; bool_props; simpl drop.
  - split; [done|]. rewrite countdown_S, <- E. simpl. by rewrite <- IH2.
  - by rewrite IH1.
Qed.

(** ** The range encoding of runs *)

(** The range bytes of the runs below [prev], as the protocol defines them. *)
Fixpoint encode_runs (prev : Z) (rs : list (Z * nat)) : bytes :=
  match rs with
  | [] => []
  | (s, m) :: t => [z2b (prev - s - 2); z2b (Z.of_nat m)] ++ encode_runs (s - Z.of_nat m) t
  end.

(** The runs below [prev] that a byte pair each can carry: gaps of at most 256,
    runs of at most 256, and packet 0 not among them. *)
Fixpoint encodable_below (prev : Z) (rs : list (Z * nat)) : bool :=
  match rs with
  | [] => true
  | (s, m) :: t =>
      (2 <=? prev - s) && (prev - s <=? 257) && (Z.of_nat m <=? 255)
      && (1 <=? s - Z.of_nat m) && encodable_below (s - Z.of_nat m) t
  end.

(** Received packets that one ACK block of at most [maxSize] bytes can carry. *)
Definition ack_encodable (received : list Z) (maxSize : Z) : bool :=
  match runs (SortDescDedupPackets received) with
  | [] => false
  | (s, m) :: t =>
      (Z.of_nat m <=? 255) && encodable_below (s - Z.of_nat m) t
      && (zlen t <=? MaxNACKRangesPerACK) && (2 * zlen t <=? maxSize - 5)
  end.

Lemma desc_app_inv l1 l2 : desc (l1 ++ l2) -> desc l2.
Proof. induction l1 as [|x l1 IH]; simpl; [done|]. inversion_clear 1. by apply IH. Qed.

Lemma countdown_last s m l : (s :: countdown (s - 1) m ++ l) !!! m = s - Z.of_nat m.
Proof.
  rewrite app_comm_cons, <- countdown_S. apply list_lookup_total_correct.
  rewrite lookup_app_l by (rewrite length_countdown; lia).
  unfold countdown. rewrite list_lookup_fmap, lookup_seq_lt by lia. done.
Qed.

Lemma build_loop_runs fuel sorted i maxBytes acc :
  (1 <= i)%nat -> desc sorted -> Forall is_u32 sorted -> (length sorted <= fuel + i)%nat ->
  encodable_below (sorted !!! (i - 1)%nat) (runs (drop i sorted)) = true ->
  zlen acc + 2 * zlen (runs (drop i sorted)) <= maxBytes ->
  build_loop fuel sorted i maxBytes acc
  = acc ++ encode_runs (sorted !!! (i - 1)%nat) (runs (drop i sorted)).
Proof.
  revert i acc. induction fuel as [|fuel IH]; intros i acc Hi Hd Hu Hf He Hb; simpl build_loop.
  { rewrite drop_ge by lia. by rewrite app_nil_r. }
  destruct (decide (length sorted <= i)%nat) as [Hge|Hlt].
  { rewrite drop_ge by lia. by rewrite app_nil_r. }
  destruct (lookup_lt_is_Some_2 sorted i) as [x Hx]; [lia|].
  pose proof (drop_S sorted x i Hx) as Hdrop. rewrite (list_lookup_total_correct _ _ _ Hx).
  rewrite Nat.add_1_r. set (rest := drop (S i) sorted) in *. set (c := consecutive x rest) in *.
  assert (Hd' : desc (x :: rest)).
  { rewrite <- Hdrop. apply (desc_app_inv (take i sorted)). by rewrite take_drop. }
  assert (Hu' : Forall is_u32 (x :: rest)) by (rewrite <- Hdrop; by apply Forall_drop).
  destruct (runs_consecutive x rest Hd' Hu') as [Hruns Hrest]. fold c in Hruns, Hrest.
  rewrite Hdrop, Hruns in He, Hb |- *. set (prev := sorted !!! (i - 1)%nat) in *.
  cbn [encodable_below] in He. bool_props. rewrite zlen_cons in Hb.
  pose proof (zlen_nonneg (runs (drop c rest))).
  destruct (maxBytes <? zlen acc + 2) eqn:Em; bool_props; [lia|].
  assert (Hxu : is_u32 x) by (by inversion Hu').
  rewrite (u32_small (prev - x - 1)) by (unfold is_u32 in *; lia).
  destruct (prev - x - 1 <? 1) eqn:E1; bool_props; [lia|].
  destruct (256 <? prev - x - 1) eqn:E2; bool_props; [lia|].
  destruct (256 <? Z.of_nat (S c)) eqn:E3; bool_props; [lia|].
  assert (Hdrop' : drop (i + S c) sorted = drop c rest).
  { unfold rest. rewrite drop_drop. f_equal. lia. }
  assert (Hprev' : sorted !!! (i + S c - 1)%nat = x - Z.of_nat c).
  { replace (i + S c - 1)%nat with (i + c)%nat by lia.
    rewrite <- lookup_total_drop, Hdrop, Hrest at 1. apply countdown_last. }
  rewrite IH; rewrite ?Hdrop', ?Hprev'; try done; [|lia|lia|rewrite zlen_app, !zlen_cons, zlen_nil; lia].
  cbn [encode_runs]. rewrite <- app_assoc.
  replace (prev - x - 1 - 1) with (prev - x - 2) by lia.
  by replace (Z.of_nat (S c) - 1) with (Z.of_nat c) by lia.
Qed.

(** ** Decoding *)

(** The pending packets that are not among [l]. *)
Definition forget (l : list Z) (m : gmap Z PendingACK) : gmap Z PendingACK :=
  filter (fun kv => kv.1 ∉ l) m.

Lemma forget_nil m : forget [] m = m.
Proof. apply map_filter_id. intros k v _. simpl. apply not_elem_of_nil. Qed.

Lemma delete_forget k l m : delete k (forget l m) = forget (l ++ [k]) m.
Proof.
  apply map_eq. intros i. apply option_eq. intros v. unfold forget.
  rewrite lookup_delete_Some, !map_lookup_filter_Some. simpl. set_solver.
Qed.

Lemma ack_initial_spec n pn acked m :
  0 <= pn - Z.of_nat n + 1 -> is_u32 pn ->
  ack_initial n pn acked (forget acked m)
  = (acked ++ countdown pn n, forget (acked ++ countdown pn n) m).
Proof.
  revert pn acked. induction n as [|n IH]; intros pn acked Hn Hu; simpl.
  - by rewrite app_nil_r.
  - rewrite delete_forget, countdown_S. destruct n as [|n].
    + simpl. done.
    + rewrite (u32_small (pn - 1)) by (unfold is_u32 in *; lia).
      rewrite IH by (unfold is_u32 in *; lia). by rewrite <- !app_assoc.
Qed.

Lemma ack_run_spec n cursor acked m :
  Z.of_nat n <= cursor -> cursor < 2 ^ 32 ->
  ack_run n cursor acked (forget acked m)
  = (cursor - Z.of_nat n, acked ++ countdown cursor n, forget (acked ++ countdown cursor n) m, None).
Proof.
  revert cursor acked. induction n as [|n IH]; intros cursor acked Hn Hc; simpl ack_run.
  - rewrite app_nil_r. simpl. by rewrite Z.sub_0_r.
  - rewrite (u32_small cursor), delete_forget, countdown_S by (unfold is_u32; lia).
    destruct (cursor - 1 <? 0) eqn:E; bool_props; [lia|].
    rewrite IH by lia. rewrite <- !app_assoc. simpl app. do 3 f_equal. lia.
Qed.

Lemma ack_run_fail n cursor acked m :
  0 <= cursor -> cursor < Z.of_nat n -> exists c a p, ack_run n cursor acked m = (c, a, p, Some ECursorUnderflowAcks).
Proof.
  revert cursor acked m. induction n as [|n IH]; intros cursor acked m H0 Hn; [lia|]. simpl ack_run.
  destruct (cursor - 1 <? 0) eqn:E; bool_props; [by eauto|]. apply IH; lia.
Qed.

Lemma ack_ranges_encode rs prev rc acked m :
  encodable_below prev rs = true -> prev <= 2 ^ 32 -> 0 <= rc ->
  rc + zlen rs <= MaxNACKRangesPerACK ->
  ack_ranges (encode_runs prev rs) rc (prev - 1) acked (forget acked m)
  = (forget (acked ++ flatten_runs rs) m, Ok (acked ++ flatten_runs rs)).
Proof.
  revert prev rc acked. induction rs as [|[s k] rs IH]; intros prev rc acked He Hp Hr Hc.
  { simpl. by rewrite app_nil_r. }
  cbn [encodable_below] in He. bool_props. rewrite zlen_cons in Hc.
  pose proof (zlen_nonneg rs). cbn [encode_runs app ack_ranges].
  rewrite !b2z_z2b_u8 by lia.
  destruct (MaxNACKRangesPerACK <? rc + 1) eqn:E1; bool_props; [lia|].
  destruct (prev - 1 <? prev - s - 2 + 1) eqn:E2; bool_props; [lia|].
  replace (prev - 1 - (prev - s - 2 + 1)) with s by lia.
  destruct (s <? 0) eqn:E3; bool_props; [lia|].
  destruct (s + 1 <? Z.of_nat k + 1) eqn:E4; bool_props; [lia|].
  replace (Z.to_nat (Z.of_nat k + 1)) with (S k) by lia.
  rewrite ack_run_spec by lia.
  replace (s - Z.of_nat (S k)) with (s - Z.of_nat k - 1) by lia.
  rewrite IH by (done || lia). unfold flatten_runs. simpl. by rewrite <- !app_assoc.
Qed.

Lemma flatten_runs_runs l : flatten_runs (runs l) = l.
Proof.
  induction l as [|x l IH]; [done|]. simpl. destruct (runs l) as [|[s m] t].
  - unfold flatten_runs in *. simpl in *. rewrite Z.sub_0_r. by rewrite <- IH.
  - destruct (s =? x - 1) eqn:E; bool_props; unfold flatten_runs in *; cbn [fmap list_fmap concat] in *.
    + rewrite countdown_S, <- E, <- IH. done.
    + rewrite <- IH. unfold countdown at 1. simpl. by rewrite Z.sub_0_r.
Qed.

Lemma desc_app l1 l2 :
  desc l1 -> desc l2 -> (forall x y, x ∈ l1 -> y ∈ l2 -> y < x) -> desc (l1 ++ l2).
Proof.
  intros H1 H2 Hlt. induction H1 as [|x l1 H1 IH Hx]; [done|]. simpl. constructor.
  - apply IH. intros a b Ha Hb. apply Hlt; [by right|done].
  - apply Forall_app. split; [done|]. apply Forall_forall. intros y Hy.
    apply Z.lt_gt, Hlt; [by left|done].
Qed.

Lemma desc_countdown s n : desc (countdown s n).
Proof.
  revert s. induction n as [|n IH]; intros s; [constructor|]. rewrite countdown_S.
  constructor; [done|]. apply Forall_forall. intros y Hy%elem_of_countdown. lia.
Qed.

(** What a successful run over arbitrary range bytes acknowledges. *)
Lemma ack_ranges_sound ranges rc cursor acked m pend r :
  ack_ranges ranges rc cursor acked (forget acked m) = (pend, Ok r) ->
  cursor < 2 ^ 32 -> 0 <= rc <= MaxNACKRangesPerACK ->
  desc acked -> (forall x, x ∈ acked -> is_u32 x /\ cursor < x) ->
  desc r /\ (forall x, x ∈ r -> is_u32 x) /\ pend = forget r m
  /\ zlen r <= zlen acked + 256 * (MaxNACKRangesPerACK - rc).
Proof.
  revert rc cursor acked. induction ranges as [ranges IH] using (induction_ltof1 _ length).
  intros rc cursor acked H Hc Hrc Hd Hin. destruct ranges as [|b0 [|b1 rest]].
  1, 2: simpl in H; injection H as <- <-; split_and!; [done| |done|lia]; intros x Hx; by apply Hin.
  cbn [ack_ranges] in H. pose proof (b2z_bound b0). pose proof (b2z_bound b1).
  destruct (MaxNACKRangesPerACK <? rc + 1) eqn:E1; bool_props; [done|].
  destruct (cursor <? b2z b0 + 1) eqn:E2; bool_props; [done|].
  set (cur := cursor - (b2z b0 + 1)) in *.
  destruct (cur <? 0) eqn:E3; bool_props; [done|].
  destruct (cur + 1 <? b2z b1 + 1) eqn:E4; bool_props; [done|].
  set (n := Z.to_nat (b2z b1 + 1)) in *. destruct (decide (Z.of_nat n <= cur)) as [Hn|Hn].
  - rewrite ack_run_spec in H by lia. apply IH in H; [|unfold ltof; simpl; lia|lia..| |].
    + rewrite zlen_app, zlen_countdown in H.
      destruct H as (? & ? & ? & ?). split_and!; [done..|lia].
    + apply desc_app; [done|apply desc_countdown|].
      intros x y Hx%Hin Hy%elem_of_countdown. lia.
    + intros x [Hx%Hin|Hx%elem_of_countdown]%elem_of_app; [split; [apply Hx|lia]|].
      unfold is_u32. lia.
  - destruct (ack_run_fail n cur acked (forget acked m)) as (c & a & p & Hf); [lia..|].
    by rewrite Hf in H.
Qed.

Lemma ack_ranges_mono ranges rc cursor acked pending pend r :
  ack_ranges ranges rc cursor acked pending = (pend, Ok r) -> zlen acked <= zlen r.
Proof.
  revert rc cursor acked pending. induction ranges as [ranges IH] using (induction_ltof1 _ length).
  intros rc cursor acked pending H. destruct ranges as [|b0 [|b1 rest]].
  1, 2: simpl in H; injection H as <- <-; lia.
  cbn [ack_ranges] in H. repeat (destruct (_ <? _) in H; [done|]).
  destruct (ack_run _ _ _ _) as [[[c a] p] [e|]] eqn:Hrun; [done|].
  apply IH in H; [|unfold ltof; simpl; lia].
  assert (zlen acked <= zlen a); [|lia]. clear IH H. revert Hrun.
  generalize (Z.to_nat (b2z b1 + 1)). intros n. generalize (cursor - (b2z b0 + 1)).
  revert acked pending. induction n as [|n IH]; intros acked pending k; simpl.
  - intros [= <- <- <-]. lia.
  - destruct (k - 1 <? 0); [done|]. intros H%IH. rewrite zlen_app in H.
    pose proof (zlen_nonneg [u32 k]). lia.
Qed.

(** ** Properties *)

(** [SortDescDedupPackets] returns the distinct packet numbers of its input
    in strictly descending order. *)
Theorem SortDescDedupPackets_spec (packets : list Z) :
  StronglySorted Z.gt (SortDescDedupPackets packets)
  /\ forall x, x ∈ SortDescDedupPackets packets <-> x ∈ packets.
Proof. apply SortDescDedup_desc. Qed.

Lemma top_run_bound x l :
  desc (x :: l) -> Forall is_u32 (x :: l) -> is_u32 (x - Z.of_nat (consecutive x l)).
Proof.
  intros Hd Hu. destruct (runs_consecutive x l Hd Hu) as [_ Hl].
  rewrite Forall_forall in Hu. apply Hu.
  destruct (consecutive x l) as [|c]; [rewrite Z.sub_0_r; by left|].
  right. rewrite Hl. apply elem_of_app. left. apply elem_of_countdown. lia.
Qed.

Lemma below_zero rs : encodable_below 0 rs = true -> rs = [].
Proof. destruct rs as [|[s m] t]; [done|]. cbn [encodable_below]. intros. bool_props. lia. Qed.

(** The block [GenerateACK] builds for encodable packets. *)
Lemma GenerateACK_block h now x l :
  SortDescDedupPackets (receivedPackets h) = x :: l -> Forall is_u32 (x :: l) ->
  ack_encodable (receivedPackets h) (maxACKDataSize h) = true ->
  let c := consecutive x l in
  (GenerateACK h now).2 = Some (mkBlock BlockTypeACK
     (be_encode 4 x ++ [z2b (Z.of_nat c)] ++ encode_runs (x - Z.of_nat c) (runs (drop c l)))).
Proof.
  intros Hs Hu He c. unfold GenerateACK.
  destruct (decide _) as [Hz|_]; [apply nil_length_inv in Hz; by rewrite Hz in Hs|].
  destruct (SortDescDedup_desc (receivedPackets h)) as [Hd _].
  unfold ack_encodable in He. rewrite Hs in *. destruct (runs_consecutive x l Hd Hu) as [Hr Hl].
  fold c in Hr, Hl. rewrite Hr in He. bool_props. cbn [snd].
  unfold countConsecutiveFromTop. change (drop 1 (x :: l)) with l.
  change ((x :: l) !!! 0%nat) with x. fold c.
  replace (Z.to_nat (1 + Z.of_nat c - 1 + 1)) with (S c) by lia.
  replace (1 + Z.of_nat c - 1) with (Z.of_nat c) by lia.
  assert (Hc : (x :: l) !!! c = x - Z.of_nat c) by (rewrite Hl; apply countdown_last).
  unfold buildACKRanges. rewrite build_loop_runs; rewrite ?Nat.sub_succ, ?Nat.sub_0_r, ?Hc;
    done || lia.
Qed.

(** What [ProcessACK] does with such a block. *)
Lemma ProcessACK_block g x c rs :
  is_u32 x -> is_u32 (x - Z.of_nat c) -> Z.of_nat c <= 255 ->
  encodable_below (x - Z.of_nat c) rs = true -> zlen rs <= MaxNACKRangesPerACK ->
  let acked := countdown x (S c) ++ flatten_runs rs in
  ProcessACK g (mkBlock BlockTypeACK
    (be_encode 4 x ++ [z2b (Z.of_nat c)] ++ encode_runs (x - Z.of_nat c) rs))
  = (set_pending g (forget acked (pendingACKs g)), Ok acked).
Proof.
  intros Hx Hb Hc He Hn acked. unfold ProcessACK. cbn [Type_ Data].
  rewrite decide_False by (intros Hf; by apply Hf).
  rewrite !zlen_app. unfold zlen at 1 2. rewrite length_be_encode. change (Z.of_nat (length [_])) with 1.
  pose proof (zlen_nonneg (encode_runs (x - Z.of_nat c) rs)).
  destruct (Z.of_nat 4 + _ <? 5) eqn:E5; bool_props; [lia|].
  assert (Hthrough : forall r, be_decode (slice 0 4 (be_encode 4 x ++ r)) = x).
  { intros r. unfold slice. rewrite drop_0, take_app_length' by (by rewrite length_be_encode).
    apply be_decode_encode_small. apply Hx. }
  assert (Hacnt : forall r, byte_at (be_encode 4 x ++ [z2b (Z.of_nat c)] ++ r) 4 = Z.of_nat c).
  { intros r. unfold byte_at. rewrite lookup_app_r by (by rewrite length_be_encode).
    rewrite length_be_encode. simpl. apply b2z_z2b_u8. lia. }
  rewrite Hthrough, Hacnt.
  destruct (x <? Z.of_nat c) eqn:Ex; bool_props; [unfold is_u32 in *; lia|].
  replace (Z.to_nat (Z.of_nat c + 1)) with (S c) by lia.
  rewrite <- (forget_nil (pendingACKs g)) at 1.
  rewrite (ack_initial_spec (S c) x []) by (done || lia). cbn [app].
  destruct (x - Z.of_nat c =? 0) eqn:Eb; bool_props.
  - rewrite Eb in He. apply below_zero in He. subst acked rs.
    unfold flatten_runs. simpl concat. by rewrite app_nil_r.
  - change (drop 5 (be_encode 4 x ++ z2b (Z.of_nat c) :: encode_runs (x - Z.of_nat c) rs))
      with (encode_runs (x - Z.of_nat c) rs).
    rewrite ack_ranges_encode by (done || (unfold is_u32 in *; lia)). done.
Qed.

(** C21: the ACK round trip. If the received packets fit the block (runs and gaps
    of at most 256 packets, at most 200 ranges within the size limit, packet 0
    only in the first run), the peer's [ProcessACK] acknowledges exactly the
    packets that were received, in descending order, and removes exactly these
    from its pending set. *)
Theorem ack_roundtrip (h g : ACKHandler) (now : Z) (block : SSU2Block) :
  Forall is_u32 (receivedPackets h) ->
  ack_encodable (receivedPackets h) (maxACKDataSize h) = true ->
  (GenerateACK h now).2 = Some block ->
  ProcessACK g block =
    (set_pending g (filter (fun kv => kv.1 ∉ receivedPackets h) (pendingACKs g)),
     Ok (SortDescDedupPackets (receivedPackets h))).
Proof.
  intros Hu He Hg. destruct (SortDescDedup_desc (receivedPackets h)) as [Hd Hin].
  destruct (SortDescDedupPackets (receivedPackets h)) as [|x l] eqn:Hs.
  { unfold ack_encodable in He. by rewrite Hs in He. }
  assert (Hu' : Forall is_u32 (x :: l)).
  { apply Forall_forall. intros y Hy%Hin. rewrite Forall_forall in Hu. by apply Hu. }
  rewrite (GenerateACK_block h now x l Hs Hu' He) in Hg. apply (inj Some) in Hg. subst block.
  pose proof (top_run_bound x l Hd Hu') as Htop.
  destruct (runs_consecutive x l Hd Hu') as [Hr Hl].
  unfold ack_encodable in He. rewrite Hs, Hr in He. bool_props.
  rewrite ProcessACK_block by (done || by inversion Hu').
  assert (Hsum : countdown x (S (consecutive x l)) ++ flatten_runs (runs (drop (consecutive x l) l))
    = x :: l) by (rewrite flatten_runs_runs, countdown_S; simpl; by rewrite <- Hl).
  rewrite Hsum. f_equal. f_equal. apply map_filter_ext. intros k v _. simpl. by rewrite Hin.
Qed.

Definition demo_receiver : ACKHandler :=
  set_received NewACKHandler [7; 12; 9; 8; 7; 3; 300; 299; 44; 298; 200; 100].

Definition demo_sender : ACKHandler :=
  AddPending (AddPending (AddPending NewACKHandler 9 0) 10 0) 300 0.

Lemma ack_roundtrip_witness :
  ProcessACK demo_sender (default (mkBlock x00 []) (GenerateACK demo_receiver 0).2) =
    (set_pending demo_sender
       (filter (fun kv => kv.1 ∉ receivedPackets demo_receiver) (pendingACKs demo_sender)),
     Ok [300; 299; 298; 200; 100; 44; 12; 9; 8; 7; 3]).
Proof.
  apply (ack_roundtrip demo_receiver demo_sender 0).
  - repeat (constructor; [split; [discriminate|reflexivity]|]). constructor.
  - vm_compute. reflexivity.
  - vm_compute. reflexivity.
Defined.

(** whatever bytes a peer puts in a block, an accepted ACK names distinct
    32-bit packet numbers in descending order, at most 256 for the first run and
    for each of 200 ranges; the pending set loses exactly these and the rest of
    the handler is unchanged. *)
Theorem ProcessACK_sound (h h' : ACKHandler) (block : SSU2Block) (acked : list Z) :
  ProcessACK h block = (h', Ok acked) ->
  h' = set_pending h (filter (fun kv => kv.1 ∉ acked) (pendingACKs h))
  /\ StronglySorted Z.gt acked /\ (forall x, x ∈ acked -> is_u32 x)
  /\ 0 < zlen acked <= 256 * (MaxNACKRangesPerACK + 1).
Proof.
  unfold ProcessACK. destruct (decide _) as [?|Ht]; [done|].
  destruct (zlen (Data block) <? 5) eqn:E1; bool_props; [done|].
  pose proof (byte_at_bound (Data block) 4) as Hb.
  pose proof (be_decode_bound (slice 0 4 (Data block))) as Hp.
  assert (Hlen : zlen (slice 0 4 (Data block)) = 4).
  { unfold slice, zlen in *. rewrite drop_0, length_take. lia. }
  rewrite Hlen in Hp. change (256 ^ 4) with (2 ^ 32) in Hp.
  set (pn := be_decode (slice 0 4 (Data block))) in *. set (c := byte_at (Data block) 4) in *.
  destruct (pn <? c) eqn:E2; bool_props; [done|].
  rewrite <- (forget_nil (pendingACKs h)) at 1. rewrite ack_initial_spec by (done || lia).
  rewrite app_nil_l. set (top := countdown pn (Z.to_nat (c + 1))).
  assert (Htop : zlen top = c + 1) by (unfold top; rewrite zlen_countdown; lia).
  assert (Hin : forall x, x ∈ top -> is_u32 x /\ pn - c - 1 < x).
  { intros x Hx%elem_of_countdown. unfold is_u32. lia. }
  destruct (pn - c =? 0) eqn:E3; bool_props.
  - intros [= <- <-]. split_and!; [done|apply desc_countdown|apply Hin|lia|].
    change MaxNACKRangesPerACK with 200. lia.
  - destruct (ack_ranges (drop 5 (Data block)) 0 (pn - c - 1) top (forget top (pendingACKs h)))
      as [pend r] eqn:Hr.
    intros [= <- ->].
    pose proof (ack_ranges_mono _ _ _ _ _ _ _ Hr) as Hm.
    apply ack_ranges_sound in Hr as (H1 & H2 & -> & H4);
      [|lia|by split|apply desc_countdown|apply Hin].
    split_and!; [done..|lia|lia].
Qed.

Lemma ProcessACK_sound_witness :
  exists h', ProcessACK demo_sender (mkBlock BlockTypeACK [x00; x00; x00; x0a; x01; x00; x00])
    = (h', Ok [10; 9; 7]) /\ StronglySorted Z.gt [10; 9; 7].
Proof.
  eexists. split; [vm_compute; reflexivity|].
  eapply (ProcessACK_sound demo_sender _
    (mkBlock BlockTypeACK [x00; x00; x00; x0a; x01; x00; x00])). vm_compute. reflexivity.
Defined.

(** ** Received sets outside the encodable class

    [ack_encodable] is not vacuous caution: each clause it has is needed. *)

Definition ack_exchange (received : list Z) : result ACKError (list Z) :=
  match (GenerateACK (set_received NewACKHandler received) 0).2 with
  | Some block => (ProcessACK NewACKHandler block).2
  | None => Ok []
  end.

(** A later range that reaches packet 0 is refused by the peer. *)
Lemma ack_range_to_zero_refused :
  ack_exchange [2; 0] = Err ECursorUnderflowAcks.
Proof. vm_compute. reflexivity. Qed.

(** A gap of more than 256 packets is clamped: a packet that never arrived is
    acknowledged, and the one that did is not. *)
Lemma ack_gap_misreported :
  ack_exchange [1000; 600] = Ok [1000; 743].
Proof. vm_compute. reflexivity. Qed.

(** A first run of 257 packets is reported as a run of one. *)
Lemma ack_run_truncated :
  ack_exchange ((fun i => 1000 + Z.of_nat i) <$> seq 0 257) = Ok [1256].
Proof. vm_compute. reflexivity. Qed.

(** 201 ranges fit the 512-byte block, and the peer refuses them. *)
Lemma ack_many_ranges_refused :
  ack_exchange ((fun i => 1 + 2 * Z.of_nat i) <$> seq 0 202) = Err (ETooManyRanges 201).
Proof. vm_compute. reflexivity. Qed.

(** [ShouldSendACK] never sends with nothing received, never before the
    minimum interval, and otherwise sends once the threshold is reached or 150
    milliseconds have passed; the delay it stores is between 10 and 150
    milliseconds, and only the delay of the handler changes. *)
Theorem ShouldSendACK_spec (h : ACKHandler) (rtt now : Z) :
  let waited := time_sub now (lastACKTime h) in
  let h' := (ShouldSendACK h rtt now).1 in
  ((ShouldSendACK h rtt now).2 = true ->
     receivedPackets h <> [] /\ minACKInterval <= waited
     /\ (10 * Millisecond <= waited \/ ackThreshold h <= zlen (receivedPackets h)))
  /\ (receivedPackets h <> [] ->
      150 * Millisecond <= waited \/ minACKInterval <= waited /\ ackThreshold h <= zlen (receivedPackets h) ->
      (ShouldSendACK h rtt now).2 = true)
  /\ (receivedPackets h <> [] -> 10 * Millisecond <= ackDelay h' <= 150 * Millisecond)
  /\ receivedPackets h' = receivedPackets h /\ pendingACKs h' = pendingACKs h
  /\ lastACKTime h' = lastACKTime h.
Proof.
  cbv zeta. unfold ShouldSendACK, minACKInterval, Millisecond.
  destruct (decide _) as [Hnil%nil_length_inv|Hne]; cbn [fst snd].
  - rewrite Hnil. split_and!; try done.
  - assert (receivedPackets h <> []) by (intros Hn; by rewrite Hn in Hne).
    cbn [ackDelay receivedPackets pendingACKs lastACKTime ackThreshold].
    split_and!; [| |intros _; case_ifs; lia|done..].
    + intros (?%Z.leb_le & Hor%orb_prop)%andb_prop. split_and!; [done..|].
      destruct Hor as [H1%Z.leb_le|H1%Z.leb_le]; [left|by right].
      revert H1. case_ifs; lia.
    + intros _ Hor. apply andb_true_intro. rewrite orb_true_iff, !Z.leb_le. case_ifs; lia.
Qed.
