(* ===== verification/RTTEstimator.v ===== *)
(** * Round-trip time estimation

    [ssu2/reliability/rtt_estimator.go]: the estimator of RFC 6298. The source
    computes the moving averages in float64 and converts back to whole
    nanoseconds; for round trips below 2^50 ns (thirteen days) this is proved to
    be exact integer arithmetic, and the bounds of the estimates follow. *)

From stdpp Require Import base numbers list.
From S2P Require Import Prelude Float64.

#[local] Open Scope Z_scope.

Record RTTEstimator := mkRTT {
  smoothedRTT : Z;
  rttVariance : Z;
  minRTT : Z;
  initialized : bool;
}.

Definition ClockGranularity : Z := Millisecond.
Definition InitialRTO : Z := 1 * Second.
Definition MinRTO : Z := 1 * Second.
Definition MaxRTO : Z := 60 * Second.

Definition NewRTTEstimator : RTTEstimator := mkRTT 0 0 0 false.

Section Estimator.
Context `{FloatConv}.

Definition Update (r : RTTEstimator) (sample : Z) : RTTEstimator :=
  if sample <=? 0 then r
  else if negb (initialized r) then mkRTT sample (Z.quot sample 2) sample true
  else
    let diff := if smoothedRTT r <? sample then i64 (sample - smoothedRTT r)
                else i64 (smoothedRTT r - sample) in
    mkRTT
      (f2i (fadd (fmul (f64 (smoothedRTT r)) f64_0_875) (fmul (f64 sample) f64_0_125)))
      (f2i (fadd (fmul (f64 (rttVariance r)) f64_0_75) (fmul (f64 diff) f64_0_25)))
      (if sample <? minRTT r then sample else minRTT r)
      true.

Definition RTTEstimator_GetRTO (r : RTTEstimator) : Z :=
  if negb (initialized r) then InitialRTO
  else
    let variance := f2i (fmul (f64 4) (f64 (rttVariance r))) in
    let variance := if variance <? ClockGranularity then ClockGranularity else variance in
    let rto := i64 (smoothedRTT r + variance) in
    if rto <? MinRTO then MinRTO
    else if MaxRTO <? rto then MaxRTO
    else rto.

Definition GetSmoothedRTT (r : RTTEstimator) : Z := smoothedRTT r.
Definition GetRTTVariance (r : RTTEstimator) : Z := rttVariance r.
Definition GetMinRTT (r : RTTEstimator) : Z := minRTT r.
Definition IsInitialized (r : RTTEstimator) : bool := initialized r.

Definition RTTEstimator_Reset (r : RTTEstimator) : RTTEstimator := mkRTT 0 0 0 false.

(** ** The estimator in integer arithmetic (RFC 6298, section 2) *)

Definition rtt_limit : Z := 2 ^ 50.

Definition ewma (r : RTTEstimator) (sample : Z) : RTTEstimator :=
  mkRTT ((7 * smoothedRTT r + sample) / 8)
        ((3 * rttVariance r + Z.abs (smoothedRTT r - sample)) / 4)
        (Z.min (minRTT r) sample)
        true.

(** The estimates after samples from [lo, hi]. *)
Definition rtt_inv (lo hi : Z) (r : RTTEstimator) : Prop :=
  initialized r = true /\ lo <= minRTT r /\ minRTT r <= smoothedRTT r <= hi
  /\ 0 <= rttVariance r <= hi.

Lemma weighted_exact a wa x b wb y k :
  0 <= a -> 0 <= b -> 0 <= wa -> 0 <= wb -> 0 <= k <= 100 ->
  a < 2 ^ 53 -> b < 2 ^ 53 -> wa < 2 ^ 53 -> wb < 2 ^ 53 -> a * wa + b * wb < 2 ^ 53 ->
  x = canon wa (- k) -> y = canon wb (- k) ->
  f2i (fadd (fmul (f64 a) x) (fmul (f64 b) y)) = (a * wa + b * wb) / 2 ^ k.
Proof.
  intros Ha Hb Hwa Hwb Hk La Lb Lwa Lwb Hs -> ->.
  rewrite !f64_exact, !fmul_exact by (unfold fits; nia).
  rewrite !Z.add_0_l, fadd_exact by (unfold fits; nia).
  by rewrite f2i_exact by nia.
Qed.

(** The float64 computation of [Update] is exact. *)
Lemma Update_ewma (r : RTTEstimator) (sample : Z) :
  initialized r = true -> 0 < sample < rtt_limit ->
  0 <= smoothedRTT r < rtt_limit -> 0 <= rttVariance r < rtt_limit ->
  Update r sample = ewma r sample.
Proof.
  unfold rtt_limit. intros Hi Hs Hr Hv. unfold Update, ewma. rewrite Hi.
  destruct (Z.leb_spec sample 0); [lia|]. cbn [negb].
  assert (Hd : (if smoothedRTT r <? sample then i64 (sample - smoothedRTT r)
                else i64 (smoothedRTT r - sample)) = Z.abs (smoothedRTT r - sample)).
  { case_ifs; rewrite i64_small by lia; lia. }
  rewrite Hd, (weighted_exact _ 7 _ _ 1 _ 3), (weighted_exact _ 3 _ _ 1 _ 2);
    first [done|lia|idtac].
  f_equal; [f_equal; lia..|]. case_ifs; lia.
Qed.

Lemma ewma_inv lo hi r sample :
  0 < lo -> lo <= sample <= hi -> rtt_inv lo hi r -> rtt_inv lo hi (ewma r sample).
Proof.
  intros Hlo Hs (Hi & Hm & Hsr & Hv). unfold rtt_inv, ewma. cbn.
  split_and!; [done|lia| | | |];
    (apply Z.div_le_lower_bound || apply Z.div_le_upper_bound); lia.
Qed.

Lemma Update_inv lo hi r sample :
  0 < lo -> hi < rtt_limit -> lo <= sample <= hi ->
  rtt_inv lo hi r -> Update r sample = ewma r sample /\ rtt_inv lo hi (Update r sample).
Proof.
  intros Hlo Hhi Hs Hinv. pose proof Hinv as (Hi & Hm & Hsr & Hv).
  rewrite Update_ewma by (done || lia). split; [done|]. by apply ewma_inv.
Qed.

Lemma Update_first sample :
  0 < sample -> Update NewRTTEstimator sample = mkRTT sample (sample / 2) sample true.
Proof.
  intros Hs. unfold Update. simpl. destruct (Z.leb_spec sample 0); [lia|].
  by rewrite Z.quot_div_nonneg by lia.
Qed.

(** whatever valid samples (below 2^50 ns) are fed to a new estimator, it
    holds the minimum of the samples, its smoothed estimate lies between that
    minimum and the largest sample, and its variance does not exceed the latter. *)
Theorem rtt_estimates_bounded (sample : Z) (samples : list Z) (hi : Z) :
  Forall (fun x => 0 < x <= hi) (sample :: samples) -> hi < rtt_limit ->
  let r := fold_left Update (sample :: samples) NewRTTEstimator in
  minRTT r = foldr Z.min sample samples
  /\ minRTT r <= smoothedRTT r <= hi /\ 0 <= rttVariance r <= hi.
Proof.
  intros Hf Hhi. cbv zeta. inversion_clear Hf as [|? ? Hx Hxs]. cbn [fold_left].
  rewrite Update_first by lia. set (r0 := mkRTT _ _ _ _).
  assert (H0 : rtt_inv 1 hi r0).
  { unfold r0, rtt_inv. cbn. split_and!; try done; try lia.
    - apply Z.div_pos; lia.
    - apply Z.div_le_upper_bound; lia. }
  assert (Hm0 : minRTT r0 = sample) by done.
  assert (Hg : forall r, rtt_inv 1 hi r ->
    rtt_inv 1 hi (fold_left Update samples r)
    /\ minRTT (fold_left Update samples r) = foldr Z.min (minRTT r) samples).
  { clear H0 Hm0. clearbody r0. induction Hxs as [|x xs Hx' Hxs IH]; intros r Hr; [done|].
    cbn [fold_left foldr]. destruct (Update_inv 1 hi r x) as [He Hi]; [lia..|done|].
    destruct (IH _ Hi) as [H1 H2]. split; [done|]. rewrite H2, He. cbn [ewma minRTT].
    generalize (minRTT r). clear. intros m. induction xs as [|y xs IH]; cbn [foldr]; lia. }
  destruct (Hg r0 H0) as [(Hi & Hm & Hs & Hv) Hmin]. rewrite Hmin, Hm0 in *. done.
Qed.

(** C40: under a steady round trip [x] the smoothed estimate converges to it: the
    part of its error above 7 ns shrinks by the factor 7/8 with every sample. *)
Theorem rtt_converges (r : RTTEstimator) (x : Z) (n : nat) :
  initialized r = true -> 0 < x < rtt_limit ->
  0 <= smoothedRTT r < rtt_limit -> 0 <= rttVariance r < rtt_limit ->
  let r' := Nat.iter n (fun r => Update r x) r in
  8 ^ Z.of_nat n * (Z.abs (smoothedRTT r' - x) - 7)
  <= 7 ^ Z.of_nat n * (Z.abs (smoothedRTT r - x) - 7)
  /\ 0 <= rttVariance r' < rtt_limit.
Proof.
  intros Hi Hx Hs Hv. cbv zeta.
  assert (Hall : forall k, let r' := Nat.iter k (fun r => Update r x) r in
    initialized r' = true /\ 0 <= smoothedRTT r' < rtt_limit /\ 0 <= rttVariance r' < rtt_limit
    /\ 8 ^ Z.of_nat k * (Z.abs (smoothedRTT r' - x) - 7)
       <= 7 ^ Z.of_nat k * (Z.abs (smoothedRTT r - x) - 7)).
  { intros k. cbv zeta. induction k as [|k IH]; [cbn; split_and!; (done || lia)|].
    rewrite Nat.iter_succ. destruct IH as (Hi' & Hs' & Hv' & He).
    rewrite Update_ewma by done. cbn [ewma initialized smoothedRTT rttVariance].
    set (s := smoothedRTT (Nat.iter k _ r)) in *. set (v := rttVariance (Nat.iter k _ r)) in *.
    pose proof (Z.div_mod (7 * s + x) 8 ltac:(lia)) as Hd.
    pose proof (Z.mod_pos_bound (7 * s + x) 8 ltac:(lia)) as Hmb.
    pose proof (Z.div_mod (3 * v + Z.abs (s - x)) 4 ltac:(lia)) as Hd2.
    pose proof (Z.mod_pos_bound (3 * v + Z.abs (s - x)) 4 ltac:(lia)) as Hmb2.
    unfold rtt_limit in *. split_and!; [done|lia..|].
    rewrite Nat2Z.inj_succ, !Z.pow_succ_r by lia.
    set (q := (7 * s + x) / 8) in *. set (m := (7 * s + x) mod 8) in *.
    assert (8 * (Z.abs (q - x) - 7) <= 7 * (Z.abs (s - x) - 7)) by lia.
    assert (0 < 8 ^ Z.of_nat k) by lia. nia. }
  destruct (Hall n) as (_ & _ & Hv' & He). done.
Qed.

Lemma RTO_bounds (r : RTTEstimator) : MinRTO <= RTTEstimator_GetRTO r <= MaxRTO.
Proof.
  unfold RTTEstimator_GetRTO, MinRTO, MaxRTO, InitialRTO, Second. case_ifs; lia.
Qed.

(** the retransmission timeout is between 1 and 60 seconds in every state,
    and 1 second before the first sample; in the range where the arithmetic is
    exact it is SRTT + max(1 ms, 4 RTTVAR) clamped to these bounds. *)
Theorem RTO_spec (r : RTTEstimator) :
  MinRTO <= RTTEstimator_GetRTO r <= MaxRTO
  /\ (initialized r = false -> RTTEstimator_GetRTO r = InitialRTO)
  /\ (initialized r = true -> 0 <= smoothedRTT r < rtt_limit -> 0 <= rttVariance r < rtt_limit ->
      RTTEstimator_GetRTO r
      = Z.max MinRTO (Z.min MaxRTO (smoothedRTT r + Z.max ClockGranularity (4 * rttVariance r)))).
Proof.
  split; [apply RTO_bounds|].
  unfold RTTEstimator_GetRTO, rtt_limit, MinRTO, MaxRTO, InitialRTO, ClockGranularity, Second,
    Millisecond. split.
  - intros ->. done.
  - intros -> Hs Hv. cbn [negb].
    rewrite !f64_exact, fmul_exact by (unfold fits; lia).
    change (0 + 0) with (- 0). rewrite f2i_exact, Z.div_1_r by lia.
    case_ifs; rewrite ?i64_small in * by lia; lia.
Qed.
End Estimator.

Lemma rtt_estimates_bounded_witness :
  let r := @fold_left _ _ (@Update amd64_conv) [50 * Millisecond; 80 * Millisecond; 20 * Millisecond]
             NewRTTEstimator in
  minRTT r = 20 * Millisecond /\ minRTT r <= smoothedRTT r <= 80 * Millisecond.
Proof.
  destruct (rtt_estimates_bounded (H := amd64_conv) (50 * Millisecond)
    [80 * Millisecond; 20 * Millisecond] (80 * Millisecond)) as (H1 & H2 & _).
  - repeat (constructor; [split; [reflexivity|discriminate]|]). constructor.
  - reflexivity.
  - split; [exact H1|exact H2].
Defined.

Lemma rtt_converges_witness :
  8 ^ 3 * (Z.abs (smoothedRTT (Nat.iter 3 (fun r => @Update amd64_conv r 900)
                    (mkRTT 100 50 100 true)) - 900) - 7)
  <= 7 ^ 3 * (800 - 7).
Proof.
  apply (rtt_converges (H := amd64_conv) (mkRTT 100 50 100 true) 900 3);
    (reflexivity || split; (discriminate || reflexivity)).
Defined.
