(* ===== verification/Congestion.v ===== *)
(** * Congestion control

    [ssu2/reliability/congestion_control.go]: the Westwood+ controller. The
    controller holds a pointer to an RTT estimator that the connection updates;
    the operations that read it take the store of estimators as an argument.
    Go's [int] is 64 bits wide; clock readings are arguments. *)

From Stdlib Require Import Floats.SpecFloat.
From stdpp Require Import base numbers list strings relations.
From S2P Require Import Prelude Float64 Block Packet RTTEstimator.

#[local] Open Scope Z_scope.

Definition CongestionFlagRequestACK : Z := Z.shiftl 1 0.
Definition CongestionFlagECN : Z := Z.shiftl 1 1.

Inductive CongestionBlockError :=
| ENilBlock
| ENotCongestion (t : byte)
| ECongestionTooShort (n : Z).

Definition EncodeCongestionBlock (flags : byte) : SSU2Block :=
  NewSSU2Block BlockTypeCongestion [flags].

(** [None] is the nil block. *)
Definition DecodeCongestionBlock (block : option SSU2Block) : result CongestionBlockError byte :=
  match block with
  | None => Err ENilBlock
  | Some block =>
      if decide (Type_ block <> BlockTypeCongestion) then Err (ENotCongestion (Type_ block))
      else match Data block with
           | [] => Err (ECongestionTooShort 0)
           | b :: _ => Ok b
           end
  end.

Definition MinCongestionWindow : Z := 1280.
Definition InitialCongestionWindow : Z := Z.of_nat MaxPacketSizeIPv4 * 3.
Definition MaxCongestionWindow : Z := 1024 * 1024.
Definition InitialSlowStartThreshold : Z := MaxCongestionWindow.
Definition persistentCongestionMultiplier : Z := 3.

Inductive CongestionState := SlowStart | CongestionAvoidance | Recovery.

#[export] Instance CongestionState_eq_dec : EqDecision CongestionState.
Proof. solve_decision. Defined.

Definition CongestionState_String (s : CongestionState) : string :=
  match s with
  | SlowStart => "SlowStart"
  | CongestionAvoidance => "CongestionAvoidance"
  | Recovery => "Recovery"
  end.

(** A pointer to an estimator; [None] is nil. *)
Definition rtt_ptr : Type := option positive.
Definition rtt_store : Type := positive -> RTTEstimator.

Record CongestionController := mkCC {
  cwnd : Z;
  ssthresh : Z;
  state : CongestionState;
  bytesAcked : Z;
  rttEstimator : rtt_ptr;
  bytesInFlight : Z;
  bandwidthEstimate : float64;
  lastAckTime : Z;
  congestionEpochStart : Z;
  mtu : Z;
}.

Record CongestionStats := mkStats {
  CWND : Z;
  SSThresh : Z;
  State : CongestionState;
  BytesInFlight : Z;
  BandwidthEstimate : float64;
}.

Definition NewCongestionControllerWithMTU (rtt : rtt_ptr) (mtu : Z) : CongestionController :=
  let mtu := if mtu <=? 0 then Z.of_nat MaxPacketSizeIPv4 else mtu in
  mkCC (i64 (mtu * 3)) InitialSlowStartThreshold SlowStart 0 rtt 0 (S754_zero false) 0 0 mtu.

Definition NewCongestionController (rtt : rtt_ptr) : CongestionController :=
  NewCongestionControllerWithMTU rtt (Z.of_nat MaxPacketSizeIPv4).

Definition CanSend (cc : CongestionController) (packetSize : Z) : bool :=
  i64 (bytesInFlight cc + packetSize) <=? cwnd cc.

Definition AvailableWindow (cc : CongestionController) : Z :=
  let available := i64 (cwnd cc - bytesInFlight cc) in
  if available <? 0 then 0 else available.

(** Field updates. *)
Definition set_window (cc : CongestionController) (w th : Z) (s : CongestionState) (acked : Z)
    : CongestionController :=
  mkCC w th s acked (rttEstimator cc) (bytesInFlight cc) (bandwidthEstimate cc)
    (lastAckTime cc) (congestionEpochStart cc) (mtu cc).

Definition set_inflight (cc : CongestionController) (n : Z) : CongestionController :=
  mkCC (cwnd cc) (ssthresh cc) (state cc) (bytesAcked cc) (rttEstimator cc) n
    (bandwidthEstimate cc) (lastAckTime cc) (congestionEpochStart cc) (mtu cc).

Definition set_ack_clock (cc : CongestionController) (bwe : float64) (t : Z)
    : CongestionController :=
  mkCC (cwnd cc) (ssthresh cc) (state cc) (bytesAcked cc) (rttEstimator cc) (bytesInFlight cc)
    bwe t (congestionEpochStart cc) (mtu cc).

Definition set_epoch (cc : CongestionController) (t : Z) : CongestionController :=
  mkCC (cwnd cc) (ssthresh cc) (state cc) (bytesAcked cc) (rttEstimator cc) (bytesInFlight cc)
    (bandwidthEstimate cc) (lastAckTime cc) t (mtu cc).

Definition OnPacketSent (cc : CongestionController) (packetSize : Z) : CongestionController :=
  if packetSize <=? 0 then cc else set_inflight cc (i64 (bytesInFlight cc + packetSize)).

Definition handleSlowStartAck (cc : CongestionController) (ackedBytes : Z)
    : CongestionController :=
  let w := i64 (cwnd cc + ackedBytes) in
  let w := if MaxCongestionWindow <? w then MaxCongestionWindow else w in
  set_window cc w (ssthresh cc)
    (if ssthresh cc <=? w then CongestionAvoidance else state cc) (bytesAcked cc).

Definition handleCongestionAvoidanceAck (cc : CongestionController) (ackedBytes : Z)
    : CongestionController :=
  let acked := i64 (bytesAcked cc + ackedBytes) in
  let mss := if mtu cc <? MinCongestionWindow then MinCongestionWindow else mtu cc in
  let '(w, acked) :=
    if cwnd cc <=? acked then
      let w := i64 (cwnd cc + mss) in
      let acked := i64 (acked - w) in
      (w, if acked <? 0 then 0 else acked)
    else (cwnd cc, acked) in
  let w := if MaxCongestionWindow <? w then MaxCongestionWindow else w in
  set_window cc w (ssthresh cc) (state cc) acked.

(** The Westwood+ filter of [OnAck]. *)
Definition bandwidth_sample (cc : CongestionController) (ackedBytes now : Z) : float64 :=
  if lastAckTime cc =? 0 then bandwidthEstimate cc
  else
    let dt := Seconds (time_sub now (lastAckTime cc)) in
    if SFltb (S754_zero false) dt then
      let sample := fdiv (f64 ackedBytes) dt in
      if SFeqb (bandwidthEstimate cc) (S754_zero false) then sample
      else fadd (fmul f64_0_875 (bandwidthEstimate cc)) (fmul f64_0_125 sample)
    else bandwidthEstimate cc.

Definition OnAck (cc : CongestionController) (ackedBytes now : Z) : CongestionController :=
  if ackedBytes <=? 0 then cc
  else
    let cc := set_ack_clock cc (bandwidth_sample cc ackedBytes now) now in
    let n := i64 (bytesInFlight cc - ackedBytes) in
    let cc := set_inflight cc (if n <? 0 then 0 else n) in
    match state cc with
    | SlowStart => handleSlowStartAck cc ackedBytes
    | CongestionAvoidance => handleCongestionAvoidanceAck cc ackedBytes
    | Recovery => cc
    end.

Section Controller.
Context `{FloatConv}.

Definition westwoodSSThresh (store : rtt_store) (cc : CongestionController) : Z :=
  let fallback :=
    let half := Z.quot (cwnd cc) 2 in
    if half <? MinCongestionWindow then MinCongestionWindow else half in
  match rttEstimator cc with
  | Some p =>
      if SFltb (S754_zero false) (bandwidthEstimate cc) then
        let minRTT := GetMinRTT (store p) in
        if 0 <? minRTT then
          let bwWindow := f2i (fmul (bandwidthEstimate cc) (Seconds minRTT)) in
          if bwWindow <? MinCongestionWindow then MinCongestionWindow
          else if cwnd cc <? bwWindow then cwnd cc
          else bwWindow
        else fallback
      else fallback
  | None => fallback
  end.

(** The coalescing guard of [handleCongestionEvent]: within one round trip of
    the start of the epoch. *)
Definition same_epoch (store : rtt_store) (cc : CongestionController) (now : Z) : bool :=
  match rttEstimator cc with
  | Some p =>
      if congestionEpochStart cc =? 0 then false
      else
        let rtt := GetSmoothedRTT (store p) in
        (0 <? rtt) && (time_sub now (congestionEpochStart cc) <? rtt)
  | None => false
  end.

Definition handleCongestionEvent (store : rtt_store) (cc : CongestionController)
    (targetState : CongestionState) (now : Z) : CongestionController :=
  if decide (state cc = Recovery) then cc
  else if same_epoch store cc now then cc
  else
    let cc := set_epoch cc now in
    let th := westwoodSSThresh store cc in
    set_window cc th th targetState 0.

Definition OnPacketLoss (store : rtt_store) (cc : CongestionController) (now : Z)
    : CongestionController :=
  handleCongestionEvent store cc Recovery now.

Definition OnECN (store : rtt_store) (cc : CongestionController) (now : Z)
    : CongestionController :=
  handleCongestionEvent store cc CongestionAvoidance now.

Definition OnRetransmissionTimeout (store : rtt_store) (cc : CongestionController)
    : CongestionController :=
  set_inflight
    (set_window cc MinCongestionWindow (westwoodSSThresh store cc) SlowStart 0) 0.

Definition ExitRecovery (cc : CongestionController) : CongestionController :=
  if decide (state cc = Recovery)
  then set_window cc (cwnd cc) (ssthresh cc) CongestionAvoidance 0 else cc.

Definition PersistentCongestionThreshold (store : rtt_store) (cc : CongestionController) : Z :=
  match rttEstimator cc with
  | None => 3 * Second
  | Some p => i64 (persistentCongestionMultiplier * RTTEstimator_GetRTO (store p))
  end.

Definition OnPersistentCongestion (cc : CongestionController) : CongestionController :=
  set_inflight
    (set_window cc (2 * MinCongestionWindow) (2 * MinCongestionWindow) SlowStart 0) 0.

Definition DetectPersistentCongestion (store : rtt_store) (cc : CongestionController)
    (earliest latest : Z) (ackInRange : bool) : CongestionController * bool :=
  if ackInRange then (cc, false)
  else if (earliest =? 0) || (latest =? 0) then (cc, false)
  else
    let span := time_sub latest earliest in
    let span := if span <? 0 then i64 (- span) else span in
    if PersistentCongestionThreshold store cc <? span then (OnPersistentCongestion cc, true)
    else (cc, false).

Definition Reset (cc : CongestionController) : CongestionController :=
  mkCC InitialCongestionWindow InitialSlowStartThreshold SlowStart 0 (rttEstimator cc) 0
    (S754_zero false) 0 (congestionEpochStart cc) (mtu cc).

Definition GetStats (cc : CongestionController) : CongestionStats :=
  mkStats (cwnd cc) (ssthresh cc) (state cc) (bytesInFlight cc) (bandwidthEstimate cc).

Definition UpdateRTTEstimator (cc : CongestionController) (rtt : rtt_ptr)
    : CongestionController :=
  mkCC (cwnd cc) (ssthresh cc) (state cc) (bytesAcked cc) rtt (bytesInFlight cc)
    (bandwidthEstimate cc) (lastAckTime cc) (congestionEpochStart cc) (mtu cc).

Definition ShouldProbe (cc : CongestionController) : bool :=
  (cwnd cc <? Z.quot MaxCongestionWindow 2) && (bytesInFlight cc <? Z.quot (cwnd cc) 2).

Definition SetCWND (cc : CongestionController) (w : Z) : CongestionController :=
  let w := if w <? MinCongestionWindow then MinCongestionWindow
           else if MaxCongestionWindow <? w then MaxCongestionWindow else w in
  set_window cc w (ssthresh cc) (state cc) (bytesAcked cc).

Definition CongestionController_GetRTO (store : rtt_store) (cc : CongestionController) : Z :=
  match rttEstimator cc with
  | None => Second
  | Some p => RTTEstimator_GetRTO (store p)
  end.
End Controller.

(** ** Runs of the controller *)

(** The events that change a controller, with the guards under which the counters
    stay within 64 bits. *)
Inductive cc_step `{FloatConv} : CongestionController -> CongestionController -> Prop :=
| step_sent cc n : bytesInFlight cc + n < 2 ^ 63 -> cc_step cc (OnPacketSent cc n)
| step_ack cc n now : n < 2 ^ 62 -> cc_step cc (OnAck cc n now)
| step_loss store cc now : cc_step cc (OnPacketLoss store cc now)
| step_ecn store cc now : cc_step cc (OnECN store cc now)
| step_rto store cc : cc_step cc (OnRetransmissionTimeout store cc)
| step_exit cc : cc_step cc (ExitRecovery cc)
| step_persistent store cc e l a : cc_step cc (DetectPersistentCongestion store cc e l a).1
| step_reset cc : cc_step cc (Reset cc)
| step_rtt cc p : cc_step cc (UpdateRTTEstimator cc p)
| step_set cc w : cc_step cc (SetCWND cc w).

Definition cc_inv (cc : CongestionController) : Prop :=
  MinCongestionWindow <= cwnd cc <= MaxCongestionWindow
  /\ MinCongestionWindow <= ssthresh cc <= MaxCongestionWindow
  /\ 0 <= bytesInFlight cc < 2 ^ 63
  /\ 0 < mtu cc < 2 ^ 31.

Ltac cc_unfold :=
  unfold cc_inv, InitialSlowStartThreshold, InitialCongestionWindow, MinCongestionWindow,
    MaxCongestionWindow in *;
  cbn [set_window set_inflight set_ack_clock set_epoch cwnd ssthresh state bytesAcked
       rttEstimator bytesInFlight bandwidthEstimate lastAckTime congestionEpochStart mtu] in *.

Section Properties.
Context `{FloatConv}.

(** Whatever the bandwidth estimate, the new threshold lies between the minimum
    and the current window. *)
Lemma westwood_bounds store cc :
  MinCongestionWindow <= cwnd cc ->
  MinCongestionWindow <= westwoodSSThresh store cc <= cwnd cc.
Proof.
  intros Hw. unfold westwoodSSThresh. cc_unfold.
  assert (Hq : Z.quot (cwnd cc) 2 <= cwnd cc) by (apply Z.quot_le_upper_bound; lia).
  destruct (rttEstimator cc); case_ifs; lia.
Qed.

Lemma avoidance_inv cc n : cc_inv cc -> cc_inv (handleCongestionAvoidanceAck cc n).
Proof.
  intros Hinv. unfold handleCongestionAvoidanceAck. cc_unfold.
  set (mss := if _ <? _ then _ else _). assert (0 < mss < 2 ^ 31) by (unfold mss; case_ifs; lia).
  clearbody mss. destruct (cwnd cc <=? _); cc_unfold;
    rewrite ?(i64_small (cwnd cc + mss)) by lia; case_ifs; lia.
Qed.

Lemma slow_start_inv cc n : 0 < n < 2 ^ 62 -> cc_inv cc -> cc_inv (handleSlowStartAck cc n).
Proof.
  intros Hn Hinv. unfold handleSlowStartAck. cc_unfold. rewrite i64_small by lia. case_ifs; lia.
Qed.

Lemma event_inv store cc t now : cc_inv cc -> cc_inv (handleCongestionEvent store cc t now).
Proof.
  intros Hinv. unfold handleCongestionEvent. case_decide; [done|].
  destruct (same_epoch _ _ _); [done|].
  pose proof (westwood_bounds store (set_epoch cc now)). cc_unfold. lia.
Qed.

Lemma cc_step_inv cc cc' : cc_step cc cc' -> cc_inv cc -> cc_inv cc'.
Proof.
  destruct 1 as [cc n Hn|cc n now Hn| | | | |? ? ? ? ?| | |]; intros Hinv.
  - unfold OnPacketSent. destruct (Z.leb_spec n 0); [done|]. cc_unfold.
    rewrite i64_small by lia. lia.
  - unfold OnAck. destruct (Z.leb_spec n 0); [done|].
    set (cc0 := set_ack_clock _ _ _). set (cc1 := set_inflight cc0 _).
    assert (H1 : cc_inv cc1).
    { unfold cc1, cc0. cc_unfold. rewrite i64_small by lia. case_ifs; lia. }
    destruct (state cc1); [by apply slow_start_inv|by apply avoidance_inv|done].
  - by apply event_inv.
  - by apply event_inv.
  - pose proof (westwood_bounds store cc). unfold OnRetransmissionTimeout. cc_unfold. lia.
  - unfold ExitRecovery. case_decide; [|done]. done.
  - unfold DetectPersistentCongestion, OnPersistentCongestion. case_ifs; cbn [fst]; try done;
      cc_unfold; lia.
  - unfold Reset. cc_unfold. change (Z.of_nat MaxPacketSizeIPv4 * 3) with 4416. lia.
  - done.
  - unfold SetCWND. cc_unfold. case_ifs; lia.
Qed.

(** C37: starting from a controller for a realistic MTU, no sequence of sends,
    ACKs, losses, ECN marks, timeouts, resets or estimator changes takes the
    window or the threshold outside [1280, 1 MiB], or the bytes in flight below
    zero. *)
Theorem congestion_window_bounded (rtt : rtt_ptr) (m : Z) (cc : CongestionController) :
  427 <= m <= 65535 ->
  rtc cc_step (NewCongestionControllerWithMTU rtt m) cc ->
  MinCongestionWindow <= cwnd cc <= MaxCongestionWindow
  /\ MinCongestionWindow <= ssthresh cc <= MaxCongestionWindow
  /\ 0 <= bytesInFlight cc.
Proof.
  intros Hm Hr.
  assert (H0 : cc_inv (NewCongestionControllerWithMTU rtt m)).
  { unfold NewCongestionControllerWithMTU. destruct (Z.leb_spec m 0); [lia|]. cc_unfold.
    rewrite i64_small by lia. lia. }
  assert (Hinv : cc_inv cc).
  { induction Hr as [|x y z Hs Hr IH]; [done|]. apply IH. by eapply cc_step_inv. }
  cc_unfold. lia.
Qed.

(** a congestion signal never raises the window or lets the threshold exceed
    it; after the signal both are equal, at least the minimum, and further
    signals within one smoothed round trip change nothing. *)
Theorem congestion_event_coalesces (store : rtt_store) (cc : CongestionController)
    (t t' : CongestionState) (now later : Z) :
  MinCongestionWindow <= cwnd cc -> state cc <> Recovery -> same_epoch store cc now = false ->
  let cc' := handleCongestionEvent store cc t now in
  cwnd cc' = ssthresh cc' /\ MinCongestionWindow <= cwnd cc' <= cwnd cc /\ state cc' = t
  /\ bytesAcked cc' = 0
  /\ (forall p, rttEstimator cc = Some p -> 0 < now -> 0 <= later - now < smoothedRTT (store p) ->
      smoothedRTT (store p) < 2 ^ 63 -> handleCongestionEvent store cc' t' later = cc').
Proof.
  intros Hw Hs He. cbv zeta. pose proof (westwood_bounds store (set_epoch cc now) Hw) as Hb.
  set (th := westwoodSSThresh store (set_epoch cc now)) in *.
  assert (Hcc : handleCongestionEvent store cc t now = set_window (set_epoch cc now) th th t 0).
  { unfold handleCongestionEvent. by rewrite decide_False, He. }
  rewrite Hcc. cbn [cwnd ssthresh state bytesAcked set_window set_epoch] in *.
  split; [done|]. split; [done|]. split; [done|]. split; [done|].
  intros p Hp Hn Hl Hb'. unfold handleCongestionEvent. case_decide; [done|].
  assert (Hse : same_epoch store (set_window (set_epoch cc now) th th t 0) later = true);
    [|by rewrite Hse].
  unfold same_epoch. cbn [set_window set_epoch rttEstimator congestionEpochStart]. rewrite Hp.
  destruct (Z.eqb_spec now 0); [lia|]. unfold GetSmoothedRTT, time_sub, maxDuration, minDuration.
  apply andb_true_intro. rewrite !Z.ltb_lt. lia.
Qed.
(** ** Window growth *)

Definition ack_all (cc : CongestionController) (acks : list (Z * Z)) : CongestionController :=
  fold_left (fun cc '(n, now) => OnAck cc n now) acks cc.

Definition acked_total (acks : list (Z * Z)) : Z := foldr Z.add 0 acks.*1.

Lemma ack_all_cons cc n now acks : ack_all cc ((n, now) :: acks) = ack_all (OnAck cc n now) acks.
Proof. done. Qed.

Lemma acked_total_cons n now acks : acked_total ((n, now) :: acks) = n + acked_total acks.
Proof. done. Qed.

Lemma acked_total_nonneg acks : Forall (fun a => 0 < a.1) acks -> 0 <= acked_total acks.
Proof.
  induction 1 as [|[n t] acks Hn Ha IH]; [done|]. rewrite acked_total_cons. simpl in Hn. lia.
Qed.

Lemma OnAck_slow_start c k t :
  cc_inv c -> state c = SlowStart -> 0 < k < 2 ^ 62 ->
  let w := Z.min MaxCongestionWindow (cwnd c + k) in
  cc_inv (OnAck c k t) /\ cwnd (OnAck c k t) = w /\ ssthresh (OnAck c k t) = ssthresh c
  /\ state (OnAck c k t) = (if ssthresh c <=? w then CongestionAvoidance else SlowStart)
  /\ bytesInFlight (OnAck c k t) = Z.max 0 (bytesInFlight c - k).
Proof.
  intros Hi Hc Hk. split; [apply (cc_step_inv c _ (step_ack c k t ltac:(lia)) Hi)|].
  unfold OnAck. destruct (Z.leb_spec k 0); [lia|]. cc_unfold. rewrite Hc.
  unfold handleSlowStartAck. cc_unfold. rewrite !i64_small by lia. rewrite Hc.
  replace (if 1024 * 1024 <? cwnd c + k then 1024 * 1024 else cwnd c + k)
    with (Z.min (1024 * 1024) (cwnd c + k)) by (case_ifs; lia).
  split_and!; [done..|]. case_ifs; lia.
Qed.

Lemma ack_all_slow_start cc acks :
  cc_inv cc -> state cc = SlowStart -> Forall (fun a => 0 < a.1) acks ->
  cwnd cc + acked_total acks < ssthresh cc ->
  let cc' := ack_all cc acks in
  cc_inv cc' /\ cwnd cc' = cwnd cc + acked_total acks /\ state cc' = SlowStart
  /\ ssthresh cc' = ssthresh cc
  /\ bytesInFlight cc' = Z.max 0 (bytesInFlight cc - acked_total acks).
Proof.
  intros Hinv Hs Hf. revert cc Hinv Hs.
  induction Hf as [|[k t] acks Hk Hf IH]; intros cc Hinv Hs; pose proof Hinv as (Hw & Ht & Hb & _);
    unfold MaxCongestionWindow, MinCongestionWindow in *; cbv zeta.
  - change (ack_all cc []) with cc. change (acked_total []) with 0. intros _. split_and!; (done || lia).
  - rewrite acked_total_cons, ack_all_cons. intros Hth. simpl in Hk.
    pose proof (acked_total_nonneg acks Hf) as Hnn.
    destruct (OnAck_slow_start cc k t Hinv Hs ltac:(lia)) as (H0 & H1 & H2 & H3 & H4).
    unfold MaxCongestionWindow in *.
    destruct (IH (OnAck cc k t)) as (J1 & J2 & J3 & J4 & J5);
      [done|rewrite H3; case_ifs; [lia|done]|lia|].
    split_and!; [done|..]; (done || lia).
Qed.

(** slow start is exponential growth: while the window stays below the
    threshold it grows by exactly the bytes acknowledged, so that acknowledging a
    whole window doubles it; the first ACK that reaches the threshold switches to
    congestion avoidance. *)
Theorem slow_start_growth (cc : CongestionController) (acks : list (Z * Z)) (n now : Z) :
  cc_inv cc -> state cc = SlowStart -> Forall (fun a => 0 < a.1) acks ->
  cwnd cc + acked_total acks < ssthresh cc -> 0 < n < 2 ^ 62 ->
  let cc' := ack_all cc acks in
  cwnd cc' = cwnd cc + acked_total acks /\ state cc' = SlowStart
  /\ bytesInFlight cc' = Z.max 0 (bytesInFlight cc - acked_total acks)
  /\ cwnd (OnAck cc' n now) = Z.min MaxCongestionWindow (cwnd cc' + n)
  /\ (state (OnAck cc' n now) = CongestionAvoidance <-> ssthresh cc <= cwnd (OnAck cc' n now)).
Proof.
  intros Hinv Hs Hf Hth Hn. cbv zeta.
  destruct (ack_all_slow_start cc acks Hinv Hs Hf Hth) as (Hi & Hw & Hst & Ht & Hb).
  destruct (OnAck_slow_start _ n now Hi Hst Hn) as (H0 & H1 & H2 & H3 & H4).
  split_and!; [done..|]. rewrite H3, H1, Ht. case_ifs; split; (done || lia).
Qed.

(** One ACK of congestion avoidance. *)
Lemma OnAck_avoidance c k t :
  cc_inv c -> state c = CongestionAvoidance -> 0 < k -> 0 <= bytesAcked c ->
  bytesAcked c + k < 2 ^ 62 ->
  let mss := Z.max MinCongestionWindow (mtu c) in
  let b := bytesAcked c + k in
  let c' := OnAck c k t in
  cc_inv c' /\ state c' = CongestionAvoidance /\ mtu c' = mtu c
  /\ (if cwnd c <=? b
      then cwnd c' = Z.min MaxCongestionWindow (cwnd c + mss)
           /\ bytesAcked c' = Z.max 0 (b - (cwnd c + mss))
      else cwnd c' = cwnd c /\ bytesAcked c' = b).
Proof.
  intros Hi Hc Hk Hb Hs. cbv zeta.
  split; [apply (cc_step_inv c _ (step_ack c k t ltac:(lia)) Hi)|].
  unfold OnAck. destruct (Z.leb_spec k 0); [lia|]. cc_unfold. rewrite Hc.
  unfold handleCongestionAvoidanceAck. cc_unfold.
  replace (if mtu c <? 1280 then 1280 else mtu c) with (Z.max 1280 (mtu c)) by (case_ifs; lia).
  set (mss := Z.max 1280 (mtu c)). assert (0 < mss < 2 ^ 31) by lia. clearbody mss.
  rewrite (i64_small (bytesAcked c + k)) by lia.
  destruct (cwnd c <=? bytesAcked c + k) eqn:E; bool_props; cc_unfold;
    rewrite ?(i64_small (cwnd c + mss)), ?(i64_small (bytesAcked c + k - (cwnd c + mss))) by lia;
    split_and!; try done; case_ifs; lia.
Qed.

Lemma ack_all_avoidance w0 mss acks c :
  cc_inv c -> state c = CongestionAvoidance -> mss = Z.max MinCongestionWindow (mtu c) ->
  Forall (fun a => 0 < a.1) acks -> 0 <= bytesAcked c -> bytesAcked c + acked_total acks < 2 ^ 62 ->
  0 < w0 <= cwnd c ->
  let c' := ack_all c acks in
  cwnd c <= cwnd c' /\ 0 <= bytesAcked c'
  /\ w0 * (cwnd c' - cwnd c) <= mss * (bytesAcked c + acked_total acks - bytesAcked c')
  /\ (bytesAcked c < cwnd c <= bytesAcked c + acked_total acks ->
      Z.min MaxCongestionWindow (cwnd c + mss) <= cwnd c').
Proof.
  intros Hi Hs Hm Hf. revert c Hi Hs Hm.
  induction Hf as [|[k t] acks Hk Hf IH]; intros c Hi Hs Hm Hb; cbv zeta.
  - change (ack_all c []) with c. change (acked_total []) with 0. intros. split_and!; lia.
  - rewrite acked_total_cons, ack_all_cons. intros Ht Hw. simpl in Hk.
    pose proof (acked_total_nonneg acks Hf) as Hnn.
    destruct (OnAck_avoidance c k t Hi Hs Hk Hb ltac:(lia)) as (H0 & H1 & H2 & H3).
    rewrite <- Hm in H3. destruct Hi as ((_ & HM) & _). unfold MinCongestionWindow in *.
    destruct (IH (OnAck c k t) H0 H1) as (J1 & J2 & J3 & J4); [by rewrite H2|..].
    1, 2, 3: destruct (Z.leb_spec (cwnd c) (bytesAcked c + k)); lia.
    destruct (Z.leb_spec (cwnd c) (bytesAcked c + k)) as [Hle|Hlt]; destruct H3 as [H3 H4].
    + assert (w0 * (cwnd (OnAck c k t) - cwnd c)
              <= mss * (bytesAcked c + k - bytesAcked (OnAck c k t)))
      as HA by (transitivity (w0 * mss); [|rewrite (Z.mul_comm w0)]; apply Z.mul_le_mono_nonneg_l; lia).
      split_and!; lia.
    + rewrite H3, H4 in *. split_and!; lia.
Qed.

(** congestion avoidance is linear growth: acknowledging [A] bytes raises the
    window by at most one segment for each [cwnd] bytes acknowledged, and by at
    least one segment (up to the maximum) once a window's worth was acknowledged. *)
Theorem congestion_avoidance_growth (cc : CongestionController) (acks : list (Z * Z)) :
  cc_inv cc -> state cc = CongestionAvoidance -> Forall (fun a => 0 < a.1) acks ->
  0 <= bytesAcked cc -> bytesAcked cc + acked_total acks < 2 ^ 62 ->
  let mss := Z.max MinCongestionWindow (mtu cc) in
  let cc' := ack_all cc acks in
  cwnd cc <= cwnd cc'
  /\ cwnd cc * (cwnd cc' - cwnd cc) <= mss * (bytesAcked cc + acked_total acks)
  /\ (bytesAcked cc < cwnd cc <= bytesAcked cc + acked_total acks ->
      Z.min MaxCongestionWindow (cwnd cc + mss) <= cwnd cc').
Proof.
  intros Hinv Hs Hf Hb Ht. cbv zeta. pose proof Hinv as (Hw & _). unfold MinCongestionWindow in *.
  destruct (ack_all_avoidance (cwnd cc) _ acks cc Hinv Hs eq_refl Hf Hb Ht) as (H1 & H2 & H3 & H4);
    [lia|]. unfold MinCongestionWindow in *. split_and!; [done| |done].
  transitivity (Z.max 1280 (mtu cc) * (bytesAcked cc + acked_total acks - bytesAcked (ack_all cc acks)));
    [done|apply Z.mul_le_mono_nonneg_l; lia].
Qed.

(** persistent congestion is declared exactly when both send times are known,
    no packet between them was acknowledged and they are further apart than the
    threshold, which is between 3 and 180 seconds; it collapses the window to
    two minimum windows in slow start with nothing in flight, and otherwise
    nothing changes. *)
Theorem DetectPersistentCongestion_spec (store : rtt_store) (cc : CongestionController)
    (earliest latest : Z) (ackInRange : bool) :
  let '(cc', r) := DetectPersistentCongestion store cc earliest latest ackInRange in
  3 * Second <= PersistentCongestionThreshold store cc <= 180 * Second
  /\ (r = true <-> ackInRange = false /\ earliest <> 0 /\ latest <> 0
                  /\ PersistentCongestionThreshold store cc < Z.abs (latest - earliest)
                  /\ minDuration < latest - earliest)
  /\ (r = false -> cc' = cc)
  /\ (r = true -> cwnd cc' = 2 * MinCongestionWindow /\ ssthresh cc' = cwnd cc'
                  /\ state cc' = SlowStart /\ bytesInFlight cc' = 0 /\ bytesAcked cc' = 0).
Proof.
  assert (Ht : 3 * Second <= PersistentCongestionThreshold store cc <= 180 * Second).
  { unfold PersistentCongestionThreshold, persistentCongestionMultiplier, Second.
    destruct (rttEstimator cc) as [p|]; [|lia].
    destruct (RTO_bounds (store p)) as [H1 H2]. unfold MinRTO, MaxRTO, Second in *.
    rewrite i64_small by lia. lia. }
  unfold DetectPersistentCongestion.
  set (th := PersistentCongestionThreshold store cc) in *. clearbody th.
  unfold time_sub, maxDuration, minDuration, Second in *.
  destruct ackInRange; [split_and!; (done || naive_solver)|].
  destruct ((earliest =? 0) || (latest =? 0)) eqn:Ez.
  { split; [done|]. split; [|by split]. split; [done|]. intros (_ & ? & ? & _).
    apply orb_prop in Ez as [Ez|Ez]; bool_props; lia. }
  bool_props. set (span := Z.max _ _).
  assert (Hspan : (if span <? 0 then i64 (- span) else span)
    = if decide (latest - earliest <= - 2 ^ 63) then - 2 ^ 63
      else Z.min (2 ^ 63 - 1) (Z.abs (latest - earliest))).
  { destruct (decide (latest - earliest <= - 2 ^ 63)).
    - replace span with (- 2 ^ 63) by lia. done.
    - destruct (Z.ltb_spec span 0); [rewrite i64_small by lia|]; lia. }
  rewrite Hspan. set (sp := if decide _ then _ else _).
  assert (Hsp : th < sp <-> th < Z.abs (latest - earliest) /\ - 2 ^ 63 < latest - earliest).
  { unfold sp. destruct (decide _); lia. }
  clearbody sp. destruct (Z.ltb_spec th sp); (split; [done|]); (split; [|by split]);
    (split; [intros; split_and!; (done || lia)|intros; (done || lia)]).
Qed.

(** The carry-over of [handleCongestionAvoidanceAck] subtracts the window after
    the increase, so 1000 bytes acknowledged beyond the window are lost. *)
Lemma avoidance_carry_lost :
  bytesAcked (handleCongestionAvoidanceAck
    (set_window (NewCongestionController None) 4000 2000 CongestionAvoidance 0) 5000) = 0.
Proof. vm_compute. reflexivity. Qed.

(** [Reset] is not the initial state: the congestion epoch survives it, and the
    window is derived from the IPv4 MTU instead of the session's. *)
Lemma Reset_differs_from_initial store :
  let cc := NewCongestionControllerWithMTU None 1452 in
  Reset (OnECN store cc 5) <> cc
  /\ congestionEpochStart (Reset (OnECN store cc 5)) = 5
  /\ cwnd (Reset cc) = 4416 /\ cwnd cc = 4356.
Proof. vm_compute. split_and!; done. Qed.

End Properties.

(** ** Witnesses *)

Definition demo_store : rtt_store := fun _ => mkRTT (100 * Millisecond) (10 * Millisecond) (80 * Millisecond) true.

Definition demo_cc : CongestionController := NewCongestionControllerWithMTU (Some 1%positive) 1452.

Lemma congestion_window_bounded_witness :
  let cc := OnPacketLoss (H := amd64_conv) demo_store (OnAck demo_cc 1452 (7 * Second)) (8 * Second) in
  MinCongestionWindow <= cwnd cc <= MaxCongestionWindow.
Proof.
  apply (congestion_window_bounded (H := amd64_conv) (Some 1%positive) 1452).
  - split; discriminate.
  - eapply rtc_l; [apply (step_ack demo_cc 1452 (7 * Second)); reflexivity|].
    eapply rtc_l; [apply (step_loss demo_store)|]. apply rtc_refl.
Defined.

Lemma congestion_event_coalesces_witness :
  let cc' := handleCongestionEvent (H := amd64_conv) demo_store demo_cc CongestionAvoidance Second in
  handleCongestionEvent (H := amd64_conv) demo_store cc' Recovery (Second + 50 * Millisecond) = cc'.
Proof.
  eapply (congestion_event_coalesces (H := amd64_conv) demo_store demo_cc CongestionAvoidance Recovery
    Second (Second + 50 * Millisecond)); try reflexivity; try discriminate.
  split; [discriminate|reflexivity].
Defined.

Lemma slow_start_growth_witness :
  cwnd (ack_all demo_cc [(1452, Second); (2904, 2 * Second)]) = 2 * cwnd demo_cc.
Proof.
  refine (proj1 (slow_start_growth (H := amd64_conv) demo_cc [(1452, Second); (2904, 2 * Second)] 1 1 _ _ _ _ _)).
  - split_and!; (reflexivity || discriminate).
  - reflexivity.
  - repeat constructor.
  - reflexivity.
  - split; reflexivity.
Defined.

Lemma congestion_avoidance_growth_witness :
  let cc := set_window demo_cc 4356 4356 CongestionAvoidance 0 in
  4356 + 1452 <= cwnd (ack_all cc [(1452, Second); (2904, 2 * Second)]).
Proof.
  refine (proj2 (proj2 (congestion_avoidance_growth (H := amd64_conv)
    (set_window demo_cc 4356 4356 CongestionAvoidance 0) [(1452, Second); (2904, 2 * Second)] _ _ _ _ _)) _).
  - split_and!; (reflexivity || discriminate).
  - reflexivity.
  - repeat constructor.
  - discriminate.
  - reflexivity.
  - split; [reflexivity|discriminate].
Defined.
