(* ===== verification/RateLimit.v ===== *)
(** * Rate limits of the SSU2 listener

    The global bucket of retry tokens ([tokenIssuanceLimiter] of
    [ssu2/server/token_admission.go]) and the buckets per address ([ipRateLimiter] of
    [ssu2/server/listener.go]), in float64 arithmetic. A clock reading is an argument;
    Go's clock readings are compared by their monotonic part. Products and sums are
    rounded separately, as on amd64. *)

From Stdlib Require Import Floats.SpecFloat ZArith Lia Sorting.Sorted.
From stdpp Require Import base numbers list gmap strings.
From S2P Require Import Prelude Float64 FloatBounds.

#[local] Open Scope Z_scope.

(** ** Buckets *)

(** The refill of both limiters: [tokens += elapsed * rate], at most [burst]. *)
Definition refill (rate burst tokens : float64) (elapsed : Z) : float64 :=
  let tokens := fadd tokens (fmul (Seconds elapsed) rate) in
  if SFltb burst tokens then burst else tokens.

(** Their decision: [if tokens >= 1] a token is used. *)
Definition take_token (tokens : float64) : float64 * bool :=
  if SFleb (f64 1) tokens then (fsub tokens (f64 1), true) else (tokens, false).

Record tokenIssuanceLimiter := mkIssuanceLimiter {
  rate : float64;
  burst : float64;
  tokens : float64;
  lastRefill : Z;
}.

Definition newTokenIssuanceLimiter (rate burst : float64) (now : Z) : tokenIssuanceLimiter :=
  let rate := if SFltb rate (f64 0) then f64 0 else rate in
  let burst := if SFleb burst (f64 0) then (if SFltb rate (f64 1) then f64 1 else rate) else burst in
  mkIssuanceLimiter rate burst burst now.

Definition issuance_Allow (t : tokenIssuanceLimiter) (now : Z) : tokenIssuanceLimiter * bool :=
  if SFeqb (rate t) (f64 0) then (t, false)
  else
    let elapsed := time_sub now (lastRefill t) in
    let t := if SFltb (f64 0) (Seconds elapsed)
             then mkIssuanceLimiter (rate t) (burst t) (refill (rate t) (burst t) (tokens t) elapsed) now else t in
    let '(tokens, ok) := take_token (tokens t) in
    (mkIssuanceLimiter (rate t) (burst t) tokens (lastRefill t), ok).

(** ** Limits per address *)

Definition sessionRequestsPerSecond : Z := 10.
Definition sessionRateLimiterMaxIPs : Z := 10000.

Record rateLimitEntry := mkRateLimitEntry {
  entryTokens : float64;
  lastCheck : Z;
}.

Record ipRateLimiter := mkIPRateLimiter {
  entries : gmap string rateLimitEntry;
  ratePerIP : Z;
  maxIPs : Z;
}.

Definition newIPRateLimiter (rate maxIPs : Z) : ipRateLimiter := mkIPRateLimiter ∅ rate maxIPs.

(** The search for the oldest entry: the empty string stands for none so far. *)
Fixpoint oldest_ip (l : list (string * rateLimitEntry)) (oldestIP : string) (oldestTime : Z) : string :=
  match l with
  | [] => oldestIP
  | (k, v) :: l =>
      if bool_decide (oldestIP = EmptyString) || (lastCheck v <? oldestTime) then oldest_ip l k (lastCheck v)
      else oldest_ip l oldestIP oldestTime
  end.

Section PerIP.
Context {R : GoRange string rateLimitEntry}.

Definition ip_Allow (rl : ipRateLimiter) (ip : string) (now : Z) : ipRateLimiter * bool :=
  match entries rl !! ip with
  | None =>
      let m := if maxIPs rl <=? Z.of_nat (size (entries rl))
               then delete (oldest_ip (go_range (entries rl)) EmptyString 0) (entries rl) else entries rl in
      (mkIPRateLimiter (<[ip := mkRateLimitEntry (fsub (f64 (ratePerIP rl)) (f64 1)) now]> m) (ratePerIP rl) (maxIPs rl), true)
  | Some entry =>
      let '(tokens, ok) := take_token (refill (f64 (ratePerIP rl)) (f64 (ratePerIP rl)) (entryTokens entry)
                             (time_sub now (lastCheck entry))) in
      (mkIPRateLimiter (<[ip := mkRateLimitEntry tokens now]> (entries rl)) (ratePerIP rl) (maxIPs rl), ok)
  end.

(** Several requests, each with its address and time, and their answers. *)
Fixpoint ip_requests (rl : ipRateLimiter) (calls : list (string * Z)) : ipRateLimiter * list bool :=
  match calls with
  | [] => (rl, [])
  | (ip, now) :: calls =>
      let '(rl, ok) := ip_Allow rl ip now in
      let '(rl, oks) := ip_requests rl calls in (rl, ok :: oks)
  end.
End PerIP.

Fixpoint issuance_requests (t : tokenIssuanceLimiter) (nows : list Z) : tokenIssuanceLimiter * list bool :=
  match nows with
  | [] => (t, [])
  | now :: nows =>
      let '(t, ok) := issuance_Allow t now in
      let '(t, oks) := issuance_requests t nows in (t, ok :: oks)
  end.

(** The number of requests that were allowed. *)
Definition allowed (oks : list bool) : Z := zlen (List.filter (fun ok => ok) oks).

(** ** The bucket *)

(** A rate or a capacity that is positive and of reasonable size: 2^-48 to 2^53. *)
Definition quantity (f : float64) : Prop := normal (-100) 0 f /\ 0 < units f.

Definition bucket (burst t : float64) : Prop := normal (-200) 0 t /\ units t <= units burst.

Lemma quantity_below f : quantity f -> units f < 2 ^ 53 * U.
Proof.
  intros [Hn Hp]. destruct f as [| | |s m e]; cbn in Hn; try done. destruct Hn as (-> & Hm & He). cbn [units]. unfold U.
  assert (2 ^ (e + unit_exp) <= 2 ^ unit_exp) by (apply Z.pow_le_mono_r; lia). assert (0 < 2 ^ (e + unit_exp)) by (unfold unit_exp; lia). nia.
Qed.

Section Bucket.
Context (r b t : float64) (d : Z) (Hr : quantity r) (Hb : quantity b) (Ht : bucket b t) (Hd : 0 <= d < 2 ^ 63).

Lemma increment_bounds :
  normal (-168) 53 (fmul (Seconds d) r) /\ 2 ^ 156 * (Second * units (fmul (Seconds d) r)) <= (2 ^ 52 + 1) ^ 3 * (d * units r).
Proof.
  destruct (Seconds_bounds d Hd) as (Hs & Hsu & _). destruct Hr as [Hrn Hrp].
  destruct (fmul_bounds (-120) (-1) (-100) 0 (Seconds d) r) as [Hin Hiu]; [done..|].
  split; [eapply normal_weaken; [exact Hin|lia|lia]|].
  assert (HU : 0 < U) by done. apply (Z.mul_le_mono_pos_r _ _ U); [done|].
  set (i := units (fmul _ _)) in *. set (s := units (Seconds d)) in *. set (R := units r) in *. clearbody i s R.
  transitivity (2 ^ 104 * Second * ((2 ^ 52 + 1) * (s * R))); [unfold Second; lia|].
  transitivity ((2 ^ 52 + 1) * R * ((2 ^ 52 + 1) ^ 2 * (d * U))); [|lia].
  replace (2 ^ 104 * Second * ((2 ^ 52 + 1) * (s * R))) with ((2 ^ 52 + 1) * R * (2 ^ 104 * (Second * s))) by ring.
  apply Z.mul_le_mono_nonneg_l; [lia|done].
Qed.

Lemma sum_bounds (x := fadd t (fmul (Seconds d) r)) :
  normal (-200) 55 x /\ 2 ^ 52 * (Second * units x) <= (2 ^ 52 + 1) * (Second * units t) + (2 ^ 52 + 8) * (d * units r).
Proof.
  destruct increment_bounds as [Hin Hiu]. destruct Ht as [Htn Htb].
  destruct (fadd_bounds (-200) 0 (-168) 53 t (fmul (Seconds d) r)) as [Hxn Hxu]; [done..|].
  split; [eapply normal_weaken; [exact Hxn|lia|lia]|]. fold x in Hxu.
  assert (0 <= d * units r) by (apply Z.mul_nonneg_nonneg; [lia|apply units_nonneg]).
  set (i := units (fmul _ _)) in *. set (y := d * units r) in *. clearbody i y x. unfold Second in *. lia.
Qed.

Lemma refill_bounds (t' := refill r b t d) :
  bucket b t' /\ 2 ^ 52 * (Second * units t') <= (2 ^ 52 + 1) * (Second * units t) + (2 ^ 52 + 8) * (d * units r).
Proof.
  destruct sum_bounds as [Hxn Hxu]. unfold t', refill. set (x := fadd _ _) in *.
  destruct Hb as [Hbn Hbp]. rewrite (SFltb_units (-100) 0 (-200) 55) by done.
  destruct (Z.ltb_spec (units b) (units x)).
  - split; [split; [by eapply normal_weaken|done]|]. unfold Second in *. lia.
  - split; [|done]. split; [|done]. apply (normal_small _ 55 53); try done. pose proof (quantity_below b Hb). lia.
Qed.

(** A second refills at least one token when the rate and the capacity are at least one. *)
Lemma refill_whole : Second <= d -> U <= units r -> U <= units b -> U <= units (refill r b t d).
Proof.
  intros Hsec Hr1 Hb1. destruct sum_bounds as [Hxn _]. destruct increment_bounds as [Hin _].
  destruct (Seconds_bounds d Hd) as (Hs & _ & Hsw). destruct Hr as [Hrn Hrp], Ht as [Htn _], Hb as [Hbn _].
  assert (HU : 0 < U) by done. assert (1 <= d / Second) by (apply Z.div_le_lower_bound; unfold Second in *; lia).
  assert (1 * U <= units (fmul (Seconds d) r)).
  { apply (fmul_whole (-120) (-1) (-100) 0); try done. nia. }
  assert (1 * U <= units (fadd t (fmul (Seconds d) r))).
  { apply (fadd_whole (-200) 0 (-168) 53); try done. pose proof (units_nonneg t). lia. }
  unfold refill. set (x := fadd _ _) in *. rewrite (SFltb_units (-100) 0 (-200) 55) by done.
  destruct (Z.ltb_spec (units b) (units x)); lia.
Qed.
End Bucket.

Lemma take_token_spec b t :
  bucket b t ->
  bucket b (take_token t).1 /\ units t = units (take_token t).1 + (if (take_token t).2 then U else 0)
  /\ (take_token t).2 = bool_decide (U <= units t).
Proof.
  intros [Hn Hu]. unfold take_token. rewrite (SFleb_units (-52) 0 (-200) 0) by done.
  change (units (f64 1)) with U. destruct (Z.leb_spec U (units t)) as [Hle|Hlt]; cbn [fst snd].
  - destruct (fsub_one (-200) t) as [Hn' Hu']; [done..|]. rewrite bool_decide_eq_true_2 by done.
    split_and!; [|lia|done]. split; [by eapply normal_weaken|]. assert (0 < U) by done. lia.
  - rewrite bool_decide_eq_false_2 by lia. split_and!; [done|lia|done].
Qed.

(** ** Signs *)

Definition not_positive (f : float64) : bool :=
  match f with S754_finite false _ _ | S754_infinity false => false | _ => true end.

Lemma normalize_not_positive z e : z <= 0 -> not_positive (binary_normalize 53 1024 z e false) = true.
Proof.
  intros Hz. destruct z as [|p|p]; [done|lia|]. cbn [binary_normalize]. unfold binary_round, binary_round_aux.
  destruct (shl_align _ _ _) as [mz ez]. destruct (shr_fexp _ _ _ _ _) as [mrs e1].
  destruct (shr_fexp _ _ _ _ _) as [mrs' e2]. destruct (shr_m mrs'); [done| |done]. by destruct (_ <=? _).
Qed.

Lemma Seconds_not_positive d : d <= 0 -> SFltb (f64 0) (Seconds d) = false.
Proof.
  intros Hd. assert (Hn : not_positive (Seconds d) = true).
  { unfold Seconds. set (q := Z.quot d Second). set (r := Z.rem d Second).
    assert (q <= 0) by (unfold q; rewrite <- (Z.opp_involutive d), Z.quot_opp_l by done; pose proof (Z.quot_pos (- d) Second); unfold Second in *; lia).
    assert (r <= 0) by (unfold r; pose proof (Z.rem_nonpos d Second); unfold Second in *; lia).
    pose proof (normalize_not_positive q 0 ltac:(lia)) as Hq. pose proof (normalize_not_positive r 0 ltac:(lia)) as Hr. fold (f64 q) in Hq. fold (f64 r) in Hr.
    assert (Hdiv : not_positive (fdiv (f64 r) (f64 1000000000)) = true).
    { change (f64 1000000000) with (S754_finite false 8388608000000000 (-23)). destruct (f64 r) as [s|[]| |[] m e]; cbn [SFdiv xorb] in *; try done.
      unfold SFdiv_core_binary. destruct (Z.div_eucl _ _) as [a b]. unfold binary_round_aux.
      destruct (shr_fexp _ _ _ _ _) as [mrs e1]. destruct (shr_fexp _ _ _ _ _) as [mrs' e2]. destruct (shr_m mrs'); [done| |done]. by destruct (_ <=? _). }
    destruct (f64 q) as [s|[]| |[] m e], (fdiv _ _) as [s'|[]| |[] m' e']; cbn [SFadd] in *; try done; [by destruct s, s'|].
    apply normalize_not_positive. cbn [cond_Zopp]. lia. }
  unfold SFltb. change (f64 0) with (S754_zero false). by destruct (Seconds d) as [s|[]| |[] m e].
Qed.

(** ** The global limit *)

Definition limiter_ok (r b : float64) (t : tokenIssuanceLimiter) : Prop := rate t = r /\ burst t = b /\ bucket b (tokens t).

Lemma allowed_cons ok oks : allowed (ok :: oks) = (if ok then 1 else 0) + allowed oks.
Proof. unfold allowed. cbn [List.filter]. destruct ok; [rewrite zlen_cons; lia|lia]. Qed.

Section Global.
Context (r b : float64) (Hr : quantity r) (Hb : quantity b).

Lemma rate_not_zero : SFeqb r (f64 0) = false.
Proof.
  destruct Hr as [Hn Hp]. unfold SFeqb. rewrite (SFcompare_units (-100) 0 (-52) 0) by done. change (units (f64 0)) with 0.
  destruct (Z.compare_spec (units r) 0); (done || lia).
Qed.

(** What one request does to the bucket. *)
Lemma issuance_step t now (t' := (issuance_Allow t now).1) (ok := (issuance_Allow t now).2) :
  limiter_ok r b t ->
  limiter_ok r b t'
  /\ (lastRefill t' = lastRefill t \/ lastRefill t < lastRefill t' /\ lastRefill t' = now)
  /\ 2 ^ 52 * (Second * (units (tokens t') + U * (if ok then 1 else 0)))
     <= (2 ^ 52 + 1) * (Second * units (tokens t)) + (2 ^ 52 + 8) * ((lastRefill t' - lastRefill t) * units r)
  /\ (ok = true -> U <= units b).
Proof.
  intros (Hrt & Hbt & Hk). unfold t', ok, issuance_Allow. rewrite Hrt, Hbt, rate_not_zero. set (d := time_sub now (lastRefill t)).
  pose proof (units_nonneg (tokens t)). destruct (SFltb (f64 0) (Seconds d)) eqn:Ed; cbn [RateLimit.tokens rate burst lastRefill].
  - assert (0 < d) by (destruct (Z.le_gt_cases d 0); [by rewrite Seconds_not_positive in Ed|done]).
    assert (Hd : 0 <= d < 2 ^ 63 /\ d <= now - lastRefill t) by (unfold d, time_sub, minDuration, maxDuration in *; lia).
    destruct (refill_bounds r b (tokens t) d) as [Hk' Hu]; [done..|tauto|].
    destruct (take_token_spec b _ Hk') as (Hk2 & Hu2 & Hok2). destruct (take_token _) as [t2 ok2]. cbn in *.
    split_and!; [done|right; lia| |intros ->; symmetry in Hok2; apply bool_decide_eq_true in Hok2; destruct Hk'; lia]. assert (d * units r <= (now - lastRefill t) * units r) by (apply Z.mul_le_mono_nonneg_r; [apply units_nonneg|lia]).
    destruct ok2; unfold Second in *; lia.
  - destruct (take_token_spec b _ Hk) as (Hk2 & Hu2 & Hok2). destruct (take_token _) as [t2 ok2]. cbn in *.
    split_and!; [done..|by left| |intros ->; symmetry in Hok2; apply bool_decide_eq_true in Hok2; destruct Hk; lia]. rewrite Z.sub_diag. destruct ok2; unfold Second in *; lia.
Qed.

Lemma issuance_run nows : forall t X,
  limiter_ok r b t -> 0 <= X -> Forall (fun now => now <= lastRefill t + X) nows ->
  limiter_ok r b (issuance_requests t nows).1
  /\ 2 ^ 52 * (Second * (U * allowed (issuance_requests t nows).2))
     <= 2 ^ 52 * (Second * units (tokens t)) + zlen nows * (Second * units b) + (2 ^ 52 + 8) * (X * units r).
Proof.
  induction nows as [|now nows IH]; intros t X Ht HX Hnow.
  - split; [done|]. change (allowed _) with 0. change (zlen []) with 0. pose proof (units_nonneg (tokens t)). pose proof (units_nonneg r).
    assert (0 <= X * units r) by lia. unfold Second. lia.
  - apply Forall_cons in Hnow as [Hn Hnow]. cbn [issuance_requests].
    destruct (issuance_step t now Ht) as (Ht' & HL & Hstep & _). destruct (issuance_Allow t now) as [t' ok]. cbn [fst snd] in *.
    set (X' := lastRefill t + X - lastRefill t').
    destruct (IH t' X') as [Hok Hrun]; [done|lia|eapply Forall_impl; [exact Hnow|]; intros x ?; cbn beta in *; lia|].
    destruct (issuance_requests t' nows) as [t2 oks]. cbn [fst snd] in *. split; [done|]. rewrite allowed_cons, zlen_cons.
    destruct Ht as (_ & _ & _ & Htb). assert (HX' : X' * units r = X * units r - (lastRefill t' - lastRefill t) * units r) by (unfold X'; ring).
    rewrite HX' in Hrun. unfold Second in *. destruct ok; lia.
Qed.
End Global.

Lemma new_limiter r b now : quantity r -> quantity b -> newTokenIssuanceLimiter r b now = mkIssuanceLimiter r b b now.
Proof.
  intros [Hr Hrp] [Hb Hbp]. unfold newTokenIssuanceLimiter. rewrite (SFltb_units (-100) 0 (-52) 0) by done.
  rewrite (SFleb_units (-100) 0 (-52) 0) by done. change (units (f64 0)) with 0.
  destruct (Z.ltb_spec (units r) 0), (Z.leb_spec (units b) 0); (done || lia).
Qed.

Lemma new_limiter_ok r b now : quantity r -> quantity b -> limiter_ok r b (newTokenIssuanceLimiter r b now).
Proof. intros Hr Hb. rewrite new_limiter by done. split_and!; [done..|]. split; [|done]. destruct Hb as [Hb _]. by eapply normal_weaken. Qed.

(** C13: However many requests for tokens arrive and whenever, the number of tokens issued in
    a time [T] is at most the capacity of the bucket and what the rate gives in that time,
    up to a relative rounding error of one part in 2^49 and of the number of requests in 2^52. *)
Theorem token_issuance_bounded (r b : float64) (t0 T : Z) (nows : list Z) :
  quantity r -> quantity b -> 0 <= T -> Forall (fun now => now <= t0 + T) nows ->
  2 ^ 52 * (Second * (U * allowed (issuance_requests (newTokenIssuanceLimiter r b t0) nows).2))
  <= (2 ^ 52 + zlen nows) * (Second * units b) + (2 ^ 52 + 8) * (T * units r).
Proof.
  intros Hr Hb HT Hn. pose proof (new_limiter_ok r b t0 Hr Hb) as Hk. rewrite new_limiter in Hk |- * by done.
  destruct (issuance_run r b Hr Hb nows (mkIssuanceLimiter r b b t0) T Hk HT Hn) as [_ H]. cbn [tokens] in H. lia.
Qed.

(** A listener that requires tokens stays reachable: with a rate and a capacity of at
    least one, whatever happened before, a request that comes a second or more after the
    last refill gets a token. *)
Theorem token_issuance_live (r b : float64) (t0 now : Z) (nows : list Z)
    (t := (issuance_requests (newTokenIssuanceLimiter r b t0) nows).1) :
  quantity r -> quantity b -> U <= units r -> U <= units b -> lastRefill t + Second <= now ->
  (issuance_Allow t now).2 = true.
Proof.
  intros Hr Hb Hr1 Hb1 Hnow. pose proof (new_limiter_ok r b t0 Hr Hb) as Hk.
  assert (Ht : limiter_ok r b t).
  { unfold t. rewrite new_limiter in Hk |- * by done. set (X := Z.max 0 (foldr Z.max t0 nows - t0)).
    apply (issuance_run r b Hr Hb nows _ X Hk); [lia|]. apply Forall_forall. intros x Hx. cbn [lastRefill].
    assert (x <= foldr Z.max t0 nows) by (clear -Hx; induction Hx as [|? ? ? ? IH]; cbn; lia). lia. }
  clearbody t. destruct Ht as (Hrt & Hbt & Hkt). unfold issuance_Allow. rewrite Hrt, Hbt, rate_not_zero by done.
  set (d := time_sub now (lastRefill t)). assert (Hd : Second <= d < 2 ^ 63) by (unfold d, time_sub, minDuration, maxDuration, Second in *; lia).
  destruct (Seconds_bounds d) as (Hs & _ & Hw); [unfold Second in *; lia|].
  assert (1 <= d / Second) by (apply Z.div_le_lower_bound; unfold Second in *; lia). assert (0 < U) by done.
  rewrite (SFltb_units (-52) 0 (-120) (-1)) by done. change (units (f64 0)) with 0. rewrite (proj2 (Z.ltb_lt _ _)) by nia.
  cbn [RateLimit.tokens rate burst]. assert (Hd0 : 0 <= d < 2 ^ 63) by (unfold Second in *; lia).
  destruct (refill_bounds r b (tokens t) d Hr Hb Hkt Hd0) as [Hk' _].
  pose proof (refill_whole r b (tokens t) d Hr Hb Hkt Hd0 ltac:(lia) Hr1 Hb1) as Hge.
  destruct (take_token_spec b _ Hk') as (_ & _ & Hok). destruct (take_token _) as [t2 ok2]. cbn in *.
  rewrite Hok. by rewrite bool_decide_eq_true_2.
Qed.

(** ** The limit per address *)

Lemma whole_quantity z : 0 < z < 2 ^ 53 -> quantity (f64 z).
Proof.
  intros Hz. split; [eapply normal_weaken; [apply f64_normal; lia|lia|lia]|]. rewrite units_f64 by lia. assert (0 < U) by done. lia.
Qed.

(** The times of the requests of an address, and their answers. *)
Definition times (ip : string) (calls : list (string * Z)) : list Z := (filter (fun c => c.1 = ip) calls).*2.

Definition answers (ip : string) (calls : list (string * Z)) (oks : list bool) : list bool :=
  (filter (fun x => x.1.1 = ip) (zip calls oks)).*2.

Section PerIPBound.
Context {R : GoRange string rateLimitEntry} (n : Z) (Hn : 0 < n < 2 ^ 53) (ip : string).

(** The tokens that an address has, and since when. *)
Definition balance (rl : ipRateLimiter) (t0 : Z) : Z * Z :=
  match entries rl !! ip with Some e => (units (entryTokens e), lastCheck e) | None => (n * U, t0) end.

Definition ip_ok (all : gset string) (rl : ipRateLimiter) : Prop :=
  ratePerIP rl = n /\ Z.of_nat (size all) <= maxIPs rl /\ dom (entries rl) ⊆ all
  /\ forall e, entries rl !! ip = Some e -> bucket (f64 n) (entryTokens e).

(** As long as there is room, nothing is evicted. *)
Lemma ip_room all rl k : ip_ok all rl -> k ∈ all -> entries rl !! k = None -> (maxIPs rl <=? Z.of_nat (size (entries rl))) = false.
Proof.
  intros (_ & Hsz & Hdom & _) Hk Hnone. apply Z.leb_gt. rewrite <- size_dom.
  assert (size (dom (entries rl)) < size all)%nat; [|lia]. apply subset_size. split; [done|].
  intros Hsub. apply Hsub in Hk. by apply not_elem_of_dom in Hnone.
Qed.

Lemma ip_other all rl k now :
  ip_ok all rl -> k ∈ all -> k <> ip ->
  ip_ok all (ip_Allow rl k now).1 /\ entries (ip_Allow rl k now).1 !! ip = entries rl !! ip.
Proof.
  intros Hok Hk Hne. pose proof Hok as (Hrate & Hsz & Hdom & Hent). unfold ip_Allow. destruct (entries rl !! k) as [e|] eqn:Ek.
  - destruct (take_token _) as [t2 ok2]. unfold ip_ok. cbn [fst entries ratePerIP maxIPs].
    rewrite lookup_insert_ne, dom_insert_L by done. split_and!; try done. set_solver.
  - rewrite (ip_room all rl k) by done. unfold ip_ok. cbn [fst entries ratePerIP maxIPs].
    rewrite lookup_insert_ne, dom_insert_L by done. split_and!; try done. set_solver.
Qed.

Lemma ip_same all rl now t0 (rl' := (ip_Allow rl ip now).1) (ok := (ip_Allow rl ip now).2) :
  ip_ok all rl -> ip ∈ all -> (balance rl t0).2 <= now ->
  ip_ok all rl' /\ (balance rl' t0).2 = now
  /\ 2 ^ 52 * (Second * ((balance rl' t0).1 + U * (if ok then 1 else 0)))
     <= 2 ^ 52 * (Second * (balance rl t0).1) + Second * (n * U) + (2 ^ 52 + 8) * ((now - (balance rl t0).2) * (n * U)).
Proof.
  intros Hok Hk. pose proof Hok as (Hrate & Hsz & Hdom & Hent). pose proof (whole_quantity n Hn) as Hq.
  assert (HU : 0 < U) by done. assert (Hun : units (f64 n) = n * U) by (apply units_f64; lia).
  unfold rl', ok, ip_Allow, balance, ip_ok. destruct (entries rl !! ip) as [e|] eqn:Ek; cbn [fst snd]; intros Hnow.
  - rewrite Hrate. set (d := time_sub now (lastCheck e)). pose proof (Hent _ eq_refl) as Hb.
    assert (Hd : 0 <= d < 2 ^ 63 /\ d <= now - lastCheck e) by (unfold d, time_sub, minDuration, maxDuration; lia).
    destruct (refill_bounds (f64 n) (f64 n) (entryTokens e) d) as [Hk' Hu]; [done..|tauto|].
    destruct (take_token_spec (f64 n) _ Hk') as (Hk2 & Hu2 & _). destruct (take_token _) as [t2 ok2]. cbn [fst snd entries ratePerIP maxIPs] in *.
    rewrite lookup_insert_eq, dom_insert_L. cbn [fst snd entryTokens lastCheck]. split_and!; try done; [set_solver|by intros e' [= <-]|].
    destruct Hb as [_ Hb]. rewrite Hun in Hb, Hu.
    assert (d * (n * U) <= (now - lastCheck e) * (n * U)) by (apply Z.mul_le_mono_nonneg_r; lia).
    destruct ok2; unfold Second in *; lia.
  - rewrite (ip_room all rl ip) by (done || by split_and!). cbn [fst snd entries ratePerIP maxIPs]. rewrite Hrate.
    rewrite lookup_insert_eq, dom_insert_L. cbn [fst snd entryTokens lastCheck].
    destruct (fsub_one (-52) (f64 n)) as [Hn1 Hu1]; [by apply f64_normal; lia|done|rewrite Hun; nia|]. rewrite Hu1.
    split_and!; try done; [set_solver| |].
    + intros e' He'. apply (inj Some) in He' as <-. cbn [entryTokens]. split; [by eapply normal_weaken|]. rewrite Hu1. lia.
    + rewrite Hun. assert (0 <= (now - t0) * (n * U)) by (apply Z.mul_nonneg_nonneg; lia). unfold Second. lia.
Qed.

Lemma ip_run all calls : forall rl t0 X,
  ip_ok all rl -> list_to_set calls.*1 ⊆ all -> 0 <= X ->
  StronglySorted Z.le (times ip calls) -> Forall (fun t => (balance rl t0).2 <= t <= (balance rl t0).2 + X) (times ip calls) ->
  2 ^ 52 * (Second * (U * allowed (answers ip calls (ip_requests rl calls).2)))
  <= 2 ^ 52 * (Second * (balance rl t0).1) + zlen (times ip calls) * (Second * (n * U)) + (2 ^ 52 + 8) * (X * (n * U)).
Proof.
  assert (HU : 0 < U) by done. assert (HnU : 0 <= n * U) by lia.
  induction calls as [|[k now] calls IH]; intros rl t0 X Hok Hall HX Hs Hf.
  - assert (0 <= (balance rl t0).1) by (unfold balance; destruct (_ !! _); [apply units_nonneg|done]).
    change (allowed _) with 0. change (zlen _) with 0. assert (0 <= X * (n * U)) by lia. unfold Second. lia.
  - assert (Hk : k ∈ all) by set_solver. assert (Hall' : list_to_set calls.*1 ⊆ all) by set_solver.
    unfold times, answers in *. cbn [ip_requests]. destruct (decide (k = ip)) as [->|Hne].
    + rewrite filter_cons_True in Hs, Hf |- * by done. rewrite fmap_cons in Hs, Hf |- *. cbn [snd] in *.
      apply Forall_cons in Hf as [Hnow Hf]. apply StronglySorted_inv in Hs as [Hs Hle].
      destruct (ip_same all rl now t0) as (Hok' & Hnow' & Hstep); [done|done|lia|].
      destruct (ip_Allow rl ip now) as [rl' ok]. cbn [fst snd] in *.
      specialize (IH rl' t0 ((balance rl t0).2 + X - now) Hok' Hall'). rewrite Hnow' in IH.
      destruct (ip_requests rl' calls) as [rl2 oks]. cbn [fst snd zip zip_with] in *. rewrite filter_cons_True by done.
      rewrite fmap_cons, allowed_cons, zlen_cons. cbn [snd].
      specialize (IH ltac:(lia) Hs). ospecialize (IH _).
      { rewrite Forall_forall in Hf, Hle |- *. intros x Hx. specialize (Hf x Hx). specialize (Hle x Hx). cbn beta in *. lia. }
      assert (HX' : ((balance rl t0).2 + X - now) * (n * U) = X * (n * U) - (now - (balance rl t0).2) * (n * U)) by ring.
      rewrite HX' in IH. unfold Second in *. destruct ok; lia.
    + rewrite filter_cons_False in Hs, Hf |- * by done.
      destruct (ip_other all rl k now) as [Hok' Hsame]; [done..|]. destruct (ip_Allow rl k now) as [rl' ok]. cbn [fst] in *.
      assert (Hbal : balance rl' t0 = balance rl t0) by (unfold balance; by rewrite Hsame).
      specialize (IH rl' t0 X Hok' Hall' HX Hs). rewrite Hbal in IH. specialize (IH Hf).
      destruct (ip_requests rl' calls) as [rl2 oks]. cbn [fst snd zip zip_with] in *. by rewrite filter_cons_False.
Qed.

(** However long an address was idle, it has at most one burst when it asks again. *)
Lemma ip_same_capped all rl now t0 (rl' := (ip_Allow rl ip now).1) (ok := (ip_Allow rl ip now).2) :
  ip_ok all rl -> (balance rl t0).2 <= now -> (balance rl' t0).1 + U * (if ok then 1 else 0) <= n * U.
Proof.
  intros (Hrate & _ & _ & Hent). pose proof (whole_quantity n Hn) as Hq.
  assert (HU : 0 < U) by done. assert (Hun : units (f64 n) = n * U) by (apply units_f64; lia).
  unfold rl', ok, ip_Allow, balance. destruct (entries rl !! ip) as [e|] eqn:Ek; cbn [fst snd]; intros Hnow.
  - rewrite Hrate. set (d := time_sub now (lastCheck e)). pose proof (Hent _ eq_refl) as Hb.
    assert (Hd : 0 <= d < 2 ^ 63) by (unfold d, time_sub, minDuration, maxDuration; lia).
    destruct (refill_bounds (f64 n) (f64 n) (entryTokens e) d Hq Hq Hb Hd) as [Hk' _].
    destruct (take_token_spec (f64 n) _ Hk') as (_ & Hu2 & _). destruct Hk' as [_ Hk']. destruct (take_token _) as [t2 ok2].
    cbn [fst snd entries] in *. rewrite lookup_insert_eq. cbn [fst entryTokens]. destruct ok2; lia.
  - cbn [entries]. rewrite lookup_insert_eq. cbn [fst entryTokens]. rewrite Hrate.
    destruct (fsub_one (-52) (f64 n)) as [_ Hu1]; [by apply f64_normal; lia|done|rewrite Hun; nia|]. rewrite Hu1. lia.
Qed.

(** Requests before a time leave the limiter well-formed. *)
Lemma ip_before all calls : forall rl t0,
  ip_ok all rl -> list_to_set calls.*1 ⊆ all -> StronglySorted Z.le (times ip calls) -> Forall (fun t => t <= t0) (times ip calls) ->
  (forall e, entries rl !! ip = Some e -> lastCheck e <= t0 /\ Forall (fun t => lastCheck e <= t) (times ip calls)) ->
  ip_ok all (ip_requests rl calls).1 /\ (balance (ip_requests rl calls).1 t0).2 <= t0.
Proof.
  induction calls as [|[k now] calls IH]; intros rl t0 Hok Hall Hs Hf Hlast.
  { split; [done|]. cbn. unfold balance. destruct (entries rl !! ip) as [e|] eqn:E; [|done]. cbn. by apply Hlast. }
  assert (Hk : k ∈ all) by set_solver. assert (Hall' : list_to_set calls.*1 ⊆ all) by set_solver.
  unfold times in *. cbn [ip_requests]. destruct (decide (k = ip)) as [->|Hne].
  - rewrite filter_cons_True in Hs, Hf, Hlast by done. rewrite fmap_cons in Hs, Hf, Hlast. cbn [snd] in *.
    apply Forall_cons in Hf as [Hnow Hf]. apply StronglySorted_inv in Hs as [Hs Hle].
    destruct (ip_same all rl now now) as (Hok' & Hnow' & _); [done|done| |].
    { unfold balance. destruct (entries rl !! ip) as [e|]; [|done]. destruct (Hlast e eq_refl) as [_ Hl]. by inversion Hl. }
    destruct (ip_Allow rl ip now) as [rl' ok]. cbn [fst] in *. ospecialize (IH rl' t0 Hok' Hall' Hs Hf _).
    { intros e He. unfold balance in Hnow'. rewrite He in Hnow'. cbn in Hnow'. rewrite Hnow'. by split. }
    by destruct (ip_requests rl' calls).
  - rewrite filter_cons_False in Hs, Hf, Hlast by done. destruct (ip_other all rl k now) as [Hok' Hsame]; [done..|].
    destruct (ip_Allow rl k now) as [rl' ok]. cbn [fst] in *. rewrite <- Hsame in Hlast. specialize (IH rl' t0 Hok' Hall' Hs Hf Hlast).
    by destruct (ip_requests rl' calls).
Qed.

(** The requests of a span of time. *)
Lemma ip_span all calls : forall rl t0 T,
  ip_ok all rl -> list_to_set calls.*1 ⊆ all -> 0 <= T -> (balance rl t0).2 <= t0 ->
  StronglySorted Z.le (times ip calls) -> Forall (fun t => t0 <= t <= t0 + T) (times ip calls) ->
  2 ^ 52 * (Second * (U * allowed (answers ip calls (ip_requests rl calls).2)))
  <= (2 ^ 52 + zlen (times ip calls)) * (Second * (n * U)) + (2 ^ 52 + 8) * (T * (n * U)).
Proof.
  assert (HU : 0 < U) by done. assert (HnU : 0 <= n * U) by lia.
  induction calls as [|[k now] calls IH]; intros rl t0 T Hok Hall HT Hbal Hs Hf.
  - change (allowed _) with 0. change (zlen _) with 0. assert (0 <= T * (n * U)) by lia. unfold Second. lia.
  - assert (Hk : k ∈ all) by set_solver. assert (Hall' : list_to_set calls.*1 ⊆ all) by set_solver.
    unfold times, answers in *. cbn [ip_requests]. destruct (decide (k = ip)) as [->|Hne].
    + rewrite filter_cons_True in Hs, Hf |- * by done. rewrite fmap_cons in Hs, Hf |- *. cbn [snd] in *.
      apply Forall_cons in Hf as [Hnow Hf]. apply StronglySorted_inv in Hs as [Hs Hle].
      destruct (ip_same all rl now t0) as (Hok' & Hnow' & _); [done|done|lia|].
      pose proof (ip_same_capped all rl now t0 Hok ltac:(lia)) as Hcap. destruct (ip_Allow rl ip now) as [rl' ok]. cbn [fst snd] in *.
      pose proof (ip_run all calls rl' t0 (t0 + T - now) Hok' Hall' ltac:(lia) Hs) as Hrun. rewrite Hnow' in Hrun. unfold times, answers in Hrun.
      ospecialize (Hrun _).
      { rewrite Forall_forall in Hf, Hle |- *. intros x Hx. specialize (Hf x Hx). specialize (Hle x Hx). cbn beta in *. lia. }
      destruct (ip_requests rl' calls) as [rl2 oks]. cbn [fst snd zip zip_with] in *. rewrite filter_cons_True by done.
      rewrite fmap_cons, allowed_cons, zlen_cons. cbn [snd].
      assert ((t0 + T - now) * (n * U) <= T * (n * U)) by (apply Z.mul_le_mono_nonneg_r; lia). unfold Second in *. destruct ok; lia.
    + rewrite filter_cons_False in Hs, Hf |- * by done. destruct (ip_other all rl k now) as [Hok' Hsame]; [done..|].
      destruct (ip_Allow rl k now) as [rl' ok]. cbn [fst] in *.
      assert (Hbal' : (balance rl' t0).2 <= t0) by (unfold balance; by rewrite Hsame).
      specialize (IH rl' t0 T Hok' Hall' HT Hbal' Hs Hf). destruct (ip_requests rl' calls) as [rl2 oks].
      cbn [fst snd zip zip_with] in *. by rewrite filter_cons_False.
Qed.
End PerIPBound.

(** C12: As long as the requests come from no more addresses than the limiter can hold, every
    address is held to its rate in every span of time: whatever it and others asked for
    before, and however long it was idle, in a time [T] it is allowed one burst and what
    the rate gives in that time, up to rounding errors of one part in 2^49 and of its
    number of requests in 2^52. *)
Theorem ip_rate_bounded {R : GoRange string rateLimitEntry} (n max t0 T : Z) (ip : string) (before calls : list (string * Z)) :
  0 < n < 2 ^ 53 -> Z.of_nat (size (list_to_set (before ++ calls).*1 : gset string)) <= max -> 0 <= T ->
  StronglySorted Z.le (times ip before) -> StronglySorted Z.le (times ip calls) ->
  Forall (fun t => t <= t0) (times ip before) -> Forall (fun t => t0 <= t <= t0 + T) (times ip calls) ->
  2 ^ 52 * (Second * allowed (answers ip calls (ip_requests (ip_requests (newIPRateLimiter n max) before).1 calls).2))
  <= (2 ^ 52 + zlen (times ip calls)) * (Second * n) + (2 ^ 52 + 8) * (T * n).
Proof.
  intros Hn Hmax HT Hsb Hsc Hfb Hfc. set (all := list_to_set (before ++ calls).*1 : gset string) in *.
  assert (Hall : list_to_set before.*1 ⊆ all /\ list_to_set calls.*1 ⊆ all) by (unfold all; rewrite fmap_app, list_to_set_app_L; set_solver).
  destruct (ip_before n Hn ip all before (newIPRateLimiter n max) t0) as [Hok Hbal]; [|exact (proj1 Hall)|done|done|done|].
  { split_and!; [done|done| |done]. cbn. set_solver. }
  pose proof (ip_span n Hn ip all calls _ t0 T Hok (proj2 Hall) HT Hbal Hsc Hfc) as H.
  assert (HU : 0 < U) by done. apply (Z.mul_le_mono_pos_r _ _ U); [done|]. unfold Second in *. lia.
Qed.

(** ** The table of addresses *)

Lemma oldest_ip_scan l : forall best t, best <> EmptyString -> Forall (fun x => x.1 <> EmptyString) l ->
  scan_oldest lastCheck l (Some (best, t)) = Some (oldest_ip l best t, default t (option_map snd (scan_oldest lastCheck l (Some (best, t))))).
Proof.
  induction l as [|[k v] l IH]; intros best t Hb Hl; [done|]. apply Forall_cons in Hl as [Hk Hl]. cbn [oldest_ip scan_oldest].
  rewrite bool_decide_eq_false_2 by done. cbn [orb]. destruct (lastCheck v <? t).
  - rewrite IH by done. destruct (scan_oldest _ _ _); done.
  - by apply IH.
Qed.

Section Table.
Context {R : GoRange string rateLimitEntry}.

(** A full table makes room by dropping an address that asked longest ago. *)
Lemma oldest_ip_oldest m t :
  m <> ∅ -> m !! EmptyString = None ->
  exists e, m !! oldest_ip (go_range m) EmptyString t = Some e /\ forall k e', m !! k = Some e' -> lastCheck e <= lastCheck e'.
Proof.
  intros Hne Hempty. destruct (scan_oldest_range R lastCheck m Hne) as (k & e & Hs & Hk & Hmin).
  assert (Hl : Forall (fun x => x.1 <> EmptyString) (go_range m)).
  { apply Forall_forall. intros [k' e'] Hx%go_range_elem. cbn. intros ->. congruence. }
  destruct (go_range m) as [|[k0 e0] l] eqn:El; [done|]. apply Forall_cons in Hl as [Hk0 Hl].
  cbn [oldest_ip scan_oldest] in *. rewrite bool_decide_eq_true_2 by done. cbn [orb].
  rewrite oldest_ip_scan in Hs by done. injection Hs as -> _. by exists e.
Qed.

Lemma ip_table_bounded rl ip now :
  0 < maxIPs rl -> Z.of_nat (size (entries rl)) <= maxIPs rl -> entries rl !! EmptyString = None -> ip <> EmptyString ->
  let rl' := (ip_Allow rl ip now).1 in
  Z.of_nat (size (entries rl')) <= maxIPs rl' /\ maxIPs rl' = maxIPs rl /\ entries rl' !! EmptyString = None.
Proof.
  intros Hmax Hsz Hempty Hip. unfold ip_Allow. destruct (entries rl !! ip) as [e|] eqn:Eip.
  - destruct (take_token _) as [t ok]. cbn [fst entries maxIPs]. rewrite map_size_insert_Some, lookup_insert_ne by (done || congruence). done.
  - cbn [fst entries maxIPs]. destruct (Z.leb_spec (maxIPs rl) (Z.of_nat (size (entries rl)))) as [Hfull|Hroom].
    + destruct (oldest_ip_oldest (entries rl) 0) as (e & He & _); [by intros E; rewrite E, map_size_empty in Hfull; lia|done|].
      set (k := oldest_ip _ _ _) in *. rewrite map_size_insert_None by (rewrite lookup_delete_ne; congruence).
      rewrite lookup_insert_ne, lookup_delete_ne by congruence. rewrite map_size_delete, He. cbn. split_and!; [lia|done..].
    + rewrite map_size_insert_None, lookup_insert_ne by done. split_and!; [lia|done..].
Qed.
End Table.

(** ** Limits that do not hold as described *)

(** With a capacity below one no token is ever issued, whatever the rate. *)
Lemma no_tokens_below_one r b t0 nows :
  quantity r -> quantity b -> units b < U -> allowed (issuance_requests (newTokenIssuanceLimiter r b t0) nows).2 = 0.
Proof.
  intros Hr Hb Hlt. generalize (new_limiter_ok r b t0 Hr Hb). generalize (newTokenIssuanceLimiter r b t0).
  clear t0. induction nows as [|now nows IH]; intros t Ht; [done|]. cbn [issuance_requests].
  destruct (issuance_step r b Hr Hb t now Ht) as (Ht' & _ & _ & Hok). destruct (issuance_Allow t now) as [t' ok]. cbn [fst snd] in *.
  specialize (IH t' Ht'). destruct (issuance_requests t' nows) as [t2 oks]. cbn [snd] in *. rewrite allowed_cons, IH.
  destruct ok; [|done]. specialize (Hok eq_refl). lia.
Qed.

#[local] Instance demo_range_ip : GoRange string rateLimitEntry := range_map_to_list _ _.

(** Ten requests at once and one every tenth of a second: nineteen within a second. *)
Lemma nineteen_in_a_second :
  (ip_requests (newIPRateLimiter sessionRequestsPerSecond sessionRateLimiterMaxIPs)
    (map (fun t => ("192.0.2.1"%string, t)) (replicate 10 0 ++ map (fun k => k * (100 * Millisecond)) [1; 2; 3; 4; 5; 6; 7; 8; 9]))).2
  = replicate 19 true.
Proof. vm_compute. reflexivity. Qed.

(** An address that is refused is allowed again once another address took its place. *)
Lemma evicted_address_starts_afresh :
  (ip_requests (newIPRateLimiter 1 1) [("192.0.2.1"%string, 0); ("192.0.2.1"%string, 0); ("192.0.2.2"%string, 0); ("192.0.2.1"%string, 0)]).2
  = [true; false; true; true].
Proof. vm_compute. reflexivity. Qed.

(** ** Witnesses *)

(** Default settings, a hundred requests at once and one a second later. *)
Lemma token_issuance_bounded_witness :
  2 ^ 52 * (Second * (U * allowed (issuance_requests (newTokenIssuanceLimiter (f64 40) (f64 80) 0) (replicate 100 0 ++ [Second])).2))
  <= (2 ^ 52 + 101) * (Second * units (f64 80)) + (2 ^ 52 + 8) * (Second * units (f64 40)).
Proof.
  apply (token_issuance_bounded (f64 40) (f64 80) 0 Second (replicate 100 0 ++ [Second])); [by apply whole_quantity|by apply whole_quantity|done|].
  apply Forall_app. split; [by apply Forall_replicate|by apply Forall_singleton].
Defined.

Lemma token_issuance_live_witness :
  (issuance_Allow (issuance_requests (newTokenIssuanceLimiter (f64 40) (f64 80) 0) (replicate 100 0)).1 Second).2 = true.
Proof.
  apply (token_issuance_live (f64 40) (f64 80) 0 Second (replicate 100 0)); [by apply whole_quantity|by apply whole_quantity|done|done|].
  vm_compute. done.
Defined.

(** An hour of silence gives no more than a burst. *)
Definition demo_before : list (string * Z) := [("192.0.2.1"%string, 0); ("192.0.2.2"%string, 5)].
Definition demo_calls : list (string * Z) :=
  replicate 15 ("192.0.2.1"%string, 3600 * Second) ++ [("192.0.2.1"%string, 3601 * Second)].

Lemma ip_rate_bounded_witness :
  2 ^ 52 * (Second * allowed (answers "192.0.2.1" demo_calls (ip_requests (ip_requests (newIPRateLimiter 10 2) demo_before).1 demo_calls).2))
  <= (2 ^ 52 + 16) * (Second * 10) + (2 ^ 52 + 8) * (Second * 10).
Proof.
  apply (ip_rate_bounded 10 2 (3600 * Second) Second "192.0.2.1" demo_before demo_calls); [done| |done|..].
  - vm_compute. done.
  - change (times _ demo_before) with [0]. by repeat constructor.
  - change (times _ demo_calls) with (replicate 15 (3600 * Second) ++ [3601 * Second]). by repeat constructor.
  - change (times _ demo_before) with [0]. by repeat constructor.
  - change (times _ demo_calls) with (replicate 15 (3600 * Second) ++ [3601 * Second]). by repeat constructor.
Defined.
