(* ===== verification/FirstSight.v ===== *)
(** * The first-sight gate for retry tokens

    [firstSightTracker] of [ssu2/server/token_admission.go]: a bounded record of the
    addresses that asked for a token, in a map and a linked list ordered by last use.
    The tracker is shown to implement its description, a table of the times at which
    addresses were last seen, which evicts an address that was seen longest ago.

    The elements of Go's [container/list] are pointers: an element is a number, the
    list is the sequence of the elements, and the values of the elements are in a
    heap. Clock readings are arguments. *)

From Stdlib Require Import ZArith Lia Sorting.Sorted.
From stdpp Require Import base numbers list gmap strings sorting.
From S2P Require Import Prelude.

#[local] Open Scope Z_scope.

(** ** Data *)

Record firstSightEntry := mkSightEntry {
  addr : string;
  ts : Z;
}.

Record firstSightTracker := mkTracker {
  sightElems : gmap string nat;
  order : list nat;
  heap : gmap nat firstSightEntry;
  nextElement : nat;
  window : Z;
  maxEntries : Z;
}.

(** ** Operations *)

Definition newFirstSightTracker (window maxEntries : Z) : firstSightTracker :=
  mkTracker ∅ [] ∅ 0 (if window <=? 0 then 30 * Second else window) (if maxEntries <=? 0 then 50000 else maxEntries).

(** [list.Remove] and [list.MoveToBack] *)
Definition list_remove (e : nat) (l : list nat) : list nat := filter (fun x => x <> e) l.
Definition list_move_to_back (e : nat) (l : list nat) : list nat :=
  if decide (e ∈ l) then list_remove e l ++ [e] else l.

Definition entry_at (f : firstSightTracker) (e : nat) : firstSightEntry := default (mkSightEntry EmptyString 0) (heap f !! e).

Definition sight_evictOldestLocked (f : firstSightTracker) : firstSightTracker :=
  match order f with
  | [] => f
  | front :: _ =>
      mkTracker (delete (addr (entry_at f front)) (sightElems f)) (list_remove front (order f)) (heap f) (nextElement f) (window f) (maxEntries f)
  end.

(** The insertion at the end of [ObserveAndAllow]. *)
Definition record_sight (f : firstSightTracker) (a : string) (now : Z) : firstSightTracker :=
  let f := if maxEntries f <=? Z.of_nat (size (sightElems f)) then sight_evictOldestLocked f else f in
  let elem := nextElement f in
  mkTracker (<[a := elem]> (sightElems f)) (order f ++ [elem]) (<[elem := mkSightEntry a now]> (heap f)) (S elem) (window f) (maxEntries f).

Definition ObserveAndAllow (f : firstSightTracker) (a : string) (now : Z) : firstSightTracker * bool :=
  match sightElems f !! a with
  | Some elem =>
      let entry := entry_at f elem in
      if time_sub now (ts entry) <? window f then
        (mkTracker (sightElems f) (list_move_to_back elem (order f)) (<[elem := mkSightEntry (addr entry) now]> (heap f))
           (nextElement f) (window f) (maxEntries f), true)
      else
        let f := mkTracker (delete a (sightElems f)) (list_remove elem (order f)) (heap f) (nextElement f) (window f) (maxEntries f) in
        (record_sight f a now, false)
  | None => (record_sight f a now, false)
  end.

Definition sight_Size (f : firstSightTracker) : Z := Z.of_nat (size (sightElems f)).

(** The loop of [Cleanup]: it stops at the first entry that is not older than the cutoff. *)
Fixpoint clean_front (l : list nat) (f : firstSightTracker) (cutoff removed : Z) : firstSightTracker * Z :=
  match l with
  | [] => (f, removed)
  | e :: l =>
      let entry := entry_at f e in
      if ts entry <? cutoff then
        clean_front l (mkTracker (delete (addr entry) (sightElems f)) (list_remove e (order f)) (heap f) (nextElement f) (window f) (maxEntries f))
          cutoff (removed + 1)
      else (f, removed)
  end.

Definition sight_Cleanup (f : firstSightTracker) (now : Z) : firstSightTracker * Z :=
  clean_front (order f) f (now - window f) 0.

(** ** What the tracker promises *)

(** The times at which addresses were last seen. *)
Abbreviation Sightings := (gmap string Z).

(** Making room drops an address that was seen longest ago. *)
Inductive make_space (max : Z) : Sightings -> Sightings -> Prop :=
| space_left m : Z.of_nat (size m) < max -> make_space max m m
| space_evicted m k t : max <= Z.of_nat (size m) -> m !! k = Some t -> (forall k' t', m !! k' = Some t' -> t <= t') ->
    make_space max m (delete k m).

(** An address that was seen within the window is allowed; any other is recorded. *)
Inductive observe (w max : Z) (m : Sightings) (a : string) (now : Z) : Sightings -> bool -> Prop :=
| observe_seen t : m !! a = Some t -> now - t < w -> observe w max m a now (<[a := now]> m) true
| observe_first m' : (forall t, m !! a = Some t -> w <= now - t) -> make_space max (delete a m) m' ->
    observe w max m a now (<[a := now]> m') false.

(** A run: observations and clean-ups with their times. *)
Inductive SightOp := Observe (a : string) (now : Z) | Clean (now : Z).

Definition op_time (op : SightOp) : Z := match op with Observe _ now | Clean now => now end.

Inductive sight_spec (w max : Z) : Sightings -> list SightOp -> list bool -> Sightings -> Prop :=
| spec_done m : sight_spec w max m [] [] m
| spec_observe m a now m' ok ops oks m'' :
    observe w max m a now m' ok -> sight_spec w max m' ops oks m'' -> sight_spec w max m (Observe a now :: ops) (ok :: oks) m''
| spec_clean m now ops oks m'' :
    sight_spec w max (filter (fun at_ => now - w <= at_.2) m) ops oks m'' -> sight_spec w max m (Clean now :: ops) oks m''.

Fixpoint sight_run (f : firstSightTracker) (ops : list SightOp) : firstSightTracker * list bool :=
  match ops with
  | [] => (f, [])
  | Observe a now :: ops =>
      let '(f, ok) := ObserveAndAllow f a now in
      let '(f, oks) := sight_run f ops in (f, ok :: oks)
  | Clean now :: ops => sight_run (sight_Cleanup f now).1 ops
  end.

(** The table that a tracker stands for. *)
Definition sightings (f : firstSightTracker) : Sightings := (fun e => ts (entry_at f e)) <$> sightElems f.

(** ** Invariant *)

Record sight_inv (f : firstSightTracker) : Prop := {
  inv_nodup : NoDup (order f);
  inv_entry : forall a e, sightElems f !! a = Some e -> e ∈ order f;
  inv_order : forall e, e ∈ order f -> sightElems f !! addr (entry_at f e) = Some e;
  inv_addr : forall a e, sightElems f !! a = Some e -> addr (entry_at f e) = a;
  inv_fresh : forall e, e ∈ order f -> (e < nextElement f)%nat;
  inv_sorted : StronglySorted Z.le ((fun e => ts (entry_at f e)) <$> order f);
}.

Lemma StronglySorted_sublist {A} (R : relation A) l l' : sublist l l' -> StronglySorted R l' -> StronglySorted R l.
Proof.
  induction 1 as [|x l l' Hl IH|x l l' Hl IH]; [done| |]; intros [Hs Hf]%StronglySorted_inv; [|by apply IH].
  constructor; [by apply IH|]. eapply Forall_forall. intros y Hy. rewrite Forall_forall in Hf. apply Hf. by eapply elem_of_sublist.
Qed.

Lemma list_filter_all_ok {A} (P : A -> Prop) `{forall x, Decision (P x)} (l : list A) : (forall x, x ∈ l -> P x) -> filter P l = l.
Proof.
  induction l as [|x l IH]; [done|]. intros Hl. rewrite filter_cons_True by (apply Hl; by left). f_equal. apply IH. intros y Hy. apply Hl. by right.
Qed.

Section Steps.
Context (f : firstSightTracker) (Hf : sight_inv f).

(** The removal of an element of the list, *)
Definition drop_elem (e : nat) : firstSightTracker :=
  mkTracker (delete (addr (entry_at f e)) (sightElems f)) (list_remove e (order f)) (heap f) (nextElement f) (window f) (maxEntries f).

Lemma drop_elem_inv e : e ∈ order f -> sight_inv (drop_elem e).
Proof.
  intros He. destruct Hf as [Hnd Hent Hord Haddr Hfr Hs]. split; cbn [drop_elem sightElems order heap nextElement].
  - by apply NoDup_filter.
  - intros a e' [Hne Ha]%lookup_delete_Some. apply list_elem_of_filter. split; [|by eapply Hent].
    intros ->. apply Haddr in Ha. congruence.
  - intros e' [Hne He']%list_elem_of_filter. change (entry_at (drop_elem e) e') with (entry_at f e').
    rewrite lookup_delete_ne; [by apply Hord|]. intros E. apply Hord in He. apply Hord in He'. congruence.
  - intros a e' [_ Ha]%lookup_delete_Some. by apply Haddr.
  - intros e' [_ He']%list_elem_of_filter. by apply Hfr.
  - eapply StronglySorted_sublist; [|exact Hs]. apply fmap_sublist, sublist_filter.
Qed.

Lemma drop_elem_sightings e : sightings (drop_elem e) = delete (addr (entry_at f e)) (sightings f).
Proof. unfold sightings. cbn [drop_elem sightElems]. by rewrite fmap_delete. Qed.

Lemma drop_elem_latest e t :
  (forall x, x ∈ order f -> ts (entry_at f x) <= t) -> forall x, x ∈ order (drop_elem e) -> ts (entry_at (drop_elem e) x) <= t.
Proof. intros Ht x [_ Hx]%list_elem_of_filter. by apply Ht. Qed.

(** and the addition of one at its end. *)
Definition add_elem (e next : nat) (a : string) (now : Z) : firstSightTracker :=
  mkTracker (<[a := e]> (sightElems f)) (order f ++ [e]) (<[e := mkSightEntry a now]> (heap f)) next (window f) (maxEntries f).

Lemma entry_add e next a now x : x <> e -> entry_at (add_elem e next a now) x = entry_at f x.
Proof. intros Hx. unfold entry_at. cbn [add_elem heap]. by rewrite lookup_insert_ne. Qed.

Lemma entry_add_eq e next a now : entry_at (add_elem e next a now) e = mkSightEntry a now.
Proof. unfold entry_at. cbn [add_elem heap]. by rewrite lookup_insert_eq. Qed.

Context (e next : nat) (a : string) (now : Z) (Ha : sightElems f !! a = None) (He : e ∉ order f) (Hen : (e < next)%nat) (Hnext : (nextElement f <= next)%nat).
Context (Hnow : forall x, x ∈ order f -> ts (entry_at f x) <= now).

Lemma add_elem_inv : sight_inv (add_elem e next a now).
Proof.
  destruct Hf as [Hnd Hent Hord Haddr Hfr Hs].
  assert (Hne : forall x, x ∈ order f -> x <> e) by congruence.
  split; cbn [add_elem sightElems order nextElement].
  - apply NoDup_app. split_and!; [done| |apply NoDup_singleton]. by intros x Hx ->%list_elem_of_singleton.
  - intros a' e' [[-> ->]|[? Ha']]%lookup_insert_Some; apply elem_of_app; [right; by left|left; by eapply Hent].
  - intros x [Hx| ->%list_elem_of_singleton]%elem_of_app.
    + rewrite entry_add by auto. rewrite lookup_insert_ne; [by apply Hord|]. intros E. apply Hord in Hx. congruence.
    + rewrite entry_add_eq. apply lookup_insert_eq.
  - intros a' e' [[-> ->]|[? Ha']]%lookup_insert_Some; [by rewrite entry_add_eq|]. rewrite entry_add by (apply Hne; by eapply Hent). by apply Haddr.
  - intros x [Hx| ->%list_elem_of_singleton]%elem_of_app; [|done]. specialize (Hfr x Hx). lia.
  - rewrite fmap_app. cbn [fmap list_fmap]. rewrite entry_add_eq. cbn [ts].
    rewrite (list_fmap_ext _ (fun x => ts (entry_at f x)) (order f)); [|intros i x Hx; rewrite entry_add; [done|by apply Hne; eapply list_elem_of_lookup_2]].
    apply StronglySorted_app_2; [|done|by repeat constructor].
    intros x y (x' & -> & Hx')%list_elem_of_fmap ->%list_elem_of_singleton. by apply Hnow.
Qed.

Lemma add_elem_sightings : sightings (add_elem e next a now) = <[a := now]> (sightings f).
Proof.
  destruct Hf as [_ Hent _ _ _ _]. unfold sightings. cbn [add_elem sightElems]. rewrite fmap_insert, entry_add_eq. cbn [ts]. f_equal.
  apply map_fmap_ext. intros a' e' Ha'. rewrite entry_add; [done|]. intros ->. by apply He, (Hent a').
Qed.

Lemma add_elem_latest x : x ∈ order (add_elem e next a now) -> ts (entry_at (add_elem e next a now) x) <= now.
Proof.
  intros [Hx| ->%list_elem_of_singleton]%elem_of_app; [|by rewrite entry_add_eq].
  rewrite entry_add by congruence. by apply Hnow.
Qed.
End Steps.

(** ** Simulation *)

(** The invariant, with no sighting after a time. *)
Definition tracks (f : firstSightTracker) (t : Z) : Prop :=
  sight_inv f /\ (forall x, x ∈ order f -> ts (entry_at f x) <= t) /\ 0 < maxEntries f /\ window f <= maxDuration.

Definition same_limits (f f' : firstSightTracker) : Prop := window f' = window f /\ maxEntries f' = maxEntries f.

Lemma tracks_later f t t' : tracks f t -> t <= t' -> tracks f t'.
Proof. intros (Hf & Ht & Hl) Hle. split_and!; [done| |tauto..]. intros x Hx. specialize (Ht x Hx). lia. Qed.

Lemma sightings_elem f a e : sightElems f !! a = Some e -> sightings f !! a = Some (ts (entry_at f e)).
Proof. intros Ha. unfold sightings. by rewrite lookup_fmap, Ha. Qed.

Lemma sightings_inv f a t : sight_inv f -> sightings f !! a = Some t -> exists e, e ∈ order f /\ sightElems f !! a = Some e /\ t = ts (entry_at f e).
Proof.
  intros Hf. unfold sightings. rewrite lookup_fmap. destruct (sightElems f !! a) as [e|] eqn:E; [|done]. intros [= <-].
  exists e. split_and!; [by eapply (inv_entry f Hf)|done|done].
Qed.

Lemma front_oldest f front l e : sight_inv f -> order f = front :: l -> e ∈ order f -> ts (entry_at f front) <= ts (entry_at f e).
Proof.
  intros Hf Ho He. pose proof (inv_sorted f Hf) as Hs. rewrite Ho in Hs, He. cbn in Hs. apply StronglySorted_inv in Hs as [_ Hs].
  apply elem_of_cons in He as [->|He]; [done|]. rewrite Forall_forall in Hs. apply Hs.
  by apply (list_elem_of_fmap_2 (fun e => ts (entry_at f e))).
Qed.

Lemma evict_space f t :
  tracks f t -> maxEntries f <= Z.of_nat (size (sightElems f)) ->
  tracks (sight_evictOldestLocked f) t /\ same_limits f (sight_evictOldestLocked f)
  /\ nextElement (sight_evictOldestLocked f) = nextElement f
  /\ make_space (maxEntries f) (sightings f) (sightings (sight_evictOldestLocked f))
  /\ forall a, sightElems f !! a = None -> sightElems (sight_evictOldestLocked f) !! a = None.
Proof.
  intros (Hf & Ht & Hmax & Hw) Hfull. unfold sight_evictOldestLocked. destruct (order f) as [|front l] eqn:Ho.
  - exfalso. assert (sightElems f = ∅) as E; [|rewrite E, map_size_empty in Hfull; lia].
    apply map_empty. intros a. destruct (sightElems f !! a) as [e|] eqn:E; [|done]. apply (inv_entry f Hf) in E. rewrite Ho in E. by apply elem_of_nil in E.
  - assert (Hfr : front ∈ order f) by (rewrite Ho; by left). rewrite <- Ho. fold (drop_elem f front).
    unfold tracks, same_limits. split_and!; [by apply drop_elem_inv|by apply drop_elem_latest; rewrite Ho|done..| |].
    + rewrite drop_elem_sightings. apply space_evicted with (ts (entry_at f front)).
      * unfold sightings. by rewrite map_size_fmap.
      * by apply sightings_elem, (inv_order f Hf).
      * intros k t' (e & He & _ & ->)%sightings_inv; [|done]. by eapply front_oldest.
    + intros a Ha. cbn [drop_elem sightElems]. rewrite lookup_delete_None. by right.
Qed.

(** What [ObserveAndAllow] records for an address that is not in the table. *)
Lemma record_sight_spec f a now :
  tracks f now -> sightElems f !! a = None ->
  tracks (record_sight f a now) now /\ same_limits f (record_sight f a now)
  /\ exists m, make_space (maxEntries f) (sightings f) m /\ sightings (record_sight f a now) = <[a := now]> m.
Proof.
  intros Hf Ha. unfold record_sight.
  set (f1 := if maxEntries f <=? Z.of_nat (size (sightElems f)) then sight_evictOldestLocked f else f).
  assert (H1 : tracks f1 now /\ same_limits f f1 /\ make_space (maxEntries f) (sightings f) (sightings f1) /\ sightElems f1 !! a = None).
  { unfold f1. destruct (Z.leb_spec (maxEntries f) (Z.of_nat (size (sightElems f)))).
    - destruct (evict_space f now) as (? & ? & _ & ? & Hnone); [done..|]. split_and!; try done. by apply Hnone.
    - split_and!; try done. apply space_left. unfold sightings. by rewrite map_size_fmap. }
  destruct H1 as ((Hf1 & Ht1 & Hm1 & Hw1) & Hl1 & Hsp & Ha1). fold (add_elem f1 (nextElement f1) (S (nextElement f1)) a now).
  assert (Hnew : nextElement f1 ∉ order f1) by (intros Hx; apply (inv_fresh f1 Hf1) in Hx; lia).
  unfold tracks, same_limits. split_and!; [apply add_elem_inv; (done || lia)|by intros x Hx; apply (add_elem_latest f1)|done..|by destruct Hl1|by destruct Hl1|].
  exists (sightings f1). split; [done|]. by apply add_elem_sightings.
Qed.

Lemma touched f a e now :
  sight_inv f -> sightElems f !! a = Some e ->
  mkTracker (sightElems f) (list_move_to_back e (order f)) (<[e := mkSightEntry (addr (entry_at f e)) now]> (heap f)) (nextElement f)
    (window f) (maxEntries f) = add_elem (drop_elem f e) e (nextElement f) a now.
Proof.
  intros Hf Ha. pose proof (inv_addr f Hf a e Ha) as Had. pose proof (inv_entry f Hf a e Ha) as He. unfold add_elem, drop_elem.
  cbn [sightElems order heap window maxEntries]. rewrite Had, insert_delete_id by done. unfold list_move_to_back. by rewrite decide_True.
Qed.

Lemma window_open t now w : t <= now -> w <= maxDuration -> (time_sub now t <? w) = (now - t <? w).
Proof.
  intros Ht Hw. unfold time_sub, minDuration, maxDuration in *.
  destruct (Z.ltb_spec (now - t) w), (Z.ltb_spec (Z.max (- 2 ^ 63) (Z.min (2 ^ 63 - 1) (now - t))) w); (done || lia).
Qed.

Lemma observe_spec f t a now (f' := (ObserveAndAllow f a now).1) (ok := (ObserveAndAllow f a now).2) :
  tracks f t -> t <= now ->
  tracks f' now /\ same_limits f f' /\ observe (window f) (maxEntries f) (sightings f) a now (sightings f') ok.
Proof.
  intros Hf Hnow. apply (tracks_later f t now) in Hf; [|done]. pose proof Hf as (Hi & Ht & Hmax & Hw). unfold f', ok, ObserveAndAllow.
  destruct (sightElems f !! a) as [e|] eqn:Ea.
  - pose proof (inv_entry f Hi a e Ea) as He. pose proof (inv_addr f Hi a e Ea) as Had.
    assert (Hna : sightElems (drop_elem f e) !! a = None) by (cbn [drop_elem sightElems]; rewrite Had; apply lookup_delete_eq).
    assert (Hne : e ∉ order (drop_elem f e)) by (cbn [drop_elem order]; intros [? _]%list_elem_of_filter; done).
    assert (Hd : tracks (drop_elem f e) now) by (unfold tracks; split_and!; [by apply drop_elem_inv|by apply drop_elem_latest|done..]).
    rewrite window_open by (done || by apply Ht). destruct (Z.ltb_spec (now - ts (entry_at f e)) (window f)) as [Hin|Hout]; cbn [fst snd].
    + rewrite (touched f a) by done. destruct Hd as (Hdi & Hdt & _). pose proof (inv_fresh f Hi e He).
      unfold tracks, same_limits. split_and!; [by apply add_elem_inv|by intros x Hx; apply (add_elem_latest (drop_elem f e))|done..|].
      rewrite add_elem_sightings, drop_elem_sightings, Had, insert_delete_eq by done.
      apply observe_seen with (ts (entry_at f e)); [by apply sightings_elem|done].
    + assert (mkTracker (delete a (sightElems f)) (list_remove e (order f)) (heap f) (nextElement f) (window f) (maxEntries f)
        = drop_elem f e) as -> by (unfold drop_elem; by rewrite Had).
      destruct (record_sight_spec (drop_elem f e) a now) as (Hr & Hl & m & Hsp & Hm); [done..|].
      split_and!; [done|exact Hl|]. rewrite Hm. rewrite drop_elem_sightings, Had in Hsp. apply observe_first; [|done].
      intros t' Ht'. rewrite (sightings_elem f a e) in Ht' by done. injection Ht' as <-. lia.
  - cbn [fst snd]. destruct (record_sight_spec f a now) as (Hr & Hl & m & Hsp & Hm); [done..|]. split_and!; [done|exact Hl|].
    assert (sightings f !! a = None) as Hna by (unfold sightings; by rewrite lookup_fmap, Ea).
    rewrite Hm. apply observe_first; [by rewrite Hna|]. by rewrite delete_id.
Qed.

Lemma clean_spec cutoff l : forall f removed t,
  order f = l -> tracks f t ->
  tracks (clean_front l f cutoff removed).1 t /\ same_limits f (clean_front l f cutoff removed).1
  /\ sightings (clean_front l f cutoff removed).1 = filter (fun x => cutoff <= x.2) (sightings f).
Proof.
  induction l as [|e l IH]; intros f removed t Ho Hf; cbn [clean_front fst].
  - split_and!; try done. symmetry. apply map_filter_id. intros a ta Hta. apply sightings_inv in Hta as (e & He & _); [|apply Hf].
    rewrite Ho in He. by apply elem_of_nil in He.
  - pose proof Hf as (Hi & Ht & Hm & Hw). assert (He : e ∈ order f) by (rewrite Ho; by left).
    destruct (Z.ltb_spec (ts (entry_at f e)) cutoff) as [Hold|Hnew].
    + fold (drop_elem f e). assert (Hol : order (drop_elem f e) = l).
      { pose proof (inv_nodup f Hi) as Hnd. rewrite Ho in Hnd. apply NoDup_cons in Hnd as [Hn _]. cbn [drop_elem order]. rewrite Ho.
        unfold list_remove. rewrite filter_cons_False by (by intros []). apply list_filter_all_ok. by intros x Hx ->. }
      destruct (IH (drop_elem f e) (removed + 1) t Hol) as (Hr & Hl & Hs).
      { unfold tracks. split_and!; [by apply drop_elem_inv|by apply drop_elem_latest|done..]. }
      split_and!; [done|exact Hl|]. rewrite Hs, drop_elem_sightings.
      apply map_filter_delete_not. intros y Hy. cbn. rewrite (sightings_elem f _ e) in Hy by (by apply (inv_order f Hi)). injection Hy as <-. lia.
    + cbn [fst]. split_and!; try done. symmetry. apply map_filter_id. intros a ta (e' & He' & _ & ->)%sightings_inv; [|done]. cbn.
      pose proof (front_oldest f e l e' Hi Ho He'). lia.
Qed.

Lemma sight_run_spec ops : forall f t,
  tracks f t -> StronglySorted Z.le (t :: map op_time ops) ->
  sight_spec (window f) (maxEntries f) (sightings f) ops (sight_run f ops).2 (sightings (sight_run f ops).1)
  /\ same_limits f (sight_run f ops).1
  /\ forall t', t <= t' -> Forall (fun op => op_time op <= t') ops -> tracks (sight_run f ops).1 t'.
Proof.
  induction ops as [|op ops IH]; intros f t Hf Hs; [split_and!; [apply spec_done|done|by intros; eapply tracks_later]|]. cbn [map] in Hs.
  apply StronglySorted_inv in Hs as [Hs Hle]. apply Forall_cons in Hle as [Hle _]. destruct op as [a now|now]; cbn [sight_run op_time] in *.
  - destruct (observe_spec f t a now) as (Hf' & [Hw Hm] & Ho); [done..|]. destruct (ObserveAndAllow f a now) as [f' ok]. cbn [fst snd] in *.
    destruct (IH f' now Hf' Hs) as (Hr & [Hw' Hm'] & Ht). destruct (sight_run f' ops) as [f2 oks]. cbn [fst snd] in *.
    rewrite Hw, Hm in *. split_and!; [by eapply spec_observe|done|]. intros t' _ [Hn Hops]%Forall_cons. by apply Ht.
  - destruct (clean_spec (now - window f) (order f) f 0 now) as (Hf' & [Hw Hm] & Hc); [done|by eapply tracks_later|].
    unfold sight_Cleanup. set (f' := (clean_front _ _ _ _).1) in *. destruct (IH f' now Hf' Hs) as (Hr & [Hw' Hm'] & Ht).
    rewrite Hw, Hm, Hc in *. split_and!; [by apply spec_clean|done|]. intros t' _ [Hn Hops]%Forall_cons. by apply Ht.
Qed.

(** ** Consequences *)

Lemma new_tracks w max t : w <= maxDuration -> tracks (newFirstSightTracker w max) t.
Proof.
  intros Hw. unfold tracks, newFirstSightTracker. cbn [order window maxEntries]. split_and!.
  - split; cbn [order sightElems]; [constructor|done|by intros ? ?%elem_of_nil|done|by intros ? ?%elem_of_nil|constructor].
  - by intros x ?%elem_of_nil.
  - destruct (Z.leb_spec max 0); lia.
  - unfold maxDuration, Second in *. destruct (Z.leb_spec w 0); lia.
Qed.

Lemma run_refines w max ops (f := newFirstSightTracker w max) :
  w <= maxDuration -> StronglySorted Z.le (map op_time ops) ->
  sight_spec (window f) (maxEntries f) ∅ ops (sight_run f ops).2 (sightings (sight_run f ops).1)
  /\ same_limits f (sight_run f ops).1
  /\ forall t', Forall (fun op => op_time op <= t') ops -> tracks (sight_run f ops).1 t'.
Proof.
  intros Hw Hs. destruct ops as [|op ops]; [split_and!; [apply spec_done|done|intros; by apply new_tracks]|]. change ∅ with (sightings f).
  destruct (sight_run_spec (op :: ops) f (op_time op)) as (Hr & Hl & Ht); [by apply new_tracks| |].
  - apply StronglySorted_inv in Hs as Hs'. constructor; [done|]. constructor; [done|]. by destruct Hs'.
  - split_and!; [done..|]. intros t' Hops. apply Ht; [|done]. by apply Forall_cons in Hops as [? _].
Qed.

(** What a run has recorded was observed in it; the table is bounded. *)
Lemma spec_sound w max m ops oks m' :
  0 < max -> sight_spec w max m ops oks m' ->
  (forall a t, m' !! a = Some t -> m !! a = Some t \/ Observe a t ∈ ops)
  /\ (Z.of_nat (size m) <= max -> Z.of_nat (size m') <= max).
Proof.
  intros Hmax. induction 1 as [m|m a now m1 ok ops oks m2 Ho Hr [IH1 IH2]|m now ops oks m2 Hr [IH1 IH2]]; [by split; auto| |].
  - split.
    + intros b t [Hb|Hin]%IH1; [|right; by right]. inversion Ho as [t1 H1 H2|m0 H1 H2]; subst.
      * apply lookup_insert_Some in Hb as [[<- <-]|[_ Hb]]; [right; by left|by left].
      * apply lookup_insert_Some in Hb as [[<- <-]|[Hne Hb]]; [right; by left|]. left.
        inversion H2 as [|? k ? ? ? ?]; subst; simplify_map_eq; [done|]. by apply lookup_delete_Some in Hb as [_ [_ ?]%lookup_delete_Some].
    + intros Hm. apply IH2. inversion Ho as [t1 H1 H2|m0 H1 H2]; subst.
      * by rewrite map_size_insert_Some.
      * assert (m0 !! a = None /\ Z.of_nat (size m0) < max) as [Hna Hlt].
        { inversion H2 as [|? k t Hfull Hk]; subst; [by rewrite lookup_delete_eq|].
          rewrite lookup_delete_None, lookup_delete_eq. split; [by right|]. rewrite map_size_delete, Hk. cbn.
          pose proof (size_delete_le a m). assert (size (delete a m) <> 0%nat) by (intros E%map_size_empty_inv; by rewrite E in Hk). lia. }
        rewrite map_size_insert_None by done. lia.
  - split.
    + intros b t [[Hb _]%map_lookup_filter_Some|Hin]%IH1; [by left|right; by right].
    + intros Hm. apply IH2. etrans; [|exact Hm]. apply Nat2Z.inj_le, map_subseteq_size, map_filter_subseteq.
Qed.

(** The addresses of a run. *)
Definition observed (ops : list SightOp) : gset string :=
  list_to_set (omap (fun op => match op with Observe a _ => Some a | Clean _ => None end) ops).

Lemma observed_cons op ops : observed ops ⊆ observed (op :: ops).
Proof. unfold observed. destruct op; set_solver. Qed.

(** While there is room for all addresses, a sighting is kept for the length of the window. *)
Lemma spec_keeps w max m ops oks m' (all : gset string) now a t :
  Z.of_nat (size all) <= max -> sight_spec w max m ops oks m' ->
  dom m ⊆ all -> observed ops ⊆ all -> Forall (fun op => op_time op <= now) ops -> now - t < w ->
  (exists t', t <= t' /\ m !! a = Some t') \/ Observe a t ∈ ops -> StronglySorted Z.le (map op_time ops) ->
  (forall t', m !! a = Some t' -> Forall (fun op => t' <= op_time op) ops) ->
  exists t', t <= t' /\ m' !! a = Some t'.
Proof.
  intros Hmax. induction 1 as [m|m b tb m1 ok ops oks m2 Ho Hr IH|m tc ops oks m2 Hr IH]; intros Hdom Hobs Htime Hw Hin Hs Hle.
  - destruct Hin as [?|?%elem_of_nil]; done.
  - apply Forall_cons in Htime as [Hb Htime]. cbn [op_time map] in *. apply StronglySorted_inv in Hs as [Hs Hhd].
    assert (Hball : b ∈ all) by (apply Hobs; unfold observed; set_solver).
    assert (Hroom : forall m0, make_space max (delete b m) m0 -> m0 = delete b m).
    { intros m0 Hsp. inversion Hsp as [|? k t0 Hfull]; subst; [done|]. exfalso.
      assert (size (delete b m) < size all)%nat; [|lia]. rewrite <- size_dom, dom_delete_L. apply subset_size. set_solver. }
    assert (Hm1 : m1 = <[b := tb]> m).
    { inversion Ho as [|m0 ? Hsp]; subst; [done|]. rewrite (Hroom _ Hsp). by rewrite insert_delete_eq. }
    subst m1. apply IH; [rewrite dom_insert_L; set_solver|by etrans; [apply observed_cons|]|done|done| |done|].
    + destruct Hin as [(t' & Ht' & Hm)|[[= <- <-]|Hin]%elem_of_cons]; [left|left; exists t; by rewrite lookup_insert_eq|by right].
      destruct (decide (a = b)) as [->|Hne]; [|exists t'; by rewrite lookup_insert_ne]. exists tb. rewrite lookup_insert_eq.
      apply Hle in Hm. apply Forall_cons in Hm as [Hm _]. cbn in Hm. split; [lia|done].
    + intros t' [[<- <-]|[_ Hm]]%lookup_insert_Some; [by rewrite Forall_map in Hhd|]. apply Hle in Hm. by apply Forall_cons in Hm as [_ Hm].
  - apply Forall_cons in Htime as [Hc Htime]. cbn [op_time map] in *. apply StronglySorted_inv in Hs as [Hs Hhd].
    apply IH; [etrans; [apply dom_filter_subseteq|done]|by etrans; [apply observed_cons|]|done|done| |done|].
    + destruct Hin as [(t' & Ht' & Hm)|[?|Hin]%elem_of_cons]; [left; exists t'|done|by right].
      split; [done|]. apply map_lookup_filter_Some. split; [done|]. cbn. lia.
    + intros t' [Hm _]%map_lookup_filter_Some. apply Hle in Hm. by apply Forall_cons in Hm as [_ Hm].
Qed.

(** C14: The tracker implements its description: whatever addresses are observed and whenever
    it is cleaned up, with a clock that does not go back, its answers are those of a table of
    last sightings that evicts an address seen longest ago; it never holds more than its limit. *)
Theorem first_sight_refines (w max : Z) (ops : list SightOp) (f := newFirstSightTracker w max) :
  w <= maxDuration -> StronglySorted Z.le (map op_time ops) ->
  sight_spec (window f) (maxEntries f) ∅ ops (sight_run f ops).2 (sightings (sight_run f ops).1)
  /\ sight_Size (sight_run f ops).1 <= maxEntries f.
Proof.
  intros Hw Hs. destruct (run_refines w max ops Hw Hs) as (Hr & _ & _). split; [done|]. apply spec_sound in Hr as [_ Hr].
  - rewrite map_size_empty in Hr. unfold sight_Size. unfold sightings in Hr. rewrite map_size_fmap in Hr. apply Hr.
    cbn. destruct (Z.leb_spec max 0); lia.
  - cbn. destruct (Z.leb_spec max 0); lia.
Qed.

(** An address passes the gate only if it was observed before, within the window; and as
    long as there is room for all addresses, every address that was observed within the
    window passes. *)
Theorem first_sight_gate (w max : Z) (ops : list SightOp) (a : string) (now : Z)
    (f := newFirstSightTracker w max) (ok := (ObserveAndAllow (sight_run f ops).1 a now).2) :
  w <= maxDuration -> StronglySorted Z.le (map op_time ops) -> Forall (fun op => op_time op <= now) ops ->
  (ok = true -> exists t, Observe a t ∈ ops /\ now - t < window f)
  /\ (Z.of_nat (size (observed ops)) <= maxEntries f -> forall t, Observe a t ∈ ops -> now - t < window f -> ok = true).
Proof.
  intros Hw Hs Hn. destruct (run_refines w max ops Hw Hs) as (Hr & [Hlw Hlm] & Ht). fold f in Hr, Hlw, Hlm, Ht.
  assert (Hmax : 0 < maxEntries f) by (cbn; destruct (Z.leb_spec max 0); lia).
  destruct (observe_spec (sight_run f ops).1 now a now (Ht now Hn)) as (_ & _ & Ho); [done|]. rewrite Hlw, Hlm in Ho. fold ok in Ho. split.
  - intros Hok. destruct (spec_sound _ _ _ _ _ _ Hmax Hr) as [Hsound _].
    rewrite Hok in Ho. inversion Ho as [t Ha Hin|]; subst. exists t. split; [|done].
    apply Hsound in Ha as [Ha|Ha]; [by rewrite lookup_empty in Ha|done].
  - intros Hroom t Hin Hopen.
    destruct (spec_keeps _ _ _ _ _ _ (observed ops) now a t Hroom Hr) as (t' & Htt & Ha); [set_solver|done|done|done|by right|done|done|].
    destruct ok; [done|]. inversion Ho as [|m Hout]; subst. apply Hout in Ha. lia.
Qed.

(** ** Witnesses *)

(** Two addresses in a tracker with room for one: the second evicts the first. *)
Definition demo_sights : list SightOp := [Observe "a" 0; Observe "b" 1; Observe "b" 2; Clean 3; Observe "a" 4].

Lemma first_sight_refines_witness :
  sight_spec (30 * Second) 1 ∅ demo_sights [false; false; true; false] (sightings (sight_run (newFirstSightTracker 0 1) demo_sights).1).
Proof. apply (first_sight_refines 0 1 demo_sights); [done|]. by repeat constructor. Defined.

Lemma first_sight_gate_witness :
  (exists t, Observe "b" t ∈ demo_sights /\ 5 - t < 30 * Second)
  /\ (ObserveAndAllow (sight_run (newFirstSightTracker 0 2) demo_sights).1 "b" 5).2 = true.
Proof.
  destruct (first_sight_gate 0 2 demo_sights "b" 5) as [H1 H2]; [done|by repeat constructor|by repeat constructor|].
  split; [by apply H1|]. apply (H2 ltac:(by vm_compute) 1); [by right; left|done].
Defined.
