(* ===== verification/Modifiers.v ===== *)
(** * Modifiers

    [handshake/modifier.go], [handshake/constants.go],
    [handshake/modifier_chain.go], [handshake/xor_modifier.go],
    [handshake/padding_modifier.go] and [handshake/siphash/siphash.go]: the
    transformations applied to a message before it is sent and undone when it is
    received.

    The Go interface [HandshakeModifier] is a class, and [ModifierCorrect] the
    contract between a sending and a receiving modifier. A chain is proved
    correct from the contract of its members; each modifier of the repository
    discharges it. An interface value whose dynamic type is one of two is a value
    of the sum, so chains of different modifiers are chains over sums.

    The random source [go-i2p/crypto/rand] and the hash [go-i2p/crypto/siphash]
    are not part of the repository and are operations of classes. *)

From Stdlib Require Import ZArith Lia.
From Stdlib Require Import Strings.Byte.
From stdpp Require Import base numbers list strings.
From S2P Require Import Prelude.

#[local] Open Scope Z_scope.

(** ** Phases *)

Definition PhaseInitial : Z := 0.
Definition PhaseExchange : Z := 1.
Definition PhaseFinal : Z := 2.
Definition PhaseData : Z := 3.

Definition HandshakePhase_String (p : Z) : string :=
  if p =? PhaseInitial then "initial"
  else if p =? PhaseExchange then "exchange"
  else if p =? PhaseFinal then "final"
  else if p =? PhaseData then "data"
  else "unknown".

(** ** Random source

    [W] is the state of the source; a failed read is [None]. The laws are the
    documented behaviour of [ReadBigInt] and [Read]. *)

Class RandSource (W : Type) := {
  ReadBigInt : Z -> W -> option Z * W;
  Read : nat -> W -> option bytes * W;
  ReadBigInt_range : forall max w n w', ReadBigInt max w = (Some n, w') -> 0 <= n < max;
  Read_length : forall n w bs w', Read n w = (Some bs, w') -> length bs = n;
}.

Class SipHashLib := {
  siphash_Hash : Z -> Z -> bytes -> Z;
}.

(** ** The interface *)

#[warnings="-register-all"]
Inductive ModifierError :=
| EModifierClosed (name : string)
| EDataTooLarge (length : Z)
| EPaddingRandom
| EPaddedTooShort (length : Z)
| EInvalidOriginalLength (rawLen : Z)
| EMissingAESState (name : string)
| EInvalidCurve25519Key (name : string)
| EInvalidChaChaLength (length : Z)
| EChaChaCipher (name : string)
| ENilCipher                              (* a panic of the source: the cipher is nil after Close *)
| EChain (index : nat) (name : string) (e : ModifierError)
| EJoin (errs : list ModifierError).

Class HandshakeModifier (W M : Type) := {
  ModifyOutbound : M -> W -> Z -> bytes -> M * W * result ModifierError bytes;
  ModifyInbound : M -> Z -> bytes -> M * result ModifierError bytes;
  Name : M -> string;
  Close : M -> M * option ModifierError;
}.

(** [paired s r]: the inbound side of [r] is in step with the outbound side of
    [s]. [correct_in] are the phases for which the modifier recovers every message.
    Messages are shorter than 4 GiB. *)
Class ModifierCorrect (W M : Type) `{HandshakeModifier W M} := {
  paired : M -> M -> Prop;
  correct_in : Z -> Prop;
  outbound_grows : forall s w phase data s' w' out,
    ModifyOutbound s w phase data = (s', w', Ok out) -> zlen data <= zlen out;
  inbound_outbound : forall s r w phase data s' w' out,
    correct_in phase -> paired s r -> ModifyOutbound s w phase data = (s', w', Ok out) -> zlen out < 2 ^ 32 ->
    exists r', ModifyInbound r phase out = (r', Ok data) /\ paired s' r';
}.
Arguments correct_in W M {_ _} phase.

(** An interface value of one of two dynamic types. *)
#[export] Instance sum_modifier (W A B : Type) `{HandshakeModifier W A, HandshakeModifier W B}
    : HandshakeModifier W (A + B) := {|
  ModifyOutbound m w phase data :=
    match m with
    | inl a => let '(a, w, r) := ModifyOutbound a w phase data in (inl a, w, r)
    | inr b => let '(b, w, r) := ModifyOutbound b w phase data in (inr b, w, r)
    end;
  ModifyInbound m phase data :=
    match m with
    | inl a => let '(a, r) := ModifyInbound a phase data in (inl a, r)
    | inr b => let '(b, r) := ModifyInbound b phase data in (inr b, r)
    end;
  Name m := match m with inl a => Name a | inr b => Name b end;
  Close m :=
    match m with
    | inl a => let '(a, e) := Close a in (inl a, e)
    | inr b => let '(b, e) := Close b in (inr b, e)
    end;
|}.

(** ** Chains *)

Record ModifierChain (M : Type) := mkChain {
  modifiers : list M;
  chain_name : string;
}.
Arguments mkChain {M}.
Arguments modifiers {M}.
Arguments chain_name {M}.

Section Chain.
Context {W M : Type} `{HandshakeModifier W M}.

(** A nil interface value is [None]. *)
Definition NewModifierChain (name : string) (ms : list (option M)) : ModifierChain M :=
  mkChain (omap id ms) name.

Fixpoint chain_outbound (i : nat) (ms : list M) (w : W) (phase : Z) (data : bytes)
    : list M * W * result ModifierError bytes :=
  match ms with
  | [] => ([], w, Ok data)
  | m :: rest =>
      match ModifyOutbound m w phase data with
      | (m, w, Err e) => (m :: rest, w, Err (EChain i (Name m) e))
      | (m, w, Ok modified) =>
          let '(rest, w, r) := chain_outbound (S i) rest w phase modified in
          (m :: rest, w, r)
      end
  end.

(** The loop of [ModifyInbound] runs from the last modifier to the first. *)
Fixpoint chain_inbound (i : nat) (ms : list M) (phase : Z) (data : bytes)
    : list M * result ModifierError bytes :=
  match ms with
  | [] => ([], Ok data)
  | m :: rest =>
      match chain_inbound (S i) rest phase data with
      | (rest, Err e) => (m :: rest, Err e)
      | (rest, Ok modified) =>
          match ModifyInbound m phase modified with
          | (m, Err e) => (m :: rest, Err (EChain i (Name m) e))
          | (m, Ok result) => (m :: rest, Ok result)
          end
      end
  end.

Definition Count (mc : ModifierChain M) : nat := length (modifiers mc).
Definition IsEmpty (mc : ModifierChain M) : bool := bool_decide (length (modifiers mc) = 0%nat).
Definition ModifierNames (mc : ModifierChain M) : list string := Name <$> modifiers mc.

Fixpoint chain_close (ms : list M) : list M * list ModifierError :=
  match ms with
  | [] => ([], [])
  | m :: rest =>
      let '(m, e) := Close m in
      let '(rest, errs) := chain_close rest in
      (m :: rest, match e with Some e => e :: errs | None => errs end)
  end.

#[export] Instance chain_modifier : HandshakeModifier W (ModifierChain M) := {|
  ModifyOutbound mc w phase data :=
    let '(ms, w, r) := chain_outbound 0 (modifiers mc) w phase data in
    (mkChain ms (chain_name mc), w, r);
  ModifyInbound mc phase data :=
    let '(ms, r) := chain_inbound 0 (modifiers mc) phase data in
    (mkChain ms (chain_name mc), r);
  Name := chain_name;
  Close mc :=
    let '(ms, errs) := chain_close (modifiers mc) in
    (mkChain ms (chain_name mc), match errs with [] => None | _ => Some (EJoin errs) end);
|}.
End Chain.

(** ** XOR *)

Record XORModifier := mkXOR {
  xor_name : string;
  xorKey : bytes;
  keySize : nat;
  xor_closed : bool;
}.

Section XOR.
Context {W : Type} `{RandSource W}.

Definition NewXORModifier (name : string) (key : bytes) (w : W) : XORModifier * W :=
  if decide (length key = 0%nat) then
    let '(randomKey, w) :=
      match Read 32 w with
      | (Some randomKey, w) => (randomKey, w)
      | (None, w) => ([x01], w)
      end in
    (mkXOR name randomKey (length randomKey) false, w)
  else (mkXOR name key (length key) false, w).

(** The index is in range: [keySize] is the length of the key, which is not empty. *)
Definition xor_bytes (xm : XORModifier) (data : bytes) : bytes :=
  imap (fun i b => byte_xor b (default x00 (xorKey xm !! (i mod keySize xm)%nat))) data.

Definition XOR_modify (xm : XORModifier) (data : bytes) : result ModifierError bytes :=
  if xor_closed xm then Err (EModifierClosed (xor_name xm))
  else if decide (length data = 0%nat) then Ok data
  else Ok (xor_bytes xm data).

#[export] Instance xor_modifier : HandshakeModifier W XORModifier := {|
  ModifyOutbound xm w _ data := (xm, w, XOR_modify xm data);
  ModifyInbound xm _ data := (xm, XOR_modify xm data);
  Name := xor_name;
  Close xm :=
    (mkXOR (xor_name xm) (replicate (length (xorKey xm)) x00) (keySize xm) true, None);
|}.
End XOR.

(** ** Padding *)

Record PaddingModifier := mkPaddingModifier {
  padding_name : string;
  minPadding : Z;
  maxPadding : Z;
}.

Inductive PaddingError :=
| ENegativeMinimum
| EMaximumBelowMinimum.

Definition NewPaddingModifier (name : string) (mn mx : Z) : result PaddingError PaddingModifier :=
  if mn <? 0 then Err ENegativeMinimum
  else if mx <? mn then Err EMaximumBelowMinimum
  else Ok (mkPaddingModifier name mn mx).

Definition MaxUint32 : Z := 4294967295.

Section Padding.
Context {W : Type} `{RandSource W}.

(** The choice of the padding size. *)
Definition padding_size (pm : PaddingModifier) (w : W) : option Z * W :=
  if minPadding pm <? maxPadding pm then
    match ReadBigInt (maxPadding pm - minPadding pm + 1) w with
    | (Some n, w) => (Some (minPadding pm + n), w)
    | (None, w) => (None, w)
    end
  else (Some (minPadding pm), w).

Definition Padding_outbound (pm : PaddingModifier) (w : W) (phase : Z) (data : bytes)
    : W * result ModifierError bytes :=
  if PhaseFinal <? phase then (w, Ok data)
  else if (minPadding pm =? 0) && (maxPadding pm =? 0) then (w, Ok data)
  else if MaxUint32 <? zlen data then (w, Err (EDataTooLarge (zlen data)))
  else
    match padding_size pm w with
    | (None, w) => (w, Err EPaddingRandom)
    | (Some paddingSize, w) =>
        if 0 <? paddingSize then
          match Read (Z.to_nat paddingSize) w with
          | (None, w) => (w, Err EPaddingRandom)
          | (Some padding, w) => (w, Ok (be_encode 4 (u32 (zlen data)) ++ data ++ padding))
          end
        else (w, Ok (be_encode 4 (u32 (zlen data)) ++ data))
    end.

Definition Padding_inbound (pm : PaddingModifier) (phase : Z) (data : bytes)
    : result ModifierError bytes :=
  if PhaseFinal <? phase then Ok data
  else if (minPadding pm =? 0) && (maxPadding pm =? 0) then Ok data
  else if zlen data <? 4 then Err (EPaddedTooShort (zlen data))
  else
    let rawLen := be_decode (slice 0 4 data) in
    let available := u32 (zlen data - 4) in
    if available <? rawLen then Err (EInvalidOriginalLength rawLen)
    else Ok (slice 4 (4 + Z.to_nat rawLen) data).

#[export] Instance padding_modifier : HandshakeModifier W PaddingModifier := {|
  ModifyOutbound pm w phase data :=
    let '(w, r) := Padding_outbound pm w phase data in (pm, w, r);
  ModifyInbound pm phase data := (pm, Padding_inbound pm phase data);
  Name := padding_name;
  Close pm := (pm, None);
|}.
End Padding.

(** ** SipHash length obfuscation *)

Record LengthModifier := mkLengthModifier {
  length_name : string;
  outboundKeys : Z * Z;
  inboundKeys : Z * Z;
  outboundIV : Z;
  inboundIV : Z;
}.

Definition LengthFieldSize : nat := 2.

Definition NewLengthModifier (name : string) (sipKeys : Z * Z) (initialIV : Z) : LengthModifier :=
  mkLengthModifier name sipKeys sipKeys initialIV initialIV.

Definition NewLengthModifierDirectional (name : string) (outKeys inKeys : Z * Z) (outIV inIV : Z)
    : LengthModifier :=
  mkLengthModifier name outKeys inKeys outIV inIV.

Definition ZeroKeys (slm : LengthModifier) : LengthModifier :=
  mkLengthModifier (length_name slm) (0, 0) (0, 0) 0 0.

Section SipHash.
Context {W : Type} `{SipHashLib}.

(** The new IV and the mask. *)
Definition NextMask (keys : Z * Z) (iv : Z) : Z * Z :=
  let input := rev (be_encode 8 iv) in
  let hash := siphash_Hash keys.1 keys.2 input in
  (hash, u16 (Z.land hash 65535)).

Definition NextOutboundMask (slm : LengthModifier) : LengthModifier * Z :=
  let '(iv, mask) := NextMask (outboundKeys slm) (outboundIV slm) in
  (mkLengthModifier (length_name slm) (outboundKeys slm) (inboundKeys slm) iv (inboundIV slm), mask).

Definition NextInboundMask (slm : LengthModifier) : LengthModifier * Z :=
  let '(iv, mask) := NextMask (inboundKeys slm) (inboundIV slm) in
  (mkLengthModifier (length_name slm) (outboundKeys slm) (inboundKeys slm) (outboundIV slm) iv, mask).

Definition applyMask (slm : LengthModifier) (phase : Z) (data : bytes)
    (maskFunc : LengthModifier -> LengthModifier * Z) : LengthModifier * result ModifierError bytes :=
  if decide (phase < PhaseData \/ length data <> LengthFieldSize) then (slm, Ok data)
  else
    let '(slm, mask) := maskFunc slm in
    let maskedLength := Z.lxor (be_decode data) mask in
    (slm, Ok (be_encode 2 maskedLength)).

#[export] Instance siphash_modifier : HandshakeModifier W LengthModifier := {|
  ModifyOutbound slm w phase data :=
    let '(slm, r) := applyMask slm phase data NextOutboundMask in (slm, w, r);
  ModifyInbound slm phase data := applyMask slm phase data NextInboundMask;
  Name := length_name;
  Close slm := (ZeroKeys slm, None);
|}.
End SipHash.

(** ** The contract of each modifier *)

Lemma imap_imap {A B C} (f : nat -> A -> B) (g : nat -> B -> C) l :
  imap g (imap f l) = imap (fun i a => g i (f i a)) l.
Proof. apply list_eq. intros i. rewrite !list_lookup_imap. by destruct (l !! i). Qed.

Lemma xor_bytes_cancel xm data : xor_bytes xm (xor_bytes xm data) = data.
Proof.
  unfold xor_bytes. rewrite imap_imap. apply list_eq. intros i. rewrite list_lookup_imap.
  destruct (data !! i) as [b|]; cbn; [|done]. by rewrite byte_xor_cancel.
Qed.

Section Contracts.
Context {W : Type}.

#[export, refine] Instance xor_correct : @ModifierCorrect W XORModifier xor_modifier := {|
  paired s r := xorKey s = xorKey r /\ keySize s = keySize r /\ xor_closed r = false;
  correct_in _ := True;
|}.
Proof.
  - intros s w phase data s' w' out [= <- <- Ho]. unfold XOR_modify in Ho.
    destruct (xor_closed s); [done|]. case_decide; apply Ok_inj in Ho as <-; [done|].
    unfold xor_bytes, zlen. by rewrite length_imap.
  - intros s r w phase data s' w' out _ (Hk & Hs & Hc) [= <- <- Ho] _. exists r. split; [|done]. cbn.
    unfold XOR_modify in *. rewrite Hc. destruct (xor_closed s); [done|].
    assert (Hx : forall d, xor_bytes r d = xor_bytes s d)
      by (intros d; unfold xor_bytes; by rewrite Hk, Hs).
    case_decide as Hd; apply Ok_inj in Ho as <-; [by rewrite decide_True|].
    rewrite decide_False by (unfold xor_bytes; by rewrite length_imap).
    by rewrite Hx, xor_bytes_cancel.
Defined.

(** What the padding modifier emits where it pads. *)
Lemma Padding_outbound_cases `{RandSource W} pm w phase data w' out :
  Padding_outbound pm w phase data = (w', Ok out) ->
  (PhaseFinal <? phase) || (minPadding pm =? 0) && (maxPadding pm =? 0) = true /\ out = data
  \/ (PhaseFinal <? phase) || (minPadding pm =? 0) && (maxPadding pm =? 0) = false
     /\ zlen data <= MaxUint32 /\ exists padding, out = be_encode 4 (u32 (zlen data)) ++ data ++ padding.
Proof.
  unfold Padding_outbound. destruct (PhaseFinal <? phase); cbn [orb].
  { intros [= _ <-]. auto. }
  destruct (_ && _); [intros [= _ <-]; auto|].
  destruct (Z.ltb_spec MaxUint32 (zlen data)); [done|].
  destruct (padding_size pm w) as [[n|] w1]; [|done]. intros Ho. right. split; [done|]. split; [done|].
  destruct (0 <? n).
  - destruct (Read _ w1) as [[pad|] w2]; [|done]. apply (inj2 pair) in Ho as [_ <-%Ok_inj]. eauto.
  - apply (inj2 pair) in Ho as [_ <-%Ok_inj]. exists []. by rewrite app_nil_r.
Qed.

#[export, refine] Instance padding_correct `{RandSource W} : ModifierCorrect W PaddingModifier := {|
  paired s r := minPadding s = minPadding r /\ maxPadding s = maxPadding r;
  correct_in _ := True;
|}.
Proof.
  - intros s w phase data s' w' out. cbn. destruct (Padding_outbound s w phase data) as [w1 r] eqn:E.
    intros [= <- <- ->]. apply Padding_outbound_cases in E as [[_ ->]|(_ & _ & pad & ->)]; [done|].
    rewrite !zlen_app. pose proof (zlen_nonneg (be_encode 4 (u32 (zlen data)))).
    pose proof (zlen_nonneg pad). lia.
  - intros s r w phase data s' w' out _ [Hmn Hmx]. cbn.
    destruct (Padding_outbound s w phase data) as [w1 ro] eqn:E. intros [= <- <- ->] Hlen.
    exists r. split; [|done]. f_equal. unfold Padding_inbound. rewrite <- Hmn, <- Hmx.
    apply Padding_outbound_cases in E as [[Hp ->]|(Hp & Hd & pad & ->)].
    { destruct (PhaseFinal <? phase); [done|]. cbn [orb] in Hp. by rewrite Hp. }
    apply orb_false_iff in Hp as [-> ->]. rewrite !zlen_app in *. unfold MaxUint32 in Hd.
    assert (H4 : zlen (be_encode 4 (u32 (zlen data))) = 4) by (unfold zlen; by rewrite length_be_encode).
    rewrite H4 in *. pose proof (zlen_nonneg data). pose proof (zlen_nonneg pad).
    destruct (Z.ltb_spec (4 + (zlen data + zlen pad)) 4); [lia|].
    rewrite slice_prefix by (by rewrite length_be_encode).
    rewrite be_decode_encode_small, u32_small by (try rewrite u32_small; unfold is_u32; cbn; lia).
    rewrite u32_small by (unfold is_u32; lia).
    destruct (Z.ltb_spec (4 + (zlen data + zlen pad) - 4) (zlen data)); [lia|]. f_equal.
    apply slice_app; rewrite length_be_encode; unfold zlen; lia.
Defined.

#[export, refine] Instance siphash_correct `{SipHashLib} : @ModifierCorrect W LengthModifier siphash_modifier := {|
  paired s r := outboundKeys s = inboundKeys r /\ outboundIV s = inboundIV r;
  correct_in _ := True;
|}.
Proof.
  - intros s w phase data s' w' out. cbn. unfold applyMask.
    case_decide as Hc; [by intros [= _ _ <-]|].
    destruct (NextOutboundMask s) as [s1 mask]. intros Ho. apply (inj2 pair) in Ho as [_ <-%Ok_inj].
    unfold zlen. rewrite length_be_encode. unfold LengthFieldSize in Hc.
    destruct (decide (length data = 2%nat)); [lia|]. exfalso. apply Hc. by right.
  - intros s r w phase data s' w' out _ [Hk Hiv]. cbn. unfold applyMask.
    case_decide as Hc.
    { intros [= <- <- <-] _. exists r. rewrite decide_True by done. done. }
    destruct (NextOutboundMask s) as [s1 mask] eqn:Es. intros Ho.
    apply (inj2 pair) in Ho as [[<- _]%(inj2 pair) <-%Ok_inj]. intros _.
    unfold LengthFieldSize in *. assert (Hph : ~ phase < PhaseData) by tauto.
    assert (Hl : length data = 2%nat) by (destruct (decide (length data = 2%nat)); tauto).
    rewrite decide_False by (rewrite length_be_encode; tauto).
    unfold NextOutboundMask in Es. unfold NextInboundMask. rewrite <- Hk, <- Hiv.
    unfold NextMask in *. apply (inj2 pair) in Es as [<- <-].
    pose proof (be_decode_bound data) as Hb. unfold zlen in Hb. rewrite Hl in Hb.
    pose proof (u16_bound (Z.land (siphash_Hash (outboundKeys s).1 (outboundKeys s).2
      (rev (be_encode 8 (outboundIV s)))) 65535)) as Hm.
    rewrite be_decode_encode_small by (apply (lxor_bound 16); unfold is_u16 in Hm; cbn in *; lia).
    rewrite lxor_cancel, be_encode_decode by done. by eexists.
Defined.

#[export, refine] Instance sum_correct {A B : Type} `{ModifierCorrect W A, ModifierCorrect W B}
    : ModifierCorrect W (A + B) := {|
  paired s r :=
    match s, r with
    | inl s, inl r => paired s r
    | inr s, inr r => paired s r
    | _, _ => False
    end;
  correct_in phase := correct_in W A phase /\ correct_in W B phase;
|}.
Proof.
  - intros [s|s] w phase data s' w' out; cbn;
      destruct (ModifyOutbound s w phase data) as [[s1 w1] ro] eqn:E; intros [= <- <- ->];
      apply outbound_grows in E; done.
  - intros [s|s] [r|r] w phase data s' w' out [Ha Hb] Hp; cbn; try done;
      destruct (ModifyOutbound s w phase data) as [[s1 w1] ro] eqn:E; intros [= <- <- ->] Hl;
      destruct (inbound_outbound _ r _ _ _ _ _ _ ltac:(eassumption) Hp E Hl) as (r' & -> & Hp'); by eexists.
Defined.
End Contracts.

(** ** Chains *)

Section ChainCorrect.
Context {W M : Type} `{ModifierCorrect W M}.

Lemma chain_outbound_grows ms i w phase data ms' w' out :
  chain_outbound i ms w phase data = (ms', w', Ok out) -> zlen data <= zlen out.
Proof.
  revert i w data ms' w' out. induction ms as [|m ms IH]; intros i w data ms' w' out; cbn.
  { by intros [= _ _ <-]. }
  destruct (ModifyOutbound m w phase data) as [[m1 w1] [d1|e]] eqn:E; [|done].
  destruct (chain_outbound (S i) ms w1 phase d1) as [[ms1 w2] r] eqn:Er. intros [= _ _ ->].
  apply outbound_grows in E. apply IH in Er. lia.
Qed.

Lemma chain_roundtrip ss rs i w phase data ss' w' out :
  correct_in W M phase -> Forall2 paired ss rs -> chain_outbound i ss w phase data = (ss', w', Ok out) ->
  zlen out < 2 ^ 32 ->
  exists rs', chain_inbound i rs phase out = (rs', Ok data) /\ Forall2 paired ss' rs'.
Proof.
  intros Hph Hp. revert i w data ss' w' out.
  induction Hp as [|s r ss rs Hsr Hp IH]; intros i w data ss' w' out; cbn.
  { intros [= <- _ <-] _. by eexists. }
  destruct (ModifyOutbound s w phase data) as [[s1 w1] [d1|e]] eqn:E; [|done].
  destruct (chain_outbound (S i) ss w1 phase d1) as [[ss1 w2] ro] eqn:Er.
  intros [= <- <- ->] Hl. pose proof (chain_outbound_grows _ _ _ _ _ _ _ _ Er).
  destruct (IH _ _ _ _ _ _ Er Hl) as (rs1 & -> & Hp1).
  destruct (inbound_outbound _ r _ _ _ _ _ _ Hph Hsr E) as (r1 & -> & Hp2); [lia|].
  eexists. split; [done|]. by constructor.
Qed.

#[export, refine] Instance chain_correct : ModifierCorrect W (ModifierChain M) := {|
  paired s r := Forall2 paired (modifiers s) (modifiers r);
  correct_in phase := correct_in W M phase;
|}.
Proof.
  - intros s w phase data s' w' out. cbn.
    destruct (chain_outbound _ _ _ _ _) as [[ms w1] r] eqn:E. intros [= _ _ ->].
    apply chain_outbound_grows in E. done.
  - intros s r w phase data s' w' out Hph Hp. cbn.
    destruct (chain_outbound _ _ _ _ _) as [[ms w1] ro] eqn:E. intros [= <- <- ->] Hl.
    destruct (chain_roundtrip _ _ _ _ _ _ _ _ _ Hph Hp E Hl) as (rs & -> & Hp'). by eexists.
Defined.

(** A whole session: the sender modifies the messages one after the other, the
    receiver undoes them in the same order. *)
Fixpoint send_all (s : ModifierChain M) (w : W) (msgs : list (Z * bytes))
    : option (ModifierChain M * W * list (Z * bytes)) :=
  match msgs with
  | [] => Some (s, w, [])
  | (phase, data) :: rest =>
      match ModifyOutbound s w phase data with
      | (s, w, Ok out) =>
          '(s, w, outs) ← send_all s w rest; Some (s, w, (phase, out) :: outs)
      | _ => None
      end
  end.

Fixpoint receive_all (r : ModifierChain M) (outs : list (Z * bytes))
    : option (ModifierChain M * list (Z * bytes)) :=
  match outs with
  | [] => Some (r, [])
  | (phase, out) :: rest =>
      match ModifyInbound (W := W) r phase out with
      | (r, Ok data) => '(r, msgs) ← receive_all r rest; Some (r, (phase, data) :: msgs)
      | _ => None
      end
  end.

(** C32: modifier chains are lossless over a session: if the receiver's chain holds
    counterparts of the sender's modifiers in the same order, then every message
    the sender's chain lets through is recovered by the receiver's, and the chains
    stay in step, whatever modifiers they hold that satisfy the contract. *)
Theorem modifier_session_roundtrip (s r s' : ModifierChain M) (w w' : W)
    (msgs outs : list (Z * bytes)) :
  Forall2 paired (modifiers s) (modifiers r) -> Forall (fun m => correct_in W M m.1) msgs ->
  send_all s w msgs = Some (s', w', outs) -> Forall (fun o => zlen o.2 < 2 ^ 32) outs ->
  exists r', receive_all r outs = Some (r', msgs)
    /\ Forall2 paired (modifiers s') (modifiers r').
Proof.
  intros Hp Hph. revert s r w outs Hp.
  induction Hph as [|[phase data] msgs Hph Hall IH]; intros s r w outs Hp; cbn [send_all].
  { intros [= <- <- <-] _. by eexists. }
  destruct (ModifyOutbound s w phase data) as [[s1 w1] [out|e]] eqn:E; [|done].
  destruct (send_all s1 w1 msgs) as [[[s2 w2] outs']|] eqn:Es; [|done].
  intros [= <- <- <-] Hf. inversion_clear Hf as [|? ? Ho Hf'].
  destruct (@inbound_outbound _ _ _ chain_correct s r w phase data s1 w1 out Hph Hp E Ho) as (r1 & Hr & Hp1).
  destruct (IH s1 r1 w1 outs' Hp1 Es Hf') as (r2 & Hr2 & Hp2).
  exists r2. cbn [receive_all]. rewrite Hr. cbn. by rewrite Hr2.
Qed.
End ChainCorrect.

(** ** Witness *)

(** A source that always delivers zeros. *)
#[program] Definition zero_source : RandSource unit := {|
  ReadBigInt max w := (if 0 <? max then Some 0 else None, w);
  Read n w := (Some (replicate n x00), w);
|}.
Next Obligation. intros max w n w'. cbv beta. destruct (Z.ltb_spec 0 max); [|done]. intros [= <- _]. lia. Qed.
Next Obligation. intros n w bs w' [= <- _]. apply length_replicate. Qed.

(** A hash with some spread. *)
Definition demo_hash : SipHashLib := {|
  siphash_Hash k1 k2 input := u64 (k1 * 31 + k2 * 17 + be_decode input * 2654435761 + 12345);
|}.

#[local] Existing Instance zero_source.
#[local] Existing Instance demo_hash.

Definition demo_chain : ModifierChain (XORModifier + (PaddingModifier + LengthModifier)) :=
  NewModifierChain "demo"
    [ Some (inr (inr (NewLengthModifierDirectional "sip" (1, 2) (1, 2) 9 9))); None;
      Some (inl (NewXORModifier "xor" [x01; x02; x03] tt).1);
      Some (inr (inl (mkPaddingModifier "pad" 2 5))) ].

Definition demo_messages : list (Z * bytes) :=
  [(PhaseInitial, [x01; x02]); (PhaseFinal, []); (PhaseData, [x00; x10]); (PhaseData, [x00; x20])].

Lemma modifier_session_roundtrip_witness :
  exists s' w' outs, send_all demo_chain tt demo_messages = Some (s', w', outs)
  /\ exists r', receive_all (W := unit) demo_chain outs = Some (r', demo_messages).
Proof.
  destruct (send_all demo_chain tt demo_messages) as [[[s' w'] outs]|] eqn:E;
    [|vm_compute in E; discriminate].
  exists s', w', outs. split; [reflexivity|].
  destruct (modifier_session_roundtrip demo_chain demo_chain s' tt w' demo_messages outs)
    as (r' & Hr & _).
  - repeat constructor.
  - repeat constructor.
  - exact E.
  - vm_compute in E. injection E as _ _ <-. repeat (constructor; [reflexivity|]). constructor.
  - exists r'. exact Hr.
Defined.
