(* ===== verification/Padding.v ===== *)
(** * Padding

    [handshake/padding_engine.go] and the two modifiers built on it,
    [ssu2/wire/ssu2_padding_modifier.go] and [ntcp2/padding_modifier.go]. Go's
    [int] is 64 bits wide; the sizes here stay far below. *)

From Stdlib Require Import Floats.SpecFloat.
From Stdlib Require Import Strings.Byte.
From stdpp Require Import base numbers list strings.
From S2P Require Import Prelude Float64 Block Packet Modifiers.

#[local] Open Scope Z_scope.

(** ** The engine *)

Definition I2PPaddingBlockType : byte := xfe.
Definition I2PBlockHeaderSize : Z := 3.
Definition I2PMaxBlockDataSize : Z := 65516.
Definition I2PMaxPaddingRatio : float64 := f64_15_9375.
Definition f64_zero : float64 := S754_zero false.

Record PaddingEngineConfig := mkEngine {
  MinPadding : Z;
  MaxPadding : Z;
  PaddingRatio : float64;
  TestMode : bool;
}.

Inductive PaddingParamError :=
| EMinNegative
| EMaxBelowMin
| EMaxTooLarge
| EInvalidRatio
| EInvalidMTU (mtu : Z).

Definition ValidatePaddingParams (mn mx : Z) (ratio : float64) : option PaddingParamError :=
  if mn <? 0 then Some EMinNegative
  else if mx <? mn then Some EMaxBelowMin
  else if I2PMaxBlockDataSize <? mx then Some EMaxTooLarge
  else if SFltb ratio f64_zero || SFltb I2PMaxPaddingRatio ratio then Some EInvalidRatio
  else None.

Definition NewPaddingEngine (config : PaddingEngineConfig) : result PaddingParamError PaddingEngineConfig :=
  match ValidatePaddingParams (MinPadding config) (MaxPadding config) (PaddingRatio config) with
  | Some e => Err e
  | None => Ok config
  end.

Definition ShouldSkipPadding (pe : PaddingEngineConfig) : bool :=
  (MinPadding pe =? 0) && (MaxPadding pe =? 0) && SFeqb (PaddingRatio pe) f64_zero.

Definition UpdateParams (pe : PaddingEngineConfig) (mn mx : Z) (ratio : float64)
    : PaddingEngineConfig * option PaddingParamError :=
  match ValidatePaddingParams mn mx ratio with
  | Some e => (pe, Some e)
  | None => (mkEngine mn mx ratio (TestMode pe), None)
  end.

Definition enforceMinimumPadding (pe : PaddingEngineConfig) (paddingSize : Z) : Z :=
  if paddingSize <? MinPadding pe then MinPadding pe else paddingSize.

Definition enforceMaximumPadding (pe : PaddingEngineConfig) (paddingSize : Z) : Z :=
  if MaxPadding pe <? paddingSize then MaxPadding pe else paddingSize.

Section Engine.
Context {W : Type} `{RandSource W, FloatConv}.

Definition calculateRatioPadding (pe : PaddingEngineConfig) (dataLen : Z) : Z :=
  if SFltb f64_zero (PaddingRatio pe) then f2i (fmul (f64 dataLen) (PaddingRatio pe)) else 0.

Definition calculateSecureRandomPadding (pe : PaddingEngineConfig) (paddingSize paddingRange : Z) (w : W)
    : Z * W :=
  match Read 4 w with
  | (None, w) => (paddingSize, w)
  | (Some randomBytes, w) =>
      let randomValue := be_decode randomBytes in
      let randomPadding := randomValue mod u32 (paddingRange + 1) in
      if SFltb f64_zero (PaddingRatio pe) then
        if paddingSize - MinPadding pe <? randomPadding
        then (MinPadding pe + randomPadding, w) else (paddingSize, w)
      else (MinPadding pe + randomPadding, w)
  end.

Definition applyRandomVariation (pe : PaddingEngineConfig) (paddingSize dataLen : Z) (w : W) : Z * W :=
  let paddingRange := MaxPadding pe - MinPadding pe in
  if paddingRange <=? 0 then (paddingSize, w)
  else if TestMode pe then
    (MinPadding pe + Z.rem (Z.rem dataLen paddingRange + paddingRange) paddingRange, w)
  else calculateSecureRandomPadding pe paddingSize paddingRange w.

Definition CalculatePaddingSize (pe : PaddingEngineConfig) (dataLen : Z) (w : W) : Z * W :=
  if ShouldSkipPadding pe then (0, w)
  else
    let paddingSize := calculateRatioPadding pe dataLen in
    let paddingSize := enforceMinimumPadding pe paddingSize in
    let '(paddingSize, w) := applyRandomVariation pe paddingSize dataLen w in
    (enforceMaximumPadding pe paddingSize, w).

Definition Engine_EstimatePaddingSize (pe : PaddingEngineConfig) (dataLen : Z) : Z :=
  if SFltb f64_zero (PaddingRatio pe) then
    let ratioPadding := f2i (fmul (f64 dataLen) (PaddingRatio pe)) in
    if ratioPadding <? MinPadding pe then MinPadding pe
    else if MaxPadding pe <? ratioPadding then MaxPadding pe
    else ratioPadding
  else Z.quot (MinPadding pe + MaxPadding pe) 2.

(** The padding bytes: deterministic in test mode, else from the random source. *)
Definition padding_bytes (pe : PaddingEngineConfig) (dataLen : nat) (paddingSize : Z) (w : W)
    : option bytes * W :=
  if TestMode pe
  then (Some ((fun i => z2b (Z.of_nat (i + dataLen) mod 256)) <$> seq 0 (Z.to_nat paddingSize)), w)
  else Read (Z.to_nat paddingSize) w.

Definition AddCleartextPadding (pe : PaddingEngineConfig) (data : bytes) (paddingSize : Z) (w : W)
    : W * result ModifierError bytes :=
  match padding_bytes pe (length data) paddingSize w with
  | (None, w) => (w, Err EPaddingRandom)
  | (Some padding, w) => (w, Ok (data ++ padding))
  end.

Definition AddAEADPadding (pe : PaddingEngineConfig) (data : bytes) (paddingSize : Z) (w : W)
    : W * result ModifierError bytes :=
  match padding_bytes pe (length data) paddingSize w with
  | (None, w) => (w, Err EPaddingRandom)
  | (Some padding, w) =>
      (w, Ok (data ++ I2PPaddingBlockType :: be_encode 2 (u16 paddingSize) ++ padding))
  end.
End Engine.

(** The scan of [RemoveTrailingAEADPadding] over the padding sizes
    [paddingSize, paddingSize + 1, ..., maxPadding]. *)
Definition padding_block_at (data : bytes) (paddingSize : nat) : bool :=
  let start := (length data - 3 - paddingSize)%nat in
  bool_decide (data !! start = Some I2PPaddingBlockType)
  && (be_decode (slice (start + 1) (start + 3) data) =? Z.of_nat paddingSize).

Fixpoint scan_padding (data : bytes) (fuel paddingSize : nat) : option nat :=
  match fuel with
  | O => None
  | S fuel =>
      if padding_block_at data paddingSize then Some (length data - 3 - paddingSize)%nat
      else scan_padding data fuel (S paddingSize)
  end.

Definition RemoveTrailingAEADPadding (data : bytes) (maxScanPadding : Z) : bytes :=
  if zlen data <? I2PBlockHeaderSize then data
  else
    let mx := zlen data - I2PBlockHeaderSize in
    let mx := if (0 <? maxScanPadding) && (maxScanPadding <? mx) then maxScanPadding else mx in
    let mx := if I2PMaxBlockDataSize <? mx then I2PMaxBlockDataSize else mx in
    match scan_padding data (S (Z.to_nat mx)) 0 with
    | Some start => take start data
    | None => data
    end.

(** ** SSU2 *)

Definition minMTU : Z := 1280.
Definition maxMTU : Z := 1500.
Definition defaultMTU : Z := 1280.
Definition aeadTagSize : Z := 16.

Record SSU2PaddingModifier := mkSSU2Padding {
  spm_name : string;
  spm_engine : PaddingEngineConfig;
  aeadMode : bool;
  mtu : Z;
}.

Definition validateMTU (mtu : Z) : option PaddingParamError :=
  if (mtu <? minMTU) || (maxMTU <? mtu) then Some (EInvalidMTU mtu) else None.

Definition NewSSU2PaddingModifierWithMTU (name : string) (minPad maxPad mtu : Z) (aead : bool)
    (ratio : float64) : result PaddingParamError SSU2PaddingModifier :=
  match NewPaddingEngine (mkEngine minPad maxPad ratio false) with
  | Err e => Err e
  | Ok engine =>
      match validateMTU mtu with
      | Some e => Err e
      | None => Ok (mkSSU2Padding name engine aead mtu)
      end
  end.

Definition NewSSU2PaddingModifier (name : string) (minPad maxPad : Z) (aead : bool)
    : result PaddingParamError SSU2PaddingModifier :=
  NewSSU2PaddingModifierWithMTU name minPad maxPad defaultMTU aead f64_zero.

Definition NewSSU2PaddingModifierWithRatio (name : string) (minPad maxPad : Z) (aead : bool)
    (ratio : float64) : result PaddingParamError SSU2PaddingModifier :=
  NewSSU2PaddingModifierWithMTU name minPad maxPad defaultMTU aead ratio.

Definition headerOverhead (spm : SSU2PaddingModifier) : Z :=
  if aeadMode spm then Z.of_nat ShortHeaderSize else Z.of_nat LongHeaderSize.

Definition UpdatePaddingParams (spm : SSU2PaddingModifier) (minPad maxPad : Z) (ratio : float64)
    : SSU2PaddingModifier * option PaddingParamError :=
  match ValidatePaddingParams minPad maxPad ratio with
  | Some e => (spm, Some e)
  | None =>
      (mkSSU2Padding (spm_name spm) (mkEngine minPad maxPad ratio (TestMode (spm_engine spm)))
         (aeadMode spm) (mtu spm), None)
  end.

Definition SetMTU (spm : SSU2PaddingModifier) (m : Z) : SSU2PaddingModifier * option PaddingParamError :=
  match validateMTU m with
  | Some e => (spm, Some e)
  | None => (mkSSU2Padding (spm_name spm) (spm_engine spm) (aeadMode spm) m, None)
  end.

Section SSU2.
Context {W : Type} `{RandSource W, FloatConv}.

Definition calculateMTUAwarePadding (spm : SSU2PaddingModifier) (dataLen : Z) (w : W) : Z * W :=
  if ShouldSkipPadding (spm_engine spm) then (0, w)
  else
    let overhead := headerOverhead spm + aeadTagSize in
    let overhead := if aeadMode spm then overhead + I2PBlockHeaderSize else overhead in
    let availableSpace := mtu spm - dataLen - overhead in
    if availableSpace <=? 0 then (0, w)
    else
      let '(paddingSize, w) := CalculatePaddingSize (spm_engine spm) dataLen w in
      (if availableSpace <? paddingSize then availableSpace else paddingSize, w).

Definition SSU2_outbound (spm : SSU2PaddingModifier) (w : W) (phase : Z) (data : bytes)
    : W * result ModifierError bytes :=
  let '(paddingSize, w) := calculateMTUAwarePadding spm (zlen data) w in
  if paddingSize =? 0 then (w, Ok data)
  else if aeadMode spm && (PhaseFinal <=? phase)
  then AddAEADPadding (spm_engine spm) data paddingSize w
  else if negb (aeadMode spm) && (phase <? PhaseFinal)
  then AddCleartextPadding (spm_engine spm) data paddingSize w
  else (w, Ok data).

Definition SSU2_inbound (spm : SSU2PaddingModifier) (phase : Z) (data : bytes) : bytes :=
  if aeadMode spm && (PhaseFinal <=? phase)
  then RemoveTrailingAEADPadding data (MaxPadding (spm_engine spm))
  else data.

#[export] Instance ssu2_padding_modifier : HandshakeModifier W SSU2PaddingModifier := {|
  ModifyOutbound spm w phase data :=
    let '(w, r) := SSU2_outbound spm w phase data in (spm, w, r);
  ModifyInbound spm phase data := (spm, Ok (SSU2_inbound spm phase data));
  Name := spm_name;
  Close spm := (spm, None);
|}.

Definition SSU2_EstimatePaddingSize (spm : SSU2PaddingModifier) (dataLen : Z) : Z :=
  let pe := spm_engine spm in
  if SFltb f64_zero (PaddingRatio pe) then
    let ratioPadding := f2i (fceil (fmul (f64 dataLen) (PaddingRatio pe))) in
    if ratioPadding <? MinPadding pe then MinPadding pe
    else if MaxPadding pe <? ratioPadding then MaxPadding pe
    else
      let overhead := headerOverhead spm + aeadTagSize in
      let availableSpace := mtu spm - dataLen - overhead in
      if availableSpace <? ratioPadding then availableSpace else ratioPadding
  else Z.quot (MinPadding pe + MaxPadding pe) 2.
End SSU2.

(** ** NTCP2 *)

Record NTCP2PaddingModifier := mkNTCP2Padding {
  npm_name : string;
  npm_engine : PaddingEngineConfig;
  useAEADPadding : bool;
}.

Definition NewNTCP2PaddingModifierWithRatio (name : string) (mn mx : Z) (aead : bool) (ratio : float64)
    : result PaddingParamError NTCP2PaddingModifier :=
  match NewPaddingEngine (mkEngine mn mx ratio false) with
  | Err e => Err e
  | Ok engine => Ok (mkNTCP2Padding name engine aead)
  end.

Definition NewNTCP2PaddingModifier (name : string) (mn mx : Z) (aead : bool)
    : result PaddingParamError NTCP2PaddingModifier :=
  NewNTCP2PaddingModifierWithRatio name mn mx aead f64_zero.

Definition SetPaddingRatio (npm : NTCP2PaddingModifier) (ratio : float64)
    : NTCP2PaddingModifier * option PaddingParamError :=
  if SFltb ratio f64_zero || SFltb f64_15_9375 ratio then (npm, Some EInvalidRatio)
  else
    let pe := npm_engine npm in
    (mkNTCP2Padding (npm_name npm) (mkEngine (MinPadding pe) (MaxPadding pe) ratio (TestMode pe))
       (useAEADPadding npm), None).

Definition SetPaddingLimits (npm : NTCP2PaddingModifier) (mn mx : Z)
    : NTCP2PaddingModifier * option PaddingParamError :=
  match ValidatePaddingParams mn mx f64_zero with
  | Some e => (npm, Some e)
  | None =>
      let pe := npm_engine npm in
      (mkNTCP2Padding (npm_name npm) (mkEngine mn mx (PaddingRatio pe) (TestMode pe))
         (useAEADPadding npm), None)
  end.

Definition Clone (npm : NTCP2PaddingModifier) : NTCP2PaddingModifier :=
  match NewPaddingEngine (npm_engine npm) with
  | Err _ => npm
  | Ok engineCopy => mkNTCP2Padding (npm_name npm) engineCopy (useAEADPadding npm)
  end.

Section NTCP2.
Context {W : Type} `{RandSource W, FloatConv}.

Definition NTCP2_outbound (npm : NTCP2PaddingModifier) (w : W) (phase : Z) (data : bytes)
    : W * result ModifierError bytes :=
  let '(paddingSize, w) := CalculatePaddingSize (npm_engine npm) (zlen data) w in
  if paddingSize =? 0 then (w, Ok data)
  else if useAEADPadding npm && (PhaseFinal <? phase)
  then AddAEADPadding (npm_engine npm) data paddingSize w
  else if negb (useAEADPadding npm) && (phase <? PhaseFinal)
  then AddCleartextPadding (npm_engine npm) data paddingSize w
  else (w, Ok data).

Definition NTCP2_inbound (npm : NTCP2PaddingModifier) (phase : Z) (data : bytes) : bytes :=
  if useAEADPadding npm && (PhaseFinal <? phase)
  then RemoveTrailingAEADPadding data (MaxPadding (npm_engine npm))
  else data.

#[export] Instance ntcp2_padding_modifier : HandshakeModifier W NTCP2PaddingModifier := {|
  ModifyOutbound npm w phase data :=
    let '(w, r) := NTCP2_outbound npm w phase data in (npm, w, r);
  ModifyInbound npm phase data := (npm, Ok (NTCP2_inbound npm phase data));
  Name := npm_name;
  Close npm := (npm, None);
|}.

Definition NTCP2_EstimatePaddingSize (npm : NTCP2PaddingModifier) (dataLen : Z) : Z :=
  let pe := npm_engine npm in
  if SFltb f64_zero (PaddingRatio pe) then
    let ratioPadding := f2i (fceil (fmul (f64 dataLen) (PaddingRatio pe))) in
    if ratioPadding <? MinPadding pe then MinPadding pe
    else if MaxPadding pe <? ratioPadding then MaxPadding pe
    else ratioPadding
  else Z.quot (MinPadding pe + MaxPadding pe) 2.
End NTCP2.

(** *** Frames of blocks *)

Definition extractBlockHeader (data : bytes) (offset : nat) : byte * nat :=
  (default x00 (data !! offset), Z.to_nat (be_decode (slice (offset + 1) (offset + 3) data))).

Definition validateBlockBounds (data : bytes) (offset : nat) : bool :=
  bool_decide (offset + 3 <= length data)%nat.

Definition validateBlockSize (data : bytes) (offset blockSize : nat) : bool :=
  bool_decide (offset + 3 + blockSize <= length data)%nat.

Definition validateFramePaddingRules (blockType : byte) (blockSize offset dataLen : nat)
    (hasPadding : bool) : bool * bool :=
  if decide (blockType = I2PPaddingBlockType) then
    if hasPadding then (false, hasPadding)
    else if decide (offset + 3 + blockSize <> dataLen)%nat then (false, true)
    else (true, true)
  else (true, hasPadding).

(** Every turn consumes at least the three bytes of a header, so the length of
    the data bounds the number of turns. *)
Fixpoint frame_loop (data : bytes) (fuel offset : nat) (hasPadding : bool) : bool :=
  match fuel with
  | O => true
  | S fuel =>
      if decide (length data <= offset)%nat then true
      else if negb (validateBlockBounds data offset) then false
      else
        let '(blockType, blockSize) := extractBlockHeader data offset in
        if negb (validateBlockSize data offset blockSize) then false
        else
          let '(ok, hasPadding) :=
            validateFramePaddingRules blockType blockSize offset (length data) hasPadding in
          if negb ok then false
          else frame_loop data fuel (offset + (3 + blockSize)) hasPadding
  end.

Definition ValidateAEADFrame (data : bytes) : bool :=
  if decide (length data = 0%nat) then true else frame_loop data (length data) 0 false.

Record blockParseResult := mkParse {
  foundValidBlocks : bool;
  lastDataEnd : nat;
  blocksAfterPadding : bool;
}.

Fixpoint parse_loop (data : bytes) (fuel offset : nat) (foundPadding : bool) (res : blockParseResult)
    : blockParseResult :=
  match fuel with
  | O => res
  | S fuel =>
      if decide (length data <= offset)%nat then res
      else if negb (validateBlockBounds data offset) then res
      else
        let '(blockType, blockSize) := extractBlockHeader data offset in
        if negb (validateBlockSize data offset blockSize) then res
        else
          let res := mkParse true (lastDataEnd res) (blocksAfterPadding res) in
          if decide (blockType = I2PPaddingBlockType)
          then parse_loop data fuel (offset + (3 + blockSize)) true res
          else if foundPadding then mkParse true (lastDataEnd res) true
          else
            let e := (offset + 3 + blockSize)%nat in
            parse_loop data fuel e foundPadding (mkParse true e (blocksAfterPadding res))
  end.

Definition parseBlockStructure (data : bytes) : blockParseResult :=
  parse_loop data (length data) 0 false (mkParse false 0 false).

(** ** Sizes *)

Section Sizes.
Context {W : Type} `{RandSource W, FloatConv}.

Definition valid_engine (pe : PaddingEngineConfig) : Prop :=
  ValidatePaddingParams (MinPadding pe) (MaxPadding pe) (PaddingRatio pe) = None.

Lemma valid_engine_bounds pe :
  valid_engine pe -> 0 <= MinPadding pe <= MaxPadding pe /\ MaxPadding pe <= I2PMaxBlockDataSize.
Proof. unfold valid_engine, ValidatePaddingParams. case_ifs; (done || lia). Qed.

Lemma random_padding_bounds pe p w :
  valid_engine pe -> MinPadding pe <= p -> MinPadding pe < MaxPadding pe ->
  MinPadding pe <= (calculateSecureRandomPadding pe p (MaxPadding pe - MinPadding pe) w).1.
Proof.
  intros Hv Hp Hlt. apply valid_engine_bounds in Hv as [H1 H2]. unfold I2PMaxBlockDataSize in H2.
  unfold calculateSecureRandomPadding. destruct (Read 4 w) as [[bs|] w']; [|done].
  rewrite u32_small by (unfold is_u32; lia).
  pose proof (Z.mod_pos_bound (be_decode bs) (MaxPadding pe - MinPadding pe + 1) ltac:(lia)).
  case_ifs; cbn [fst]; lia.
Qed.

(** The padding size is always within the configured limits, in every mode and
    whatever the random source delivers. *)
Lemma padding_size_bounded (pe : PaddingEngineConfig) (dataLen : Z) (w : W) :
  valid_engine pe -> MinPadding pe <= (CalculatePaddingSize pe dataLen w).1 <= MaxPadding pe.
Proof.
  intros Hv. pose proof (valid_engine_bounds pe Hv) as [H1 H2]. unfold CalculatePaddingSize.
  destruct (ShouldSkipPadding pe) eqn:Hskip.
  { unfold ShouldSkipPadding in Hskip. bool_props. cbn. lia. }
  set (p0 := enforceMinimumPadding pe (calculateRatioPadding pe dataLen)).
  assert (Hp0 : MinPadding pe <= p0) by (unfold p0, enforceMinimumPadding; case_ifs; lia).
  assert (Hv1 : MinPadding pe <= (applyRandomVariation pe p0 dataLen w).1).
  { unfold applyRandomVariation. destruct (Z.leb_spec (MaxPadding pe - MinPadding pe) 0); [done|].
    destruct (TestMode pe); [|apply random_padding_bounds; (done || lia)]. cbn [fst].
    set (r := MaxPadding pe - MinPadding pe) in *.
    pose proof (Z.rem_bound_abs dataLen r ltac:(lia)).
    pose proof (Z.rem_nonneg (Z.rem dataLen r + r) r ltac:(lia) ltac:(lia)). lia. }
  destruct (applyRandomVariation pe p0 dataLen w) as [p w']. cbn [fst] in *.
  unfold enforceMaximumPadding. case_ifs; lia.
Qed.

Lemma padding_bytes_length pe n p w pad w' :
  0 <= p -> padding_bytes pe n p w = (Some pad, w') -> zlen pad = p.
Proof.
  intros Hp. unfold padding_bytes, zlen. destruct (TestMode pe).
  - intros [= <- _]. rewrite length_fmap, length_seq. lia.
  - intros ->%Read_length. lia.
Qed.

Lemma mtu_padding_bounds spm n w :
  valid_engine (spm_engine spm) ->
  let p := (calculateMTUAwarePadding spm n w).1 in
  p = 0 \/ 0 <= p <= MaxPadding (spm_engine spm)
  /\ n + p + headerOverhead spm + aeadTagSize + (if aeadMode spm then I2PBlockHeaderSize else 0)
     <= mtu spm.
Proof.
  intros Hv. cbv zeta. pose proof (valid_engine_bounds _ Hv) as [H1 H2].
  unfold calculateMTUAwarePadding. destruct (ShouldSkipPadding _); [by left|].
  set (ov := if aeadMode spm then _ else _).
  assert (Hov : ov = headerOverhead spm + aeadTagSize + (if aeadMode spm then I2PBlockHeaderSize else 0))
    by (unfold ov; destruct (aeadMode spm); lia).
  destruct (Z.leb_spec (mtu spm - n - ov) 0); [by left|].
  pose proof (padding_size_bounded (spm_engine spm) n w Hv) as Hb.
  destruct (CalculatePaddingSize (spm_engine spm) n w) as [p w']. cbn [fst] in *. right.
  destruct (Z.ltb_spec (mtu spm - n - ov) p); lia.
Qed.

(** padding never makes an SSU2 packet exceed the MTU: the padded message
    with the header and the authentication tag fits, or the message is unchanged;
    and the padding never exceeds the configured maximum. *)
Theorem ssu2_padding_fits_mtu (spm spm' : SSU2PaddingModifier) (w w' : W) (phase : Z)
    (data out : bytes) :
  valid_engine (spm_engine spm) ->
  ModifyOutbound spm w phase data = (spm', w', Ok out) ->
  out = data \/
  headerOverhead spm + aeadTagSize + zlen out <= mtu spm
  /\ zlen out <= zlen data + MaxPadding (spm_engine spm)
                 + (if aeadMode spm then I2PBlockHeaderSize else 0).
Proof.
  intros Hv. pose proof (mtu_padding_bounds spm (zlen data) w Hv) as Hb. cbn.
  unfold SSU2_outbound. destruct (calculateMTUAwarePadding spm (zlen data) w) as [p w1]. cbn [fst] in Hb.
  destruct (Z.eqb_spec p 0) as [->|Hp0]; [intros [= _ _ <-]; by left|].
  destruct Hb as [|[Hb1 Hb2]]; [done|]. unfold AddAEADPadding, AddCleartextPadding.
  destruct (aeadMode spm); cbn [andb negb]; case_ifs; try (intros [= _ _ <-]; by left);
    (destruct (padding_bytes _ _ _ _) as [[pad|] w2] eqn:Hpad; [|done]);
    apply padding_bytes_length in Hpad; try lia;
    intros Ho; apply (inj2 pair) in Ho as [_ <-%Ok_inj]; right;
    rewrite ?zlen_app, ?zlen_cons, ?zlen_app, Hpad; unfold I2PBlockHeaderSize in *;
    [assert (zlen (be_encode 2 (u16 p)) = 2) by (unfold zlen; by rewrite length_be_encode)|]; lia.
Qed.
End Sizes.

(** ** Removal of AEAD padding *)

Lemma scan_padding_spec data fuel k n :
  (k <= n < k + fuel)%nat -> padding_block_at data n = true ->
  exists m, (k <= m <= n)%nat /\ scan_padding data fuel k = Some (length data - 3 - m)%nat
    /\ padding_block_at data m = true
    /\ forall j, (k <= j < m)%nat -> padding_block_at data j = false.
Proof.
  revert k. induction fuel as [|fuel IH]; intros k Hk Hn; [lia|]. cbn [scan_padding].
  destruct (padding_block_at data k) eqn:E.
  { exists k. split_and!; [lia|lia|done|done|]. intros j Hj. lia. }
  destruct (decide (k = n)) as [->|Hne]; [congruence|].
  destruct (IH (S k) ltac:(lia) Hn) as (m & Hm & Hs & Hat & Hmin). exists m.
  split_and!; [lia|lia|done|done|]. intros j Hj. destruct (decide (j = k)) as [->|]; [done|].
  apply Hmin. lia.
Qed.

Lemma padding_block_at_end data pad n :
  length pad = n -> Z.of_nat n < 65536 ->
  padding_block_at (data ++ I2PPaddingBlockType :: be_encode 2 (Z.of_nat n) ++ pad) n = true.
Proof.
  intros Hl Hn. unfold padding_block_at.
  rewrite length_app. cbn [length]. rewrite length_app, length_be_encode, Hl.
  replace (length data + S (2 + n) - 3 - n)%nat with (length data) by lia.
  apply andb_true_intro. split.
  - apply bool_decide_eq_true. rewrite lookup_app_r by lia. by rewrite Nat.sub_diag.
  - rewrite (cons_middle I2PPaddingBlockType data), app_assoc, slice_app.
    + rewrite be_decode_encode_small by (cbn; lia). by apply Z.eqb_eq.
    + rewrite length_app. cbn. lia.
    + rewrite length_app, length_be_encode. cbn. lia.
Qed.

(** AEAD padding is removed exactly when no shorter suffix of the padded
    message, that is of the random padding with its header, happens to read as a
    padding block: then the receiver gets the data back, otherwise it keeps part
    of the padding. *)
Theorem aead_padding_roundtrip {W : Type} `{RandSource W} (pe : PaddingEngineConfig) (data out : bytes)
    (paddingSize : Z) (w w' : W) :
  0 <= paddingSize <= MaxPadding pe -> 0 < MaxPadding pe <= I2PMaxBlockDataSize ->
  AddAEADPadding pe data paddingSize w = (w', Ok out) ->
  (RemoveTrailingAEADPadding out (MaxPadding pe) = data <->
   forall k, (k < Z.to_nat paddingSize)%nat -> padding_block_at out k = false).
Proof.
  unfold I2PMaxBlockDataSize. intros Hp Hm. unfold AddAEADPadding.
  destruct (padding_bytes pe _ _ w) as [[pad|] w1] eqn:Hpad; [|done].
  apply padding_bytes_length in Hpad; [|lia]. intros Ho. apply (inj2 pair) in Ho as [_ <-%Ok_inj].
  set (n := Z.to_nat paddingSize). assert (Hn : paddingSize = Z.of_nat n) by lia.
  assert (Hl : length pad = n) by (unfold zlen in Hpad; lia).
  rewrite u16_small by (unfold is_u16; lia). rewrite Hn.
  set (out := data ++ _). assert (Hat : padding_block_at out n = true)
    by (apply padding_block_at_end; [done|lia]).
  assert (Hlo : length out = (length data + 3 + n)%nat)
    by (unfold out; rewrite length_app; cbn [length]; rewrite length_app, length_be_encode; lia).
  unfold RemoveTrailingAEADPadding, I2PBlockHeaderSize, I2PMaxBlockDataSize.
  destruct (Z.ltb_spec (zlen out) 3) as [|_]; [unfold zlen in *; lia|].
  set (mx1 := if _ && _ then _ else _). set (mx := if 65516 <? mx1 then _ else _).
  assert (Hmx : Z.of_nat n <= mx).
  { unfold mx, mx1, zlen. rewrite Hlo. destruct (Z.ltb_spec 0 (MaxPadding pe)); [|lia].
    destruct (Z.ltb_spec (MaxPadding pe) (Z.of_nat (length data + 3 + n) - 3)); cbn [andb];
      case_ifs; lia. }
  destruct (scan_padding_spec out (S (Z.to_nat mx)) 0 n) as (m & Hm1 & -> & Hm2 & Hm3); [lia|done|].
  assert (Htake : take (length out - 3 - m) out = data <-> m = n).
  { split.
    - intros He%(f_equal length). rewrite length_take, Hlo in He. lia.
    - intros ->. rewrite Hlo. replace (length data + 3 + n - 3 - n)%nat with (length data) by lia.
      apply take_app_length. }
  rewrite Htake. split.
  - intros -> k Hk. apply Hm3. lia.
  - intros Hno. destruct (decide (m = n)); [done|]. rewrite Hno in Hm2; [done|lia].
Qed.

(** Data that ends like an empty padding block and is sent without padding loses
    its last three bytes. *)
Lemma unpadded_data_stripped {W : Type} `{RandSource W, FloatConv} (npm : NTCP2PaddingModifier)
    (data : bytes) (w w1 : W) :
  let msg := data ++ [xfe; x00; x00] in
  useAEADPadding npm = true -> CalculatePaddingSize (npm_engine npm) (zlen msg) w = (0, w1) ->
  NTCP2_outbound npm w PhaseData msg = (w1, Ok msg) /\ NTCP2_inbound npm PhaseData msg = data.
Proof.
  cbv zeta. intros Ha Hc. unfold NTCP2_outbound, NTCP2_inbound. rewrite Hc, Ha. split; [done|].
  cbn [andb]. rewrite (proj2 (Z.ltb_lt PhaseFinal PhaseData)) by done.
  unfold RemoveTrailingAEADPadding, I2PBlockHeaderSize.
  assert (Hl : zlen (data ++ [xfe; x00; x00]) = zlen data + 3) by (by rewrite zlen_app).
  pose proof (zlen_nonneg data). destruct (Z.ltb_spec (zlen (data ++ [xfe; x00; x00])) 3); [lia|].
  assert (Hat : padding_block_at (data ++ [xfe; x00; x00]) 0 = true)
    by (apply (padding_block_at_end data [] 0); done).
  cbn [scan_padding]. rewrite Hat.
  rewrite length_app. cbn [length]. replace (length data + 3 - 3 - 0)%nat with (length data) by lia.
  apply take_app_length.
Qed.

Definition demo_engine : PaddingEngineConfig := mkEngine 0 2000 (f64 1) false.

(** The estimate for a message larger than the MTU is negative. *)
Lemma estimate_negative :
  SSU2_EstimatePaddingSize (H0 := amd64_conv) (mkSSU2Padding "p" demo_engine true 1280) 1400 = -152.
Proof. reflexivity. Qed.

(** ** Frames *)

(** The grammar of a frame: blocks, the padding block only at the end. *)
Inductive frame : bytes -> Prop :=
| frame_nil : frame []
| frame_block t d rest :
    t <> I2PPaddingBlockType -> zlen d < 65536 -> frame rest ->
    frame (t :: be_encode 2 (zlen d) ++ d ++ rest)
| frame_padding d :
    zlen d < 65536 -> frame (I2PPaddingBlockType :: be_encode 2 (zlen d) ++ d).

(** A block cut off the rest of a frame at [offset]. *)
Lemma block_at_offset (data : bytes) (offset : nat) :
  validateBlockBounds data offset = true ->
  validateBlockSize data offset (extractBlockHeader data offset).2 = true ->
  let '(t, n) := extractBlockHeader data offset in
  exists d, length d = n /\ zlen d < 65536
    /\ drop offset data = t :: be_encode 2 (zlen d) ++ d ++ drop (offset + (3 + n)) data.
Proof.
  unfold validateBlockBounds, validateBlockSize, extractBlockHeader. cbn [snd].
  rewrite !bool_decide_eq_true. intros Hb Hs.
  set (n := Z.to_nat _) in *. set (r := drop offset data).
  assert (Hr : length r = (length data - offset)%nat) by (unfold r; by rewrite length_drop).
  assert (Hd : data !! offset = r !! 0%nat) by (unfold r; by rewrite lookup_drop, Nat.add_0_r).
  assert (Hsl : slice (offset + 1) (offset + 3) data = slice 1 3 r).
  { unfold r, slice. rewrite drop_drop. f_equal. lia. }
  assert (Hdr : drop (offset + (3 + n)) data = drop (3 + n) r) by (unfold r; by rewrite drop_drop).
  rewrite Hd, Hdr. destruct r as [|t [|l1 [|l2 tl]]]; cbn [length] in Hr; try lia.
  assert (Hn : Z.of_nat n = be_decode [l1; l2]).
  { unfold n. rewrite Hsl. change (slice 1 3 (t :: l1 :: l2 :: tl)) with [l1; l2].
    pose proof (be_decode_bound [l1; l2]). lia. }
  pose proof (be_decode_bound [l1; l2]) as Hbd. change (256 ^ zlen [l1; l2]) with 65536 in Hbd.
  exists (take n tl). assert (Hlt : length (take n tl) = n) by (rewrite length_take; lia).
  unfold zlen. rewrite Hlt. split; [done|]. split; [lia|].
  cbn [drop Nat.add lookup list_lookup default]. rewrite take_drop, Hn, (be_encode_decode 2) by done. done.
Qed.

Lemma block_inj (d d' r r' : bytes) :
  zlen d < 65536 -> zlen d' < 65536 ->
  be_encode 2 (zlen d) ++ d ++ r = be_encode 2 (zlen d') ++ d' ++ r' -> d = d' /\ r = r'.
Proof.
  intros Hd Hd' He. apply app_inj_1 in He as [Hl He]; [|by rewrite !length_be_encode].
  apply (f_equal be_decode) in Hl. pose proof (zlen_nonneg d). pose proof (zlen_nonneg d').
  rewrite !be_decode_encode_small in Hl by (cbn; lia).
  by apply app_inj_1 in He; [|unfold zlen in Hl; lia].
Qed.

Lemma frame_head (t : byte) (d rest : bytes) :
  zlen d < 65536 ->
  frame (t :: be_encode 2 (zlen d) ++ d ++ rest) <->
  (if decide (t = I2PPaddingBlockType) then rest = [] else frame rest).
Proof.
  intros Hd. split.
  - remember (t :: be_encode 2 (zlen d) ++ d ++ rest) as f eqn:Hf.
    intros Hfr. destruct Hfr as [|t' d' rest' Ht Hd' Hr|d' Hd']; [done|..];
      apply cons_eq_inj in Hf as [-> Hf].
    + apply block_inj in Hf as [_ ->]; [|done..]. by rewrite decide_False.
    + rewrite decide_True by done. rewrite <- (app_nil_r d') in Hf at 2.
      by apply block_inj in Hf as [_ <-].
  - case_decide as Ht; intros Hr; [|by constructor]. subst. rewrite app_nil_r. by constructor.
Qed.

Lemma frame_first (f : bytes) :
  frame f -> f = [] \/ exists t d rest, zlen d < 65536 /\ f = t :: be_encode 2 (zlen d) ++ d ++ rest.
Proof.
  intros [|t d rest Ht Hd _|d Hd]; [by left|right; by eexists _, _, _|right].
  exists I2PPaddingBlockType, d, []. by rewrite app_nil_r.
Qed.

Lemma frame_cut (data : bytes) (offset : nat) :
  (offset < length data)%nat -> frame (drop offset data) ->
  validateBlockBounds data offset = true
  /\ validateBlockSize data offset (extractBlockHeader data offset).2 = true.
Proof.
  intros Ho [He|(t & d & rest & Hd & Hdr)]%frame_first.
  { apply (f_equal length) in He. rewrite length_drop in He. cbn in He. lia. }
  unfold validateBlockBounds, validateBlockSize, extractBlockHeader. cbn [snd].
  assert (Hlen : (length data - offset = 3 + (length d + length rest))%nat)
    by (rewrite <- length_drop, Hdr; cbn [length]; rewrite !length_app, length_be_encode; lia).
  rewrite !bool_decide_eq_true. split; [lia|].
  assert (Hsl : slice (offset + 1) (offset + 3) data = be_encode 2 (zlen d)).
  { unfold slice. rewrite <- drop_drop, Hdr. cbn [drop].
    replace (offset + 3 - (offset + 1))%nat with 2%nat by lia.
    rewrite <- (length_be_encode 2 (zlen d)) at 1. apply take_app_length. }
  rewrite Hsl, be_decode_encode_small by (pose proof (zlen_nonneg d); cbn; lia). unfold zlen. lia.
Qed.

Lemma frame_loop_end data fuel offset hp :
  (length data <= offset)%nat -> frame_loop data fuel offset hp = true.
Proof. intros Hl. destruct fuel; [done|]. cbn [frame_loop]. by rewrite decide_True. Qed.

Lemma frame_loop_spec data fuel offset :
  (length data - offset <= fuel)%nat ->
  frame_loop data fuel offset false = true <-> frame (drop offset data).
Proof.
  revert offset. induction fuel as [|fuel IH]; intros offset Hf.
  { rewrite drop_ge by lia. cbn. split; [constructor|done]. }
  cbn [frame_loop]. destruct (decide (length data <= offset)%nat) as [|Ho].
  { rewrite drop_ge by lia. split; [constructor|done]. }
  pose proof (frame_cut data offset ltac:(lia)) as Hcut.
  pose proof (block_at_offset data offset) as Hb.
  destruct (validateBlockBounds data offset); cbn [negb]; [|split; [done|by intros [? _]%Hcut]].
  destruct (extractBlockHeader data offset) as [t n]. cbn [snd] in *.
  destruct (validateBlockSize data offset n) eqn:Hsz; cbn [negb]; [|split; [done|by intros [_ ?]%Hcut]].
  apply bool_decide_eq_true in Hsz. destruct (Hb eq_refl eq_refl) as (d & Hl & Hd & ->).
  rewrite frame_head by done. unfold validateFramePaddingRules.
  destruct (decide (t = I2PPaddingBlockType)).
  - destruct (decide (offset + 3 + n <> length data)%nat) as [Hne|He]; cbn [negb].
    + split; [done|]. intros He%(f_equal length). rewrite length_drop in He. cbn in He. lia.
    + rewrite frame_loop_end by lia. rewrite drop_ge by lia. done.
  - cbn [negb]. apply IH. lia.
Qed.

(** frame validation accepts exactly the frames of the grammar: a sequence of
    blocks that fill the data, of which only the last may be padding. *)
Theorem ValidateAEADFrame_spec (data : bytes) : ValidateAEADFrame data = true <-> frame data.
Proof.
  unfold ValidateAEADFrame. case_decide as Hl.
  - apply nil_length_inv in Hl as ->. split; [constructor|done].
  - rewrite frame_loop_spec by lia. by rewrite drop_0.
Qed.

(** ** Witnesses *)

Definition demo_spm : SSU2PaddingModifier := mkSSU2Padding "p" (mkEngine 16 2000 f64_zero false) true 1280.

Lemma ssu2_padding_fits_mtu_witness :
  exists out, SSU2_outbound (H := zero_source) (H0 := amd64_conv) demo_spm tt PhaseData (replicate 1240 x00)
    = (tt, Ok out) /\ zlen out = 1248 /\ 16 + 16 + zlen out <= 1280.
Proof.
  eexists. split; [vm_compute; reflexivity|]. split; [reflexivity|].
  destruct (ssu2_padding_fits_mtu (H := zero_source) (H0 := amd64_conv) demo_spm demo_spm tt tt PhaseData
    (replicate 1240 x00)
    (replicate 1240 x00 ++ xfe :: x00 :: x05 :: replicate 5 x00)) as [He|[Hf _]].
  - reflexivity.
  - vm_compute. reflexivity.
  - discriminate He.
  - exact Hf.
Defined.

Lemma aead_padding_roundtrip_witness :
  RemoveTrailingAEADPadding ([x01; x02] ++ xfe :: x00 :: x04 :: replicate 4 x00) 64 = [x01; x02].
Proof.
  apply (aead_padding_roundtrip (H := zero_source) (mkEngine 0 64 f64_zero false) [x01; x02]
    ([x01; x02] ++ xfe :: x00 :: x04 :: replicate 4 x00) 4 tt tt).
  - split; discriminate.
  - split; [reflexivity|discriminate].
  - reflexivity.
  - intros k Hk. change (Z.to_nat 4) with 4%nat in Hk.
    destruct k as [|[|[|[|k]]]]; [reflexivity..|lia].
Defined.
