(* ===== verification/HeaderProtection.v ===== *)
(** * Header protection

    [ssu2/wire/header_protection.go] and [ssu2/wire/header_keys.go]: the
    encryption of packet headers, the choice of its keys by packet type and role;
    and from [ssu2/session] the choice of the type ([messageTypeToHeaderType] of
    [conn.go], [expectedInboundHeaderType] of [conn_state.go]).

    A protector works on the packet in place: an operation returns the bytes as
    it leaves them together with its error. ChaCha20 is a library outside the
    repository: the class [ChaCha20Lib] gives the key stream for a key, a nonce
    and a block counter. *)

From Stdlib Require Import ZArith Lia.
From Stdlib Require Import Strings.Byte.
From stdpp Require Import base numbers list.
From S2P Require Import Prelude Packet.

#[local] Open Scope Z_scope.

(** ** ChaCha20

    [key_stream key nonce counter n] is the first [n] bytes of the stream from
    block [counter] on; [None] when the library refuses the key or the nonce. *)

Class ChaCha20Lib := {
  key_stream : bytes -> bytes -> Z -> nat -> option bytes;
  key_stream_length : forall key nonce ctr n ks,
    key_stream key nonce ctr n = Some ks -> length ks = n;
  key_stream_accepts : forall key nonce ctr n,
    length key = 32%nat -> length nonce = 12%nat -> is_Some (key_stream key nonce ctr n);
}.

(** ** Protector *)

Inductive HeaderType :=
| HeaderTypeSessionRequest | HeaderTypeSessionCreated | HeaderTypeRetry
| HeaderTypeTokenRequest | HeaderTypeSessionConfirmed | HeaderTypeData
| HeaderTypePeerTest | HeaderTypeHolePunch.

#[export] Instance HeaderType_eq_dec : EqDecision HeaderType.
Proof. solve_decision. Defined.

Definition HeaderKeySize : nat := 32.

Inductive HeaderError :=
| EKeySize (actual : nat)
| EPacketTooSmall (size min : nat)
| ECipher
| EMissingRemoteIntroKey
| EMissingIntroKey
| EMissingKDFKey
| EPeerTestNotSupported
| EHeaderLength (n : nat).

Record HeaderProtector := mkProtector {
  kHeader1 : bytes;
  kHeader2 : bytes;
  headerType : HeaderType;
}.

Definition NewHeaderProtector (k1 k2 : bytes) (t : HeaderType) : result HeaderError HeaderProtector :=
  if decide (length k1 <> HeaderKeySize) then Err (EKeySize (length k1))
  else if decide (length k2 <> HeaderKeySize) then Err (EKeySize (length k2))
  else Ok (mkProtector k1 k2 t).

Definition NewHeaderProtectorFromIntroKey (introKey : bytes) (t : HeaderType)
    : result HeaderError HeaderProtector :=
  NewHeaderProtector introKey introKey t.

Definition isLongHeader (hp : HeaderProtector) : bool :=
  match headerType hp with
  | HeaderTypeSessionRequest | HeaderTypeSessionCreated | HeaderTypeRetry
  | HeaderTypeTokenRequest | HeaderTypePeerTest | HeaderTypeHolePunch => true
  | HeaderTypeSessionConfirmed | HeaderTypeData => false
  end.

Definition getHeaderSize (hp : HeaderProtector) : nat :=
  if isLongHeader hp then LongHeaderSize else ShortHeaderSize.

Definition validatePacketSize (hp : HeaderProtector) (packet : bytes) : option HeaderError :=
  let minSize := (getHeaderSize hp + 24)%nat in
  if decide (length packet < minSize)%nat then Some (EPacketTooSmall (length packet) minSize) else None.

Definition UpdateKeys (hp : HeaderProtector) (k1 k2 : bytes) : HeaderProtector * option HeaderError :=
  if decide (length k1 <> HeaderKeySize) then (hp, Some (EKeySize (length k1)))
  else if decide (length k2 <> HeaderKeySize) then (hp, Some (EKeySize (length k2)))
  else (mkProtector k1 k2 (headerType hp), None).

Definition SetHeaderType (hp : HeaderProtector) (t : HeaderType) : HeaderProtector :=
  mkProtector (kHeader1 hp) (kHeader2 hp) t.

(** [packet[i+j] ^= mask[j]] for each byte of the mask. *)
Definition xor_at (i : nat) (mask packet : bytes) : bytes :=
  take i packet ++ zip_with byte_xor (slice i (i + length mask) packet) mask
  ++ drop (i + length mask) packet.

Section Protect.
Context `{ChaCha20Lib}.

Definition generateMask (key nonce : bytes) : result HeaderError bytes :=
  match key_stream key nonce 0 8 with None => Err ECipher | Some mask => Ok mask end.

Definition applyXORMasks (hp : HeaderProtector) (packet : bytes) : bytes * option HeaderError :=
  let n := length packet in
  match generateMask (kHeader1 hp) (slice (n - 24) (n - 12) packet) with
  | Err e => (packet, Some e)
  | Ok mask1 =>
      let packet := xor_at 0 mask1 packet in
      match generateMask (kHeader2 hp) (slice (n - 12) n packet) with
      | Err e => (packet, Some e)
      | Ok mask2 => (xor_at 8 mask2 packet, None)
      end
  end.

Definition encryptLongHeaderExtension (hp : HeaderProtector) (packet : bytes)
    : bytes * option HeaderError :=
  if decide (length packet < LongHeaderSize)%nat then (packet, None)
  else
    let hasEphemeral := bool_decide (headerType hp = HeaderTypeSessionRequest)
                        || bool_decide (headerType hp = HeaderTypeSessionCreated) in
    let n := if hasEphemeral && bool_decide (LongHeaderSize + EphemeralKeySize <= length packet)%nat
             then 48%nat else 16%nat in
    match key_stream (kHeader2 hp) (replicate 12 x00) 1 n with
    | None => (packet, Some ECipher)
    | Some ks => (xor_at 16 ks packet, None)
    end.

Definition EncryptHeader (hp : HeaderProtector) (packet : bytes) : bytes * option HeaderError :=
  match validatePacketSize hp packet with
  | Some e => (packet, Some e)
  | None =>
      match (if isLongHeader hp && bool_decide (LongHeaderSize <= length packet)%nat
             then encryptLongHeaderExtension hp packet else (packet, None)) with
      | (packet, Some e) => (packet, Some e)
      | (packet, None) => applyXORMasks hp packet
      end
  end.

Definition DecryptHeader (hp : HeaderProtector) (packet : bytes) : bytes * option HeaderError :=
  match validatePacketSize hp packet with
  | Some e => (packet, Some e)
  | None =>
      match applyXORMasks hp packet with
      | (packet, Some e) => (packet, Some e)
      | (packet, None) =>
          if isLongHeader hp && bool_decide (LongHeaderSize <= length packet)%nat
          then encryptLongHeaderExtension hp packet else (packet, None)
      end
  end.

End Protect.

(** ** Fields of a decrypted header *)

Definition wire_ExtractConnectionID (header : bytes) : result HeaderError Z :=
  if decide (length header < 8)%nat then Err (EHeaderLength (length header))
  else Ok (be_decode (slice 0 8 header)).

Definition wire_EncodeConnectionID (header : bytes) (connID : Z) : bytes * option HeaderError :=
  if decide (length header < 8)%nat then (header, Some (EHeaderLength (length header)))
  else (be_encode 8 connID ++ drop 8 header, None).

Definition wire_ExtractPacketNumber (header : bytes) : result HeaderError Z :=
  if decide (length header < 12)%nat then Err (EHeaderLength (length header))
  else Ok (be_decode (slice 8 12 header)).

Definition wire_EncodePacketNumber (header : bytes) (pktNum : Z) : bytes * option HeaderError :=
  if decide (length header < 12)%nat then (header, Some (EHeaderLength (length header)))
  else (take 8 header ++ be_encode 4 pktNum ++ drop 12 header, None).

(** ** Key manager

    A key that was not set is the empty list, as a nil slice is in Go. *)

Record HeaderProtectorManager := mkManager {
  introKey : bytes;
  remoteIntroKey : bytes;
  sendDataHeader2 : bytes;
  recvDataHeader2 : bytes;
  sessCreateHeader2 : bytes;
  sessionConfirmedHeader2 : bytes;
  isInitiator : bool;
}.

Definition NewHeaderProtectorManager (intro remote : bytes) (initiator : bool)
    : result HeaderError HeaderProtectorManager :=
  if decide (length intro <> HeaderKeySize) then Err (EKeySize (length intro))
  else
    let remote := if decide (length remote = HeaderKeySize) then remote else [] in
    Ok (mkManager intro remote [] [] [] [] initiator).

Definition has_key (k : bytes) : bool := bool_decide (length k = HeaderKeySize).

Definition keysForIntroProtected (m : HeaderProtectorManager) : result HeaderError (bytes * bytes) :=
  if isInitiator m
  then if has_key (remoteIntroKey m) then Ok (remoteIntroKey m, remoteIntroKey m)
       else Err EMissingRemoteIntroKey
  else Ok (introKey m, introKey m).

Definition keysForHolePunch (m : HeaderProtectorManager) : result HeaderError (bytes * bytes) :=
  if has_key (remoteIntroKey m) then Ok (remoteIntroKey m, remoteIntroKey m)
  else Err EMissingRemoteIntroKey.

Definition keysForSessionCreatedRetry (m : HeaderProtectorManager) (t : HeaderType)
    : result HeaderError (bytes * bytes) :=
  if isInitiator m && negb (has_key (remoteIntroKey m)) then Err EMissingRemoteIntroKey
  else
    let base := if isInitiator m then remoteIntroKey m else introKey m in
    if decide (t = HeaderTypeRetry) then Ok (base, base)
    else if has_key (sessCreateHeader2 m) then Ok (base, sessCreateHeader2 m)
    else Err EMissingKDFKey.

Definition keysForKDFProtected (m : HeaderProtectorManager) (t : HeaderType)
    : result HeaderError (bytes * bytes) :=
  if decide (t = HeaderTypeSessionConfirmed) then
    if isInitiator m && negb (has_key (remoteIntroKey m)) then Err EMissingRemoteIntroKey
    else
      let k1 := if isInitiator m then remoteIntroKey m else introKey m in
      if has_key (sessionConfirmedHeader2 m) then Ok (k1, sessionConfirmedHeader2 m)
      else Err EMissingKDFKey
  else if negb (has_key (remoteIntroKey m)) then Err EMissingRemoteIntroKey
  else if negb (has_key (sendDataHeader2 m)) then Err EMissingKDFKey
  else Ok (remoteIntroKey m, sendDataHeader2 m).

Definition protectorKeys (m : HeaderProtectorManager) (t : HeaderType)
    : result HeaderError (bytes * bytes) :=
  match t with
  | HeaderTypeSessionRequest | HeaderTypeTokenRequest => keysForIntroProtected m
  | HeaderTypeHolePunch => keysForHolePunch m
  | HeaderTypeSessionCreated | HeaderTypeRetry => keysForSessionCreatedRetry m t
  | HeaderTypeSessionConfirmed | HeaderTypeData => keysForKDFProtected m t
  | HeaderTypePeerTest => Err EPeerTestNotSupported
  end.

Definition GetProtectorForType (m : HeaderProtectorManager) (t : HeaderType)
    : result HeaderError HeaderProtector :=
  match protectorKeys m t with
  | Err e => Err e
  | Ok (k1, k2) => NewHeaderProtector k1 k2 t
  end.

Definition getDataInboundKeys (m : HeaderProtectorManager) : result HeaderError (bytes * bytes) :=
  if negb (has_key (introKey m)) then Err EMissingIntroKey
  else if negb (has_key (recvDataHeader2 m)) then Err EMissingKDFKey
  else Ok (introKey m, recvDataHeader2 m).

Definition SetKDFKeys (m : HeaderProtectorManager) (sendKH2 recvKH2 : bytes)
    : HeaderProtectorManager * option HeaderError :=
  if negb (has_key sendKH2) then (m, Some (EKeySize (length sendKH2)))
  else if negb (has_key recvKH2) then (m, Some (EKeySize (length recvKH2)))
  else (mkManager (introKey m) (remoteIntroKey m) sendKH2 recvKH2 (sessCreateHeader2 m)
          (sessionConfirmedHeader2 m) (isInitiator m), None).

Definition SetSessCreateHeaderKey (m : HeaderProtectorManager) (key : bytes)
    : HeaderProtectorManager * option HeaderError :=
  if negb (has_key key) then (m, Some (EKeySize (length key)))
  else (mkManager (introKey m) (remoteIntroKey m) (sendDataHeader2 m) (recvDataHeader2 m) key
          (sessionConfirmedHeader2 m) (isInitiator m), None).

Definition SetSessionConfirmedHeaderKey (m : HeaderProtectorManager) (key : bytes)
    : HeaderProtectorManager * option HeaderError :=
  if negb (has_key key) then (m, Some (EKeySize (length key)))
  else (mkManager (introKey m) (remoteIntroKey m) (sendDataHeader2 m) (recvDataHeader2 m)
          (sessCreateHeader2 m) key (isInitiator m), None).

Definition SetRemoteIntroKey (m : HeaderProtectorManager) (key : bytes)
    : HeaderProtectorManager * option HeaderError :=
  if negb (has_key key) then (m, Some (EKeySize (length key)))
  else (mkManager (introKey m) key (sendDataHeader2 m) (recvDataHeader2 m) (sessCreateHeader2 m)
          (sessionConfirmedHeader2 m) (isInitiator m), None).

Section Manage.
Context `{ChaCha20Lib}.

Definition EncryptOutboundHeader (m : HeaderProtectorManager) (packet : bytes) (t : HeaderType)
    : bytes * option HeaderError :=
  match GetProtectorForType m t with
  | Err e => (packet, Some e)
  | Ok hp => EncryptHeader hp packet
  end.

Definition DecryptInboundHeader (m : HeaderProtectorManager) (packet : bytes) (t : HeaderType)
    : bytes * option HeaderError :=
  match (if decide (t = HeaderTypeData)
         then match getDataInboundKeys m with
              | Err e => Err e
              | Ok (k1, k2) => NewHeaderProtector k1 k2 t
              end
         else GetProtectorForType m t) with
  | Err e => (packet, Some e)
  | Ok hp => DecryptHeader hp packet
  end.

End Manage.

(** ** Header types of a connection *)

Definition messageTypeToHeaderType (msgType : byte) : HeaderType :=
  if decide (msgType = MessageTypeSessionRequest) then HeaderTypeSessionRequest
  else if decide (msgType = MessageTypeSessionCreated) then HeaderTypeSessionCreated
  else if decide (msgType = MessageTypeSessionConfirmed) then HeaderTypeSessionConfirmed
  else if decide (msgType = MessageTypeRetry) then HeaderTypeRetry
  else if decide (msgType = MessageTypeTokenRequest) then HeaderTypeTokenRequest
  else if decide (msgType = MessageTypePeerTest) then HeaderTypePeerTest
  else if decide (msgType = MessageTypeHolePunch) then HeaderTypeHolePunch
  else HeaderTypeData.

Definition expectedInboundHeaderType (established initiator : bool) : HeaderType :=
  if established then HeaderTypeData
  else if initiator then HeaderTypeSessionCreated
  else HeaderTypeSessionRequest.

(** ** Masks *)

Lemma xor_at_lookup i mask packet k :
  (i + length mask <= length packet)%nat ->
  xor_at i mask packet !! k =
  if decide (i <= k < i + length mask)%nat
  then match packet !! k, mask !! (k - i)%nat with Some b, Some m => Some (byte_xor b m) | _, _ => None end
  else packet !! k.
Proof.
  intros Hlen. unfold xor_at.
  assert (Hs : length (slice i (i + length mask) packet) = length mask)
    by (rewrite length_slice; lia).
  assert (Hz : length (zip_with byte_xor (slice i (i + length mask) packet) mask) = length mask)
    by (rewrite length_zip_with; lia).
  destruct (decide (k < i)%nat) as [Hk|Hk].
  - rewrite lookup_app_l by (rewrite length_take; lia). rewrite lookup_take_lt by lia.
    rewrite decide_False by lia. done.
  - rewrite lookup_app_r by (rewrite length_take; lia). rewrite length_take, Nat.min_l by lia.
    destruct (decide (k < i + length mask)%nat).
    + rewrite lookup_app_l by lia. rewrite decide_True by lia.
      rewrite lookup_zip_with. unfold slice. rewrite lookup_take_lt, lookup_drop by lia.
      replace (i + (k - i))%nat with k by lia.
      destruct (packet !! k), (mask !! (k - i)%nat); done.
    + rewrite lookup_app_r, Hz by lia. rewrite lookup_drop, decide_False by lia. f_equal; lia.
Qed.

Lemma xor_at_length i mask packet :
  (i + length mask <= length packet)%nat -> length (xor_at i mask packet) = length packet.
Proof.
  intros. unfold xor_at. rewrite !length_app, length_take, length_drop, length_zip_with, length_slice; lia.
Qed.

Lemma xor_at_cancel i mask packet :
  (i + length mask <= length packet)%nat -> xor_at i mask (xor_at i mask packet) = packet.
Proof.
  intros Hlen. apply list_eq. intros k. rewrite !xor_at_lookup by (rewrite ?xor_at_length; lia).
  destruct (decide _) as [Hk|Hk]; [|done].
  destruct (lookup_lt_is_Some_2 mask (k - i)%nat) as [m Hm]; [lia|].
  destruct (packet !! k) as [b|]; rewrite ?Hm; cbn; [|done].
  f_equal. apply byte_xor_cancel.
Qed.

Lemma xor_at_comm i j mask1 mask2 packet :
  (i + length mask1 <= j)%nat -> (j + length mask2 <= length packet)%nat ->
  xor_at i mask1 (xor_at j mask2 packet) = xor_at j mask2 (xor_at i mask1 packet).
Proof.
  intros. apply list_eq. intros k. rewrite !xor_at_lookup by (rewrite ?xor_at_length; lia).
  repeat destruct (decide _); done || lia.
Qed.

Lemma xor_at_drop i mask packet a :
  (i + length mask <= a)%nat -> (i + length mask <= length packet)%nat ->
  drop a (xor_at i mask packet) = drop a packet.
Proof.
  intros. apply list_eq. intros k. rewrite !lookup_drop, xor_at_lookup, decide_False by lia. done.
Qed.

Lemma xor_at_slice i mask packet a b :
  (i + length mask <= a)%nat -> (i + length mask <= length packet)%nat ->
  slice a b (xor_at i mask packet) = slice a b packet.
Proof. intros. unfold slice. rewrite xor_at_drop by done. done. Qed.

(** ** Protection is undone *)

Definition protector_ok (hp : HeaderProtector) : Prop :=
  length (kHeader1 hp) = 32%nat /\ length (kHeader2 hp) = 32%nat.

Section RoundTrip.
Context `{ChaCha20Lib}.

Lemma DecryptHeader_length hp packet q : DecryptHeader hp packet = (q, None) -> length q = length packet.
Proof.
  unfold DecryptHeader, validatePacketSize. case_decide as Hlen; [done|].
  assert (40 <= length packet)%nat by (unfold getHeaderSize in Hlen; destruct (isLongHeader hp); cbn in Hlen; lia).
  assert (Hmask : forall p, applyXORMasks hp packet = (p, None) -> length p = length packet).
  { intros p. unfold applyXORMasks, generateMask. destruct (key_stream _ _ 0 8) as [m1|] eqn:H1; [|done].
    apply key_stream_length in H1. destruct (key_stream (kHeader2 hp) _ 0 8) as [m2|] eqn:H2; [|done].
    apply key_stream_length in H2. intros [= <-]. rewrite !xor_at_length; rewrite ?xor_at_length; lia. }
  destruct (applyXORMasks hp packet) as [p [e|]]; [done|]. specialize (Hmask p eq_refl).
  destruct (_ && _); [|by intros [= <-]].
  unfold encryptLongHeaderExtension. case_decide as Hlong; [by intros [= <-]|].
  destruct (key_stream _ _ 1 _) as [ks|] eqn:Hks; [|done]. apply key_stream_length in Hks. intros [= <-].
  rewrite xor_at_length; [done|]. rewrite Hks. unfold LongHeaderSize, EphemeralKeySize in *.
  destruct (_ && bool_decide (_ <= _)%nat) eqn:Hb; [apply andb_prop in Hb as [_ Hb%bool_decide_eq_true]|]; lia.
Qed.

(** What the masks do: two key streams that only depend on the keys and on the
    tail of the packet. *)
Lemma applyXORMasks_spec hp packet :
  protector_ok hp -> (40 <= length packet)%nat ->
  exists m1 m2, length m1 = 8%nat /\ length m2 = 8%nat
    /\ applyXORMasks hp packet = (xor_at 8 m2 (xor_at 0 m1 packet), None)
    /\ forall q, length q = length packet -> drop 16 q = drop 16 packet ->
       applyXORMasks hp q = (xor_at 8 m2 (xor_at 0 m1 q), None).
Proof.
  intros [Hk1 Hk2] Hlen. set (n := length packet) in *.
  assert (Hs : forall a b, (a + 12 = b)%nat -> (b <= n)%nat -> length (slice a b packet) = 12%nat)
    by (intros; rewrite length_slice; lia).
  destruct (key_stream_accepts _ _ 0 8 Hk1 (Hs (n - 24)%nat (n - 12)%nat ltac:(lia) ltac:(lia))) as [m1 Hm1].
  destruct (key_stream_accepts _ _ 0 8 Hk2 (Hs (n - 12)%nat n ltac:(lia) ltac:(lia))) as [m2 Hm2].
  pose proof (key_stream_length _ _ _ _ _ Hm1). pose proof (key_stream_length _ _ _ _ _ Hm2).
  assert (Happ : forall q, length q = n -> drop 16 q = drop 16 packet ->
    applyXORMasks hp q = (xor_at 8 m2 (xor_at 0 m1 q), None)).
  { intros q Hq Htail.
    assert (Hslice : forall a b, (16 <= a)%nat -> slice a b q = slice a b packet).
    { intros a b Ha. unfold slice. replace a with (16 + (a - 16))%nat by lia.
      rewrite <- !drop_drop, Htail. done. }
    unfold applyXORMasks, generateMask. rewrite Hq, Hslice, Hm1 by lia.
    rewrite xor_at_slice, Hslice, Hm2 by lia. done. }
  exists m1, m2. split_and!; auto.
Qed.

Lemma applyXORMasks_cancel hp packet q :
  protector_ok hp -> (40 <= length packet)%nat -> applyXORMasks hp packet = (q, None) ->
  length q = length packet /\ drop 16 q = drop 16 packet /\ applyXORMasks hp q = (packet, None).
Proof.
  intros Hok Hlen Happ.
  destruct (applyXORMasks_spec hp packet Hok Hlen) as (m1 & m2 & Hl1 & Hl2 & Heq & Hq).
  rewrite Heq in Happ. injection Happ as <-.
  assert (Hlq : length (xor_at 8 m2 (xor_at 0 m1 packet)) = length packet)
    by (rewrite !xor_at_length; rewrite ?xor_at_length; lia).
  assert (Hdq : drop 16 (xor_at 8 m2 (xor_at 0 m1 packet)) = drop 16 packet)
    by (rewrite !xor_at_drop; rewrite ?xor_at_length; lia || done).
  split_and!; [done..|]. rewrite (Hq _ Hlq Hdq). f_equal.
  rewrite (xor_at_comm 0 8) by (rewrite ?xor_at_length; lia).
  rewrite (xor_at_cancel 0) by lia. apply xor_at_cancel. lia.
Qed.

(** The extension is the same key stream on every packet of one length. *)
Lemma extension_spec hp (packet : bytes) :
  protector_ok hp -> (56 <= length packet)%nat ->
  exists ks, (length ks <= 48)%nat /\ (16 + length ks <= length packet)%nat
    /\ forall q, length q = length packet -> encryptLongHeaderExtension hp q = (xor_at 16 ks q, None).
Proof.
  intros [Hk1 Hk2] Hlen. unfold encryptLongHeaderExtension, LongHeaderSize, EphemeralKeySize.
  set (eph := bool_decide (headerType hp = HeaderTypeSessionRequest)
              || bool_decide (headerType hp = HeaderTypeSessionCreated)).
  set (n := if eph && bool_decide (32 + 32 <= length packet)%nat then 48%nat else 16%nat).
  destruct (key_stream_accepts _ _ 1 n Hk2 (length_replicate 12 x00)) as [ks Hks].
  pose proof (key_stream_length _ _ _ _ _ Hks) as Hl.
  assert (Hn : (n <= 48 /\ 16 + n <= length packet)%nat).
  { subst n. destruct eph; cbn [andb]; [case_bool_decide|]; lia. }
  exists ks. split_and!; [lia|lia|]. intros q Hq. rewrite Hq, decide_False by lia.
  fold n. rewrite Hks. done.
Qed.

Lemma long_min hp packet :
  validatePacketSize hp packet = None ->
  (40 <= length packet)%nat /\ (isLongHeader hp = true -> 56 <= length packet)%nat.
Proof.
  unfold validatePacketSize, getHeaderSize, LongHeaderSize, ShortHeaderSize.
  intros Hv. case_ifs; split; intros; try congruence; lia.
Qed.

Lemma validatePacketSize_length hp packet q :
  length q = length packet -> validatePacketSize hp q = validatePacketSize hp packet.
Proof. intros Hq. unfold validatePacketSize. rewrite Hq. done. Qed.

(** Encrypting a header changes bytes of the header (and of the ephemeral key)
    only, and decrypting it gives the packet back. *)
Lemma DecryptHeader_EncryptHeader hp packet q :
  protector_ok hp -> EncryptHeader hp packet = (q, None) ->
  length q = length packet
  /\ drop (if isLongHeader hp then 64 else 16) q = drop (if isLongHeader hp then 64 else 16) packet
  /\ DecryptHeader hp q = (packet, None).
Proof.
  unfold EncryptHeader. intros Hok Henc.
  destruct (validatePacketSize hp packet) eqn:Hv; [discriminate|].
  pose proof (long_min _ _ Hv) as [H40 H56]. destruct (isLongHeader hp) eqn:Hlong; cbn [andb] in Henc.
  - specialize (H56 eq_refl). rewrite bool_decide_true in Henc by (unfold LongHeaderSize; lia).
    destruct (extension_spec hp packet Hok H56) as (ks & Hks & Hks' & Hext).
    rewrite Hext in Henc by done.
    assert (Hl : length (xor_at 16 ks packet) = length packet) by (apply xor_at_length; lia).
    apply applyXORMasks_cancel in Henc as (Hlq & Hdq & Hback); [|done|lia].
    split_and!; [lia| |].
    + replace 64%nat with (16 + 48)%nat by lia. rewrite <- drop_drop, Hdq, drop_drop.
      apply xor_at_drop; lia.
    + unfold DecryptHeader. rewrite (validatePacketSize_length _ packet), Hv, Hback, Hlong by lia.
      cbn [andb]. rewrite bool_decide_true, Hext, xor_at_cancel by (unfold LongHeaderSize; lia). done.
  - apply applyXORMasks_cancel in Henc as (Hlq & Hdq & Hback); [|done|lia].
    split_and!; [lia|done|].
    unfold DecryptHeader. rewrite (validatePacketSize_length _ packet), Hv, Hback, Hlong by lia. done.
Qed.

(** A packet of the minimal size is always protected. *)
Lemma EncryptHeader_total hp packet :
  protector_ok hp -> validatePacketSize hp packet = None -> (EncryptHeader hp packet).2 = None.
Proof.
  intros Hok Hv. unfold EncryptHeader. rewrite Hv. pose proof (long_min _ _ Hv) as [H40 H56].
  destruct (isLongHeader hp); cbn [andb].
  - specialize (H56 eq_refl). rewrite bool_decide_true by (unfold LongHeaderSize; lia).
    destruct (extension_spec hp packet Hok H56) as (ks & _ & Hks' & Hext). rewrite Hext by done.
    destruct (applyXORMasks_spec hp (xor_at 16 ks packet) Hok) as (? & ? & _ & _ & Heq & _);
      [rewrite xor_at_length; lia|].
    rewrite Heq. done.
  - destruct (applyXORMasks_spec hp packet Hok H40) as (? & ? & _ & _ & Heq & _). rewrite Heq. done.
Qed.

End RoundTrip.

(** Each field is read back, and writing one leaves the other alone. *)
Lemma header_fields header connID pktNum :
  (12 <= length header)%nat -> 0 <= connID < 2 ^ 64 -> is_u32 pktNum ->
  let h1 := (wire_EncodeConnectionID header connID).1 in
  let h2 := (wire_EncodePacketNumber h1 pktNum).1 in
  length h2 = length header /\ wire_ExtractConnectionID h2 = Ok connID
  /\ wire_ExtractPacketNumber h2 = Ok pktNum /\ drop 12 h2 = drop 12 header.
Proof.
  intros Hlen Hid Hnum. cbv zeta.
  unfold wire_EncodeConnectionID, wire_EncodePacketNumber, wire_ExtractConnectionID, wire_ExtractPacketNumber.
  rewrite (decide_False (P := (length header < 8)%nat)) by lia. cbn [fst].
  assert (Hl : length (be_encode 8 connID ++ drop 8 header) = length header)
    by (rewrite length_app, length_be_encode, length_drop; lia).
  rewrite Hl, decide_False by lia. cbn [fst].
  rewrite take_app_le, take_ge by (rewrite length_be_encode; lia).
  replace (drop 12 (be_encode 8 connID ++ drop 8 header)) with (drop 12 header).
  2:{ rewrite drop_app_ge by (rewrite length_be_encode; lia).
      rewrite length_be_encode, drop_drop. f_equal. }
  assert (Hl2 : length (be_encode 8 connID ++ be_encode 4 pktNum ++ drop 12 header) = length header)
    by (rewrite !length_app, !length_be_encode, length_drop; lia).
  rewrite Hl2, !decide_False by lia. split_and!.
  - done.
  - rewrite slice_prefix by (by rewrite length_be_encode). f_equal. apply be_decode_encode_small. exact Hid.
  - rewrite slice_app by (by rewrite !length_be_encode). f_equal. apply be_decode_encode_small. exact Hnum.
  - rewrite app_assoc, drop_app_ge by (rewrite length_app, !length_be_encode; lia).
    rewrite length_app, !length_be_encode. done.
Qed.

(** ** Two ends of a session *)

Definition keys_set (m : HeaderProtectorManager) : Prop :=
  Forall (fun k => length k = HeaderKeySize)
    [introKey m; remoteIntroKey m; sendDataHeader2 m; recvDataHeader2 m; sessCreateHeader2 m;
     sessionConfirmedHeader2 m].

(** The managers of the two ends after the handshake: each knows the other's
    introduction key, and the derived keys agree. *)
Record managers_paired (s r : HeaderProtectorManager) : Prop := {
  paired_roles : isInitiator r = negb (isInitiator s);
  paired_intro : introKey r = remoteIntroKey s;
  paired_remote : remoteIntroKey r = introKey s;
  paired_send : recvDataHeader2 r = sendDataHeader2 s;
  paired_recv : sendDataHeader2 r = recvDataHeader2 s;
  paired_created : sessCreateHeader2 r = sessCreateHeader2 s;
  paired_confirmed : sessionConfirmedHeader2 r = sessionConfirmedHeader2 s;
}.

Definition header_size (t : HeaderType) : nat :=
  match t with
  | HeaderTypeSessionConfirmed | HeaderTypeData => ShortHeaderSize
  | _ => LongHeaderSize
  end.

(** The bytes that protection may change: the header, and the ephemeral key
    after a long one. *)
Definition protected_size (t : HeaderType) : nat :=
  match t with
  | HeaderTypeSessionConfirmed | HeaderTypeData => ShortHeaderSize
  | _ => (LongHeaderSize + EphemeralKeySize)%nat
  end.

(** The packets that each role sends in a session. *)
Definition sent_by (initiator : bool) (t : HeaderType) : bool :=
  match t with
  | HeaderTypeSessionRequest | HeaderTypeTokenRequest | HeaderTypeSessionConfirmed => initiator
  | HeaderTypeSessionCreated | HeaderTypeRetry => negb initiator
  | HeaderTypeData => true
  | HeaderTypePeerTest | HeaderTypeHolePunch => false
  end.

Definition inbound_protector (m : HeaderProtectorManager) (t : HeaderType)
    : result HeaderError HeaderProtector :=
  if decide (t = HeaderTypeData)
  then match getDataInboundKeys m with
       | Err e => Err e
       | Ok (k1, k2) => NewHeaderProtector k1 k2 t
       end
  else GetProtectorForType m t.

Lemma NewHeaderProtector_ok k1 k2 t :
  length k1 = HeaderKeySize -> length k2 = HeaderKeySize ->
  NewHeaderProtector k1 k2 t = Ok (mkProtector k1 k2 t).
Proof. intros H1 H2. unfold NewHeaderProtector. rewrite !decide_False by (intros Hn; done). done. Qed.

Lemma has_key_true k : length k = HeaderKeySize -> has_key k = true.
Proof. apply bool_decide_true. Qed.

(** Both ends choose the same protector. *)
Lemma protectors_agree s r t :
  keys_set s -> managers_paired s r -> sent_by (isInitiator s) t = true ->
  exists hp, GetProtectorForType s t = Ok hp /\ inbound_protector r t = Ok hp
    /\ protector_ok hp /\ headerType hp = t.
Proof.
  destruct s as [i rm sd rd sc cf ini], r as [i' rm' sd' rd' sc' cf' ini'].
  intros Hset [Hr Hi Hrm Hsd Hrd Hsc Hcf] Hby. cbn in *. subst.
  unfold keys_set in Hset. cbn in Hset. decompose_Forall_hyps.
  unfold inbound_protector, GetProtectorForType, getDataInboundKeys, protectorKeys, keysForIntroProtected,
    keysForSessionCreatedRetry, keysForKDFProtected.
  destruct t, ini; try discriminate Hby;
    cbn -[has_key NewHeaderProtector HeaderKeySize decide];
    repeat first [rewrite has_key_true by done | rewrite NewHeaderProtector_ok by done
                 | rewrite decide_True by done | rewrite decide_False by done
                 | progress cbn -[has_key NewHeaderProtector HeaderKeySize decide]];
    (eexists; split_and!; [reflexivity|reflexivity|done..]).
Qed.

Section Session.
Context `{ChaCha20Lib}.

Lemma protected_and_back (s r : HeaderProtectorManager) (t : HeaderType) (packet : bytes) :
  keys_set s -> managers_paired s r -> sent_by (isInitiator s) t = true ->
  (header_size t + 24 <= length packet)%nat ->
  exists q, EncryptOutboundHeader s packet t = (q, None)
    /\ DecryptInboundHeader r q t = (packet, None)
    /\ length q = length packet /\ drop (protected_size t) q = drop (protected_size t) packet.
Proof.
  intros Hset Hp Hby Hlen.
  destruct (protectors_agree s r t Hset Hp Hby) as (hp & Hs & Hr & Hok & Ht).
  assert (Hv : validatePacketSize hp packet = None).
  { unfold validatePacketSize, getHeaderSize, LongHeaderSize, ShortHeaderSize.
    apply decide_False. unfold isLongHeader. rewrite Ht. destruct t; cbn in *; lia. }
  pose proof (EncryptHeader_total hp packet Hok Hv) as Htot.
  destruct (EncryptHeader hp packet) as [q e] eqn:Henc. cbn in Htot. subst e.
  destruct (DecryptHeader_EncryptHeader hp packet q Hok Henc) as (Hl & Hd & Hdec).
  exists q. unfold EncryptOutboundHeader, DecryptInboundHeader. fold (inbound_protector r t).
  rewrite Hs, Hr. split_and!; [done..|].
  unfold isLongHeader in Hd. rewrite Ht in Hd. destruct t; exact Hd.
Qed.

(** C18: header protection is lossless between the two ends of a session: a packet
    of any type that the sender's role sends, long enough to be protected, is
    protected without error, only its header and ephemeral key change, and the
    other end, using the keys it selects by itself, recovers it exactly. *)
Theorem header_protection_roundtrip (s r : HeaderProtectorManager) (t : HeaderType) (packet : bytes) :
  keys_set s -> managers_paired s r -> sent_by (isInitiator s) t = true ->
  (header_size t + 24 <= length packet)%nat ->
  exists q, EncryptOutboundHeader s packet t = (q, None)
    /\ DecryptInboundHeader r q t = (packet, None)
    /\ length q = length packet /\ drop (protected_size t) q = drop (protected_size t) packet.
Proof. apply protected_and_back. Qed.

End Session.

(** ** Keys that do not meet *)

(** A key stream that repeats the first byte of the key. *)
#[program] Definition demo_chacha : ChaCha20Lib := {|
  key_stream key nonce _ n :=
    if decide (length key = 32%nat /\ length nonce = 12%nat)
    then Some (replicate n (default x00 (head key))) else None;
|}.
Next Obligation. intros key nonce ctr n ks Hk. cbn in Hk. case_decide; simplify_eq. apply length_replicate. Qed.
Next Obligation. intros key nonce ctr n Hk Hn. cbn. rewrite decide_True by done. eauto. Qed.

#[local] Existing Instance demo_chacha.

Definition demo_manager (own peer send recv : byte) (initiator : bool) : HeaderProtectorManager :=
  mkManager (replicate 32 own) (replicate 32 peer) (replicate 32 send) (replicate 32 recv)
    (replicate 32 x05) (replicate 32 x06) initiator.

Definition demo_alice : HeaderProtectorManager := demo_manager x01 x02 x03 x04 true.
Definition demo_bob : HeaderProtectorManager := demo_manager x02 x01 x04 x03 false.

(** A SessionConfirmed packet, message type in byte 12. *)
Definition demo_confirmed : bytes := replicate 12 x00 ++ [MessageTypeSessionConfirmed] ++ replicate 67 x00.

Lemma header_protection_roundtrip_witness :
  exists q, EncryptOutboundHeader demo_alice demo_confirmed HeaderTypeSessionConfirmed = (q, None)
    /\ q <> demo_confirmed
    /\ DecryptInboundHeader demo_bob q HeaderTypeSessionConfirmed = (demo_confirmed, None).
Proof.
  destruct (header_protection_roundtrip demo_alice demo_bob HeaderTypeSessionConfirmed demo_confirmed)
    as (q & Henc & Hdec & _ & _).
  - repeat constructor.
  - split; reflexivity.
  - reflexivity.
  - vm_compute. lia.
  - exists q. split_and!; [done| |done]. intros ->. revert Henc. vm_compute. discriminate.
Defined.

(** A responder that waits for the SessionConfirmed packet still decrypts headers
    as SessionRequest: the message type it reads is not the one that was sent. *)
Lemma session_confirmed_misread :
  let '(wire, e) := EncryptOutboundHeader demo_alice demo_confirmed
                      (messageTypeToHeaderType MessageTypeSessionConfirmed) in
  let '(got, e') := DecryptInboundHeader demo_bob wire (expectedInboundHeaderType false false) in
  e = None /\ e' = None /\ got !! 12%nat <> Some MessageTypeSessionConfirmed.
Proof. vm_compute. split_and!; congruence. Qed.

(** Hole Punch packets are encrypted with the receiver's key and decrypted with
    the sender's. *)
Lemma hole_punch_misread :
  let '(wire, e) := EncryptOutboundHeader demo_alice demo_confirmed HeaderTypeHolePunch in
  let '(got, e') := DecryptInboundHeader demo_bob wire HeaderTypeHolePunch in
  e = None /\ e' = None /\ got <> demo_confirmed.
Proof. vm_compute. split_and!; congruence. Qed.
