(* ===== verification/Framing.v ===== *)
(** * Encrypted streams

    The byte streams above the Noise library: [conn/io.go] with [Read] and
    [Write] of [conn/conn.go] (length-prefixed Noise messages), and
    [ntcp2/conn_framing.go] with the nonce guards of [ntcp2/conn_lifecycle.go]
    (SipHash-obfuscated NTCP2 frames).

    The cipher states are those of the Noise library, which is not part of the
    repository: they are operations of the class [NoiseCipher], with the
    documented laws (the ciphertext is 16 bytes longer; a receiver in step
    decrypts what was encrypted and stays in step). The socket's write outcomes
    are an argument; the incoming stream is the list of bytes not yet read. *)

From Stdlib Require Import ZArith Lia.
From Stdlib Require Import Strings.Byte.
From stdpp Require Import base numbers list strings.
From S2P Require Import Prelude Modifiers.

#[local] Open Scope Z_scope.

Class NoiseCipher (CS : Type) := {
  cs_Encrypt : CS -> bytes -> CS * option bytes;
  cs_Decrypt : CS -> bytes -> CS * option bytes;
  in_step : CS -> CS -> Prop;
  cs_Encrypt_length : forall s p s' c, cs_Encrypt s p = (s', Some c) -> zlen c = zlen p + 16;
  cs_Decrypt_Encrypt : forall s r p s' c, in_step s r -> cs_Encrypt s p = (s', Some c) ->
    exists r', cs_Decrypt r c = (r', Some p) /\ in_step s' r';
}.

(** ** Noise connections *)

Inductive IOError :=
| EConnClosed
| EHandshakeNotDone
| ENoCipherState
| ESetDeadline
| EModifier (e : ModifierError)
| EEncryptFailed
| EDecryptFailed
| EMessageTooLarge (length : Z)
| EWriteFailed
| EPartialWrite (written : Z)
| EReadLengthFailed
| EEmptyMessage
| EReadFailed
| EBroken
| ENonceExhausted
| EFrameTooSmall (length : Z)
| EFrameTooLarge (length : Z)
| EInvalidFrameSize (size : Z).

(** The outcome of [underlying.Write]: how many bytes left, and an error. *)
Inductive SockResult :=
| SockOk
| SockShort (n : nat)
| SockErr (n : nat).

Record Sock := mkSock {
  sock_write : bytes -> SockResult;
  sock_deadline_ok : bool;
}.

(** The bytes a write puts on the wire. *)
Definition on_wire (r : SockResult) (data : bytes) : bytes :=
  match r with SockOk => data | SockShort n | SockErr n => take n data end.

Record NoiseConn (W M CS : Type) := mkNoise {
  sendCipherState : option CS;
  recvCipherState : option CS;
  modifierChain : option (ModifierChain M);
  rand : W;
  pendingPlaintext : bytes;
  nc_closed : bool;
  handshakeDone : bool;
  bytesRead : Z;
  bytesWritten : Z;
}.
Arguments mkNoise {W M CS}.
Arguments sendCipherState {W M CS}.
Arguments recvCipherState {W M CS}.
Arguments modifierChain {W M CS}.
Arguments rand {W M CS}.
Arguments pendingPlaintext {W M CS}.
Arguments nc_closed {W M CS}.
Arguments handshakeDone {W M CS}.
Arguments bytesRead {W M CS}.
Arguments bytesWritten {W M CS}.

Definition maxNoiseMessageSize : Z := 65535.

Section Noise.
Context {W M CS : Type} `{HandshakeModifier W M} `{NoiseCipher CS}.

Abbreviation Conn := (NoiseConn W M CS).

Definition set_send (nc : Conn) (cs : CS) : Conn :=
  mkNoise (Some cs) (recvCipherState nc) (modifierChain nc) (rand nc) (pendingPlaintext nc)
    (nc_closed nc) (handshakeDone nc) (bytesRead nc) (bytesWritten nc).
Definition set_recv (nc : Conn) (cs : CS) : Conn :=
  mkNoise (sendCipherState nc) (Some cs) (modifierChain nc) (rand nc) (pendingPlaintext nc)
    (nc_closed nc) (handshakeDone nc) (bytesRead nc) (bytesWritten nc).
Definition set_chain (nc : Conn) (mc : ModifierChain M) (w : W) : Conn :=
  mkNoise (sendCipherState nc) (recvCipherState nc) (Some mc) w (pendingPlaintext nc)
    (nc_closed nc) (handshakeDone nc) (bytesRead nc) (bytesWritten nc).
Definition set_pending (nc : Conn) (p : bytes) : Conn :=
  mkNoise (sendCipherState nc) (recvCipherState nc) (modifierChain nc) (rand nc) p
    (nc_closed nc) (handshakeDone nc) (bytesRead nc) (bytesWritten nc).
Definition AddBytesRead (nc : Conn) (n : Z) : Conn :=
  mkNoise (sendCipherState nc) (recvCipherState nc) (modifierChain nc) (rand nc) (pendingPlaintext nc)
    (nc_closed nc) (handshakeDone nc) (i64 (bytesRead nc + n)) (bytesWritten nc).
Definition AddBytesWritten (nc : Conn) (n : Z) : Conn :=
  mkNoise (sendCipherState nc) (recvCipherState nc) (modifierChain nc) (rand nc) (pendingPlaintext nc)
    (nc_closed nc) (handshakeDone nc) (bytesRead nc) (i64 (bytesWritten nc + n)).

Definition applyOutboundModifier (nc : Conn) (data : bytes) : Conn * result IOError bytes :=
  match modifierChain nc with
  | None => (nc, Ok data)
  | Some chain =>
      match ModifyOutbound chain (rand nc) PhaseData data with
      | (chain, w, Err e) => (set_chain nc chain w, Err (EModifier e))
      | (chain, w, Ok out) => (set_chain nc chain w, Ok out)
      end
  end.

Definition applyInboundModifier (nc : Conn) (data : bytes) : Conn * result IOError bytes :=
  match modifierChain nc with
  | None => (nc, Ok data)
  | Some chain =>
      match ModifyInbound (W := W) chain PhaseData data with
      | (chain, Err e) => (set_chain nc chain (rand nc), Err (EModifier e))
      | (chain, Ok out) => (set_chain nc chain (rand nc), Ok out)
      end
  end.

Definition validateWriteState (nc : Conn) : option IOError :=
  if nc_closed nc then Some EConnClosed
  else if negb (handshakeDone nc) then Some EHandshakeNotDone
  else match sendCipherState nc with None => Some ENoCipherState | Some _ => None end.

Definition validateReadState (nc : Conn) : option IOError :=
  if nc_closed nc then Some EConnClosed
  else if negb (handshakeDone nc) then Some EHandshakeNotDone
  else match recvCipherState nc with None => Some ENoCipherState | Some _ => None end.

Definition encryptData (nc : Conn) (data : bytes) : Conn * result IOError bytes :=
  match sendCipherState nc with
  | None => (nc, Err ENoCipherState)
  | Some cs =>
      match cs_Encrypt cs data with
      | (cs, None) => (set_send nc cs, Err EEncryptFailed)
      | (cs, Some encrypted) => (set_send nc cs, Ok encrypted)
      end
  end.

Definition decryptData (nc : Conn) (encrypted : bytes) : Conn * result IOError bytes :=
  match recvCipherState nc with
  | None => (nc, Err ENoCipherState)
  | Some cs =>
      match cs_Decrypt cs encrypted with
      | (cs, None) => (set_recv nc cs, Err EDecryptFailed)
      | (cs, Some decrypted) => (set_recv nc cs, Ok decrypted)
      end
  end.

Definition Encrypt (nc : Conn) (data : bytes) : Conn * result IOError bytes :=
  match validateWriteState nc with
  | Some e => (nc, Err e)
  | None => encryptData nc data
  end.

Definition Decrypt (nc : Conn) (encrypted : bytes) : Conn * result IOError bytes :=
  match validateReadState nc with
  | Some e => (nc, Err e)
  | None => decryptData nc encrypted
  end.

(** The bytes that left and the error. The source looks only at the error of a
    write, not at the count. *)
Definition writeFramedMessage (sock : Sock) (data : bytes) : bytes * option IOError :=
  if maxNoiseMessageSize <? zlen data then ([], Some (EMessageTooLarge (zlen data)))
  else
    let header := be_encode 2 (u16 (zlen data)) in
    match sock_write sock header with
    | SockErr n => (take n header, Some EWriteFailed)
    | r =>
        match sock_write sock data with
        | SockErr n => (on_wire r header ++ take n data, Some EWriteFailed)
        | r' => (on_wire r header ++ on_wire r' data, None)
        end
    end.

(** [io.ReadFull] of [n] bytes from the stream. *)
Definition ReadFull (n : nat) (net : bytes) : option (bytes * bytes) :=
  if decide (n <= length net)%nat then Some (take n net, drop n net) else None.

Definition readFramedMessage (net : bytes) : bytes * result IOError bytes :=
  match ReadFull 2 net with
  | None => ([], Err EReadLengthFailed)
  | Some (header, net) =>
      let msgLen := Z.to_nat (be_decode header) in
      if decide (msgLen = 0%nat) then (net, Err EEmptyMessage)
      else
        match ReadFull msgLen net with
        | None => ([], Err EReadFailed)
        | Some (buf, net) => (net, Ok buf)
        end
  end.

Definition Noise_Write (nc : Conn) (sock : Sock) (b : bytes) : Conn * bytes * result IOError Z :=
  match validateWriteState nc with
  | Some e => (nc, [], Err e)
  | None =>
      if negb (sock_deadline_ok sock) then (nc, [], Err ESetDeadline)
      else
        match applyOutboundModifier nc b with
        | (nc, Err e) => (nc, [], Err e)
        | (nc, Ok toEncrypt) =>
            match encryptData nc toEncrypt with
            | (nc, Err e) => (nc, [], Err e)
            | (nc, Ok encrypted) =>
                match writeFramedMessage sock encrypted with
                | (out, Some e) => (nc, out, Err e)
                | (out, None) => (AddBytesWritten nc (zlen b), out, Ok (zlen b))
                end
            end
        end
  end.

(** [copyDecryptedData] with a buffer of [n] bytes. *)
Definition copyDecryptedData (nc : Conn) (n : nat) (decrypted : bytes) : Conn * bytes :=
  let copied := take n decrypted in
  let nc := if decide (length copied < length decrypted)%nat
            then set_pending nc (drop n decrypted) else nc in
  (AddBytesRead nc (zlen copied), copied).

(** [Read] into a buffer of [n] bytes: the bytes copied into it. *)
Definition Noise_Read (nc : Conn) (deadline_ok : bool) (net : bytes) (n : nat)
    : Conn * bytes * result IOError bytes :=
  match validateReadState nc with
  | Some e => (nc, net, Err e)
  | None =>
      if negb deadline_ok then (nc, net, Err ESetDeadline)
      else if decide (0 < length (pendingPlaintext nc))%nat then
        let got := take n (pendingPlaintext nc) in
        (AddBytesRead (set_pending nc (drop n (pendingPlaintext nc))) (zlen got), net, Ok got)
      else
        match readFramedMessage net with
        | (net, Err e) => (nc, net, Err e)
        | (net, Ok encrypted) =>
            match decryptData nc encrypted with
            | (nc, Err e) => (nc, net, Err e)
            | (nc, Ok decrypted) =>
                match applyInboundModifier nc decrypted with
                | (nc, Err e) => (nc, net, Err e)
                | (nc, Ok decrypted) =>
                    let '(nc, got) := copyDecryptedData nc n decrypted in (nc, net, Ok got)
                end
            end
        end
  end.
End Noise.

(** ** NTCP2 connections *)

Definition FrameLengthFieldSize : nat := 2.
Definition MinDataPhaseFrameSize : Z := 16.
Definition SpecMaxFrameSize : Z := 65535.
Definition DefaultMaxFrameSize : Z := 16384.
Definition Poly1305Overhead : Z := 16.
Definition MaxNonce : Z := 18446744073709551614.

Record NTCP2Conn (W M CS : Type) := mkNTCP2 {
  noiseConn : NoiseConn W M CS;
  lengthObfuscator : option LengthModifier;
  readBuffer : bytes;
  cfgMaxFrameSize : option Z;             (* ntcp2Config, where set *)
  broken : bool;
  underlyingClosed : bool;
  writeNonce : Z;
  readNonce : Z;
}.
Arguments mkNTCP2 {W M CS}.
Arguments noiseConn {W M CS}.
Arguments lengthObfuscator {W M CS}.
Arguments readBuffer {W M CS}.
Arguments cfgMaxFrameSize {W M CS}.
Arguments broken {W M CS}.
Arguments underlyingClosed {W M CS}.
Arguments writeNonce {W M CS}.
Arguments readNonce {W M CS}.

Section NTCP2.
Context {W M CS : Type} `{HandshakeModifier W M} `{NoiseCipher CS} `{SipHashLib}.

Abbreviation Conn := (NTCP2Conn W M CS).

Definition set_noise (c : Conn) (nc : NoiseConn W M CS) : Conn :=
  mkNTCP2 nc (lengthObfuscator c) (readBuffer c) (cfgMaxFrameSize c) (broken c) (underlyingClosed c)
    (writeNonce c) (readNonce c).
Definition set_slm (c : Conn) (slm : LengthModifier) : Conn :=
  mkNTCP2 (noiseConn c) (Some slm) (readBuffer c) (cfgMaxFrameSize c) (broken c) (underlyingClosed c)
    (writeNonce c) (readNonce c).
Definition set_readBuffer (c : Conn) (b : bytes) : Conn :=
  mkNTCP2 (noiseConn c) (lengthObfuscator c) b (cfgMaxFrameSize c) (broken c) (underlyingClosed c)
    (writeNonce c) (readNonce c).
Definition set_broken (c : Conn) (closed_ : bool) : Conn :=
  mkNTCP2 (noiseConn c) (lengthObfuscator c) (readBuffer c) (cfgMaxFrameSize c) true closed_
    (writeNonce c) (readNonce c).
Definition next_write (c : Conn) : Conn :=
  mkNTCP2 (noiseConn c) (lengthObfuscator c) (readBuffer c) (cfgMaxFrameSize c) (broken c)
    (underlyingClosed c) (u64 (writeNonce c + 1)) (readNonce c).
Definition next_read (c : Conn) : Conn :=
  mkNTCP2 (noiseConn c) (lengthObfuscator c) (readBuffer c) (cfgMaxFrameSize c) (broken c)
    (underlyingClosed c) (writeNonce c) (u64 (readNonce c + 1)).

Definition getMaxFrameSize (c : Conn) : Z :=
  match cfgMaxFrameSize c with
  | Some m => if (0 <? m) && (m <=? SpecMaxFrameSize) then m else DefaultMaxFrameSize
  | None => DefaultMaxFrameSize
  end.

Definition guardReadNonce (c : Conn) : Conn * option IOError :=
  if MaxNonce <=? readNonce c then (set_broken c (underlyingClosed c), Some ENonceExhausted)
  else (c, None).

Definition guardWriteNonce (c : Conn) : Conn * option IOError :=
  if MaxNonce <=? writeNonce c then (set_broken c (underlyingClosed c), Some ENonceExhausted)
  else (c, None).

(** [handleAEADError] reads some junk and resets the connection: nothing can be
    read from the stream afterwards. *)
Definition handleAEADError (c : Conn) : Conn := set_broken c true.

Definition encryptFrame (c : Conn) (b : bytes) : Conn * result IOError bytes :=
  match Encrypt (noiseConn c) b with
  | (nc, Err e) => (set_noise c nc, Err EEncryptFailed)
  | (nc, Ok encrypted) =>
      if SpecMaxFrameSize <? zlen encrypted
      then (set_noise c nc, Err (EFrameTooLarge (zlen encrypted)))
      else (set_noise c nc, Ok encrypted)
  end.

(** The length modifier after the mask was taken, and the frame. *)
Definition buildWireFrameWithMask (encrypted : bytes) (slm : LengthModifier) : LengthModifier * bytes :=
  let frameLen := u16 (zlen encrypted) in
  let '(slm, mask) := NextOutboundMask slm in
  (slm, be_encode 2 (Z.lxor frameLen mask) ++ encrypted).

Definition writeWireFrame (c : Conn) (sock : Sock) (frame : bytes) : Conn * bytes * option IOError :=
  match sock_write sock frame with
  | SockErr n => (set_broken c (underlyingClosed c), take n frame, Some EWriteFailed)
  | SockShort n =>
      if decide (n = length frame) then (c, frame, None)
      else (set_broken c (underlyingClosed c), take n frame, Some (EPartialWrite (Z.of_nat n)))
  | SockOk => (c, frame, None)
  end.

Definition writeSingleFrame (c : Conn) (slm : LengthModifier) (sock : Sock) (b : bytes)
    : Conn * bytes * result IOError Z :=
  match guardWriteNonce c with
  | (c, Some e) => (c, [], Err e)
  | (c, None) =>
      match applyOutboundModifier (noiseConn c) b with
      | (nc, Err e) => (set_noise c nc, [], Err e)
      | (nc, Ok toEncrypt) =>
          match encryptFrame (set_noise c nc) toEncrypt with
          | (c, Err e) => (c, [], Err e)
          | (c, Ok encrypted) =>
              let '(slm, frame) := buildWireFrameWithMask encrypted slm in
              match writeWireFrame (set_slm c slm) sock frame with
              | (c, out, Some e) => (c, out, Err e)
              | (c, out, None) => (next_write c, out, Ok (zlen b))
              end
          end
      end
  end.

(** The loop of [writeFramed]; [written] and [out] accumulate the caller's bytes
    and the bytes on the wire. [None] is fuel exhausted: every turn takes
    [maxPlaintext] bytes, so the length of the data is enough fuel unless
    [maxPlaintext] is 0, when the loop of the source does not end. *)
Fixpoint write_loop (fuel : nat) (c : Conn) (sock : Sock) (maxPlaintext : nat) (b : bytes)
    (written : Z) (out : bytes) : option (Conn * bytes * (Z * option IOError)) :=
  match b with
  | [] => Some (c, out, (written, None))
  | _ =>
      match fuel, lengthObfuscator c with
      | S fuel, Some slm =>
          let chunk := take maxPlaintext b in
          let b := drop maxPlaintext b in
          match writeSingleFrame c slm sock chunk with
          | (c, w, Err e) => Some (c, out ++ w, (written, Some e))
          | (c, w, Ok n) => write_loop fuel c sock maxPlaintext b (written + n) (out ++ w)
          end
      | _, _ => None
      end
  end.

Definition writeFramed (c : Conn) (sock : Sock) (b : bytes)
    : option (Conn * bytes * (Z * option IOError)) :=
  let maxFrameSize := getMaxFrameSize c in
  if maxFrameSize <? Poly1305Overhead then Some (c, [], (0, Some (EInvalidFrameSize maxFrameSize)))
  else
    let maxPlaintext := maxFrameSize - Poly1305Overhead in
    write_loop (length b) c sock (Z.to_nat maxPlaintext) b 0 [].

Definition NTCP2_Write (c : Conn) (sock : Sock) (b : bytes)
    : option (Conn * bytes * (Z * option IOError)) :=
  if broken c then Some (c, [], (0, Some EBroken))
  else
    match lengthObfuscator c with
    | None =>
        match Noise_Write (noiseConn c) sock b with
        | (nc, out, Ok n) => Some (set_noise c nc, out, (n, None))
        | (nc, out, Err e) => Some (set_noise c nc, out, (0, Some e))
        end
    | Some _ => writeFramed c sock b
    end.

Definition validateFrameLength (c : Conn) (frameLen : Z) : Conn * option IOError :=
  if frameLen <? MinDataPhaseFrameSize then (handleAEADError c, Some (EFrameTooSmall frameLen))
  else (c, None).

Definition readObfuscatedFrameLength (c : Conn) (slm : LengthModifier) (net : bytes)
    : Conn * bytes * result IOError Z :=
  match ReadFull FrameLengthFieldSize net with
  | None => (c, [], Err EReadLengthFailed)
  | Some (lengthBuf, net) =>
      let '(slm, mask) := NextInboundMask slm in
      let frameLen := Z.lxor (be_decode lengthBuf) mask in
      match validateFrameLength (set_slm c slm) frameLen with
      | (c, Some e) => (set_broken c (underlyingClosed c), [], Err e)
      | (c, None) => (c, net, Ok frameLen)
      end
  end.

Definition readAndDecryptFrame (c : Conn) (net : bytes) (frameLen : Z) : Conn * bytes * result IOError bytes :=
  match ReadFull (Z.to_nat frameLen) net with
  | None => (set_broken c (underlyingClosed c), [], Err EReadFailed)
  | Some (ciphertext, net) =>
      match Decrypt (noiseConn c) ciphertext with
      | (nc, Err e) => (handleAEADError (set_noise c nc), [], Err EDecryptFailed)
      | (nc, Ok plaintext) => (set_noise c nc, net, Ok plaintext)
      end
  end.

(** [readFramed] up to [bufferPlaintext]: the plaintext of the next frame. *)
Definition read_frame (c : Conn) (net : bytes) : Conn * bytes * result IOError bytes :=
  match guardReadNonce c with
  | (c, Some e) => (c, net, Err e)
  | (c, None) =>
      match lengthObfuscator c with
      | None => (c, net, Err EBroken)
      | Some slm =>
          match readObfuscatedFrameLength c slm net with
          | (c, net, Err e) => (c, net, Err e)
          | (c, net, Ok frameLen) =>
              match readAndDecryptFrame c net frameLen with
              | (c, net, Err e) => (c, net, Err e)
              | (c, net, Ok plaintext) =>
                  match applyInboundModifier (noiseConn c) plaintext with
                  | (nc, Err e) => (set_noise c nc, net, Err e)
                  | (nc, Ok plaintext) => (set_noise c nc, net, Ok plaintext)
                  end
              end
          end
      end
  end.

Definition bufferPlaintext (c : Conn) (n : nat) (plaintext : bytes) : Conn * bytes :=
  let copied := take n plaintext in
  (if decide (length copied < length plaintext)%nat
   then set_readBuffer c (drop n plaintext) else c, copied).

Definition readFramed (c : Conn) (net : bytes) (n : nat) : Conn * bytes * result IOError bytes :=
  match read_frame c net with
  | (c, net, Err e) => (c, net, Err e)
  | (c, net, Ok plaintext) =>
      let '(c, got) := bufferPlaintext c n plaintext in
      (next_read c, net, Ok got)
  end.

Definition NTCP2_Read (c : Conn) (deadline_ok : bool) (net : bytes) (n : nat)
    : Conn * bytes * result IOError bytes :=
  if broken c then (c, net, Err EBroken)
  else
    match lengthObfuscator c with
    | None =>
        let '(nc, net, r) := Noise_Read (noiseConn c) deadline_ok net n in (set_noise c nc, net, r)
    | Some _ =>
        if decide (0 < length (readBuffer c))%nat then
          (set_readBuffer c (drop n (readBuffer c)), net, Ok (take n (readBuffer c)))
        else readFramed c net n
    end.
End NTCP2.

(** ** Delivery *)

Section Delivery.
Context {W M CS : Type} `{ModifierCorrect W M} `{NoiseCipher CS} `{SipHashLib}.
Context (Hdata : correct_in W M PhaseData).

Abbreviation Conn := (NTCP2Conn W M CS).

Definition chains_paired (s r : option (ModifierChain M)) : Prop :=
  match s, r with
  | None, None => True
  | Some s, Some r => Forall2 paired (modifiers s) (modifiers r)
  | _, _ => False
  end.

(** The receiving side of [r] is in step with the sending side of [s]. *)
Definition synced (s r : Conn) : Prop :=
  (exists ls lr, lengthObfuscator s = Some ls /\ lengthObfuscator r = Some lr
     /\ outboundKeys ls = inboundKeys lr /\ outboundIV ls = inboundIV lr)
  /\ chains_paired (modifierChain (noiseConn s)) (modifierChain (noiseConn r))
  /\ (exists cs cr, sendCipherState (noiseConn s) = Some cs
     /\ recvCipherState (noiseConn r) = Some cr /\ in_step cs cr)
  /\ validateReadState (noiseConn r) = None /\ broken r = false
  /\ 0 <= writeNonce s /\ readNonce r = writeNonce s.

Lemma outbound_modifier_step (s : NoiseConn W M CS) b s1 out :
  applyOutboundModifier s b = (s1, Ok out) ->
  sendCipherState s1 = sendCipherState s /\ zlen b <= zlen out
  /\ forall r : NoiseConn W M CS, chains_paired (modifierChain s) (modifierChain r) -> zlen out < 2 ^ 32 ->
     exists r1, applyInboundModifier r out = (r1, Ok b)
       /\ chains_paired (modifierChain s1) (modifierChain r1)
       /\ recvCipherState r1 = recvCipherState r /\ validateReadState r1 = validateReadState r.
Proof.
  unfold applyOutboundModifier, applyInboundModifier.
  destruct (modifierChain s) as [ch|] eqn:Es.
  - destruct (ModifyOutbound ch (rand s) PhaseData b) as [[ch1 w1] [o|e]] eqn:E; [|done].
    intros [= <- <-]. split; [done|]. split; [by apply outbound_grows in E|].
    intros r Hp Hl. destruct (modifierChain r) as [rc|]; [|done].
    destruct (@inbound_outbound _ _ _ chain_correct ch rc (rand s) PhaseData b ch1 w1 o Hdata Hp E Hl)
      as (rc' & -> & Hp'). by eexists.
  - intros [= <- <-]. split; [done|]. split; [done|]. intros r Hp _. rewrite Es in *.
    destruct (modifierChain r) eqn:Er; [done|]. exists r. by rewrite Er.
Qed.

Lemma encryptFrame_step (c c' : Conn) b enc :
  encryptFrame c b = (c', Ok enc) ->
  exists cs cs', sendCipherState (noiseConn c) = Some cs /\ cs_Encrypt cs b = (cs', Some enc)
    /\ c' = set_noise c (set_send (noiseConn c) cs') /\ zlen enc <= 65535.
Proof.
  unfold encryptFrame, Encrypt, encryptData, SpecMaxFrameSize.
  destruct (validateWriteState (noiseConn c)); [done|].
  destruct (sendCipherState (noiseConn c)) as [cs|]; [|done].
  destruct (cs_Encrypt cs b) as [cs' [x|]] eqn:E; [|done].
  destruct (Z.ltb_spec 65535 (zlen x)); [done|]. intros Hx. apply (inj2 pair) in Hx as [<- <-%Ok_inj].
  exists cs, cs'. split_and!; [done|done|done|lia].
Qed.

Lemma masks_agree ls lr :
  outboundKeys ls = inboundKeys lr -> outboundIV ls = inboundIV lr ->
  exists ls' lr' m, NextOutboundMask ls = (ls', m) /\ NextInboundMask lr = (lr', m)
    /\ 0 <= m < 2 ^ 16 /\ outboundKeys ls' = inboundKeys lr' /\ outboundIV ls' = inboundIV lr'.
Proof.
  intros Hk Hiv. unfold NextOutboundMask, NextInboundMask. rewrite Hk, Hiv.
  destruct (NextMask (inboundKeys lr) (inboundIV lr)) as [iv m] eqn:E. eexists _, _, m.
  split; [done|]. split; [done|]. split; [|done].
  unfold NextMask in E. apply (inj2 pair) in E as [_ <-]. apply u16_bound.
Qed.

Lemma ReadFull_app n (x rest : bytes) : length x = n -> ReadFull n (x ++ rest) = Some (x, rest).
Proof.
  intros <-. unfold ReadFull. rewrite decide_True by (rewrite length_app; lia).
  by rewrite take_app_length, drop_app_length.
Qed.

(** Reading the obfuscated length of a frame recovers it. *)
Lemma read_length_step (r : Conn) lr lr' m len rest :
  NextInboundMask lr = (lr', m) -> 0 <= m < 2 ^ 16 -> MinDataPhaseFrameSize <= len < 2 ^ 16 ->
  readObfuscatedFrameLength r lr (be_encode 2 (Z.lxor (u16 len) m) ++ rest)
  = (set_slm r lr', rest, Ok len).
Proof.
  unfold MinDataPhaseFrameSize. intros Hm Hb Hl. unfold readObfuscatedFrameLength.
  rewrite ReadFull_app by apply length_be_encode. rewrite Hm, u16_small by (unfold is_u16; lia).
  rewrite be_decode_encode_small by (apply (lxor_bound 16); lia). rewrite lxor_cancel.
  unfold validateFrameLength, MinDataPhaseFrameSize. by destruct (Z.ltb_spec len 16); [lia|].
Qed.

Lemma writeSingleFrame_ok (s s' : Conn) ls sock b out n :
  writeSingleFrame s ls sock b = (s', out, Ok n) ->
  writeNonce s < MaxNonce /\ n = zlen b
  /\ exists nc toEnc s1 enc ls', applyOutboundModifier (noiseConn s) b = (nc, Ok toEnc)
     /\ encryptFrame (set_noise s nc) toEnc = (s1, Ok enc)
     /\ buildWireFrameWithMask enc ls = (ls', out) /\ s' = next_write (set_slm s1 ls').
Proof.
  unfold writeSingleFrame, guardWriteNonce. destruct (Z.leb_spec MaxNonce (writeNonce s)); [done|].
  destruct (applyOutboundModifier _ b) as [nc [toEnc|e]]; [|done].
  destruct (encryptFrame _ toEnc) as [s1 [enc|e]] eqn:Ee; [|done].
  destruct (buildWireFrameWithMask enc ls) as [ls' frame] eqn:Ef. unfold writeWireFrame.
  destruct (sock_write sock frame) as [|k|k]; [|case_decide|]; try done;
    intros [= <- <- <-]; (split; [done|]); split; [done| |done|];
    by eexists _, _, _, _, _.
Qed.

(** The frame of one write is read back as the data written. *)
Lemma frame_delivery (s r s' : Conn) ls sock b out n :
  synced s r -> lengthObfuscator s = Some ls -> writeSingleFrame s ls sock b = (s', out, Ok n) ->
  exists r', (forall rest, read_frame r (out ++ rest) = (r', rest, Ok b)) /\ synced s' (next_read r')
    /\ readBuffer r' = readBuffer r.
Proof.
  intros ((ls0 & lr & Hls & Hlr & Hk & Hiv) & Hch & (cs & cr & Hcs & Hcr & Hstep) & Hv & Hbr & Hn0 & Hn) Hls'.
  rewrite Hls in Hls'. apply (inj Some) in Hls' as ->.
  intros (HN & -> & nc & toEnc & s1 & enc & ls' & Hmod & Henc & Hbuild & ->)%writeSingleFrame_ok.
  apply outbound_modifier_step in Hmod as (Hsend & Hgrow & Hin).
  apply encryptFrame_step in Henc as (cs0 & cs' & Hcs0 & He & -> & Hmax).
  cbn in Hcs0. rewrite Hsend, Hcs in Hcs0. apply (inj Some) in Hcs0 as <-.
  pose proof (cs_Encrypt_length _ _ _ _ He) as Hel. pose proof (zlen_nonneg toEnc).
  destruct (cs_Decrypt_Encrypt _ _ _ _ _ Hstep He) as (cr' & Hd & Hstep').
  destruct (masks_agree ls lr Hk Hiv) as (ls1 & lr1 & m & Hm1 & Hm2 & Hmb & Hk' & Hiv').
  unfold buildWireFrameWithMask in Hbuild. rewrite Hm1 in Hbuild. apply (inj2 pair) in Hbuild as [<- <-].
  destruct (Hin (set_recv (noiseConn r) cr')) as (rn & Hrn & Hch' & Hrc & Hrv); [done|lia|].
  exists (set_noise (set_slm r lr1) rn). split; [|split; [|done]].
  - intros rest. unfold read_frame, guardReadNonce.
    destruct (Z.leb_spec MaxNonce (readNonce r)); [lia|]. rewrite Hlr.
    rewrite <- app_assoc, (read_length_step r lr lr1 m) by (unfold MinDataPhaseFrameSize; (done || lia)).
    unfold readAndDecryptFrame. rewrite ReadFull_app by (unfold zlen; lia).
    unfold Decrypt. cbn [set_slm noiseConn]. rewrite Hv. unfold decryptData. rewrite Hcr, Hd.
    cbn [set_noise noiseConn]. by rewrite Hrn.
  - unfold MaxNonce in HN. split_and!; cbn; try done.
    + by eexists _, _.
    + exists cs', cr'. split_and!; [done|by rewrite Hrc|done].
    + rewrite Hrv. unfold validateReadState in *. cbn. destruct (nc_closed _); [done|].
      destruct (handshakeDone _); done.
    + apply u64_bound.
    + by rewrite Hn.
Qed.

(** [decodes r frames chunks r']: the frames carry the non-empty chunks. *)
Inductive decodes : Conn -> list bytes -> list bytes -> Conn -> Prop :=
| dec_nil r : broken r = false -> is_Some (lengthObfuscator r) -> decodes r [] [] r
| dec_cons r f c r1 fs cs r2 :
    broken r = false -> is_Some (lengthObfuscator r) -> c <> [] ->
    (forall rest, read_frame r (f ++ rest) = (r1, rest, Ok c)) -> readBuffer r1 = readBuffer r ->
    decodes (next_read r1) fs cs r2 -> decodes r (f :: fs) (c :: cs) r2.

Lemma decodes_app r fs1 cs1 r1 fs2 cs2 r2 :
  decodes r fs1 cs1 r1 -> decodes r1 fs2 cs2 r2 -> decodes r (fs1 ++ fs2) (cs1 ++ cs2) r2.
Proof. induction 1; intros Hd; cbn; [done|]. econstructor; eauto. Qed.

Lemma synced_ready s r : synced s r -> broken r = false /\ is_Some (lengthObfuscator r).
Proof. intros ((ls & lr & _ & -> & _) & _ & _ & _ & -> & _). split; [done|by eexists]. Qed.

Lemma write_loop_delivery fuel (s r : Conn) sock mp b written out s' out' n :
  synced s r -> (0 < mp)%nat ->
  write_loop fuel s sock mp b written out = Some (s', out', (n, None)) ->
  exists frames chunks r', out' = out ++ concat frames /\ concat chunks = b
    /\ decodes r frames chunks r' /\ synced s' r' /\ n = written + zlen b.
Proof.
  intros Hs Hmp. revert s r b written out Hs. induction fuel as [|fuel IH]; intros s r b written out Hs;
    destruct b as [|x b]; cbn [write_loop]; try done.
  1,2: intros [= <- <- <-]; exists [], [], r; destruct (synced_ready _ _ Hs);
    rewrite app_nil_r, zlen_nil; split_and!; [done|done|by constructor|done|lia].
  destruct (lengthObfuscator s) as [ls|] eqn:Hls; [|done].
  set (chunk := take mp (x :: b)). set (rest := drop mp (x :: b)).
  destruct (writeSingleFrame s ls sock chunk) as [[s1 w] [k|e]] eqn:Ew; [|done]. intros Hl.
  destruct (frame_delivery _ r _ _ _ _ _ _ Hs Hls Ew) as (r1 & Hr1 & Hs1 & Hb1).
  apply writeSingleFrame_ok in Ew as (_ & -> & _).
  destruct (IH _ _ _ _ _ Hs1 Hl) as (frames & chunks & r2 & -> & Hc & Hd & Hs2 & ->).
  destruct (synced_ready _ _ Hs) as [Hbr Hlo]. exists (w :: frames), (chunk :: chunks), r2.
  split_and!; [by rewrite <- app_assoc| |econstructor; (done || destruct mp; (done || lia))|done|].
  - cbn. rewrite Hc. apply take_drop.
  - rewrite <- Z.add_assoc, <- zlen_app. do 2 f_equal. unfold chunk, rest. by rewrite take_drop.
Qed.

Lemma write_loop_config fuel (s : Conn) sock mp b written out s' out' n e :
  write_loop fuel s sock mp b written out = Some (s', out', (n, e)) ->
  getMaxFrameSize s' = getMaxFrameSize s.
Proof.
  revert s b written out. induction fuel as [|fuel IH]; intros s b written out;
    destruct b as [|x b]; cbn [write_loop]; try done; [by intros [= <- _ _ _]..|].
  destruct (lengthObfuscator s) as [ls|]; [|done].
  destruct (writeSingleFrame s ls sock (take mp (x :: b))) as [[s1 w] r] eqn:Ew.
  assert (Hc : getMaxFrameSize s1 = getMaxFrameSize s).
  { unfold writeSingleFrame, guardWriteNonce in Ew. destruct (MaxNonce <=? _); [by injection Ew as <- _ _|].
    destruct (applyOutboundModifier _ _) as [nc [t|er]]; [|by injection Ew as <- _ _].
    unfold encryptFrame in Ew. destruct (Encrypt _ t) as [nc1 [en|er]]; [|by injection Ew as <- _ _].
    destruct (_ <? zlen en); [by injection Ew as <- _ _|].
    destruct (buildWireFrameWithMask en ls) as [ls' f]. unfold writeWireFrame in Ew.
    destruct (sock_write sock f); [|case_decide|]; by injection Ew as <- _ _. }
  destruct r as [k|er]; [intros Hl; rewrite <- Hc; by eapply IH|]. by intros [= <- _ _ _].
Qed.

(** Whole writes, one after the other. *)
Fixpoint write_all (s : Conn) (sock : Sock) (msgs : list bytes) : option (Conn * bytes) :=
  match msgs with
  | [] => Some (s, [])
  | b :: msgs =>
      match NTCP2_Write s sock b with
      | Some (s, out, (_, None)) => '(s, out') ← write_all s sock msgs; Some (s, out ++ out')
      | _ => None
      end
  end.

(** Reads with the given buffer sizes, until an error: the bytes delivered, and
    whether there was one. *)
Fixpoint reads (r : Conn) (net : bytes) (ns : list nat) : Conn * bytes * bytes * bool :=
  match ns with
  | [] => (r, net, [], false)
  | n :: ns =>
      match NTCP2_Read r true net n with
      | (r, net, Err _) => (r, net, [], true)
      | (r, net, Ok got) =>
          let '(r, net, more, e) := reads r net ns in (r, net, got ++ more, e)
      end
  end.

Lemma set_readBuffer_read_frame (r : Conn) x net :
  read_frame (set_readBuffer r x) net
  = let '(r1, net1, res) := read_frame r net in (set_readBuffer r1 x, net1, res).
Proof.
  unfold read_frame, guardReadNonce. cbn [set_readBuffer readNonce].
  destruct (MaxNonce <=? readNonce r); [done|].
  change (lengthObfuscator (set_readBuffer r x)) with (lengthObfuscator r).
  destruct (lengthObfuscator r) as [lr|]; [|done]. unfold readObfuscatedFrameLength.
  destruct (ReadFull _ net) as [[h net1]|]; [|done]. destruct (NextInboundMask lr) as [lr' m].
  unfold validateFrameLength. destruct (_ <? MinDataPhaseFrameSize); [done|].
  unfold readAndDecryptFrame. destruct (ReadFull _ net1) as [[ct net2]|]; [|done].
  cbn [set_slm set_readBuffer noiseConn]. destruct (Decrypt (noiseConn r) ct) as [nc [p|e]]; [|done].
  cbn. by destruct (applyInboundModifier nc p) as [nc' [q|e]].
Qed.

Lemma decodes_readBuffer r fs cs r' x :
  decodes r fs cs r' -> exists r'', decodes (set_readBuffer r x) fs cs r''.
Proof.
  induction 1 as [r Hb Hl|r f c r1 fs cs r2 Hb Hl Hc Hr Hrb Hd [r'' IH]].
  - eexists. by constructor.
  - exists r''. apply (dec_cons _ _ _ (set_readBuffer r1 x)); try done.
    intros rest. rewrite set_readBuffer_read_frame. by rewrite Hr.
Qed.

Lemma set_readBuffer_id (r : Conn) : set_readBuffer r (readBuffer r) = r.
Proof. by destruct r. Qed.

Lemma read_frame_eof (r : Conn) : exists r' net e, read_frame r [] = (r', net, Err e).
Proof.
  unfold read_frame. destruct (guardReadNonce r) as [r1 [e|]]; [by eexists _, _, _|].
  destruct (lengthObfuscator r1); by eexists _, _, _.
Qed.

Lemma reads_spec ns (r : Conn) fs cs r' :
  decodes r fs cs r' -> Forall (fun n => 0 < n)%nat ns ->
  let data := readBuffer r ++ concat cs in
  let '(_, _, got, err) := reads r (concat fs) ns in
  got `prefix_of` data /\ (err = true -> got = data) /\ ((length data <= length ns)%nat -> got = data).
Proof.
  intros Hd Hns. revert r fs cs r' Hd. induction Hns as [|n ns Hn Hns IH]; intros r fs cs r' Hd; cbv zeta.
  { cbn. split; [apply prefix_nil|]. split; [done|]. intros Hl. symmetry. apply nil_length_inv. lia. }
  cbn [reads]. assert (Hrdy : broken r = false /\ is_Some (lengthObfuscator r)) by (by destruct Hd).
  destruct Hrdy as [Hb [lr Hl]]. unfold NTCP2_Read. rewrite Hb, Hl.
  assert (Hgo : forall (r1 : Conn) fs1 cs1 r2 got1 data,
    decodes r1 fs1 cs1 r2 -> got1 ++ (readBuffer r1 ++ concat cs1) = data -> got1 <> [] ->
    let '(_, _, got, err) := (let '(r0, net0, more, e) := reads r1 (concat fs1) ns in
      (r0, net0, got1 ++ more, e)) in
    got `prefix_of` data /\ (err = true -> got = data) /\ ((length data <= S (length ns))%nat -> got = data)).
  { intros r1 fs1 cs1 r2 got1 data Hd1 <- Hne. specialize (IH r1 fs1 cs1 r2 Hd1). cbv zeta in IH.
    destruct (reads r1 (concat fs1) ns) as [[[r0 net0] more] e]. destruct IH as (I1 & I2 & I3).
    split; [by apply prefix_app|]. split; [intros He; by rewrite (I2 He)|].
    intros Hlen. rewrite I3; [done|]. rewrite length_app in Hlen.
    destruct got1; [done|]. cbn in Hlen. lia. }
  case_decide as Hbuf.
  - destruct (decodes_readBuffer _ _ _ _ (drop n (readBuffer r)) Hd) as [r'' Hd'].
    apply (Hgo _ _ _ _ _ _ Hd'); cbn [set_readBuffer readBuffer].
    + by rewrite app_assoc, take_drop.
    + destruct (readBuffer r); cbn in Hbuf; [lia|]. destruct n; [lia|done].
  - assert (Hnil : readBuffer r = []) by (apply nil_length_inv; lia). rewrite Hnil. unfold readFramed.
    destruct Hd as [r|r f c r1 fs cs r2 _ _ Hc Hr Hrb Hd].
    { destruct (read_frame_eof r) as (r1 & net & e & He). cbn [concat]. rewrite He. cbn.
      split; [apply prefix_nil|]. split; done. }
    cbn [concat]. rewrite Hr. unfold bufferPlaintext. rewrite length_take.
    case_decide as Hlen.
    + destruct (decodes_readBuffer _ _ _ _ (drop n c) Hd) as [r'' Hd'].
      apply (Hgo _ _ _ _ _ _ Hd'); cbn; [by rewrite app_assoc, take_drop|].
      destruct c; [done|]. destruct n; [lia|done].
    + rewrite take_ge by lia. apply (Hgo _ _ _ _ _ _ Hd); [|done].
      cbn [next_read readBuffer]. by rewrite Hrb, Hnil.
Qed.

Lemma write_all_delivery (s r s' : Conn) sock msgs wire :
  synced s r -> Poly1305Overhead < getMaxFrameSize s -> write_all s sock msgs = Some (s', wire) ->
  exists frames chunks r', wire = concat frames /\ concat chunks = concat msgs
    /\ decodes r frames chunks r'.
Proof.
  revert s r wire. induction msgs as [|b msgs IH]; intros s r wire Hs Hmax Hw.
  { injection Hw as _ <-. exists [], [], r. destruct (synced_ready _ _ Hs). split_and!; [done..|].
    by constructor. }
  cbn [write_all] in Hw. pose proof Hs as ((ls & lr & Hls & Hlr & _) & _).
  unfold NTCP2_Write in Hw. destruct (broken s); [done|]. rewrite Hls in Hw. unfold writeFramed in Hw.
  destruct (Z.ltb_spec (getMaxFrameSize s) Poly1305Overhead); [lia|].
  destruct (write_loop _ s sock _ b 0 []) as [[[s1 out] [n [e|]]]|] eqn:El; [done| |done].
  destruct (write_all s1 sock msgs) as [[s2 out2]|] eqn:Ew; [|done]. injection Hw as -> <-.
  assert (Hm1 : getMaxFrameSize s1 = getMaxFrameSize s) by (by eapply write_loop_config).
  apply (write_loop_delivery _ _ _ _ _ _ _ _ _ _ _ Hs) in El as (fs & cs & r1 & -> & Hc & Hd & Hs1 & _);
    [|lia].
  destruct (IH s1 r1 out2 Hs1 ltac:(lia) Ew) as (fs2 & cs2 & r2 & -> & Hc2 & Hd2).
  exists (fs ++ fs2), (cs ++ cs2), r2. cbn. rewrite !concat_app, Hc, Hc2.
  split_and!; [done..|]. by eapply decodes_app.
Qed.

(** The loop ends when a frame holds any plaintext at all. *)
Lemma write_loop_total fuel (s : Conn) sock mp b written out :
  (0 < mp)%nat -> (length b <= fuel)%nat -> is_Some (lengthObfuscator s) ->
  is_Some (write_loop fuel s sock mp b written out).
Proof.
  intros Hmp. revert s b written out. induction fuel as [|fuel IH]; intros s b written out Hl [ls Hls];
    destruct b as [|x b]; cbn [write_loop length] in *; try (by eexists); [lia|]. rewrite Hls.
  destruct (writeSingleFrame s ls sock _) as [[s1 w] [k|er]] eqn:Ew; [|by eexists].
  apply IH; [rewrite length_drop; cbn [length]; lia|].
  apply writeSingleFrame_ok in Ew as (_ & _ & nc & t & s2 & en & ls' & _ & _ & _ & ->). by eexists.
Qed.

(** C29: NTCP2 streams are reliable: what a sender writes, in any sequence of
    writes of any sizes, cut into encrypted frames with obfuscated lengths and
    passed through the modifiers, is what a receiver in step reads, in order, with
    any buffer sizes: reads deliver a prefix of the data, fail only when all of it
    was delivered, and as many reads as there are bytes deliver all of it. *)
Theorem ntcp2_stream_delivery (s r s' : Conn) (sock : Sock) (msgs : list bytes) (wire : bytes)
    (ns : list nat) :
  synced s r -> readBuffer r = [] -> Poly1305Overhead < getMaxFrameSize s ->
  write_all s sock msgs = Some (s', wire) -> Forall (fun n => 0 < n)%nat ns ->
  let '(_, _, got, err) := reads r wire ns in
  got `prefix_of` concat msgs /\ (err = true -> got = concat msgs)
  /\ ((length (concat msgs) <= length ns)%nat -> got = concat msgs).
Proof.
  intros Hs Hbuf Hmax Hw Hns.
  destruct (write_all_delivery _ _ _ _ _ _ Hs Hmax Hw) as (frames & chunks & r' & -> & Hc & Hd).
  pose proof (reads_spec ns r frames chunks r' Hd Hns) as Hr. cbv zeta in Hr.
  by rewrite Hbuf, Hc in Hr.
Qed.
End Delivery.

(** ** Edges *)

Section Edges.
Context {W M CS : Type} `{HandshakeModifier W M} `{NoiseCipher CS} `{SipHashLib}.

Abbreviation Conn := (NTCP2Conn W M CS).

(** With a maximum frame size of 16, which passes the check, a write never
    completes, however long it runs. *)
Lemma write_never_completes fuel (c : Conn) sock x b written out c' o n :
  write_loop fuel c sock 0 (x :: b) written out <> Some (c', o, (n, None)).
Proof.
  revert c written out. induction fuel as [|fuel IH]; intros c written out; cbn [write_loop]; [done|].
  destruct (lengthObfuscator c) as [ls|]; [|done].
  destruct (writeSingleFrame c ls sock _) as [[c1 w] [k|e]]; [|done]. apply IH.
Qed.

(** A message that is too large for a frame is refused after the cipher state
    moved on; the connection is not marked as broken. *)
Lemma oversized_frame_desyncs (c c' : Conn) b len :
  encryptFrame c b = (c', Err (EFrameTooLarge len)) ->
  broken c' = broken c
  /\ exists cs cs' enc, sendCipherState (noiseConn c) = Some cs /\ cs_Encrypt cs b = (cs', Some enc)
     /\ sendCipherState (noiseConn c') = Some cs'.
Proof.
  unfold encryptFrame, Encrypt, encryptData. destruct (validateWriteState (noiseConn c)); [done|].
  destruct (sendCipherState (noiseConn c)) as [cs|]; [|done].
  destruct (cs_Encrypt cs b) as [cs' [x|]] eqn:E; [|done].
  destruct (_ <? zlen x); [|done]. intros Hx. apply (inj2 pair) in Hx as [<- _]. split; [done|].
  by exists cs, cs', x.
Qed.

Lemma oversized_message_desyncs (nc nc' : NoiseConn W M CS) sock b out len :
  modifierChain nc = None -> Noise_Write nc sock b = (nc', out, Err (EMessageTooLarge len)) ->
  out = [] /\ exists cs cs' enc, sendCipherState nc = Some cs /\ cs_Encrypt cs b = (cs', Some enc)
    /\ sendCipherState nc' = Some cs'.
Proof.
  intros Hm. unfold Noise_Write, applyOutboundModifier. rewrite Hm.
  destruct (validateWriteState nc) as [e|] eqn:Ev.
  { unfold validateWriteState in Ev. destruct (nc_closed nc), (handshakeDone nc), (sendCipherState nc);
      cbn in Ev; try done; by injection Ev as <-. }
  destruct (negb _); [done|]. unfold encryptData. destruct (sendCipherState nc) as [cs|]; [|done].
  destruct (cs_Encrypt cs b) as [cs' [x|]] eqn:E; [|done]. unfold writeFramedMessage.
  destruct (maxNoiseMessageSize <? zlen x).
  - intros Hx. apply (inj2 pair) in Hx as [[<- <-]%(inj2 pair) _]. split; [done|]. by exists cs, cs', x.
  - destruct (sock_write sock (be_encode 2 _)); destruct (sock_write sock x); done.
Qed.

(** A length field of which only the first byte could be read is lost, and the
    connection stays usable. *)
Lemma partial_length_read_lost (c : Conn) (x : byte) n :
  broken c = false -> readBuffer c = [] -> is_Some (lengthObfuscator c) -> readNonce c < MaxNonce ->
  NTCP2_Read c true [x] n = (c, [], Err EReadLengthFailed).
Proof.
  intros Hb Hr [slm Hl] Hn. unfold NTCP2_Read, readFramed, read_frame, guardReadNonce.
  rewrite Hb, Hl, Hr. cbn [length]. rewrite decide_False by lia.
  destruct (Z.leb_spec MaxNonce (readNonce c)); [lia|]. rewrite Hl. done.
Qed.
End Edges.

(** ** Witness *)

(** A toy cipher whose tag is the message counter. *)
#[program] Definition counter_cipher : NoiseCipher Z := {|
  cs_Encrypt n p := (n + 1, Some (p ++ be_encode 16 n));
  cs_Decrypt n c :=
    let k := (length c - 16)%nat in
    if decide (drop k c = be_encode 16 n) then (n + 1, Some (take k c)) else (n, None);
  in_step := eq;
|}.
Next Obligation.
  intros s p s' c [= _ <-]. rewrite zlen_app. done.
Qed.
Next Obligation.
  intros s r p s' c -> [= <- <-]. cbv beta zeta. rewrite length_app, length_be_encode.
  replace (length p + 16 - 16)%nat with (length p) by lia.
  rewrite drop_app_length, take_app_length, decide_True by done. by eexists.
Qed.

#[local] Existing Instance zero_source.
#[local] Existing Instance demo_hash.
#[local] Existing Instance counter_cipher.

Definition demo_noise : NoiseConn unit PaddingModifier Z :=
  mkNoise (Some 7) (Some 7) None tt [] false true 0 0.

Definition demo_conn : NTCP2Conn unit PaddingModifier Z :=
  mkNTCP2 demo_noise (Some (NewLengthModifier "sip" (3, 4) 5)) [] (Some 20) false false 0 0.

Definition demo_sock : Sock := mkSock (fun _ => SockOk) true.

Definition demo_data : list bytes := [[x01; x02; x03; x04; x05; x06]; []; [x07]].

Lemma ntcp2_stream_delivery_witness :
  exists s' wire, write_all demo_conn demo_sock demo_data = Some (s', wire)
  /\ (reads demo_conn wire [1; 5; 3; 3; 3; 3; 3]%nat).1.2 = concat demo_data.
Proof.
  destruct (write_all demo_conn demo_sock demo_data) as [[s' wire]|] eqn:E; [|vm_compute in E; discriminate].
  exists s', wire. split; [reflexivity|].
  pose proof (ntcp2_stream_delivery (M := PaddingModifier) I demo_conn demo_conn s' demo_sock demo_data wire
    [1; 5; 3; 3; 3; 3; 3]%nat) as T.
  destruct (reads demo_conn wire [1; 5; 3; 3; 3; 3; 3]%nat) as [[[r net] got] e]. cbn [fst snd].
  refine (proj2 (proj2 (T _ _ _ _ _)) _).
  - split; [by eexists _, _|]. split; [exact I|]. split; [by exists 7, 7|]. by split_and!.
  - reflexivity.
  - reflexivity.
  - exact E.
  - repeat constructor.
  - vm_compute. lia.
Defined.
