(* ===== verification/NoiseHandshake.v ===== *)
(** * The handshake of a Noise connection

    [conn/handshake.go], [conn/state.go], [conn/retry.go], [conn/config.go],
    [conn/conn.go] and the pattern handlers [conn/pattern_*.go]: a connection
    parses its pattern, runs the messages of the pattern over a byte stream
    through the modifier chain, and installs the cipher states; a failed attempt
    is reset and may be repeated with a growing delay.

    The Noise library is not part of the repository: it is the class
    [NoiseHandshakeLib], with its documented laws in [NoiseHandshakeLaws]. A call
    that reads from the network takes the stream that arrives, and returns what is
    left of it and what it wrote. *)

From Stdlib Require Import ZArith Lia.
From Stdlib Require Import Floats.SpecFloat.
From Stdlib Require Import Strings.Byte.
From stdpp Require Import base numbers list strings.
From S2P Require Import Prelude Float64 Crypto Modifiers Framing.

#[local] Open Scope Z_scope.

(** ** Patterns *)

Inductive HandshakePattern :=
| PN | PK | PX
| PNN | PNK | PNX
| PXN | PXK | PXX
| PKN | PKK | PKX
| PIN | PIK | PIX.

#[export] Instance HandshakePattern_eq_dec : EqDecision HandshakePattern.
Proof. solve_decision. Defined.

Definition patterns : list HandshakePattern :=
  [PNN; PNK; PNX; PXN; PXK; PXX; PKN; PKK; PKX; PIN; PIK; PIX; PN; PK; PX].

Definition pattern_name (p : HandshakePattern) : string :=
  match p with
  | PN => "N" | PK => "K" | PX => "X"
  | PNN => "NN" | PNK => "NK" | PNX => "NX"
  | PXN => "XN" | PXK => "XK" | PXX => "XX"
  | PKN => "KN" | PKK => "KK" | PKX => "KX"
  | PIN => "IN" | PIK => "IK" | PIX => "IX"
  end.

(** The strings of a case of [parseHandshakePattern]. *)
Definition pattern_strings (p : HandshakePattern) : list string :=
  let name := pattern_name p in
  [("Noise_" +:+ name +:+ "_25519_AESGCM_SHA256")%string; ("Noise_" +:+ name +:+ "_25519_ChaChaPoly_SHA256")%string; name].

Definition parseHandshakePattern (patternName : string) : option HandshakePattern :=
  find (fun p => bool_decide (patternName ∈ pattern_strings p)) patterns.

Definition normalizePattern (pattern : string) : string :=
  match parseHandshakePattern pattern with Some hp => pattern_name hp | None => pattern end.

(** What a handler does: messages it sends and receives. *)
Inductive Step :=
| SendMsg (phase : Z)
| RecvMsg (phase : Z).

Definition perform_one_initiator : list Step := [SendMsg PhaseInitial].
Definition perform_one_responder : list Step := [RecvMsg PhaseInitial].
Definition perform_two_initiator : list Step := [SendMsg PhaseInitial; RecvMsg PhaseExchange].
Definition perform_two_responder : list Step := [RecvMsg PhaseInitial; SendMsg PhaseExchange].
Definition perform_three_initiator : list Step := [SendMsg PhaseInitial; RecvMsg PhaseExchange; SendMsg PhaseFinal].
Definition perform_three_responder : list Step := [RecvMsg PhaseInitial; SendMsg PhaseExchange; RecvMsg PhaseFinal].

(** The tables [initiatorHandlers] and [responderHandlers], as they are built. *)
Definition initiatorHandlers (name : string) : option (list Step) :=
  if decide (name ∈ ["N"; "K"; "X"]%string) then Some perform_one_initiator
  else if decide (name ∈ ["NN"; "NK"; "NX"; "KN"; "KK"; "KX"; "IN"; "IK"; "IX"]%string) then Some perform_two_initiator
  else if decide (name ∈ ["XN"; "XK"; "XX"]%string) then Some perform_three_initiator
  else None.

Definition responderHandlers (name : string) : option (list Step) :=
  if decide (name ∈ ["N"; "K"; "X"]%string) then Some perform_one_responder
  else if decide (name ∈ ["NN"; "NK"; "NX"; "KN"; "KK"; "KX"; "IN"; "IK"; "IX"]%string) then Some perform_two_responder
  else if decide (name ∈ ["XN"; "XK"; "XX"]%string) then Some perform_three_responder
  else None.

(** ** The Noise library *)

Class NoiseHandshakeLib (CS : Type) := {
  HS : Type;
  NewHandshakeState : HandshakePattern -> bool -> option (bytes * bytes) -> bytes -> option HS;   (* key pair, peer *)
  WriteMessage : bytes -> HS -> bytes -> HS * option (bytes * option (CS * CS));                  (* random bytes first *)
  ReadMessage : HS -> bytes -> HS * option (bytes * option (CS * CS));
  MixHash : HS -> bytes -> HS;
  ChannelBinding : HS -> bytes;
  AdditionalSymmetricKeys : HS -> list bytes;
  PeerStatic : HS -> bytes;
  x25519_public : bytes -> option bytes;                                                          (* ecdh, 32-byte keys only *)
}.

(** How many messages a pattern has, whose static key it uses, and whose is known
    beforehand; a key that is used and not known is sent in a message. *)
Definition messages (p : HandshakePattern) : nat :=
  match p with
  | PN | PK | PX => 1
  | PXN | PXK | PXX => 3
  | _ => 2
  end.

Definition responder_known (p : HandshakePattern) : bool :=
  match p with PN | PK | PX | PNK | PXK | PKK | PIK => true | _ => false end.
Definition initiator_known (p : HandshakePattern) : bool :=
  match p with PK | PKN | PKK | PKX => true | _ => false end.

Definition initiator_static (p : HandshakePattern) : bool :=
  match p with PN | PNN | PNK | PNX => false | _ => true end.
Definition responder_static (p : HandshakePattern) : bool :=
  match p with PNN | PKN | PXN | PIN => false | _ => true end.

(** [keys_fit p ka kb peerA peerB]: who uses a static key has a key pair; the other end
    is given its public key when the pattern knows it beforehand, and none when it is to
    come in a message. Without a key pair the library refuses to write the message that
    sends the key, and with a key already given it refuses to read that message. *)
Record keys_fit `{NL : NoiseHandshakeLib CS} (p : HandshakePattern) (ka kb : option (bytes * bytes)) (peerA peerB : bytes) : Prop := {
  kf_initiator : initiator_static p = true -> exists priv pub, ka = Some (priv, pub) /\ x25519_public priv = Some pub
    /\ peerB = if initiator_known p then pub else [];
  kf_responder : responder_static p = true -> exists priv pub, kb = Some (priv, pub) /\ x25519_public priv = Some pub
    /\ peerA = if responder_known p then pub else [];
}.

(** [hs_in_step p n i r]: the initiator [i] and the responder [r] have both processed
    the first [n] messages. Message [n], counted from 0, goes from the initiator for
    even [n]. A message has at most 96 bytes besides its payload. *)
Class NoiseHandshakeLaws (CS : Type) `{NL : NoiseHandshakeLib CS} `{NC : NoiseCipher CS} := {
  hs_in_step : HandshakePattern -> nat -> HS -> HS -> Prop;
  hs_new : forall p ka kb peerA peerB i r,
    NewHandshakeState p true ka peerA = Some i -> NewHandshakeState p false kb peerB = Some r ->
    keys_fit p ka kb peerA peerB -> hs_in_step p 0 i r;
  hs_mix : forall p n i r d, hs_in_step p n i r -> hs_in_step p n (MixHash i d) (MixHash r d);
  hs_message : forall p n i r rnd payload, hs_in_step p n i r -> (n < messages p)%nat -> length rnd = 32%nat ->
    zlen payload <= 65000 ->
    let '(w, x) := if Nat.even n then (i, r) else (r, i) in
    exists w' x' m cs, WriteMessage rnd w payload = (w', Some (m, cs)) /\ ReadMessage x m = (x', Some (payload, cs))
      /\ 0 < zlen m <= zlen payload + 96
      /\ (let '(i', r') := if Nat.even n then (w', x') else (x', w') in hs_in_step p (S n) i' r')
      /\ (is_Some cs <-> S n = messages p);
  hs_ciphers : forall rnd w payload w' m c1 c2, WriteMessage rnd w payload = (w', Some (m, Some (c1, c2))) ->
    Framing.in_step c1 c1 /\ Framing.in_step c2 c2;
}.

(** ** Configuration *)

Record ConnConfig := mkConnConfig {
  Pattern : string;
  Initiator : bool;
  StaticKey : bytes;
  RemoteKey : bytes;
  cfgHandshakeTimeout : Z;
  HandshakeRetries : Z;
  RetryBackoff : Z;
}.

Definition defaultHandshakeTimeout : Z := 30 * Second.

Definition NewConnConfig (pattern : string) (initiator : bool) : ConnConfig :=
  mkConnConfig pattern initiator [] [] defaultHandshakeTimeout 0 (1 * Second).

Inductive ConfigError :=
| EPatternRequired
| EPatternUnknown
| EInvalidTimeout
| EInvalidRetryCount
| EInvalidRetryBackoff
| EKeyLength (len : Z).

Definition ValidatePattern (pattern : string) : option ConfigError :=
  if decide (pattern = ""%string) then Some EPatternRequired else None.

Definition ValidateHandshakeTimeout (timeout : Z) : option ConfigError :=
  if timeout <=? 0 then Some EInvalidTimeout else None.

Definition ValidateKeyLength (key : bytes) : option ConfigError :=
  if (0 <? zlen key) && negb (zlen key =? 32) then Some (EKeyLength (zlen key)) else None.

Definition ValidateRetryConfig (retries backoff : Z) : option ConfigError :=
  if retries <? -1 then Some EInvalidRetryCount
  else if backoff <? 0 then Some EInvalidRetryBackoff
  else None.

(** The first error of the validators. *)
Fixpoint RunValidators {E : Type} (validators : list (option E)) : option E :=
  match validators with
  | [] => None
  | Some e :: _ => Some e
  | None :: rest => RunValidators rest
  end.

Definition validatePattern (c : ConnConfig) : option ConfigError :=
  match ValidatePattern (Pattern c) with
  | Some e => Some e
  | None => match parseHandshakePattern (Pattern c) with None => Some EPatternUnknown | Some _ => None end
  end.

Definition Validate (c : ConnConfig) : option ConfigError :=
  RunValidators [validatePattern c; ValidateHandshakeTimeout (cfgHandshakeTimeout c);
    ValidateRetryConfig (HandshakeRetries c) (RetryBackoff c); ValidateKeyLength (StaticKey c); ValidateKeyLength (RemoteKey c)].

(** ** Connections *)

Inductive NoiseError :=
| EConfig (e : ConfigError)
| EInvalidPattern
| EInvalidStaticKey
| EHandshakeInit
| EWriteMessage
| EProcessMessage
| EIO (e : IOError)
| EUnsupportedPattern
| EDeadline
| EPostHandshakeHook
| ERetryWait
| ERetryFailed (e : NoiseError) (attempts : nat).

Section Conn.
Context {W M CS : Type} `{HM : HandshakeModifier W M} `{NL : NoiseHandshakeLib CS}.

(** The connection of Framing with its handshake. [hook] is the post-handshake hook,
    where one is configured, and says whether it succeeded. *)
Record HSConn := mkHSConn {
  nc : NoiseConn W M CS;
  ncConfig : ConnConfig;
  handshakeState : HS;
  nstate : ConnState;
  privateStaticKey : bytes;
  PostHandshakeHook : option (HS -> bool);
}.

Definition with_nc (c : HSConn) (n : NoiseConn W M CS) : HSConn :=
  mkHSConn n (ncConfig c) (handshakeState c) (nstate c) (privateStaticKey c) (PostHandshakeHook c).

Definition with_hs (c : HSConn) (hs : HS) : HSConn :=
  mkHSConn (nc c) (ncConfig c) hs (nstate c) (privateStaticKey c) (PostHandshakeHook c).

Definition set_ciphers (n : NoiseConn W M CS) (send recv : option CS) : NoiseConn W M CS :=
  mkNoise send recv (modifierChain n) (rand n) (pendingPlaintext n) (nc_closed n) (handshakeDone n) (bytesRead n) (bytesWritten n).

Definition setState (c : HSConn) (s : ConnState) : HSConn :=
  let n := nc c in
  mkHSConn (mkNoise (sendCipherState n) (recvCipherState n) (modifierChain n) (rand n) (pendingPlaintext n)
      (bool_decide (s = StateClosed)) (bool_decide (s = StateEstablished)) (bytesRead n) (bytesWritten n))
    (ncConfig c) (handshakeState c) s (privateStaticKey c) (PostHandshakeHook c).

Definition createHandshakeState (config : ConnConfig) (priv : bytes) : result NoiseError HS :=
  match parseHandshakePattern (Pattern config) with
  | None => Err EInvalidPattern
  | Some pattern =>
      match (if decide (0 < length priv)%nat
             then match x25519_public priv with None => None | Some pub => Some (Some (priv, pub)) end
             else Some None) with
      | None => Err EInvalidStaticKey
      | Some keypair =>
          match NewHandshakeState pattern (Initiator config) keypair (RemoteKey config) with
          | None => Err EHandshakeInit
          | Some hs => Ok hs
          end
      end
  end.

(** [NewNoiseConn]; the modifiers are those of the configuration. *)
Definition NewNoiseConn (config : ConnConfig) (chain : option (ModifierChain M)) (w : W) (hook : option (HS -> bool))
    : result NoiseError HSConn :=
  match Validate config with
  | Some e => Err (EConfig e)
  | None =>
      match createHandshakeState config (StaticKey config) with
      | Err e => Err e
      | Ok hs => Ok (mkHSConn (mkNoise None None chain w [] false false 0 0) config hs StateInit (StaticKey config) hook)
      end
  end.

Definition updateCipherStates (c : HSConn) (cs : option (CS * CS)) : HSConn :=
  match cs with
  | None => c
  | Some (cs1, cs2) =>
      with_nc c (if Initiator (ncConfig c) then set_ciphers (nc c) (Some cs1) (Some cs2)
                 else set_ciphers (nc c) (Some cs2) (Some cs1))
  end.

Definition applyHandshakeOutbound (c : HSConn) (phase : Z) (data : bytes) : HSConn * result NoiseError bytes :=
  match modifierChain (nc c) with
  | None => (c, Ok data)
  | Some chain =>
      match ModifyOutbound chain (rand (nc c)) phase data with
      | (chain, w, Err e) => (with_nc c (set_chain (nc c) chain w), Err (EIO (EModifier e)))
      | (chain, w, Ok out) => (with_nc c (set_chain (nc c) chain w), Ok out)
      end
  end.

Definition applyHandshakeInbound (c : HSConn) (phase : Z) (data : bytes) : HSConn * result NoiseError bytes :=
  match modifierChain (nc c) with
  | None => (c, Ok data)
  | Some chain =>
      match ModifyInbound (W := W) chain phase data with
      | (chain, Err e) => (with_nc c (set_chain (nc c) chain (rand (nc c))), Err (EIO (EModifier e)))
      | (chain, Ok out) => (with_nc c (set_chain (nc c) chain (rand (nc c))), Ok out)
      end
  end.

Definition WriteHandshakeMsgToBytes (c : HSConn) (rnd : bytes) (phase : Z) (payload : bytes) : HSConn * result NoiseError bytes :=
  match WriteMessage rnd (handshakeState c) payload with
  | (hs, None) => (with_hs c hs, Err EWriteMessage)
  | (hs, Some (msg, cs)) =>
      match applyHandshakeOutbound (with_hs c hs) phase msg with
      | (c, Err e) => (c, Err e)
      | (c, Ok msg) => (updateCipherStates c cs, Ok msg)
      end
  end.

Definition ReadHandshakeMsgFromBytes (c : HSConn) (phase : Z) (wireData : bytes) : HSConn * result NoiseError bytes :=
  match applyHandshakeInbound c phase wireData with
  | (c, Err e) => (c, Err e)
  | (c, Ok data) =>
      match ReadMessage (handshakeState c) data with
      | (hs, None) => (with_hs c hs, Err EProcessMessage)
      | (hs, Some (payload, cs)) => (updateCipherStates (with_hs c hs) cs, Ok payload)
      end
  end.

(** [sendNoiseHandshakeMsg]: also the bytes that left. *)
Definition sendNoiseHandshakeMsg (c : HSConn) (rnd : bytes) (sock : Sock) (phase : Z) : HSConn * bytes * option NoiseError :=
  match WriteMessage rnd (handshakeState c) [] with
  | (hs, None) => (with_hs c hs, [], Some EWriteMessage)
  | (hs, Some (msg, cs)) =>
      match applyHandshakeOutbound (with_hs c hs) phase msg with
      | (c, Err e) => (c, [], Some e)
      | (c, Ok msg) =>
          match writeFramedMessage sock msg with
          | (out, Some e) => (c, out, Some (EIO e))
          | (out, None) => (updateCipherStates c cs, out, None)
          end
      end
  end.

(** [receiveNoiseHandshakeMsg]: also the rest of the stream. *)
Definition receiveNoiseHandshakeMsg (c : HSConn) (net : bytes) (phase : Z) : HSConn * bytes * option NoiseError :=
  match readFramedMessage net with
  | (net, Err e) => (c, net, Some (EIO e))
  | (net, Ok buffer) =>
      match applyHandshakeInbound c phase buffer with
      | (c, Err e) => (c, net, Some e)
      | (c, Ok buffer) =>
          match ReadMessage (handshakeState c) buffer with
          | (hs, None) => (with_hs c hs, net, Some EProcessMessage)
          | (hs, Some (_, cs)) => (updateCipherStates (with_hs c hs) cs, net, None)
          end
      end
  end.

(** The steps of a handler; [rnds] are the random bytes of the messages sent. *)
Fixpoint run_steps (steps : list Step) (c : HSConn) (rnds : list bytes) (sock : Sock) (net : bytes)
    : HSConn * bytes * bytes * option NoiseError :=
  match steps with
  | [] => (c, net, [], None)
  | SendMsg phase :: steps =>
      match sendNoiseHandshakeMsg c (default [] (head rnds)) sock phase with
      | (c, out, Some e) => (c, net, out, Some e)
      | (c, out, None) => let '(c, net, out2, r) := run_steps steps c (tail rnds) sock net in (c, net, out ++ out2, r)
      end
  | RecvMsg phase :: steps =>
      match receiveNoiseHandshakeMsg c net phase with
      | (c, net, Some e) => (c, net, [], Some e)
      | (c, net, None) => run_steps steps c rnds sock net
      end
  end.

Definition performInitiatorHandshake (c : HSConn) (rnds : list bytes) (sock : Sock) (net : bytes)
    : HSConn * bytes * bytes * option NoiseError :=
  match initiatorHandlers (normalizePattern (Pattern (ncConfig c))) with
  | Some handler => run_steps handler c rnds sock net
  | None => (c, net, [], Some EUnsupportedPattern)
  end.

Definition performResponderHandshake (c : HSConn) (rnds : list bytes) (sock : Sock) (net : bytes)
    : HSConn * bytes * bytes * option NoiseError :=
  match responderHandlers (normalizePattern (Pattern (ncConfig c))) with
  | Some handler => run_steps handler c rnds sock net
  | None => (c, net, [], Some EUnsupportedPattern)
  end.

Definition executeRoleBasedHandshake (c : HSConn) (rnds : list bytes) (sock : Sock) (net : bytes)
    : HSConn * bytes * bytes * option NoiseError :=
  if negb (sock_deadline_ok sock) then (c, net, [], Some EDeadline)
  else if Initiator (ncConfig c) then performInitiatorHandshake c rnds sock net
  else performResponderHandshake c rnds sock net.

Definition resetHandshakeState (c : HSConn) : HSConn :=
  match createHandshakeState (ncConfig c) (privateStaticKey c) with
  | Err _ => c
  | Ok hs => with_nc (with_hs c hs) (set_ciphers (nc c) None None)
  end.

Definition isHandshakeDone (c : HSConn) : bool := bool_decide (nstate c = StateEstablished).

Definition RunPostHandshakeHook (c : HSConn) : option NoiseError :=
  match PostHandshakeHook c with
  | Some hook => if hook (handshakeState c) then None else Some EPostHandshakeHook
  | None => None
  end.

Definition Noise_Handshake (c : HSConn) (rnds : list bytes) (sock : Sock) (net : bytes)
    : HSConn * bytes * bytes * option NoiseError :=
  if isHandshakeDone c then (c, net, [], None)
  else
    match executeRoleBasedHandshake (setState c StateHandshaking) rnds sock net with
    | (c, net, out, Some e) => (setState (resetHandshakeState c) StateInit, net, out, Some e)
    | (c, net, out, None) =>
        match RunPostHandshakeHook c with
        | Some e => (setState c StateInit, net, out, Some e)
        | None => (setState c StateEstablished, net, out, None)
        end
    end.

Definition StartHandshake (c : HSConn) : HSConn := setState c StateHandshaking.
Definition CompleteHandshake (c : HSConn) : HSConn := setState c StateEstablished.
Definition FailHandshake (c : HSConn) : HSConn := setState (resetHandshakeState c) StateInit.

Definition MixHashData (c : HSConn) (data : bytes) : HSConn :=
  if decide (0 < length data)%nat then with_hs c (MixHash (handshakeState c) data) else c.

(** [Close]; zeroing the cipher keys makes them unusable. *)
Definition Noise_Close (c : HSConn) : HSConn :=
  if decide (nstate c = StateClosed) then c
  else
    let c := setState c StateClosed in
    let n := nc c in
    let chain := match modifierChain n with Some ch => Some (Close (W := W) ch).1 | None => None end in
    mkHSConn (mkNoise None None chain (rand n) (pendingPlaintext n) (nc_closed n) (handshakeDone n) (bytesRead n) (bytesWritten n))
      (ncConfig c) (handshakeState c) (nstate c) (replicate (length (privateStaticKey c)) x00) (PostHandshakeHook c).

(** ** Retries *)

Definition maxDelay : Z := 30 * Second.

(** [math.Pow(2, float64(attempt))] *)
Definition pow2 (attempt : nat) : float64 :=
  if decide (attempt <= 1023)%nat then canon 1 (Z.of_nat attempt) else S754_infinity false.

Definition retry_delay `{FloatConv} (backoff : Z) (attempt : nat) : Z :=
  let delay := f2i (fmul (f64 backoff) (pow2 attempt)) in
  if maxDelay <? delay then maxDelay else delay.

Definition shouldRetry (c : HSConn) (attempt : nat) (maxRetries : Z) : bool :=
  if negb (maxRetries =? -1) && (maxRetries <=? Z.of_nat attempt) then false
  else bool_decide (nstate c = StateInit).

(** One attempt on its stream: what it read and wrote is left out here. *)
Definition Attempt : Type := (list bytes * Sock * bytes)%type.

Definition handshake_attempt (c : HSConn) (a : Attempt) : HSConn * option NoiseError :=
  let '(rnds, sock, net) := a in
  let '(c, _, _, r) := Noise_Handshake c rnds sock net in (c, r).

(** [executeRetryLoop]: [attempts] is what each attempt meets and [cancelled] says
    that the context ends during the wait after an attempt. The second result lists
    the delays. *)
Fixpoint executeRetryLoop `{FloatConv} (c : HSConn) (attempts : list Attempt) (cancelled : nat -> bool) (attempt : nat)
    : option (HSConn * list Z * option NoiseError) :=
  match attempts with
  | [] => None
  | a :: attempts =>
      match handshake_attempt c a with
      | (c, None) => Some (c, [], None)
      | (c, Some e) =>
          if negb (shouldRetry c attempt (HandshakeRetries (ncConfig c)))
          then Some (c, [], Some (ERetryFailed e (S attempt)))
          else
            let delay := if RetryBackoff (ncConfig c) <=? 0 then 0 else retry_delay (RetryBackoff (ncConfig c)) attempt in
            if (0 <? RetryBackoff (ncConfig c)) && cancelled attempt
            then Some (c, [delay], Some (ERetryFailed ERetryWait (S attempt)))
            else
              match executeRetryLoop c attempts cancelled (S attempt) with
              | Some (c, delays, r) => Some (c, delay :: delays, r)
              | None => None
              end
      end
  end.

Definition HandshakeWithRetry `{FloatConv} (c : HSConn) (attempts : list Attempt) (cancelled : nat -> bool)
    : option (HSConn * list Z * option NoiseError) :=
  if HandshakeRetries (ncConfig c) =? 0
  then match attempts with [] => None | a :: _ => let '(c, r) := handshake_attempt c a in Some (c, [], r) end
  else executeRetryLoop c attempts cancelled 0.
End Conn.

(** ** Patterns and handlers *)

(** The steps of an end from message [n] on, for [k] messages. *)
Fixpoint script (init : bool) (n k : nat) : list Step :=
  match k with
  | O => []
  | S k => (if eqb (Nat.even n) init then SendMsg (Z.of_nat n) else RecvMsg (Z.of_nat n)) :: script init (S n) k
  end.

(** Every pattern string that a configuration may have is dispatched to handlers for
    both roles, which exchange the messages of the pattern in turn; no other string is
    accepted. *)
Theorem patterns_handled (pattern : string) :
  match parseHandshakePattern pattern with
  | Some p => initiatorHandlers (normalizePattern pattern) = Some (script true 0 (messages p))
      /\ responderHandlers (normalizePattern pattern) = Some (script false 0 (messages p))
  | None => forall c, Pattern c = pattern -> Validate c <> None
  end.
Proof.
  destruct (parseHandshakePattern pattern) as [p|] eqn:E.
  - unfold normalizePattern. rewrite E. by destruct p.
  - intros c <-. unfold Validate, validatePattern. rewrite E. cbn [RunValidators]. by destruct (ValidatePattern _).
Qed.

(** ** Modifiers in both directions *)

(** What the receiver of a message did to its modifier leaves its own sending side in
    step. *)
Class ModifierDuplex (W M : Type) `{ModifierCorrect W M} := {
  duplex_phases : forall phase, correct_in W M phase;
  duplex_step : forall s r w phase data s' w' out r', paired s r -> paired r s ->
    ModifyOutbound s w phase data = (s', w', Ok out) -> zlen out < 2 ^ 32 -> ModifyInbound (W := W) r phase out = (r', Ok data) ->
    paired r' s';
}.

#[export] Instance xor_duplex {W} : ModifierDuplex W XORModifier.
Proof. split; [done|]. by intros s r w phase data s' w' out r' _ Hr [= <- _ _] _ [= <- _]. Qed.

#[export] Instance padding_duplex {W} `{RandSource W} : ModifierDuplex W PaddingModifier.
Proof.
  split; [done|]. intros s r w phase data s' w' out r' _ Hr. cbn. destruct (Padding_outbound s w phase data).
  intros [= <- _ _] _ [= <- _]. done.
Qed.

#[export] Instance siphash_duplex {W} `{SipHashLib} : ModifierDuplex W LengthModifier.
Proof.
  split; [done|]. intros s r w phase data s' w' out r' _ [Hk Hiv]. cbn. unfold applyMask.
  repeat case_decide; [intros [= <- _ _] _ [= <- _]; done|intros [= <- _ _] _| |];
    unfold NextInboundMask, NextOutboundMask, NextMask.
  - intros Hr. apply (inj2 pair) in Hr as [<- _]. done.
  - intros Ho _ [= <- _]. apply (inj2 pair) in Ho as [[<- _]%(inj2 pair) _]. done.
  - intros Ho _ Hr. apply (inj2 pair) in Ho as [[<- _]%(inj2 pair) _]. apply (inj2 pair) in Hr as [<- _]. done.
Qed.

#[export] Instance sum_duplex {W A B : Type} `{ModifierDuplex W A, ModifierDuplex W B} : ModifierDuplex W (A + B).
Proof.
  split; [intros phase; split; apply duplex_phases|]. intros [s|s] [r|r] w phase data s' w' out r' Hs Hr; try done; cbn;
    destruct (ModifyOutbound s w phase data) as [[s1 w1] ro] eqn:E; intros [= <- <- ->] Hl;
    destruct (ModifyInbound r phase out) as [r1 ri] eqn:E2; intros [= <- ->]; exact (duplex_step s r _ _ _ _ _ _ _ Hs Hr E Hl E2).
Qed.

Section Chains.
Context {W M : Type} `{MD : ModifierDuplex W M}.

Lemma chain_duplex ss rs i w phase data ss' w' out rs' :
  Forall2 paired ss rs -> Forall2 paired rs ss -> chain_outbound i ss w phase data = (ss', w', Ok out) -> zlen out < 2 ^ 32 ->
  chain_inbound i rs phase out = (rs', Ok data) -> Forall2 paired rs' ss'.
Proof.
  intros Hp. revert i w data ss' w' out rs'. induction Hp as [|s r ss rs Hsr Hp IH]; intros i w data ss' w' out rs' Hq; cbn.
  { by intros [= <- _ _] _ [= <-]. }
  inversion_clear Hq as [|? ? ? ? Hrs Hq']. destruct (ModifyOutbound s w phase data) as [[s1 w1] [d1|e]] eqn:E; [|done].
  destruct (chain_outbound (S i) ss w1 phase d1) as [[ss1 w2] ro] eqn:Er. intros [= <- <- ->] Hl.
  pose proof (chain_outbound_grows _ _ _ _ _ _ _ _ Er).
  destruct (chain_roundtrip _ _ _ _ _ _ _ _ _ (duplex_phases phase) Hp Er Hl) as (rs1 & Hin & _). rewrite Hin.
  destruct (ModifyInbound r phase d1) as [r1 [d|e]] eqn:Ei; [|done]. intros [= <- ->].
  constructor; [|by eapply IH]. eapply duplex_step; [exact Hsr|done|exact E|lia|exact Ei].
Qed.

Definition chains_duplex (s r : option (ModifierChain M)) : Prop := chains_paired s r /\ chains_paired r s.

Lemma chains_duplex_sym s r : chains_duplex s r -> chains_duplex r s.
Proof. by intros []. Qed.
End Chains.

(** ** The exchange *)

Section Exchange.
Context {W M CS : Type} `{MD : ModifierDuplex W M} `{NL : NoiseHandshakeLib CS} `{NC : NoiseCipher CS}.
Context `{NHL : !NoiseHandshakeLaws CS}.

Abbreviation Conn := (@HSConn W M CS _).

(** What a message leaves alone. *)
Definition unchanged (c c' : Conn) : Prop :=
  ncConfig c' = ncConfig c /\ nstate c' = nstate c /\ privateStaticKey c' = privateStaticKey c
  /\ PostHandshakeHook c' = PostHandshakeHook c /\ pendingPlaintext (nc c') = pendingPlaintext (nc c).

(** A modifier refused a message or made it too long for a frame. *)
Definition modifier_failure (e : NoiseError) : Prop :=
  (exists m, e = EIO (EModifier m)) \/ (exists n, e = EIO (EMessageTooLarge n)).

(** The message passes the chains of both ends. *)
Lemma chains_step (s r : Conn) phase m :
  chains_duplex (modifierChain (nc s)) (modifierChain (nc r)) -> 0 < zlen m ->
  (exists out ns nr, applyHandshakeOutbound s phase m = (with_nc s ns, Ok out) /\ zlen m <= zlen out
    /\ (modifierChain (nc s) = None -> out = m)
    /\ (zlen out < 2 ^ 32 -> applyHandshakeInbound r phase out = (with_nc r nr, Ok m) /\ chains_duplex (modifierChain ns) (modifierChain nr))
    /\ pendingPlaintext ns = pendingPlaintext (nc s) /\ pendingPlaintext nr = pendingPlaintext (nc r)
    /\ (is_Some (modifierChain (nc s)) <-> is_Some (modifierChain ns)))
  \/ (exists ns e, applyHandshakeOutbound s phase m = (with_nc s ns, Err (EIO (EModifier e))) /\ modifierChain (nc s) <> None).
Proof.
  intros [H1 H2] Hm. unfold applyHandshakeOutbound, applyHandshakeInbound.
  destruct (modifierChain (nc s)) as [cs|] eqn:Es, (modifierChain (nc r)) as [cr|] eqn:Er; try done.
  - cbn [ModifyOutbound ModifyInbound chain_modifier]. destruct (chain_outbound 0 (modifiers cs) (rand (nc s)) phase m) as [[ms w] [out|e]] eqn:Eo.
    + left. pose proof (chain_outbound_grows _ _ _ _ _ _ _ _ Eo) as Hg.
      destruct (chain_inbound 0 (modifiers cr) phase out) as [rs ri] eqn:Ei.
      eexists out, _, (set_chain (nc r) (mkChain rs (chain_name cr)) (rand (nc r))). split; [done|]. split_and!; try done.
      * intros Hl. destruct (chain_roundtrip _ _ _ _ _ _ _ _ _ (duplex_phases phase) H1 Eo Hl) as (rs' & Hin & Hp).
        assert (Heq : (rs, ri) = (rs', Ok m)) by (by rewrite <- Ei, Hin). injection Heq as -> ->.
        split; [cbn; by rewrite Ei|]. split; [exact Hp|].
        exact (chain_duplex _ _ _ _ _ _ _ _ _ _ H1 H2 Eo Hl Ei).
    + right. by eexists _, _.
  - left. exists m, (nc s), (nc r). split; [by destruct s|]. split; [done|]. split; [done|].
    split_and!; [intros _|done|done|by rewrite Es]. split; [by destruct r|]. by rewrite Es, Er.
Qed.

Definition good_sock : Sock := mkSock (fun _ => SockOk) true.

Lemma frame_written m : 0 < zlen m <= maxNoiseMessageSize -> exists w, writeFramedMessage good_sock m = (w, None)
  /\ forall rest, readFramedMessage (w ++ rest) = (rest, Ok m).
Proof.
  intros Hm. unfold writeFramedMessage. rewrite (proj2 (Z.ltb_ge _ _)) by lia. cbn [sock_write good_sock on_wire].
  eexists. split; [done|]. intros rest. unfold readFramedMessage. rewrite <- app_assoc.
  rewrite ReadFull_app by apply length_be_encode.
  assert (be_decode (be_encode 2 (u16 (zlen m))) = zlen m) as ->.
  { unfold maxNoiseMessageSize in Hm. rewrite u16_small by (unfold is_u16; lia). apply be_decode_encode_small. cbn. lia. }
  rewrite decide_False by lia. rewrite ReadFull_app by (unfold zlen; lia). done.
Qed.

(** One message from [s] to [r]. *)
Lemma message_step (s r : Conn) rnd phase ws xr m cs :
  WriteMessage rnd (handshakeState s) [] = (ws, Some (m, cs)) -> ReadMessage (handshakeState r) m = (xr, Some ([], cs)) ->
  0 < zlen m <= 96 -> chains_duplex (modifierChain (nc s)) (modifierChain (nc r)) ->
  (exists s' r' w ns nr, sendNoiseHandshakeMsg s rnd good_sock phase = (s', w, None)
    /\ (forall rest, receiveNoiseHandshakeMsg r (w ++ rest) phase = (r', rest, None))
    /\ s' = updateCipherStates (with_nc (with_hs s ws) ns) cs /\ r' = updateCipherStates (with_hs (with_nc r nr) xr) cs
    /\ chains_duplex (modifierChain ns) (modifierChain nr)
    /\ pendingPlaintext ns = pendingPlaintext (nc s) /\ pendingPlaintext nr = pendingPlaintext (nc r)
    /\ (is_Some (modifierChain (nc s)) <-> is_Some (modifierChain ns)))
  \/ (exists s' e, sendNoiseHandshakeMsg s rnd good_sock phase = (s', [], Some e) /\ modifier_failure e /\ modifierChain (nc s) <> None).
Proof.
  intros Hw Hr Hm Hc. unfold sendNoiseHandshakeMsg, receiveNoiseHandshakeMsg. rewrite Hw.
  destruct (chains_step (with_hs s ws) r phase m Hc) as [(out & ns & nr & Ho & Hg & Hid & Hi & Hp1 & Hp2 & Hsome)|(ns & e & Ho & Hne)]; [lia| |].
  - rewrite Ho. destruct (Z.ltb_spec maxNoiseMessageSize (zlen out)) as [Hbig|Hfit].
    { right. unfold writeFramedMessage. rewrite (proj2 (Z.ltb_lt _ _)) by done. eexists _, _. split; [done|]. split; [right; by eexists|].
      intros Hnone. rewrite Hid in Hbig by done. unfold maxNoiseMessageSize in Hbig. lia. }
    destruct (frame_written out) as (w & -> & Hread); [lia|]. left.
    destruct Hi as [Hin Hd]; [unfold maxNoiseMessageSize in Hfit; lia|].
    eexists _, _, w, ns, nr. split; [done|]. split; [|by split_and!]. intros rest. rewrite Hread, Hin.
    cbn [handshakeState with_nc with_hs]. by rewrite Hr.
  - right. rewrite Ho. eexists _, _. split; [done|]. split; [left; by eexists|done].
Qed.

(** Both ends after [n] messages. *)
Record in_progress (p : HandshakePattern) (n : nat) (a b : Conn) : Prop := {
  ip_roles : Initiator (ncConfig a) = true /\ Initiator (ncConfig b) = false;
  ip_step : hs_in_step p n (handshakeState a) (handshakeState b);
  ip_chains : chains_duplex (modifierChain (nc a)) (modifierChain (nc b));
  ip_ciphers : n = messages p -> exists c1 c2, sendCipherState (nc a) = Some c1 /\ recvCipherState (nc b) = Some c1
    /\ recvCipherState (nc a) = Some c2 /\ sendCipherState (nc b) = Some c2 /\ Framing.in_step c1 c1 /\ Framing.in_step c2 c2;
}.

Lemma unchanged_trans c1 c2 c3 : unchanged c1 c2 -> unchanged c2 c3 -> unchanged c1 c3.
Proof. intros (? & ? & ? & ? & ?) (? & ? & ? & ? & ?). split_and!; congruence. Qed.

(** Message [n], whoever sends it. *)
Lemma exchange_step p n (a b : Conn) rnd :
  in_progress p n a b -> (n < messages p)%nat -> length rnd = 32%nat ->
  let '(s, r) := if Nat.even n then (a, b) else (b, a) in
  (exists s' r' w, sendNoiseHandshakeMsg s rnd good_sock (Z.of_nat n) = (s', w, None)
    /\ (forall rest, receiveNoiseHandshakeMsg r (w ++ rest) (Z.of_nat n) = (r', rest, None))
    /\ unchanged s s' /\ unchanged r r' /\ (is_Some (modifierChain (nc s)) <-> is_Some (modifierChain (nc s')))
    /\ let '(a', b') := if Nat.even n then (s', r') else (r', s') in in_progress p (S n) a' b')
  \/ (exists s' e, sendNoiseHandshakeMsg s rnd good_sock (Z.of_nat n) = (s', [], Some e) /\ modifier_failure e /\ modifierChain (nc s) <> None).
Proof.
  intros [[Hra Hrb] Hst Hch _] Hn Hrnd. pose proof (hs_message p n _ _ rnd [] Hst Hn Hrnd) as Hmsg.
  destruct (Nat.even n) eqn:Hev; cbv iota in Hmsg |- *;
    destruct Hmsg as (ws & xr & m & cs & Hw & Hr & Hlen & Hst' & Hcs); try done; change (zlen []) with 0 in Hlen.
  - destruct (message_step a b rnd (Z.of_nat n) ws xr m cs Hw Hr) as [(s' & r' & w & ns & nr & Hs & Hrv & -> & -> & Hd & Hp1 & Hp2 & Hsm)|Hf];
      [lia|done| |by right].
    left. eexists _, _, w. split; [done|]. split; [done|]. destruct cs as [[c1 c2]|].
    + destruct (hs_ciphers _ _ _ _ _ _ _ Hw). cbn [updateCipherStates with_nc with_hs ncConfig]. rewrite Hra, Hrb.
      split_and!; try done. split; try done. intros _. by exists c1, c2.
    + split_and!; try done. split; try done. intros Hm. destruct (proj2 Hcs Hm); done.
  - destruct (message_step b a rnd (Z.of_nat n) ws xr m cs Hw Hr) as [(s' & r' & w & ns & nr & Hs & Hrv & -> & -> & Hd & Hp1 & Hp2 & Hsm)|Hf];
      [lia|by apply chains_duplex_sym| |by right].
    left. eexists _, _, w. split; [done|]. split; [done|]. destruct cs as [[c1 c2]|].
    + destruct (hs_ciphers _ _ _ _ _ _ _ Hw). cbn [updateCipherStates with_nc with_hs ncConfig]. rewrite Hra, Hrb.
      split_and!; try done. split; try done. { by apply chains_duplex_sym. } intros _. by exists c1, c2.
    + split_and!; try done. split; try done. { by apply chains_duplex_sym. } intros Hm. destruct (proj2 Hcs Hm); done.
Qed.

(** The outcomes of the steps [stepsA] of [a] and [stepsB] of [b], each on the stream
    that the other wrote: both complete, or a modifier fails at one end, and the other
    end has read all that was written when it finds the stream at its end. *)
Definition completes (stepsA stepsB : list Step) (rndA rndB : list bytes) (a b a' b' : Conn) : Prop :=
  exists wa wb, (forall ra, run_steps stepsA a rndA good_sock (wb ++ ra) = (a', ra, wa, None))
    /\ (forall rb, run_steps stepsB b rndB good_sock (wa ++ rb) = (b', rb, wb, None)).

Definition stops (run : bytes -> Conn * bytes * bytes * option NoiseError) (run' : bytes -> Conn * bytes * bytes * option NoiseError) : Prop :=
  exists w w' c c' e e', modifier_failure e /\ (forall r, run (w' ++ r) = (c, r, w, Some e)) /\ run' w = (c', [], w', Some e').

Definition modifier_fails (stepsA stepsB : list Step) (rndA rndB : list bytes) (a b : Conn) : Prop :=
  stops (run_steps stepsA a rndA good_sock) (run_steps stepsB b rndB good_sock)
  \/ stops (run_steps stepsB b rndB good_sock) (run_steps stepsA a rndA good_sock).

(** The end that sends a message first, and the end that receives it first. *)
Lemma stops_first (run run' run1 run1' : bytes -> Conn * bytes * bytes * option NoiseError) w :
  (forall net c rest out r, run1 net = (c, rest, out, r) -> run net = (c, rest, w ++ out, r)) ->
  (forall net, run' (w ++ net) = run1' net) -> stops run1 run1' -> stops run run'.
Proof.
  intros Hr Hr' (o & o' & c & c' & e & e' & He & H1 & H2). exists (w ++ o), o', c, c', e, e'. split_and!; [done| |by rewrite Hr'].
  intros r. by apply Hr.
Qed.

Lemma stops_second (run run' run1 run1' : bytes -> Conn * bytes * bytes * option NoiseError) w :
  (forall net, run (w ++ net) = run1 net) ->
  (forall net c rest out r, run1' net = (c, rest, out, r) -> run' net = (c, rest, w ++ out, r)) -> stops run1 run1' -> stops run run'.
Proof.
  intros Hr Hr' (o & o' & c & c' & e & e' & He & H1 & H2). exists o, (w ++ o'), c, c', e, e'. split_and!; [done| |by apply Hr'].
  intros r. by rewrite <- app_assoc, Hr.
Qed.

(** A modifier fails at the first message. *)
Lemma stops_now (s s' r : Conn) rnds rnds' phase steps steps' e :
  sendNoiseHandshakeMsg s (default [] (head rnds)) good_sock phase = (s', [], Some e) -> modifier_failure e ->
  stops (run_steps (SendMsg phase :: steps) s rnds good_sock) (run_steps (RecvMsg phase :: steps') r rnds' good_sock).
Proof.
  intros Hs He. exists [], [], s', r, e. eexists. split; [done|]. cbn [run_steps app]. rewrite Hs. by split.
Qed.

Lemma chain_none (a b : Conn) :
  chains_duplex (modifierChain (nc a)) (modifierChain (nc b)) -> modifierChain (nc b) <> None -> modifierChain (nc a) <> None.
Proof. intros [H1 _]. by destruct (modifierChain (nc a)), (modifierChain (nc b)). Qed.

Lemma exchange_runs p k n (a b : Conn) rndA rndB :
  in_progress p n a b -> (n + k)%nat = messages p -> (k <= length rndA)%nat -> (k <= length rndB)%nat ->
  Forall (fun rnd => length rnd = 32%nat) (rndA ++ rndB) ->
  (exists a' b', completes (script true n k) (script false n k) rndA rndB a b a' b'
    /\ in_progress p (messages p) a' b' /\ unchanged a a' /\ unchanged b b')
  \/ (modifier_fails (script true n k) (script false n k) rndA rndB a b /\ modifierChain (nc a) <> None).
Proof.
  revert n a b rndA rndB. induction k as [|k IH]; intros n a b rndA rndB Hip Hn HlA HlB Hrnd.
  { left. exists a, b. rewrite Nat.add_0_r in Hn. subst n. split_and!; try done. by exists [], []. }
  cbn [script]. destruct rndA as [|ra rndA]; [cbn in HlA; lia|]. destruct rndB as [|rb rndB]; [cbn in HlB; lia|].
  cbn [length] in *. pose proof (exchange_step p n a b) as Hstep. rewrite <- Hn in Hstep.
  assert (Hra : length ra = 32%nat) by by inversion Hrnd.
  assert (Hrb : length rb = 32%nat) by (rewrite Forall_app in Hrnd; by destruct Hrnd as [_ Hrnd]; inversion Hrnd).
  assert (HrA : Forall (fun rnd => length rnd = 32%nat) (rndA ++ rb :: rndB)) by by inversion Hrnd.
  assert (HrB : Forall (fun rnd => length rnd = 32%nat) ((ra :: rndA) ++ rndB)).
  { rewrite Forall_app in *. destruct Hrnd as [? Hx]. by inversion Hx. }
  destruct (Nat.even n) eqn:Hev; cbn [eqb]; cbv iota in Hstep.
  - destruct (Hstep ra Hip ltac:(lia) Hra) as [(a1 & b1 & w & Hs & Hr & Hua & Hub & Hch & Hip1)|(a1 & e & Hs & He & Hne)].
    + destruct (IH (S n) a1 b1 rndA (rb :: rndB) Hip1) as [(a' & b' & (wa & wb & Ha & Hb) & Hip' & Hua' & Hub')|[Hf Hne]];
        [lia|cbn; lia|cbn; lia|done| |].
      * left. exists a', b'. split_and!; [|done|by eapply unchanged_trans..]. exists (w ++ wa), wb. cbn [run_steps head default from_option id tail].
        split; [intros r; by rewrite Hs, Ha|intros r]. rewrite <- app_assoc, Hr. apply Hb.
      * right. split; [|by intros Hnone; apply Hne; destruct (modifierChain (nc a1)); [destruct (proj2 Hch ltac:(by eexists)); congruence|]].
        destruct Hf as [Hf|Hf]; [left; eapply (stops_first _ _ _ _ w), Hf|right; eapply (stops_second _ _ _ _ w), Hf];
          cbn [run_steps head default from_option id tail]; try (intros net; by rewrite Hr); intros net c rest out r E; by rewrite Hs, E.
    + right. split; [|done]. left. by eapply stops_now.
  - destruct (Hstep rb Hip ltac:(lia) Hrb) as [(b1 & a1 & w & Hs & Hr & Hub & Hua & Hch & Hip1)|(b1 & e & Hs & He & Hne)].
    + destruct (IH (S n) a1 b1 (ra :: rndA) rndB Hip1) as [(a' & b' & (wa & wb & Ha & Hb) & Hip' & Hua' & Hub')|[Hf Hne]];
        [lia|cbn; lia|cbn; lia|done| |].
      * left. exists a', b'. split_and!; [|done|by eapply unchanged_trans..]. exists wa, (w ++ wb). cbn [run_steps head default from_option id tail].
        split; [intros r; rewrite <- app_assoc, Hr; apply Ha|intros r; by rewrite Hs, Hb].
      * right. split.
        { destruct Hf as [Hf|Hf]; [left; eapply (stops_second _ _ _ _ w), Hf|right; eapply (stops_first _ _ _ _ w), Hf];
            cbn [run_steps head default from_option id tail]; try (intros net; by rewrite Hr); intros net c rest out r E; by rewrite Hs, E. }
        apply (chain_none a b); [apply Hip|]. intros Hnone. destruct Hip1 as [_ _ [Hcp _] _].
        destruct (modifierChain (nc a1)), (modifierChain (nc b1)); try done. destruct (proj2 Hch ltac:(by eexists)); congruence.
    + right. split; [|by eapply chain_none; [apply Hip|]]. right. by eapply stops_now.
Qed.

(** ** The whole handshake *)

(** Ready for data in both directions. *)
Definition connected (a b : Conn) : Prop :=
  nstate a = StateEstablished /\ nstate b = StateEstablished
  /\ validateReadState (nc a) = None /\ validateWriteState (nc a) = None
  /\ validateReadState (nc b) = None /\ validateWriteState (nc b) = None
  /\ chains_duplex (modifierChain (nc a)) (modifierChain (nc b))
  /\ (exists c d, sendCipherState (nc a) = Some c /\ recvCipherState (nc b) = Some d /\ Framing.in_step c d)
  /\ (exists c d, sendCipherState (nc b) = Some c /\ recvCipherState (nc a) = Some d /\ Framing.in_step c d).

Lemma new_fields config chain w hook (c : Conn) p :
  NewNoiseConn config chain w hook = Ok c -> parseHandshakePattern (Pattern config) = Some p ->
  exists hs kp, c = mkHSConn (mkNoise None None chain w [] false false 0 0) config hs StateInit (StaticKey config) hook
    /\ NewHandshakeState p (Initiator config) kp (RemoteKey config) = Some hs
    /\ (forall pub, StaticKey config <> [] -> x25519_public (StaticKey config) = Some pub -> kp = Some (StaticKey config, pub)).
Proof.
  intros Hc Hp. unfold NewNoiseConn in Hc. destruct (Validate config); [done|]. unfold createHandshakeState in Hc. rewrite Hp in Hc.
  case_decide as Hl.
  - destruct (x25519_public (StaticKey config)) as [pub|] eqn:Ex; [|done]. destruct (NewHandshakeState _ _ _ _) as [hs|] eqn:E; [|done].
    apply Ok_inj in Hc as <-. exists hs, (Some (StaticKey config, pub)). split_and!; [done..|]. by intros pub' _ [= <-].
  - destruct (NewHandshakeState _ _ _ _) as [hs|] eqn:E; [|done]. apply Ok_inj in Hc as <-. exists hs, None. split_and!; [done..|].
    intros pub Hne. destruct (StaticKey config); [done|cbn in Hl; lia].
Qed.

(** A handshake that runs its steps. *)
Lemma handshake_done (c c' : Conn) rnds net rest out steps p :
  parseHandshakePattern (Pattern (ncConfig c)) = Some p -> steps = script (Initiator (ncConfig c)) 0 (messages p) ->
  nstate c <> StateEstablished -> (forall h, PostHandshakeHook c' = Some h -> h (handshakeState c') = true) ->
  run_steps steps (setState c StateHandshaking) rnds good_sock net = (c', rest, out, None) ->
  Noise_Handshake c rnds good_sock net = (setState c' StateEstablished, rest, out, None).
Proof.
  intros Hp -> Hst Hhook Hrun. pose proof (patterns_handled (Pattern (ncConfig c))) as Hh. rewrite Hp in Hh. destruct Hh as [Hi Hr].
  unfold Noise_Handshake, isHandshakeDone. rewrite bool_decide_eq_false_2 by done. unfold executeRoleBasedHandshake. cbn [negb sock_deadline_ok good_sock].
  unfold performInitiatorHandshake, performResponderHandshake. change (ncConfig (setState c StateHandshaking)) with (ncConfig c). rewrite Hi, Hr.
  destruct (Initiator (ncConfig c)); rewrite Hrun; unfold RunPostHandshakeHook;
    (destruct (PostHandshakeHook c') as [h|]; [rewrite (Hhook h eq_refl)|]; done).
Qed.

Lemma handshake_failed (c c' : Conn) rnds net rest out e steps p :
  parseHandshakePattern (Pattern (ncConfig c)) = Some p -> steps = script (Initiator (ncConfig c)) 0 (messages p) ->
  nstate c <> StateEstablished ->
  run_steps steps (setState c StateHandshaking) rnds good_sock net = (c', rest, out, Some e) ->
  Noise_Handshake c rnds good_sock net = (setState (resetHandshakeState c') StateInit, rest, out, Some e).
Proof.
  intros Hp -> Hst Hrun. pose proof (patterns_handled (Pattern (ncConfig c))) as Hh. rewrite Hp in Hh. destruct Hh as [Hi Hr].
  unfold Noise_Handshake, isHandshakeDone. rewrite bool_decide_eq_false_2 by done. unfold executeRoleBasedHandshake. cbn [negb sock_deadline_ok good_sock].
  unfold performInitiatorHandshake, performResponderHandshake. change (ncConfig (setState c StateHandshaking)) with (ncConfig c). rewrite Hi, Hr.
  destruct (Initiator (ncConfig c)); by rewrite Hrun.
Qed.

Lemma stops_failed (steps steps' run run' : bytes -> Conn * bytes * bytes * option NoiseError) :
  (forall net c rest out e, steps net = (c, rest, out, Some e) -> run net = (setState (resetHandshakeState c) StateInit, rest, out, Some e)) ->
  (forall net c rest out e, steps' net = (c, rest, out, Some e) -> run' net = (setState (resetHandshakeState c) StateInit, rest, out, Some e)) ->
  stops steps steps' -> stops run run'.
Proof.
  intros Hs Hs' (w & w' & c & c' & e & e' & He & H1 & H2). eexists w, w', _, _, e, e'. split_and!; [done| |by apply Hs'].
  intros r. by apply Hs.
Qed.

End Exchange.

(** ** Retries *)

Section Retries.
Context {W M CS : Type} `{HM : HandshakeModifier W M} `{NL : NoiseHandshakeLib CS} `{FC : FloatConv}.

Abbreviation Conn := (@HSConn W M CS _).

Lemma outbound_config (c : Conn) phase d : ncConfig (applyHandshakeOutbound c phase d).1 = ncConfig c.
Proof.
  unfold applyHandshakeOutbound. destruct (modifierChain (nc c)) as [ch|]; [|done]. by destruct (ModifyOutbound _ _ _ _) as [[? ?] []].
Qed.

Lemma inbound_config (c : Conn) phase d : ncConfig (applyHandshakeInbound c phase d).1 = ncConfig c.
Proof.
  unfold applyHandshakeInbound. destruct (modifierChain (nc c)) as [ch|]; [|done]. by destruct (ModifyInbound _ _ _) as [? []].
Qed.

Lemma ciphers_config (c : Conn) cs : ncConfig (updateCipherStates c cs) = ncConfig c.
Proof. by destruct cs as [[]|]. Qed.

Lemma send_config (c : Conn) rnd sock phase : ncConfig (sendNoiseHandshakeMsg c rnd sock phase).1.1 = ncConfig c.
Proof.
  unfold sendNoiseHandshakeMsg. destruct (WriteMessage _ _ _) as [hs [[m cs]|]]; [|done].
  pose proof (outbound_config (with_hs c hs) phase m) as Ho. destruct (applyHandshakeOutbound _ _ _) as [c1 [m1|e]]; [|done].
  destruct (writeFramedMessage _ _) as [out [e|]]; [done|]. cbn [fst]. by rewrite ciphers_config.
Qed.

Lemma receive_config (c : Conn) net phase : ncConfig (receiveNoiseHandshakeMsg c net phase).1.1 = ncConfig c.
Proof.
  unfold receiveNoiseHandshakeMsg. destruct (readFramedMessage net) as [net1 [m|e]]; [|done].
  pose proof (inbound_config c phase m) as Hi. destruct (applyHandshakeInbound _ _ _) as [c1 [m1|e]]; [|done].
  destruct (ReadMessage _ _) as [hs [[pl cs]|]]; [|done]. cbn [fst]. by rewrite ciphers_config.
Qed.

Lemma steps_config steps (c : Conn) rnds sock net : ncConfig (run_steps steps c rnds sock net).1.1.1 = ncConfig c.
Proof.
  revert c rnds net. induction steps as [|[phase|phase] steps IH]; intros c rnds net; [done|..]; cbn [run_steps].
  - pose proof (send_config c (default [] (head rnds)) sock phase) as Hs. destruct (sendNoiseHandshakeMsg _ _ _ _) as [[c1 out] [e|]]; [done|].
    specialize (IH c1 (tail rnds) net). destruct (run_steps _ _ _ _ _) as [[[c2 net2] out2] r]. cbn in *. congruence.
  - pose proof (receive_config c net phase) as Hr. destruct (receiveNoiseHandshakeMsg _ _ _) as [[c1 net1] [e|]]; [done|].
    by rewrite IH.
Qed.

Lemma reset_config (c : Conn) : ncConfig (resetHandshakeState c) = ncConfig c.
Proof. unfold resetHandshakeState. by destruct (createHandshakeState _ _). Qed.

(** An attempt keeps the configuration, and succeeds exactly when it is established. *)
Lemma attempt_spec (c : Conn) a :
  ncConfig (handshake_attempt c a).1 = ncConfig c
  /\ ((handshake_attempt c a).2 = None <-> nstate (handshake_attempt c a).1 = StateEstablished)
  /\ (nstate (handshake_attempt c a).1 = StateEstablished \/ nstate (handshake_attempt c a).1 = StateInit).
Proof.
  destruct a as [[rnds sock] net]. unfold handshake_attempt, Noise_Handshake, isHandshakeDone.
  case_bool_decide as Hst; [split_and!; [done|by split|by left]|].
  assert (Hex : forall c0, ncConfig (executeRoleBasedHandshake c0 rnds sock net).1.1.1 = ncConfig (c0 : Conn)).
  { intros c0. unfold executeRoleBasedHandshake. destruct (negb _); [done|].
    unfold performInitiatorHandshake, performResponderHandshake.
    destruct (Initiator _); [destruct (initiatorHandlers _)|destruct (responderHandlers _)]; try done; apply steps_config. }
  specialize (Hex (setState c StateHandshaking)).
  destruct (executeRoleBasedHandshake _ _ _ _) as [[[c1 net1] out1] [e|]]; cbn [fst snd] in *.
  - split_and!; [|done|by right]. change (ncConfig (setState ?x _)) with (ncConfig x). by rewrite reset_config.
  - destruct (RunPostHandshakeHook c1); cbn [fst snd]; (split_and!; [done|done|]); [by right|by left].
Qed.

Lemma retry_delay_exact backoff k :
  0 < backoff < 2 ^ 53 -> backoff * 2 ^ Z.of_nat k < 2 ^ 63 ->
  retry_delay backoff k = Z.min maxDelay (backoff * 2 ^ Z.of_nat k).
Proof.
  intros Hb Hk. assert (Hk63 : Z.of_nat k < 63).
  { destruct (Z.lt_ge_cases (Z.of_nat k) 63) as [|Hge]; [done|]. pose proof (Z.pow_le_mono_r 2 63 (Z.of_nat k) ltac:(lia) Hge). nia. }
  unfold retry_delay, pow2. rewrite decide_True by lia. rewrite f64_exact by lia.
  rewrite fmul_exact by (unfold fits; lia). rewrite Z.mul_1_r, Z.add_0_l, f2i_shift by lia.
  rewrite (proj2 (Z.ltb_lt (backoff * 2 ^ Z.of_nat k) (2 ^ 63))) by lia. destruct (Z.ltb_spec maxDelay (backoff * 2 ^ Z.of_nat k)); lia.
Qed.

(** The connection after some attempts, and how the attempt after the first [i] ends. *)
Definition after (c : Conn) (attempts : list Attempt) : Conn := foldl (fun c a => (handshake_attempt c a).1) c attempts.

Definition outcome (c : Conn) (attempts : list Attempt) (i : nat) : option NoiseError :=
  attempts !! i ≫= fun a => (handshake_attempt (after c (take i attempts)) a).2.

(** Why attempt [j], counted as attempt [k + j] of the handshake, is the last one, with
    the number of waits and the result: it succeeds, it was the last one allowed, or
    the context ends during the wait that follows it. *)
Definition ends_retries (wrap : NoiseError -> NoiseError) (n k : nat) (backoff : Z) (cancelled : nat -> bool) (c : Conn) (attempts : list Attempt) (j waits : nat)
    (r : option NoiseError) : Prop :=
  match outcome c attempts j with
  | None => waits = j /\ r = None
  | Some e =>
      ((k + j)%nat = n /\ waits = j /\ r = Some (wrap e))
      \/ ((k + j < n)%nat /\ 0 < backoff /\ cancelled (k + j)%nat = true /\ waits = S j
          /\ r = Some (ERetryFailed ERetryWait (S (k + j))))
  end.

(** The loop from an attempt on. *)
Lemma retry_loop attempts (c : Conn) cancelled k n backoff :
  HandshakeRetries (ncConfig c) = Z.of_nat n -> RetryBackoff (ncConfig c) = backoff -> (k <= n)%nat -> (n - k < length attempts)%nat ->
  0 <= backoff < 2 ^ 53 -> backoff * 2 ^ Z.of_nat n < 2 ^ 63 ->
  exists j waits r, executeRetryLoop c attempts cancelled k
      = Some (after c (take (S j) attempts), (fun i => Z.min maxDelay (backoff * 2 ^ Z.of_nat i)) <$> seq k waits, r)
    /\ (k + j <= n)%nat
    /\ (forall i, (i < j)%nat -> outcome c attempts i <> None /\ (backoff = 0 \/ cancelled (k + i)%nat = false))
    /\ ends_retries (fun e => ERetryFailed e (S n)) n k backoff cancelled c attempts j waits r.
Proof.
  revert c k. induction attempts as [|a attempts IH]; intros c k Hn Hb Hk Hl Hbk Hmax; [cbn in Hl; lia|]. cbn [executeRetryLoop].
  destruct (attempt_spec c a) as (Hcfg & Hok & Hst).
  assert (H0 : outcome c (a :: attempts) 0 = (handshake_attempt c a).2) by done.
  assert (Hnext : forall i, outcome c (a :: attempts) (S i) = outcome (handshake_attempt c a).1 attempts i) by done.
  assert (Haft : forall i, after c (take (S i) (a :: attempts)) = after (handshake_attempt c a).1 (take i attempts)) by done.
  destruct (handshake_attempt c a) as [c1 [e|]]; cbn [fst snd] in *.
  2: { exists 0%nat, 0%nat, None. rewrite Haft. split_and!; [done|lia|intros i Hi; lia|]. unfold ends_retries. by rewrite H0. }
  assert (Hinit : nstate c1 = StateInit) by (destruct Hst as [Hst|Hst]; [by apply Hok in Hst|done]).
  unfold shouldRetry. rewrite Hcfg, Hn, Hb. rewrite (proj2 (Z.eqb_neq (Z.of_nat n) (-1))) by lia. cbn [negb andb].
  destruct (Z.leb_spec (Z.of_nat n) (Z.of_nat k)) as [Hend|Hmore]; cbn [negb].
  { exists 0%nat, 0%nat, (Some (ERetryFailed e (S k))). rewrite Haft. split_and!; [done|lia|intros i Hi; lia|]. unfold ends_retries. rewrite H0.
    left. assert (k = n) as -> by lia. split_and!; [lia|done|done]. }
  rewrite bool_decide_eq_true_2 by done. cbn [negb].
  assert (Hd : (if backoff <=? 0 then 0 else retry_delay backoff k) = Z.min maxDelay (backoff * 2 ^ Z.of_nat k)).
  { destruct (Z.leb_spec backoff 0) as [Hz|Hz].
    - assert (backoff = 0) as -> by lia. by rewrite Z.mul_0_l.
    - apply retry_delay_exact; [lia|]. pose proof (Z.pow_le_mono_r 2 (Z.of_nat k) (Z.of_nat n) ltac:(lia) ltac:(lia)). nia. }
  rewrite Hd. destruct ((0 <? backoff) && cancelled k) eqn:Hc.
  { apply andb_prop in Hc as [Hpos%Z.ltb_lt Hc]. eexists 0%nat, 1%nat, _. rewrite Haft. split_and!; [done|lia|intros i Hi; lia|].
    unfold ends_retries. rewrite H0. right. rewrite Nat.add_0_r. split_and!; [lia|done|done|done|done]. }
  destruct (IH c1 (S k)) as (j & waits & r & -> & Hj & Hbefore & Hend); [congruence..|lia|cbn in Hl; lia|done|done|].
  exists (S j), (S waits), r. rewrite Haft. split_and!; [done|lia| |].
  - intros [|i] Hi.
    + rewrite H0, Nat.add_0_r. split; [done|]. apply andb_false_iff in Hc as [Hc%Z.ltb_ge|Hc]; [left; lia|by right].
    + rewrite Hnext, Nat.add_succ_r. apply Hbefore. lia.
  - unfold ends_retries in *. rewrite Hnext, Nat.add_succ_r. destruct (outcome c1 attempts j); [|naive_solver lia].
    destruct Hend as [(? & -> & ?)|(? & ? & ? & -> & ?)]; [left|right]; split_and!; auto; lia.
Qed.

Lemma after_established (c : Conn) attempts j :
  (j < length attempts)%nat -> outcome c attempts j = None <-> nstate (after c (take (S j) attempts)) = StateEstablished.
Proof.
  intros Hj. destruct (lookup_lt_is_Some_2 attempts j Hj) as [a Ha]. unfold outcome. rewrite Ha. cbn [mbind option_bind].
  rewrite (take_S_r _ _ _ Ha). unfold after at 2. rewrite foldl_app. apply attempt_spec.
Qed.

(** C31: retries, with a limit of [n] of them. The handshake is tried again as long as
    an attempt fails: the attempts before the last one all failed, the last one either
    succeeded, or was attempt [n + 1], or the context ended during the wait that
    followed it. The connection is established exactly when the result is no error. The
    waits between the attempts double from the configured backoff up to 30 seconds, for
    a backoff below 2^53 ns that remains below 2^63 ns when it is doubled [n] times. *)
Theorem handshake_retries (c : Conn) (attempts : list Attempt) (cancelled : nat -> bool) (n : nat) (backoff := RetryBackoff (ncConfig c)) :
  HandshakeRetries (ncConfig c) = Z.of_nat n -> (n < length attempts)%nat ->
  0 <= backoff < 2 ^ 53 -> backoff * 2 ^ Z.of_nat n < 2 ^ 63 ->
  exists j waits r, HandshakeWithRetry c attempts cancelled
      = Some (after c (take (S j) attempts), (fun i => Z.min maxDelay (backoff * 2 ^ Z.of_nat i)) <$> seq 0 waits, r)
    /\ (j <= n)%nat
    /\ (forall i, (i < j)%nat -> outcome c attempts i <> None /\ (backoff = 0 \/ cancelled i = false))
    /\ ends_retries (fun e => if decide (n = 0%nat) then e else ERetryFailed e (S n)) n 0 backoff cancelled c attempts j waits r
    /\ (r = None <-> nstate (after c (take (S j) attempts)) = StateEstablished).
Proof.
  intros Hn Hl Hb Hmax. unfold HandshakeWithRetry. destruct (Z.eqb_spec (HandshakeRetries (ncConfig c)) 0) as [H0|H0].
  { assert (n = 0%nat) as -> by lia. destruct attempts as [|a attempts]; [cbn in Hl; lia|]. destruct (attempt_spec c a) as (_ & Hok & _).
    exists 0%nat, 0%nat, (handshake_attempt c a).2. assert (Haft : after c (take 1 (a :: attempts)) = (handshake_attempt c a).1) by done. rewrite Haft.
    split_and!; [by destruct (handshake_attempt c a)|lia|intros i Hi; lia| |exact Hok].
    assert (Ho : outcome c (a :: attempts) 0 = (handshake_attempt c a).2) by done. unfold ends_retries. rewrite Ho.
    destruct (handshake_attempt c a).2; auto. }
  destruct (retry_loop attempts c cancelled 0 n backoff) as (j & waits & r & Hr & Hj & Hbefore & Hend); try done; [lia|lia|].
  exists j, waits, r. unfold ends_retries in *.
  split_and!; [done|lia|done|destruct (outcome c attempts j); [rewrite decide_False by lia|]; exact Hend|]. rewrite <- after_established by lia.
  destruct (outcome c attempts j); [|naive_solver]. destruct Hend as [(_ & _ & ->)|(_ & _ & _ & _ & ->)]; done.
Qed.

(** ** Findings *)

(** A connection that was closed is no longer closed after a handshake that fails. *)
Lemma closed_revived (c : Conn) rnds sock net c' net' out e :
  nstate c = StateClosed -> Noise_Handshake c rnds sock net = (c', net', out, Some e) -> nstate c' = StateInit.
Proof.
  intros Hc. unfold Noise_Handshake, isHandshakeDone. rewrite bool_decide_eq_false_2 by (by rewrite Hc).
  destruct (executeRoleBasedHandshake _ _ _ _) as [[[c1 net1] out1] [e1|]]; [by intros [= <- _ _ _]|].
  destruct (RunPostHandshakeHook c1); by intros [= <- _ _ _].
Qed.

(** No handshake ends in the state Closed, whatever the state was. *)
Lemma handshake_not_closed (c : Conn) rnds sock net c' net' out e :
  Noise_Handshake c rnds sock net = (c', net', out, e) -> nstate c' <> StateClosed.
Proof.
  unfold Noise_Handshake, isHandshakeDone. case_bool_decide as Hd; [intros [= <- _ _ _]; by rewrite Hd|].
  destruct (executeRoleBasedHandshake _ _ _ _) as [[[c1 net1] out1] [e1|]]; [by intros [= <- _ _ _]|].
  destruct (RunPostHandshakeHook c1); by intros [= <- _ _ _].
Qed.

(** When the hook fails, the handshake state and the ciphers of the completed exchange
    are kept in the state Init. *)
Lemma hook_failure_keeps_state (c c1 : Conn) rnds sock net net1 out e :
  nstate c <> StateEstablished -> executeRoleBasedHandshake (setState c StateHandshaking) rnds sock net = (c1, net1, out, None) ->
  RunPostHandshakeHook c1 = Some e ->
  exists c', Noise_Handshake c rnds sock net = (c', net1, out, Some e) /\ nstate c' = StateInit
    /\ handshakeState c' = handshakeState c1 /\ sendCipherState (nc c') = sendCipherState (nc c1).
Proof.
  intros Hst Hx Hh. unfold Noise_Handshake, isHandshakeDone. rewrite bool_decide_eq_false_2 by done. rewrite Hx, Hh. by eexists.
Qed.
End Retries.

(** With a backoff of one second the delay of the 34th retry is negative on amd64: the
    product does not fit an int64. *)
Lemma retry_delay_overflows :
  retry_delay (H := amd64_conv) Second 33 = maxDelay /\ retry_delay (H := amd64_conv) Second 34 = - 2 ^ 63.
Proof. by vm_compute. Qed.

(** ** An instance of the library

    Messages carry the payload in the clear with a digest of the transcript. The third
    message of XK starts with the static key of the initiator, the others with an
    ephemeral key. *)

Record DemoNoise := mkDemoNoise {
  dn_pattern : HandshakePattern;
  dn_init : bool;
  dn_idx : nat;
  dn_pub : bytes;
  dn_peer : bytes;
  dn_h : bytes;
}.

(** An ephemeral key has its highest bit clear. *)
Definition demo_ephemeral (rnd : bytes) : bytes := take 31 rnd ++ [z2b (Z.land (byte_at rnd 31) 127)].

Definition demo_static_message (s : DemoNoise) : bool := bool_decide (dn_pattern s = PXK /\ dn_idx s = 2%nat).

Definition dn_prefix (s : DemoNoise) (rnd : bytes) : bytes :=
  if demo_static_message s then dn_pub s ++ replicate 16 x00 else demo_ephemeral rnd.

Definition dn_prefix_len (s : DemoNoise) : nat := if demo_static_message s then 48 else 32.

Definition dn_next (s : DemoNoise) (m : bytes) : DemoNoise :=
  mkDemoNoise (dn_pattern s) (dn_init s) (S (dn_idx s)) (dn_pub s)
    (if demo_static_message s then take 32 m else dn_peer s) (demo_digest 32 (dn_h s ++ m)).

Definition dn_ciphers (s : DemoNoise) : option (Z * Z) :=
  if decide (dn_idx s = messages (dn_pattern s)) then Some (be_decode (take 2 (dn_h s)), be_decode (take 3 (dn_h s))) else None.

Definition dn_write (rnd : bytes) (s : DemoNoise) (p : bytes) : DemoNoise * option (bytes * option (Z * Z)) :=
  let pre := dn_prefix s rnd in
  if bool_decide (dn_idx s < messages (dn_pattern s))%nat && eqb (dn_init s) (Nat.even (dn_idx s)) && bool_decide (length pre = dn_prefix_len s) then
    let m := pre ++ p ++ demo_digest 16 (dn_h s ++ pre ++ p) in
    let s := dn_next s m in (s, Some (m, dn_ciphers s))
  else (s, None).

Definition dn_read (s : DemoNoise) (m : bytes) : DemoNoise * option (bytes * option (Z * Z)) :=
  let n := dn_prefix_len s in
  let pre := take n m in
  let p := slice n (length m - 16) m in
  if bool_decide (dn_idx s < messages (dn_pattern s))%nat && negb (eqb (dn_init s) (Nat.even (dn_idx s)))
     && bool_decide (n + 16 <= length m)%nat && bool_decide (drop (length m - 16) m = demo_digest 16 (dn_h s ++ pre ++ p)) then
    let s := dn_next s m in (s, Some (p, dn_ciphers s))
  else (s, None).

Definition dn_new (p : HandshakePattern) (init : bool) (kp : option (bytes * bytes)) (peer : bytes) : option DemoNoise :=
  let pub := match kp with Some (_, pub) => pub | None => [] end in
  Some (mkDemoNoise p init 0 pub peer (demo_digest 32 (String.list_byte_of_string (pattern_name p)))).

#[local] Instance demo_noise_lib : NoiseHandshakeLib Z := {|
  HS := DemoNoise;
  NewHandshakeState := dn_new;
  WriteMessage := dn_write;
  ReadMessage := dn_read;
  MixHash s d := mkDemoNoise (dn_pattern s) (dn_init s) (dn_idx s) (dn_pub s) (dn_peer s) (demo_digest 32 (dn_h s ++ d));
  ChannelBinding := dn_h;
  AdditionalSymmetricKeys s := [demo_digest 32 (dn_h s ++ [x01])];
  PeerStatic := dn_peer;
  x25519_public k := if decide (length k = 32%nat) then Some (demo_digest 32 k) else None;
|}.

Record dn_in_step (p : HandshakePattern) (n : nat) (i r : DemoNoise) : Prop := {
  ds_pattern : dn_pattern i = p /\ dn_pattern r = p;
  ds_init : dn_init i = true /\ dn_init r = false;
  ds_idx : dn_idx i = n /\ dn_idx r = n;
  ds_h : dn_h i = dn_h r;
  ds_h_len : length (dn_h i) = 32%nat;
  ds_pub : p = PXK -> length (dn_pub i) = 32%nat;
}.

Lemma length_demo_ephemeral rnd : length rnd = 32%nat -> length (demo_ephemeral rnd) = 32%nat.
Proof. intros Hr. unfold demo_ephemeral. rewrite length_app, length_take, Hr. done. Qed.

Lemma dn_message (w r : DemoNoise) rnd p :
  dn_pattern w = dn_pattern r -> dn_idx w = dn_idx r -> dn_h w = dn_h r -> (dn_idx w < messages (dn_pattern w))%nat ->
  dn_init w = Nat.even (dn_idx w) -> dn_init r = negb (Nat.even (dn_idx r)) -> length (dn_prefix w rnd) = dn_prefix_len w ->
  exists m, dn_write rnd w p = (dn_next w m, Some (m, dn_ciphers (dn_next w m)))
    /\ dn_read r m = (dn_next r m, Some (p, dn_ciphers (dn_next w m))) /\ length m = (length p + 16 + dn_prefix_len w)%nat
    /\ take (dn_prefix_len w) m = dn_prefix w rnd.
Proof.
  intros Hp Hidx Hh Hn Hw Hr Hpre. set (pre := dn_prefix w rnd) in *. set (m := pre ++ p ++ demo_digest 16 (dn_h w ++ pre ++ p)).
  assert (Hlen : length m = (length p + 16 + dn_prefix_len w)%nat) by (unfold m; rewrite !length_app, length_demo_digest; lia).
  assert (Hst : demo_static_message r = demo_static_message w) by (unfold demo_static_message; by rewrite Hp, Hidx).
  assert (Hpl : dn_prefix_len r = length pre) by (rewrite Hpre; unfold dn_prefix_len; by rewrite Hst).
  assert (Hci : dn_ciphers (dn_next r m) = dn_ciphers (dn_next w m)) by (unfold dn_ciphers, dn_next; cbn; by rewrite Hp, Hidx, Hh).
  exists m. split_and!; [| |done|unfold m; rewrite <- Hpre; apply take_app_length].
  - unfold dn_write. fold pre. rewrite bool_decide_eq_true_2 by done. rewrite Hw, eqb_reflx, bool_decide_eq_true_2 by done. done.
  - unfold dn_read. rewrite Hpl. assert (Htk : take (length pre) m = pre) by apply take_app_length.
    assert (Hm16 : (length m - 16 = length pre + length p)%nat) by lia. rewrite Htk, Hm16.
    assert (Hsl : slice (length pre) (length pre + length p) m = p) by (apply slice_app; [done|lia]).
    rewrite Hsl, <- Hp, <- Hidx, bool_decide_eq_true_2 by done. rewrite Hr, Hidx.
    assert (Hdr : drop (length pre + length p) m = demo_digest 16 (dn_h r ++ pre ++ p)).
    { unfold m. rewrite app_assoc, <- Hh. apply drop_app_length'. by rewrite length_app. }
    rewrite (bool_decide_eq_true_2 (_ <= _)%nat) by lia. rewrite (bool_decide_eq_true_2 _ Hdr).
    destruct (Nat.even (dn_idx r)); cbn [negb eqb andb]; by rewrite Hci.
Qed.

Lemma dn_prefix_length p n i r rnd (w := if Nat.even n then i else r) :
  dn_in_step p n i r -> (n < messages p)%nat -> length rnd = 32%nat -> length (dn_prefix w rnd) = dn_prefix_len w.
Proof.
  intros [[Hpi Hpr] _ [Hii Hir] _ _ Hpub] Hn Hrnd. subst w. unfold dn_prefix, dn_prefix_len. destruct (demo_static_message _) eqn:E; [|by apply length_demo_ephemeral].
  apply bool_decide_eq_true in E as [Hp Hx]. assert (n = 2%nat) as -> by (destruct (Nat.even n); lia).
  change (Nat.even 2) with true in *. cbv iota in *. rewrite length_app, length_replicate, Hpub by congruence. done.
Qed.

Lemma dn_next_step p n i r m : dn_in_step p n i r -> dn_in_step p (S n) (dn_next i m) (dn_next r m).
Proof. intros [[? ?] [? ?] [? ?] Hh ? ?]. split; cbn; rewrite ?Hh, ?length_demo_digest; auto. Qed.

Lemma dn_ciphers_last s m : is_Some (dn_ciphers (dn_next s m)) <-> S (dn_idx s) = messages (dn_pattern s).
Proof. unfold dn_ciphers. cbn [dn_idx dn_pattern dn_next]. case_decide; split; done. Qed.

Lemma dn_prefix_len_bound s : (dn_prefix_len s <= 48)%nat.
Proof. unfold dn_prefix_len. destruct (demo_static_message s); lia. Qed.

#[local] Existing Instance counter_cipher.

#[local] Instance demo_noise_laws : NoiseHandshakeLaws Z.
Proof.
  refine {| hs_in_step := (dn_in_step : HandshakePattern -> nat -> @HS Z demo_noise_lib -> @HS Z demo_noise_lib -> Prop) |}.
  - intros p ka kb peerA peerB i r [= <-] [= <-] [Hki _]. split; cbn [dn_pattern dn_init dn_idx dn_h dn_pub]; try done. intros ->.
    destruct (Hki eq_refl) as (priv & pub & -> & Hpub & _). cbn in Hpub. case_decide; [|done]. injection Hpub as <-. done.
  - intros p n i r d [? ? ? Hh ? ?]. split; cbn [MixHash demo_noise_lib dn_pattern dn_init dn_idx dn_h dn_pub]; rewrite ?length_demo_digest; try done. by rewrite Hh.
  - intros p n i r rnd payload Hst Hn Hrnd _. pose proof (dn_prefix_length p n i r rnd Hst Hn Hrnd) as Hpl.
    pose proof Hst as [[Hpi Hpr] [Hii Hir] [Hxi Hxr] Hh _ _]. destruct (Nat.even n) eqn:Hev; cbn [WriteMessage ReadMessage demo_noise_lib] in *.
    + destruct (dn_message i r rnd payload) as (m & Hwr & Hrd & Hl & _); rewrite ?Hpi, ?Hpr, ?Hii, ?Hir, ?Hxi, ?Hxr, ?Hev; try done.
      eexists _, _, m, _. pose proof (dn_prefix_len_bound i).
      split_and!; [exact Hwr|exact Hrd|unfold zlen; lia|unfold zlen; lia|by apply dn_next_step|].
      rewrite dn_ciphers_last. by rewrite Hpi, Hxi.
    + destruct (dn_message r i rnd payload) as (m & Hwr & Hrd & Hl & _); rewrite ?Hpi, ?Hpr, ?Hii, ?Hir, ?Hxi, ?Hxr, ?Hev; try done.
      eexists _, _, m, _. pose proof (dn_prefix_len_bound r).
      split_and!; [exact Hwr|exact Hrd|unfold zlen; lia|unfold zlen; lia|by apply dn_next_step|].
      rewrite dn_ciphers_last. by rewrite Hpr, Hxr.
  - done.
Defined.

(** ** Witnesses *)

#[local] Existing Instances zero_source amd64_conv.

Definition demo_static_key : bytes := replicate 32 x07.

Definition demo_config (initiator : bool) : ConnConfig :=
  mkConnConfig "Noise_XK_25519_ChaChaPoly_SHA256" initiator demo_static_key
    (if initiator then demo_digest 32 demo_static_key else []) defaultHandshakeTimeout 2 (1 * Second).

(** The connection that [NewNoiseConn] makes of it. *)
Definition demo_hsconn (initiator : bool) : HSConn (W := unit) (M := XORModifier) :=
  mkHSConn (mkNoise None None None tt [] false false 0 0) (demo_config initiator)
    (mkDemoNoise PXK initiator 0 (demo_digest 32 demo_static_key) (RemoteKey (demo_config initiator))
      (demo_digest 32 (String.list_byte_of_string "XK")))
    StateInit demo_static_key (Some (fun _ => true)).

Definition demo_randoms : list bytes := [replicate 32 x01; replicate 32 x02; replicate 32 x03].


(** Each of the three attempts meets a stream that ends: there are two waits, of one and
    of two seconds. *)
Lemma handshake_retries_witness :
  exists c', HandshakeWithRetry (demo_hsconn false) (replicate 3 (demo_randoms, good_sock, [])) (fun _ => false)
      = Some (c', [1 * Second; 2 * Second], Some (ERetryFailed (EIO EReadLengthFailed) 3)) /\ nstate c' <> StateEstablished.
Proof.
  destruct (handshake_retries (demo_hsconn false) (replicate 3 (demo_randoms, good_sock, [])) (fun _ => false) 2)
    as (j & waits & r & H1 & H2 & H3 & H4 & H5).
  - reflexivity.
  - cbn. lia.
  - by vm_compute.
  - by vm_compute.
  - assert (Hout : forall i, (i < 3)%nat -> outcome (demo_hsconn false) (replicate 3 (demo_randoms, good_sock, [])) i = Some (EIO EReadLengthFailed)).
    { intros i Hi. destruct i as [|[|[|i]]]; [vm_compute; reflexivity..|lia]. }
    unfold ends_retries in H4. rewrite Hout in H4 by lia. destruct H4 as [(Hj & -> & ->)|(_ & _ & H4 & _)]; [|discriminate].
    cbn in Hj. subst j. eexists. split; [rewrite H1; reflexivity|]. intros Hst. apply H5 in Hst. discriminate.
Defined.
