(* ===== verification/Ntcp2Config.v ===== *)
(** * NTCP2 settings, obfuscation of ephemeral keys and key derivation

    [ntcp2/aes_obfuscation_modifier.go] (AES-CBC over the ephemeral keys of the first
    two handshake messages), [ntcp2/kdf.go] (the SipHash keys of the data phase) and
    [ntcp2/config.go] (settings, their validation, the modifier chain that they
    describe, and the hook that derives the keys).

    The AES block cipher and HMAC-SHA256 are not part of the repository: they are the
    classes [AESLib] and [HMACLib]. *)

From Stdlib Require Import ZArith Lia.
From Stdlib Require Import Strings.Byte.
From stdpp Require Import base numbers list strings.
From S2P Require Import Prelude Float64 Modifiers Padding Framing NoiseHandshake.

#[local] Open Scope Z_scope.

Definition RouterHashSize : nat := 32.
Definition StaticKeySize : nat := 32.
Definition IVSize : nat := 16.
Definition BlockHeaderSize : Z := 3.
Definition NTCP2Pattern : string := "XK".

(** ** AES *)

Class AESLib := {
  aes_encrypt : bytes -> bytes -> bytes;                                (* key, block *)
  aes_decrypt : bytes -> bytes -> bytes;
  aes_encrypt_length : forall k b, length (aes_encrypt k b) = 16%nat;
  aes_decrypt_encrypt : forall k b, length b = 16%nat -> aes_decrypt k (aes_encrypt k b) = b;
}.

(** [CryptBlocks] of [cipher.NewCBCEncrypter] and [cipher.NewCBCDecrypter], for [n]
    blocks. *)
Fixpoint cbc_encrypt `{AESLib} (key iv : bytes) (n : nat) (data : bytes) : bytes :=
  match n with
  | O => []
  | S n => let c := aes_encrypt key (zip_with byte_xor (take 16 data) iv) in c ++ cbc_encrypt key c n (drop 16 data)
  end.

Fixpoint cbc_decrypt `{AESLib} (key iv : bytes) (n : nat) (data : bytes) : bytes :=
  match n with
  | O => []
  | S n => let c := take 16 data in zip_with byte_xor (aes_decrypt key c) iv ++ cbc_decrypt key c n (drop 16 data)
  end.

(** [block] is the key of the cached cipher; it is nil after [Close]. *)
Record AESObfuscationModifier := mkAES {
  aes_name : string;
  routerHash : bytes;
  aes_iv : bytes;
  aesState : option bytes;
  block : option bytes;
}.

Definition set_aesState (m : AESObfuscationModifier) (s : option bytes) : AESObfuscationModifier :=
  mkAES (aes_name m) (routerHash m) (aes_iv m) s (block m).

Inductive AESParamError :=
| EInvalidRouterHash (len : nat)
| EInvalidIV (len : nat).

Definition NewAESObfuscationModifier (name : string) (hash iv : bytes) : result AESParamError AESObfuscationModifier :=
  if negb (bool_decide (length hash = RouterHashSize)) then Err (EInvalidRouterHash (length hash))
  else if negb (bool_decide (length iv = IVSize)) then Err (EInvalidIV (length iv))
  else Ok (mkAES name hash iv None (Some hash)).

(** The IV of a phase; [None] where the phase is not obfuscated. *)
Definition phase_iv (m : AESObfuscationModifier) (phase : Z) : result ModifierError (option bytes) :=
  if phase =? PhaseInitial then Ok (Some (aes_iv m))
  else if phase =? PhaseExchange then
    match aesState m with
    | None => Err (EMissingAESState (aes_name m))
    | Some s => Ok (Some s)
    end
  else Ok None.

Section AES.
Context {W : Type} `{AESLib}.

Definition AES_outbound (m : AESObfuscationModifier) (phase : Z) (data : bytes)
    : AESObfuscationModifier * result ModifierError bytes :=
  if decide (length data < StaticKeySize)%nat then (m, Ok data)
  else
    match phase_iv m phase with
    | Err e => (m, Err e)
    | Ok None => (m, Ok data)
    | Ok (Some iv) =>
        match block m with
        | None => (m, Err ENilCipher)
        | Some key =>
            let result := cbc_encrypt key iv 2 (take StaticKeySize data) ++ drop StaticKeySize data in
            (if phase =? PhaseInitial then set_aesState m (Some (slice IVSize StaticKeySize result)) else m, Ok result)
        end
    end.

Definition AES_inbound (m : AESObfuscationModifier) (phase : Z) (data : bytes)
    : AESObfuscationModifier * result ModifierError bytes :=
  if decide (length data < StaticKeySize)%nat then (m, Ok data)
  else
    let m := if phase =? PhaseInitial then set_aesState m (Some (slice IVSize StaticKeySize data)) else m in
    match phase_iv m phase with
    | Err e => (m, Err e)
    | Ok None => (m, Ok data)
    | Ok (Some iv) =>
        match block m with
        | None => (m, Err ENilCipher)
        | Some key =>
            let result := cbc_decrypt key iv 2 (take StaticKeySize data) ++ drop StaticKeySize data in
            if negb (Z.land (byte_at result (StaticKeySize - 1)) 128 =? 0)
            then (m, Err (EInvalidCurve25519Key (aes_name m)))
            else (m, Ok result)
        end
    end.

#[export] Instance aes_modifier : HandshakeModifier W AESObfuscationModifier := {|
  ModifyOutbound m w phase data := let '(m, r) := AES_outbound m phase data in (m, w, r);
  ModifyInbound m phase data := AES_inbound m phase data;
  Name := aes_name;
  Close m :=
    (mkAES (aes_name m) (replicate (length (routerHash m)) x00) (replicate (length (aes_iv m)) x00)
       ((fun s => replicate (length s) x00) <$> aesState m) None, None);
|}.
End AES.

Definition AES_Clone (m : AESObfuscationModifier) : AESObfuscationModifier :=
  mkAES (aes_name m) (routerHash m) (aes_iv m) None (Some (routerHash m)).

(** ** Key derivation *)

Class HMACLib := {
  HMACSHA256 : bytes -> bytes -> bytes;                                 (* key, data *)
  HMACSHA256_length : forall k d, length (HMACSHA256 k d) = 32%nat;
}.

Inductive KDFError :=
| EInvalidAskMaster (len : nat)
| EInvalidHandshakeHash (len : nat).

(** The keys and the IV in the first 24 bytes of a hash. *)
Definition sip_keys (full : bytes) : (Z * Z) * Z :=
  ((le_decode (slice 0 8 full), le_decode (slice 8 16 full)), le_decode (slice 16 24 full)).

(** The keys of both directions: from the initiator to the responder first. *)
Definition DeriveSipHashKeys `{HMACLib} (askMaster handshakeHash : bytes)
    : result KDFError (((Z * Z) * Z) * ((Z * Z) * Z)) :=
  if negb (bool_decide (length askMaster = StaticKeySize)) then Err (EInvalidAskMaster (length askMaster))
  else if negb (bool_decide (length handshakeHash = StaticKeySize)) then Err (EInvalidHandshakeHash (length handshakeHash))
  else
    let tempKey := HMACSHA256 askMaster (handshakeHash ++ String.list_byte_of_string "siphash") in
    let sipMaster := HMACSHA256 tempKey [x01] in
    let tempKey := HMACSHA256 sipMaster [] in
    let fullAB := HMACSHA256 tempKey [x01] in
    let fullBA := HMACSHA256 tempKey (fullAB ++ [x02]) in
    Ok (sip_keys fullAB, sip_keys fullBA).

(** ** Settings *)

(** The additional modifiers a user may configure: whether one is a
    [*handshake.PaddingModifier], and its copy ([Clone] where it has one). *)
Class UserModifier (U : Type) := {
  is_PaddingModifier : U -> bool;
  clone_modifier : U -> U;
}.

Record Config (U : Type) := mkConfig {
  nPattern : string;
  nInitiator : bool;
  BobRouterHash : bytes;
  nStaticKey : bytes;
  RemoteRouterHash : option bytes;
  RemoteStaticKey : bytes;
  nHandshakeTimeout : Z;
  nHandshakeRetries : Z;
  nRetryBackoff : Z;
  EnableAESObfuscation : bool;
  ObfuscationIV : option bytes;
  EnableSipHashLength : bool;
  SipHashKeys : Z * Z;
  Modifiers : list U;
  MaxFrameSize : Z;
  FramePaddingEnabled : bool;
  MinPaddingSize : Z;
  MaxPaddingSize : Z;
  LocalRouterInfo : bytes;
  StrictRouterInfoVerification : bool;
  sipHashModifier : option LengthModifier;
}.
Arguments mkConfig {U}.
Arguments nPattern {U}.
Arguments nInitiator {U}.
Arguments BobRouterHash {U}.
Arguments nStaticKey {U}.
Arguments RemoteRouterHash {U}.
Arguments RemoteStaticKey {U}.
Arguments nHandshakeTimeout {U}.
Arguments nHandshakeRetries {U}.
Arguments nRetryBackoff {U}.
Arguments EnableAESObfuscation {U}.
Arguments ObfuscationIV {U}.
Arguments EnableSipHashLength {U}.
Arguments SipHashKeys {U}.
Arguments Modifiers {U}.
Arguments MaxFrameSize {U}.
Arguments FramePaddingEnabled {U}.
Arguments MinPaddingSize {U}.
Arguments MaxPaddingSize {U}.
Arguments LocalRouterInfo {U}.
Arguments StrictRouterInfoVerification {U}.
Arguments sipHashModifier {U}.

Definition DefaultHandshakeTimeoutSeconds : Z := 30.
Definition DefaultHandshakeRetries : Z := 3.
Definition DefaultMaxPaddingSize : Z := 64.

Definition NewNTCP2Config {U} (bobRouterHash : bytes) (initiator : bool) : Config U :=
  mkConfig NTCP2Pattern initiator bobRouterHash [] None [] (DefaultHandshakeTimeoutSeconds * Second)
    DefaultHandshakeRetries (1 * Second) true None true (0, 0) [] DefaultMaxFrameSize true 0 DefaultMaxPaddingSize
    [] false None.

Inductive NTCP2ConfigError :=
| EBasic (e : ConfigError)
| EMissingRemoteRouterHash
| EMissingRemoteStaticKey
| ERouterInfoTooLarge (len : Z)
| EInvalidObfuscationIV
| EInvalidMaxFrameSize (size : Z)
| EInvalidMinPadding
| EInvalidPaddingRange
| EIncompatibleModifier
| EMissingObfuscationIV
| EAESModifierFailed (e : AESParamError)
| EPaddingModifierFailed (e : PaddingParamError).

Definition maxRouterInfoSize : Z := 65535 - (BlockHeaderSize + 1 + Poly1305Overhead).
Definition minAllowedFrameSize : Z := MinDataPhaseFrameSize + Poly1305Overhead.

Definition ValidateTransportConfig (timeout retries backoff : Z) : option ConfigError :=
  RunValidators [ValidateHandshakeTimeout timeout; ValidateRetryConfig retries backoff].

Definition ValidatePaddingRange (minPadding maxPadding : Z) : option NTCP2ConfigError :=
  if minPadding <? 0 then Some EInvalidMinPadding
  else if maxPadding <? minPadding then Some EInvalidPaddingRange
  else None.

Section Settings.
Context {U : Type} `{UserModifier U}.

Definition validateBasicConfiguration (nc : Config U) : option NTCP2ConfigError :=
  EBasic <$> ValidatePattern (nPattern nc).

Definition validateCryptographicParameters (nc : Config U) : option NTCP2ConfigError :=
  RunValidators
    [ EBasic <$> ValidateKeyLength (nStaticKey nc);
      (if nInitiator nc && negb (bool_decide (is_Some (RemoteRouterHash nc))) then Some EMissingRemoteRouterHash else None);
      EBasic <$> ValidateKeyLength (RemoteStaticKey nc);
      (if nInitiator nc && bool_decide (nPattern nc = NTCP2Pattern) && bool_decide (RemoteStaticKey nc = [])
       then Some EMissingRemoteStaticKey else None);
      (if maxRouterInfoSize <? zlen (LocalRouterInfo nc) then Some (ERouterInfoTooLarge (zlen (LocalRouterInfo nc))) else None);
      match ObfuscationIV nc with
      | Some iv => if negb (bool_decide (length iv = IVSize)) then Some EInvalidObfuscationIV else None
      | None => None
      end ].

Definition validateTimeoutConfiguration (nc : Config U) : option NTCP2ConfigError :=
  EBasic <$> ValidateTransportConfig (nHandshakeTimeout nc) (nHandshakeRetries nc) (nRetryBackoff nc).

Definition validateFrameConfiguration (nc : Config U) : option NTCP2ConfigError :=
  if MaxFrameSize nc <=? 0 then Some (EInvalidMaxFrameSize (MaxFrameSize nc))
  else if MaxFrameSize nc <? minAllowedFrameSize then Some (EInvalidMaxFrameSize (MaxFrameSize nc))
  else if SpecMaxFrameSize <? MaxFrameSize nc then Some (EInvalidMaxFrameSize (MaxFrameSize nc))
  else ValidatePaddingRange (MinPaddingSize nc) (MaxPaddingSize nc).

Definition validateModifiers (nc : Config U) : option NTCP2ConfigError :=
  if existsb is_PaddingModifier (Modifiers nc) then Some EIncompatibleModifier else None.

Definition NTCP2_Validate (nc : Config U) : option NTCP2ConfigError :=
  RunValidators [validateBasicConfiguration nc; validateCryptographicParameters nc; validateTimeoutConfiguration nc;
    validateFrameConfiguration nc; validateModifiers nc].

Definition createBaseConnConfig (nc : Config U) : ConnConfig :=
  mkConnConfig (nPattern nc) (nInitiator nc) (nStaticKey nc) (RemoteStaticKey nc) (nHandshakeTimeout nc)
    (nHandshakeRetries nc) (nRetryBackoff nc).

(** A copy for one connection. *)
Definition NTCP2_Clone (nc : Config U) : Config U :=
  mkConfig (nPattern nc) (nInitiator nc) (BobRouterHash nc) (nStaticKey nc) (RemoteRouterHash nc) (RemoteStaticKey nc)
    (nHandshakeTimeout nc) (nHandshakeRetries nc) (nRetryBackoff nc) (EnableAESObfuscation nc) (ObfuscationIV nc)
    (EnableSipHashLength nc) (SipHashKeys nc) (clone_modifier <$> Modifiers nc) (MaxFrameSize nc) (FramePaddingEnabled nc)
    (MinPaddingSize nc) (MaxPaddingSize nc) [] false None.

Definition with_Initiator (nc : Config U) (b : bool) : Config U :=
  mkConfig (nPattern nc) b (BobRouterHash nc) (nStaticKey nc) (RemoteRouterHash nc) (RemoteStaticKey nc)
    (nHandshakeTimeout nc) (nHandshakeRetries nc) (nRetryBackoff nc) (EnableAESObfuscation nc) (ObfuscationIV nc)
    (EnableSipHashLength nc) (SipHashKeys nc) (Modifiers nc) (MaxFrameSize nc) (FramePaddingEnabled nc)
    (MinPaddingSize nc) (MaxPaddingSize nc) (LocalRouterInfo nc) (StrictRouterInfoVerification nc) (sipHashModifier nc).

Definition with_sipHashModifier (nc : Config U) (m : option LengthModifier) : Config U :=
  mkConfig (nPattern nc) (nInitiator nc) (BobRouterHash nc) (nStaticKey nc) (RemoteRouterHash nc) (RemoteStaticKey nc)
    (nHandshakeTimeout nc) (nHandshakeRetries nc) (nRetryBackoff nc) (EnableAESObfuscation nc) (ObfuscationIV nc)
    (EnableSipHashLength nc) (SipHashKeys nc) (Modifiers nc) (MaxFrameSize nc) (FramePaddingEnabled nc)
    (MinPaddingSize nc) (MaxPaddingSize nc) (LocalRouterInfo nc) (StrictRouterInfoVerification nc) m.
End Settings.

(** ** The modifiers of a connection *)

Inductive NTCP2Modifier (U : Type) :=
| MAES (m : AESObfuscationModifier)
| MSip (m : LengthModifier)
| MPad (m : NTCP2PaddingModifier)
| MUser (m : U).
Arguments MAES {U}.
Arguments MSip {U}.
Arguments MPad {U}.
Arguments MUser {U}.

#[export] Instance ntcp2_modifier {W U : Type} `{AESLib, SipHashLib, RandSource W, FloatConv, HandshakeModifier W U}
    : HandshakeModifier W (NTCP2Modifier U) := {|
  ModifyOutbound m w phase data :=
    match m with
    | MAES m => let '(m, w, r) := ModifyOutbound m w phase data in (MAES m, w, r)
    | MSip m => let '(m, w, r) := ModifyOutbound m w phase data in (MSip m, w, r)
    | MPad m => let '(m, w, r) := ModifyOutbound m w phase data in (MPad m, w, r)
    | MUser m => let '(m, w, r) := ModifyOutbound m w phase data in (MUser m, w, r)
    end;
  ModifyInbound m phase data :=
    match m with
    | MAES m => let '(m, r) := ModifyInbound (W := W) m phase data in (MAES m, r)
    | MSip m => let '(m, r) := ModifyInbound (W := W) m phase data in (MSip m, r)
    | MPad m => let '(m, r) := ModifyInbound (W := W) m phase data in (MPad m, r)
    | MUser m => let '(m, r) := ModifyInbound m phase data in (MUser m, r)
    end;
  Name m :=
    match m with
    | MAES m => Name (W := W) m | MSip m => Name (W := W) m | MPad m => Name (W := W) m | MUser m => Name m
    end;
  Close m :=
    match m with
    | MAES m => let '(m, e) := Close (W := W) m in (MAES m, e)
    | MSip m => let '(m, e) := Close (W := W) m in (MSip m, e)
    | MPad m => let '(m, e) := Close (W := W) m in (MPad m, e)
    | MUser m => let '(m, e) := Close m in (MUser m, e)
    end;
|}.

Section Setup.
Context {U CS : Type} `{UserModifier U} `{NL : NoiseHandshakeLib CS} `{HMACLib}.

Definition createAESModifierIfEnabled (nc : Config U) : result NTCP2ConfigError (option (NTCP2Modifier U)) :=
  if negb (EnableAESObfuscation nc) then Ok None
  else
    match ObfuscationIV nc with
    | None => Err EMissingObfuscationIV
    | Some iv =>
        match NewAESObfuscationModifier "ntcp2-aes" (BobRouterHash nc) iv with
        | Err e => Err (EAESModifierFailed e)
        | Ok m => Ok (Some (MAES m))
        end
    end.

Definition createSipHashModifierIfEnabled (nc : Config U) : option (NTCP2Modifier U) :=
  if negb (EnableSipHashLength nc) then None
  else Some (MSip (NewLengthModifier "ntcp2-siphash" (SipHashKeys nc) 0)).

Definition createPaddingModifierIfEnabled (nc : Config U) : result NTCP2ConfigError (option (NTCP2Modifier U)) :=
  if negb (FramePaddingEnabled nc) then Ok None
  else
    match NewNTCP2PaddingModifier "ntcp2-padding" (MinPaddingSize nc) (MaxPaddingSize nc) true with
    | Err e => Err (EPaddingModifierFailed e)
    | Ok m => Ok (Some (MPad m))
    end.

Definition setupNTCP2Modifiers (nc : Config U) : result NTCP2ConfigError (list (NTCP2Modifier U)) :=
  match createAESModifierIfEnabled nc with
  | Err e => Err e
  | Ok aes =>
      match createPaddingModifierIfEnabled nc with
      | Err e => Err e
      | Ok pad => Ok (option_list aes ++ option_list (createSipHashModifierIfEnabled nc) ++ option_list pad ++ (MUser <$> Modifiers nc))
      end
  end.

(** [GetModifierChain] of the resulting [ConnConfig]. *)
Definition GetModifierChain (ms : list (NTCP2Modifier U)) : option (ModifierChain (NTCP2Modifier U)) :=
  if decide (ms = []) then None else Some (NewModifierChain "config-chain" (Some <$> ms)).

(** The modifier that [createPostHandshakeHook] stores in the settings. *)
Definition derived_modifier (nc : Config U) (hs : HS) : option LengthModifier :=
  match AdditionalSymmetricKeys hs with
  | [] => None
  | askMaster :: _ =>
      if bool_decide (askMaster = []) then None
      else
        match DeriveSipHashKeys askMaster (ChannelBinding hs) with
        | Err _ => None
        | Ok ((keysAB, ivAB), (keysBA, ivBA)) =>
            Some (if nInitiator nc then NewLengthModifierDirectional "ntcp2-siphash" keysAB keysBA ivAB ivBA
                  else NewLengthModifierDirectional "ntcp2-siphash" keysBA keysAB ivBA ivAB)
        end
  end.

(** [createPostHandshakeHook]: whether the hook succeeds, and what it leaves in the
    settings. *)
Definition hook_succeeds (nc : Config U) (hs : HS) : bool := bool_decide (is_Some (derived_modifier nc hs)).

Definition createPostHandshakeHook (nc : Config U) (hs : HS) : Config U :=
  match derived_modifier nc hs with
  | None => nc
  | Some m => with_sipHashModifier nc (Some m)
  end.

(** [ToConnConfig]: the settings of the Noise connection, its modifiers and its hook. *)
Definition ToConnConfig (nc : Config U)
    : result NTCP2ConfigError (ConnConfig * option (ModifierChain (NTCP2Modifier U)) * option (HS -> bool)) :=
  match NTCP2_Validate nc with
  | Some e => Err e
  | None =>
      match setupNTCP2Modifiers nc with
      | Err e => Err e
      | Ok ms => Ok (createBaseConnConfig nc, GetModifierChain ms, if EnableSipHashLength nc then Some (hook_succeeds nc) else None)
      end
  end.
End Setup.

(** ** Obfuscated keys are recovered *)

Section Recovery.
Context `{AESLib}.

Lemma length_cbc_encrypt key iv n data : length (cbc_encrypt key iv n data) = (16 * n)%nat.
Proof.
  revert iv data. induction n as [|n IH]; intros iv data; cbn [cbc_encrypt]; [done|].
  rewrite length_app, aes_encrypt_length, IH. lia.
Qed.

Lemma zip_xor_cancel (a b : bytes) : length a = length b -> zip_with byte_xor (zip_with byte_xor a b) b = a.
Proof.
  revert b. induction a as [|x a IH]; intros [|y b] Hl; cbn in *; try done. rewrite byte_xor_cancel, IH by lia. done.
Qed.

Lemma cbc_roundtrip key iv n data :
  length data = (16 * n)%nat -> length iv = 16%nat -> cbc_decrypt key iv n (cbc_encrypt key iv n data) = data.
Proof.
  revert iv data. induction n as [|n IH]; intros iv data Hd Hiv; cbn [cbc_encrypt cbc_decrypt].
  { by destruct data. }
  set (c := aes_encrypt key _). assert (Hc : length c = 16%nat) by apply aes_encrypt_length.
  rewrite take_app_length', drop_app_length' by done. rewrite IH; [|rewrite length_drop; lia|done].
  unfold c. rewrite aes_decrypt_encrypt by (rewrite length_zip_with, length_take; lia).
  rewrite zip_xor_cancel by (rewrite length_take; lia). apply take_drop.
Qed.

(** Two ends that agree on the key, the IV and the state. *)
Record aes_paired (s r : AESObfuscationModifier) : Prop := {
  ap_block : block s = block r;
  ap_open : is_Some (block s);
  ap_iv : aes_iv s = aes_iv r;
  ap_iv_len : length (aes_iv s) = 16%nat;
  ap_state : aesState s = aesState r;
  ap_state_len : forall st, aesState s = Some st -> length st = 16%nat;
}.

Lemma aes_paired_sym s r : aes_paired s r -> aes_paired r s.
Proof. intros [Hb ? Hi ? Hs ?]. split; rewrite <- ?Hb, <- ?Hi, <- ?Hs; done. Qed.

(** A message whose first 32 bytes are a Curve25519 key passes; in the second message
    the state of the first is needed. *)
Lemma aes_recovered s r phase data :
  aes_paired s r -> (phase = PhaseInitial \/ phase = PhaseExchange /\ is_Some (aesState s)) ->
  (32 <= length data)%nat -> Z.land (byte_at data 31) 128 = 0 ->
  exists s' r' out, AES_outbound s phase data = (s', Ok out) /\ AES_inbound r phase out = (r', Ok data)
    /\ length out = length data /\ aes_paired s' r' /\ is_Some (aesState s').
Proof.
  intros [Hb [key Hkey] Hiv Hivl Hst Hstl] Hphase Hl Hbit. unfold AES_outbound, AES_inbound, StaticKeySize, IVSize.
  change (32 - 1)%nat with 31%nat. rewrite decide_False by lia. assert (Hrkey : block r = Some key) by congruence.
  assert (Hrun : forall iv, length iv = 16%nat ->
    let out := cbc_encrypt key iv 2 (take 32 data) ++ drop 32 data in
    length out = length data /\ length (slice 16 32 out) = 16%nat
    /\ cbc_decrypt key iv 2 (take 32 out) ++ drop 32 out = data).
  { intros iv Hi out. assert (Hc : length (cbc_encrypt key iv 2 (take 32 data)) = 32%nat) by apply length_cbc_encrypt.
    assert (Ho : length out = length data) by (unfold out; rewrite length_app, Hc, length_drop; lia). split; [done|].
    split; [rewrite length_slice; lia|]. unfold out. rewrite take_app_length', drop_app_length' by done.
    rewrite cbc_roundtrip by (rewrite ?length_take; lia). apply take_drop. }
  destruct Hphase as [-> |[-> [st Hs]]]; unfold phase_iv; cbn [PhaseInitial PhaseExchange Z.eqb Pos.eqb].
  - destruct (Hrun (aes_iv s) Hivl) as (Ho & Hsl & Hd). rewrite Hkey. cbn [set_aesState aes_iv block] in *. rewrite <- Hiv, Hrkey.
    eexists _, _, _. split; [done|]. rewrite decide_False, Hd by lia. rewrite Hbit. split; [done|]. split; [done|].
    split; [|by eexists]. split; cbn; try done. by intros st [= <-].
  - destruct (Hrun st (Hstl _ Hs)) as (Ho & Hsl & Hd). rewrite <- Hst, Hs, Hkey, Hrkey.
    eexists _, _, _. split; [done|]. rewrite decide_False by lia. rewrite Hd. rewrite Hbit. split; [done|]. split; [done|].
    split; [|by rewrite Hs]. by split.
Qed.

Lemma aes_later_phase m phase data :
  PhaseFinal <= phase -> AES_outbound m phase data = (m, Ok data) /\ AES_inbound m phase data = (m, Ok data).
Proof.
  unfold PhaseFinal, AES_outbound, AES_inbound, phase_iv, PhaseInitial, PhaseExchange. intros Hp.
  destruct (Z.eqb_spec phase 0); [lia|]. destruct (Z.eqb_spec phase 1); [lia|]. by case_decide.
Qed.

Lemma AES_outbound_length m phase data m' out : AES_outbound m phase data = (m', Ok out) -> length out = length data.
Proof.
  unfold AES_outbound. case_decide; [by intros [= _ <-]|]. destruct (phase_iv m phase) as [[iv|]|]; [|by intros [= _ <-]|done].
  destruct (block m) as [key|]; [|done]. intros Ho. apply (inj2 pair) in Ho as [_ <-%Ok_inj].
  unfold StaticKeySize in *. rewrite length_app, length_cbc_encrypt, length_drop. lia.
Qed.
End Recovery.

(** ** The chain in the handshake and in the data phase *)

Lemma NTCP2_outbound_grows {W} `{RandSource W, FloatConv} npm (w : W) phase data w' out :
  NTCP2_outbound npm w phase data = (w', Ok out) -> zlen data <= zlen out.
Proof.
  unfold NTCP2_outbound, AddAEADPadding, AddCleartextPadding. destruct (CalculatePaddingSize _ _ w) as [n w1].
  destruct (n =? 0); [by intros [= _ <-]|].
  destruct (useAEADPadding npm && _); [|destruct (negb _ && _)]; try (by intros [= _ <-]);
    destruct (padding_bytes _ _ _ _) as [[pad|] w2]; try done;
    intros Ho; apply (inj2 pair) in Ho as [_ <-%Ok_inj]; rewrite zlen_app; pose proof (zlen_nonneg pad);
    [pose proof (zlen_nonneg (I2PPaddingBlockType :: be_encode 2 (u16 n) ++ pad)); lia|lia].
Qed.

(** From the third message on AES does nothing. Padding is not among the modifiers that
    recover every message. *)
#[export, refine] Instance ntcp2_modifier_correct {W U : Type}
    `{AESLib, SipHashLib, RandSource W, FloatConv, MC : ModifierCorrect W U} : ModifierCorrect W (NTCP2Modifier U) := {|
  paired s r :=
    match s, r with
    | MAES _, MAES _ => True
    | MSip s, MSip r => paired (W := W) s r
    | MUser s, MUser r => paired s r
    | _, _ => False
    end;
  correct_in phase := PhaseFinal <= phase /\ correct_in W U phase;
|}.
Proof.
  - intros [s|s|s|s] w phase data s' w' out; cbn [ModifyOutbound ntcp2_modifier].
    + cbn. destruct (AES_outbound s phase data) as [s1 r] eqn:E. intros [= _ _ ->].
      apply AES_outbound_length in E. unfold zlen. lia.
    + destruct (ModifyOutbound s w phase data) as [[s1 w1] r] eqn:E. intros [= _ _ ->]. by apply outbound_grows in E.
    + cbn. destruct (NTCP2_outbound s w phase data) as [w1 r] eqn:E. intros [= _ _ ->]. by apply NTCP2_outbound_grows in E.
    + destruct (ModifyOutbound s w phase data) as [[s1 w1] r] eqn:E. intros [= _ _ ->]. by apply outbound_grows in E.
  - intros [s|s|s|s] [r|r|r|r] w phase data s' w' out [Hph Hu] Hp; try done; cbn [ModifyOutbound ModifyInbound ntcp2_modifier].
    + cbn. rewrite (proj1 (aes_later_phase s phase data Hph)). intros [= <- <- <-] _.
      exists (MAES r). by rewrite (proj2 (aes_later_phase r phase data Hph)).
    + destruct (ModifyOutbound s w phase data) as [[s1 w1] ro] eqn:E. intros [= <- <- ->] Hl.
      destruct (@inbound_outbound W LengthModifier _ siphash_correct s r w phase data s1 w1 out I Hp E Hl) as (r' & -> & Hp'). by exists (MSip r').
    + destruct (ModifyOutbound s w phase data) as [[s1 w1] ro] eqn:E. intros [= <- <- ->] Hl.
      destruct (inbound_outbound s r w phase data s1 w1 out Hu Hp E Hl) as (r' & -> & Hp'). by exists (MUser r').
Defined.

Section Transit.
Context {W U : Type} `{AESLib, SipHashLib, RandSource W, FloatConv, HandshakeModifier W U}.

(** The modifiers behind AES leave handshake messages alone. *)
Definition quiet (m : NTCP2Modifier U) : Prop :=
  match m with MSip _ => True | MPad p => useAEADPadding p = true | _ => False end.

Lemma quiet_outbound tail i (w : W) phase data :
  Forall quiet tail -> phase < PhaseData -> exists w', chain_outbound i tail w phase data = (tail, w', Ok data).
Proof.
  intros Hq Hp. revert i w. induction Hq as [|m tail Hm Hq IH]; intros i w; [by eexists|]. cbn [chain_outbound].
  assert (Hstep : exists w', ModifyOutbound m w phase data = (m, w', Ok data)).
  { destruct m as [m|m|m|m]; try done; cbn.
    - unfold applyMask. rewrite decide_True by (by left). by eexists.
    - unfold NTCP2_outbound. cbn in Hm. rewrite Hm. destruct (CalculatePaddingSize _ _ w) as [n w1].
      unfold PhaseData in Hp. unfold PhaseFinal. destruct (Z.ltb_spec 2 phase); [lia|]. cbn [andb negb]. by destruct (n =? 0); eexists. }
  destruct Hstep as [w1 ->]. destruct (IH (S i) w1) as [w2 ->]. by eexists.
Qed.

Lemma quiet_inbound tail i phase data :
  Forall quiet tail -> phase < PhaseData -> chain_inbound (W := W) i tail phase data = (tail, Ok data).
Proof.
  intros Hq Hp. revert i. induction Hq as [|m tail Hm Hq IH]; intros i; [done|]. cbn [chain_inbound]. rewrite IH.
  assert (Hstep : ModifyInbound (W := W) m phase data = (m, Ok data)); [|by rewrite Hstep].
  destruct m as [m|m|m|m]; try done; cbn.
  - unfold applyMask. by rewrite decide_True by (by left).
  - unfold NTCP2_inbound. unfold PhaseData in Hp. unfold PhaseFinal. destruct (Z.ltb_spec 2 phase); [lia|]. by rewrite andb_false_r.
Qed.

(** AES, where it is enabled, at both ends. *)
Definition obfuscated (s r : option AESObfuscationModifier) : Prop :=
  match s, r with
  | Some s, Some r => aes_paired s r
  | None, None => True
  | _, _ => False
  end.

Lemma obfuscated_sym s r : obfuscated s r -> obfuscated r s.
Proof. destruct s, r; try done. apply aes_paired_sym. Qed.

(** What the obfuscation asks of a message. *)
Definition carried (s : option AESObfuscationModifier) (phase : Z) (data : bytes) : Prop :=
  PhaseFinal <= phase < PhaseData
  \/ (phase = PhaseInitial \/ phase = PhaseExchange /\ (forall m, s = Some m -> is_Some (aesState m)))
     /\ (32 <= length data)%nat /\ Z.land (byte_at data 31) 128 = 0.

Lemma obfuscated_transit s r ts tr i (w : W) phase data :
  obfuscated s r -> Forall quiet ts -> Forall quiet tr -> carried s phase data ->
  exists s' r' w' out,
    chain_outbound i (option_list (MAES <$> s) ++ ts) w phase data = (option_list (MAES <$> s') ++ ts, w', Ok out)
    /\ chain_inbound (W := W) i (option_list (MAES <$> r) ++ tr) phase out = (option_list (MAES <$> r') ++ tr, Ok data)
    /\ length out = length data /\ obfuscated s' r'
    /\ (phase < PhaseFinal -> forall m, s' = Some m -> is_Some (aesState m)).
Proof.
  intros Ho Hs Hr Hc.
  assert (Hp : phase < PhaseData) by (unfold carried, PhaseInitial, PhaseExchange, PhaseFinal, PhaseData in *; lia).
  destruct s as [s|], r as [r|]; try done; cbn [fmap option_fmap option_map option_list app].
  - assert (Hstep : exists s' r' out, AES_outbound s phase data = (s', Ok out) /\ AES_inbound r phase out = (r', Ok data)
      /\ length out = length data /\ aes_paired s' r' /\ (phase < PhaseFinal -> is_Some (aesState s'))).
    { destruct Hc as [Hc|(Hph & Hl & Hb)].
      - exists s, r, data. destruct (aes_later_phase s phase data) as [Hso _]; [lia|].
        destruct (aes_later_phase r phase data) as [_ Hri]; [lia|]. split_and!; [done..|lia].
      - destruct (aes_recovered s r phase data Ho) as (s' & r' & out & ? & ? & ? & ? & ?); [|done|done|by exists s', r', out; split_and!].
        destruct Hph as [?|[? Hst]]; [by left|right]. split; [done|]. by apply Hst. }
    destruct Hstep as (s' & r' & out & Hso & Hri & Hl & Hp' & Hst).
    destruct (quiet_outbound ts (S i) w phase out Hs Hp) as [w' Hout].
    exists (Some s'), (Some r'), w', out.
    change (option_list (Some (MAES s)) ++ ts) with (MAES s :: ts). change (option_list (Some (MAES r)) ++ tr) with (MAES r :: tr).
    cbn [chain_outbound chain_inbound ModifyOutbound ModifyInbound ntcp2_modifier].
    rewrite (quiet_inbound tr (S i) phase out Hr Hp). cbn. rewrite Hso, Hri, Hout.
    split_and!; try done. intros Hlt m [= <-]. auto.
  - destruct (quiet_outbound ts i w phase data Hs Hp) as [w' Hout].
    exists None, None, w', data.
    change (option_list None ++ ts) with ts. change (option_list None ++ tr) with tr. rewrite Hout, (quiet_inbound tr i phase data Hr Hp). by split_and!.
Qed.
End Transit.
