(* ===== verification/Ntcp2Handshake.v ===== *)
(** * The NTCP2 handshake

    [ntcp2/handshake.go]: the three messages of Noise XK without length prefixes, with
    obfuscated ephemeral keys, options and clear-text padding, both roles;
    [PropagateSipHash] and [PeerRouterInfoBytes] of [ntcp2/conn.go]; dialling
    ([ntcp2/transport.go]) and accepting ([ntcp2/listener.go]) up to the established
    connection.

    A step of the handshake works on the Noise connection, the shared replay detector,
    the incoming stream and the bytes written so far, and may fail: the steps are in a
    state and error monad. Clock readings and random bytes are arguments. *)

From Stdlib Require Import ZArith Lia.
From Stdlib Require Import Strings.Byte.
From stdpp Require Import base numbers list strings gmap.
From S2P Require Import Prelude Float64 Crypto ReplayCache Modifiers Padding Framing NoiseHandshake Ntcp2Config.

#[local] Open Scope Z_scope.

Create HintDb ntcp2.

Definition msg1Size : nat := 64.
Definition msg2Size : nat := 64.
Definition msg3Part1Size : nat := 48.
Definition ntcp2NetID : byte := x02.
Definition ntcp2Ver : byte := x02.
Definition ntcp2OptionsSize : nat := 16.
Definition routerInfoBlockType : byte := x02.
Definition MaxNTCP2HandshakePadding : Z := 1024.
Definition MaxNTCP2Message3Part2Len : Z := 8192.

(** The interface [ReplayDetector]. *)
Class ReplayDetector (D : Type) := {
  detector_CheckAndAdd : D -> bytes -> D * bool;
}.

(** The replay cache, as the detector of one moment. *)
#[export] Instance cache_detector {R : GoRange bytes Z} {Srt : GoSort (bytes * Z)} : ReplayDetector (TTLCache * Z) := {|
  detector_CheckAndAdd d key := let '(c, seen) := ReplayCache.CheckAndAdd d.1 key d.2 in ((c, d.2), seen);
|}.

Inductive NTCP2Error :=
| EConfigInvalid (e : NTCP2ConfigError)
| ENoiseConn (e : NoiseError)
| EInvalidInitiatorFlag
| EMissingNTCP2Config
| ESetDeadlineFailed
| EMissingLocalRouterInfo
| ERouterInfoKeyMismatch
| EMsg1Write (e : NoiseError)
| EMsg1SizeMismatch (n : nat)
| EMsg1Send
| EMsg1Read
| EMsg1Process (e : NoiseError)
| EMsg1Replay
| EMsg1OptionsTooShort (n : nat)
| EMsg1PaddingTooLarge (n : Z)
| EMsg3Part2TooLarge (n : Z)
| EMsg1PadRead
| EMsg2Write (e : NoiseError)
| EMsg2SizeMismatch (n : nat)
| EMsg2Send
| EMsg2NoBytes
| EMsg2Partial
| EMsg2Process (e : NoiseError)
| EMsg2PadRead
| EMsg3Write (e : NoiseError)
| EMsg3SizeMismatch (n : nat)
| EMsg3Send
| EMsg3Read
| EMsg3Process (e : NoiseError)
| EHookFailed (e : NoiseError)
| ENoSipHashModifier.

(** ** Options and payload *)

Definition buildMessage1Options (m3p2Len now : Z) : bytes :=
  [ntcp2NetID; ntcp2Ver] ++ [x00; x00] ++ be_encode 2 m3p2Len ++ [x00; x00] ++ be_encode 4 (u32 now) ++ replicate 4 x00.

Definition buildMessage2Options (now : Z) : bytes := replicate 8 x00 ++ be_encode 4 (u32 now) ++ replicate 4 x00.

Definition buildMsg3Part2Payload (routerInfoBytes : bytes) : bytes :=
  routerInfoBlockType :: be_encode 2 (u16 (1 + zlen routerInfoBytes)) ++ x00 :: routerInfoBytes.

(** The loop of [PeerRouterInfoBytes] from an offset on; [payload] is the rest. Each turn
    consumes three bytes or more. *)
Fixpoint find_router_info (fuel : nat) (payload : bytes) : option bytes :=
  match fuel with
  | O => None
  | S fuel =>
      if decide (length payload < 3)%nat then None
      else
        let blockSize := Z.to_nat (be_decode (slice 1 3 payload)) in
        if decide (length payload < 3 + blockSize)%nat then None
        else if decide (head payload = Some routerInfoBlockType) then
          if decide (blockSize < 1)%nat then None else Some (slice 4 (3 + blockSize) payload)
        else find_router_info fuel (drop (3 + blockSize) payload)
  end.

Definition PeerRouterInfoBytes (peerMsg3Payload : option bytes) : option bytes :=
  match peerMsg3Payload with
  | None => None
  | Some payload => find_router_info (length payload) payload
  end.

Section Handshake.
Context {W U CS D : Type} `{AL : AESLib, SL : SipHashLib, RS : RandSource W, FC : FloatConv, HU : HandshakeModifier W U}.
Context `{UM : UserModifier U} `{NL : NoiseHandshakeLib CS} `{HL : HMACLib} `{B64 : I2PBase64} `{RD : ReplayDetector D}.

Abbreviation NConn := (@HSConn W (NTCP2Modifier U) CS _).

Definition verifyLocalRouterInfoMatchesStaticKey (staticPriv riBytes : bytes) : bool :=
  if negb (bool_decide (length staticPriv = StaticKeySize)) then true
  else if bool_decide (riBytes = []) then true
  else
    match x25519_public staticPriv with
    | None => false
    | Some pub => Contains riBytes (base64 pub)
    end.

(** ** Steps *)

Record HIO := mkHIO {
  io_conn : NConn;
  io_det : option D;
  io_net : bytes;
  io_out : bytes;
  io_rnds : list bytes;
}.

Definition IO (A : Type) : Type := HIO -> HIO * result NTCP2Error A.

Definition iret {A} (a : A) : IO A := fun s => (s, Ok a).
Definition ifail {A} (e : NTCP2Error) : IO A := fun s => (s, Err e).
Definition ibind {A B} (m : IO A) (k : A -> IO B) : IO B :=
  fun s => match m s with (s, Ok a) => k a s | (s, Err e) => (s, Err e) end.

#[local] Notation "'let!' x ':=' c 'in' k" := (ibind c (fun x => k)) (at level 10, x pattern, c at level 200, k at level 200).

(** [io.ReadFull] on the socket: at the end of the stream everything is consumed. *)
Definition raw_ReadFull (n : nat) (e : NTCP2Error) : IO bytes := fun s =>
  match ReadFull n (io_net s) with
  | Some (b, net) => (mkHIO (io_conn s) (io_det s) net (io_out s) (io_rnds s), Ok b)
  | None => (mkHIO (io_conn s) (io_det s) [] (io_out s) (io_rnds s), Err e)
  end.

Definition raw_Write (sock : Sock) (b : bytes) (e : NTCP2Error) : IO unit := fun s =>
  match sock_write sock b with
  | SockErr n => (mkHIO (io_conn s) (io_det s) (io_net s) (io_out s ++ take n b) (io_rnds s), Err e)
  | r => (mkHIO (io_conn s) (io_det s) (io_net s) (io_out s ++ on_wire r b) (io_rnds s), Ok tt)
  end.

Definition write_message (phase : Z) (payload : bytes) (e : NoiseError -> NTCP2Error) : IO bytes := fun s =>
  match WriteHandshakeMsgToBytes (io_conn s) (default [] (head (io_rnds s))) phase payload with
  | (c, Ok msg) => (mkHIO c (io_det s) (io_net s) (io_out s) (tail (io_rnds s)), Ok msg)
  | (c, Err err) => (mkHIO c (io_det s) (io_net s) (io_out s) (tail (io_rnds s)), Err (e err))
  end.

Definition read_message (phase : Z) (wire : bytes) (e : NoiseError -> NTCP2Error) : IO bytes := fun s =>
  match ReadHandshakeMsgFromBytes (io_conn s) phase wire with
  | (c, Ok payload) => (mkHIO c (io_det s) (io_net s) (io_out s) (io_rnds s), Ok payload)
  | (c, Err err) => (mkHIO c (io_det s) (io_net s) (io_out s) (io_rnds s), Err (e err))
  end.

Definition mix_hash (d : bytes) : IO unit := fun s =>
  (mkHIO (MixHashData (io_conn s) d) (io_det s) (io_net s) (io_out s) (io_rnds s), Ok tt).

Definition check_replay (key : bytes) : IO unit := fun s =>
  match io_det s with
  | None => (s, Ok tt)
  | Some d =>
      let '(d, seen) := detector_CheckAndAdd d key in
      (mkHIO (io_conn s) (Some d) (io_net s) (io_out s) (io_rnds s), if seen : bool then Err EMsg1Replay else Ok tt)
  end.

(** ** The initiator *)

Definition sendInitiatorMsg1 (sock : Sock) (now m3p2Len : Z) : IO unit :=
  let! msg1 := write_message PhaseInitial (buildMessage1Options m3p2Len now) EMsg1Write in
  if negb (bool_decide (length msg1 = msg1Size)) then ifail (EMsg1SizeMismatch (length msg1))
  else raw_Write sock msg1 EMsg1Send.

Definition receiveResponderMsg2 : IO unit :=
  let! first := raw_ReadFull 1 EMsg2NoBytes in
  let! rest := raw_ReadFull (msg2Size - 1) EMsg2Partial in
  let! bobOpts := read_message PhaseExchange (first ++ rest) EMsg2Process in
  if decide (length bobOpts < ntcp2OptionsSize)%nat then iret tt
  else
    let bobPadLen := Z.to_nat (be_decode (slice 2 4 bobOpts)) in
    if decide (bobPadLen = 0%nat) then iret tt
    else
      let! pad := raw_ReadFull bobPadLen EMsg2PadRead in
      mix_hash pad.

Definition sendInitiatorMsg3 (sock : Sock) (riBytes : bytes) (m3p2Len : Z) : IO unit :=
  let! msg3 := write_message PhaseFinal (buildMsg3Part2Payload riBytes) EMsg3Write in
  if negb (bool_decide (length msg3 = (msg3Part1Size + Z.to_nat m3p2Len)%nat)) then ifail (EMsg3SizeMismatch (length msg3))
  else raw_Write sock msg3 EMsg3Send.

Definition ntcp2_initiator (cfg : Config U) (sock : Sock) (now : Z) : IO unit :=
  let riBytes := LocalRouterInfo cfg in
  let m3p2Len := u16 (BlockHeaderSize + 1 + zlen riBytes + Poly1305Overhead) in
  if negb (verifyLocalRouterInfoMatchesStaticKey (nStaticKey cfg) riBytes) && StrictRouterInfoVerification cfg
  then ifail ERouterInfoKeyMismatch
  else
    let! _ := sendInitiatorMsg1 sock now m3p2Len in
    let! _ := receiveResponderMsg2 in
    sendInitiatorMsg3 sock riBytes m3p2Len.

(** ** The responder *)

Definition ntcp2_responder (sock : Sock) (now : Z) : IO bytes :=
  let! buf1 := raw_ReadFull msg1Size EMsg1Read in
  let! aliceOpts := read_message PhaseInitial buf1 EMsg1Process in
  let! _ := check_replay (take 32 buf1) in
  if decide (length aliceOpts < ntcp2OptionsSize)%nat then ifail (EMsg1OptionsTooShort (length aliceOpts))
  else
    let alicePadLen := be_decode (slice 2 4 aliceOpts) in
    let m3p2Len := be_decode (slice 4 6 aliceOpts) in
    if MaxNTCP2HandshakePadding <? alicePadLen then ifail (EMsg1PaddingTooLarge alicePadLen)
    else if MaxNTCP2Message3Part2Len <? m3p2Len then ifail (EMsg3Part2TooLarge m3p2Len)
    else
      let! _ :=
        (if 0 <? alicePadLen then let! pad := raw_ReadFull (Z.to_nat alicePadLen) EMsg1PadRead in mix_hash pad
         else iret tt) in
      let! msg2 := write_message PhaseExchange (buildMessage2Options now) EMsg2Write in
      if negb (bool_decide (length msg2 = msg2Size)) then ifail (EMsg2SizeMismatch (length msg2))
      else
        let! _ := raw_Write sock msg2 EMsg2Send in
        let! buf3 := raw_ReadFull (msg3Part1Size + Z.to_nat m3p2Len) EMsg3Read in
        read_message PhaseFinal buf3 EMsg3Process.

(** ** Connections *)

Record Ntcp2Conn := mkNtcp2Conn {
  hsconn : NConn;
  ntcp2Config : option (Config U);
  peerMsg3Payload : option bytes;
  obfuscator : option LengthModifier;
}.

(** The connection of the data phase, as Framing has it. *)
Definition data_conn (c : Ntcp2Conn) : NTCP2Conn W (NTCP2Modifier U) CS :=
  mkNTCP2 (nc (hsconn c)) (obfuscator c) [] (MaxFrameSize <$> ntcp2Config c) false false 0 0.

Definition PropagateSipHash (c : Ntcp2Conn) : Ntcp2Conn * option NTCP2Error :=
  match ntcp2Config c with
  | None => (c, Some EMissingNTCP2Config)
  | Some cfg =>
      match sipHashModifier cfg with
      | None => (c, Some ENoSipHashModifier)
      | Some slm => (mkNtcp2Conn (hsconn c) (ntcp2Config c) (peerMsg3Payload c) (Some slm), None)
      end
  end.

(** What the connection of a failed handshake is left with. *)
Definition failed (c : Ntcp2Conn) (hc : NConn) : Ntcp2Conn :=
  mkNtcp2Conn (FailHandshake hc) (ntcp2Config c) (peerMsg3Payload c) (obfuscator c).

(** [performInitiatorHandshake] or [performResponderHandshake], by role. *)
Definition perform (cfg : Config U) (sock : Sock) (now : Z) : IO (option bytes) :=
  if nInitiator cfg then
    if bool_decide (LocalRouterInfo cfg = []) then ifail EMissingLocalRouterInfo
    else let! _ := ntcp2_initiator cfg sock now in iret None
  else
    let! payload := ntcp2_responder sock now in
    iret (if bool_decide (payload = []) then None else Some payload).          (* an empty plaintext is nil *)

(** [Handshake]: the connection, the detector, the rest of the stream, what was written
    and the error. [has_deadline] says that the caller's context has a deadline. *)
Definition NTCP2_Handshake (c : Ntcp2Conn) (det : option D) (rnds : list bytes) (now : Z) (has_deadline : bool) (sock : Sock)
    (net : bytes) : Ntcp2Conn * option D * bytes * bytes * option NTCP2Error :=
  match ntcp2Config c with
  | None => (c, det, net, [], Some EMissingNTCP2Config)
  | Some cfg =>
      let hc := StartHandshake (hsconn c) in
      if ((0 <? nHandshakeTimeout cfg) || has_deadline) && negb (sock_deadline_ok sock)
      then (failed c hc, det, net, [], Some ESetDeadlineFailed)
      else
        match perform cfg sock now (mkHIO hc det net [] rnds) with
        | (s, Err e) => (failed c (io_conn s), io_det s, io_net s, io_out s, Some e)
        | (s, Ok payload) =>
            let c := mkNtcp2Conn (io_conn s) (ntcp2Config c) (match payload with Some p => Some p | None => peerMsg3Payload c end) (obfuscator c) in
            match RunPostHandshakeHook (hsconn c) with
            | Some e => (failed c (hsconn c), io_det s, io_net s, io_out s, Some (EHookFailed e))
            | None =>
                let cfg := match PostHandshakeHook (hsconn c) with
                           | Some _ => createPostHandshakeHook cfg (handshakeState (hsconn c))
                           | None => cfg
                           end in
                let c := mkNtcp2Conn (CompleteHandshake (hsconn c)) (Some cfg) (peerMsg3Payload c) (obfuscator c) in
                let '(c, r) := PropagateSipHash c in
                (c, io_det s, io_net s, io_out s, r)
            end
        end
  end.

(** [ToConnConfig], [NewNoiseConn], [NewNTCP2Conn] and [SetNTCP2Config] one after the
    other, as dialling and accepting do. *)
Definition new_connection (cfg : Config U) (w : W) : result NTCP2Error Ntcp2Conn :=
  match ToConnConfig cfg with
  | Err e => Err (EConfigInvalid e)
  | Ok (base, chain, hook) =>
      match NewNoiseConn base chain w hook with
      | Err e => Err (ENoiseConn e)
      | Ok hc => Ok (mkNtcp2Conn hc (Some cfg) None None)
      end
  end.

(** [DialNTCP2] on an open TCP connection. *)
Definition DialNTCP2 (cfg : Config U) (w : W) : result NTCP2Error Ntcp2Conn :=
  if negb (nInitiator cfg) then Err EInvalidInitiatorFlag
  else
    match NTCP2_Validate cfg with
    | Some e => Err (EConfigInvalid e)
    | None =>
        match new_connection cfg w with
        | Err e => Err e
        | Ok c => Ok (mkNtcp2Conn (hsconn c) (ntcp2Config c) (peerMsg3Payload c) (sipHashModifier cfg))
        end
    end.

(** [createResponderConnConfig] and [Accept] of a listener with settings [cfg], on an
    accepted TCP connection. *)
Definition Accept (cfg : Config U) (w : W) : result NTCP2Error Ntcp2Conn :=
  new_connection (with_Initiator (NTCP2_Clone cfg) false) w.
End Handshake.

(** ** The Noise library with the settings of NTCP2

    [createBaseConnConfig] asks for ChaChaPoly, the protocol name of NTCP2 and one
    additional symmetric key. The first two messages of XK are an ephemeral key, whose
    highest bit is clear as of every Curve25519 key, and the sealed payload; the third is
    the sealed static key and the sealed payload. *)
Class NTCP2NoiseLaws (CS : Type) `{NHL : NoiseHandshakeLaws CS} := {
  xk_message : forall n i r rnd payload w' m cs, hs_in_step PXK n i r -> (n < 3)%nat -> length rnd = 32%nat ->
    WriteMessage rnd (if Nat.even n then i else r) payload = (w', Some (m, cs)) ->
    length m = ((if decide (n = 2) then 48 else 32) + length payload + 16)%nat
    /\ ((n < 2)%nat -> Z.land (byte_at m 31) 128 = 0);
  xk_agree : forall i r, hs_in_step PXK 3 i r ->
    ChannelBinding i = ChannelBinding r /\ length (ChannelBinding i) = 32%nat
    /\ exists ask rest, AdditionalSymmetricKeys i = ask :: rest /\ AdditionalSymmetricKeys r = ask :: rest /\ length ask = 32%nat;
}.

Section Exchange.
Context {W U CS D : Type} `{AL : AESLib, SL : SipHashLib, RS : RandSource W, FC : FloatConv, HU : HandshakeModifier W U}.
Context `{NL : NoiseHandshakeLib CS} `{NC : NoiseCipher CS} `{NHL : !NoiseHandshakeLaws CS} `{NN : !NTCP2NoiseLaws CS}.

Abbreviation NConn := (@HSConn W (NTCP2Modifier U) CS _).

(** The modifiers of a connection: AES, where enabled, and those that leave handshake
    messages alone. *)
Definition has_mods (chain : option (ModifierChain (NTCP2Modifier U))) (aes : option AESObfuscationModifier)
    (tail : list (NTCP2Modifier U)) : Prop :=
  match chain with
  | Some ch => modifiers ch = option_list (MAES <$> aes) ++ tail
  | None => option_list (MAES <$> aes) ++ tail = []
  end /\ Forall quiet tail.

Lemma chain_transit (s r : NConn) os or ts tr phase m :
  has_mods (modifierChain (nc s)) os ts -> has_mods (modifierChain (nc r)) or tr -> obfuscated os or -> carried os phase m ->
  exists ns nr os' or' out, applyHandshakeOutbound s phase m = (with_nc s ns, Ok out)
    /\ applyHandshakeInbound r phase out = (with_nc r nr, Ok m) /\ length out = length m
    /\ has_mods (modifierChain ns) os' ts /\ has_mods (modifierChain nr) or' tr /\ obfuscated os' or'
    /\ (phase < PhaseFinal -> forall k, os' = Some k -> is_Some (aesState k)).
Proof.
  intros [Hs Hqs] [Hr Hqr] Ho Hc.
  destruct (obfuscated_transit os or ts tr 0 (rand (nc s)) phase m Ho Hqs Hqr Hc) as (os' & or' & w' & out & Hout & Hin & Hl & Ho' & Hst).
  assert (HS : exists ns, applyHandshakeOutbound s phase m = (with_nc s ns, Ok out) /\ has_mods (modifierChain ns) os' ts).
  { unfold applyHandshakeOutbound. destruct (modifierChain (nc s)) as [ch|] eqn:Es.
    - cbn [ModifyOutbound chain_modifier]. rewrite Hs, Hout. by eexists.
    - exists (nc s). rewrite Hs in Hout. injection Hout as Hnil _ <-. split; [by destruct s|]. rewrite Es. split; congruence. }
  assert (HR : exists nr, applyHandshakeInbound r phase out = (with_nc r nr, Ok m) /\ has_mods (modifierChain nr) or' tr).
  { unfold applyHandshakeInbound. destruct (modifierChain (nc r)) as [ch|] eqn:Er.
    - cbn [ModifyInbound chain_modifier]. rewrite Hr, Hin. by eexists.
    - exists (nc r). rewrite Hr in Hin. injection Hin as Hnil <-. split; [by destruct r|]. rewrite Er. split; congruence. }
  destruct HS as (ns & HS & Hms), HR as (nr & HR & Hmr). by exists ns, nr, os', or', out.
Qed.

(** Both ends between two messages. *)
Record linked (n : nat) (a b : NConn) (oa ob : option AESObfuscationModifier) (ta tb : list (NTCP2Modifier U)) : Prop := {
  lk_hs : hs_in_step PXK n (handshakeState a) (handshakeState b);
  lk_a : has_mods (modifierChain (nc a)) oa ta;
  lk_b : has_mods (modifierChain (nc b)) ob tb;
  lk_o : obfuscated oa ob;
  lk_st : n = 1%nat -> forall k, ob = Some k -> is_Some (aesState k);
}.

Definition keeps (c c' : NConn) : Prop := ncConfig c' = ncConfig c /\ PostHandshakeHook c' = PostHandshakeHook c.

(** A message of the Noise library passes both chains. *)
Lemma message_transit (s r : NConn) os or ts tr phase rnd payload ws xr m cs :
  has_mods (modifierChain (nc s)) os ts -> has_mods (modifierChain (nc r)) or tr -> obfuscated os or -> carried os phase m ->
  WriteMessage rnd (handshakeState s) payload = (ws, Some (m, cs)) -> ReadMessage (handshakeState r) m = (xr, Some (payload, cs)) ->
  exists ns nr os' or' out,
    WriteHandshakeMsgToBytes s rnd phase payload = (updateCipherStates (with_nc (with_hs s ws) ns) cs, Ok out)
    /\ ReadHandshakeMsgFromBytes r phase out = (updateCipherStates (with_hs (with_nc r nr) xr) cs, Ok payload)
    /\ length out = length m
    /\ has_mods (modifierChain ns) os' ts /\ has_mods (modifierChain nr) or' tr /\ obfuscated os' or'
    /\ (phase < PhaseFinal -> forall k, os' = Some k -> is_Some (aesState k)).
Proof.
  intros Hs Hr Ho Hc Hw Hrd.
  destruct (chain_transit (with_hs s ws) r os or ts tr phase m Hs Hr Ho Hc) as (ns & nr & os' & or' & out & Hout & Hin & Hrest).
  exists ns, nr, os', or', out. unfold WriteHandshakeMsgToBytes, ReadHandshakeMsgFromBytes. rewrite Hw, Hout, Hin.
  cbn [with_nc handshakeState]. by rewrite Hrd.
Qed.

Lemma obfuscated_state s r k : obfuscated s r -> r = Some k -> (forall j, s = Some j -> is_Some (aesState j)) -> is_Some (aesState k).
Proof. intros Ho -> Hs. destruct s as [s|]; [|done]. rewrite <- (ap_state _ _ Ho). by apply Hs. Qed.

Lemma link_step n (a b : NConn) oa ob ta tb rnd payload :
  linked n a b oa ob ta tb -> (n < 3)%nat -> length rnd = 32%nat -> zlen payload <= 65000 ->
  let '(s, r) := if Nat.even n then (a, b) else (b, a) in
  exists s' r' m cs oa' ob',
    WriteHandshakeMsgToBytes s rnd (Z.of_nat n) payload = (updateCipherStates s' cs, Ok m)
    /\ ReadHandshakeMsgFromBytes r (Z.of_nat n) m = (updateCipherStates r' cs, Ok payload)
    /\ length m = ((if decide (n = 2) then 48 else 32) + length payload + 16)%nat
    /\ (let '(a', b') := if Nat.even n then (s', r') else (r', s') in linked (S n) a' b' oa' ob' ta tb)
    /\ keeps s s' /\ keeps r r'
    /\ match cs with Some (c1, c2) => n = 2%nat /\ Framing.in_step c1 c1 /\ Framing.in_step c2 c2 | None => n <> 2%nat end.
Proof.
  intros [Hhs Ha Hb Ho Hst] Hn Hrnd Hpl.
  pose proof (hs_message PXK n _ _ rnd payload Hhs Hn Hrnd Hpl) as Hm.
  assert (Hcs : forall w' m (cs : option (CS * CS)), WriteMessage rnd (if Nat.even n then handshakeState a else handshakeState b) payload = (w', Some (m, cs)) ->
    (is_Some cs <-> S n = messages PXK) ->
    match cs with Some (c1, c2) => n = 2%nat /\ Framing.in_step c1 c1 /\ Framing.in_step c2 c2 | None => n <> 2%nat end).
  { intros w' m [[c1 c2]|] Hw Hc.
    - split; [|by eapply hs_ciphers]. destruct Hc as [Hc _]. specialize (Hc ltac:(by eexists)). cbn in Hc. lia.
    - intros ->. destruct Hc as [_ Hc]. by destruct (Hc eq_refl). }
  assert (Hcarry : forall w' m cs o, WriteMessage rnd (if Nat.even n then handshakeState a else handshakeState b) payload = (w', Some (m, cs)) ->
    (n = 1%nat -> forall k, o = Some k -> is_Some (aesState k)) ->
    length m = ((if decide (n = 2) then 48 else 32) + length payload + 16)%nat /\ carried o (Z.of_nat n) m).
  { intros w' m cs o Hw Hk. destruct (xk_message n _ _ _ _ _ _ _ Hhs Hn Hrnd Hw) as [Hl Hbit]. split; [done|].
    unfold carried, PhaseInitial, PhaseExchange, PhaseFinal, PhaseData. destruct (decide (n = 2%nat)); [left; lia|right].
    split; [|split; [lia|apply Hbit; lia]]. destruct (decide (n = 1%nat)); [right|left; lia]. split; [lia|auto]. }
  destruct (Nat.even n) eqn:Hev; destruct Hm as (w' & x' & m & cs & Hw & Hr & _ & Hstep & Hsome).
  - destruct (Hcarry _ _ _ oa Hw) as [Hl Hc]; [intros ->; done|].
    destruct (message_transit a b oa ob ta tb (Z.of_nat n) rnd payload w' x' m cs Ha Hb Ho Hc Hw Hr)
      as (na & nb & oa' & ob' & out & H1 & H2 & Hlo & Hma & Hmb & Ho' & Hst').
    exists (with_nc (with_hs a w') na), (with_hs (with_nc b nb) x'), out, cs, oa', ob'.
    split_and!; [done|done|lia| |by split|by split|by eapply Hcs]. split; try done.
    intros Hn1 k Hk. eapply obfuscated_state; [done|done|]. apply Hst'. unfold PhaseFinal. lia.
  - destruct (Hcarry _ _ _ ob Hw Hst) as [Hl Hc].
    destruct (message_transit b a ob oa tb ta (Z.of_nat n) rnd payload w' x' m cs Hb Ha (obfuscated_sym _ _ Ho) Hc Hw Hr)
      as (nb & na & ob' & oa' & out & H1 & H2 & Hlo & Hmb & Hma & Ho' & Hst').
    exists (with_nc (with_hs b w') nb), (with_hs (with_nc a na) x'), out, cs, oa', ob'.
    split_and!; [done|done|lia| |by split|by split|by eapply Hcs]. split; try done; [by apply obfuscated_sym|].
    intros Hn1. assert (n = 0%nat) as -> by lia. done.
Qed.
End Exchange.

(** ** Both roles *)

Lemma message1_options l now :
  is_u16 l -> length (buildMessage1Options l now) = 16%nat /\ be_decode (slice 2 4 (buildMessage1Options l now)) = 0
  /\ be_decode (slice 4 6 (buildMessage1Options l now)) = l.
Proof.
  intros Hl. unfold buildMessage1Options. set (ts := be_encode 4 (u32 now)).
  assert (Hts : length ts = 4%nat) by apply length_be_encode. split_and!.
  - rewrite !length_app, !length_be_encode, Hts. done.
  - done.
  - rewrite (app_assoc [ntcp2NetID; ntcp2Ver] [x00; x00]), slice_app by (rewrite ?length_be_encode; done).
    by apply be_decode_encode_small.
Qed.

Lemma message2_options now :
  length (buildMessage2Options now) = 16%nat /\ be_decode (slice 2 4 (buildMessage2Options now)) = 0.
Proof. unfold buildMessage2Options. rewrite !length_app, !length_be_encode. done. Qed.

Lemma find_router_info_built ri :
  zlen ri < 65535 -> PeerRouterInfoBytes (Some (buildMsg3Part2Payload ri)) = Some ri.
Proof.
  intros Hl. pose proof (zlen_nonneg ri). unfold PeerRouterInfoBytes. set (p := buildMsg3Part2Payload ri).
  assert (Hlen : length p = (4 + length ri)%nat) by (unfold p, buildMsg3Part2Payload; cbn [length]; rewrite length_app, length_be_encode; cbn [length]; lia).
  rewrite Hlen. change (4 + length ri)%nat with (S (3 + length ri)). cbn [find_router_info]. rewrite Hlen. assert (Hs : be_decode (slice 1 3 p) = 1 + zlen ri).
  { change p with ([routerInfoBlockType] ++ be_encode 2 (u16 (1 + zlen ri)) ++ x00 :: ri).
    rewrite slice_app by (by rewrite ?length_be_encode). rewrite u16_small by (unfold is_u16; lia).
    apply be_decode_encode_small. cbn. lia. }
  rewrite Hs. unfold zlen in *. replace (Z.to_nat (1 + Z.of_nat (length ri))) with (S (length ri)) by lia.
  rewrite !decide_False by lia. rewrite decide_True by done. rewrite decide_False by lia. f_equal.
  transitivity (slice 4 (4 + length ri) ((routerInfoBlockType :: be_encode 2 (u16 (1 + zlen ri)) ++ [x00]) ++ ri ++ [])).
  { f_equal. unfold p, buildMsg3Part2Payload. rewrite app_nil_r. cbn. by rewrite <- app_assoc. }
  apply slice_app; cbn [length]; rewrite length_app, length_be_encode; cbn; lia.
Qed.

Section Runs.
Context {W U CS D : Type} `{AL : AESLib, SL : SipHashLib, RS : RandSource W, FC : FloatConv, HU : HandshakeModifier W U}.
Context `{UM : UserModifier U} `{NL : NoiseHandshakeLib CS} `{HL : HMACLib} `{B64 : I2PBase64} `{RD : ReplayDetector D}.

Abbreviation NConn := (@HSConn W (NTCP2Modifier U) CS _).

(** The detector after a key it had not seen. *)
Definition fresh (det : option D) (key : bytes) : option (option D) :=
  match det with
  | None => Some None
  | Some d => let '(d, seen) := detector_CheckAndAdd d key in if seen : bool then None else Some (Some d)
  end.

Lemma run_read {B} n e (k : bytes -> IO B) (c : NConn) (d : option D) x rest out rnds :
  length x = n -> ibind (raw_ReadFull n e) k (mkHIO c d (x ++ rest) out rnds) = k x (mkHIO c d rest out rnds).
Proof. intros Hx. unfold ibind, raw_ReadFull. cbn [io_net]. by rewrite ReadFull_app by done. Qed.

Lemma run_ok {A B} (m : IO A) (k : A -> IO B) (s s' : @HIO W U CS D _) a : m s = (s', Ok a) -> ibind m k s = k a s'.
Proof. unfold ibind. by intros ->. Qed.

Lemma run_write_message phase payload e (c c' : NConn) (d : option D) net out x rnds m :
  WriteHandshakeMsgToBytes c x phase payload = (c', Ok m) ->
  write_message phase payload e (mkHIO c d net out (x :: rnds)) = (mkHIO c' d net out rnds, Ok m).
Proof. intros Hw. unfold write_message. cbn. by rewrite Hw. Qed.

Lemma run_read_message phase wire e (c c' : NConn) (d : option D) net out rnds p :
  ReadHandshakeMsgFromBytes c phase wire = (c', Ok p) ->
  read_message phase wire e (mkHIO c d net out rnds) = (mkHIO c' d net out rnds, Ok p).
Proof. intros Hr. unfold read_message. cbn. by rewrite Hr. Qed.

(** The RouterInfo has the key, or nothing asks for it. *)
Definition advertised (cfg : Config U) : Prop :=
  verifyLocalRouterInfoMatchesStaticKey (nStaticKey cfg) (LocalRouterInfo cfg) = true \/ StrictRouterInfoVerification cfg = false.

Definition m3p2_length (cfg : Config U) : Z := BlockHeaderSize + 1 + zlen (LocalRouterInfo cfg) + Poly1305Overhead.

Lemma initiator_run (cfg : Config U) nowA nowB (a0 a1 a2 a3 : NConn) (det : option D) x1 x3 rnds m1 m2 m3 rest :
  advertised cfg -> is_u16 (m3p2_length cfg) ->
  WriteHandshakeMsgToBytes a0 x1 PhaseInitial (buildMessage1Options (m3p2_length cfg) nowA) = (a1, Ok m1) -> length m1 = 64%nat ->
  ReadHandshakeMsgFromBytes a1 PhaseExchange m2 = (a2, Ok (buildMessage2Options nowB)) -> length m2 = 64%nat ->
  WriteHandshakeMsgToBytes a2 x3 PhaseFinal (buildMsg3Part2Payload (LocalRouterInfo cfg)) = (a3, Ok m3) ->
  length m3 = (48 + Z.to_nat (m3p2_length cfg))%nat ->
  ntcp2_initiator cfg good_sock nowA (mkHIO a0 det (m2 ++ rest) [] (x1 :: x3 :: rnds)) = (mkHIO a3 det rest (m1 ++ m3) rnds, Ok tt).
Proof.
  intros Hadv Hu H1 Hl1 H2 Hl2 H3 Hl3. unfold ntcp2_initiator. fold (m3p2_length cfg). rewrite (u16_small _ Hu).
  assert (Hv : negb (verifyLocalRouterInfoMatchesStaticKey (nStaticKey cfg) (LocalRouterInfo cfg)) && StrictRouterInfoVerification cfg = false)
    by (destruct Hadv as [-> | ->]; [done|by rewrite andb_false_r]).
  rewrite Hv. assert (Hs1 : sendInitiatorMsg1 good_sock nowA (m3p2_length cfg) (mkHIO a0 det (m2 ++ rest) [] (x1 :: x3 :: rnds))
    = (mkHIO a1 det (m2 ++ rest) m1 (x3 :: rnds), Ok tt)).
  { unfold sendInitiatorMsg1. erewrite run_ok by (by apply run_write_message).
    unfold msg1Size. by rewrite bool_decide_eq_true_2. }
  assert (Hs2 : receiveResponderMsg2 (mkHIO a1 det (m2 ++ rest) m1 (x3 :: rnds)) = (mkHIO a2 det rest m1 (x3 :: rnds), Ok tt)).
  { unfold receiveResponderMsg2. destruct m2 as [|y m2]; [done|].
    change ((y :: m2) ++ rest) with ([y] ++ (m2 ++ rest)). rewrite run_read by done. unfold msg2Size.
    rewrite run_read by (cbn in Hl2; lia). erewrite run_ok by (by apply run_read_message).
    destruct (message2_options nowB) as [Ho Hp]. unfold ntcp2OptionsSize. rewrite decide_False by lia. by rewrite Hp. }
  erewrite run_ok by exact Hs1. erewrite run_ok by exact Hs2. unfold sendInitiatorMsg3.
  erewrite run_ok by (by apply run_write_message).
  unfold msg3Part1Size. by rewrite bool_decide_eq_true_2.
Qed.

(** Of the options the responder reads the two lengths; the network, the version and the
    time may be anything. *)
Lemma responder_run l opts nowB (b0 b1 b2 b3 : NConn) (det det' : option D) y rnds m1 m2 m3 payload rest :
  (16 <= length opts)%nat -> be_decode (slice 2 4 opts) = 0 -> be_decode (slice 4 6 opts) = l -> l <= MaxNTCP2Message3Part2Len ->
  ReadHandshakeMsgFromBytes b0 PhaseInitial m1 = (b1, Ok opts) -> length m1 = 64%nat ->
  fresh det (take 32 m1) = Some det' ->
  WriteHandshakeMsgToBytes b1 y PhaseExchange (buildMessage2Options nowB) = (b2, Ok m2) -> length m2 = 64%nat ->
  ReadHandshakeMsgFromBytes b2 PhaseFinal m3 = (b3, Ok payload) -> length m3 = (48 + Z.to_nat l)%nat ->
  ntcp2_responder good_sock nowB (mkHIO b0 det (m1 ++ m3 ++ rest) [] (y :: rnds)) = (mkHIO b3 det' rest m2 rnds, Ok payload).
Proof.
  unfold MaxNTCP2Message3Part2Len. intros Ho Hp Hm Hl H1 Hl1 Hf H2 Hl2 H3 Hl3. unfold ntcp2_responder, msg1Size.
  rewrite run_read by done. erewrite run_ok by (by apply run_read_message).
  assert (Hck : check_replay (take 32 m1) (mkHIO b1 det (m3 ++ rest) [] (y :: rnds)) = (mkHIO b1 det' (m3 ++ rest) [] (y :: rnds), Ok tt)).
  { unfold check_replay, fresh in *. cbn [io_det]. destruct det as [d|]; [|by injection Hf as <-].
    destruct (detector_CheckAndAdd d (take 32 m1)) as [d' [|]]; [done|]. by injection Hf as <-. }
  erewrite run_ok by exact Hck.
  unfold ntcp2OptionsSize. rewrite decide_False by lia. rewrite Hp, Hm. unfold MaxNTCP2HandshakePadding, MaxNTCP2Message3Part2Len. cbn [Z.ltb Z.compare]. destruct (Z.ltb_spec 8192 l); [lia|].
  erewrite run_ok by done. erewrite run_ok by (by apply run_write_message).
  unfold msg2Size. rewrite bool_decide_eq_true_2 by done. cbn [negb]. erewrite run_ok by done.
  cbn [io_out app on_wire io_net io_conn io_det io_rnds]. unfold msg3Part1Size. rewrite run_read by done. by apply run_read_message.
Qed.
End Runs.

(** ** From settings to connections *)

Section Connect.
Context {W U CS D : Type} `{AL : AESLib, SL : SipHashLib, RS : RandSource W, FC : FloatConv, HU : HandshakeModifier W U}.
Context `{MC : !ModifierCorrect W U} `{UM : UserModifier U} `{NL : NoiseHandshakeLib CS} `{NC : NoiseCipher CS} `{NHL : !NoiseHandshakeLaws CS}.
Context `{NN : !NTCP2NoiseLaws CS} `{HL : HMACLib} `{B64 : I2PBase64} `{RD : ReplayDetector D}.

Abbreviation NConn := (@HSConn W (NTCP2Modifier U) CS _).
Abbreviation Conn := (@Ntcp2Conn W U CS _).

Lemma new_connection_fields (cfg : Config U) (w : W) (c : Conn) :
  new_connection cfg w = Ok c -> parseHandshakePattern (nPattern cfg) = Some PXK ->
  exists hs kp ms, setupNTCP2Modifiers cfg = Ok ms
    /\ c = mkNtcp2Conn (mkHSConn (mkNoise None None (GetModifierChain ms) w [] false false 0 0) (createBaseConnConfig cfg) hs StateInit
             (nStaticKey cfg) (if EnableSipHashLength cfg then Some (hook_succeeds cfg) else None)) (Some cfg) None None
    /\ NewHandshakeState PXK (nInitiator cfg) kp (RemoteStaticKey cfg) = Some hs
    /\ (forall pub, nStaticKey cfg <> [] -> x25519_public (nStaticKey cfg) = Some pub -> kp = Some (nStaticKey cfg, pub)).
Proof.
  unfold new_connection, ToConnConfig. destruct (NTCP2_Validate cfg); [done|]. destruct (setupNTCP2Modifiers cfg) as [ms|] eqn:Es; [|done].
  destruct (NewNoiseConn _ _ _ _) as [hc|] eqn:En; [|done]. intros Hc Hp. apply Ok_inj in Hc as <-.
  destruct (new_fields _ _ _ _ _ _ En Hp) as (hs & kp & -> & Hnew & Hkp). by exists hs, kp, ms.
Qed.

(** The AES modifier of the settings. *)
Definition aes_of (cfg : Config U) : option AESObfuscationModifier :=
  if EnableAESObfuscation cfg
  then (fun iv => mkAES "ntcp2-aes" (BobRouterHash cfg) iv None (Some (BobRouterHash cfg))) <$> ObfuscationIV cfg
  else None.

Lemma setup_mods (cfg : Config U) ms :
  setupNTCP2Modifiers cfg = Ok ms -> Modifiers cfg = [] ->
  (exists t, has_mods (GetModifierChain ms) (aes_of cfg) t
     /\ (FramePaddingEnabled cfg = false -> t = option_list (createSipHashModifierIfEnabled cfg)))
  /\ (forall m, aes_of cfg = Some m -> length (aes_iv m) = 16%nat).
Proof.
  unfold setupNTCP2Modifiers, createAESModifierIfEnabled, createPaddingModifierIfEnabled. intros Hs Hm. rewrite Hm in Hs. cbn [fmap list_fmap] in Hs.
  assert (Haes : exists oa, createAESModifierIfEnabled cfg = Ok (MAES <$> oa) /\ oa = aes_of cfg /\ (forall m, oa = Some m -> length (aes_iv m) = 16%nat)).
  { unfold createAESModifierIfEnabled, aes_of. destruct (EnableAESObfuscation cfg); cbn [negb] in *; [|by exists None].
    destruct (ObfuscationIV cfg) as [iv|]; [|done]. unfold NewAESObfuscationModifier in *.
    destruct (bool_decide_reflect (length (BobRouterHash cfg) = RouterHashSize)); [|done]. cbn [negb] in *.
    destruct (bool_decide_reflect (length iv = IVSize)); [|done]. eexists (Some _). split; [done|]. split; [done|]. by intros m [= <-]. }
  destruct Haes as (oa & Ha & <- & Hiv). split; [|done]. unfold createAESModifierIfEnabled in Ha. rewrite Ha in Hs.
  set (sip := option_list (createSipHashModifierIfEnabled cfg)) in *.
  assert (Hq : Forall quiet sip) by (unfold sip, createSipHashModifierIfEnabled; destruct (EnableSipHashLength cfg); repeat constructor).
  assert (Hchain : forall t, ms = option_list (MAES <$> oa) ++ t -> Forall quiet t -> has_mods (GetModifierChain ms) oa t).
  { intros t -> Ht. unfold GetModifierChain. case_decide as Hnil; [by split|]. split; [|done]. unfold NewModifierChain. cbn [modifiers].
    generalize (option_list (MAES <$> oa) ++ t). intros l. induction l as [|x l IH]; [done|]. cbn. by f_equal. }
  destruct (FramePaddingEnabled cfg); cbn [negb] in Hs.
  - unfold NewNTCP2PaddingModifier, NewNTCP2PaddingModifierWithRatio in Hs. destruct (NewPaddingEngine _) as [pe|]; [|done].
    apply Ok_inj in Hs. symmetry in Hs. rewrite app_nil_r in Hs. eexists. split; [apply Hchain; [exact Hs|]|done].
    apply Forall_app. split; [done|]. by repeat constructor.
  - apply Ok_inj in Hs. symmetry in Hs. exists sip. split; [|done]. apply Hchain; [|done]. rewrite Hs. cbn. by rewrite app_nil_r.
Qed.

(** The keys that both ends derive. *)
Lemma derived_agree (ca cb : Config U) (i r : HS) :
  hs_in_step PXK 3 i r -> nInitiator ca = true -> nInitiator cb = false ->
  exists la lb, derived_modifier ca i = Some la /\ derived_modifier cb r = Some lb
    /\ outboundKeys la = inboundKeys lb /\ outboundIV la = inboundIV lb
    /\ outboundKeys lb = inboundKeys la /\ outboundIV lb = inboundIV la.
Proof.
  intros Hst Hia Hib. destruct (xk_agree i r Hst) as (Hh & Hl & ask & rest & Ha & Hb & Hask).
  unfold derived_modifier. rewrite Ha, Hb, <- Hh, Hia, Hib. destruct ask as [|x ask]; [done|].
  rewrite bool_decide_eq_false_2 by done. unfold DeriveSipHashKeys, StaticKeySize. rewrite !bool_decide_eq_true_2 by done.
  cbv zeta. cbn [negb]. destruct (sip_keys _) as [kAB iAB], (sip_keys _) as [kBA iBA]. by eexists _, _.
Qed.

(** A handshake whose messages were exchanged. *)
Lemma handshake_finish (c : Conn) (cfg : Config U) (det : option D) rnds now dl net s payload slm :
  ntcp2Config c = Some cfg -> perform cfg good_sock now (mkHIO (StartHandshake (hsconn c)) det net [] rnds) = (s, Ok payload) ->
  PostHandshakeHook (io_conn s) = Some (hook_succeeds cfg) -> derived_modifier cfg (handshakeState (io_conn s)) = Some slm ->
  NTCP2_Handshake c det rnds now dl good_sock net
  = (mkNtcp2Conn (CompleteHandshake (io_conn s)) (Some (with_sipHashModifier cfg (Some slm)))
       (match payload with Some p => Some p | None => peerMsg3Payload c end) (Some slm), io_det s, io_net s, io_out s, None).
Proof.
  intros Hc Hp Hhook Hd. unfold NTCP2_Handshake. rewrite Hc, andb_false_r, Hp. cbn [hsconn peerMsg3Payload].
  unfold RunPostHandshakeHook. rewrite Hhook. unfold hook_succeeds, createPostHandshakeHook. rewrite Hd.
  rewrite bool_decide_eq_true_2 by (by eexists). done.
Qed.

(** Settings of two routers that can talk to each other. Both have a static key; the
    initiator was given that of the responder, and the responder none, since it comes in
    the third message. *)
Record compatible (ca cb : Config U) : Prop := {
  cp_pattern : parseHandshakePattern (nPattern ca) = Some PXK /\ parseHandshakePattern (nPattern cb) = Some PXK;
  cp_hash : BobRouterHash ca = BobRouterHash cb;
  cp_aes : EnableAESObfuscation ca = EnableAESObfuscation cb;
  cp_iv : ObfuscationIV ca = ObfuscationIV cb;
  cp_sip : EnableSipHashLength ca = true /\ EnableSipHashLength cb = true;
  cp_sipkeys : SipHashKeys ca = SipHashKeys cb;
  cp_mods : Modifiers ca = [] /\ Modifiers cb = [];
  cp_key : nStaticKey cb <> [] /\ x25519_public (nStaticKey cb) = Some (RemoteStaticKey ca);
  cp_initiator : nStaticKey ca <> [] /\ is_Some (x25519_public (nStaticKey ca)) /\ RemoteStaticKey cb = [];
  cp_ri : LocalRouterInfo ca <> [] /\ zlen (LocalRouterInfo ca) <= 8172;
  cp_adv : advertised ca;
}.

(** Two new connections, before the first message. *)
Lemma new_linked (ca cb : Config U) (wA wB : W) (a b : Conn) :
  DialNTCP2 ca wA = Ok a -> Accept cb wB = Ok b -> compatible ca cb ->
  exists ta tb, linked 0 (StartHandshake (hsconn a)) (StartHandshake (hsconn b)) (aes_of ca) (aes_of cb) ta tb
    /\ nInitiator ca = true /\ ntcp2Config a = Some ca /\ ntcp2Config b = Some (with_Initiator (NTCP2_Clone cb) false)
    /\ Initiator (ncConfig (hsconn a)) = true /\ Initiator (ncConfig (hsconn b)) = false
    /\ PostHandshakeHook (hsconn a) = Some (hook_succeeds ca)
    /\ PostHandshakeHook (hsconn b) = Some (hook_succeeds (with_Initiator (NTCP2_Clone cb) false))
    /\ (FramePaddingEnabled ca = false -> FramePaddingEnabled cb = false -> ta = tb /\ exists m, ta = [MSip m] /\ paired (W := W) m m).
Proof.
  intros Ha Hb [[Hpa Hpb] Hh Haes Hiv [Hsa Hsb] Hsk [Hma Hmb] [Hk1 Hk2] (Hk3 & [pub Hk4] & Hk5) _ _].
  unfold DialNTCP2 in Ha. destruct (nInitiator ca) eqn:Hia; [|done]. cbn [negb] in Ha. destruct (NTCP2_Validate ca); [done|].
  destruct (new_connection ca wA) as [a0|] eqn:En; [|done]. apply Ok_inj in Ha as <-.
  destruct (new_connection_fields _ _ _ En Hpa) as (ha & kpa & msa & Hsetup & -> & Hnewa & Hkpa).
  unfold Accept in Hb. set (cb' := with_Initiator (NTCP2_Clone cb) false) in *.
  destruct (new_connection_fields _ _ _ Hb Hpb) as (hb & kpb & msb & Hsetupb & -> & Hnewb & Hkpb).
  destruct (setup_mods _ _ Hsetup Hma) as [(ta & Hta & Hpada) Hiva].
  assert (Hmb' : Modifiers cb' = []) by (cbn; by rewrite Hmb). destruct (setup_mods _ _ Hsetupb Hmb') as [(tb & Htb & Hpadb) Hivb].
  exists ta, tb. cbn [StartHandshake setState hsconn handshakeState nc modifierChain ntcp2Config PostHandshakeHook ncConfig].
  rewrite Hia in Hnewa. split_and!; try done.
  - split; cbn [handshakeState nc modifierChain StartHandshake setState]; try done.
    + eapply hs_new; [exact Hnewa|exact Hnewb|]. split; intros _.
      * exists (nStaticKey ca), pub. by split; [apply Hkpa|].
      * exists (nStaticKey cb), (RemoteStaticKey ca). by split; [apply Hkpb|].
    + change (aes_of cb') with (aes_of cb) in *. unfold aes_of in *. rewrite <- Haes, <- Hiv, <- Hh in *. destruct (EnableAESObfuscation ca); [|done].
      destruct (ObfuscationIV ca) as [iv|]; [|done]. cbn. split; cbn; try done. exact (Hiva _ eq_refl).
  - by rewrite Hsa.
  - cbn. by rewrite Hsb.
  - intros Hfa Hfb. rewrite Hpada, Hpadb by done. unfold createSipHashModifierIfEnabled. cbn. rewrite Hsa, Hsb, Hsk. split; [done|]. by eexists.
Qed.

Lemma update_keeps (c : NConn) cs :
  handshakeState (updateCipherStates c cs) = handshakeState c /\ ncConfig (updateCipherStates c cs) = ncConfig c
  /\ PostHandshakeHook (updateCipherStates c cs) = PostHandshakeHook c /\ modifierChain (nc (updateCipherStates c cs)) = modifierChain (nc c).
Proof. unfold updateCipherStates. destruct cs as [[c1 c2]|]; [|done]. cbn. by destruct (Initiator (ncConfig c)). Qed.

(** Both ends after the last message. *)
Record exchanged (a b : NConn) (ta tb : list (NTCP2Modifier U)) : Prop := {
  ex_hs : hs_in_step PXK 3 (handshakeState a) (handshakeState b);
  ex_mods : exists oa ob, has_mods (modifierChain (nc a)) oa ta /\ has_mods (modifierChain (nc b)) ob tb /\ obfuscated oa ob;
  ex_ciphers : exists c1 c2, sendCipherState (nc a) = Some c1 /\ recvCipherState (nc b) = Some c1 /\ Framing.in_step c1 c1
    /\ sendCipherState (nc b) = Some c2 /\ recvCipherState (nc a) = Some c2 /\ Framing.in_step c2 c2;
}.

Lemma exchange (a0 b0 : NConn) oa ob ta tb x1 x3 y p1 p2 p3 :
  linked 0 a0 b0 oa ob ta tb -> Initiator (ncConfig a0) = true -> Initiator (ncConfig b0) = false ->
  length x1 = 32%nat -> length x3 = 32%nat -> length y = 32%nat -> zlen p1 <= 65000 -> zlen p2 <= 65000 -> zlen p3 <= 65000 ->
  exists a1 a2 a3 b1 b2 b3 m1 m2 m3,
    WriteHandshakeMsgToBytes a0 x1 PhaseInitial p1 = (a1, Ok m1) /\ ReadHandshakeMsgFromBytes b0 PhaseInitial m1 = (b1, Ok p1)
    /\ WriteHandshakeMsgToBytes b1 y PhaseExchange p2 = (b2, Ok m2) /\ ReadHandshakeMsgFromBytes a1 PhaseExchange m2 = (a2, Ok p2)
    /\ WriteHandshakeMsgToBytes a2 x3 PhaseFinal p3 = (a3, Ok m3) /\ ReadHandshakeMsgFromBytes b2 PhaseFinal m3 = (b3, Ok p3)
    /\ length m1 = (48 + length p1)%nat /\ length m2 = (48 + length p2)%nat /\ length m3 = (64 + length p3)%nat
    /\ keeps a0 a3 /\ keeps b0 b3 /\ exchanged a3 b3 ta tb.
Proof.
  intros Hlk Hia Hib Hx1 Hx3 Hy Hp1 Hp2 Hp3.
  destruct (link_step 0 a0 b0 oa ob ta tb x1 p1 Hlk ltac:(lia) Hx1 Hp1)
    as (a1 & b1 & m1 & [[c c']|] & oa1 & ob1 & W1 & R1 & L1 & Hlk1 & [Ka1 Ha1] & [Kb1 Hb1] & Hcs1); [by destruct Hcs1|].
  destruct (link_step 1 a1 b1 oa1 ob1 ta tb y p2 Hlk1 ltac:(lia) Hy Hp2)
    as (b2 & a2 & m2 & [[c c']|] & oa2 & ob2 & W2 & R2 & L2 & Hlk2 & [Kb2 Hb2] & [Ka2 Ha2] & Hcs2); [by destruct Hcs2|].
  destruct (link_step 2 a2 b2 oa2 ob2 ta tb x3 p3 Hlk2 ltac:(lia) Hx3 Hp3)
    as (a3 & b3 & m3 & cs & oa3 & ob3 & W3 & R3 & L3 & Hlk3 & [Ka3 Ha3] & [Kb3 Hb3] & Hcs3).
  destruct cs as [[c1 c2]|]; [|done]. destruct Hcs3 as (_ & Hc1 & Hc2). pose proof Hlk3 as [Hhs Hma Hmb Ho _].
  destruct (update_keeps a3 (Some (c1, c2))) as (Ua & Uc & Uh & Um). destruct (update_keeps b3 (Some (c1, c2))) as (Va & Vc & Vh & Vm).
  exists a1, a2, (updateCipherStates a3 (Some (c1, c2))), b1, b2, (updateCipherStates b3 (Some (c1, c2))), m1, m2, m3.
  rewrite decide_False in L1 by lia. rewrite decide_False in L2 by lia. rewrite decide_True in L3 by lia.
  split_and!; try done; try lia; [split; congruence|split; congruence|]. split.
  - by rewrite Ua, Va.
  - exists oa3, ob3. by rewrite Um, Vm.
  - exists c1, c2. unfold updateCipherStates. assert (Initiator (ncConfig a3) = true) as -> by congruence.
    assert (Initiator (ncConfig b3) = false) as -> by congruence. done.
Qed.

Lemma mods_paired A B oa ob m :
  has_mods A oa [MSip m] -> has_mods B ob [MSip m] -> obfuscated oa ob -> paired (W := W) m m -> chains_paired (W := W) A B.
Proof.
  intros [HA _] [HB _] Ho Hm. unfold chains_paired.
  destruct A as [A|]; [|by destruct oa]. destruct B as [B|]; [|by destruct ob]. rewrite HA, HB.
  assert (Htail : Forall2 (paired (W := W) (M := NTCP2Modifier U)) [MSip m] [MSip m]) by (constructor; [exact Hm|constructor]).
  destruct oa, ob; try done. by constructor.
Qed.

(** What the two ends have after the handshake. *)
Record established (a b : Conn) (ri : bytes) : Prop := {
  es_state : nstate (hsconn a) = StateEstablished /\ nstate (hsconn b) = StateEstablished;
  es_router_info : PeerRouterInfoBytes (peerMsg3Payload b) = Some ri;
  es_masks : exists la lb, obfuscator a = Some la /\ obfuscator b = Some lb
    /\ outboundKeys la = inboundKeys lb /\ outboundIV la = inboundIV lb /\ outboundKeys lb = inboundKeys la /\ outboundIV lb = inboundIV la;
  es_ciphers : exists c1 c2, sendCipherState (nc (hsconn a)) = Some c1 /\ recvCipherState (nc (hsconn b)) = Some c1 /\ Framing.in_step c1 c1
    /\ sendCipherState (nc (hsconn b)) = Some c2 /\ recvCipherState (nc (hsconn a)) = Some c2 /\ Framing.in_step c2 c2;
}.

Lemma handshake_core (ca cb : Config U) (wA wB : W) (a b : Conn) x1 x3 y nowA nowB dlA dlB :
  DialNTCP2 ca wA = Ok a -> Accept cb wB = Ok b -> compatible ca cb ->
  length x1 = 32%nat -> length x3 = 32%nat -> length y = 32%nat ->
  exists a' b' m1 m2 m3,
    (forall (det : option D) rest, NTCP2_Handshake a det [x1; x3] nowA dlA good_sock (m2 ++ rest) = (a', det, rest, m1 ++ m3, None))
    /\ (forall (det det' : option D) rest, fresh det (take 32 m1) = Some det' ->
        NTCP2_Handshake b det [y] nowB dlB good_sock (m1 ++ m3 ++ rest) = (b', det', rest, m2, None))
    /\ length m1 = 64%nat /\ length m2 = 64%nat /\ length m3 = (68 + length (LocalRouterInfo ca))%nat
    /\ established a' b' (LocalRouterInfo ca)
    /\ (MaxFrameSize <$> ntcp2Config a') = Some (MaxFrameSize ca) /\ (MaxFrameSize <$> ntcp2Config b') = Some (MaxFrameSize cb)
    /\ (FramePaddingEnabled ca = false -> FramePaddingEnabled cb = false -> synced (data_conn a') (data_conn b') /\ synced (data_conn b') (data_conn a')).
Proof.
  intros Ha Hb Hcp Hx1 Hx3 Hy. destruct (new_linked _ _ _ _ _ _ Ha Hb Hcp) as (ta & tb & Hlk & Hin & Hca & Hcb & Hia & Hib & Hha & Hhb & Hpad).
  pose proof (cp_ri _ _ Hcp) as [Hri0 Hri]. pose proof (zlen_nonneg (LocalRouterInfo ca)) as Hri1.
  assert (Hm3 : m3p2_length ca = 20 + zlen (LocalRouterInfo ca)) by (unfold m3p2_length, BlockHeaderSize, Poly1305Overhead; lia).
  set (p1 := buildMessage1Options (m3p2_length ca) nowA). set (p2 := buildMessage2Options nowB). set (p3 := buildMsg3Part2Payload (LocalRouterInfo ca)).
  destruct (message1_options (m3p2_length ca) nowA) as (Lp1 & Pad1 & Len1); [unfold is_u16; lia|]. destruct (message2_options nowB) as [Lp2 _].
  assert (Lp3 : length p3 = (4 + length (LocalRouterInfo ca))%nat) by (unfold p3, buildMsg3Part2Payload; cbn [length]; rewrite length_app, length_be_encode; cbn [length]; lia).
  destruct (exchange (StartHandshake (hsconn a)) (StartHandshake (hsconn b)) _ _ ta tb x1 x3 y p1 p2 p3 Hlk Hia Hib Hx1 Hx3 Hy)
    as (a1 & a2 & a3 & b1 & b2 & b3 & m1 & m2 & m3 & W1 & R1 & W2 & R2 & W3 & R3 & L1 & L2 & L3 & [Ka Ka'] & [Kb Kb'] & Hex);
    [unfold zlen, p1; lia|unfold zlen, p2; lia|unfold zlen in *; lia|].
  destruct Hex as [Hhs (oa & ob & Hma & Hmb & Ho) Hci].
  destruct (derived_agree ca (with_Initiator (NTCP2_Clone cb) false) _ _ Hhs Hin eq_refl) as (la & lb & Hla & Hlb & Hmask).
  unfold p1 in L1. unfold p2 in L2. rewrite Lp1 in L1. rewrite Lp2 in L2. rewrite Lp3 in L3.
  exists (mkNtcp2Conn (CompleteHandshake a3) (Some (with_sipHashModifier ca (Some la))) (peerMsg3Payload a) (Some la)),
    (mkNtcp2Conn (CompleteHandshake b3) (Some (with_sipHashModifier (with_Initiator (NTCP2_Clone cb) false) (Some lb))) (Some p3) (Some lb)), m1, m2, m3.
  split_and!.
  - intros det rest. rewrite (handshake_finish a ca det [x1; x3] nowA dlA (m2 ++ rest) (mkHIO a3 det rest (m1 ++ m3) []) None la); [done|done| | |exact Hla].
    + unfold perform. rewrite Hin, bool_decide_eq_false_2 by done. erewrite run_ok; [reflexivity|].
      apply (initiator_run ca nowA nowB _ a1 a2 a3); try done; [exact (cp_adv _ _ Hcp)|unfold is_u16; lia|].
      rewrite L3. unfold zlen in *. lia.
    + cbn [io_conn]. by rewrite Ka'.
  - intros det det' rest Hf. rewrite (handshake_finish b (with_Initiator (NTCP2_Clone cb) false) det [y] nowB dlB (m1 ++ m3 ++ rest) (mkHIO b3 det' rest m2 []) (Some p3) lb); [done|exact Hcb| | |exact Hlb].
    + unfold perform. cbn [nInitiator with_Initiator]. rewrite (run_ok _ _ _ (mkHIO b3 det' rest m2 []) p3); [reflexivity|].
      apply (responder_run (m3p2_length ca) p1 nowB _ b1 b2 b3 det det'); try done; [unfold MaxNTCP2Message3Part2Len; lia|].
      rewrite L3. unfold zlen in *. lia.
    + cbn [io_conn]. by rewrite Kb'.
  - lia.
  - lia.
  - lia.
  - split; cbn [hsconn peerMsg3Payload obfuscator].
    + done.
    + apply find_router_info_built. lia.
    + by exists la, lb.
    + exact Hci.
  - done.
  - done.
  - intros Hfa Hfb. destruct (Hpad Hfa Hfb) as (<- & m & -> & Hm). destruct Hci as (c1 & c2 & Hc). destruct Hmask as (M1 & M2 & M3 & M4).
    split; (split; [by eexists _, _|]); (split; [eapply mods_paired; eauto using obfuscated_sym|]); (split; [by eexists _, _; split_and!; apply Hc|]).
    + split_and!; try done. unfold validateReadState. cbn. destruct Hc as (_ & -> & _). done.
    + split_and!; try done. unfold validateReadState. cbn. destruct Hc as (_ & _ & _ & _ & -> & _). done.
Qed.

(** C6: the NTCP2 handshake. A dialled and an accepted connection whose settings fit
    exchange three messages: each end reads exactly what the other wrote. Both are then
    established, with mirrored keys for the length masks and the same cipher state in
    each direction, and the responder has the RouterInfo of the initiator. It holds for
    any clock readings and whatever follows in the streams, with or without a replay
    detector that has not seen the first message. *)
Theorem ntcp2_handshake (ca cb : Config U) (wA wB : W) (a b : Conn) (x1 x3 y : bytes) (nowA nowB : Z) (dlA dlB : bool) :
  DialNTCP2 ca wA = Ok a -> Accept cb wB = Ok b -> compatible ca cb ->
  length x1 = 32%nat -> length x3 = 32%nat -> length y = 32%nat ->
  exists a' b' m1 m2 m3,
    (forall (det : option D) rest, NTCP2_Handshake a det [x1; x3] nowA dlA good_sock (m2 ++ rest) = (a', det, rest, m1 ++ m3, None))
    /\ (forall (det det' : option D) rest, fresh det (take 32 m1) = Some det' ->
        NTCP2_Handshake b det [y] nowB dlB good_sock (m1 ++ m3 ++ rest) = (b', det', rest, m2, None))
    /\ length m1 = 64%nat /\ length m2 = 64%nat /\ length m3 = (68 + length (LocalRouterInfo ca))%nat
    /\ established a' b' (LocalRouterInfo ca).
Proof.
  intros Ha Hb Hcp H1 H2 H3.
  destruct (handshake_core ca cb wA wB a b x1 x3 y nowA nowB dlA dlB Ha Hb Hcp H1 H2 H3)
    as (a' & b' & m1 & m2 & m3 & ? & ? & ? & ? & ? & ? & _).
  by exists a', b', m1, m2, m3.
Qed.

Lemma valid_frame_size (cfg : Config U) :
  NTCP2_Validate cfg = None -> minAllowedFrameSize <= MaxFrameSize cfg <= SpecMaxFrameSize.
Proof.
  unfold NTCP2_Validate, RunValidators. destruct (validateBasicConfiguration cfg), (validateCryptographicParameters cfg), (validateTimeoutConfiguration cfg); try done.
  destruct (validateFrameConfiguration cfg) eqn:Hf; [done|]. intros _. unfold validateFrameConfiguration in Hf.
  destruct (Z.leb_spec (MaxFrameSize cfg) 0); [done|]. destruct (Z.ltb_spec (MaxFrameSize cfg) minAllowedFrameSize); [done|].
  destruct (Z.ltb_spec SpecMaxFrameSize (MaxFrameSize cfg)); [done|]. lia.
Qed.

(** What a receiver reads of a stream. *)
Definition delivered (s r : NTCP2Conn W (NTCP2Modifier U) CS) : Prop :=
  forall sock msgs s' wire ns, write_all s sock msgs = Some (s', wire) -> Forall (fun n => 0 < n)%nat ns ->
  let '(_, _, got, err) := reads r wire ns in
  got `prefix_of` concat msgs /\ (err = true -> got = concat msgs) /\ ((length (concat msgs) <= length ns)%nat -> got = concat msgs).

Lemma synced_delivered (s r : Conn) (n : Z) :
  correct_in W U PhaseData -> synced (data_conn s) (data_conn r) -> (MaxFrameSize <$> ntcp2Config s) = Some n ->
  minAllowedFrameSize <= n <= SpecMaxFrameSize -> delivered (data_conn s) (data_conn r).
Proof.
  intros Hd Hs Hn Hsz sock msgs s' wire ns Hw Hns. assert (Hdata : correct_in W (NTCP2Modifier U) PhaseData) by (by split).
  assert (Hmax : Poly1305Overhead < getMaxFrameSize (data_conn s)).
  { unfold getMaxFrameSize. cbn [data_conn cfgMaxFrameSize]. rewrite Hn. unfold minAllowedFrameSize, MinDataPhaseFrameSize, Poly1305Overhead in *.
    destruct (Z.ltb_spec 0 n); [|lia]. destruct (Z.leb_spec n SpecMaxFrameSize); [|lia]. cbn. lia. }
  destruct (write_all_delivery Hdata _ _ _ _ _ _ Hs Hmax Hw) as (frames & chunks & r' & -> & Hc & Hdec).
  pose proof (reads_spec ns (data_conn r) frames chunks r' Hdec Hns) as Hr. cbv zeta in Hr. by rewrite Hc in Hr.
Qed.

(** C5: an NTCP2 session from the settings to the data. Two connections that were
    dialled and accepted with fitting settings, without random padding in the frames,
    complete the handshake, and then every byte that one end writes, in writes of any
    sizes, is read by the other in order, in both directions. *)
Theorem ntcp2_session (ca cb : Config U) (wA wB : W) (a b : Conn) (x1 x3 y : bytes) (nowA nowB : Z) (dlA dlB : bool) (det det' : option D) :
  correct_in W U PhaseData -> DialNTCP2 ca wA = Ok a -> Accept cb wB = Ok b -> compatible ca cb ->
  FramePaddingEnabled ca = false -> FramePaddingEnabled cb = false ->
  length x1 = 32%nat -> length x3 = 32%nat -> length y = 32%nat ->
  exists a' b' m1 m2 m3,
    (forall rest, NTCP2_Handshake a None [x1; x3] nowA dlA good_sock (m2 ++ rest) = (a', None, rest, m1 ++ m3, None))
    /\ (fresh det (take 32 m1) = Some det' ->
        forall rest, NTCP2_Handshake b det [y] nowB dlB good_sock (m1 ++ m3 ++ rest) = (b', det', rest, m2, None))
    /\ delivered (data_conn a') (data_conn b') /\ delivered (data_conn b') (data_conn a').
Proof.
  intros Hd Ha Hb Hcp Hfa Hfb H1 H2 H3.
  destruct (handshake_core ca cb wA wB a b x1 x3 y nowA nowB dlA dlB Ha Hb Hcp H1 H2 H3)
    as (a' & b' & m1 & m2 & m3 & Hra & Hrb & _ & _ & _ & _ & Hsa & Hsb & Hsync). destruct (Hsync Hfa Hfb) as [S1 S2].
  assert (Hva : NTCP2_Validate ca = None) by (unfold DialNTCP2 in Ha; destruct (negb _); [done|]; by destruct (NTCP2_Validate ca)).
  assert (Hvb : NTCP2_Validate (with_Initiator (NTCP2_Clone cb) false) = None)
    by (unfold Accept, new_connection, ToConnConfig in Hb; by destruct (NTCP2_Validate _)).
  exists a', b', m1, m2, m3. split_and!; [done|auto| |].
  - eapply synced_delivered; [done|done|exact Hsa|by apply valid_frame_size].
  - eapply synced_delivered; [done|done|exact Hsb|]. exact (valid_frame_size _ Hvb).
Qed.
End Connect.

(** ** Replayed messages *)

Section Replay.
Context {W U CS D : Type} `{AL : AESLib, SL : SipHashLib, RS : RandSource W, FC : FloatConv, HU : HandshakeModifier W U}.
Context `{UM : UserModifier U} `{NL : NoiseHandshakeLib CS} `{HL : HMACLib} `{B64 : I2PBase64} `{RD : ReplayDetector D}.

Abbreviation Conn := (@Ntcp2Conn W U CS _).
Abbreviation State := (@HIO W U CS D _).

(** Steps that leave a part of the state alone. *)
Definition keeps_part {A B} (f : State -> B) (m : @IO W U CS D _ A) : Prop := forall s, f (m s).1 = f s.

Lemma bind_keeps {A A' B} (f : State -> B) (m : IO A) (k : A -> IO A') :
  keeps_part f m -> (forall a, keeps_part f (k a)) -> keeps_part f (ibind m k).
Proof. intros Hm Hk s. unfold ibind. specialize (Hm s). destruct (m s) as [s' [a|e]]; cbn in *; [by rewrite Hk|done]. Qed.

Lemma ret_keeps {A B} (f : State -> B) (a : A) : keeps_part f (iret a).
Proof. done. Qed.
Lemma fail_keeps {A B} (f : State -> B) e : keeps_part f (ifail (A := A) e).
Proof. done. Qed.

(** Only the check of replays works on the detector. *)
Lemma read_keeps n e : keeps_part io_det (raw_ReadFull n e).
Proof. intros s. unfold raw_ReadFull. by destruct (ReadFull n (io_net s)) as [[]|]. Qed.
Lemma write_keeps sock b e : keeps_part io_det (raw_Write sock b e).
Proof. intros s. unfold raw_Write. by destruct (sock_write sock b). Qed.
Lemma write_message_keeps phase p e : keeps_part io_det (write_message phase p e).
Proof. intros s. unfold write_message. by destruct (WriteHandshakeMsgToBytes _ _ _ _) as [? []]. Qed.
Lemma read_message_keeps phase p e : keeps_part io_det (read_message phase p e).
Proof. intros s. unfold read_message. by destruct (ReadHandshakeMsgFromBytes _ _ _) as [? []]. Qed.
Lemma mix_keeps d : keeps_part io_det (mix_hash d).
Proof. done. Qed.

#[local] Hint Resolve ret_keeps fail_keeps read_keeps write_keeps write_message_keeps read_message_keeps mix_keeps bind_keeps : ntcp2.

(** A responder that succeeds consulted the detector about the first 32 bytes. *)
Lemma responder_consults sock now c d net out rnds (s : State) p :
  ntcp2_responder sock now (mkHIO c (Some d) net out rnds) = (s, Ok p) ->
  exists d', detector_CheckAndAdd d (take 32 net) = (d', false) /\ io_det s = Some d'.
Proof.
  unfold ntcp2_responder, ibind at 1, raw_ReadFull at 1, ReadFull, msg1Size. cbn [io_net io_conn io_det io_out io_rnds].
  case_decide as Hl; [|done]. unfold ibind at 1, read_message at 1. cbn [io_net io_conn io_det io_out io_rnds].
  destruct (ReadHandshakeMsgFromBytes c PhaseInitial (take 64 net)) as [c1 [opts|e]]; [|done].
  unfold ibind at 1, check_replay. cbn [io_net io_conn io_det io_out io_rnds]. rewrite take_take.
  destruct (detector_CheckAndAdd d (take (32 `min` 64) net)) as [d' [|]] eqn:Ed; [done|].
  intros Hr. exists d'. split; [exact Ed|]. apply (f_equal (fun x => io_det x.1)) in Hr. cbn [fst] in Hr. rewrite <- Hr. clear Hr Ed.
  case_decide; [done|]. destruct (_ <? _); [done|]. destruct (_ <? _); [done|].
  refine (bind_keeps io_det _ _ _ _ (mkHIO c1 (Some d') _ _ _)); [destruct (0 <? _); auto with ntcp2|]. intros _.
  apply bind_keeps; [auto with ntcp2|]. intros msg2. destruct (negb _); auto with ntcp2.
Qed.

(** A first message that the detector knows leads to nothing but an error: no byte is
    written. *)
Lemma seen_refused sock now c d d' net rnds :
  detector_CheckAndAdd d (take 32 net) = (d', true) ->
  exists (s : State) e, ntcp2_responder sock now (mkHIO c (Some d) net [] rnds) = (s, Err e) /\ io_out s = [].
Proof.
  intros Hd. unfold ntcp2_responder, ibind at 1, raw_ReadFull at 1, ReadFull, msg1Size. cbn [io_net io_conn io_det io_out io_rnds].
  case_decide as Hl; [|by eexists _, _]. unfold ibind at 1, read_message at 1. cbn [io_net io_conn io_det io_out io_rnds].
  destruct (ReadHandshakeMsgFromBytes c PhaseInitial (take 64 net)) as [c1 [opts|e]]; [|by eexists _, _].
  unfold ibind at 1, check_replay. cbn [io_net io_conn io_det io_out io_rnds]. rewrite take_take.
  change (32 `min` 64)%nat with 32%nat. rewrite Hd. by eexists _, _.
Qed.
End Replay.

Section ReplayCached.
Context {W U CS : Type} `{AL : AESLib, SL : SipHashLib, RS : RandSource W, FC : FloatConv, HU : HandshakeModifier W U}.
Context `{UM : UserModifier U} `{NL : NoiseHandshakeLib CS} `{HL : HMACLib} `{B64 : I2PBase64}.
Context {R : GoRange bytes Z} {Srt : GoSort (bytes * Z)}.

Abbreviation Conn := (@Ntcp2Conn W U CS _).

Lemma accepted_consults (b b' : Conn) (cfg : Config U) c t det' rnds now dl sock net rest out :
  ntcp2Config b = Some cfg -> nInitiator cfg = false ->
  NTCP2_Handshake b (Some (c, t)) rnds now dl sock net = (b', det', rest, out, None) ->
  exists c1, ReplayCache.CheckAndAdd c (take 32 net) t = (c1, false) /\ det' = Some (c1, t).
Proof.
  intros Hc Hi Hh. unfold NTCP2_Handshake in Hh. rewrite Hc in Hh. destruct (_ && _); [done|].
  unfold perform in Hh. rewrite Hi in Hh. unfold ibind in Hh.
  destruct (ntcp2_responder sock now _) as [s [p|e]] eqn:Er; [|done]. cbn [iret] in Hh.
  destruct (responder_consults _ _ _ _ _ _ _ _ _ Er) as ([c1 t1] & Hd & Hs).
  cbn in Hd. destruct (ReplayCache.CheckAndAdd c (take 32 net) t) as [c2 seen] eqn:Ec. injection Hd as -> -> ->. exists c1. split; [done|].
  destruct (RunPostHandshakeHook _); [done|]. destruct (PropagateSipHash _) as [b1 r]. injection Hh as _ <- _ _ _. exact Hs.
Qed.

Lemma refused_when_seen (b : Conn) (cfg : Config U) c t rnds now dl sock net :
  ntcp2Config b = Some cfg -> nInitiator cfg = false -> (ReplayCache.CheckAndAdd c (take 32 net) t).2 = true ->
  exists b' det' rest e, NTCP2_Handshake b (Some (c, t)) rnds now dl sock net = (b', det', rest, [], Some e)
    /\ nstate (hsconn b') = StateInit.
Proof.
  intros Hc Hi Hseen. unfold NTCP2_Handshake. rewrite Hc. destruct (_ && _); [by eexists _, _, _, _|].
  unfold perform. rewrite Hi. unfold ibind.
  destruct (ReplayCache.CheckAndAdd c (take 32 net) t) as [c2 seen] eqn:Ec. cbn in Hseen. subst seen.
  destruct (seen_refused sock now (StartHandshake (hsconn b)) (c, t) (c2, t) net rnds) as (s & e & Hr & Ho).
  { cbn. by rewrite Ec. }
  rewrite Hr. eexists _, _, _, e. by rewrite Ho.
Qed.

(** C7: replayed handshakes. When a responder has completed a handshake, every later
    connection of the same listener that starts with the same 32 bytes, within the time
    to live of the replay cache, is refused without a byte written, as long as fewer
    handshakes came in between than nine tenths of the cache. *)
Theorem ntcp2_replay_refused (b b' b2 : Conn) (cfg cfg2 : Config U) (c : TTLCache) (t t' : Z) (det' : option (TTLCache * Z))
    (rnds rnds2 : list bytes) (now now2 : Z) (dl dl2 : bool) (sock sock2 : Sock) (net net2 rest out : bytes) (ops : list ReplayCache.op) :
  ntcp2Config b = Some cfg -> nInitiator cfg = false -> ntcp2Config b2 = Some cfg2 -> nInitiator cfg2 = false ->
  0 < maxSize c -> map_Forall (fun _ u => u < t) (entries c) ->
  NTCP2_Handshake b (Some (c, t)) rnds now dl sock net = (b', det', rest, out, None) ->
  Forall (fun o => forall u, op_time o = Some u -> t <= u <= t') ops -> t <= t' < t + ttl c ->
  (length (List.filter is_check ops) < room c)%nat -> take 32 net2 = take 32 net ->
  exists c1 b2' det2 rest2 e, det' = Some (c1, t)
    /\ NTCP2_Handshake b2 (Some (ReplayCache.run c1 ops, t')) rnds2 now2 dl2 sock2 net2 = (b2', det2, rest2, [], Some e)
    /\ nstate (hsconn b2') = StateInit.
Proof.
  intros Hc Hi Hc2 Hi2 Hm Hold Hh Hops Ht Hroom Hnet. destruct (accepted_consults _ _ _ _ _ _ _ _ _ _ _ _ _ Hc Hi Hh) as (c1 & Hadd & ->).
  destruct (recorded_fresh c _ t c1 Hold Hadd) as (Hf & H1 & H2).
  destruct (run_fresh (take 32 net) t t' ops 0 c1) as [Hk Hl]; [done|lia|unfold room in *; rewrite H1; lia|done|lia|].
  destruct (refused_when_seen b2 cfg2 (ReplayCache.run c1 ops) t' rnds2 now2 dl2 sock2 net2 Hc2 Hi2) as (b2' & det2 & rest2 & e & Hr & Hs).
  { rewrite Hnet. apply (fresh_detected _ _ t); [done|]. rewrite Hl, H2. lia. }
  by exists c1, b2', det2, rest2, e.
Qed.
End ReplayCached.

(** ** Settings that cannot work *)

Section Hook.
Context {W U CS D : Type} `{AL : AESLib, SL : SipHashLib, RS : RandSource W, FC : FloatConv, HU : HandshakeModifier W U}.
Context `{UM : UserModifier U} `{NL : NoiseHandshakeLib CS} `{HL : HMACLib} `{B64 : I2PBase64} `{RD : ReplayDetector D}.

Abbreviation NConn := (@HSConn W (NTCP2Modifier U) CS _).
Abbreviation Conn := (@Ntcp2Conn W U CS _).
Abbreviation State := (@HIO W U CS D _).

Definition io_hook (s : State) : option (HS -> bool) := PostHandshakeHook (io_conn s).

Lemma update_hook (c : NConn) cs : PostHandshakeHook (updateCipherStates c cs) = PostHandshakeHook c.
Proof. unfold updateCipherStates. by destruct cs as [[]|]. Qed.

Lemma write_bytes_hook (c : NConn) rnd phase p : PostHandshakeHook (WriteHandshakeMsgToBytes c rnd phase p).1 = PostHandshakeHook c.
Proof.
  unfold WriteHandshakeMsgToBytes, applyHandshakeOutbound. destruct (WriteMessage _ _ _) as [hs [[m cs]|]]; [|done].
  destruct (modifierChain _) as [ch|]; [|cbn [fst]; by rewrite update_hook].
  destruct (ModifyOutbound _ _ _ _) as [[ch' w] [out|e]]; [|done]. cbn [fst]. by rewrite update_hook.
Qed.

Lemma read_bytes_hook (c : NConn) phase wire : PostHandshakeHook (ReadHandshakeMsgFromBytes c phase wire).1 = PostHandshakeHook c.
Proof.
  unfold ReadHandshakeMsgFromBytes, applyHandshakeInbound. destruct (modifierChain _) as [ch|].
  - destruct (ModifyInbound _ _ _) as [ch' [out|e]]; [|done]. destruct (ReadMessage _ out) as [hs [[p cs]|]]; [|done]. cbn [fst]. by rewrite update_hook.
  - destruct (ReadMessage _ wire) as [hs [[p cs]|]]; [|done]. cbn [fst]. by rewrite update_hook.
Qed.

Lemma hook_read n e : keeps_part io_hook (raw_ReadFull n e).
Proof. intros s. unfold raw_ReadFull. by destruct (ReadFull n (io_net s)) as [[]|]. Qed.
Lemma hook_write sock b e : keeps_part io_hook (raw_Write sock b e).
Proof. intros s. unfold raw_Write. by destruct (sock_write sock b). Qed.
Lemma hook_write_message phase p e : keeps_part io_hook (write_message phase p e).
Proof.
  intros s. unfold write_message. pose proof (write_bytes_hook (io_conn s) (default [] (head (io_rnds s))) phase p) as Hh.
  by destruct (WriteHandshakeMsgToBytes _ _ _ _) as [? []].
Qed.
Lemma hook_read_message phase p e : keeps_part io_hook (read_message phase p e).
Proof. intros s. unfold read_message. pose proof (read_bytes_hook (io_conn s) phase p) as Hh. by destruct (ReadHandshakeMsgFromBytes _ _ _) as [? []]. Qed.
Lemma hook_mix d : keeps_part io_hook (mix_hash d).
Proof. intros s. unfold io_hook, mix_hash, MixHashData. cbn. by case_decide. Qed.
Lemma hook_check k : keeps_part io_hook (check_replay k).
Proof. intros s. unfold check_replay. destruct (io_det s) as [d|]; [|done]. by destruct (detector_CheckAndAdd d k) as [d' [|]]. Qed.

#[local] Hint Resolve ret_keeps fail_keeps hook_read hook_write hook_write_message hook_read_message hook_mix hook_check bind_keeps : ntcp2.

Lemma hook_initiator cfg sock now : keeps_part io_hook (ntcp2_initiator cfg sock now).
Proof.
  unfold ntcp2_initiator. destruct (_ && _); [auto with ntcp2|]. apply bind_keeps; [|intros _; apply bind_keeps; [|intros _]].
  - unfold sendInitiatorMsg1. apply bind_keeps; [auto with ntcp2|]. intros m. destruct (negb _); auto with ntcp2.
  - unfold receiveResponderMsg2. repeat (apply bind_keeps; [auto with ntcp2|]; intros ?). case_decide; [auto with ntcp2|].
    case_decide; auto with ntcp2.
  - unfold sendInitiatorMsg3. apply bind_keeps; [auto with ntcp2|]. intros m. destruct (negb _); auto with ntcp2.
Qed.

Lemma hook_responder sock now : keeps_part io_hook (ntcp2_responder sock now).
Proof.
  unfold ntcp2_responder. repeat (apply bind_keeps; [auto with ntcp2|]; intros ?). case_decide; [auto with ntcp2|].
  destruct (_ <? _); [auto with ntcp2|]. destruct (_ <? _); [auto with ntcp2|]. apply bind_keeps; [destruct (0 <? _); auto with ntcp2|].
  intros _. apply bind_keeps; [auto with ntcp2|]. intros m. destruct (negb _); auto with ntcp2.
Qed.

Lemma hook_perform cfg sock now : keeps_part io_hook (perform cfg sock now).
Proof.
  unfold perform. destruct (nInitiator cfg); [|apply bind_keeps; [apply hook_responder|auto with ntcp2]].
  destruct (bool_decide _); [auto with ntcp2|]. apply bind_keeps; [apply hook_initiator|auto with ntcp2].
Qed.

(** C26: without length obfuscation, which the settings allow, no handshake succeeds:
    after the messages were exchanged and the connection was marked as established, the
    missing SipHash modifier is reported as an error. *)
Theorem siphash_disabled_fails (cfg : Config U) (w : W) (c : Conn) (det : option D) (rnds : list bytes) (now : Z) (dl : bool)
    (sock : Sock) (net : bytes) :
  EnableSipHashLength cfg = false -> sipHashModifier cfg = None -> new_connection cfg w = Ok c ->
  exists c' det' rest out e, NTCP2_Handshake c det rnds now dl sock net = (c', det', rest, out, Some e)
    /\ (nstate (hsconn c') = StateInit \/ e = ENoSipHashModifier /\ nstate (hsconn c') = StateEstablished).
Proof.
  intros Hs Hm Hc. unfold new_connection, ToConnConfig in Hc. destruct (NTCP2_Validate cfg); [done|].
  destruct (setupNTCP2Modifiers cfg); [|done]. rewrite Hs in Hc. destruct (NewNoiseConn _ _ _ _) as [hc|] eqn:En; [|done].
  apply Ok_inj in Hc as <-. assert (Hk : PostHandshakeHook hc = None).
  { unfold NewNoiseConn in En. destruct (Validate _); [done|]. destruct (createHandshakeState _ _); [|done]. by apply Ok_inj in En as <-. }
  unfold NTCP2_Handshake. cbn [ntcp2Config hsconn]. destruct (_ && _); [eexists _, _, _, _, _; split; [done|by left]|].
  pose proof (hook_perform cfg sock now (mkHIO (StartHandshake hc) det net [] rnds)) as Hp. unfold io_hook in Hp. cbn [io_conn] in Hp.
  destruct (perform cfg sock now _) as [s [p|e]]; cbn [fst] in Hp; change (PostHandshakeHook (StartHandshake hc)) with (PostHandshakeHook hc) in Hp; rewrite Hk in Hp.
  - cbn [hsconn]. unfold RunPostHandshakeHook. rewrite Hp. unfold PropagateSipHash. cbn [ntcp2Config]. rewrite Hm.
    eexists _, _, _, _, _. split; [done|by right].
  - eexists _, _, _, _, e. split; [done|by left].
Qed.
End Hook.

(** ** Findings *)

Section Findings.
Context {W U CS D : Type} `{AL : AESLib, SL : SipHashLib, RS : RandSource W, FC : FloatConv, HU : HandshakeModifier W U}.
Context `{UM : UserModifier U} `{NL : NoiseHandshakeLib CS} `{HL : HMACLib} `{B64 : I2PBase64} `{RD : ReplayDetector D}.

Abbreviation NConn := (@HSConn W (NTCP2Modifier U) CS _).
Abbreviation Conn := (@Ntcp2Conn W U CS _).

(** A RouterInfo between 8173 and 65515 bytes passes the validation of the settings but
    is announced with a length that every responder refuses. *)
Lemma large_router_info_refused (l now nowB : Z) (b0 b1 : NConn) (det det' : option D) rnds m1 rest :
  8192 < l < 2 ^ 16 -> ReadHandshakeMsgFromBytes b0 PhaseInitial m1 = (b1, Ok (buildMessage1Options l now)) -> length m1 = 64%nat ->
  fresh det (take 32 m1) = Some det' ->
  ntcp2_responder good_sock nowB (mkHIO b0 det (m1 ++ rest) [] rnds) = (mkHIO b1 det' rest [] rnds, Err (EMsg3Part2TooLarge l)).
Proof.
  intros Hl H1 Hl1 Hf. unfold ntcp2_responder, msg1Size. rewrite run_read by done. erewrite run_ok by (by apply run_read_message).
  assert (Hck : check_replay (take 32 m1) (mkHIO b1 det rest [] rnds) = (mkHIO b1 det' rest [] rnds, Ok tt)).
  { unfold check_replay, fresh in *. cbn [io_det]. destruct det as [d|]; [|by injection Hf as <-].
    destruct (detector_CheckAndAdd d (take 32 m1)) as [d' [|]]; [done|]. by injection Hf as <-. }
  erewrite run_ok by exact Hck. destruct (message1_options l now) as (Ho & Hp & Hm); [unfold is_u16; lia|].
  unfold ntcp2OptionsSize. rewrite decide_False by lia. rewrite Hp, Hm. unfold MaxNTCP2HandshakePadding, MaxNTCP2Message3Part2Len. cbn [Z.ltb Z.compare].
  destruct (Z.ltb_spec 8192 l); [done|lia].
Qed.

(** A copy of the settings of an initiator lacks the RouterInfo. *)
Lemma clone_without_router_info (cfg : Config U) (w : W) (c : Conn) (det : option D) rnds now dl net :
  nInitiator cfg = true -> new_connection (NTCP2_Clone cfg) w = Ok c ->
  exists c' out, NTCP2_Handshake c det rnds now dl good_sock net = (c', det, net, out, Some EMissingLocalRouterInfo).
Proof.
  intros Hi Hc. unfold new_connection in Hc. destruct (ToConnConfig _) as [[[base chain] hook]|]; [|done].
  destruct (NewNoiseConn _ _ _ _) as [hc|]; [|done]. apply Ok_inj in Hc as <-. unfold NTCP2_Handshake. cbn [ntcp2Config hsconn].
  rewrite andb_false_r. unfold perform. cbn [nInitiator NTCP2_Clone LocalRouterInfo]. rewrite Hi. by eexists _, _.
Qed.

(** Two handshakes with the same settings at the same time: when both hooks ran before
    the first connection takes its modifier, it gets the keys of the other. *)
Lemma shared_settings_mixed (cfg : Config U) (hc1 : NConn) (hs1 hs2 : HS) p o l1 l2 :
  derived_modifier cfg hs1 = Some l1 -> derived_modifier (createPostHandshakeHook cfg hs1) hs2 = Some l2 ->
  let settings := createPostHandshakeHook (createPostHandshakeHook cfg hs1) hs2 in
  PropagateSipHash (mkNtcp2Conn hc1 (Some settings) p o) = (mkNtcp2Conn hc1 (Some settings) p (Some l2), None).
Proof. intros H1 H2. unfold createPostHandshakeHook at 1. rewrite H2. done. Qed.

(** The padding after the second message may be as long as its 16-bit length says. *)
Lemma message2_padding_unlimited (a1 a2 : NConn) (det : option D) out rnds m2 opts pad rest :
  ReadHandshakeMsgFromBytes a1 PhaseExchange m2 = (a2, Ok opts) -> length m2 = 64%nat -> (16 <= length opts)%nat ->
  be_decode (slice 2 4 opts) = zlen pad -> pad <> [] ->
  receiveResponderMsg2 (mkHIO a1 det (m2 ++ pad ++ rest) out rnds) = (mkHIO (MixHashData a2 pad) det rest out rnds, Ok tt).
Proof.
  intros H2 Hl2 Ho Hp Hne. unfold receiveResponderMsg2. destruct m2 as [|y m2]; [done|].
  change ((y :: m2) ++ pad ++ rest) with ([y] ++ (m2 ++ pad ++ rest)). rewrite run_read by done. unfold msg2Size.
  rewrite run_read by (cbn in Hl2; lia). erewrite run_ok by (by apply run_read_message). unfold ntcp2OptionsSize. rewrite decide_False by lia.
  unfold zlen in Hp. rewrite Hp, Nat2Z.id. rewrite decide_False by (by destruct pad). by rewrite run_read.
Qed.
End Findings.

(** ** An instance of the libraries *)

#[local] Instance demo_aes : AESLib.
Proof.
  refine {| aes_encrypt k b := resize 16 x00 b; aes_decrypt k b := b |}.
  - intros k b. apply length_resize.
  - intros k b Hb. by rewrite resize_all_alt.
Defined.

#[local] Instance demo_hmac : HMACLib.
Proof. refine {| HMACSHA256 k d := demo_digest 32 (k ++ d) |}. intros k d. apply length_demo_digest. Defined.

#[local] Existing Instances demo_noise_lib counter_cipher demo_noise_laws.

Lemma demo_ephemeral_bit rnd rest : length rnd = 32%nat -> Z.land (byte_at (demo_ephemeral rnd ++ rest) 31) 128 = 0.
Proof.
  intros Hl. unfold demo_ephemeral. set (v := byte_at rnd 31). unfold byte_at. rewrite <- app_assoc, lookup_app_r, length_take by (rewrite length_take; lia).
  rewrite Hl. change (31 - 31 `min` 32)%nat with 0%nat. cbn [app lookup list_lookup]. change 127 with (Z.ones 7).
  assert (0 <= Z.land v (Z.ones 7) < 256) by (rewrite Z.land_ones by lia; pose proof (Z.mod_pos_bound v (2 ^ 7) ltac:(lia)); lia).
  rewrite b2z_z2b_u8, <- Z.land_assoc by done. apply Z.land_0_r.
Qed.

Lemma dn_write_inv rnd s p s' m cs :
  dn_write rnd s p = (s', Some (m, cs)) ->
  length (dn_prefix s rnd) = dn_prefix_len s /\ exists rest, m = dn_prefix s rnd ++ p ++ rest /\ length rest = 16%nat.
Proof.
  unfold dn_write. destruct (_ && _) eqn:E; [|done]. intros Hw. apply (inj2 pair) in Hw as [_ Hw]. apply (inj Some) in Hw.
  apply (inj2 pair) in Hw as [<- _]. apply andb_prop in E as [_ E%bool_decide_eq_true]. split; [done|]. eexists. split; [done|]. apply length_demo_digest.
Qed.

#[local] Instance demo_ntcp2_laws : NTCP2NoiseLaws Z.
Proof.
  split.
  - intros n i r rnd payload w' m cs Hst Hn Hrnd Hw. pose proof Hst as [[Hpi Hpr] _ [Hxi Hxr] _ _ _].
    assert (Hgen : forall w : DemoNoise, dn_pattern w = PXK -> dn_idx w = n -> dn_write rnd w payload = (w', Some (m, cs)) ->
      length m = ((if decide (n = 2) then 48 else 32) + length payload + 16)%nat /\ ((n < 2)%nat -> Z.land (byte_at m 31) 128 = 0)).
    { intros w Hp Hx Hw'. destruct (dn_write_inv _ _ _ _ _ _ Hw') as (Hl & rest & -> & Hrest). unfold dn_prefix_len, dn_prefix, demo_static_message in *.
      rewrite Hp, Hx in *. rewrite !length_app, Hl, Hrest. destruct (decide (n = 2%nat)) as [-> |Hne].
      - rewrite bool_decide_eq_true_2 by done. split; lia.
      - rewrite bool_decide_eq_false_2 by (by intros []). split; [lia|]. intros _. by apply demo_ephemeral_bit. }
    destruct (Nat.even n); [exact (Hgen i Hpi Hxi Hw)|exact (Hgen r Hpr Hxr Hw)].
  - intros i r [_ _ _ Hh Hl _]. cbn. rewrite <- Hh. split; [done|]. split; [done|]. eexists _, _. split; [done|]. split; [done|]. apply length_demo_digest.
Qed.

(** ** Witnesses *)

#[local] Existing Instances zero_source demo_hash amd64_conv demo_base64 sort_merge.
#[local] Instance demo_bytes_range : GoRange bytes Z := ReplayCache.demo_range.

#[local] Instance demo_user_modifier : UserModifier XORModifier := {|
  is_PaddingModifier _ := false;
  clone_modifier m := m;
|}.

Definition demo_ntcp2_config (initiator : bool) : Config XORModifier :=
  mkConfig "XK" initiator (replicate 32 x09) demo_static_key (Some (replicate 32 x09))
    (if initiator then demo_digest 32 demo_static_key else []) (30 * Second) 3 (1 * Second) true (Some (replicate 16 x05)) true (0, 0) []
    16384 false 0 64 (if initiator then [x0a; x0b; x0c] else []) false None.

Definition dialled : result NTCP2Error (Ntcp2Conn (W := unit)) := DialNTCP2 (demo_ntcp2_config true) tt.
Definition accepted : result NTCP2Error (Ntcp2Conn (W := unit)) := Accept (demo_ntcp2_config false) tt.

Lemma ok_result {E A} (r : result E A) : is_ok r = true -> exists a, r = Ok a.
Proof. destruct r; [by eexists|done]. Qed.

Lemma demo_compatible : compatible (demo_ntcp2_config true) (demo_ntcp2_config false).
Proof. split; try (split; reflexivity); try reflexivity; try (split; [discriminate|reflexivity]);
  [split_and!; [discriminate|by eexists|reflexivity]|split; [discriminate|by vm_compute]|by right]. Qed.

Lemma ntcp2_handshake_witness :
  exists a b a' b' m1 m2 m3, dialled = Ok a /\ accepted = Ok b
    /\ NTCP2_Handshake a (None : option (TTLCache * Z)) [replicate 32 x01; replicate 32 x02] 0 true good_sock m2 = (a', None, [], m1 ++ m3, None)
    /\ NTCP2_Handshake b (None : option (TTLCache * Z)) [replicate 32 x03] 1000000 true good_sock (m1 ++ m3) = (b', None, [], m2, None)
    /\ established a' b' [x0a; x0b; x0c].
Proof.
  destruct (ok_result dialled) as [a Ea]; [by vm_compute|]. destruct (ok_result accepted) as [b Eb]; [by vm_compute|].
  destruct (ntcp2_handshake (D := TTLCache * Z) (demo_ntcp2_config true) (demo_ntcp2_config false) tt tt a b (replicate 32 x01) (replicate 32 x02)
    (replicate 32 x03) 0 1000000 true true Ea Eb demo_compatible eq_refl eq_refl eq_refl) as (a' & b' & m1 & m2 & m3 & Ha & Hb & _ & _ & _ & He).
  exists a, b, a', b', m1, m2, m3. split; [exact Ea|]. split; [exact Eb|].
  specialize (Ha None []). specialize (Hb None None [] eq_refl). rewrite app_nil_r in Ha. rewrite app_nil_r in Hb.
  split; [exact Ha|]. split; [exact Hb|exact He].
Defined.

Lemma ntcp2_session_witness :
  exists a b a' b' m1 m2 m3, dialled = Ok a /\ accepted = Ok b
    /\ NTCP2_Handshake a (None : option (TTLCache * Z)) [replicate 32 x01; replicate 32 x02] 0 true good_sock m2 = (a', None, [], m1 ++ m3, None)
    /\ NTCP2_Handshake b (None : option (TTLCache * Z)) [replicate 32 x03] 1000000 true good_sock (m1 ++ m3) = (b', None, [], m2, None)
    /\ delivered (data_conn a') (data_conn b') /\ delivered (data_conn b') (data_conn a').
Proof.
  destruct (ok_result dialled) as [a Ea]; [by vm_compute|]. destruct (ok_result accepted) as [b Eb]; [by vm_compute|].
  assert (Hx : correct_in unit XORModifier PhaseData) by exact I.
  destruct (ntcp2_session (D := TTLCache * Z) (demo_ntcp2_config true) (demo_ntcp2_config false) tt tt a b (replicate 32 x01) (replicate 32 x02)
    (replicate 32 x03) 0 1000000 true true None None Hx Ea Eb demo_compatible eq_refl eq_refl eq_refl eq_refl eq_refl) as (a' & b' & m1 & m2 & m3 & Ha & Hb & H1 & H2).
  exists a, b, a', b', m1, m2, m3. split; [exact Ea|]. split; [exact Eb|].
  specialize (Ha []). specialize (Hb eq_refl []). rewrite app_nil_r in Ha. rewrite app_nil_r in Hb.
  split; [exact Ha|]. split; [exact Hb|]. split; [exact H1|exact H2].
Defined.

Definition demo_cache : TTLCache := ReplayCache.New (ReplayCache.mkConfig (2 * Second) 10 0).

Lemma ntcp2_replay_refused_witness :
  exists b b' det' rest out net, accepted = Ok b
    /\ NTCP2_Handshake b (Some (demo_cache, 7)) [replicate 32 x03] 1000000 true good_sock net = (b', det', rest, out, None)
    /\ exists c1 b2' det2 rest2 e, det' = Some (c1, 7)
      /\ NTCP2_Handshake b (Some (ReplayCache.run c1 [OpExpire 8; OpCheck [x01] 8], 9)) [replicate 32 x04] 1000001 true good_sock net
         = (b2', det2, rest2, [], Some e).
Proof.
  destruct (ok_result dialled) as [a Ea]; [by vm_compute|]. destruct (ok_result accepted) as [b Eb]; [by vm_compute|].
  destruct (handshake_core (D := TTLCache * Z) (demo_ntcp2_config true) (demo_ntcp2_config false) tt tt a b (replicate 32 x01) (replicate 32 x02)
    (replicate 32 x03) 0 1000000 true true Ea Eb demo_compatible eq_refl eq_refl eq_refl) as (a' & b' & m1 & m2 & m3 & _ & Hb & _).
  assert (Hf : exists det', fresh (Some (demo_cache, 7)) (take 32 m1) = Some det') by (eexists; reflexivity).
  destruct Hf as [det' Hf]. specialize (Hb _ _ [] Hf). assert (Hcfg : ntcp2Config b = Some (with_Initiator (NTCP2_Clone (demo_ntcp2_config false)) false))
    by (by destruct (new_connection_fields _ _ _ Eb eq_refl) as (? & ? & ? & _ & -> & _)).
  exists b, b', det', [], m2, (m1 ++ m3 ++ []). split; [exact Eb|]. split; [exact Hb|].
  destruct (ntcp2_replay_refused b b' b _ _ demo_cache 7 9 det' [replicate 32 x03] [replicate 32 x04] 1000000 1000001 true true good_sock good_sock
    (m1 ++ m3 ++ []) (m1 ++ m3 ++ []) [] m2 [OpExpire 8; OpCheck [x01] 8] Hcfg eq_refl Hcfg eq_refl) as (c1 & b2' & det2 & rest2 & e & H1 & H2 & _).
  - reflexivity.
  - apply map_Forall_empty.
  - exact Hb.
  - constructor; [by intros u [= <-]|]. constructor; [by intros u [= <-]|constructor].
  - vm_compute. split; [discriminate|reflexivity].
  - vm_compute. lia.
  - reflexivity.
  - exists c1, b2', det2, rest2, e. split; [exact H1|exact H2].
Defined.

Lemma siphash_disabled_fails_witness :
  let cfg := mkConfig "XK" false (replicate 32 x09) demo_static_key None [] (30 * Second) 3 (1 * Second) false None false (0, 0)
    ([] : list XORModifier) 16384 false 0 64 [] false None in
  exists c, new_connection (W := unit) cfg tt = Ok c
    /\ exists c' det' rest out e, NTCP2_Handshake c (None : option (TTLCache * Z)) [replicate 32 x03] 0 true good_sock [x01] = (c', det', rest, out, Some e).
Proof.
  intros cfg. destruct (ok_result (new_connection (W := unit) cfg tt)) as [c E]; [by vm_compute|]. exists c. split; [exact E|].
  destruct (siphash_disabled_fails cfg tt c (None : option (TTLCache * Z)) [replicate 32 x03] 0 true good_sock [x01] eq_refl eq_refl E)
    as (c' & det' & rest & out & e & H1 & _).
  exists c', det', rest, out, e. exact H1.
Defined.
