(* ===== verification/SSU2Config.v ===== *)
(** * SSU2 settings and addresses

    [ssu2/config]: settings with their defaults, builder methods and validation, the
    modifiers they describe, and addresses with connection IDs; the ChaCha20
    obfuscation modifier ([ssu2/wire/chacha_obfuscation_modifier.go]) and the keys in
    router addresses ([ssu2/wire/introkey.go]).

    A network address is a parameter; random bytes are arguments. *)

From Stdlib Require Import Floats.SpecFloat ZArith Lia.
From Stdlib Require Import Strings.Byte.
From stdpp Require Import base numbers list gmap strings.
From S2P Require Import Prelude Float64 FloatBounds Crypto Modifiers Padding HeaderProtection NoiseHandshake Ntcp2Config.

#[local] Open Scope Z_scope.

(** ** ChaCha20 obfuscation *)

Record ChaChaObfuscationModifier := mkChaCha {
  chachaClosed : bool;
  chachaName : string;
  introKey : bytes;
}.

Definition chachaNonce : bytes := replicate 12 x00.

Inductive SSU2ConfigError :=
| ESettings (e : ConfigError)
| EPadding (e : NTCP2ConfigError)
| EMissingRemoteStaticKey
| EInvalidRemoteStaticKey (len : Z)
| EInvalidObfuscationIV (len : Z)
| EMissingRouterInfoValidator
| EInvalidKeepaliveInterval
| EInvalidMTU
| EInvalidMaxPacketSize
| EPacketSizeLessThanMTU
| EInvalidPaddingRatio
| EInvalidTokenConfig
| EInvalidIntroKey (len : Z)
| EPaddingModifier (e : PaddingParamError)
| EInvalidConnectionID
| EInvalidRole (role : string)
| EInvalidUnderlyingAddr
| EInvalidIntroducerAddr
| ERandomGenerationFailed
| ERandomExhausted                        (* the reads given to the model are used up *)
| EMissingKeyParameter (param : string)
| EInvalidBase64
| EInvalidKeySize (len : Z).

Definition NewChaChaObfuscationModifier (name : string) (introKey : bytes) : result SSU2ConfigError ChaChaObfuscationModifier :=
  if negb (bool_decide (length introKey = 32%nat)) then Err (EInvalidIntroKey (zlen introKey))
  else Ok (mkChaCha false name introKey).

Section ChaCha.
Context {W : Type} `{ChaCha20Lib}.

Definition applyChacha (com : ChaChaObfuscationModifier) (data : bytes) : result ModifierError bytes :=
  if chachaClosed com then Err (EModifierClosed (chachaName com))
  else
    match key_stream (introKey com) chachaNonce 1 (length data) with
    | None => Err (EChaChaCipher (chachaName com))
    | Some ks => Ok (zip_with byte_xor data ks)
    end.

(** [ModifyOutbound] and [ModifyInbound], which are the same. *)
Definition chacha_modify (com : ChaChaObfuscationModifier) (phase : Z) (data : bytes) : result ModifierError bytes :=
  if negb (bool_decide (length data = 48%nat)) && negb (bool_decide (length data = 32%nat)) then Err (EInvalidChaChaLength (zlen data))
  else if (phase =? PhaseInitial) || (phase =? PhaseExchange) then applyChacha com data
  else Ok data.

Definition ChaCha_Close (com : ChaChaObfuscationModifier) : ChaChaObfuscationModifier :=
  if chachaClosed com then com else mkChaCha true (chachaName com) (replicate (length (introKey com)) x00).

#[export] Instance chacha_modifier : HandshakeModifier W ChaChaObfuscationModifier := {|
  ModifyOutbound com w phase data := (com, w, chacha_modify com phase data);
  ModifyInbound com phase data := (com, chacha_modify com phase data);
  Name := chachaName;
  Close com := (ChaCha_Close com, None);
|}.
End ChaCha.

(** ** Keys in router addresses *)

(** The decoder of [github.com/go-i2p/common/base64] and its law. *)
Class I2PBase64Decoder `{I2PBase64} := {
  base64_decode : bytes -> option bytes;
  base64_decode_encode : forall l, base64_decode (base64 l) = Some l;
}.

Section RouterAddress.
Context `{I2PBase64Decoder}.

Definition keyFromRouterAddress (options : gmap string bytes) (param : string) : result SSU2ConfigError bytes :=
  match options !! param with
  | None | Some [] => Err (EMissingKeyParameter param)
  | Some val =>
      match base64_decode val with
      | None => Err EInvalidBase64
      | Some key => if decide (length key = 32%nat) then Ok key else Err (EInvalidKeySize (zlen key))
      end
  end.

Definition IntroKeyFromRouterAddress (options : gmap string bytes) : result SSU2ConfigError bytes := keyFromRouterAddress options "i".
Definition StaticKeyFromRouterAddress (options : gmap string bytes) : result SSU2ConfigError bytes := keyFromRouterAddress options "s".

(** A published key is read back. *)
Lemma published_key options param key :
  length key = 32%nat -> keyFromRouterAddress (<[param := base64 key]> options) param = Ok key.
Proof.
  intros Hk. unfold keyFromRouterAddress. rewrite lookup_insert_eq. pose proof (base64_length key) as Hl. rewrite Hk in Hl.
  destruct (base64 key) as [|b l] eqn:E; [done|]. rewrite <- E, base64_decode_encode. by rewrite decide_True.
Qed.
End RouterAddress.

(** ** Settings *)

(** [SSU2Config]. [U] is the type of modifiers of the caller. *)
Record SSU2Config (U : Type) := mkSSU2Config {
  sPattern : string;
  sInitiator : bool;
  sRouterHash : bytes;
  sStaticKey : bytes;
  sRemoteRouterHash : option bytes;
  sRemoteStaticKey : bytes;
  sHandshakeTimeout : Z;
  sReadTimeout : Z;
  sWriteTimeout : Z;
  sHandshakeRetries : Z;
  sRetryBackoff : Z;
  sEnableChaChaObfuscation : bool;
  sObfuscationIV : option bytes;
  sMTU : Z;
  sMaxPacketSize : Z;
  sEnableFragmentation : bool;
  sPaddingEnabled : bool;
  sMinPaddingSize : Z;
  sMaxPaddingSize : Z;
  sPaddingRatio : float64;
  sConnectionID : Z;
  sKeepaliveInterval : Z;
  sModifiers : list U;
  sIntroKey : bytes;
  sRemoteIntroKey : bytes;
  sInitiatorConnectionID : Z;
  sRequireRetry : bool;
  sIdleTimeout : Z;
  sFragmentTimeout : Z;
  sTokenCacheMaxSize : Z;
  sGlobalTokenIssuanceRate : float64;
  sGlobalTokenIssuanceBurst : float64;
  sFirstSightRequired : bool;
  sFirstSightWindow : Z;
  sFirstSightMaxEntries : Z;
  sDestroyTimeout : Z;
  sEnableNextNonce : bool;
  sReplayCacheTTL : Z;
  sMaxClockSkew : Z;
  sReceiveWindowSize : Z;
  sRouterInfoValidator : option (bytes -> bytes -> bool);
}.
Arguments mkSSU2Config {U}.
Arguments sPattern {U}.
Arguments sInitiator {U}.
Arguments sRouterHash {U}.
Arguments sStaticKey {U}.
Arguments sRemoteRouterHash {U}.
Arguments sRemoteStaticKey {U}.
Arguments sHandshakeTimeout {U}.
Arguments sReadTimeout {U}.
Arguments sWriteTimeout {U}.
Arguments sHandshakeRetries {U}.
Arguments sRetryBackoff {U}.
Arguments sEnableChaChaObfuscation {U}.
Arguments sObfuscationIV {U}.
Arguments sMTU {U}.
Arguments sMaxPacketSize {U}.
Arguments sEnableFragmentation {U}.
Arguments sPaddingEnabled {U}.
Arguments sMinPaddingSize {U}.
Arguments sMaxPaddingSize {U}.
Arguments sPaddingRatio {U}.
Arguments sConnectionID {U}.
Arguments sKeepaliveInterval {U}.
Arguments sModifiers {U}.
Arguments sIntroKey {U}.
Arguments sRemoteIntroKey {U}.
Arguments sInitiatorConnectionID {U}.
Arguments sRequireRetry {U}.
Arguments sIdleTimeout {U}.
Arguments sFragmentTimeout {U}.
Arguments sTokenCacheMaxSize {U}.
Arguments sGlobalTokenIssuanceRate {U}.
Arguments sGlobalTokenIssuanceBurst {U}.
Arguments sFirstSightRequired {U}.
Arguments sFirstSightWindow {U}.
Arguments sFirstSightMaxEntries {U}.
Arguments sDestroyTimeout {U}.
Arguments sEnableNextNonce {U}.
Arguments sReplayCacheTTL {U}.
Arguments sMaxClockSkew {U}.
Arguments sReceiveWindowSize {U}.
Arguments sRouterInfoValidator {U}.

(** [assigned (field sc) := v] is the settings [sc] with the field assigned. *)
Ltac assign_field sc field v :=
  let e := constr:(mkSSU2Config (sPattern sc) (sInitiator sc) (sRouterHash sc) (sStaticKey sc) (sRemoteRouterHash sc) (sRemoteStaticKey sc)
    (sHandshakeTimeout sc) (sReadTimeout sc) (sWriteTimeout sc) (sHandshakeRetries sc) (sRetryBackoff sc) (sEnableChaChaObfuscation sc)
    (sObfuscationIV sc) (sMTU sc) (sMaxPacketSize sc) (sEnableFragmentation sc) (sPaddingEnabled sc) (sMinPaddingSize sc)
    (sMaxPaddingSize sc) (sPaddingRatio sc) (sConnectionID sc) (sKeepaliveInterval sc) (sModifiers sc) (sIntroKey sc) (sRemoteIntroKey sc)
    (sInitiatorConnectionID sc) (sRequireRetry sc) (sIdleTimeout sc) (sFragmentTimeout sc) (sTokenCacheMaxSize sc)
    (sGlobalTokenIssuanceRate sc) (sGlobalTokenIssuanceBurst sc) (sFirstSightRequired sc) (sFirstSightWindow sc) (sFirstSightMaxEntries sc)
    (sDestroyTimeout sc) (sEnableNextNonce sc) (sReplayCacheTTL sc) (sMaxClockSkew sc) (sReceiveWindowSize sc) (sRouterInfoValidator sc)) in
  let g := eval pattern field in e in
  lazymatch g with ?h _ => let r := eval cbv beta in (h v) in exact r end.

Ltac assign a v := lazymatch a with _ ?sc => assign_field sc a v end.

Declare Scope settings_scope.
Notation "'assigned' a := v" := (ltac:(assign a v)) (at level 10, a at level 9, v at level 9, only parsing) : settings_scope.
#[local] Open Scope settings_scope.

(** [NewSSU2Config] *)
Definition DefaultHandshakeTimeout : Z := 15 * Second.

Definition NewSSU2Config {U : Type} (routerHash : bytes) (initiator : bool) : SSU2Config U :=
  {| sPattern := "XK";
     sInitiator := initiator;
     sRouterHash := routerHash;
     sStaticKey := [];
     sRemoteRouterHash := None;
     sRemoteStaticKey := [];
     sHandshakeTimeout := DefaultHandshakeTimeout;
     sReadTimeout := 0;
     sWriteTimeout := 0;
     sHandshakeRetries := 3;
     sRetryBackoff := 1250 * Millisecond;
     sEnableChaChaObfuscation := true;
     sObfuscationIV := None;
     sMTU := 1280;
     sMaxPacketSize := 1500;
     sEnableFragmentation := false;
     sPaddingEnabled := true;
     sMinPaddingSize := 0;
     sMaxPaddingSize := 64;
     sPaddingRatio := f64 1;
     sConnectionID := 0;
     sKeepaliveInterval := 15 * Second;
     sModifiers := [];
     sIntroKey := [];
     sRemoteIntroKey := [];
     sInitiatorConnectionID := 0;
     sRequireRetry := false;
     sIdleTimeout := 5 * 60 * Second;
     sFragmentTimeout := 10 * Second;
     sTokenCacheMaxSize := 10000;
     sGlobalTokenIssuanceRate := f64 40;
     sGlobalTokenIssuanceBurst := f64 80;
     sFirstSightRequired := true;
     sFirstSightWindow := 30 * Second;
     sFirstSightMaxEntries := 50000;
     sDestroyTimeout := 11 * Second;
     sEnableNextNonce := false;
     sReplayCacheTTL := 4 * 60 * Second;
     sMaxClockSkew := 120 * Second;
     sReceiveWindowSize := 256;
     sRouterInfoValidator := None |}.

(** The builder methods, *)
Inductive Builder (U : Type) :=
| WithPattern (pattern : string)
| WithStaticKey (key : bytes)
| WithRemoteRouterHash (hash : bytes)
| WithRemoteStaticKey (key : bytes)
| WithHandshakeTimeout (timeout : Z)
| WithReadTimeout (timeout : Z)
| WithWriteTimeout (timeout : Z)
| WithHandshakeRetries (retries : Z)
| WithRetryBackoff (backoff : Z)
| WithChaChaObfuscation (enabled : bool) (customIV : bytes)
| WithMTU (mtu : Z)
| WithPacketSettings (maxSize : Z) (fragmentation : bool)
| WithPaddingSettings (enabled : bool) (minPad maxPad : Z) (ratio : float64)
| WithConnectionID (connID : Z)
| WithKeepalive (interval : Z)
| WithIdleTimeout (timeout : Z)
| WithFragmentTimeout (timeout : Z)
| WithDestroyTimeout (timeout : Z)
| WithMaxClockSkew (skew : Z)
| WithReceiveWindowSize (size : Z)
| WithTokenCacheMaxSize (maxSize : Z)
| WithGlobalTokenIssuanceRate (rate : float64)
| WithGlobalTokenIssuanceBurst (burst : float64)
| WithFirstSightRequired (required : bool)
| WithFirstSightWindow (window : Z)
| WithFirstSightMaxEntries (maxEntries : Z)
| WithModifiers (modifiers : list U)
| WithRouterInfoValidator (validator : option (bytes -> bytes -> bool)).
Arguments WithPattern {U}.
Arguments WithStaticKey {U}.
Arguments WithRemoteRouterHash {U}.
Arguments WithRemoteStaticKey {U}.
Arguments WithHandshakeTimeout {U}.
Arguments WithReadTimeout {U}.
Arguments WithWriteTimeout {U}.
Arguments WithHandshakeRetries {U}.
Arguments WithRetryBackoff {U}.
Arguments WithChaChaObfuscation {U}.
Arguments WithMTU {U}.
Arguments WithPacketSettings {U}.
Arguments WithPaddingSettings {U}.
Arguments WithConnectionID {U}.
Arguments WithKeepalive {U}.
Arguments WithIdleTimeout {U}.
Arguments WithFragmentTimeout {U}.
Arguments WithDestroyTimeout {U}.
Arguments WithMaxClockSkew {U}.
Arguments WithReceiveWindowSize {U}.
Arguments WithTokenCacheMaxSize {U}.
Arguments WithGlobalTokenIssuanceRate {U}.
Arguments WithGlobalTokenIssuanceBurst {U}.
Arguments WithFirstSightRequired {U}.
Arguments WithFirstSightWindow {U}.
Arguments WithFirstSightMaxEntries {U}.
Arguments WithModifiers {U}.
Arguments WithRouterInfoValidator {U}.

Section Settings.
Context {U : Type}.

Definition set_chacha (sc : SSU2Config U) (enabled : bool) : SSU2Config U := assigned (sEnableChaChaObfuscation sc) := enabled.
Definition set_fragmentation (sc : SSU2Config U) (enabled : bool) : SSU2Config U := assigned (sEnableFragmentation sc) := enabled.
Definition set_padding (sc : SSU2Config U) (enabled : bool) : SSU2Config U := assigned (sPaddingEnabled sc) := enabled.
Definition set_min_padding (sc : SSU2Config U) (size : Z) : SSU2Config U := assigned (sMinPaddingSize sc) := size.
Definition set_max_padding (sc : SSU2Config U) (size : Z) : SSU2Config U := assigned (sMaxPaddingSize sc) := size.

(** and what each does to the settings. *)
Definition build (sc : SSU2Config U) (b : Builder U) : SSU2Config U :=
  match b with
  | WithPattern pattern => assigned (sPattern sc) := pattern
  | WithStaticKey key => if decide (length key = 32%nat) then assigned (sStaticKey sc) := key else sc
  | WithRemoteRouterHash hash => assigned (sRemoteRouterHash sc) := (Some hash)
  | WithRemoteStaticKey key => if decide (length key = 32%nat) then assigned (sRemoteStaticKey sc) := key else sc
  | WithHandshakeTimeout timeout => assigned (sHandshakeTimeout sc) := timeout
  | WithReadTimeout timeout => assigned (sReadTimeout sc) := timeout
  | WithWriteTimeout timeout => assigned (sWriteTimeout sc) := timeout
  | WithHandshakeRetries retries => assigned (sHandshakeRetries sc) := retries
  | WithRetryBackoff backoff => assigned (sRetryBackoff sc) := backoff
  | WithChaChaObfuscation enabled customIV =>
      let sc := set_chacha sc enabled in
      if decide (length customIV = 8%nat) then assigned (sObfuscationIV sc) := (Some customIV) else sc
  | WithMTU mtu => if (1280 <=? mtu) && (mtu <=? 1500) then assigned (sMTU sc) := mtu else sc
  | WithPacketSettings maxSize fragmentation =>
      let sc := if 0 <? maxSize then assigned (sMaxPacketSize sc) := maxSize else sc in
      set_fragmentation sc fragmentation
  | WithPaddingSettings enabled minPad maxPad ratio =>
      let sc := set_padding sc enabled in
      let sc := if 0 <=? minPad then set_min_padding sc minPad else sc in
      let sc := if minPad <=? maxPad then set_max_padding sc maxPad else sc in
      if SFleb (f64 0) ratio && SFleb ratio f64_15_9375 then assigned (sPaddingRatio sc) := ratio else sc
  | WithConnectionID connID => assigned (sConnectionID sc) := connID
  | WithKeepalive interval => assigned (sKeepaliveInterval sc) := interval
  | WithIdleTimeout timeout => assigned (sIdleTimeout sc) := timeout
  | WithFragmentTimeout timeout => assigned (sFragmentTimeout sc) := timeout
  | WithDestroyTimeout timeout => assigned (sDestroyTimeout sc) := timeout
  | WithMaxClockSkew skew => assigned (sMaxClockSkew sc) := skew
  | WithReceiveWindowSize size => if 0 <=? size then assigned (sReceiveWindowSize sc) := size else sc
  | WithTokenCacheMaxSize maxSize => if 0 <? maxSize then assigned (sTokenCacheMaxSize sc) := maxSize else sc
  | WithGlobalTokenIssuanceRate rate =>
      let rate := if SFltb rate (f64 0) then f64 0 else rate in assigned (sGlobalTokenIssuanceRate sc) := rate
  | WithGlobalTokenIssuanceBurst burst => if SFltb (f64 0) burst then assigned (sGlobalTokenIssuanceBurst sc) := burst else sc
  | WithFirstSightRequired required => assigned (sFirstSightRequired sc) := required
  | WithFirstSightWindow window => if 0 <? window then assigned (sFirstSightWindow sc) := window else sc
  | WithFirstSightMaxEntries maxEntries => if 0 <? maxEntries then assigned (sFirstSightMaxEntries sc) := maxEntries else sc
  | WithModifiers modifiers => assigned (sModifiers sc) := modifiers
  | WithRouterInfoValidator validator => assigned (sRouterInfoValidator sc) := validator
  end.

(** ** Validation *)

Definition ssu2_validateBasicConfiguration (sc : SSU2Config U) : option SSU2ConfigError := ESettings <$> ValidatePattern (sPattern sc).

Definition ssu2_validateCryptographicParameters (sc : SSU2Config U) : option SSU2ConfigError :=
  RunValidators
    [ ESettings <$> ValidateKeyLength (sStaticKey sc);
      if sInitiator sc && bool_decide (length (sRemoteStaticKey sc) = 0%nat) then Some EMissingRemoteStaticKey else None;
      if sInitiator sc && negb (bool_decide (length (sRemoteStaticKey sc) = 0%nat)) && negb (bool_decide (length (sRemoteStaticKey sc) = 32%nat))
        then Some (EInvalidRemoteStaticKey (zlen (sRemoteStaticKey sc))) else None;
      match sObfuscationIV sc with
      | Some iv => if decide (length iv = 8%nat) then None else Some (EInvalidObfuscationIV (zlen iv))
      | None => None
      end;
      if negb (sInitiator sc) && negb (bool_decide (is_Some (sRouterInfoValidator sc))) then Some EMissingRouterInfoValidator else None ].

Definition ssu2_validateTimeoutConfiguration (sc : SSU2Config U) : option SSU2ConfigError :=
  RunValidators
    [ ESettings <$> ValidateTransportConfig (sHandshakeTimeout sc) (sHandshakeRetries sc) (sRetryBackoff sc);
      if sKeepaliveInterval sc <=? 0 then Some EInvalidKeepaliveInterval else None ].

Definition validateUDPConfiguration (sc : SSU2Config U) : option SSU2ConfigError :=
  RunValidators
    [ if (sMTU sc <? 1280) || (1500 <? sMTU sc) then Some EInvalidMTU else None;
      if sMaxPacketSize sc <=? 0 then Some EInvalidMaxPacketSize else None;
      if sMaxPacketSize sc <? sMTU sc then Some EPacketSizeLessThanMTU else None ].

Definition validatePaddingConfiguration (sc : SSU2Config U) : option SSU2ConfigError :=
  RunValidators
    [ EPadding <$> ValidatePaddingRange (sMinPaddingSize sc) (sMaxPaddingSize sc);
      if SFltb (sPaddingRatio sc) (f64 0) || SFltb f64_15_9375 (sPaddingRatio sc) then Some EInvalidPaddingRatio else None ].

Definition validateTokenConfiguration (sc : SSU2Config U) : option SSU2ConfigError :=
  if sRequireRetry sc && SFleb (sGlobalTokenIssuanceRate sc) (f64 0) then Some EInvalidTokenConfig else None.

Definition SSU2_Validate (sc : SSU2Config U) : option SSU2ConfigError :=
  RunValidators
    [ ssu2_validateBasicConfiguration sc; ssu2_validateCryptographicParameters sc; ssu2_validateTimeoutConfiguration sc;
      validateUDPConfiguration sc; validatePaddingConfiguration sc; validateTokenConfiguration sc ].

(** ** The modifiers of a Noise connection *)

(** An interface value of the dynamic types that the settings create. *)
Abbreviation SSU2Modifier := (ChaChaObfuscationModifier + (SSU2PaddingModifier + U))%type.

Definition createChaChaModifierIfEnabled (sc : SSU2Config U) : result SSU2ConfigError (option ChaChaObfuscationModifier) :=
  if negb (sEnableChaChaObfuscation sc) then Ok None
  else
    let key := if sInitiator sc && bool_decide (length (sRemoteIntroKey sc) = 32%nat) then sRemoteIntroKey sc
               else if negb (sInitiator sc) && bool_decide (length (sIntroKey sc) = 32%nat) then sIntroKey sc
               else sRouterHash sc in
    match NewChaChaObfuscationModifier "ssu2-chacha" key with
    | Err e => Err e
    | Ok m => Ok (Some m)
    end.

Definition ssu2_createPaddingModifierIfEnabled (sc : SSU2Config U) : result SSU2ConfigError (option SSU2PaddingModifier) :=
  if negb (sPaddingEnabled sc) then Ok None
  else
    match NewSSU2PaddingModifierWithMTU "ssu2-padding" (sMinPaddingSize sc) (sMaxPaddingSize sc) (sMTU sc) true (sPaddingRatio sc) with
    | Err e => Err (EPaddingModifier e)
    | Ok m => Ok (Some m)
    end.

Definition setupSSU2Modifiers (sc : SSU2Config U) : result SSU2ConfigError (list SSU2Modifier) :=
  match createChaChaModifierIfEnabled sc with
  | Err e => Err e
  | Ok chacha =>
      match ssu2_createPaddingModifierIfEnabled sc with
      | Err e => Err e
      | Ok padding => Ok ((inl <$> option_list chacha) ++ (inr ∘ inl <$> option_list padding) ++ (inr ∘ inr <$> sModifiers sc))
      end
  end.

Definition ssu2_createBaseConnConfig (sc : SSU2Config U) : ConnConfig :=
  mkConnConfig (sPattern sc) (sInitiator sc) (sStaticKey sc) [] (sHandshakeTimeout sc) (sHandshakeRetries sc) (sRetryBackoff sc).

Definition SSU2_ToConnConfig (sc : SSU2Config U) : result SSU2ConfigError (ConnConfig * list SSU2Modifier) :=
  match SSU2_Validate sc with
  | Some e => Err e
  | None =>
      match setupSSU2Modifiers sc with
      | Err e => Err e
      | Ok ms => Ok (ssu2_createBaseConnConfig sc, ms)
      end
  end.
End Settings.

(** ** Addresses *)

Section Addresses.
Context {Addr : Type}.

Record SSU2Addr := mkSSU2Addr {
  underlying : Addr;
  routerHash : bytes;
  connectionID : Z;
  role : string;
  destHash : option bytes;
  introducerAddr : option Addr;
}.

Definition NewSSU2Addr (underlying : option Addr) (routerHash : bytes) (connID : Z) (role : string) : result SSU2ConfigError SSU2Addr :=
  match underlying with
  | None => Err EInvalidUnderlyingAddr
  | Some underlying =>
      if connID =? 0 then Err EInvalidConnectionID
      else if negb (bool_decide (role = "initiator"%string)) && negb (bool_decide (role = "responder"%string)) then Err (EInvalidRole role)
      else Ok (mkSSU2Addr underlying routerHash connID role None None)
  end.

Definition WithDestinationHash (sa : SSU2Addr) (hash : bytes) : SSU2Addr :=
  mkSSU2Addr (underlying sa) (routerHash sa) (connectionID sa) (role sa) (Some hash) (introducerAddr sa).

Definition WithIntroducer (sa : SSU2Addr) (introducer : option Addr) : result SSU2ConfigError SSU2Addr :=
  match introducer with
  | None => Err EInvalidIntroducerAddr
  | Some i => Ok (mkSSU2Addr (underlying sa) (routerHash sa) (connectionID sa) (role sa) (destHash sa) (Some i))
  end.

Definition UpdateRouterHash (sa : SSU2Addr) (hash : bytes) : SSU2Addr :=
  mkSSU2Addr (underlying sa) hash (connectionID sa) (role sa) (destHash sa) (introducerAddr sa).
End Addresses.
Arguments SSU2Addr : clear implicits.

(** [GenerateConnectionID]: the loop until a read of the random source is not zero. A
    failed read is [None]. *)
Fixpoint GenerateConnectionID (reads : list (option bytes)) : result SSU2ConfigError Z :=
  match reads with
  | [] => Err ERandomExhausted
  | None :: _ => Err ERandomGenerationFailed
  | Some buf :: reads => let id := be_decode (slice 0 8 buf) in if id =? 0 then GenerateConnectionID reads else Ok id
  end.

Lemma connection_id_range reads id : GenerateConnectionID reads = Ok id -> 0 < id < 2 ^ 64.
Proof.
  induction reads as [|[buf|] reads IH]; [done| |done]. cbn [GenerateConnectionID].
  destruct (Z.eqb_spec (be_decode (slice 0 8 buf)) 0) as [|Hne]; [done|]. intros <-%Ok_inj.
  pose proof (be_decode_bound (slice 0 8 buf)) as [Hlo Hhi].
  assert (256 ^ zlen (slice 0 8 buf) <= 256 ^ 8).
  { apply Z.pow_le_mono_r; [done|]. unfold zlen. assert (length (slice 0 8 buf) <= 8)%nat by (unfold slice; rewrite length_take; lia). lia. }
  change (256 ^ 8) with (2 ^ 64) in *. lia.
Qed.

(** ** Obfuscated keys are recovered *)

Section ChaChaCorrect.
Context {W : Type} `{ChaCha20Lib}.

#[export, refine] Instance chacha_correct : ModifierCorrect W ChaChaObfuscationModifier := {|
  paired s r := introKey s = introKey r /\ chachaClosed r = false;
  correct_in _ := True;
|}.
Proof.
  - intros s w phase data s' w' out [= <- <- Ho]. unfold chacha_modify, applyChacha in Ho.
    destruct (_ && _); [done|]. destruct (_ || _); [|by apply Ok_inj in Ho as <-]. destruct (chachaClosed s); [done|].
    destruct (key_stream _ _ _ _) as [ks|] eqn:E; [|done]. apply Ok_inj in Ho as <-. apply key_stream_length in E.
    unfold zlen. rewrite length_zip_with. lia.
  - intros s r w phase data s' w' out _ [Hk Hc] [= <- <- Ho] _. exists r. split; [|done]. cbn [ModifyInbound chacha_modifier]. f_equal.
    unfold chacha_modify, applyChacha in *. destruct (_ && _) eqn:El; [done|]. destruct (_ || _) eqn:Ep.
    + destruct (chachaClosed s); [done|]. destruct (key_stream (introKey s) _ _ _) as [ks|] eqn:E; [|done]. apply Ok_inj in Ho as <-.
      pose proof (key_stream_length _ _ _ _ _ E) as Hl. assert (Hlen : length (zip_with byte_xor data ks) = length data) by (rewrite length_zip_with; lia).
      rewrite Hlen, El, Hc, <- Hk, E. by rewrite zip_xor_cancel.
    + apply Ok_inj in Ho as <-. by rewrite El.
Qed.
End ChaChaCorrect.

(** The length is checked before the phase, so the third message of a handshake, which is
    not to be obfuscated, is refused. *)
Lemma chacha_refuses_message3 `{ChaCha20Lib} (com : ChaChaObfuscationModifier) (data : bytes) :
  length data <> 32%nat -> length data <> 48%nat -> chacha_modify com PhaseFinal data = Err (EInvalidChaChaLength (zlen data)).
Proof. intros H1 H2. unfold chacha_modify. by rewrite !bool_decide_eq_false_2. Qed.

(** ** What the builder methods ensure *)

Section Built.
Context {U : Type} (hash : bytes) (init : bool).

Definition key_or_none (k : bytes) : Prop := length k = 0%nat \/ length k = 32%nat.

Record built (sc : SSU2Config U) : Prop := {
  built_hash : sRouterHash sc = hash;
  built_init : sInitiator sc = init;
  built_static : key_or_none (sStaticKey sc);
  built_remote : key_or_none (sRemoteStaticKey sc);
  built_iv : forall iv, sObfuscationIV sc = Some iv -> length iv = 8%nat;
  built_mtu : 1280 <= sMTU sc <= 1500;
  built_packet : 0 < sMaxPacketSize sc;
  built_ratio : SFleb (f64 0) (sPaddingRatio sc) = true /\ SFleb (sPaddingRatio sc) f64_15_9375 = true;
  built_retry : sRequireRetry sc = false;
}.

Lemma new_built : built (NewSSU2Config hash init).
Proof. split; cbn; try done; by left. Qed.

Lemma build_built sc b : built sc -> built (build sc b).
Proof.
  intros Hb. destruct b; cbv beta iota delta [build]; cbv zeta;
    repeat case_match; try exact Hb;
    (split; [exact (built_hash sc Hb)|exact (built_init sc Hb)|
       first [exact (built_static sc Hb)|by right]|first [exact (built_remote sc Hb)|by right]|
       first [exact (built_iv sc Hb)|by intros iv [= <-]]|
       first [exact (built_mtu sc Hb)|cbn [sMTU]; bool_props; lia]|
       first [exact (built_packet sc Hb)|cbn [sMaxPacketSize set_fragmentation]; bool_props; lia]|
       first [exact (built_ratio sc Hb)|by apply andb_true_iff]|exact (built_retry sc Hb)]).
Qed.

Lemma foldl_built bs : forall sc, built sc -> built (foldl build sc bs).
Proof. induction bs as [|b bs IH]; intros sc Hsc; [done|]. cbn. by apply IH, build_built. Qed.
End Built.

(** ** Accepted settings *)

Lemma run_none {E} (v : option E) (vs : list (option E)) : RunValidators (v :: vs) = None <-> v = None /\ RunValidators vs = None.
Proof. destruct v; cbn; naive_solver. Qed.

Lemma if_none {E} (b : bool) (e : E) : (if b then Some e else None) = None <-> b = false.
Proof. by destruct b. Qed.

Section Accepted.
Context {U : Type}.

(** The ranges that the comments of [SSU2Config] give for the fields. *)
Record acceptable (sc : SSU2Config U) : Prop := {
  acc_pattern : sPattern sc <> ""%string;
  acc_static : key_or_none (sStaticKey sc);
  acc_remote : sInitiator sc = true -> length (sRemoteStaticKey sc) = 32%nat;
  acc_iv : forall iv, sObfuscationIV sc = Some iv -> length iv = 8%nat;
  acc_validator : sInitiator sc = false -> is_Some (sRouterInfoValidator sc);
  acc_timeouts : 0 < sHandshakeTimeout sc /\ -1 <= sHandshakeRetries sc /\ 0 <= sRetryBackoff sc /\ 0 < sKeepaliveInterval sc;
  acc_sizes : 1280 <= sMTU sc <= 1500 /\ sMTU sc <= sMaxPacketSize sc;
  acc_padding : 0 <= sMinPaddingSize sc <= sMaxPaddingSize sc;
  acc_ratio : SFltb (sPaddingRatio sc) (f64 0) = false /\ SFltb f64_15_9375 (sPaddingRatio sc) = false;
  acc_tokens : sRequireRetry sc = true -> SFleb (sGlobalTokenIssuanceRate sc) (f64 0) = false;
}.

Lemma key_length_valid k : ValidateKeyLength k = None <-> key_or_none k.
Proof.
  unfold ValidateKeyLength, key_or_none, zlen. rewrite if_none, andb_false_iff, negb_false_iff, Z.ltb_ge, Z.eqb_eq.
  split; (intros [?|?]; [left|right]; lia).
Qed.

Lemma crypto_valid (sc : SSU2Config U) :
  ssu2_validateCryptographicParameters sc = None
  <-> key_or_none (sStaticKey sc) /\ (sInitiator sc = true -> length (sRemoteStaticKey sc) = 32%nat)
      /\ (forall iv, sObfuscationIV sc = Some iv -> length iv = 8%nat) /\ (sInitiator sc = false -> is_Some (sRouterInfoValidator sc)).
Proof.
  unfold ssu2_validateCryptographicParameters. rewrite !run_none, fmap_None, key_length_valid, !if_none.
  assert (match sObfuscationIV sc with Some iv => if decide (length iv = 8%nat) then None else Some (EInvalidObfuscationIV (zlen iv)) | None => None end = None
    <-> forall iv, sObfuscationIV sc = Some iv -> length iv = 8%nat) as ->.
  { destruct (sObfuscationIV sc) as [iv|]; [case_decide|]; naive_solver. }
  destruct (sInitiator sc); cbn; repeat case_bool_decide; naive_solver lia.
Qed.

Lemma timeout_valid (sc : SSU2Config U) :
  ssu2_validateTimeoutConfiguration sc = None
  <-> 0 < sHandshakeTimeout sc /\ -1 <= sHandshakeRetries sc /\ 0 <= sRetryBackoff sc /\ 0 < sKeepaliveInterval sc.
Proof.
  unfold ssu2_validateTimeoutConfiguration. rewrite !run_none, if_none, Z.leb_gt, fmap_None. unfold ValidateTransportConfig.
  rewrite !run_none. unfold ValidateHandshakeTimeout, ValidateRetryConfig. rewrite if_none, Z.leb_gt.
  destruct (Z.ltb_spec (sHandshakeRetries sc) (-1)); [|rewrite if_none, Z.ltb_ge]; cbn; split; intros; destruct_and?; split_and?; (done || lia).
Qed.

Lemma padding_valid (sc : SSU2Config U) :
  validatePaddingConfiguration sc = None
  <-> 0 <= sMinPaddingSize sc <= sMaxPaddingSize sc /\ SFltb (sPaddingRatio sc) (f64 0) = false /\ SFltb f64_15_9375 (sPaddingRatio sc) = false.
Proof.
  unfold validatePaddingConfiguration. rewrite !run_none, if_none, orb_false_iff, fmap_None.
  unfold ValidatePaddingRange. destruct (Z.ltb_spec (sMinPaddingSize sc) 0); [|rewrite if_none, Z.ltb_ge]; cbn; split; intros; destruct_and?; split_and?; (done || lia).
Qed.

Lemma sizes_valid (sc : SSU2Config U) :
  validateUDPConfiguration sc = None <-> 1280 <= sMTU sc <= 1500 /\ sMTU sc <= sMaxPacketSize sc.
Proof.
  unfold validateUDPConfiguration. rewrite !run_none, !if_none, orb_false_iff, !Z.ltb_ge, Z.leb_gt.
  cbn. split; intros; destruct_and?; split_and?; (done || lia).
Qed.

Lemma validate_exact (sc : SSU2Config U) : SSU2_Validate sc = None <-> acceptable sc.
Proof.
  unfold SSU2_Validate. rewrite !run_none, crypto_valid, timeout_valid, sizes_valid, padding_valid.
  unfold ssu2_validateBasicConfiguration, ValidatePattern, validateTokenConfiguration. rewrite fmap_None, if_none, andb_false_iff.
  split.
  - intros (Hp & (H1 & H2 & H3 & H4) & H5 & H6 & (H7 & H8) & H9 & _). split; try done; [by case_decide|].
    intros Hr. destruct H9; [congruence|done].
  - intros [Hp H1 H2 H3 H4 H5 H6 H7 H8 H9]. split_and!; try done; try tauto; [by rewrite decide_False|].
    destruct (sRequireRetry sc); [right; by apply H9|by left].
Qed.

(** The key of the obfuscation: the introduction key of the responder where it is known,
    and otherwise the hash of the own router. *)
Definition obfuscation_key (sc : SSU2Config U) : bytes :=
  let intro := if sInitiator sc then sRemoteIntroKey sc else sIntroKey sc in
  if decide (length intro = 32%nat) then intro else sRouterHash sc.

(** The modifiers of accepted settings, in their order. *)
Definition expected_modifiers (sc : SSU2Config U) : list (ChaChaObfuscationModifier + (SSU2PaddingModifier + U)) :=
  (if sEnableChaChaObfuscation sc then [inl (mkChaCha false "ssu2-chacha" (obfuscation_key sc))] else [])
  ++ (if sPaddingEnabled sc
      then [inr (inl (mkSSU2Padding "ssu2-padding" (mkEngine (sMinPaddingSize sc) (sMaxPaddingSize sc) (sPaddingRatio sc) false) true (sMTU sc)))]
      else [])
  ++ (inr ∘ inr <$> sModifiers sc).

Lemma chacha_created (sc : SSU2Config U) :
  length (sRouterHash sc) = 32%nat ->
  createChaChaModifierIfEnabled sc
  = Ok (if sEnableChaChaObfuscation sc then Some (mkChaCha false "ssu2-chacha" (obfuscation_key sc)) else None).
Proof.
  intros Hh. unfold createChaChaModifierIfEnabled, obfuscation_key, NewChaChaObfuscationModifier. destruct (sEnableChaChaObfuscation sc); [|done].
  cbn [negb]. destruct (sInitiator sc); cbn [negb andb]; repeat case_bool_decide; repeat case_decide; cbn [negb]; (done || congruence).
Qed.

Lemma padding_created (sc : SSU2Config U) :
  acceptable sc ->
  ssu2_createPaddingModifierIfEnabled sc
  = if sPaddingEnabled sc then
      if I2PMaxBlockDataSize <? sMaxPaddingSize sc then Err (EPaddingModifier EMaxTooLarge)
      else Ok (Some (mkSSU2Padding "ssu2-padding" (mkEngine (sMinPaddingSize sc) (sMaxPaddingSize sc) (sPaddingRatio sc) false) true (sMTU sc)))
    else Ok None.
Proof.
  intros [_ _ _ _ _ _ [Hmtu _] Hp [Hr1 Hr2] _]. unfold ssu2_createPaddingModifierIfEnabled, NewSSU2PaddingModifierWithMTU, NewPaddingEngine.
  unfold ValidatePaddingParams, validateMTU, minMTU, maxMTU. cbn [MinPadding MaxPadding PaddingRatio]. destruct (sPaddingEnabled sc); [|done]. cbn [negb].
  rewrite (proj2 (Z.ltb_ge _ _)) by lia. rewrite (proj2 (Z.ltb_ge _ _)) by lia.
  change f64_zero with (f64 0). change I2PMaxPaddingRatio with f64_15_9375. rewrite Hr1, Hr2. cbn [orb].
  rewrite (proj2 (Z.ltb_ge (sMTU sc) _)), (proj2 (Z.ltb_ge 1500 _)) by lia. cbn [orb]. by destruct (_ <? _).
Qed.

End Accepted.

(** The settings of a Noise connection do not carry the key of the responder, which the
    pattern XK needs. *)
Lemma remote_key_dropped {U} (sc : SSU2Config U) cc ms : SSU2_ToConnConfig sc = Ok (cc, ms) -> RemoteKey cc = [].
Proof.
  unfold SSU2_ToConnConfig. destruct (SSU2_Validate sc); [done|]. destruct (setupSSU2Modifiers sc); [|done]. by intros [= <- _]%Ok_inj.
Qed.

(** Accepted settings whose padding no modifier takes. *)
Lemma padding_limit_not_validated :
  let sc := foldl build (@NewSSU2Config unit (replicate 32 x07) true) [WithRemoteStaticKey (replicate 32 x01); WithPaddingSettings true 0 70000 (f64 1)] in
  SSU2_Validate sc = None /\ SSU2_ToConnConfig sc = Err (EPaddingModifier EMaxTooLarge).
Proof. vm_compute. done. Qed.
