(* ===== verification/RatchetPayload.v ===== *)
(** * Ratchet payloads

    [ratchet/payload.go] and [ratchet/payload_builder.go]: the blocks of an
    ECIES-X25519-AEAD-Ratchet payload, their builder and parser. *)

From Stdlib Require Import ZArith Lia.
From Stdlib Require Import Strings.Byte.
From stdpp Require Import base numbers list.
From S2P Require Import Prelude.

#[local] Open Scope Z_scope.

(** ** Blocks *)

Definition BlockDateTime : byte := x00.
Definition BlockTermination : byte := x04.
Definition BlockOptions : byte := x05.
Definition BlockMessageNumber : byte := x06.
Definition BlockNextKey : byte := x07.
Definition BlockAck : byte := x08.
Definition BlockAckRequest : byte := x09.
Definition BlockGarlicClove : byte := x0b.
Definition BlockPadding : byte := xfe.

Definition blockHeaderSize : Z := 3.
Definition maxBlockDataSize : Z := 65516.
Definition maxPayloadSize : Z := 65519.

Definition NextKeyFlagKeyPresent : Z := Z.shiftl 1 0.
Definition NextKeyFlagReverse : Z := Z.shiftl 1 1.
Definition NextKeyFlagRequestReverse : Z := Z.shiftl 1 2.

Record PayloadBlock := mkPayloadBlock {
  Type_ : byte;
  Data : bytes;
}.

Record AckEntry := mkAckEntry {
  TagSetID : Z;
  N_ : Z;
}.

Record NextKeyInfo := mkNextKeyInfo {
  KeyPresent : bool;
  Reverse : bool;
  RequestReverse : bool;
  KeyID : Z;
  PublicKey : bytes;       (* 32 bytes, zero unless KeyPresent *)
}.

Inductive PayloadError :=
| EWrongType (t : byte)
| EWrongLength (len : Z)
| EKeyMissing
| EBufferTooSmall
| EBlockTooLarge (len : Z)
| EOptionsBlock
| EMultiplePadding
| EPaddingNotLast
| ETerminationNotLast
| EPayloadTooLarge (len : Z)
| ETruncatedHeader
| ETruncatedData
| EEmptyPayload
| EFirstBlockType (t : byte).

Definition NewDateTimeBlock (unix : Z) : PayloadBlock :=
  mkPayloadBlock BlockDateTime (be_encode 4 (u32 unix)).

Definition NewTerminationBlock (reason : byte) (additionalData : bytes) : PayloadBlock :=
  mkPayloadBlock BlockTermination (reason :: additionalData).

Definition NewMessageNumberBlock (pn : Z) : PayloadBlock :=
  mkPayloadBlock BlockMessageNumber (be_encode 2 pn).

Definition NewNextKeyBlock (keyID : Z) (pubKey : option bytes) (reverse requestReverse : bool)
    : PayloadBlock :=
  let flags := match pubKey with Some _ => NextKeyFlagKeyPresent | None => 0 end in
  let flags :=
    if reverse then Z.lor flags NextKeyFlagReverse
    else if requestReverse then Z.lor flags NextKeyFlagRequestReverse
    else flags in
  mkPayloadBlock BlockNextKey
    (z2b flags :: be_encode 2 keyID ++ match pubKey with Some k => k | None => [] end).

Definition NewAckBlock (acks : list AckEntry) : PayloadBlock :=
  mkPayloadBlock BlockAck
    (concat ((fun ack => be_encode 2 (TagSetID ack) ++ be_encode 2 (N_ ack)) <$> acks)).

Definition NewAckRequestBlock (flags : byte) : PayloadBlock := mkPayloadBlock BlockAckRequest [flags].

Definition NewGarlicCloveBlock (cloveData : bytes) : PayloadBlock :=
  mkPayloadBlock BlockGarlicClove cloveData.

Definition NewPaddingBlock (size : Z) : PayloadBlock :=
  mkPayloadBlock BlockPadding (replicate (Z.to_nat size) x00).

Definition DateTime (b : PayloadBlock) : result PayloadError Z :=
  if decide (Type_ b <> BlockDateTime) then Err (EWrongType (Type_ b))
  else if decide (length (Data b) <> 4%nat) then Err (EWrongLength (zlen (Data b)))
  else Ok (be_decode (Data b)).

Definition TerminationInfo (b : PayloadBlock) : result PayloadError (byte * bytes) :=
  if decide (Type_ b <> BlockTermination) then Err (EWrongType (Type_ b))
  else match Data b with
       | [] => Err (EWrongLength 0)
       | reason :: rest => Ok (reason, rest)
       end.

Definition MessageNumber (b : PayloadBlock) : result PayloadError Z :=
  if decide (Type_ b <> BlockMessageNumber) then Err (EWrongType (Type_ b))
  else if decide (length (Data b) <> 2%nat) then Err (EWrongLength (zlen (Data b)))
  else Ok (be_decode (Data b)).

Definition NextKey (b : PayloadBlock) : result PayloadError NextKeyInfo :=
  if decide (Type_ b <> BlockNextKey) then Err (EWrongType (Type_ b))
  else if decide (length (Data b) <> 3%nat /\ length (Data b) <> 35%nat)
  then Err (EWrongLength (zlen (Data b)))
  else
    let flags := byte_at (Data b) 0 in
    let present := negb (Z.land flags NextKeyFlagKeyPresent =? 0) in
    let info key :=
      mkNextKeyInfo present (negb (Z.land flags NextKeyFlagReverse =? 0))
        (negb (Z.land flags NextKeyFlagRequestReverse =? 0))
        (be_decode (slice 1 3 (Data b))) key in
    if present then
      if decide (length (Data b) < 35)%nat then Err EKeyMissing
      else Ok (info (slice 3 35 (Data b)))
    else Ok (info (replicate 32 x00)).

Fixpoint parse_acks (count : nat) (data : bytes) : list AckEntry :=
  match count with
  | O => []
  | S count =>
      mkAckEntry (be_decode (slice 0 2 data)) (be_decode (slice 2 4 data))
        :: parse_acks count (drop 4 data)
  end.

Definition Acks (b : PayloadBlock) : result PayloadError (list AckEntry) :=
  if decide (Type_ b <> BlockAck) then Err (EWrongType (Type_ b))
  else if decide ((length (Data b) mod 4)%nat <> 0%nat \/ (length (Data b) < 4)%nat)
  then Err (EWrongLength (zlen (Data b)))
  else Ok (parse_acks (length (Data b) / 4) (Data b)).

Definition SerializeSize (b : PayloadBlock) : Z := blockHeaderSize + zlen (Data b).

(** [Serialize] into a buffer of [dst] bytes: the bytes written at its start. *)
Definition Serialize (b : PayloadBlock) (dst : Z) : result PayloadError bytes :=
  if dst <? SerializeSize b then Err EBufferTooSmall
  else if maxBlockDataSize <? zlen (Data b) then Err (EBlockTooLarge (zlen (Data b)))
  else Ok (Type_ b :: be_encode 2 (u16 (zlen (Data b))) ++ Data b).

(** ** Builder *)

(** The loop of [validate]: the indices of the last padding and the last
    termination block (-1 where there is none). *)
Fixpoint validate_loop (blocks : list PayloadBlock) (i paddingCount terminationIdx paddingIdx : Z)
    : result PayloadError (Z * Z) :=
  match blocks with
  | [] => Ok (terminationIdx, paddingIdx)
  | b :: rest =>
      if decide (Type_ b = BlockOptions) then Err EOptionsBlock
      else if decide (Type_ b = BlockPadding) then
        if 1 <? paddingCount + 1 then Err EMultiplePadding
        else validate_loop rest (i + 1) (paddingCount + 1) terminationIdx i
      else if decide (Type_ b = BlockTermination)
      then validate_loop rest (i + 1) paddingCount i paddingIdx
      else validate_loop rest (i + 1) paddingCount terminationIdx paddingIdx
  end.

Definition validate (blocks : list PayloadBlock) : option PayloadError :=
  match blocks with
  | [] => None
  | _ =>
      match validate_loop blocks 0 0 (-1) (-1) with
      | Err e => Some e
      | Ok (terminationIdx, paddingIdx) =>
          if (0 <=? paddingIdx) && negb (paddingIdx =? zlen blocks - 1) then Some EPaddingNotLast
          else if 0 <=? terminationIdx then
            let expectedLast := if 0 <=? paddingIdx then zlen blocks - 2 else zlen blocks - 1 in
            if negb (terminationIdx =? expectedLast) then Some ETerminationNotLast else None
          else None
      end
  end.

Fixpoint build_loop (blocks : list PayloadBlock) (room : Z) : result PayloadError bytes :=
  match blocks with
  | [] => Ok []
  | b :: rest =>
      match Serialize b room with
      | Err e => Err e
      | Ok bs =>
          match build_loop rest (room - zlen bs) with
          | Err e => Err e
          | Ok more => Ok (bs ++ more)
          end
      end
  end.

Definition total_size (blocks : list PayloadBlock) : Z :=
  foldr (fun b n => SerializeSize b + n) 0 blocks.

Definition Build (blocks : list PayloadBlock) : result PayloadError bytes :=
  match validate blocks with
  | Some e => Err e
  | None =>
      let totalSize := total_size blocks in
      if maxPayloadSize <? totalSize then Err (EPayloadTooLarge totalSize)
      else build_loop blocks totalSize
  end.

(** ** Parser *)

Fixpoint parse_loop (fuel : nat) (data : bytes) : result PayloadError (list PayloadBlock) :=
  match data with
  | [] => Ok []
  | _ =>
      match fuel with
      | O => Err ETruncatedHeader
      | S fuel =>
          if decide (length data < 3)%nat then Err ETruncatedHeader
          else
            let blockType := default x00 (data !! 0%nat) in
            let blockLen := Z.to_nat (be_decode (slice 1 3 data)) in
            let rest := drop 3 data in
            if decide (length rest < blockLen)%nat then Err ETruncatedData
            else
              match parse_loop fuel (drop blockLen rest) with
              | Err e => Err e
              | Ok blocks => Ok (mkPayloadBlock blockType (take blockLen rest) :: blocks)
              end
      end
  end.

(** Each block takes at least three bytes: the length is enough fuel. *)
Definition ParsePayload (data : bytes) : result PayloadError (list PayloadBlock) :=
  parse_loop (length data) data.

Definition FindBlocks (blocks : list PayloadBlock) (t : byte) : list PayloadBlock :=
  List.filter (fun b => bool_decide (Type_ b = t)) blocks.

Fixpoint FindBlock (blocks : list PayloadBlock) (t : byte) : option PayloadBlock :=
  match blocks with
  | [] => None
  | b :: rest => if decide (Type_ b = t) then Some b else FindBlock rest t
  end.

Definition ValidateNewSessionPayload (payload : bytes) : option PayloadError :=
  if decide (length payload = 0%nat) then Some EEmptyPayload
  else
    match ParsePayload payload with
    | Err e => Some e
    | Ok [] => Some EEmptyPayload
    | Ok (b :: _) => if decide (Type_ b <> BlockDateTime) then Some (EFirstBlockType (Type_ b)) else None
    end.

Definition NewSessionPayloadBuilder (unix : Z) : list PayloadBlock := [NewDateTimeBlock unix].

Definition BuildNSPayload (garlicData : bytes) (unix : Z) : result PayloadError bytes :=
  Build (NewSessionPayloadBuilder unix ++ [mkPayloadBlock BlockGarlicClove garlicData]).

(** ** Build and parse *)

Definition block_bytes (b : PayloadBlock) : bytes :=
  Type_ b :: be_encode 2 (zlen (Data b)) ++ Data b.

Lemma length_block_bytes b : length (block_bytes b) = (3 + length (Data b))%nat.
Proof. unfold block_bytes. cbn [length]. rewrite length_app, length_be_encode. lia. Qed.

Lemma parse_loop_block b rest fuel :
  zlen (Data b) < 65536 ->
  parse_loop (S fuel) (block_bytes b ++ rest)
  = match parse_loop fuel rest with Err e => Err e | Ok blocks => Ok (b :: blocks) end.
Proof.
  intros Hb. pose proof (length_block_bytes b) as Hl. pose proof (zlen_nonneg (Data b)).
  unfold block_bytes. cbn [app parse_loop]. rewrite decide_False
    by (cbn [length]; rewrite !length_app, length_be_encode; lia).
  rewrite <- app_assoc. assert (Hs : forall l, slice 1 3 (Type_ b :: l) = slice 0 2 l) by done.
  assert (Hd : forall l, drop 3 (Type_ b :: l) = drop 2 l) by done.
  rewrite Hs, Hd, slice_prefix by (by rewrite length_be_encode).
  rewrite be_decode_encode_small by (cbn; lia).
  rewrite (drop_app_length' (be_encode 2 (zlen (Data b)))) by (by rewrite length_be_encode).
  unfold zlen. rewrite Nat2Z.id. rewrite decide_False by (rewrite length_app; lia).
  rewrite drop_app_length, take_app_length. cbn. by destruct b.
Qed.

Lemma parse_concat bs fuel :
  Forall (fun b => zlen (Data b) < 65536) bs -> (length (concat (block_bytes <$> bs)) <= fuel)%nat ->
  parse_loop fuel (concat (block_bytes <$> bs)) = Ok bs.
Proof.
  intros Hf. revert fuel. induction Hf as [|b bs Hb Hf IH]; intros fuel Hl; [by destruct fuel|].
  cbn [fmap list_fmap concat] in *. rewrite length_app, length_block_bytes in Hl.
  destruct fuel as [|fuel]; [lia|]. rewrite parse_loop_block by done. by rewrite IH by lia.
Qed.

Lemma build_loop_ok bs room out :
  build_loop bs room = Ok out ->
  out = concat (block_bytes <$> bs) /\ Forall (fun b => zlen (Data b) <= maxBlockDataSize) bs.
Proof.
  revert room out. induction bs as [|b bs IH]; intros room out; cbn [build_loop].
  { intros <-%Ok_inj. by split; [|constructor]. }
  unfold Serialize. case_ifs; try done. destruct (build_loop bs _) as [more|e] eqn:E; [|done].
  intros <-%Ok_inj. destruct (IH _ _ E) as [-> Hf]. pose proof (zlen_nonneg (Data b)).
  unfold maxBlockDataSize in *. rewrite u16_small by (unfold is_u16; lia).
  split; [done|]. by constructor.
Qed.

Lemma total_size_concat bs :
  total_size bs = zlen (concat (block_bytes <$> bs)).
Proof.
  induction bs as [|b bs IH]; [done|]. cbn [total_size foldr fmap list_fmap concat].
  fold (total_size bs). rewrite IH, zlen_app. unfold SerializeSize, blockHeaderSize, zlen.
  rewrite length_block_bytes. lia.
Qed.

Lemma total_size_nonneg bs : 0 <= total_size bs.
Proof. rewrite total_size_concat. apply zlen_nonneg. Qed.

Lemma build_loop_total bs room :
  Forall (fun b => zlen (Data b) <= maxBlockDataSize) bs -> total_size bs <= room ->
  build_loop bs room = Ok (concat (block_bytes <$> bs)).
Proof.
  intros Hf. revert room. induction Hf as [|b bs Hb Hf IH]; intros room Hr; [done|].
  cbn [total_size foldr] in Hr. fold (total_size bs) in Hr. pose proof (total_size_nonneg bs).
  pose proof (zlen_nonneg (Data b)). unfold maxBlockDataSize in *. cbn [build_loop]. unfold Serialize.
  destruct (Z.ltb_spec room (SerializeSize b)); [lia|]. unfold maxBlockDataSize.
  destruct (Z.ltb_spec 65516 (zlen (Data b))); [lia|].
  rewrite u16_small by (unfold is_u16; lia). fold (block_bytes b).
  rewrite IH; [done|]. unfold SerializeSize, blockHeaderSize, zlen in *. rewrite length_block_bytes. lia.
Qed.

(** payloads round-trip: what the builder emits has at most the maximal size
    and parses back into exactly its blocks. *)
Theorem payload_roundtrip (blocks : list PayloadBlock) (out : bytes) :
  Build blocks = Ok out -> zlen out <= maxPayloadSize /\ ParsePayload out = Ok blocks.
Proof.
  unfold Build. destruct (validate blocks); [done|].
  destruct (Z.ltb_spec maxPayloadSize (total_size blocks)); [done|].
  intros [-> Hf]%build_loop_ok. split; [by rewrite <- total_size_concat|].
  apply parse_concat; [|done]. eapply Forall_impl; [done|]. unfold maxBlockDataSize. cbn. lia.
Qed.

(** parsing loses nothing: a payload that parses is the concatenation of the
    blocks it parses into, for arbitrary received bytes. *)
Theorem parse_lossless (data : bytes) (blocks : list PayloadBlock) :
  ParsePayload data = Ok blocks -> data = concat (block_bytes <$> blocks).
Proof.
  unfold ParsePayload. generalize (length data) at 1. intros fuel. revert data blocks.
  induction fuel as [|fuel IH]; intros data blocks; destruct data as [|t data]; cbn [parse_loop]; try done;
    [by intros <-%Ok_inj..|].
  destruct data as [|l1 [|l2 tl]]; [by rewrite decide_True by (cbn; lia)..|].
  rewrite decide_False by (cbn; lia).
  change (slice 1 3 (t :: l1 :: l2 :: tl)) with [l1; l2]. cbn [drop]. rewrite drop_0.
  pose proof (be_decode_bound [l1; l2]) as Hb. set (n := Z.to_nat (be_decode [l1; l2])) in *.
  destruct (decide (length tl < n)%nat); [done|].
  destruct (parse_loop fuel (drop n tl)) as [bs|e] eqn:E; [|done]. intros <-%Ok_inj.
  apply IH in E. cbn [fmap list_fmap concat]. rewrite <- E. unfold block_bytes. cbn [Type_ Data].
  assert (Hz : zlen (take n tl) = be_decode [l1; l2]) by (unfold zlen; rewrite length_take; lia).
  rewrite Hz, be_encode_decode by done. cbn [lookup list_lookup default app]. by rewrite take_drop.
Qed.

(** ** Order *)

Definition plain_block (b : PayloadBlock) : Prop :=
  Type_ b <> BlockOptions /\ Type_ b <> BlockPadding.

(** The index of the last termination block, from [i]. *)
Fixpoint last_term (bs : list PayloadBlock) (i ti : Z) : Z :=
  match bs with
  | [] => ti
  | b :: rest => last_term rest (i + 1) (if decide (Type_ b = BlockTermination) then i else ti)
  end.

Lemma validate_loop_plain body rest i pc ti pi :
  Forall plain_block body ->
  validate_loop (body ++ rest) i pc ti pi
  = validate_loop rest (i + zlen body) pc (last_term body i ti) pi.
Proof.
  intros Hf. revert i ti. induction Hf as [|b body [Ho Hp] Hf IH]; intros i ti.
  { cbn. by rewrite zlen_nil, Z.add_0_r. }
  cbn [app validate_loop last_term]. rewrite !decide_False by done. rewrite zlen_cons.
  replace (i + (zlen body + 1)) with (i + 1 + zlen body) by lia.
  destruct (decide (Type_ b = BlockTermination)); apply IH.
Qed.

Lemma validate_loop_padded bs i ti pi t p :
  validate_loop bs i 1 ti pi = Ok (t, p) -> Forall plain_block bs.
Proof.
  revert i ti. induction bs as [|b bs IH]; intros i ti; cbn [validate_loop]; [constructor|].
  case_decide; [done|]. case_decide; [done|]. intros Hv. constructor; [done|].
  destruct (decide (Type_ b = BlockTermination)); by eapply IH.
Qed.

Lemma last_term_spec bs i ti :
  ti < i ->
  (last_term bs i ti = ti /\ Forall (fun b => Type_ b <> BlockTermination) bs
   \/ i <= last_term bs i ti < i + zlen bs /\ Exists (fun b => Type_ b = BlockTermination) bs)
  /\ (last_term bs i ti = i + zlen bs - 1 <->
      (exists t, last bs = Some t /\ Type_ t = BlockTermination) \/ bs = [] /\ ti = i - 1).
Proof.
  revert i ti. induction bs as [|b bs IH]; intros i ti Hi.
  { cbn. rewrite zlen_nil. split; [by left|]. split; [intros; right; split; [done|lia]|].
    intros [(t & ? & _)|[_ ->]]; [done|lia]. }
  cbn [last_term]. rewrite zlen_cons. pose proof (zlen_nonneg bs).
  assert (Hlast : bs <> [] -> last (b :: bs) = last bs) by (by destruct bs).
  destruct (decide (Type_ b = BlockTermination)) as [Hb|Hb].
  - destruct (IH (i + 1) i ltac:(lia)) as [H1 H2]. split.
    + right. split; [destruct H1 as [[-> _]|[? _]]; lia|by left].
    + replace (i + (zlen bs + 1) - 1) with (i + 1 + zlen bs - 1) by lia. rewrite H2. split.
      * intros [(t & Ht & Htt)|[-> _]]; left.
        -- exists t. split; [|done]. rewrite Hlast; [done|]. by intros ->.
        -- by exists b.
      * intros [(t & Ht & Htt)|[? _]]; [|done]. destruct (decide (bs = [])) as [->|Hne].
        -- right. split; [done|lia].
        -- left. exists t. by rewrite <- Hlast.
  - destruct (IH (i + 1) ti ltac:(lia)) as [H1 H2]. split.
    + destruct H1 as [[-> Hf]|[Hr He]]; [left; split; [done|by constructor]|right].
      split; [lia|by right].
    + replace (i + (zlen bs + 1) - 1) with (i + 1 + zlen bs - 1) by lia. rewrite H2. split.
      * intros [(t & Ht & Htt)|[_ ?]]; [|lia]. left. exists t. split; [|done]. rewrite Hlast; [done|].
        by intros ->.
      * intros [(t & Ht & Htt)|[? _]]; [|done]. destruct (decide (bs = [])) as [->|Hne].
        -- cbn in Ht. apply (inj Some) in Ht as <-. done.
        -- left. exists t. by rewrite <- Hlast.
Qed.

(** What [validate] accepts: no options block, padding only as the last block,
    and, if the blocks before the padding contain a termination block, the last
    of them is one. *)
Definition ordered_payload (blocks : list PayloadBlock) : Prop :=
  exists body pad, blocks = body ++ pad /\ Forall plain_block body
  /\ (pad = [] \/ exists p, pad = [p] /\ Type_ p = BlockPadding)
  /\ (Forall (fun b => Type_ b <> BlockTermination) body
      \/ exists t, last body = Some t /\ Type_ t = BlockTermination).

(** The list up to its first block that is not plain. *)
Lemma split_plain (blocks : list PayloadBlock) :
  exists body rest, blocks = body ++ rest /\ Forall plain_block body
    /\ forall b rest', rest = b :: rest' -> ~ plain_block b.
Proof.
  induction blocks as [|b blocks IH]; [exists [], []; split_and!; [done|constructor|done]|].
  destruct (decide (Type_ b = BlockOptions \/ Type_ b = BlockPadding)) as [Hb|Hb].
  - exists [], (b :: blocks). split_and!; [done|constructor|]. intros ? ? [= -> _] [? ?]. tauto.
  - destruct IH as (body & rest & -> & Hf & Hr). exists (b :: body), rest.
    split_and!; [done| |done]. constructor; [split; tauto|done].
Qed.

Definition body_ok (body : list PayloadBlock) : Prop :=
  Forall (fun b => Type_ b <> BlockTermination) body
  \/ exists t, last body = Some t /\ Type_ t = BlockTermination.

Lemma last_term_ok body :
  (last_term body 0 (-1) < 0 \/ last_term body 0 (-1) = zlen body - 1) <-> body_ok body.
Proof.
  destruct (last_term_spec body 0 (-1) ltac:(lia)) as [H1 H2]. unfold body_ok.
  rewrite Z.add_0_l in *. destruct H1 as [[-> Hf]|[Hr He]].
  - split; [by left|]. left. lia.
  - split.
    + intros [?|Heq]; [lia|]. apply H2 in Heq as [Ht|[-> _]]; [by right|]. by apply Exists_nil in He.
    + intros [Hf|Ht]; [|right; apply H2; by left].
      apply Exists_exists in He as (b & Hb & Ht). rewrite Forall_forall in Hf. by apply Hf in Hb.
Qed.

Lemma validate_plain body : Forall plain_block body -> validate body = None <-> body_ok body.
Proof.
  intros Hf. rewrite <- last_term_ok. pose proof (validate_loop_plain body [] 0 0 (-1) (-1) Hf) as Hv.
  rewrite app_nil_r in Hv. cbn [validate_loop] in Hv. unfold validate.
  destruct body as [|b body]; [split; [left; cbn; lia|done]|]. rewrite Hv. cbn [Z.leb Z.compare andb].
  destruct (Z.leb_spec 0 (last_term (b :: body) 0 (-1))); [|split; [left; lia|done]].
  destruct (Z.eqb_spec (last_term (b :: body) 0 (-1)) (zlen (b :: body) - 1)); cbn [negb]; split; try done.
  - by right.
  - intros [?|?]; lia.
Qed.

Lemma validate_unfold l :
  l <> [] -> validate l = match validate_loop l 0 0 (-1) (-1) with
    | Err e => Some e
    | Ok (ti, pi) =>
        if (0 <=? pi) && negb (pi =? zlen l - 1) then Some EPaddingNotLast
        else if 0 <=? ti then
          if negb (ti =? (if 0 <=? pi then zlen l - 2 else zlen l - 1)) then Some ETerminationNotLast
          else None
        else None end.
Proof. by destruct l. Qed.

(** The loop after a body without padding and the first padding block. *)
Lemma validate_loop_at_padding body p rest :
  Forall plain_block body -> Type_ p = BlockPadding ->
  validate_loop (body ++ p :: rest) 0 0 (-1) (-1)
  = validate_loop rest (zlen body + 1) 1 (last_term body 0 (-1)) (zlen body).
Proof.
  intros Hf Hp. rewrite validate_loop_plain by done. cbn [validate_loop].
  by rewrite Hp, decide_False, decide_True by done.
Qed.

Lemma validate_padded body p :
  Forall plain_block body -> Type_ p = BlockPadding ->
  validate (body ++ [p]) = None <-> body_ok body.
Proof.
  intros Hf Hp. rewrite <- last_term_ok, validate_unfold by (by destruct body).
  rewrite validate_loop_at_padding by done. cbn [validate_loop].
  rewrite zlen_app. change (zlen [p]) with 1.
  pose proof (zlen_nonneg body). rewrite (proj2 (Z.leb_le 0 (zlen body))) by lia.
  replace (zlen body + 1 - 1) with (zlen body) by lia. rewrite Z.eqb_refl. cbn [negb andb].
  replace (zlen body + 1 - 2) with (zlen body - 1) by lia.
  destruct (Z.leb_spec 0 (last_term body 0 (-1))); [|split; [left; lia|done]].
  destruct (Z.eqb_spec (last_term body 0 (-1)) (zlen body - 1)); cbn [negb]; split; try done.
  - by right.
  - intros [?|?]; lia.
Qed.

Lemma validate_padding_last body p rest :
  Forall plain_block body -> Type_ p = BlockPadding -> validate (body ++ p :: rest) = None -> rest = [].
Proof.
  intros Hf Hp. rewrite validate_unfold, validate_loop_at_padding by (done || by destruct body).
  destruct (validate_loop rest _ 1 _ _) as [[ti pi]|e] eqn:Er; [|done].
  pose proof (validate_loop_padded _ _ _ _ _ _ Er) as Hfr.
  pose proof (validate_loop_plain rest [] (zlen body + 1) 1 (last_term body 0 (-1)) (zlen body) Hfr) as Hl.
  rewrite app_nil_r, Er in Hl. cbn [validate_loop] in Hl. apply Ok_inj in Hl.
  apply (inj2 pair) in Hl as [_ ->]. pose proof (zlen_nonneg body).
  rewrite (proj2 (Z.leb_le 0 (zlen body))) by lia. rewrite zlen_app, zlen_cons. cbn [andb].
  destruct (Z.eqb_spec (zlen body) (zlen body + (zlen rest + 1) - 1)) as [He|]; [|done].
  intros _. apply nil_length_inv. unfold zlen in *. lia.
Qed.

(** the builder accepts exactly the payloads whose blocks are in order. *)
Theorem validate_spec (blocks : list PayloadBlock) :
  validate blocks = None <-> ordered_payload blocks.
Proof.
  split.
  - intros Hv. destruct (split_plain blocks) as (body & rest & -> & Hf & Hr).
    destruct rest as [|p rest].
    { exists body, []. split_and!; [done|done|by left|]. apply validate_plain; [done|].
      by rewrite app_nil_r in Hv. }
    specialize (Hr p rest eq_refl). destruct (decide (Type_ p = BlockPadding)) as [Hp|Hp].
    + pose proof (validate_padding_last _ _ _ Hf Hp Hv) as ->.
      exists body, [p]. split_and!; [done|done|by right; exists p|]. by apply (validate_padded body p).
    + exfalso. rewrite validate_unfold, validate_loop_plain in Hv by (done || by destruct body).
      cbn [validate_loop] in Hv. destruct (decide (Type_ p = BlockOptions)); [done|]. by apply Hr.
  - intros (body & pad & -> & Hf & [->|(p & -> & Hp)] & Hb).
    + rewrite app_nil_r. by apply validate_plain.
    + by apply validate_padded.
Qed.

(** More than one termination block is accepted. *)
Lemma repeated_termination_accepted :
  validate [NewTerminationBlock x00 []; NewGarlicCloveBlock [x01]; NewTerminationBlock x00 []] = None.
Proof. reflexivity. Qed.

(** ** Block contents *)

Lemma parse_acks_concat (acks : list AckEntry) :
  Forall (fun a => is_u16 (TagSetID a) /\ is_u16 (N_ a)) acks ->
  parse_acks (length acks)
    (concat ((fun ack => be_encode 2 (TagSetID ack) ++ be_encode 2 (N_ ack)) <$> acks)) = acks.
Proof.
  induction 1 as [|a acks [Ht Hn] Hf IH]; [done|]. cbn [fmap list_fmap concat length parse_acks].
  rewrite <- app_assoc. rewrite slice_prefix by (by rewrite length_be_encode).
  rewrite (slice_app 2 4) by (by rewrite !length_be_encode).
  rewrite !be_decode_encode_small by (unfold is_u16 in *; cbn; lia).
  rewrite app_assoc, drop_app_length' by (by rewrite length_app, !length_be_encode).
  rewrite IH. by destruct a.
Qed.

Lemma ack_bytes_length (acks : list AckEntry) :
  length (concat ((fun ack => be_encode 2 (TagSetID ack) ++ be_encode 2 (N_ ack)) <$> acks))
  = (4 * length acks)%nat.
Proof.
  induction acks as [|a acks IH]; [done|]. cbn [fmap list_fmap concat length].
  rewrite !length_app, !length_be_encode. etrans; [apply (f_equal (Nat.add 4)), IH|]. lia.
Qed.

Lemma nextkey_roundtrip keyID (pk : option bytes) reverse request :
  is_u16 keyID -> (forall k, pk = Some k -> length k = 32%nat) ->
  NextKey (NewNextKeyBlock keyID pk reverse request)
  = Ok (mkNextKeyInfo (bool_decide (is_Some pk)) reverse (request && negb reverse) keyID
          (default (replicate 32 x00) pk)).
Proof.
  intros Hk Hpk. unfold NextKey, NewNextKeyBlock. cbn [Type_ Data].
  rewrite decide_False by tauto.
  set (flags := if reverse then _ else _). set (key := match pk with Some k => k | None => [] end).
  assert (Hf : 0 <= flags < 256) by (unfold flags; destruct pk, reverse, request; done).
  assert (Hkl : length key = 0%nat /\ pk = None \/ length key = 32%nat /\ pk = Some key).
  { unfold key. destruct pk as [k|]; [right; split; [by apply Hpk|done]|by left]. }
  assert (Hsl : slice 1 3 (z2b flags :: be_encode 2 keyID ++ key) = be_encode 2 keyID)
    by (change (slice 1 3 (?x :: ?l)) with (slice 0 2 l); apply slice_prefix; by rewrite length_be_encode).
  assert (Hsk : drop 3 (z2b flags :: be_encode 2 keyID ++ key) = key)
    by (change (drop 3 (?x :: ?l)) with (drop 2 l); apply drop_app_length'; by rewrite length_be_encode).
  rewrite Hsl, be_decode_encode_small by (unfold is_u16 in Hk; cbn; lia).
  cbn [length]. rewrite length_app, length_be_encode.
  rewrite decide_False by (destruct Hkl as [[-> _]|[-> _]]; lia).
  unfold byte_at. cbn [lookup list_lookup]. rewrite b2z_z2b_u8 by done. unfold slice. rewrite Hsk.
  destruct Hkl as [[_ ->]|[Hl Hp]].
  - unfold flags. destruct reverse, request; reflexivity.
  - rewrite (take_ge key) by lia. clearbody key. subst pk.
    rewrite (decide_False (P := (1 + (2 + length key) < 35)%nat)) by lia.
    unfold flags. destruct reverse, request; reflexivity.
Qed.

(** the contents of date, termination, message number, next key and
    acknowledgment blocks round-trip. *)
Theorem ratchet_blocks_roundtrip (unix : Z) (reason : byte) (extra : bytes) (pn keyID : Z)
    (pk : option bytes) (reverse request : bool) (acks : list AckEntry) :
  is_u16 pn -> is_u16 keyID -> (forall k, pk = Some k -> length k = 32%nat) ->
  acks <> [] -> Forall (fun a => is_u16 (TagSetID a) /\ is_u16 (N_ a)) acks ->
  DateTime (NewDateTimeBlock unix) = Ok (u32 unix)
  /\ TerminationInfo (NewTerminationBlock reason extra) = Ok (reason, extra)
  /\ MessageNumber (NewMessageNumberBlock pn) = Ok pn
  /\ NextKey (NewNextKeyBlock keyID pk reverse request)
     = Ok (mkNextKeyInfo (bool_decide (is_Some pk)) reverse (request && negb reverse) keyID
             (default (replicate 32 x00) pk))
  /\ Acks (NewAckBlock acks) = Ok acks.
Proof.
  intros Hpn Hk Hpk Hne Ha. split_and!.
  - unfold DateTime, NewDateTimeBlock. cbn [Type_ Data]. rewrite length_be_encode, !decide_False by tauto.
    by rewrite be_decode_encode_small by apply u32_bound.
  - done.
  - unfold MessageNumber, NewMessageNumberBlock. cbn [Type_ Data].
    rewrite length_be_encode, !decide_False by tauto. by rewrite be_decode_encode_small.
  - by apply nextkey_roundtrip.
  - unfold Acks, NewAckBlock. cbn [Type_ Data]. rewrite ack_bytes_length, decide_False by tauto.
    assert (length acks <> 0%nat) by (by intros ?%nil_length_inv).
    rewrite (Nat.mul_comm 4), Nat.Div0.mod_mul, Nat.div_mul by lia. rewrite decide_False by lia.
    by rewrite parse_acks_concat.
Qed.

(** new session payloads are valid: a message fits exactly up to 65509 bytes,
    and the payload built for it passes the receiver's validation and carries it. *)
Theorem ns_payload_valid (garlic : bytes) (unix : Z) :
  ((exists p, BuildNSPayload garlic unix = Ok p) <-> zlen garlic <= 65509)
  /\ forall p, BuildNSPayload garlic unix = Ok p ->
     ValidateNewSessionPayload p = None
     /\ ParsePayload p = Ok [NewDateTimeBlock unix; NewGarlicCloveBlock garlic].
Proof.
  assert (Hsmall : forall n, 4 <= n -> zlen garlic <= n ->
    Forall (fun b => zlen (Data b) <= n) [NewDateTimeBlock unix; NewGarlicCloveBlock garlic])
    by (intros n H4 Hg; by constructor; [|constructor]).
  assert (Hb : BuildNSPayload garlic unix
    = if 65509 <? zlen garlic then Err (EPayloadTooLarge (10 + zlen garlic))
      else Ok (concat (block_bytes <$> [NewDateTimeBlock unix; NewGarlicCloveBlock garlic]))).
  { unfold BuildNSPayload, Build. cbn [app NewSessionPayloadBuilder].
    change (validate _) with (@None PayloadError).
    assert (Ht : total_size [NewDateTimeBlock unix; mkPayloadBlock BlockGarlicClove garlic] = 10 + zlen garlic).
    { unfold total_size, SerializeSize, blockHeaderSize, zlen. cbn [foldr Data NewDateTimeBlock].
      rewrite length_be_encode. lia. }
    rewrite Ht. unfold maxPayloadSize. pose proof (zlen_nonneg garlic).
    destruct (Z.ltb_spec 65519 (10 + zlen garlic)), (Z.ltb_spec 65509 (zlen garlic)); try lia; [done|].
    apply (build_loop_total [NewDateTimeBlock unix; NewGarlicCloveBlock garlic]);
      [|unfold NewGarlicCloveBlock; rewrite Ht; lia]. apply (Hsmall 65516); lia. }
  split.
  - rewrite Hb. destruct (Z.ltb_spec 65509 (zlen garlic)); split; [by intros [? ?]|lia|lia|by eexists].
  - intros p Hp. rewrite Hb in Hp. destruct (Z.ltb_spec 65509 (zlen garlic)); [done|].
    apply Ok_inj in Hp as <-.
    assert (Hpar : ParsePayload (concat (block_bytes <$> [NewDateTimeBlock unix; NewGarlicCloveBlock garlic]))
      = Ok [NewDateTimeBlock unix; NewGarlicCloveBlock garlic]).
    { apply parse_concat; [|done]. eapply Forall_impl; [apply (Hsmall 65516); lia|]. cbn. lia. }
    split; [|done]. unfold ValidateNewSessionPayload. rewrite decide_False by done. by rewrite Hpar.
Qed.

(** ** Witnesses *)

Lemma payload_roundtrip_witness :
  let blocks := [NewDateTimeBlock 1700000000; NewGarlicCloveBlock [x01; x02]; NewPaddingBlock 4] in
  exists out, Build blocks = Ok out /\ zlen out <= maxPayloadSize /\ ParsePayload out = Ok blocks.
Proof.
  eexists. split; [vm_compute; reflexivity|].
  apply payload_roundtrip. vm_compute. reflexivity.
Defined.

Lemma parse_lossless_witness :
  [x07; x00; x01; xaa; xfe; x00; x00]
  = concat (block_bytes <$> [mkPayloadBlock x07 [xaa]; mkPayloadBlock xfe []]).
Proof. apply (parse_lossless [x07; x00; x01; xaa; xfe; x00; x00]). vm_compute. reflexivity. Defined.

Lemma ratchet_blocks_roundtrip_witness :
  NextKey (NewNextKeyBlock 5 (Some (replicate 32 x07)) false true)
  = Ok (mkNextKeyInfo true false true 5 (replicate 32 x07)).
Proof.
  refine (proj1 (proj2 (proj2 (proj2 (ratchet_blocks_roundtrip 0 x00 [] 0 5 (Some (replicate 32 x07))
    false true [mkAckEntry 1 2] _ _ _ _ _))))).
  - split; [discriminate|reflexivity].
  - split; [discriminate|reflexivity].
  - intros k [= <-]. reflexivity.
  - discriminate.
  - repeat constructor; discriminate.
Defined.
