(* ===== verification/BuildRecords.v ===== *)
(** * Tunnel build records

    [ratchet/build_record_crypto.go] and [ratchet/build_request_ecies.go]: the
    encryption of the reply and request records of a tunnel build. A fixed-size
    array of Go is a list of that length. ECIES is a library: the class
    [ECIESLib] has its two operations, the randomness being an argument. *)

From Stdlib Require Import ZArith Lia.
From Stdlib Require Import Strings.Byte.
From stdpp Require Import base numbers list.
From S2P Require Import Prelude Crypto.

Class ECIESLib `{CurveLib} := {
  ecies_encrypt : bytes -> bytes -> bytes -> option bytes;   (* randomness, public key, plaintext *)
  ecies_decrypt : bytes -> bytes -> option bytes;            (* private key, ciphertext *)
  ecies_decrypt_encrypt : forall rnd priv pt ct,
    ecies_encrypt rnd (x25519_public priv) pt = Some ct -> ecies_decrypt priv ct = Some pt;
  (* ephemeral key, nonce and tag *)
  ecies_length : forall rnd pub pt ct,
    ecies_encrypt rnd pub pt = Some ct -> length ct = (length pt + 60)%nat;
}.

Inductive RecordError :=
| ERecordSize (got : nat)
| ERecordEncrypt
| ERecordDecrypt
| EHashMismatch
| EPrivateKeySize (got : nat).

(** ** Reply records *)

Section Reply.
Context `{AEADLib, HashLib}.

Definition newChaCha20Poly1305 (iv : bytes) : bytes := take 12 iv.

Definition encryptChaCha20Poly1305 (plaintext key iv : bytes) : result RecordError bytes :=
  if decide (length plaintext <> 528%nat) then Err (ERecordSize (length plaintext))
  else match aead_encrypt key plaintext [] (newChaCha20Poly1305 iv) with
       | None => Err ERecordEncrypt
       | Some (ct, tag) =>
           let out := ct ++ tag in
           if decide (length out <> 544%nat) then Err (ERecordSize (length out)) else Ok out
       end.

Definition EncryptReplyRecord (cleartext replyKey replyIV : bytes) : result RecordError bytes :=
  if decide (length cleartext <> 528%nat) then Err (ERecordSize (length cleartext))
  else encryptChaCha20Poly1305 cleartext replyKey replyIV.

Definition decryptChaCha20Poly1305 (ciphertext key iv : bytes) : result RecordError bytes :=
  if decide (length ciphertext <> 544%nat) then Err (ERecordSize (length ciphertext))
  else match aead_decrypt key (take 528 ciphertext) (drop 528 ciphertext) [] (newChaCha20Poly1305 iv) with
       | None => Err ERecordDecrypt
       | Some plaintext =>
           if decide (length plaintext <> 528%nat) then Err (ERecordSize (length plaintext))
           else Ok plaintext
       end.

Definition DecryptReplyRecord (encryptedData replyKey replyIV : bytes) : result RecordError bytes :=
  if decide (length encryptedData <> 544%nat) then Err (ERecordSize (length encryptedData))
  else match decryptChaCha20Poly1305 encryptedData replyKey replyIV with
       | Err e => Err e
       | Ok cleartext =>
           if decide (length cleartext <> 528%nat) then Err (ERecordSize (length cleartext))
           else Ok cleartext
       end.

Definition SerializeResponseRecord (hash randomData : bytes) (reply : byte) : bytes :=
  hash ++ randomData ++ [reply].

Definition CreateBuildResponseRecordRaw (reply : byte) (randomData : bytes) : bytes :=
  sha256 (randomData ++ [reply]).

Definition VerifyResponseRecordHash (hash randomData : bytes) (reply : byte) : option RecordError :=
  if decide (hash <> sha256 (randomData ++ [reply])) then Some EHashMismatch else None.

End Reply.

(** ** Request records *)

Section Request.
Context `{ECIESLib, HashLib}.

Definition EncryptBuildRequest (rnd cleartext recipientPubKey recipientIdentityHash : bytes)
    : result RecordError bytes :=
  if decide (length cleartext <> 222%nat) then Err (ERecordSize (length cleartext))
  else match ecies_encrypt rnd recipientPubKey cleartext with
       | None => Err ERecordEncrypt
       | Some ciphertext =>
           if decide (512 < length ciphertext)%nat then Err (ERecordSize (length ciphertext))
           else Ok (take 16 recipientIdentityHash ++ ciphertext
                    ++ replicate (512 - length ciphertext) x00)
       end.

Definition eciesCiphertextLen : nat := 32 + 12 + 222 + 16.

Definition DecryptBuildRequest (encrypted privateKey : bytes) : result RecordError bytes :=
  if decide (length privateKey <> 32%nat) then Err (EPrivateKeySize (length privateKey))
  else match ecies_decrypt privateKey (slice 16 (16 + eciesCiphertextLen) encrypted) with
       | None => Err ERecordDecrypt
       | Some cleartext =>
           if decide (length cleartext <> 222%nat) then Err (ERecordSize (length cleartext))
           else Ok cleartext
       end.

Definition VerifyIdentityHash (encrypted ourIdentityHash : bytes) : bool :=
  bool_decide (take 16 encrypted = take 16 ourIdentityHash).

Definition ExtractIdentityHashPrefixRaw (encrypted : bytes) : bytes :=
  take 16 encrypted ++ replicate 16 x00.

Definition ComputeIdentityHash (identityBytes : bytes) : bytes := sha256 identityBytes.

End Request.

(** ** Round trips *)

Section RoundTrips.
Context `{ECIESLib, AEADLib, HashLib}.

Lemma reply_record_decrypts cleartext key iv out :
  EncryptReplyRecord cleartext key iv = Ok out -> DecryptReplyRecord out key iv = Ok cleartext.
Proof.
  unfold EncryptReplyRecord, encryptChaCha20Poly1305. case_decide as Hl; [done|].
  destruct (aead_encrypt key cleartext [] _) as [[ct tag]|] eqn:He; [|done].
  case_decide as Hout; [done|]. intros <-%Ok_inj.
  destruct (aead_lengths _ _ _ _ _ _ He) as [Hct _].
  assert (Hlen : length cleartext = 528%nat) by lia.
  unfold DecryptReplyRecord, decryptChaCha20Poly1305. rewrite !(decide_False (P := length (ct ++ tag) <> 544%nat)) by lia.
  rewrite take_app_length' by lia. rewrite drop_app_length' by lia.
  rewrite (aead_decrypt_encrypt _ _ _ _ _ _ He). by rewrite !decide_False by lia.
Qed.

Lemma build_request_decrypts rnd priv cleartext hash out :
  length priv = 32%nat -> length hash = 32%nat ->
  EncryptBuildRequest rnd cleartext (x25519_public priv) hash = Ok out ->
  length out = 528%nat /\ VerifyIdentityHash out hash = true /\ DecryptBuildRequest out priv = Ok cleartext.
Proof.
  intros Hp Hh. unfold EncryptBuildRequest. case_decide as Hc; [done|].
  destruct (ecies_encrypt rnd _ cleartext) as [ct|] eqn:He; [|done].
  pose proof (ecies_length _ _ _ _ He) as Hl.
  case_decide; [done|]. intros <-%Ok_inj.
  assert (Ht : length (take 16 hash) = 16%nat) by (rewrite length_take; lia).
  split_and!.
  - rewrite !length_app, length_replicate, Ht. lia.
  - unfold VerifyIdentityHash. rewrite take_app_length' by done. by apply bool_decide_eq_true_2.
  - unfold DecryptBuildRequest. rewrite decide_False by lia.
    rewrite slice_app by (unfold eciesCiphertextLen; lia).
    rewrite (ecies_decrypt_encrypt _ _ _ _ He). by rewrite decide_False by lia.
Qed.

(** a reply record is read back by the holder of the reply key, its hash
    verifies, and its last byte is the reply; a request record is read back by
    the owner of the private key, who also recognises it as addressed to it. *)
Theorem build_records_roundtrip rnd priv hash cleartext reply randomData key iv request record :
  length priv = 32%nat -> length hash = 32%nat -> length randomData = 495%nat ->
  EncryptBuildRequest rnd cleartext (x25519_public priv) hash = Ok request ->
  EncryptReplyRecord (SerializeResponseRecord (CreateBuildResponseRecordRaw reply randomData) randomData reply)
    key iv = Ok record ->
  VerifyIdentityHash request hash = true /\ DecryptBuildRequest request priv = Ok cleartext
  /\ length record = 544%nat
  /\ exists plain, DecryptReplyRecord record key iv = Ok plain /\ length plain = 528%nat
     /\ VerifyResponseRecordHash (take 32 plain) (slice 32 527 plain) (z2b (byte_at plain 527)) = None
     /\ slice 32 527 plain = randomData /\ byte_at plain 527 = b2z reply.
Proof.
  intros Hp Hh Hr Hreq Hrec.
  destruct (build_request_decrypts _ _ _ _ _ Hp Hh Hreq) as (_ & Hv & Hd).
  split_and!; [done|done| |].
  { revert Hrec. unfold EncryptReplyRecord, encryptChaCha20Poly1305. repeat case_decide; try done.
    destruct (aead_encrypt _ _ _ _) as [[ct tag]|]; [|done]. case_decide as Hl; [done|].
    intros <-%Ok_inj. destruct (decide (length (ct ++ tag) = 544%nat)); [done|contradiction]. }
  eexists. split; [by apply reply_record_decrypts|].
  unfold SerializeResponseRecord, CreateBuildResponseRecordRaw.
  set (h := sha256 _). assert (Hhl : length h = 32%nat) by apply sha256_length.
  assert (Hs : slice 32 527 (h ++ randomData ++ [reply]) = randomData) by (apply slice_app; lia).
  assert (Hb : byte_at (h ++ randomData ++ [reply]) 527 = b2z reply).
  { unfold byte_at. rewrite !lookup_app_r by (rewrite ?length_app; lia).
    replace (527 - length h - length randomData)%nat with 0%nat by lia. done. }
  split_and!; [rewrite !length_app, Hhl, Hr; done| |done|done].
  unfold VerifyResponseRecordHash. rewrite take_app_length' by done. rewrite Hs, Hb, z2b_b2z.
  by rewrite decide_False by (intros Hne; by apply Hne).
Qed.

End RoundTrips.

(** ** Witness *)

#[local] Existing Instances demo_hash demo_curve demo_aead.

Definition demo_ecies_encrypt (rnd pub pt : bytes) : option bytes :=
  if decide (length rnd = 32%nat) then Some (rnd ++ replicate 12 x00 ++ pt ++ demo_tag pub pt [] [])
  else None.

Definition demo_ecies_decrypt (priv ct : bytes) : option bytes :=
  let pt := slice 44 (length ct - 16) ct in
  if decide (drop (length ct - 16) ct = demo_tag priv pt [] []) then Some pt else None.

#[local] Instance demo_ecies : ECIESLib.
Proof.
  refine {| ecies_encrypt := demo_ecies_encrypt; ecies_decrypt := demo_ecies_decrypt |}.
  - unfold demo_ecies_encrypt, demo_ecies_decrypt. intros rnd priv pt ct.
    case_decide as Hr; [|done]. intros Hct. apply (inj Some) in Hct as <-. cbn [x25519_public demo_curve].
    set (t := demo_tag priv pt [] []). assert (Ht : length t = 16%nat) by apply length_demo_digest.
    set (z := replicate 12 x00). assert (Hz : length z = 12%nat) by done.
    assert (Hlen : (length (rnd ++ z ++ pt ++ t) - 16 = 44 + length pt)%nat)
      by (rewrite !length_app, Hr, Ht, Hz; lia).
    rewrite Hlen. replace (rnd ++ z ++ pt ++ t) with ((rnd ++ z) ++ pt ++ t) by by rewrite <- app_assoc.
    assert (Hrz : length (rnd ++ z) = 44%nat) by (rewrite length_app; lia).
    rewrite slice_app by lia. rewrite drop_app, Hrz, drop_ge by lia.
    replace (44 + length pt - 44)%nat with (length pt) by lia. rewrite drop_app_length.
    rewrite app_nil_l, decide_True; reflexivity.
  - unfold demo_ecies_encrypt. intros rnd pub pt ct. case_decide as Hr; [|done].
    intros Hct. apply (inj Some) in Hct as <-. rewrite !length_app, Hr, length_replicate.
    unfold demo_tag. rewrite length_demo_digest. lia.
Defined.

Definition demo_priv : bytes := replicate 32 x07.
Definition demo_ident : bytes := replicate 32 x09.
Definition demo_random : bytes := replicate 495 x05.

Definition demo_request : bytes :=
  match EncryptBuildRequest (replicate 32 x03) (replicate 222 x01) (x25519_public demo_priv) demo_ident with
  | Ok r => r | Err _ => [] end.

Definition demo_record : bytes :=
  match EncryptReplyRecord
    (SerializeResponseRecord (CreateBuildResponseRecordRaw x00 demo_random) demo_random x00)
    demo_priv (replicate 16 x02) with
  | Ok r => r | Err _ => [] end.

Lemma build_records_roundtrip_witness :
  VerifyIdentityHash demo_request demo_ident = true
  /\ DecryptBuildRequest demo_request demo_priv = Ok (replicate 222 x01)
  /\ length demo_record = 544%nat
  /\ exists plain, DecryptReplyRecord demo_record demo_priv (replicate 16 x02) = Ok plain
     /\ length plain = 528%nat
     /\ VerifyResponseRecordHash (take 32 plain) (slice 32 527 plain) (z2b (byte_at plain 527)) = None
     /\ slice 32 527 plain = demo_random /\ byte_at plain 527 = b2z x00.
Proof.
  apply (build_records_roundtrip (replicate 32 x03) demo_priv demo_ident (replicate 222 x01) x00
           demo_random demo_priv (replicate 16 x02)); vm_compute; reflexivity.
Defined.
