(* ===== verification/NoiseIK.v ===== *)
(** * The Noise IK handshake of the ratchet

    [ratchet/noise_ik.go] (New Session messages, bound and unbound),
    [ratchet/noise_ik_nsr.go] (New Session Reply) and the key derivations of
    [ratchet/crypto_helpers.go] they use, on the libraries of [Crypto]. *)

From Stdlib Require Import ZArith Lia.
From Stdlib Require Import Strings.Byte Strings.String.
From stdpp Require Import base numbers list.
From S2P Require Import Prelude Crypto.

#[local] Open Scope Z_scope.
#[local] Open Scope go_scope.

Definition noiseProtocolName : string := "Noise_IKelg2+hs2_25519_ChaChaPoly_SHA256".
Definition noiseIKMinMessageSize : nat := 32 + 48 + 16.
Definition noiseEncryptedStaticSize : nat := 48.
Definition nsrMinMessageSize : nat := 8 + 32 + 16 + 16.

Definition hkdfInfoDHRatchetStep : string := "KDFDHRatchetStep".
Definition hkdfInfoTagAndKeyGenKeys : string := "TagAndKeyGenKeys".
Definition hkdfInfoSessionReplyTags : string := "SessionReplyTags".
Definition hkdfInfoAttachPayloadKDF : string := "AttachPayloadKDF".

Record sessionKeys := mkSessionKeys { rootKey : bytes; symKey : bytes; tagKey : bytes }.

(** [noiseHandshakeState]; a field that is not set is empty. *)
Record noiseHandshakeState := mkHandshake {
  hs_h : bytes;
  hs_ck : bytes;
  localEphPriv : bytes;
  remoteEphPub : bytes;
  remoteStaticPub : bytes;
}.

Record nsrSessionKeys := mkNSRKeys { nsr_chainKey : bytes; keyAB : bytes; keyBA : bytes }.

Inductive NoiseError :=
| EGenerateEphemeral
| EEncodeEphemeral
| EDecodeEphemeral
| ESharedKey
| ENoiseEncrypt
| ENoiseDecrypt
| EDeriveKeys
| EGenerateTag
| EMessageTooShort (len : nat).

(** A zero [32]byte, and [copy] of a slice into one. *)
Definition zero32 : bytes := replicate 32 x00.
Definition to32 (b : bytes) : bytes := take 32 (b ++ zero32).

Definition isAllZeros (b : bytes) : bool := forallb (fun v => bool_decide (v = x00)) b.

Section NoiseIK.
Context `{HashLib, CurveLib, AEADLib, NoiseLib, RatchetLib}.

Definition deriveSessionKeysFromSecret (sharedSecret : bytes) : result NoiseError sessionKeys :=
  let* k := or_error EDeriveKeys (derive_session_keys (to32 sharedSecret)) in
  Ok (mkSessionKeys k.1.1 k.1.2 k.2).

Definition initNoiseIK (responderStaticPub : bytes) : SymmetricState :=
  let ns := ss_initialize noiseProtocolName in
  let ns := ss_mix_hash ns [] in
  ss_mix_hash ns (sha256 responderStaticPub).

Definition mixKeyCKOnly (ns : SymmetricState) (ikm : bytes) : SymmetricState :=
  ss_set_chaining_key ns (hkdf1 (ss_chaining_key ns) ikm).

(** [EncryptAndHash] and [DecryptAndHash] with their error. *)
Definition encrypt_and_hash (ns : SymmetricState) (p : bytes) : result NoiseError (SymmetricState * bytes) :=
  let '(ns, c) := ss_encrypt ns p in
  let* c := or_error ENoiseEncrypt c in Ok (ns, c).

Definition decrypt_and_hash (ns : SymmetricState) (c : bytes) : result NoiseError (SymmetricState * bytes) :=
  let '(ns, p) := ss_decrypt ns c in
  let* p := or_error ENoiseDecrypt p in Ok (ns, p).

(** A fresh Elligator2 key pair with its encoding. *)
Definition new_ephemeral (rnd : bytes) : result NoiseError (bytes * bytes) :=
  let* kp := or_error EGenerateEphemeral (elg2_generate rnd) in
  let* e := or_error EEncodeEphemeral (elg2_encode kp.1) in
  Ok (kp.2, e).

(** ** New Session *)

Definition writeNoiseIKMessage1 (rnd ourStaticPriv ourStaticPub responderStaticPub payload : bytes)
    : result NoiseError (bytes * sessionKeys * noiseHandshakeState) :=
  let ns := initNoiseIK responderStaticPub in
  let* eph := new_ephemeral rnd in
  let '(ephPriv, ephEncoded) := eph in
  let ns := ss_mix_hash ns ephEncoded in
  let* sharedES := or_error ESharedKey (x25519_shared ephPriv responderStaticPub) in
  let ns := ss_mix_key ns sharedES in
  let* r := encrypt_and_hash ns ourStaticPub in
  let '(ns, encryptedStatic) := r in
  let* sharedSS := or_error ESharedKey (x25519_shared ourStaticPriv responderStaticPub) in
  let ns := ss_mix_key ns sharedSS in
  let* r := encrypt_and_hash ns payload in
  let '(ns, encryptedPayload) := r in
  let msg := ephEncoded ++ encryptedStatic ++ encryptedPayload in
  let hs := mkHandshake (ss_handshake_hash ns) (ss_chaining_key ns) ephPriv zero32 zero32 in
  let* keys := deriveSessionKeysFromSecret (ss_chaining_key ns) in
  Ok (msg, keys, hs).

Definition writeNoiseIKMessage1Unbound (rnd responderStaticPub payload : bytes)
    : result NoiseError (bytes * sessionKeys) :=
  let ns := initNoiseIK responderStaticPub in
  let* eph := new_ephemeral rnd in
  let '(ephPriv, ephEncoded) := eph in
  let ns := ss_mix_hash ns ephEncoded in
  let* sharedES := or_error ESharedKey (x25519_shared ephPriv responderStaticPub) in
  let ns := ss_mix_key ns sharedES in
  let* r := encrypt_and_hash ns zero32 in
  let '(ns, encryptedFlags) := r in
  let* r := encrypt_and_hash ns payload in
  let '(ns, encryptedPayload) := r in
  let* keys := deriveSessionKeysFromSecret (ss_chaining_key ns) in
  Ok (ephEncoded ++ encryptedFlags ++ encryptedPayload, keys).

(** What reading a New Session gives: payload, static key of the initiator,
    session keys, handshake state (none if unbound), and whether it is unbound. *)
Definition NSResult : Type := bytes * bytes * sessionKeys * option noiseHandshakeState * bool.

Definition readEphemeralKey (ns : SymmetricState) (ephEncoded : bytes)
    : SymmetricState * result NoiseError bytes :=
  let ns := ss_mix_hash ns ephEncoded in
  (ns, let* ephPub := or_error EDecodeEphemeral (elg2_decode ephEncoded) in Ok (to32 ephPub)).

Definition readUnboundPayload (ns : SymmetricState) (encryptedPayload : bytes)
    : result NoiseError NSResult :=
  let* r := decrypt_and_hash ns encryptedPayload in
  let '(ns, payload) := r in
  let* keys := deriveSessionKeysFromSecret (ss_chaining_key ns) in
  Ok (payload, zero32, keys, None, true).

Definition readBoundPayload (ns : SymmetricState)
    (ourStaticPriv initiatorEphPub initiatorStaticBytes encryptedPayload : bytes)
    : result NoiseError NSResult :=
  let initiatorStaticPub := to32 initiatorStaticBytes in
  let* sharedSS := or_error ESharedKey (x25519_shared ourStaticPriv initiatorStaticPub) in
  let ns := ss_mix_key ns sharedSS in
  let* r := decrypt_and_hash ns encryptedPayload in
  let '(ns, payload) := r in
  let hs := mkHandshake (ss_handshake_hash ns) (ss_chaining_key ns) [] initiatorEphPub initiatorStaticPub in
  let* keys := deriveSessionKeysFromSecret (ss_chaining_key ns) in
  Ok (payload, initiatorStaticPub, keys, Some hs, false).

Definition readNoiseIKMessage1 (ourStaticPriv ourStaticPub message : bytes) : result NoiseError NSResult :=
  if decide (length message < noiseIKMinMessageSize)%nat then Err (EMessageTooShort (length message))
  else
    let '(ns, r) := readEphemeralKey (initNoiseIK ourStaticPub) (slice 0 32 message) in
    let* initiatorEphPub := r in
    let* sharedES := or_error ESharedKey (x25519_shared ourStaticPriv initiatorEphPub) in
    let ns := ss_mix_key ns sharedES in
    let* r := decrypt_and_hash ns (slice 32 (32 + noiseEncryptedStaticSize) message) in
    let '(ns, initiatorStaticBytes) := r in
    let encryptedPayload := drop (32 + noiseEncryptedStaticSize) message in
    if isAllZeros initiatorStaticBytes then readUnboundPayload ns encryptedPayload
    else readBoundPayload ns ourStaticPriv initiatorEphPub initiatorStaticBytes encryptedPayload.

(** ** New Session Reply *)

Definition deriveNSRTagRatchet (chainKey : bytes) : result NoiseError TagRatchet :=
  let* tagsetKey := or_error EDeriveKeys (standard_hkdf chainKey [] hkdfInfoSessionReplyTags 32) in
  let* keydata := or_error EDeriveKeys (standard_hkdf chainKey tagsetKey hkdfInfoDHRatchetStep 64) in
  let ck := slice 32 64 keydata in
  let* keydata2 := or_error EDeriveKeys (standard_hkdf ck [] hkdfInfoTagAndKeyGenKeys 64) in
  Ok (new_tag (slice 0 32 keydata2)).

(** The first tag of that ratchet, as both ends derive it. *)
Definition nsr_tag (chainKey : bytes) : result NoiseError bytes :=
  let* nsrTagRatchet := deriveNSRTagRatchet chainKey in
  or_error EGenerateTag (generate_next_tag nsrTagRatchet).2.

(** The payload key and the two directional keys. *)
Definition deriveNSRPayloadCipher (ns : SymmetricState) : result NoiseError (bytes * bytes * bytes) :=
  let '(kAB, kBA) := hkdf2 (ss_chaining_key ns) [] in
  let* payloadKey := or_error EDeriveKeys (standard_hkdf kBA [] hkdfInfoAttachPayloadKDF 32) in
  Ok (to32 payloadKey, kAB, kBA).

Definition encryptNSRPayload (ns : SymmetricState) (payload : bytes)
    : result NoiseError (bytes * nsrSessionKeys) :=
  let* c := deriveNSRPayloadCipher ns in
  let '(key, kAB, kBA) := c in
  let* r := or_error ENoiseEncrypt (aead_encrypt key payload (ss_handshake_hash ns) (build_nonce 0)) in
  Ok (r.1 ++ r.2, mkNSRKeys (to32 (ss_chaining_key ns)) kAB kBA).

Definition decryptNSRPayload (ns : SymmetricState) (encrypted : bytes)
    : result NoiseError (bytes * nsrSessionKeys) :=
  if decide (length encrypted < 16)%nat then Err (EMessageTooShort (length encrypted))
  else
    let* c := deriveNSRPayloadCipher ns in
    let '(key, kAB, kBA) := c in
    let ct := take (length encrypted - 16) encrypted in
    let tag := drop (length encrypted - 16) encrypted in
    let* plaintext := or_error ENoiseDecrypt
      (aead_decrypt key ct tag (ss_handshake_hash ns) (build_nonce 0)) in
    Ok (plaintext, mkNSRKeys (to32 (ss_chaining_key ns)) kAB kBA).

Definition writeNoiseIKMessage2 (rnd : bytes) (hs : noiseHandshakeState) (payload : bytes)
    : result NoiseError (bytes * bytes * nsrSessionKeys) :=
  let* tag := nsr_tag (hs_ck hs) in
  let ns := ss_mix_hash (ss_resume (hs_h hs) (hs_ck hs)) tag in
  let* eph := new_ephemeral rnd in
  let '(ephPriv, ephEncoded) := eph in
  let ns := ss_mix_hash ns ephEncoded in
  let* sharedEE := or_error ESharedKey (x25519_shared ephPriv (remoteEphPub hs)) in
  let ns := mixKeyCKOnly ns sharedEE in
  let* sharedSE := or_error ESharedKey (x25519_shared ephPriv (remoteStaticPub hs)) in
  let ns := ss_mix_key ns sharedSE in
  let* r := encrypt_and_hash ns [] in
  let '(ns, keySectionMAC) := r in
  let* r := encryptNSRPayload ns payload in
  let '(encryptedPayload, nsrKeys) := r in
  Ok (tag, tag ++ ephEncoded ++ keySectionMAC ++ encryptedPayload, nsrKeys).

Definition readNoiseIKMessage2 (hs : noiseHandshakeState) (ourStaticPriv message : bytes)
    : result NoiseError (bytes * nsrSessionKeys) :=
  if decide (length message < nsrMinMessageSize)%nat then Err (EMessageTooShort (length message))
  else
    let nsrTag := slice 0 8 message in
    let ns := ss_mix_hash (ss_resume (hs_h hs) (hs_ck hs)) nsrTag in
    let ephEncoded := slice 8 40 message in
    let ns := ss_mix_hash ns ephEncoded in
    let* ephPub := or_error EDecodeEphemeral (elg2_decode ephEncoded) in
    let* sharedEE := or_error ESharedKey (x25519_shared (localEphPriv hs) ephPub) in
    let ns := mixKeyCKOnly ns sharedEE in
    let* sharedSE := or_error ESharedKey (x25519_shared ourStaticPriv ephPub) in
    let ns := ss_mix_key ns sharedSE in
    let* r := decrypt_and_hash ns (slice 40 56 message) in
    let '(ns, _) := r in
    decryptNSRPayload ns (drop 56 message).

(** ** Lemmas *)

Lemma encrypt_and_hash_inv ns p ns' c :
  ss_keyed ns = true -> encrypt_and_hash ns p = Ok (ns', c) ->
  decrypt_and_hash ns c = Ok (ns', p) /\ length c = (length p + 16)%nat /\ ss_keyed ns' = true.
Proof.
  intros Hk. unfold encrypt_and_hash, decrypt_and_hash. destruct (ss_encrypt ns p) as [s o] eqn:He.
  destruct o as [c'|]; [|done]. intros [= -> ->].
  rewrite (ss_decrypt_encrypt _ _ _ _ He). split; [done|]. by apply (ss_encrypt_length ns).
Qed.

Lemma new_ephemeral_inv rnd priv e :
  new_ephemeral rnd = Ok (priv, e) ->
  length e = 32%nat /\ elg2_decode e = Some (x25519_public priv) /\ to32 (x25519_public priv) = x25519_public priv.
Proof.
  unfold new_ephemeral. intros Hn. inv_binds. destruct r as [pub priv']. inv_result.
  simpl in *. subst. pose proof (elg2_generate_public _ _ _ Hr) as ->.
  split_and!; [by eapply elg2_encode_length|by apply elg2_decode_encode|].
  unfold to32. apply take_app_length'. symmetry. by eapply elg2_generate_length.
Qed.

Lemma to32_id b : length b = 32%nat -> to32 b = b.
Proof. intros Hb. unfold to32. by apply take_app_length'. Qed.

(** Reading the sections of a New Session that was written with an ephemeral
    key: what is left to do depends on the static key section. *)
Lemma read_sections sb ephPriv e shared ns static encStatic encPayload :
  length e = 32%nat -> elg2_decode e = Some (x25519_public ephPriv) ->
  to32 (x25519_public ephPriv) = x25519_public ephPriv ->
  x25519_shared ephPriv (x25519_public sb) = Some shared ->
  length static = 32%nat -> (16 <= length encPayload)%nat ->
  encrypt_and_hash (ss_mix_key (ss_mix_hash (initNoiseIK (x25519_public sb)) e) shared) static
  = Ok (ns, encStatic) ->
  ss_keyed ns = true /\
  readNoiseIKMessage1 sb (x25519_public sb) (e ++ encStatic ++ encPayload)
  = if isAllZeros static then readUnboundPayload ns encPayload
    else readBoundPayload ns sb (x25519_public ephPriv) static encPayload.
Proof.
  intros He Hdec Hto Hsh Hst Hp Henc.
  apply encrypt_and_hash_inv in Henc as (Hd & Hl & Hk); [|apply ss_mix_key_keyed].
  split; [done|]. unfold readNoiseIKMessage1.
  rewrite decide_False by (rewrite !length_app; unfold noiseIKMinMessageSize; lia).
  unfold readEphemeralKey. rewrite slice_prefix by done. rewrite Hdec. cbn [or_error rbind]. rewrite Hto.
  rewrite x25519_shared_comm, Hsh. cbn [or_error rbind].
  rewrite slice_app by (unfold noiseEncryptedStaticSize; lia).
  rewrite Hd. cbn [rbind]. cbv iota beta zeta.
  rewrite app_assoc, drop_app_length'; [done|]. rewrite length_app. unfold noiseEncryptedStaticSize. lia.
Qed.

Lemma new_session_read rnd sa sb payload msg keys hsA :
  length (x25519_public sa) = 32%nat -> isAllZeros (x25519_public sa) = false ->
  writeNoiseIKMessage1 rnd sa (x25519_public sa) (x25519_public sb) payload = Ok (msg, keys, hsA) ->
  readNoiseIKMessage1 sb (x25519_public sb) msg
  = Ok (payload, x25519_public sa, keys,
        Some (mkHandshake (hs_h hsA) (hs_ck hsA) [] (x25519_public (localEphPriv hsA)) (x25519_public sa)),
        false).
Proof.
  intros Hl Hz. unfold writeNoiseIKMessage1. intros Hw. inv_binds. inv_result. subst.
  apply new_ephemeral_inv in Hr as (He & Hdec & Hto).
  apply encrypt_and_hash_inv in Hr3 as (Hd & Hlen & _); [|apply ss_mix_key_keyed].
  edestruct read_sections as [_ ->]; [exact He|exact Hdec|done|exact Hr0|exact Hl| |exact Hr1|]; [lia|].
  rewrite Hz. unfold readBoundPayload. rewrite to32_id by done.
  rewrite x25519_shared_comm, Hr2. cbn [or_error rbind]. rewrite Hd. cbn [rbind]. cbv iota beta zeta.
  by rewrite Hr4.
Qed.

Lemma unbound_session_read rnd sb payload msg keys :
  writeNoiseIKMessage1Unbound rnd (x25519_public sb) payload = Ok (msg, keys) ->
  readNoiseIKMessage1 sb (x25519_public sb) msg = Ok (payload, zero32, keys, None, true).
Proof.
  unfold writeNoiseIKMessage1Unbound. intros Hw. inv_binds. inv_result. subst.
  apply new_ephemeral_inv in Hr as (He & Hdec & Hto).
  pose proof (proj2 (proj2 (encrypt_and_hash_inv _ _ _ _ (ss_mix_key_keyed _ _) Hr1))) as Hk.
  apply encrypt_and_hash_inv in Hr2 as (Hd & Hlen & _); [|done].
  edestruct read_sections as [_ ->]; [exact He|exact Hdec|done|exact Hr0|exact (length_replicate 32 x00)| |exact Hr1|]; [lia|].
  change (isAllZeros zero32) with true. cbn iota. unfold readUnboundPayload.
  rewrite Hd. cbn [rbind]. cbv iota beta zeta. by rewrite Hr3.
Qed.

Lemma nsr_payload_read ns payload enc keys :
  encryptNSRPayload ns payload = Ok (enc, keys) ->
  (16 <= length enc)%nat /\ decryptNSRPayload ns enc = Ok (payload, keys).
Proof.
  unfold encryptNSRPayload, decryptNSRPayload. intros He. inv_binds. destruct r0 as [ct tag].
  inv_result. subst. destruct (aead_lengths _ _ _ _ _ _ Hr0) as [Hct Htag]. cbn [fst snd].
  rewrite length_app. split; [lia|]. rewrite decide_False by lia. rewrite Hr. cbn [rbind].
  cbv iota beta zeta. rewrite Htag, Nat.add_sub, take_app_length, drop_app_length.
  by rewrite (aead_decrypt_encrypt _ _ _ _ _ _ Hr0).
Qed.

Lemma nsr_tag_length ck tag : nsr_tag ck = Ok tag -> length tag = 8%nat.
Proof.
  unfold nsr_tag. intros Ht. inv_binds. destruct (generate_next_tag r) as [r' o] eqn:Hg. simpl in Ht. subst o.
  by eapply generate_next_tag_length.
Qed.

(** The reply is read with the state the initiator kept, which agrees with the
    responder's on hash and chaining key and has the private keys that belong to
    the public keys the responder kept. *)
Lemma reply_read rnd sa hsA hsB payload tag msg keys :
  hs_h hsB = hs_h hsA -> hs_ck hsB = hs_ck hsA ->
  remoteEphPub hsB = x25519_public (localEphPriv hsA) -> remoteStaticPub hsB = x25519_public sa ->
  writeNoiseIKMessage2 rnd hsB payload = Ok (tag, msg, keys) ->
  take 8 msg = tag /\ nsr_tag (hs_ck hsA) = Ok tag /\ readNoiseIKMessage2 hsA sa msg = Ok (payload, keys).
Proof.
  intros Hh Hc Heph Hst. unfold writeNoiseIKMessage2. rewrite Hh, Hc, Heph, Hst. intros Hw. inv_binds.
  inv_result. subst.
  pose proof (nsr_tag_length _ _ Hr) as Ht.
  apply new_ephemeral_inv in Hr0 as (He & Hdec & _).
  apply encrypt_and_hash_inv in Hr3 as (Hd & Hlen & _); [|apply ss_mix_key_keyed].
  apply nsr_payload_read in Hr4 as [Hp Hdp]. simpl in Hlen.
  split; [by apply take_app_length'|]. split; [done|].
  unfold readNoiseIKMessage2.
  rewrite decide_False by (rewrite !length_app; unfold nsrMinMessageSize; lia).
  rewrite slice_prefix by done. rewrite slice_app by lia. rewrite Hdec. cbn [or_error rbind].
  rewrite x25519_shared_comm, Hr1. cbn [or_error rbind].
  rewrite x25519_shared_comm, Hr2. cbn [or_error rbind].
  replace (tag ++ l0 ++ l1 ++ l2) with ((tag ++ l0) ++ l1 ++ l2) by by rewrite <- app_assoc.
  rewrite slice_app by (rewrite ?length_app; lia). rewrite Hd. cbn [rbind]. cbv iota beta.
  rewrite (app_assoc _ l1), drop_app_length'; [done|]. rewrite !length_app. lia.
Qed.

(** C27: the handshake between two routers. The New Session that the initiator
    writes is read by the responder, who recovers the payload and the static key
    of the initiator and derives the same session keys; the New Session Reply the
    responder then writes carries the tag the initiator expects, and the
    initiator recovers its payload and derives the same directional keys. An
    unbound New Session is read with its payload and no identity. *)
Theorem noise_ik_handshake (rnd sa sb payload msg : bytes) (keys : sessionKeys) (hsA : noiseHandshakeState) :
  length (x25519_public sa) = 32%nat -> isAllZeros (x25519_public sa) = false ->
  writeNoiseIKMessage1 rnd sa (x25519_public sa) (x25519_public sb) payload = Ok (msg, keys, hsA) ->
  exists hsB,
    readNoiseIKMessage1 sb (x25519_public sb) msg = Ok (payload, x25519_public sa, keys, Some hsB, false)
    /\ (forall rnd' reply tag wire nsrKeys,
        writeNoiseIKMessage2 rnd' hsB reply = Ok (tag, wire, nsrKeys) ->
        take 8 wire = tag /\ nsr_tag (hs_ck hsA) = Ok tag
        /\ readNoiseIKMessage2 hsA sa wire = Ok (reply, nsrKeys))
    /\ (forall rnd' umsg ukeys,
        writeNoiseIKMessage1Unbound rnd' (x25519_public sb) payload = Ok (umsg, ukeys) ->
        readNoiseIKMessage1 sb (x25519_public sb) umsg = Ok (payload, zero32, ukeys, None, true)).
Proof.
  intros Hl Hz Hw. eexists. split; [by apply new_session_read with rnd|]. split.
  - intros rnd' reply tag wire nsrKeys Hm. by eapply reply_read in Hm.
  - intros rnd' umsg ukeys. apply unbound_session_read.
Qed.

End NoiseIK.

(** ** Witness *)

#[local] Existing Instances demo_hash demo_curve demo_aead demo_noise demo_ratchet.

Definition demo_sa : bytes := replicate 31 x00 ++ [x11].
Definition demo_sb : bytes := replicate 32 x22.

Definition demo_ns : result NoiseError (bytes * sessionKeys * noiseHandshakeState) :=
  writeNoiseIKMessage1 (replicate 32 x33) demo_sa (x25519_public demo_sa) (x25519_public demo_sb) [x01; x02].

Definition ok_or {E A} (d : A) (r : result E A) : A := match r with Ok a => a | Err _ => d end.

Definition demo_ns_value := ok_or ([], mkSessionKeys [] [] [], mkHandshake [] [] [] [] []) demo_ns.

(** The reply of the responder in that handshake. *)
Definition demo_reply_value :=
  ok_or ([], [], mkNSRKeys [] [] [])
    (match readNoiseIKMessage1 demo_sb (x25519_public demo_sb) demo_ns_value.1.1 with
     | Ok (_, _, _, Some hs, _) => writeNoiseIKMessage2 (replicate 32 x44) hs [x05; x06; x07]
     | _ => Err ENoiseDecrypt
     end).

Lemma noise_ik_handshake_witness :
  readNoiseIKMessage2 demo_ns_value.2 demo_sa demo_reply_value.1.2 = Ok ([x05; x06; x07], demo_reply_value.2).
Proof.
  destruct (noise_ik_handshake (replicate 32 x33) demo_sa demo_sb [x01; x02]
    demo_ns_value.1.1 demo_ns_value.1.2 demo_ns_value.2) as (hsB & Hread & Hreply & _);
    [vm_compute; reflexivity..|].
  apply (Hreply (replicate 32 x44) _ demo_reply_value.1.1 demo_reply_value.1.2 demo_reply_value.2).
  clear Hreply. vm_compute in Hread. injection Hread as <-. vm_compute. reflexivity.
Defined.
