(* ===== verification/RatchetSession.v ===== *)
(** * Ratchet sessions

    [ratchet/session.go], [ratchet/ratchet_step.go], [ratchet/recv_window.go],
    [ratchet/nextkey.go], [ratchet/helpers.go], [ratchet/crypto_helpers.go] and
    the per-session parts of [ratchet/session_encrypt.go] and
    [ratchet/session_decrypt.go]: the state of one session, the encryption of
    Existing Session messages with the sending chains, and their decryption with
    the receive window.

    An operation that can fail returns the session as it leaves it together with
    its error. The clock and the randomness are arguments. *)

From Stdlib Require Import ZArith Lia.
From Stdlib Require Import Strings.Byte Strings.String.
From stdpp Require Import base numbers list gmap.
From S2P Require Import Prelude Crypto NoiseIK RatchetPayload.

#[local] Open Scope Z_scope.
#[local] Open Scope go_scope.

Definition DHRatchetInterval : Z := 50.
Definition MaxConsecutiveDHFailures : Z := 3.
Definition tagWindowSize : nat := 24.
Definition tagReplenishThreshold : nat := tagWindowSize / 2.
Definition MaxMessageNumber : Z := 65535.
Definition recvWindowSize : Z := 128.
Definition MaxKeyID : Z := 32767.

Inductive SessionError :=
| EPlaintextEmpty
| EPayload (e : PayloadError)
| ENoise (e : NoiseError)
| EDerive
| EMessageNumberExhausted
| EKeyIDExhausted
| EDHGenerate
| EDHPerform
| EDHUpdate
| EDHFailedRepeatedly
| EMessageKey
| ESessionTag
| EAEADEncrypt
| EAwaitingReply
| EAwaitingFirstES
| EESTooShort (len : nat)
| ERecvRatchetNil
| ENoCounterMatches
| ENoSession
| ENoHandshakeState
| EOnlyResponderReplies
| EGarlicTooShort (len : nat)
| EOneTimeTooShort (len : nat)
| EOneTimeDecrypt
| ENotFresh
| ENSReplay.

Section RatchetSession.
Context `{HashLib, CurveLib, AEADLib, NoiseLib, RatchetLib}.

(** ** State

    The fields of [Session], grouped by the direction that uses them. *)

Record SendState := mkSend {
  sendSym : SymmetricRatchet;            (* SymmetricRatchet *)
  sendTag : TagRatchet;                  (* TagRatchet *)
  MessageCounter : Z;
  dhRatchetCounter : Z;
  consecutiveDHFailures : Z;
  newEphemeralPub : option bytes;
  sendKeyID : Z;
  pendingNextKeys : list PayloadBlock;
  awaitingReverseKey : bool;
}.

Record RecvState := mkRecv {
  recvSym : option SymmetricRatchet;     (* RecvSymmetricRatchet *)
  recvTag : option TagRatchet;           (* RecvTagRatchet *)
  recvWindowBase : Z;
  recvFillMark : Z;
  recvKeyCache : gmap Z bytes;
  pendingTags : list bytes;
  nextRecvTagCounter : Z;
  recvKeyID : Z;
}.

Record Session := mkSession {
  RemotePublicKey : bytes;
  dhRatchet : DHRatchet;
  send : SendState;
  recv : RecvState;
  LastUsed : Z;
  handshakeState : option noiseHandshakeState;
  isInitiator : bool;
  nsrTag : option bytes;
  pendingAcks : list PayloadBlock;
  lastAckedEntries : list AckEntry;
  awaitingFirstES : bool;
}.

Definition set_send (s : Session) (x : SendState) : Session :=
  mkSession (RemotePublicKey s) (dhRatchet s) x (recv s) (LastUsed s) (handshakeState s) (isInitiator s)
    (nsrTag s) (pendingAcks s) (lastAckedEntries s) (awaitingFirstES s).

Definition set_recv (s : Session) (x : RecvState) : Session :=
  mkSession (RemotePublicKey s) (dhRatchet s) (send s) x (LastUsed s) (handshakeState s) (isInitiator s)
    (nsrTag s) (pendingAcks s) (lastAckedEntries s) (awaitingFirstES s).

Definition set_dh (s : Session) (x : DHRatchet) : Session :=
  mkSession (RemotePublicKey s) x (send s) (recv s) (LastUsed s) (handshakeState s) (isInitiator s)
    (nsrTag s) (pendingAcks s) (lastAckedEntries s) (awaitingFirstES s).

Definition set_remote (s : Session) (x : bytes) : Session :=
  mkSession x (dhRatchet s) (send s) (recv s) (LastUsed s) (handshakeState s) (isInitiator s)
    (nsrTag s) (pendingAcks s) (lastAckedEntries s) (awaitingFirstES s).

Definition set_used (s : Session) (x : Z) : Session :=
  mkSession (RemotePublicKey s) (dhRatchet s) (send s) (recv s) x (handshakeState s) (isInitiator s)
    (nsrTag s) (pendingAcks s) (lastAckedEntries s) (awaitingFirstES s).

Definition set_handshake (s : Session) (x : option noiseHandshakeState) : Session :=
  mkSession (RemotePublicKey s) (dhRatchet s) (send s) (recv s) (LastUsed s) x (isInitiator s)
    (nsrTag s) (pendingAcks s) (lastAckedEntries s) (awaitingFirstES s).

Definition set_initiator (s : Session) (x : bool) : Session :=
  mkSession (RemotePublicKey s) (dhRatchet s) (send s) (recv s) (LastUsed s) (handshakeState s) x
    (nsrTag s) (pendingAcks s) (lastAckedEntries s) (awaitingFirstES s).

Definition set_nsrTag (s : Session) (x : option bytes) : Session :=
  mkSession (RemotePublicKey s) (dhRatchet s) (send s) (recv s) (LastUsed s) (handshakeState s) (isInitiator s)
    x (pendingAcks s) (lastAckedEntries s) (awaitingFirstES s).

Definition set_acks (s : Session) (x : list PayloadBlock) : Session :=
  mkSession (RemotePublicKey s) (dhRatchet s) (send s) (recv s) (LastUsed s) (handshakeState s) (isInitiator s)
    (nsrTag s) x (lastAckedEntries s) (awaitingFirstES s).

Definition set_lastAcked (s : Session) (x : list AckEntry) : Session :=
  mkSession (RemotePublicKey s) (dhRatchet s) (send s) (recv s) (LastUsed s) (handshakeState s) (isInitiator s)
    (nsrTag s) (pendingAcks s) x (awaitingFirstES s).

Definition set_awaitingES (s : Session) (x : bool) : Session :=
  mkSession (RemotePublicKey s) (dhRatchet s) (send s) (recv s) (LastUsed s) (handshakeState s) (isInitiator s)
    (nsrTag s) (pendingAcks s) (lastAckedEntries s) x.

(** ** Creation *)

Definition deriveDirectionalKeys (baseKey : bytes) (initiator : bool) : result SessionError (bytes * bytes) :=
  let* keys := or_error EDerive (derive_keys baseKey hkdfInfoDHRatchetStep) in
  if initiator then Ok (keys.1, keys.2) else Ok (keys.2, keys.1).

Definition createSession (remotePubKey : bytes) (keys : sessionKeys) (ourPrivateKey : bytes)
    (initiator : bool) (now : Z) : result SessionError Session :=
  let* roots := deriveDirectionalKeys (rootKey keys) initiator in
  let* tags := deriveDirectionalKeys (tagKey keys) initiator in
  Ok (mkSession remotePubKey (new_dh (rootKey keys) ourPrivateKey remotePubKey)
        (mkSend (new_symmetric roots.1) (new_tag tags.1) 1 0 0 None 0 [] false)
        (mkRecv (Some (new_symmetric roots.2)) (Some (new_tag tags.2)) 1 1 ∅ [] 1 0)
        now None false None [] [] false).

Definition GetPendingNextKeys (x : SendState) : SendState * list PayloadBlock :=
  (mkSend (sendSym x) (sendTag x) (MessageCounter x) (dhRatchetCounter x) (consecutiveDHFailures x)
     (newEphemeralPub x) (sendKeyID x) [] (awaitingReverseKey x),
   pendingNextKeys x).

Definition GetPendingAcks (s : Session) : Session * list PayloadBlock := (set_acks s [], pendingAcks s).

Definition HasPendingNextKeys (s : Session) : bool :=
  bool_decide (0 < length (pendingNextKeys (send s)))%nat.

Definition IncrementSendKeyID (x : SendState) : SendState * option SessionError :=
  if MaxKeyID <=? sendKeyID x then (x, Some EKeyIDExhausted)
  else (mkSend (sendSym x) (sendTag x) (MessageCounter x) (dhRatchetCounter x) (consecutiveDHFailures x)
          (newEphemeralPub x) (sendKeyID x + 1) (pendingNextKeys x) (awaitingReverseKey x), None).

(** ** Diffie-Hellman ratchet *)

Definition deriveTagAndSymKeysFromChainKey (chainKey : bytes) : result SessionError (bytes * bytes) :=
  or_error EDerive (derive_keys chainKey hkdfInfoTagAndKeyGenKeys).

Definition set_send_chains (x : SendState) (symKey tagKey : bytes) : SendState :=
  mkSend (new_symmetric symKey) (new_tag tagKey) (MessageCounter x) (dhRatchetCounter x)
    (consecutiveDHFailures x) (newEphemeralPub x) (sendKeyID x) (pendingNextKeys x) (awaitingReverseKey x).

Definition set_recv_chains (x : RecvState) (symKey tagKey : bytes) : RecvState :=
  mkRecv (Some (new_symmetric symKey)) (Some (new_tag tagKey)) (recvWindowBase x) (recvFillMark x)
    (recvKeyCache x) (pendingTags x) (nextRecvTagCounter x) (recvKeyID x).

Definition applyRatchetKeys (s : Session) (sending : bool) : Session * option SessionError :=
  let '(dh, r) := dh_perform (dhRatchet s) in
  let s := set_dh s dh in
  match r with
  | None => (s, Some EDHPerform)
  | Some (sendingChainKey, receivingChainKey) =>
      let chainKey := if sending then sendingChainKey else receivingChainKey in
      match deriveTagAndSymKeysFromChainKey chainKey with
      | Err e => (s, Some e)
      | Ok (tagKey, symKey) =>
          (if sending then set_send s (set_send_chains (send s) symKey tagKey)
           else set_recv s (set_recv_chains (recv s) symKey tagKey), None)
      end
  end.

Definition applyRecvRatchetKeys (s : Session) : Session * option SessionError := applyRatchetKeys s false.
Definition applySendRatchetKeys (s : Session) : Session * option SessionError := applyRatchetKeys s true.

(** The state after a new key pair: the block is queued and the ID advances. *)
Definition queue_next_key (x : SendState) (newPubKey : bytes) (reverse requestReverse awaiting : bool)
    : SendState :=
  mkSend (sendSym x) (sendTag x) (MessageCounter x) (dhRatchetCounter x) (consecutiveDHFailures x)
    (Some newPubKey) (sendKeyID x + 1)
    (pendingNextKeys x ++ [NewNextKeyBlock (sendKeyID x) (Some newPubKey) reverse requestReverse])
    awaiting.

Definition performDHRatchetStep (s : Session) (rnd : bytes) : Session * option SessionError :=
  if MaxKeyID <=? sendKeyID (send s) then (s, Some EKeyIDExhausted)
  else
    let '(dh, newPub) := dh_generate rnd (dhRatchet s) in
    let s := set_dh s dh in
    match newPub with
    | None => (s, Some EDHGenerate)
    | Some newPubKey =>
        match applySendRatchetKeys s with
        | (s, Some e) => (s, Some e)
        | (s, None) => (set_send s (queue_next_key (send s) newPubKey false true true), None)
        end
    end.

Definition set_dh_counters (x : SendState) (counter failures : Z) : SendState :=
  mkSend (sendSym x) (sendTag x) (MessageCounter x) counter failures (newEphemeralPub x) (sendKeyID x)
    (pendingNextKeys x) (awaitingReverseKey x).

Definition attemptDHRatchetRotation (s : Session) (rnd : bytes) : Session * option SessionError :=
  let counter := u32 (dhRatchetCounter (send s) + 1) in
  let s := set_send s (set_dh_counters (send s) counter (consecutiveDHFailures (send s))) in
  if counter <? DHRatchetInterval then (s, None)
  else
    match performDHRatchetStep s rnd with
    | (s, Some e) =>
        let failures := u32 (consecutiveDHFailures (send s) + 1) in
        let s := set_send s (set_dh_counters (send s) (dhRatchetCounter (send s)) failures) in
        (s, if MaxConsecutiveDHFailures <=? failures then Some EDHFailedRepeatedly else None)
    | (s, None) => (set_send s (set_dh_counters (send s) 0 0), None)
    end.

(** ** Sending chains *)

Definition set_chains (x : SendState) (sym : SymmetricRatchet) (tag : TagRatchet) : SendState :=
  mkSend sym tag (MessageCounter x) (dhRatchetCounter x) (consecutiveDHFailures x) (newEphemeralPub x)
    (sendKeyID x) (pendingNextKeys x) (awaitingReverseKey x).

Definition deriveMessageKey (s : Session) : Session * result SessionError bytes :=
  let '(sym, key) := derive_message_key (sendSym (send s)) (MessageCounter (send s)) in
  (set_send s (set_chains (send s) sym (sendTag (send s))), or_error EMessageKey key).

Definition generateAndTrackSessionTag (s : Session) : Session * result SessionError bytes :=
  let '(tr, tag) := generate_next_tag (sendTag (send s)) in
  (set_send s (set_chains (send s) (sendSym (send s)) tr), or_error ESessionTag tag).

Definition advanceRatchets (s : Session) (rnd : bytes) : Session * result SessionError (bytes * bytes) :=
  if MaxMessageNumber <=? MessageCounter (send s) then (s, Err EMessageNumberExhausted)
  else
    match attemptDHRatchetRotation s rnd with
    | (s, Some e) => (s, Err e)
    | (s, None) =>
        match deriveMessageKey s with
        | (s, Err e) => (s, Err e)
        | (s, Ok messageKey) =>
            match generateAndTrackSessionTag s with
            | (s, Err e) => (s, Err e)
            | (s, Ok sessionTag) => (s, Ok (messageKey, sessionTag))
            end
        end
    end.

(** [prependPendingNextKeys]: the queued control blocks leave their queues and
    are serialised in front of the payload. *)
Definition prependPendingNextKeys (s : Session) (plaintext : bytes) : Session * result SessionError bytes :=
  let '(x, nextKeyBlocks) := GetPendingNextKeys (send s) in
  let s := set_send s x in
  let '(s, ackBlocks) := GetPendingAcks s in
  let pendingBlocks := nextKeyBlocks ++ ackBlocks in
  match pendingBlocks with
  | [] => (s, Ok plaintext)
  | _ =>
      (s, match build_loop pendingBlocks (total_size pendingBlocks + zlen plaintext) with
          | Err e => Err (EPayload e)
          | Ok control => Ok (control ++ plaintext)
          end)
  end.

Definition encryptWithSessionKey (messageKey plaintext sessionTag : bytes) (messageNumber : Z)
    : result SessionError (bytes * bytes) :=
  or_error EAEADEncrypt (aead_encrypt messageKey plaintext sessionTag (build_nonce messageNumber)).

Definition buildExistingSessionMessage (sessionTag ciphertext tag : bytes) : bytes :=
  sessionTag ++ ciphertext ++ tag.

(** [LastUsed] and [MessageCounter] after a message has been built. *)
Definition count_sent (s : Session) (now : Z) : Session :=
  let x := send s in
  set_used (set_send s
    (mkSend (sendSym x) (sendTag x) (u32 (MessageCounter x + 1)) (dhRatchetCounter x)
       (consecutiveDHFailures x) (newEphemeralPub x) (sendKeyID x) (pendingNextKeys x) (awaitingReverseKey x)))
    now.

Definition encryptExistingSession (s : Session) (plaintextGarlic rnd : bytes) (now : Z)
    : Session * result SessionError bytes :=
  if isInitiator s && bool_decide (is_Some (handshakeState s)) then (s, Err EAwaitingReply)
  else if negb (isInitiator s) && awaitingFirstES s then (s, Err EAwaitingFirstES)
  else
    match advanceRatchets s rnd with
    | (s, Err e) => (s, Err e)
    | (s, Ok (messageKey, sessionTag)) =>
        match prependPendingNextKeys s plaintextGarlic with
        | (s, Err e) => (s, Err e)
        | (s, Ok payload) =>
            match encryptWithSessionKey messageKey payload sessionTag (MessageCounter (send s)) with
            | Err e => (s, Err e)
            | Ok (ciphertext, tag) =>
                (count_sent s now, Ok (buildExistingSessionMessage sessionTag ciphertext tag))
            end
        end
    end.

(** ** Receive window *)

Definition parseExistingSessionMessage (msg : bytes) : result SessionError (bytes * bytes) :=
  if decide (length msg < 16)%nat then Err (EESTooShort (length msg))
  else Ok (take (length msg - 16) msg, drop (length msg - 16) msg).

Definition decryptWithSessionTag (messageKey ciphertext tag sessionTag : bytes) (messageNumber : Z)
    : option bytes :=
  aead_decrypt messageKey ciphertext tag sessionTag (build_nonce messageNumber).

Definition set_filled (x : RecvState) (sym : SymmetricRatchet) (mark : Z) (cache : gmap Z bytes) : RecvState :=
  mkRecv (Some sym) (recvTag x) (recvWindowBase x) mark cache (pendingTags x) (nextRecvTagCounter x)
    (recvKeyID x).

(** The loop of [fillRecvKeyCache]; [n] is the number of keys to derive. *)
Fixpoint fill_loop (n : nat) (x : RecvState) (sym : SymmetricRatchet) : RecvState * option SessionError :=
  match n with
  | O => (x, None)
  | S n =>
      let '(sym, key) := derive_message_key sym (recvFillMark x) in
      match key with
      | None => (set_filled x sym (recvFillMark x) (recvKeyCache x), Some EMessageKey)
      | Some k =>
          fill_loop n (set_filled x sym (recvFillMark x + 1) (<[recvFillMark x := k]> (recvKeyCache x))) sym
      end
  end.

Definition fillRecvKeyCache (x : RecvState) (upTo : Z) : RecvState * option SessionError :=
  match recvSym x with
  | None => (x, Some ERecvRatchetNil)
  | Some sym => fill_loop (Z.to_nat (upTo - recvFillMark x)) x sym
  end.

Definition resetRecvWindow (x : RecvState) : RecvState :=
  mkRecv (recvSym x) (recvTag x) 1 1 ∅ (pendingTags x) 1 (recvKeyID x).

Definition trimRecvWindowByPN (x : RecvState) (pn : Z) : RecvState :=
  mkRecv (recvSym x) (recvTag x) (recvWindowBase x) (recvFillMark x)
    (filter (fun kv => ~ (pn < kv.1 /\ kv.1 < recvWindowBase x)) (recvKeyCache x))
    (pendingTags x) (nextRecvTagCounter x) (recvKeyID x).

Definition try_counter (x : RecvState) (ciphertext tag sessionTag : bytes) (c : Z) : option (bytes * Z) :=
  match recvKeyCache x !! c with
  | None => None
  | Some messageKey =>
      match decryptWithSessionTag messageKey ciphertext tag sessionTag c with
      | None => None
      | Some pt => Some (pt, c)
      end
  end.

Definition tryCounterHintDecrypt (x : RecvState) (counterHint : option Z) (ciphertext tag sessionTag : bytes)
    (windowEnd : Z) : option (bytes * Z) :=
  match counterHint with
  | None => None
  | Some c =>
      if (c <? recvWindowBase x) || (windowEnd <=? c) then None
      else try_counter x ciphertext tag sessionTag c
  end.

(** The loop of [scanWindowDecrypt] over [n] counters from [counter]. *)
Fixpoint scan_loop (n : nat) (x : RecvState) (ciphertext tag sessionTag : bytes) (counter : Z)
    : option (bytes * Z) :=
  match n with
  | O => None
  | S n =>
      match try_counter x ciphertext tag sessionTag counter with
      | Some r => Some r
      | None => scan_loop n x ciphertext tag sessionTag (counter + 1)
      end
  end.

Definition scanWindowDecrypt (x : RecvState) (ciphertext tag sessionTag : bytes) (windowEnd : Z)
    : option (bytes * Z) :=
  scan_loop (Z.to_nat (windowEnd - recvWindowBase x)) x ciphertext tag sessionTag (recvWindowBase x).

(** The loop that moves the base past consumed counters; [n] bounds the turns. *)
Fixpoint advance_base (n : nat) (base : Z) (cache : gmap Z bytes) : Z :=
  match n with
  | O => base
  | S n => match cache !! base with Some _ => base | None => advance_base n (base + 1) cache end
  end.

Definition consume_counter (x : RecvState) (usedCounter : Z) : RecvState :=
  let cache := delete usedCounter (recvKeyCache x) in
  mkRecv (recvSym x) (recvTag x)
    (advance_base (Z.to_nat (recvFillMark x - recvWindowBase x)) (recvWindowBase x) cache)
    (recvFillMark x) cache (pendingTags x) (nextRecvTagCounter x) (recvKeyID x).

Definition window_end (x : RecvState) : Z :=
  let windowEnd := u32 (recvWindowBase x + recvWindowSize) in
  if windowEnd <? recvWindowBase x then u32 (recvFillMark x + recvWindowSize) else windowEnd.

(** The part of [decryptExistingSession] that works on the window: the plaintext
    and the counter it was opened with. *)
Definition open_message (x : RecvState) (msg sessionTag : bytes) (counterHint : option Z)
    : RecvState * result SessionError (bytes * Z) :=
  match parseExistingSessionMessage msg with
  | Err e => (x, Err e)
  | Ok (ciphertext, tag) =>
      let windowEnd := window_end x in
      match fillRecvKeyCache x windowEnd with
      | (x, Some e) => (x, Err e)
      | (x, None) =>
          let found := match tryCounterHintDecrypt x counterHint ciphertext tag sessionTag windowEnd with
                       | Some r => Some r
                       | None => scanWindowDecrypt x ciphertext tag sessionTag windowEnd
                       end in
          match found with
          | None => (x, Err ENoCounterMatches)
          | Some (plaintext, usedCounter) => (consume_counter x usedCounter, Ok (plaintext, usedCounter))
          end
      end
  end.

Definition decryptExistingSession (s : Session) (msg sessionTag : bytes) (counterHint : option Z) (now : Z)
    : Session * result SessionError (bytes * bytes) :=
  match open_message (recv s) msg sessionTag counterHint with
  | (x, Err e) => (set_recv s x, Err e)
  | (x, Ok (plaintext, _)) =>
      let s := set_recv s x in
      let s := if negb (isInitiator s) && awaitingFirstES s then set_awaitingES s false else s in
      (set_used s now, Ok (plaintext, sessionTag))
  end.

Definition processAckRequest (s : Session) : Session :=
  let highestConsumed :=
    if 1 <? recvWindowBase (recv s) then
      let base := recvWindowBase (recv s) - 1 in
      u16 (if MaxMessageNumber <? base then MaxMessageNumber else base)
    else 0 in
  set_acks s (pendingAcks s ++ [NewAckBlock [mkAckEntry (recvKeyID (recv s)) highestConsumed]]).

Definition processAck (s : Session) (block : PayloadBlock) : Session :=
  match Acks block with
  | Err _ => s
  | Ok acks => set_lastAcked s acks
  end.

(** ** NextKey blocks *)

Definition applyIncomingDHKey (s : Session) (remotePubKey : bytes) : Session * option SessionError :=
  let '(dh, ok) := dh_update (dhRatchet s) remotePubKey in
  let s := set_dh s dh in
  if negb ok then (s, Some EDHUpdate)
  else match applyRecvRatchetKeys s with
       | (s, Some e) => (s, Some e)
       | (s, None) => (set_remote s remotePubKey, None)
       end.

Definition set_recvKeyID (x : RecvState) (id : Z) : RecvState :=
  mkRecv (recvSym x) (recvTag x) (recvWindowBase x) (recvFillMark x) (recvKeyCache x) (pendingTags x)
    (nextRecvTagCounter x) id.

Definition set_awaitingReverse (x : SendState) (b : bool) : SendState :=
  mkSend (sendSym x) (sendTag x) (MessageCounter x) (dhRatchetCounter x) (consecutiveDHFailures x)
    (newEphemeralPub x) (sendKeyID x) (pendingNextKeys x) b.

Definition generateReverseNextKey (s : Session) (rnd : bytes) : Session * option SessionError :=
  if MaxKeyID <=? sendKeyID (send s) then (s, Some EKeyIDExhausted)
  else
    let '(dh, newPub) := dh_generate rnd (dhRatchet s) in
    let s := set_dh s dh in
    match newPub with
    | None => (s, Some EDHGenerate)
    | Some newPubKey =>
        (set_send s (queue_next_key (send s) newPubKey true false (awaitingReverseKey (send s))), None)
    end.

Definition processForwardNextKey (s : Session) (info : NextKeyInfo) (rnd : bytes)
    : Session * option SessionError :=
  match applyIncomingDHKey s (PublicKey info) with
  | (s, Some e) => (s, Some e)
  | (s, None) =>
      let s := set_recv s (set_recvKeyID (recv s) (KeyID info)) in
      if RequestReverse info then generateReverseNextKey s rnd else (s, None)
  end.

Definition processReverseNextKey (s : Session) (info : NextKeyInfo) : Session * option SessionError :=
  match applyIncomingDHKey s (PublicKey info) with
  | (s, Some e) => (s, Some e)
  | (s, None) =>
      let s := set_recv s (set_recvKeyID (recv s) (KeyID info)) in
      (set_send s (set_awaitingReverse (send s) false), None)
  end.

Definition processNextKeyWithKey (s : Session) (info : NextKeyInfo) (rnd : bytes)
    : Session * option SessionError :=
  if Reverse info then processReverseNextKey s info else processForwardNextKey s info rnd.

Definition processNextKeyAck (s : Session) (info : NextKeyInfo) : Session * option SessionError :=
  match applyIncomingDHKey s (RemotePublicKey s) with
  | (s, Some e) => (s, Some e)
  | (s, None) =>
      (if Reverse info then set_send s (set_awaitingReverse (send s) false) else s, None)
  end.

(** ** New Session Reply keys *)

(** The state changes of [applyNSRKeysToSessionWhileLocked] before the tags are
    generated again. *)
Definition apply_nsr_keys (s : Session) (nsrKeys : nsrSessionKeys) (initiator : bool)
    : result SessionError Session :=
  let '(sendKey, recvKey) := if initiator then (keyAB nsrKeys, keyBA nsrKeys) else (keyBA nsrKeys, keyAB nsrKeys) in
  let* st := deriveTagAndSymKeysFromChainKey sendKey in
  let* rt := deriveTagAndSymKeysFromChainKey recvKey in
  let x := send s in
  let s := set_send s (mkSend (new_symmetric st.2) (new_tag st.1) 1 (dhRatchetCounter x)
             (consecutiveDHFailures x) (newEphemeralPub x) (sendKeyID x) (pendingNextKeys x)
             (awaitingReverseKey x)) in
  let y := recv s in
  Ok (set_recv s (resetRecvWindow
        (mkRecv (Some (new_symmetric rt.2)) (Some (new_tag rt.1)) (recvWindowBase y) (recvFillMark y)
           (recvKeyCache y) [] (nextRecvTagCounter y) (recvKeyID y)))).

(** ** Each counter opens one message *)

Definition window_inv (x : RecvState) : Prop :=
  forall c k, recvKeyCache x !! c = Some k -> c < recvFillMark x.

Lemma fill_loop_window n x sym x' e :
  window_inv x -> fill_loop n x sym = (x', e) ->
  window_inv x' /\ recvFillMark x <= recvFillMark x'
  /\ (forall c, c < recvFillMark x -> recvKeyCache x' !! c = recvKeyCache x !! c).
Proof.
  revert x sym. induction n as [|n IH]; intros x sym Hinv; simpl.
  { intros [= <- <-]. auto with lia. }
  destruct (derive_message_key sym (recvFillMark x)) as [sym' [k|]].
  - intros Hf. apply IH in Hf as (Hi & Hle & Hold).
    + simpl in *. split_and!; [done|lia|]. intros c Hc. rewrite Hold by lia. apply lookup_insert_ne. lia.
    + intros c k'. simpl. destruct (decide (c = recvFillMark x)) as [->|Hne]; [lia|].
      rewrite lookup_insert_ne by done. intros Hc. apply Hinv in Hc. lia.
  - intros [= <- <-]. simpl. split_and!; [exact Hinv|lia|done].
Qed.

Lemma fillRecvKeyCache_window x upTo x' e :
  window_inv x -> fillRecvKeyCache x upTo = (x', e) ->
  window_inv x' /\ recvFillMark x <= recvFillMark x'
  /\ (forall c, c < recvFillMark x -> recvKeyCache x' !! c = recvKeyCache x !! c).
Proof.
  unfold fillRecvKeyCache. destruct (recvSym x); [apply fill_loop_window|].
  intros Hinv [= <- <-]. auto with lia.
Qed.

Lemma try_counter_cached x ct tag st c pt c' :
  try_counter x ct tag st c = Some (pt, c') ->
  c' = c /\ exists key, recvKeyCache x !! c = Some key /\ decryptWithSessionTag key ct tag st c = Some pt.
Proof.
  unfold try_counter. destruct (recvKeyCache x !! c) as [key|] eqn:Hc; [|done].
  destruct (decryptWithSessionTag key ct tag st c) eqn:Hd; [|done]. intros [= <- <-]. eauto.
Qed.

Lemma scan_loop_cached n x ct tag st c pt c' :
  scan_loop n x ct tag st c = Some (pt, c') ->
  exists key, recvKeyCache x !! c' = Some key /\ decryptWithSessionTag key ct tag st c' = Some pt.
Proof.
  revert c. induction n as [|n IH]; intros c; simpl; [done|].
  destruct (try_counter x ct tag st c) as [[pt0 c0]|] eqn:Ht; [|apply IH].
  intros [= <- <-]. apply try_counter_cached in Ht as (-> & Hk). done.
Qed.

(** What a successful opening means: the counter had a cached key, and the key
    is gone afterwards. *)
Lemma open_message_ok x msg st hint x' r :
  window_inv x -> open_message x msg st hint = (x', r) ->
  window_inv x' /\ recvFillMark x <= recvFillMark x'
  /\ (forall c, c < recvFillMark x -> recvKeyCache x !! c = None -> recvKeyCache x' !! c = None)
  /\ forall pt c, r = Ok (pt, c) ->
     c < recvFillMark x' /\ recvKeyCache x' !! c = None
     /\ ~ (c < recvFillMark x /\ recvKeyCache x !! c = None)
     /\ exists key, aead_decrypt key (take (length msg - 16) msg) (drop (length msg - 16) msg) st (build_nonce c)
                    = Some pt.
Proof.
  intros Hinv. unfold open_message, parseExistingSessionMessage. case_decide; [by intros [= <- <-]; auto with lia|].
  destruct (fillRecvKeyCache x (window_end x)) as [y [e|]] eqn:Hf;
    apply fillRecvKeyCache_window in Hf as (Hi & Hle & Hold); try done.
  { intros [= <- <-]. split_and!; [done|lia| |done]. intros c Hc. by rewrite Hold. }
  set (found := match tryCounterHintDecrypt _ _ _ _ _ _ with Some r => _ | None => _ end).
  destruct found as [[pt c]|] eqn:Hfound; subst found.
  2: { intros [= <- <-]. split_and!; [done|lia| |done]. intros c Hc. by rewrite Hold. }
  assert (Hkey : exists key, recvKeyCache y !! c = Some key
    /\ decryptWithSessionTag key (take (length msg - 16) msg) (drop (length msg - 16) msg) st c = Some pt).
  { revert Hfound. unfold tryCounterHintDecrypt, scanWindowDecrypt. destruct hint as [h|].
    - destruct ((h <? _) || _); [apply scan_loop_cached|].
      destruct (try_counter y _ _ _ h) as [[pt0 c0]|] eqn:Ht; [|apply scan_loop_cached].
      intros [= <- <-]. by apply try_counter_cached in Ht as (-> & ?).
    - apply scan_loop_cached. }
  destruct Hkey as (key & Hk & Hdec). intros [= <- <-]. simpl. split_and!.
  - intros c' k' Hc'. simpl in *. apply lookup_delete_Some in Hc' as [_ Hc']. by apply (Hi c' k').
  - lia.
  - intros c' Hc' Hn. apply lookup_delete_None. right. by rewrite Hold.
  - intros pt' c' [= <- <-]. split_and!.
    + by apply (Hi c key).
    + apply lookup_delete_eq.
    + intros [Hlt Hn]. rewrite Hold in Hk by done. congruence.
    + by exists key.
Qed.

(** A run of the window on any messages, with any tags and hints: the results. *)
Fixpoint open_all (x : RecvState) (msgs : list (bytes * bytes * option Z)) : RecvState * list (bytes * Z) :=
  match msgs with
  | [] => (x, [])
  | (msg, st, hint) :: rest =>
      match open_message x msg st hint with
      | (x, Ok r) => let '(x, rs) := open_all x rest in (x, r :: rs)
      | (x, Err _) => open_all x rest
      end
  end.

Lemma open_all_fresh msgs x x' rs (used : Z -> Prop) :
  window_inv x -> (forall c, used c -> c < recvFillMark x /\ recvKeyCache x !! c = None) ->
  open_all x msgs = (x', rs) ->
  NoDup rs.*2 /\ (forall c, c ∈ rs.*2 -> ~ used c).
Proof.
  revert x x' rs used. induction msgs as [|[[msg st] hint] msgs IH]; intros x x' rs used Hinv Hu; simpl.
  { intros [= <- <-]. simpl. split; [constructor|]. intros c Hc. by apply elem_of_nil in Hc. }
  destruct (open_message x msg st hint) as [y r] eqn:Ho.
  destruct (open_message_ok _ _ _ _ _ _ Hinv Ho) as (Hi & Hle & Hold & Hok).
  assert (Hu' : forall c, used c -> c < recvFillMark y /\ recvKeyCache y !! c = None).
  { intros c Hc. destruct (Hu c Hc). split; [lia|]. by apply Hold. }
  destruct r as [[pt c]|e]; [|by apply IH].
  destruct (open_all y msgs) as [z rs'] eqn:Ha. intros [= <- <-].
  destruct (Hok pt c eq_refl) as (Hlt & Hnone & Hnew & _).
  destruct (IH y z rs' (fun c' => used c' \/ c' = c) Hi) as [Hnd Hni]; [|done|].
  - intros c' [Hc'| ->]; auto.
  - rewrite fmap_cons. split.
    + constructor; [|done]. intros Hin. exact (Hni c Hin (or_intror eq_refl)).
    + intros c' [-> |Hin]%elem_of_cons; [|by intros ?; apply (Hni c' Hin); left].
      intros Hc. apply Hnew. by apply Hu.
Qed.

(** C34: replay protection of a session. Whatever messages arrive, with whatever tags
    and counter hints, in whatever order and however often, no two of them are
    opened with the same counter. *)
Theorem es_counter_used_once (remote priv : bytes) (keys : sessionKeys) (initiator : bool) (now : Z)
    (s : Session) (msgs : list (bytes * bytes * option Z)) (x' : RecvState) (opened : list (bytes * Z)) :
  createSession remote keys priv initiator now = Ok s ->
  open_all (recv s) msgs = (x', opened) -> NoDup opened.*2.
Proof.
  intros Hs Ho. unfold createSession in Hs. inv_binds. apply Ok_inj in Hs as <-.
  apply (open_all_fresh _ _ _ _ (fun _ => False)) in Ho as [Hnd _]; [done| |done].
  intros c k Hk. simpl in Hk. by apply lookup_empty_Some in Hk.
Qed.

(** A MessageNumber block never removes a key: the cache has no counter below
    the base of the window. *)
Lemma trim_keeps_all x pn :
  (forall c k, recvKeyCache x !! c = Some k -> recvWindowBase x <= c) ->
  trimRecvWindowByPN x pn = x.
Proof.
  intros Hb. unfold trimRecvWindowByPN. rewrite map_filter_id; [by destruct x|].
  intros c k Hk. apply Hb in Hk. simpl. lia.
Qed.

(** ** Chains

    The key and the tag of the message with counter [c] in a chain that starts
    at counter 1. *)

Fixpoint sym_iter (n : nat) (r : SymmetricRatchet) (c : Z) : SymmetricRatchet :=
  match n with
  | O => r
  | S n => sym_iter n (derive_message_key r c).1 (c + 1)
  end.

Fixpoint tag_iter (n : nat) (r : TagRatchet) : TagRatchet :=
  match n with
  | O => r
  | S n => tag_iter n (generate_next_tag r).1
  end.

Definition chain_sym (r0 : SymmetricRatchet) (c : Z) : SymmetricRatchet := sym_iter (Z.to_nat (c - 1)) r0 1.
Definition chain_key (r0 : SymmetricRatchet) (c : Z) : option bytes := (derive_message_key (chain_sym r0 c) c).2.
Definition chain_tagr (t0 : TagRatchet) (c : Z) : TagRatchet := tag_iter (Z.to_nat (c - 1)) t0.
Definition chain_tag (t0 : TagRatchet) (c : Z) : option bytes := (generate_next_tag (chain_tagr t0 c)).2.

Lemma sym_iter_snoc n r c :
  sym_iter (S n) r c = (derive_message_key (sym_iter n r c) (c + Z.of_nat n)).1.
Proof.
  revert r c. induction n as [|n IH]; intros r c; [by rewrite Z.add_0_r|].
  change (sym_iter (S n) (derive_message_key r c).1 (c + 1)
    = (derive_message_key (sym_iter n (derive_message_key r c).1 (c + 1)) (c + Z.of_nat (S n))).1).
  rewrite IH. do 2 f_equal. lia.
Qed.

Lemma tag_iter_snoc n t : tag_iter (S n) t = (generate_next_tag (tag_iter n t)).1.
Proof. revert t. induction n as [|n IH]; intros t; [done|]. apply IH. Qed.

Lemma chain_sym_next r0 c :
  1 <= c -> chain_sym r0 (c + 1) = (derive_message_key (chain_sym r0 c) c).1.
Proof.
  intros Hc. unfold chain_sym. replace (Z.to_nat (c + 1 - 1)) with (S (Z.to_nat (c - 1))) by lia.
  rewrite sym_iter_snoc. do 2 f_equal. lia.
Qed.

Lemma chain_tagr_next t0 c :
  1 <= c -> chain_tagr t0 (c + 1) = (generate_next_tag (chain_tagr t0 c)).1.
Proof.
  intros Hc. unfold chain_tagr. replace (Z.to_nat (c + 1 - 1)) with (S (Z.to_nat (c - 1))) by lia.
  apply tag_iter_snoc.
Qed.

Lemma chain_key_step r0 c k :
  1 <= c -> chain_key r0 c = Some k -> derive_message_key (chain_sym r0 c) c = (chain_sym r0 (c + 1), Some k).
Proof.
  intros Hc Hk. rewrite chain_sym_next by done. unfold chain_key in Hk.
  destruct (derive_message_key (chain_sym r0 c) c) as [r o]. simpl in *. by subst.
Qed.

Lemma chain_tag_step t0 c t :
  1 <= c -> chain_tag t0 c = Some t -> generate_next_tag (chain_tagr t0 c) = (chain_tagr t0 (c + 1), Some t).
Proof.
  intros Hc Ht. rewrite chain_tagr_next by done. unfold chain_tag in Ht.
  destruct (generate_next_tag (chain_tagr t0 c)) as [r o]. simpl in *. by subst.
Qed.

(** ** The sender *)

(** A session whose next message has counter [n], on the chains from [r0] and
    [t0], before the first rotation. *)
Definition sender_at (r0 : SymmetricRatchet) (t0 : TagRatchet) (n : Z) (s : Session) : Prop :=
  sendSym (send s) = chain_sym r0 n /\ sendTag (send s) = chain_tagr t0 n
  /\ MessageCounter (send s) = n /\ dhRatchetCounter (send s) = n - 1
  /\ pendingNextKeys (send s) = [] /\ pendingAcks s = []
  /\ (isInitiator s = true -> handshakeState s = None)
  /\ (isInitiator s = false -> awaitingFirstES s = false).

(** The Existing Session message with counter [c] and payload [pt]. *)
Definition es_message (r0 : SymmetricRatchet) (t0 : TagRatchet) (c : Z) (pt : bytes) : option bytes :=
  match chain_key r0 c, chain_tag t0 c with
  | Some k, Some t =>
      match aead_encrypt k pt t (build_nonce c) with
      | Some (ct, mac) => Some (t ++ ct ++ mac)
      | None => None
      end
  | _, _ => None
  end.

Lemma rotation_not_due s rnd n :
  0 <= n < DHRatchetInterval - 1 -> dhRatchetCounter (send s) = n ->
  attemptDHRatchetRotation s rnd
  = (set_send s (set_dh_counters (send s) (n + 1) (consecutiveDHFailures (send s))), None).
Proof.
  unfold DHRatchetInterval. intros Hn Hc. unfold attemptDHRatchetRotation. rewrite Hc.
  rewrite u32_small by (unfold is_u32; lia). unfold DHRatchetInterval.
  rewrite (proj2 (Z.ltb_lt (n + 1) 50)) by lia. done.
Qed.

Lemma encrypt_step r0 t0 n s pt rnd now :
  1 <= n < DHRatchetInterval -> sender_at r0 t0 n s -> is_Some (es_message r0 t0 n pt) ->
  exists s' msg, encryptExistingSession s pt rnd now = (s', Ok msg)
    /\ es_message r0 t0 n pt = Some msg /\ sender_at r0 t0 (n + 1) s'.
Proof.
  intros Hn (Hsym & Htag & Hmc & Hdh & Hpk & Hpa & Hhs & Hes) [msg Hmsg].
  unfold es_message in Hmsg. destruct (chain_key r0 n) as [k|] eqn:Hk; [|done].
  destruct (chain_tag t0 n) as [t|] eqn:Ht; [|done].
  destruct (aead_encrypt k pt t (build_nonce n)) as [[ct mac]|] eqn:He; [|done].
  unfold encryptExistingSession.
  assert (isInitiator s && bool_decide (is_Some (handshakeState s)) = false) as ->.
  { destruct (isInitiator s); [|done]. by rewrite Hhs. }
  assert (negb (isInitiator s) && awaitingFirstES s = false) as ->.
  { destruct (isInitiator s); [done|]. by rewrite Hes. }
  unfold advanceRatchets. rewrite Hmc, (proj2 (Z.leb_gt MaxMessageNumber n))
    by (unfold MaxMessageNumber, DHRatchetInterval in *; lia).
  rewrite (rotation_not_due s rnd (n - 1)) by (try done; unfold DHRatchetInterval in *; lia).
  unfold deriveMessageKey. cbn [send set_send set_dh_counters sendSym MessageCounter]. rewrite Hsym, Hmc.
  rewrite (chain_key_step r0 n k) by (done || lia). cbn [or_error].
  unfold generateAndTrackSessionTag. cbn [send set_send set_dh_counters set_chains sendSym sendTag]. rewrite Htag.
  rewrite (chain_tag_step t0 n t) by (done || lia). cbn [or_error].
  unfold prependPendingNextKeys, GetPendingNextKeys, GetPendingAcks.
  cbn [send set_send set_dh_counters set_chains set_acks pendingNextKeys pendingAcks MessageCounter].
  rewrite Hpk, Hpa. cbn [app]. unfold encryptWithSessionKey.
  cbn [send set_send set_dh_counters set_chains set_acks pendingNextKeys pendingAcks MessageCounter].
  rewrite Hmc, He. cbn [or_error].
  eexists _, _. split; [reflexivity|].
  unfold es_message. rewrite Hk, Ht, He. split; [done|].
  unfold sender_at, count_sent.
  cbn [send set_send set_dh_counters set_chains set_acks set_used pendingNextKeys pendingAcks MessageCounter
       sendSym sendTag dhRatchetCounter isInitiator handshakeState awaitingFirstES].
  rewrite ?Hmc. rewrite u32_small by (unfold is_u32, DHRatchetInterval in *; lia).
  split_and!; try done; lia.
Qed.

(** ** The receiver *)

(** A window on the chain from [r0] that has opened the counters [used]. *)
Definition receiver_at (r0 : SymmetricRatchet) (used : gset Z) (x : RecvState) : Prop :=
  recvSym x = Some (chain_sym r0 (recvFillMark x))
  /\ 1 <= recvWindowBase x <= recvFillMark x /\ recvFillMark x <= recvWindowBase x + recvWindowSize
  /\ (forall c, recvKeyCache x !! c
        = if decide (1 <= c < recvFillMark x /\ c ∉ used) then chain_key r0 c else None)
  /\ (forall c, c ∈ used -> 1 <= c < recvFillMark x)
  /\ (forall c, 1 <= c < recvWindowBase x -> c ∈ used)
  /\ (recvWindowBase x = recvFillMark x \/ recvWindowBase x ∉ used).

(** The fields the tags are kept in. *)
Definition same_tags (x x' : RecvState) : Prop :=
  recvTag x' = recvTag x /\ pendingTags x' = pendingTags x
  /\ nextRecvTagCounter x' = nextRecvTagCounter x /\ recvKeyID x' = recvKeyID x.

(** The part of [receiver_at] that holds of a window while it is being filled. *)
Definition filled_to (r0 : SymmetricRatchet) (used : gset Z) (mark : Z) (x : RecvState) : Prop :=
  recvSym x = Some (chain_sym r0 mark) /\ recvFillMark x = mark
  /\ forall c, recvKeyCache x !! c
        = if decide (1 <= c < mark /\ c ∉ used) then chain_key r0 c else None.

Lemma fill_loop_spec r0 used n x :
  (forall c, 1 <= c -> is_Some (chain_key r0 c)) ->
  1 <= recvFillMark x -> (forall c, c ∈ used -> c < recvFillMark x) ->
  filled_to r0 used (recvFillMark x) x ->
  exists x', fill_loop n x (chain_sym r0 (recvFillMark x)) = (x', None)
    /\ filled_to r0 used (recvFillMark x + Z.of_nat n) x'
    /\ recvWindowBase x' = recvWindowBase x /\ same_tags x x'.
Proof.
  intros Hk. revert x. induction n as [|n IH]; intros x Hm1 Hu (Hs & _ & Hc).
  { exists x. rewrite Z.add_0_r. by repeat split. }
  simpl. destruct (Hk (recvFillMark x) Hm1) as [k Hkk]. rewrite (chain_key_step _ _ _ Hm1 Hkk).
  set (y := set_filled x _ _ _).
  destruct (IH y) as (x' & Hf & Hfill & Hb & Ht).
  - simpl. lia.
  - intros c Hin. apply Hu in Hin. simpl. lia.
  - split_and!; [done|done|]. intros c. simpl.
    destruct (decide (c = recvFillMark x)) as [->|Hne].
    + rewrite lookup_insert_eq. rewrite decide_True; [done|]. split; [lia|]. intros Hin. apply Hu in Hin. lia.
    + rewrite lookup_insert_ne, Hc by done. apply decide_ext.
      split; (intros [? ?]; split; [lia|done]).
  - exists x'. split; [done|]. split; [|done]. simpl in Hfill.
    by replace (recvFillMark x + Z.of_nat (S n)) with (recvFillMark x + 1 + Z.of_nat n) by lia.
Qed.

Lemma advance_base_spec n base cache :
  let b := advance_base n base cache in
  base <= b <= base + Z.of_nat n /\ (forall c, base <= c < b -> cache !! c = None)
  /\ (b = base + Z.of_nat n \/ is_Some (cache !! b)).
Proof.
  revert base. induction n as [|n IH]; intros base; simpl.
  { split_and!; [lia|lia|intros; lia|lia]. }
  destruct (cache !! base) as [k|] eqn:Hb.
  { split_and!; [lia|lia|intros; lia|]. right. by exists k. }
  destruct (IH (base + 1)) as (Hle & Hn & Hs). split_and!; [lia|lia| |].
  - intros c Hc. destruct (decide (c = base)) as [->|]; [done|]. apply Hn. lia.
  - destruct Hs as [Hs|Hs]; [left; lia|by right].
Qed.

Lemma consume_receiver r0 used x c :
  (forall c, 1 <= c -> is_Some (chain_key r0 c)) ->
  receiver_at r0 used x -> recvWindowBase x <= c < recvFillMark x -> c ∉ used ->
  receiver_at r0 ({[c]} ∪ used) (consume_counter x c) /\ same_tags x (consume_counter x c).
Proof.
  intros Hk (Hs & Hb & Hw & Hc & Hu & Hlow & Hbase) Hcr Hn. split; [|done].
  unfold receiver_at, consume_counter. cbn [recvSym recvFillMark recvWindowBase recvKeyCache].
  set (cache := delete c (recvKeyCache x)).
  assert (Hcache : forall d, cache !! d
    = if decide (1 <= d < recvFillMark x /\ d ∉ ({[c]} ∪ used : gset Z)) then chain_key r0 d else None).
  { intros d. unfold cache. destruct (decide (d = c)) as [->|Hne].
    - rewrite lookup_delete_eq, decide_False; [done|]. set_solver.
    - rewrite lookup_delete_ne, Hc by done. apply decide_ext. set_solver. }
  pose proof (advance_base_spec (Z.to_nat (recvFillMark x - recvWindowBase x)) (recvWindowBase x) cache) as Ha.
  cbv zeta in Ha. set (b := advance_base _ _ _) in *. destruct Ha as (Hle & Hgap & Hstop).
  rewrite Z2Nat.id in Hle, Hstop by lia.
  split_and!; [done|lia|lia|lia|done| | |].
  - intros d [->%elem_of_singleton|Hd]%elem_of_union; [lia|by apply Hu].
  - intros d Hd. destruct (decide (d < recvWindowBase x)); [apply elem_of_union; right; apply Hlow; lia|].
    pose proof (Hgap d ltac:(lia)) as Hnone. rewrite Hcache in Hnone. case_decide as Hdd.
    + destruct (Hk d) as [k Hkd]; [lia|congruence].
    + destruct (decide (d ∈ ({[c]} ∪ used : gset Z))); [done|]. exfalso. apply Hdd. split; [lia|done].
  - destruct Hstop as [Hstop|[k Hstop]]; [left; lia|]. right. rewrite Hcache in Hstop.
    case_decide as Hdd; [|done]. by destruct Hdd.
Qed.

Lemma window_end_small x :
  1 <= recvWindowBase x -> recvWindowBase x + recvWindowSize < 2 ^ 32 ->
  window_end x = recvWindowBase x + recvWindowSize.
Proof.
  unfold recvWindowSize. intros Hb1 Hb2. unfold window_end, recvWindowSize.
  rewrite u32_small by (unfold is_u32; lia). by rewrite (proj2 (Z.ltb_ge _ _)) by lia.
Qed.

(** A message of the chain whose counter is in the window and has not been used
    is opened. *)
Lemma open_step r0 used x k c pt t ct mac :
  (forall c, 1 <= c -> is_Some (chain_key r0 c)) ->
  receiver_at r0 used x -> recvWindowBase x + recvWindowSize < 2 ^ 32 ->
  1 <= c < recvWindowBase x + recvWindowSize -> c ∉ used ->
  chain_key r0 c = Some k -> aead_encrypt k pt t (build_nonce c) = Some (ct, mac) ->
  exists x', open_message x (ct ++ mac) t (Some c) = (x', Ok (pt, c))
    /\ receiver_at r0 ({[c]} ∪ used) x' /\ same_tags x x'.
Proof.
  intros Hk Hr Hbig Hc Hn Hck He. pose proof Hr as (Hs & Hb & Hw & Hcache & Hu & Hlow & Hbase).
  destruct (aead_lengths _ _ _ _ _ _ He) as [_ Hmac].
  unfold open_message, parseExistingSessionMessage. rewrite length_app, Hmac, Nat.add_sub.
  rewrite decide_False by lia. rewrite take_app_length, drop_app_length.
  rewrite window_end_small by lia. unfold fillRecvKeyCache. rewrite Hs.
  destruct (fill_loop_spec r0 used (Z.to_nat (recvWindowBase x + recvWindowSize - recvFillMark x)) x)
    as (y & Hf & (Hys & Hym & Hyc) & Hyb & Hyt); [done|lia|intros d Hd; apply Hu in Hd; lia|by split_and!|].
  rewrite Hf. rewrite Z2Nat.id in Hys, Hym, Hyc by lia.
  replace (recvFillMark x + (recvWindowBase x + recvWindowSize - recvFillMark x))
    with (recvWindowBase x + recvWindowSize) in * by lia.
  assert (Hlo : recvWindowBase x <= c).
  { destruct (decide (recvWindowBase x <= c)); [done|]. exfalso. apply Hn, Hlow. lia. }
  unfold tryCounterHintDecrypt. rewrite Hyb.
  rewrite (proj2 (Z.ltb_ge c (recvWindowBase x))) by lia.
  rewrite (proj2 (Z.leb_gt _ c)) by lia. cbn [orb]. unfold try_counter.
  rewrite Hyc, decide_True by (split; [lia|done]). rewrite Hck. unfold decryptWithSessionTag.
  rewrite (aead_decrypt_encrypt _ _ _ _ _ _ He).
  destruct (consume_receiver r0 used y c) as [Hrec Htags]; [done| |rewrite Hym, Hyb; lia|done|].
  - split_and!; rewrite ?Hym, ?Hyb; try done; try lia.
    + intros d Hd. apply Hu in Hd. lia.
    + right. destruct Hbase as [Hbf|Hbn]; [|done]. intros Hin. apply Hu in Hin. lia.
  - eexists. split; [reflexivity|]. split; [done|].
    unfold same_tags in *. naive_solver congruence.
Qed.

End RatchetSession.

(** ** Witness *)

#[local] Existing Instances demo_hash demo_curve demo_aead demo_noise demo_ratchet.

Definition demo_session_keys : sessionKeys := mkSessionKeys (replicate 32 x01) (replicate 32 x02) (replicate 32 x03).

Definition demo_created : result SessionError Session := createSession demo_sa demo_session_keys demo_sb true 0.

Definition demo_recv : RecvState :=
  match demo_created with Ok s => recv s | Err _ => mkRecv None None 0 0 ∅ [] 0 0 end.

(** The second message, the first, and the second again, without a hint. *)
Definition demo_stream (x : RecvState) : list (bytes * bytes * option Z) :=
  match recvSym x, recvTag x with
  | Some r, Some t =>
      let msg c := default [] (es_message r t c [x01; x02; x03]) in
      [(drop 8 (msg 2), take 8 (msg 2), Some 2); (drop 8 (msg 1), take 8 (msg 1), None);
       (drop 8 (msg 2), take 8 (msg 2), None)]
  | _, _ => []
  end.

Lemma demo_opened :
  (open_all demo_recv (demo_stream demo_recv)).2 = [([x01; x02; x03], 2); ([x01; x02; x03], 1)].
Proof. vm_compute. reflexivity. Qed.

Lemma demo_created_ok : match demo_created with Ok _ => True | Err _ => False end.
Proof. vm_compute. exact I. Qed.

Lemma es_counter_used_once_witness :
  exists s x' opened, demo_created = Ok s
    /\ open_all (recv s) (demo_stream (recv s)) = (x', opened)
    /\ opened = [([x01; x02; x03], 2); ([x01; x02; x03], 1)] /\ NoDup opened.*2.
Proof.
  pose proof demo_created_ok as Hok. pose proof demo_opened as Hop. revert Hok Hop. unfold demo_recv.
  destruct demo_created as [s|e] eqn:Hs; intros Hok Hop; [|destruct Hok].
  destruct (open_all (recv s) (demo_stream (recv s))) as [x' opened] eqn:Ho.
  exists s, x', opened. split; [reflexivity|]. split; [exact Ho|]. split; [exact Hop|].
  exact (es_counter_used_once demo_sa demo_sb demo_session_keys true 0 s _ x' opened Hs Ho).
Defined.
