(* ===== verification/SessionManager.v ===== *)
(** * The session manager of the ratchet

    [ratchet/session_manager.go], [ratchet/session_table.go],
    [ratchet/session_lifecycle.go], [ratchet/session_freshness.go] and the
    manager's parts of [ratchet/session_encrypt.go], [ratchet/session_decrypt.go]
    and [ratchet/nextkey.go].

    The manager's maps hold pointers to sessions, and a session can be reachable
    from the tag indices after it left the session table. The sessions are in a
    heap; a pointer is a key of the heap. A call of the API is one step: the
    model gives each call exclusive access, where the code takes and releases
    the manager's and the session's lock within a call. *)

From Stdlib Require Import ZArith Lia.
From Stdlib Require Import Strings.Byte Strings.String.
From stdpp Require Import base numbers list gmap.
From S2P Require Import Prelude Crypto NoiseIK RatchetPayload ReplayCache RatchetSession.

#[local] Open Scope Z_scope.
#[local] Open Scope go_scope.

Definition MaxGarlicSessions : nat := 5000.
Definition MaxSessionsPerPeer : Z := 32.
Definition maxReplenishAttempts : nat := 3.

Definition Minute : Z := 60 * Second.
Definition defaultNSMaxPastAge : Z := 5 * Minute.
Definition defaultNSMaxFutureAge : Z := 2 * Minute.
Definition nsReplayCacheMaxSize : Z := 50000.
Definition nsReplayCacheCleanupInterval : Z := 30 * Second.

Definition zero8 : bytes := replicate 8 x00.

(** [bytesLess]: lexicographic order. *)
Fixpoint bytesLess (a b : bytes) : bool :=
  match a, b with
  | [], [] => false
  | [], _ :: _ => true
  | _ :: _, [] => false
  | x :: a, y :: b =>
      if b2z x <? b2z y then true else if b2z y <? b2z x then false else bytesLess a b
  end.

(** [removeTagFromPendingList]: the last tag takes the place of the removed one. *)
Fixpoint removeTagFromPendingList (tag : bytes) (l : list bytes) : list bytes :=
  match l with
  | [] => []
  | t :: rest =>
      if decide (t = tag) then
        match reverse rest with
        | [] => []
        | z :: front => z :: reverse front
        end
      else t :: removeTagFromPendingList tag rest
  end.

Section SessionManager.
Context `{HashLib, CurveLib, AEADLib, NoiseLib, RatchetLib}.
Context {Rs : GoRange bytes positive} {Rt : GoRange bytes Z} {Srt : GoSort (bytes * Z)}.

(** ** State *)

Record SessionManager := mkSM {
  heap : gmap positive Session;
  nextPtr : positive;
  sessions : gmap bytes positive;
  tagIndex : gmap bytes positive;
  nsrTagIndex : gmap bytes positive;
  tagCounterIndex : gmap bytes Z;
  oneTimeKeys : gmap bytes bytes;
  ourPrivateKey : bytes;
  ourPublicKey : bytes;
  sessionTimeout : Z;
  nsMaxPastAge : Z;
  nsMaxFutureAge : Z;
  nsReplayCache : TTLCache;
}.

Definition set_heap (m : SessionManager) (h : gmap positive Session) : SessionManager :=
  mkSM h (nextPtr m) (sessions m) (tagIndex m) (nsrTagIndex m) (tagCounterIndex m) (oneTimeKeys m)
    (ourPrivateKey m) (ourPublicKey m) (sessionTimeout m) (nsMaxPastAge m) (nsMaxFutureAge m) (nsReplayCache m).

Definition set_sessions (m : SessionManager) (s : gmap bytes positive) : SessionManager :=
  mkSM (heap m) (nextPtr m) s (tagIndex m) (nsrTagIndex m) (tagCounterIndex m) (oneTimeKeys m)
    (ourPrivateKey m) (ourPublicKey m) (sessionTimeout m) (nsMaxPastAge m) (nsMaxFutureAge m) (nsReplayCache m).

Definition set_tags (m : SessionManager) (t : gmap bytes positive) (c : gmap bytes Z) : SessionManager :=
  mkSM (heap m) (nextPtr m) (sessions m) t (nsrTagIndex m) c (oneTimeKeys m)
    (ourPrivateKey m) (ourPublicKey m) (sessionTimeout m) (nsMaxPastAge m) (nsMaxFutureAge m) (nsReplayCache m).

Definition set_nsr (m : SessionManager) (t : gmap bytes positive) : SessionManager :=
  mkSM (heap m) (nextPtr m) (sessions m) (tagIndex m) t (tagCounterIndex m) (oneTimeKeys m)
    (ourPrivateKey m) (ourPublicKey m) (sessionTimeout m) (nsMaxPastAge m) (nsMaxFutureAge m) (nsReplayCache m).

Definition set_oneTime (m : SessionManager) (k : gmap bytes bytes) : SessionManager :=
  mkSM (heap m) (nextPtr m) (sessions m) (tagIndex m) (nsrTagIndex m) (tagCounterIndex m) k
    (ourPrivateKey m) (ourPublicKey m) (sessionTimeout m) (nsMaxPastAge m) (nsMaxFutureAge m) (nsReplayCache m).

Definition set_replay (m : SessionManager) (c : TTLCache) : SessionManager :=
  mkSM (heap m) (nextPtr m) (sessions m) (tagIndex m) (nsrTagIndex m) (tagCounterIndex m) (oneTimeKeys m)
    (ourPrivateKey m) (ourPublicKey m) (sessionTimeout m) (nsMaxPastAge m) (nsMaxFutureAge m) c.

(** [session.f = ...] through a pointer. *)
Definition put (m : SessionManager) (p : positive) (s : Session) : SessionManager :=
  set_heap m (<[p := s]> (heap m)).

(** [&Session{...}]. *)
Definition alloc (m : SessionManager) (s : Session) : SessionManager * positive :=
  (mkSM (<[nextPtr m := s]> (heap m)) (Pos.succ (nextPtr m)) (sessions m) (tagIndex m) (nsrTagIndex m)
     (tagCounterIndex m) (oneTimeKeys m) (ourPrivateKey m) (ourPublicKey m) (sessionTimeout m)
     (nsMaxPastAge m) (nsMaxFutureAge m) (nsReplayCache m),
   nextPtr m).

Definition nsReplayCacheTTL (pastAge futureAge : Z) : Z := pastAge + futureAge + Minute.

Definition NewSessionManager (privateKey : bytes) (pastAge futureAge : Z) : SessionManager :=
  mkSM ∅ 1 ∅ ∅ ∅ ∅ ∅ privateKey (x25519_public privateKey) (10 * Minute) pastAge futureAge
    (New (mkConfig (nsReplayCacheTTL pastAge futureAge) nsReplayCacheMaxSize nsReplayCacheCleanupInterval)).

Definition RegisterOneTimeKey (m : SessionManager) (tag key : bytes) : SessionManager :=
  set_oneTime m (<[tag := key]> (oneTimeKeys m)).

(** ** Removal of sessions *)

(** [delete(sm.tagIndex, tag); delete(sm.tagCounterIndex, tag)] for each tag. *)
Definition drop_tags (m : SessionManager) (tags : list bytes) : SessionManager :=
  set_tags m (foldl (fun ix t => delete t ix) (tagIndex m) tags)
             (foldl (fun ix t => delete t ix) (tagCounterIndex m) tags).

Definition drop_nsr (m : SessionManager) (tag : option bytes) : SessionManager :=
  match tag with Some t => set_nsr m (delete t (nsrTagIndex m)) | None => m end.

(** The statements that remove the session stored under [hash]: its tags leave
    the indices and the entry leaves the table. *)
Definition remove_session (m : SessionManager) (hash : bytes) (s : Session) : SessionManager :=
  let m := drop_tags m (pendingTags (recv s)) in
  let m := drop_nsr m (nsrTag s) in
  set_sessions m (delete hash (sessions m)).

(** The first key of the range that holds the pointer. *)
Fixpoint find_pointer (p : positive) (l : list (bytes * positive)) : option bytes :=
  match l with
  | [] => None
  | (hash, q) :: rest => if decide (q = p) then Some hash else find_pointer p rest
  end.

Definition removeSessionByPointer (m : SessionManager) (p : positive) : SessionManager :=
  match find_pointer p (go_range (sessions m)), heap m !! p with
  | Some hash, Some s => remove_session m hash s
  | _, _ => m
  end.

(** The loop of [evictLRUSessionLocked]: the oldest entry so far. *)
Fixpoint lru_scan (h : gmap positive Session) (l : list (bytes * positive)) (best : option (bytes * Z))
    : option (bytes * Z) :=
  match l with
  | [] => best
  | (hash, p) :: rest =>
      let used := match h !! p with Some s => LastUsed s | None => 0 end in
      lru_scan h rest
        (match best with
         | None => Some (hash, used)
         | Some (oldestHash, oldestTime) =>
             if (used <? oldestTime) || ((used =? oldestTime) && bytesLess hash oldestHash)
             then Some (hash, used) else best
         end)
  end.

Definition evict_hash (m : SessionManager) (hash : bytes) : SessionManager :=
  match sessions m !! hash with
  | None => m
  | Some p => match heap m !! p with None => m | Some s => remove_session m hash s end
  end.

Definition evictLRUSessionLocked (m : SessionManager) : SessionManager :=
  match lru_scan (heap m) (go_range (sessions m)) None with
  | None => m
  | Some (oldestHash, _) => evict_hash m oldestHash
  end.

(** The loop of [enforcePerPeerQuotaLocked]: the number of the peer's sessions,
    the oldest of them, and the oldest that is established. *)
Fixpoint quota_scan (h : gmap positive Session) (remotePubKey : bytes) (l : list (bytes * positive))
    (count : Z) (oldest established : option (bytes * Z)) : Z * option (bytes * Z) * option (bytes * Z) :=
  match l with
  | [] => (count, oldest, established)
  | (hash, p) :: rest =>
      match h !! p with
      | None => quota_scan h remotePubKey rest count oldest established
      | Some s =>
          if decide (RemotePublicKey s <> remotePubKey) then quota_scan h remotePubKey rest count oldest established
          else
            let older best := match best with
                              | None => Some (hash, LastUsed s)
                              | Some (_, t) => if LastUsed s <? t then Some (hash, LastUsed s) else best
                              end in
            let isEstablished := bool_decide (nsrTag s = None) && negb (bool_decide (is_Some (handshakeState s))) in
            quota_scan h remotePubKey rest (count + 1) (older oldest)
              (if isEstablished then older established else established)
      end
  end.

Definition enforcePerPeerQuotaLocked (m : SessionManager) (remotePubKey : bytes) : SessionManager :=
  let '(count, oldest, established) := quota_scan (heap m) remotePubKey (go_range (sessions m)) 0 None None in
  if count <? MaxSessionsPerPeer then m
  else match oldest with
       | None => m
       | Some (oldestHash, _) =>
           evict_hash m (match established with Some (h, _) => h | None => oldestHash end)
       end.

Definition expired (m : SessionManager) (now : Z) (s : Session) : bool :=
  sessionTimeout m <? time_sub now (LastUsed s).

(** One turn of the loop of [CleanupExpiredSessions]. *)
Definition cleanup_entry (now : Z) (m : SessionManager) (e : bytes * positive) : SessionManager :=
  match heap m !! e.2 with
  | None => m
  | Some s => if expired m now s then remove_session m e.1 s else m
  end.

Definition CleanupExpiredSessions (m : SessionManager) (now : Z) : SessionManager :=
  foldl (cleanup_entry now) m (go_range (sessions m)).

Definition GetSessionCount (m : SessionManager) : Z := Z.of_nat (size (sessions m)).

Definition SessionManager_Close (m : SessionManager) : SessionManager :=
  mkSM (heap m) (nextPtr m) ∅ ∅ ∅ ∅ (oneTimeKeys m) zero32 (ourPublicKey m) (sessionTimeout m)
    (nsMaxPastAge m) (nsMaxFutureAge m) (ReplayCache.Reset (ReplayCache.Close (nsReplayCache m))).

(** ** Tags *)

Definition set_tag_window (x : RecvState) (tr : TagRatchet) (pending : list bytes) (next : Z) : RecvState :=
  mkRecv (recvSym x) (Some tr) (recvWindowBase x) (recvFillMark x) (recvKeyCache x) pending next (recvKeyID x).

(** A tag that belongs to another session. *)
Definition tag_collides (m : SessionManager) (p : positive) (tag : bytes) : bool :=
  match tagIndex m !! tag with
  | Some q => negb (bool_decide (q = p))
  | None => false
  end.

Definition register_tag (m : SessionManager) (p : positive) (tag : bytes) (counter : Z) : SessionManager :=
  set_tags m (<[tag := p]> (tagIndex m)) (<[tag := counter]> (tagCounterIndex m)).

(** The loop of [generateTagWindow]. It ends when the window is full; [fuel]
    bounds the turns, and running out of it is [None]. *)
Fixpoint tag_window_loop (fuel : nat) (m : SessionManager) (p : positive) (s : Session) (tr : TagRatchet)
    : option (SessionManager * option SessionError) :=
  if decide (tagWindowSize <= length (pendingTags (recv s)))%nat then Some (put m p s, None)
  else match fuel with
       | O => None
       | S fuel =>
           let '(tr, tag) := generate_next_tag tr in
           let x := recv s in
           match tag with
           | None =>
               Some (put m p (set_recv s (set_tag_window x tr (pendingTags x) (nextRecvTagCounter x))),
                     Some ESessionTag)
           | Some tag =>
               let counter := nextRecvTagCounter x in
               let next := u32 (counter + 1) in
               if tag_collides m p tag
               then tag_window_loop fuel m p (set_recv s (set_tag_window x tr (pendingTags x) next)) tr
               else tag_window_loop fuel (register_tag m p tag counter) p
                      (set_recv s (set_tag_window x tr (pendingTags x ++ [tag]) next)) tr
           end
       end.

(** Enough turns when the tags the ratchet gives are distinct: at most one
    collision for each tag of the index. *)
Definition tag_window_fuel (m : SessionManager) : nat := tagWindowSize + size (tagIndex m).

(** [generateTagWindow] on the session at [p]. If the ratchet repeats itself the
    loop of the code need not end; the model then keeps the state and reports
    [ESessionTag]. *)
Definition generateTagWindow (m : SessionManager) (p : positive) : SessionManager * option SessionError :=
  match heap m !! p with
  | None => (m, Some ENoSession)
  | Some s =>
      match recvTag (recv s) with
      | None => (m, Some ERecvRatchetNil)
      | Some tr => default (m, Some ESessionTag) (tag_window_loop (tag_window_fuel m) m p s tr)
      end
  end.

(** The loop of [generateTagsOutsideLock]: [n] tags with their counters. *)
Fixpoint generate_tags (n : nat) (x : RecvState) (tr : TagRatchet) (acc : list (bytes * Z))
    : RecvState * result SessionError (list (bytes * Z)) :=
  match n with
  | O => (x, Ok acc)
  | S n =>
      let '(tr, tag) := generate_next_tag tr in
      match tag with
      | None => (set_tag_window x tr (pendingTags x) (nextRecvTagCounter x), Err ESessionTag)
      | Some tag =>
          let counter := nextRecvTagCounter x in
          generate_tags n (set_tag_window x tr (pendingTags x) (u32 (counter + 1))) tr (acc ++ [(tag, counter)])
      end
  end.

Definition generateTagsOutsideLock (x : RecvState) : RecvState * result SessionError (list (bytes * Z)) :=
  match recvTag x with
  | None => (x, Err ERecvRatchetNil)
  | Some tr => generate_tags (tagWindowSize - length (pendingTags x)) x tr []
  end.

Definition set_pending (x : RecvState) (pending : list bytes) : RecvState :=
  mkRecv (recvSym x) (recvTag x) (recvWindowBase x) (recvFillMark x) (recvKeyCache x) pending
    (nextRecvTagCounter x) (recvKeyID x).

Fixpoint installGeneratedTagsLocked (m : SessionManager) (p : positive) (s : Session) (newTags : list (bytes * Z))
    : SessionManager * Session :=
  match newTags with
  | [] => (m, s)
  | (tag, counter) :: rest =>
      if decide (tagWindowSize <= length (pendingTags (recv s)))%nat then (m, s)
      else if tag_collides m p tag then installGeneratedTagsLocked m p s rest
      else installGeneratedTagsLocked (register_tag m p tag counter) p
             (set_recv s (set_pending (recv s) (pendingTags (recv s) ++ [tag]))) rest
  end.

(** The attempts of [replenishTagWindowOutsideLock]. *)
Fixpoint replenish_loop (attempts : nat) (m : SessionManager) (p : positive) : SessionManager :=
  match attempts, heap m !! p with
  | S attempts, Some s =>
      if decide (tagWindowSize <= length (pendingTags (recv s)))%nat then m
      else
        let '(x, r) := generateTagsOutsideLock (recv s) in
        let s := set_recv s x in
        match r with
        | Err _ => put m p s
        | Ok newTags =>
            let '(m, s) := installGeneratedTagsLocked m p s newTags in
            let m := put m p s in
            if decide (tagWindowSize <= length (pendingTags (recv s)))%nat then m
            else replenish_loop attempts m p
        end
  | _, _ => m
  end.

Definition replenishTagWindowOutsideLock (m : SessionManager) (p : positive) : SessionManager :=
  replenish_loop maxReplenishAttempts m p.

Definition lookupSessionByTag (m : SessionManager) (tag : bytes)
    : SessionManager * option (positive * option Z) :=
  match tagIndex m !! tag with
  | None => (m, None)
  | Some p =>
      (set_tags m (delete tag (tagIndex m)) (delete tag (tagCounterIndex m)),
       Some (p, tagCounterIndex m !! tag))
  end.

(** [validateAndConsumeTagFromSession]: whether the session is valid, and
    whether its window needs new tags. *)
Definition validateAndConsumeTagFromSession (m : SessionManager) (p : positive) (tag : bytes) (now : Z)
    : SessionManager * bool * bool :=
  match heap m !! p with
  | None => (m, false, false)
  | Some s =>
      if expired m now s then (m, false, false)
      else
        let pending := removeTagFromPendingList tag (pendingTags (recv s)) in
        (put m p (set_recv s (set_pending (recv s) pending)), true,
         bool_decide (length pending < tagReplenishThreshold)%nat)
  end.

Definition FindSessionByTag (m : SessionManager) (tag : bytes) (now : Z) : SessionManager * bool :=
  match lookupSessionByTag m tag with
  | (m, None) => (m, false)
  | (m, Some (p, _)) =>
      match validateAndConsumeTagFromSession m p tag now with
      | (m, false, _) => (m, false)
      | (m, true, needsReplenish) => (if needsReplenish then replenishTagWindowOutsideLock m p else m, true)
      end
  end.

(** ** New sessions *)

Definition registerNSRTagLocked (m : SessionManager) (p : positive) (s : Session) (hs : noiseHandshakeState)
    : SessionManager * option SessionError :=
  match nsr_tag (hs_ck hs) with
  | Err e => (m, Some (ENoise e))
  | Ok tag =>
      let m := put m p (set_nsrTag s (Some tag)) in
      (set_nsr m (<[tag := p]> (nsrTagIndex m)), None)
  end.

(** The evictions before a session is stored. *)
Definition make_room (m : SessionManager) (remotePubKey : bytes) : SessionManager :=
  let m := if decide (MaxGarlicSessions <= size (sessions m))%nat then evictLRUSessionLocked m else m in
  enforcePerPeerQuotaLocked m remotePubKey.

Definition storeNewSessionState (m : SessionManager) (destinationHash destinationPubKey : bytes)
    (keys : sessionKeys) (hs : noiseHandshakeState) (initiator : bool) (now : Z)
    : SessionManager * option SessionError :=
  match createSession destinationPubKey keys (ourPrivateKey m) initiator now with
  | Err e => (m, Some e)
  | Ok session =>
      let session := set_initiator (set_handshake session (Some hs)) initiator in
      let '(m, p) := alloc m session in
      let m := make_room m destinationPubKey in
      match (if initiator then registerNSRTagLocked m p session hs else (m, None)) with
      | (m, Some e) => (m, Some e)
      | (m, None) => generateTagWindow (set_sessions m (<[destinationHash := p]> (sessions m))) p
      end
  end.

Definition initializeInboundRatchetState (m : SessionManager) (remotePubKey : bytes) (keys : sessionKeys)
    (hs : option noiseHandshakeState) (now : Z) : SessionManager * option SessionError :=
  match createSession remotePubKey keys (ourPrivateKey m) false now with
  | Err e => (m, Some e)
  | Ok session =>
      let session := set_initiator (set_handshake session hs) false in
      let '(m, p) := alloc m session in
      let m := make_room m remotePubKey in
      generateTagWindow (set_sessions m (<[sha256 remotePubKey := p]> (sessions m))) p
  end.

(** ** Encryption *)

Definition encryptNewSession (m : SessionManager) (destinationHash destinationPubKey plaintextGarlic rnd : bytes)
    (now : Z) : SessionManager * result SessionError bytes :=
  match ValidateNewSessionPayload plaintextGarlic with
  | Some e => (m, Err (EPayload e))
  | None =>
      match writeNoiseIKMessage1 rnd (ourPrivateKey m) (ourPublicKey m) destinationPubKey plaintextGarlic with
      | Err e => (m, Err (ENoise e))
      | Ok (msg, keys, hs) =>
          match storeNewSessionState m destinationHash destinationPubKey keys hs true now with
          | (m, Some e) => (m, Err e)
          | (m, None) => (m, Ok msg)
          end
      end
  end.

Definition EncryptGarlicMessage (m : SessionManager) (destinationHash destinationPubKey plaintextGarlic rnd : bytes)
    (now : Z) : SessionManager * result SessionError bytes :=
  match plaintextGarlic with
  | [] => (m, Err EPlaintextEmpty)
  | _ =>
      match sessions m !! destinationHash with
      | Some p =>
          match heap m !! p with
          | None => (m, Err ENoSession)
          | Some s =>
              let '(s, r) := encryptExistingSession s plaintextGarlic rnd now in
              (put m p s, r)
          end
      | None => encryptNewSession m destinationHash destinationPubKey plaintextGarlic rnd now
      end
  end.

Definition EncryptUnboundGarlicMessage (destinationPubKey plaintextGarlic rnd : bytes)
    : result SessionError bytes :=
  match plaintextGarlic with
  | [] => Err EPlaintextEmpty
  | _ =>
      match ValidateNewSessionPayload plaintextGarlic with
      | Some e => Err (EPayload e)
      | None =>
          match writeNoiseIKMessage1Unbound rnd destinationPubKey plaintextGarlic with
          | Err e => Err (ENoise e)
          | Ok (msg, _) => Ok msg
          end
      end
  end.

(** [applyNSRKeysToSessionWhileLocked] on the session [s] at [p]. *)
Definition applyNSRKeysToSessionWhileLocked (m : SessionManager) (p : positive) (s : Session)
    (nsrKeys : nsrSessionKeys) (initiator : bool) : SessionManager * option SessionError :=
  match apply_nsr_keys s nsrKeys initiator with
  | Err e => (m, Some e)
  | Ok s' => generateTagWindow (put (drop_tags m (pendingTags (recv s))) p s') p
  end.

(** A last update of the session at [p]. *)
Definition update (m : SessionManager) (p : positive) (f : Session -> Session) : SessionManager :=
  match heap m !! p with Some s => put m p (f s) | None => m end.

Definition EncryptNewSessionReply (m : SessionManager) (sessionHash payload rnd : bytes) (now : Z)
    : SessionManager * result SessionError bytes :=
  match sessions m !! sessionHash with
  | None => (m, Err ENoSession)
  | Some p =>
      match heap m !! p with
      | None => (m, Err ENoSession)
      | Some s =>
          match handshakeState s with
          | None => (m, Err ENoHandshakeState)
          | Some hs =>
              if isInitiator s then (m, Err EOnlyResponderReplies)
              else
                let r := writeNoiseIKMessage2 rnd hs payload in
                let s := set_handshake s None in
                let m := put m p s in
                match r with
                | Err e => (m, Err (ENoise e))
                | Ok (_, wireMsg, nsrKeys) =>
                    match applyNSRKeysToSessionWhileLocked m p s nsrKeys false with
                    | (m, Some e) => (m, Err e)
                    | (m, None) =>
                        (update m p (fun s => set_used (set_awaitingES s true) now), Ok wireMsg)
                    end
                end
          end
      end
  end.

(** ** Decryption *)

(** The blocks of a decrypted Existing Session message, in order; a termination
    ends the processing. *)
Fixpoint process_blocks (m : SessionManager) (p : positive) (blocks : list PayloadBlock) : SessionManager :=
  match blocks with
  | [] => m
  | b :: rest =>
      if decide (Type_ b = BlockTermination) then removeSessionByPointer m p
      else if decide (Type_ b = BlockMessageNumber) then
        match RatchetPayload.MessageNumber b with
        | Err _ => process_blocks m p rest
        | Ok pn => process_blocks (update m p (fun s => set_recv s (trimRecvWindowByPN (recv s) pn))) p rest
        end
      else if decide (Type_ b = BlockAckRequest) then process_blocks (update m p processAckRequest) p rest
      else if decide (Type_ b = BlockAck) then process_blocks (update m p (fun s => processAck s b)) p rest
      else process_blocks m p rest
  end.

Definition processDecryptedESBlocks (m : SessionManager) (p : positive) (plaintext : bytes) : SessionManager :=
  match ParsePayload plaintext with
  | Err _ => m
  | Ok blocks => process_blocks m p blocks
  end.

(** [None] when the message is not one of an existing session. *)
Definition tryDecryptExisting (m : SessionManager) (msgTag encryptedGarlic : bytes) (now : Z)
    : SessionManager * option (result SessionError (bytes * bytes)) :=
  match lookupSessionByTag m msgTag with
  | (m, None) => (m, None)
  | (m, Some (p, counterHint)) =>
      match validateAndConsumeTagFromSession m p msgTag now with
      | (m, false, _) => (m, None)
      | (m, true, needsReplenish) =>
          match heap m !! p with
          | None => (m, None)
          | Some s =>
              let '(s, r) := decryptExistingSession s (drop 8 encryptedGarlic) msgTag counterHint now in
              let m := put m p s in
              let m := if needsReplenish then replenishTagWindowOutsideLock m p else m in
              (match r with Ok (plaintext, _) => processDecryptedESBlocks m p plaintext | Err _ => m end, Some r)
          end
      end
  end.

Definition decryptIncomingNSR (m : SessionManager) (p : positive) (message : bytes) (now : Z)
    : SessionManager * result SessionError bytes :=
  match heap m !! p with
  | None => (m, Err ENoSession)
  | Some s =>
      match handshakeState s with
      | None => (m, Err ENoHandshakeState)
      | Some hs =>
          let s := set_handshake s None in
          let m := put m p s in
          match readNoiseIKMessage2 hs (ourPrivateKey m) message with
          | Err e => (m, Err (ENoise e))
          | Ok (plaintext, nsrKeys) =>
              match applyNSRKeysToSessionWhileLocked m p s nsrKeys true with
              | (m, Some e) => (m, Err e)
              | (m, None) => (update m p (fun s => set_used s now), Ok plaintext)
              end
          end
      end
  end.

Definition tryDecryptNSR (m : SessionManager) (msgTag encryptedGarlic : bytes) (now : Z)
    : SessionManager * option (result SessionError bytes) :=
  match nsrTagIndex m !! msgTag with
  | None => (m, None)
  | Some p =>
      let m := set_nsr m (delete msgTag (nsrTagIndex m)) in
      let m := update m p (fun s => if decide (nsrTag s = Some msgTag) then set_nsrTag s None else s) in
      let '(m, r) := decryptIncomingNSR m p encryptedGarlic now in
      (m, Some r)
  end.

Definition tryDecryptOneTimeKey (m : SessionManager) (msgTag msg : bytes)
    : SessionManager * option (result SessionError bytes) :=
  match oneTimeKeys m !! msgTag with
  | None => (m, None)
  | Some key =>
      let m := set_oneTime m (delete msgTag (oneTimeKeys m)) in
      let body := drop 8 msg in
      (m, Some (
        if decide (length body < 16)%nat then Err (EOneTimeTooShort (length body))
        else or_error EOneTimeDecrypt
               (aead_decrypt key (take (length body - 16) body) (drop (length body - 16) body)
                  (take 8 msg) (replicate 12 x00))))
  end.

Definition validateNSDateTimeFreshness (m : SessionManager) (payload : bytes) (now : Z) : option SessionError :=
  match ParsePayload payload with
  | Err e => Some (EPayload e)
  | Ok [] => Some ENotFresh
  | Ok (b :: _) =>
      if decide (Type_ b <> BlockDateTime) then Some ENotFresh
      else match DateTime b with
           | Err e => Some (EPayload e)
           | Ok unix =>
               let elapsed := time_sub now (unix * Second) in
               if nsMaxPastAge m <? elapsed then Some ENotFresh
               else if elapsed <? - nsMaxFutureAge m then Some ENotFresh
               else None
           end
  end.

Definition decryptNewSession (m : SessionManager) (msg : bytes) (now : Z)
    : SessionManager * result SessionError (bytes * option bytes) :=
  match readNoiseIKMessage1 (ourPrivateKey m) (ourPublicKey m) msg with
  | Err e => (m, Err (ENoise e))
  | Ok (plaintext, initiatorStaticPub, keys, hs, isUnbound) =>
      if isUnbound : bool then (m, Ok (plaintext, None))
      else match validateNSDateTimeFreshness m plaintext now with
           | Some e => (m, Err e)
           | None =>
               let '(m, replay) :=
                 if decide (32 <= length msg)%nat then
                   let '(c, seen) := CheckAndAdd (nsReplayCache m) (take 32 msg) now in (set_replay m c, seen)
                 else (m, false) in
               if replay : bool then (m, Err ENSReplay)
               else match initializeInboundRatchetState m initiatorStaticPub keys hs now with
                    | (m, Some e) => (m, Err e)
                    | (m, None) => (m, Ok (plaintext, Some (sha256 initiatorStaticPub)))
                    end
           end
  end.

(** The plaintext, the session tag and, for a New Session, the session hash. *)
Definition DecryptGarlicMessage (m : SessionManager) (encryptedGarlic : bytes) (now : Z)
    : SessionManager * result SessionError (bytes * bytes * option bytes) :=
  if decide (length encryptedGarlic < 8)%nat then (m, Err (EGarlicTooShort (length encryptedGarlic)))
  else
    let msgTag := take 8 encryptedGarlic in
    match tryDecryptExisting m msgTag encryptedGarlic now with
    | (m, Some r) => (m, let* r := r in Ok (r.1, r.2, None))
    | (m, None) =>
        match tryDecryptNSR m msgTag encryptedGarlic now with
        | (m, Some r) => (m, let* plaintext := r in Ok (plaintext, zero8, None))
        | (m, None) =>
            match tryDecryptOneTimeKey m msgTag encryptedGarlic with
            | (m, Some r) => (m, let* plaintext := r in Ok (plaintext, zero8, None))
            | (m, None) =>
                let '(m, r) := decryptNewSession m encryptedGarlic now in
                (m, let* r := r in Ok (r.1, zero8, r.2))
            end
        end
    end.

(** ** Diffie-Hellman ratchet messages *)

Definition ProcessReceivedNextKey (m : SessionManager) (sessionTag : bytes) (info : NextKeyInfo) (rnd : bytes)
    : SessionManager * option SessionError :=
  match tagIndex m !! sessionTag with
  | None => (m, Some ENoSession)
  | Some p =>
      match heap m !! p with
      | None => (m, Some ENoSession)
      | Some s =>
          let '(s, e) := if KeyPresent info then processNextKeyWithKey s info rnd else processNextKeyAck s info in
          (put m p s, e)
      end
  end.

Definition ProcessIncomingDHRatchet (m : SessionManager) (sessionTag newRemotePubKey : bytes)
    : SessionManager * option SessionError :=
  match tagIndex m !! sessionTag with
  | None => (m, Some ENoSession)
  | Some p =>
      match heap m !! p with
      | None => (m, Some ENoSession)
      | Some s =>
          let '(s, e) := applyIncomingDHKey s newRemotePubKey in
          (put m p s, e)
      end
  end.

(** ** Tags of a chain

    A session at [p] receives on the tag chain from [t0]. Of the first
    [tagHorizon] tags of the chain, those below [next] that have not been used
    lead to the session and to their counter, and no other is in the index. *)

Definition tagHorizon : Z := 200.

Definition tags_distinct (t0 : TagRatchet) : Prop :=
  (forall c, 1 <= c <= tagHorizon -> is_Some (chain_tag t0 c))
  /\ (forall c c' t, 1 <= c <= tagHorizon -> 1 <= c' <= tagHorizon ->
       chain_tag t0 c = Some t -> chain_tag t0 c' = Some t -> c = c').

Definition tags_inv (m : SessionManager) (p : positive) (t0 : TagRatchet) (used : gset Z) (next : Z)
    (pending : list bytes) : Prop :=
  forall c t, 1 <= c <= tagHorizon -> chain_tag t0 c = Some t ->
    (c < next /\ c ∉ used -> tagIndex m !! t = Some p /\ tagCounterIndex m !! t = Some c /\ t ∈ pending)
    /\ (~ (c < next /\ c ∉ used) -> tagIndex m !! t = None).

Lemma register_inv m p t0 used next pending t :
  tags_distinct t0 -> 1 <= next <= tagHorizon -> next ∉ used -> chain_tag t0 next = Some t ->
  tags_inv m p t0 used next pending ->
  tag_collides m p t = false
  /\ tags_inv (register_tag m p t next) p t0 used (next + 1) (pending ++ [t]).
Proof.
  intros [_ Hinj] Hn Hnu Ht Hinv. split.
  { unfold tag_collides. destruct (Hinv next t Hn Ht) as [_ ->]; [done|]. lia. }
  intros c t' Hc Hct. destruct (Hinv c t' Hc Hct) as [Hin Hout].
  destruct (decide (t' = t)) as [->|Hne].
  - assert (c = next) as -> by by eapply Hinj. cbn. rewrite !lookup_insert_eq. split.
    + intros _. split_and!; [done|done|]. apply elem_of_app. right. by left.
    + intros Hno. exfalso. apply Hno. split; [lia|done].
  - assert (c <> next) by (intros ->; congruence). cbn. rewrite !lookup_insert_ne by done. split.
    + intros [Hlt Hcu]. destruct Hin as (-> & -> & Hp); [split; [lia|done]|].
      split_and!; [done|done|]. apply elem_of_app. by left.
    + intros Hno. apply Hout. intros [Hlt Hcu]. apply Hno. split; [lia|done].
Qed.

(** The frame of an operation on the tags: everything but the two tag indices. *)
Definition same_frame (m m' : SessionManager) : Prop :=
  sessions m' = sessions m /\ nsrTagIndex m' = nsrTagIndex m /\ oneTimeKeys m' = oneTimeKeys m
  /\ ourPrivateKey m' = ourPrivateKey m /\ ourPublicKey m' = ourPublicKey m
  /\ sessionTimeout m' = sessionTimeout m /\ nsMaxPastAge m' = nsMaxPastAge m
  /\ nsMaxFutureAge m' = nsMaxFutureAge m /\ nsReplayCache m' = nsReplayCache m.

#[local] Instance same_frame_trans : Transitive same_frame.
Proof. unfold same_frame. intros a b c. naive_solver congruence. Qed.

Lemma same_frame_refl m : same_frame m m.
Proof. by repeat split. Qed.

(** The window fields that tag generation does not touch. *)
Definition same_keys (x x' : RecvState) : Prop :=
  recvSym x' = recvSym x /\ recvWindowBase x' = recvWindowBase x /\ recvFillMark x' = recvFillMark x
  /\ recvKeyCache x' = recvKeyCache x /\ recvKeyID x' = recvKeyID x.

Lemma tag_window_fill fuel m p t0 s next :
  tags_distinct t0 -> 1 <= next ->
  next + Z.of_nat (tagWindowSize - length (pendingTags (recv s))) <= tagHorizon + 1 ->
  (tagWindowSize - length (pendingTags (recv s)) <= fuel)%nat ->
  nextRecvTagCounter (recv s) = next -> recvTag (recv s) = Some (chain_tagr t0 next) ->
  tags_inv m p t0 ∅ next (pendingTags (recv s)) ->
  exists m' s', tag_window_loop fuel m p s (chain_tagr t0 next) = Some (put m' p s', None)
    /\ nextRecvTagCounter (recv s') = next + Z.of_nat (tagWindowSize - length (pendingTags (recv s)))
    /\ tags_inv m' p t0 ∅ (nextRecvTagCounter (recv s')) (pendingTags (recv s'))
    /\ (tagWindowSize <= length (pendingTags (recv s')))%nat
    /\ (length (pendingTags (recv s')) <= Nat.max tagWindowSize (length (pendingTags (recv s))))%nat
    /\ recvTag (recv s') = Some (chain_tagr t0 (nextRecvTagCounter (recv s')))
    /\ same_frame m m' /\ heap m' = heap m /\ nextPtr m' = nextPtr m /\ same_keys (recv s) (recv s')
    /\ s' = set_recv s (recv s').
Proof.
  intros Hd. revert m s next. induction fuel as [|fuel IH]; intros m s next Hn1 Hh Hfuel Hnext Htag Hinv;
    simpl; (case_decide as Hfull;
      [exists m, s; replace (tagWindowSize - length (pendingTags (recv s)))%nat with 0%nat by lia;
       rewrite Hnext, Z.add_0_r; split_and!; try done; try lia; try (by repeat split); by destruct s|]).
  { lia. }
  destruct (proj1 Hd next) as [t Ht]; [lia|]. rewrite (chain_tag_step t0 next t) by done.
  destruct (register_inv m p t0 ∅ next (pendingTags (recv s)) t) as [Hcol Hreg]; [done|lia|set_solver|done..|].
  rewrite Hcol, Hnext. rewrite u32_small by (unfold is_u32, tagHorizon in *; lia).
  set (s1 := set_recv s _).
  assert (Hl1 : length (pendingTags (recv s1)) = S (length (pendingTags (recv s))))
    by (simpl; rewrite length_app; simpl; lia).
  destruct (IH (register_tag m p t next) s1 (next + 1)) as
    (m' & s' & Hl & Hnx & Hi & Hge & Hle & Htr & Hf & Hh' & Hp' & Hk & Hs'); [lia|lia|lia|done|done|done|].
  exists m', s'. split; [done|]. rewrite Hl1 in *. split_and!; try done; try lia.
Qed.

Lemma remove_pending_length tag l :
  tag ∈ l -> S (length (removeTagFromPendingList tag l)) = length l.
Proof.
  induction l as [|t l IH]; [by intros ?%elem_of_nil|]. intros Hin. simpl. case_decide as Heq.
  - destruct (reverse l) as [|z front] eqn:Hr; apply (f_equal length) in Hr; rewrite length_reverse in Hr;
      simpl in *; rewrite ?length_reverse; lia.
  - apply elem_of_cons in Hin as [->|Hin]; [done|]. simpl. by rewrite IH.
Qed.

Lemma remove_pending_elem tag t l :
  t ∈ l -> t <> tag -> t ∈ removeTagFromPendingList tag l.
Proof.
  induction l as [|u l IH]; [by intros ?%elem_of_nil|]. intros Hin Hne. simpl. case_decide as Heq.
  - apply elem_of_cons in Hin as [->|Hin]; [done|].
    rewrite <- (reverse_involutive l) in Hin. destruct (reverse l) as [|z front].
    + by apply elem_of_nil in Hin.
    + rewrite reverse_cons in Hin. set_solver.
  - apply elem_of_cons in Hin as [->|Hin]; [by left|]. right. by apply IH.
Qed.

(** The tags for the counters [c], [c + 1], ... of a chain, [n] of them. *)
Definition tag_batch (t0 : TagRatchet) (c : Z) (n : nat) : list (bytes * Z) :=
  (fun i => (default [] (chain_tag t0 (c + Z.of_nat i)), c + Z.of_nat i)) <$> seq 0 n.

Lemma tag_batch_cons t0 c n t :
  chain_tag t0 c = Some t -> tag_batch t0 c (S n) = (t, c) :: tag_batch t0 (c + 1) n.
Proof.
  intros Ht. unfold tag_batch. simpl. rewrite Z.add_0_r, Ht. f_equal.
  rewrite <- seq_shift, <- list_fmap_compose. apply list_fmap_ext. intros i x _. simpl.
  by replace (c + Z.of_nat (S x)) with (c + 1 + Z.of_nat x) by lia.
Qed.

Lemma generate_tags_spec n x t0 acc :
  tags_distinct t0 -> 1 <= nextRecvTagCounter x -> nextRecvTagCounter x + Z.of_nat n <= tagHorizon + 1 ->
  recvTag x = Some (chain_tagr t0 (nextRecvTagCounter x)) ->
  exists x', generate_tags n x (chain_tagr t0 (nextRecvTagCounter x)) acc
             = (x', Ok (acc ++ tag_batch t0 (nextRecvTagCounter x) n))
    /\ nextRecvTagCounter x' = nextRecvTagCounter x + Z.of_nat n
    /\ recvTag x' = Some (chain_tagr t0 (nextRecvTagCounter x')) /\ pendingTags x' = pendingTags x
    /\ same_keys x x'.
Proof.
  intros Hd. revert x acc. induction n as [|n IH]; intros x acc Hn Hh Hr; simpl.
  { exists x. rewrite app_nil_r, Z.add_0_r. by repeat split. }
  destruct (proj1 Hd (nextRecvTagCounter x)) as [t Ht]; [lia|].
  rewrite (chain_tag_step t0 _ t) by done. rewrite u32_small by (unfold is_u32, tagHorizon in *; lia).
  set (y := set_tag_window x _ _ _).
  destruct (IH y (acc ++ [(t, nextRecvTagCounter x)])) as (x' & Hg & Hnx & Hrt & Hp & Hk);
    [simpl; lia|simpl; lia|done|].
  exists x'. rewrite (tag_batch_cons t0 _ n t) by done. simpl in Hg. rewrite Hg.
  rewrite <- app_assoc. split_and!; try done. simpl in Hnx. lia.
Qed.

Lemma install_spec n m p t0 used next s :
  tags_distinct t0 -> 1 <= next -> next + Z.of_nat n <= tagHorizon + 1 ->
  (forall c, c ∈ used -> c < next) -> (length (pendingTags (recv s)) + n <= tagWindowSize)%nat ->
  tags_inv m p t0 used next (pendingTags (recv s)) ->
  exists m' s', installGeneratedTagsLocked m p s (tag_batch t0 next n) = (m', s')
    /\ tags_inv m' p t0 used (next + Z.of_nat n) (pendingTags (recv s'))
    /\ length (pendingTags (recv s')) = (length (pendingTags (recv s)) + n)%nat
    /\ same_frame m m' /\ heap m' = heap m /\ nextPtr m' = nextPtr m
    /\ s' = set_recv s (set_pending (recv s) (pendingTags (recv s'))).
Proof.
  intros Hd. revert m s next. induction n as [|n IH]; intros m s next Hn Hh Hu Hl Hinv.
  { exists m, s. simpl. rewrite Z.add_0_r. split_and!; try done; try lia. by destruct s as [? ? ? []]. }
  destruct (proj1 Hd next) as [t Ht]; [lia|]. rewrite (tag_batch_cons t0 _ n t) by done. simpl.
  rewrite decide_False by lia.
  destruct (register_inv m p t0 used next (pendingTags (recv s)) t) as [-> Hreg];
    [done|lia|intros Hin; apply Hu in Hin; lia|done..|].
  set (s1 := set_recv s _).
  destruct (IH (register_tag m p t next) s1 (next + 1)) as (m' & s' & Hi & Htags & Hlen & Hf & Hh' & Hp & Hs');
    [lia|lia|intros c Hc; apply Hu in Hc; lia|simpl; rewrite length_app; simpl; lia|done|].
  exists m', s'. rewrite Hi. split_and!; try done.
  - by replace (next + Z.of_nat (S n)) with (next + 1 + Z.of_nat n) by lia.
  - rewrite Hlen. simpl. rewrite length_app. simpl. lia.
Qed.

(** ** The receiving side *)

(** The session at [p] receives on the chains from [r0] and [t0] and has opened
    the counters [used]; [lo] is a lower bound on its pending tags. *)
Definition receiving (m : SessionManager) (p : positive) (r0 : SymmetricRatchet) (t0 : TagRatchet)
    (used : gset Z) (lastUsed : Z) (lo : nat) : Prop :=
  exists s, heap m !! p = Some s /\ LastUsed s = lastUsed /\ receiver_at r0 used (recv s)
    /\ recvTag (recv s) = Some (chain_tagr t0 (nextRecvTagCounter (recv s)))
    /\ tags_inv m p t0 used (nextRecvTagCounter (recv s)) (pendingTags (recv s))
    /\ nextRecvTagCounter (recv s) = Z.of_nat (length (pendingTags (recv s)) + size used) + 1
    /\ (lo <= length (pendingTags (recv s)) <= tagWindowSize)%nat
    /\ Z.of_nat tagWindowSize < nextRecvTagCounter (recv s)
    /\ (forall c, c ∈ used -> 1 <= c < nextRecvTagCounter (recv s)).

Lemma consume_inv m p t0 used next pending c t :
  tags_distinct t0 -> 1 <= c <= tagHorizon -> chain_tag t0 c = Some t ->
  tags_inv m p t0 used next pending ->
  tags_inv (set_tags m (delete t (tagIndex m)) (delete t (tagCounterIndex m))) p t0 ({[c]} ∪ used) next
    (removeTagFromPendingList t pending).
Proof.
  intros [_ Hinj] Hc Ht Hinv c' t' Hc' Ht'. destruct (Hinv c' t' Hc' Ht') as [Hin Hout]. cbn.
  destruct (decide (c' = c)) as [->|Hne].
  - assert (t' = t) as -> by congruence. split; [set_solver|]. intros _. apply lookup_delete_eq.
  - assert (t' <> t) by (intros ->; apply Hne; by eapply Hinj).
    rewrite !lookup_delete_ne by done. split.
    + intros [Hlt Hcu]. destruct Hin as (-> & -> & Hp); [set_solver|].
      split_and!; [done|done|]. by apply remove_pending_elem.
    + intros Hno. apply Hout. intros [Hlt Hcu]. apply Hno. split; [done|]. set_solver.
Qed.

(** The frame of an operation on the session at [p]: of the state it changes the
    tag indices and that session. *)
Definition only_session (p : positive) (m m' : SessionManager) : Prop :=
  same_frame m m' /\ nextPtr m' = nextPtr m /\ forall q, q <> p -> heap m' !! q = heap m !! q.

Lemma put_only p m s : only_session p m (put m p s).
Proof. split_and!; [by repeat split|done|]. intros q Hq. by apply lookup_insert_ne. Qed.

#[local] Instance only_session_trans p : Transitive (only_session p).
Proof.
  intros a b c (Hf & Hn & Hh) (Hf' & Hn' & Hh'). split_and!; [by transitivity b|congruence|].
  intros q Hq. by rewrite Hh', Hh.
Qed.

Lemma replenish_spec m p r0 t0 used lu lo :
  tags_distinct t0 -> (0 < lo)%nat -> Z.of_nat (size used) < 100 ->
  receiving m p r0 t0 used lu lo ->
  receiving (replenishTagWindowOutsideLock m p) p r0 t0 used lu tagWindowSize
  /\ only_session p m (replenishTagWindowOutsideLock m p).
Proof.
  intros Hd Hlo Hsz (s & Hs & Hlu & Hra & Htag & Hinv & Hnext & Hlen & Hbig & Hu).
  unfold replenishTagWindowOutsideLock, maxReplenishAttempts. cbn [replenish_loop]. rewrite Hs.
  case_decide as Hfull.
  { split; [|split_and!; [apply same_frame_refl|done|done]]. exists s. split_and!; try done; lia. }
  unfold generateTagsOutsideLock. rewrite Htag. unfold tagWindowSize in *.
  destruct (generate_tags_spec (24 - length (pendingTags (recv s))) (recv s) t0 []) as
    (x' & -> & Hnx & Htx & Hpx & Hkx); [done|lia|unfold tagHorizon; lia|done|].
  cbn [app]. set (s1 := set_recv s x').
  destruct (install_spec (24 - length (pendingTags (recv s))) m p t0 used (nextRecvTagCounter (recv s)) s1) as
    (m' & s' & -> & Hti & Hl' & Hf & Hh & Hp & Hs');
    [done|lia|unfold tagHorizon; lia|intros c Hc; apply Hu in Hc; lia
    |unfold tagWindowSize; simpl; rewrite Hpx; lia|simpl; by rewrite Hpx|].
  simpl in Hl'. rewrite Hpx in Hl'.
  rewrite decide_True by lia.
  assert (Hrecv : recv s' = set_pending x' (pendingTags (recv s'))) by by rewrite Hs' at 1.
  assert (Hnx' : nextRecvTagCounter (recv s') = nextRecvTagCounter x') by by rewrite Hrecv.
  destruct Hkx as (Hk1 & Hk2 & Hk3 & Hk4 & Hk5).
  split.
  - exists s'. rewrite Hnx', Hnx. unfold tagWindowSize. split_and!; try lia.
    + cbn. apply lookup_insert_eq.
    + by rewrite Hs'.
    + rewrite Hrecv. unfold receiver_at in *. cbn [set_pending recvSym recvFillMark recvWindowBase recvKeyCache].
      by rewrite Hk1, Hk2, Hk3, Hk4.
    + rewrite Hrecv. cbn [recvTag set_pending]. by rewrite Htx, Hnx.
    + exact Hti.
    + intros c Hc. apply Hu in Hc. lia.
  - split_and!; [exact Hf|exact Hp|]. intros q Hq. cbn. rewrite lookup_insert_ne by done. by rewrite Hh.
Qed.

(** The blocks of a message that does not end the session change, of the
    session, at most the queued and the received acknowledgments. *)
Lemma process_blocks_spec blocks m p s :
  (forall b, b ∈ blocks -> Type_ b <> BlockTermination) ->
  (forall c k, recvKeyCache (recv s) !! c = Some k -> recvWindowBase (recv s) <= c) ->
  heap m !! p = Some s ->
  exists s', process_blocks m p blocks = put m p s' /\ recv s' = recv s /\ LastUsed s' = LastUsed s
    /\ send s' = send s /\ isInitiator s' = isInitiator s /\ handshakeState s' = handshakeState s
    /\ awaitingFirstES s' = awaitingFirstES s.
Proof.
  revert m s. induction blocks as [|b blocks IH]; intros m s Hb Hc Hs; simpl.
  { exists s. split; [|done]. unfold put. rewrite insert_id by done. by destruct m. }
  rewrite decide_False by (apply Hb; left).
  assert (Hb' : forall b, b ∈ blocks -> Type_ b <> BlockTermination) by (intros; apply Hb; by right).
  assert (Hstep : forall f, recv (f s) = recv s -> LastUsed (f s) = LastUsed s -> send (f s) = send s ->
    isInitiator (f s) = isInitiator s -> handshakeState (f s) = handshakeState s ->
    awaitingFirstES (f s) = awaitingFirstES s ->
    exists s', process_blocks (update m p f) p blocks = put m p s' /\ recv s' = recv s /\ LastUsed s' = LastUsed s
    /\ send s' = send s /\ isInitiator s' = isInitiator s /\ handshakeState s' = handshakeState s
    /\ awaitingFirstES s' = awaitingFirstES s).
  { intros f H1' H2' H3' H4' H5' H6'. unfold update. rewrite Hs.
    destruct (IH (put m p (f s)) (f s)) as (s' & -> & Hr); [done|by rewrite H1'|apply lookup_insert_eq|].
    exists s'. split; [|naive_solver congruence]. unfold put, set_heap. cbn. by rewrite insert_insert_eq. }
  repeat case_decide; try (by apply IH).
  - destruct (RatchetPayload.MessageNumber b) as [pn|]; [|by apply IH].
    apply Hstep; try done. cbn [recv set_recv]. by apply trim_keeps_all.
  - by apply Hstep.
  - apply Hstep; unfold processAck; by destruct (Acks b).
Qed.

Definition no_termination (pt : bytes) : Prop :=
  forall blocks, ParsePayload pt = Ok blocks -> forall b, b ∈ blocks -> Type_ b <> BlockTermination.

Lemma process_es_spec pt m p s :
  no_termination pt ->
  (forall c k, recvKeyCache (recv s) !! c = Some k -> recvWindowBase (recv s) <= c) ->
  heap m !! p = Some s ->
  exists s', processDecryptedESBlocks m p pt = put m p s' /\ recv s' = recv s /\ LastUsed s' = LastUsed s
    /\ send s' = send s /\ isInitiator s' = isInitiator s /\ handshakeState s' = handshakeState s
    /\ awaitingFirstES s' = awaitingFirstES s.
Proof.
  intros Hn Hc Hs. unfold processDecryptedESBlocks. destruct (ParsePayload pt) as [blocks|e] eqn:Hp.
  - apply process_blocks_spec; [by apply Hn|done|done].
  - exists s. split; [|done]. unfold put. rewrite insert_id by done. by destruct m.
Qed.

Lemma receiver_cache_base r0 used x c k :
  receiver_at r0 used x -> recvKeyCache x !! c = Some k -> recvWindowBase x <= c.
Proof.
  intros (_ & _ & _ & Hc & _ & Hlow & _) Hk. rewrite Hc in Hk. case_decide as Hd; [|done].
  destruct (decide (recvWindowBase x <= c)); [done|]. destruct Hd as [Hd1 Hd2].
  exfalso. apply Hd2, Hlow. lia.
Qed.

Lemma receiver_base_bound r0 used x next :
  receiver_at r0 used x -> 1 <= next -> (forall c, c ∈ used -> 1 <= c < next) -> recvWindowBase x <= next.
Proof.
  intros (_ & Hb & _ & _ & _ & Hlow & _) Hn Hu.
  destruct (decide (recvWindowBase x = 1)); [lia|].
  pose proof (Hlow (recvWindowBase x - 1) ltac:(lia)) as Hin. apply Hu in Hin. lia.
Qed.

Lemma not_expired m now s :
  0 <= sessionTimeout m -> now - LastUsed s <= sessionTimeout m -> expired m now s = false.
Proof. intros H1' H2'. apply Z.ltb_ge. unfold time_sub, minDuration, maxDuration. lia. Qed.

(** ** Runs of the receiver *)

(** Messages arrive, each by its index in [msgs] and at a time; the results. *)
Fixpoint receive_all (m : SessionManager) (msgs : list bytes) (arrivals : list (nat * Z))
    : SessionManager * list (result SessionError (bytes * bytes * option bytes)) :=
  match arrivals with
  | [] => (m, [])
  | (i, now) :: rest =>
      let '(m, r) := DecryptGarlicMessage m (default [] (msgs !! i)) now in
      let '(m, rs) := receive_all m msgs rest in (m, r :: rs)
  end.

Definition plaintexts (rs : list (result SessionError (bytes * bytes * option bytes))) : list bytes :=
  omap (fun r => match r with Ok (pt, _, _) => Some pt | Err _ => None end) rs.

(** How far a message may run ahead: at most 12 places beyond the number of
    messages that have arrived, or among the first 24. *)
Fixpoint in_reach (seen : list nat) (l : list nat) : Prop :=
  match l with
  | [] => True
  | i :: rest =>
      (i < Nat.max 24 (length seen + 12))%nat /\ in_reach (if decide (i ∈ seen) then seen else i :: seen) rest
  end.

(** Bytes that the manager does not take for a reply, a one-time message or a
    new session. *)
Definition es_only (m : SessionManager) (msg : bytes) : Prop :=
  nsrTagIndex m !! take 8 msg = None /\ oneTimeKeys m !! take 8 msg = None
  /\ exists e, readNoiseIKMessage1 (ourPrivateKey m) (ourPublicKey m) msg = Err e.

(** The keys, tags and bounds that hold for every message of a chain before the
    first rotation. *)
Section Chain.
Variables (r0 : SymmetricRatchet) (t0 : TagRatchet).
Hypothesis keys_defined : forall c, 1 <= c -> is_Some (chain_key r0 c).
Hypothesis tags_ok : tags_distinct t0.

Lemma receiving_weaken m p used lu lo lo' :
  (lo' <= lo)%nat -> receiving m p r0 t0 used lu lo -> receiving m p r0 t0 used lu lo'.
Proof. intros Hle (s & Hr). exists s. naive_solver lia. Qed.

(** What happens to the session after its message has been opened. *)
Lemma finish_receive m p used now pt (needs : bool) :
  Z.of_nat (size used) < 100 -> receiving m p r0 t0 used now 11 ->
  (needs = false -> receiving m p r0 t0 used now tagReplenishThreshold) -> no_termination pt ->
  let m' := processDecryptedESBlocks (if needs then replenishTagWindowOutsideLock m p else m) p pt in
  receiving m' p r0 t0 used now tagReplenishThreshold /\ only_session p m m'.
Proof.
  intros Hsz Hlow Hhigh Hterm m'.
  set (m2 := if needs then replenishTagWindowOutsideLock m p else m) in *.
  assert (Hm2 : receiving m2 p r0 t0 used now tagReplenishThreshold /\ only_session p m m2).
  { unfold m2. destruct needs.
    - apply replenish_spec in Hlow as [Hr Ho]; [|done|lia|done]. split; [|done].
      eapply receiving_weaken; [|exact Hr]. apply Nat.leb_le. reflexivity.
    - split; [by apply Hhigh|]. split_and!; [apply same_frame_refl|done|done]. }
  destruct Hm2 as [(s & Hs & Hlu & Hra & Hrest) Honly].
  destruct (process_es_spec pt m2 p s Hterm (fun c k => receiver_cache_base _ _ _ c k Hra) Hs)
    as (s' & Heq & Hrecv & Hlu' & _).
  unfold m'. rewrite Heq. split.
  - exists s'. rewrite Hrecv. split; [apply lookup_insert_eq|]. split; [congruence|]. split; [done|]. exact Hrest.
  - etransitivity; [exact Honly|apply put_only].
Qed.

(** The first arrival of a message. *)
Lemma existing_first m p used lu c pt msg t now :
  receiving m p r0 t0 used lu tagReplenishThreshold -> Z.of_nat (size used) < 50 ->
  c ∉ used -> 1 <= c < DHRatchetInterval -> c <= Z.max 24 (Z.of_nat (size used) + 12) ->
  chain_tag t0 c = Some t -> es_message r0 t0 c pt = Some msg -> no_termination pt ->
  0 <= sessionTimeout m -> now - lu <= sessionTimeout m ->
  exists m', tryDecryptExisting m t msg now = (m', Some (Ok (pt, t)))
    /\ receiving m' p r0 t0 ({[c]} ∪ used) now tagReplenishThreshold /\ only_session p m m'.
Proof.
  intros (s & Hs & Hlu & Hra & Htag & Hinv & Hnext & Hlen & Hbig & Hu) Hsz Hcu Hc Hcn Ht Hmsg Hterm Hto Hexp.
  unfold DHRatchetInterval, tagReplenishThreshold, tagWindowSize in *.
  change (24 / 2)%nat with 12%nat in *.
  unfold es_message in Hmsg. destruct (chain_key r0 c) as [k|] eqn:Hk; [|done]. rewrite Ht in Hmsg.
  destruct (aead_encrypt k pt t (build_nonce c)) as [[ct mac]|] eqn:He; [|done]. apply (inj Some) in Hmsg as <-.
  assert (Ht8 : length t = 8%nat).
  { unfold chain_tag in Ht. destruct (generate_next_tag (chain_tagr t0 c)) as [tr o] eqn:Hg. simpl in Ht. subst o.
    by eapply generate_next_tag_length. }
  destruct (Hinv c t) as [Hin _]; [unfold tagHorizon; lia|done|].
  destruct Hin as (Hix & Hcx & Hpx); [split; [lia|done]|].
  unfold tryDecryptExisting, lookupSessionByTag. rewrite Hix, Hcx.
  set (m1 := set_tags m _ _). unfold validateAndConsumeTagFromSession.
  replace (heap m1 !! p) with (Some s) by (symmetry; exact Hs).
  rewrite not_expired by (subst lu; done).
  set (pending := removeTagFromPendingList t (pendingTags (recv s))).
  pose proof (remove_pending_length _ _ Hpx) as Hpl. fold pending in Hpl.
  set (s1 := set_recv s (set_pending (recv s) pending)).
  replace (heap (put m1 p s1) !! p) with (Some s1) by (symmetry; apply lookup_insert_eq).
  rewrite drop_app_length' by done.
  assert (Hbb : recvWindowBase (recv s) <= nextRecvTagCounter (recv s))
    by (eapply receiver_base_bound; [exact Hra|lia|exact Hu]).
  destruct (open_step r0 used (recv s1) k c pt t ct mac) as (x' & Ho & Hra' & Htags);
    [done|exact Hra|simpl; unfold recvWindowSize; lia| |done|done|done|].
  { destruct Hra as (_ & ? & _). simpl. unfold recvWindowSize. lia. }
  unfold decryptExistingSession. rewrite Ho.
  set (s2 := set_used _ now).
  assert (Hs2 : recv s2 = x') by (unfold s2; by case_match).
  assert (Hl2 : LastUsed s2 = now) by done.
  clearbody s2.
  assert (Hrec : receiving (put (put m1 p s1) p s2) p r0 t0 ({[c]} ∪ used) now 11).
  { exists s2. destruct Htags as (T1 & T2 & T3 & _). rewrite Hs2, T1, T2, T3. cbn [recv set_recv s1].
    assert (Hsize : size ({[c]} ∪ used) = S (size used)).
    { rewrite size_union by set_solver. by rewrite size_singleton. }
    unfold s1. cbn [recv set_recv set_pending recvTag pendingTags nextRecvTagCounter]. rewrite Hsize.
    unfold tagWindowSize. split_and!; try done; try lia.
    - apply lookup_insert_eq.
    - apply (consume_inv m p t0 used _ _ c t); try done. unfold tagHorizon. lia.
    - intros d [->%elem_of_singleton|Hd]%elem_of_union; [lia|by apply Hu]. }
  assert (Hsz1 : Z.of_nat (size ({[c]} ∪ used)) < 100).
  { rewrite size_union by set_solver. rewrite size_singleton. lia. }
  destruct (finish_receive _ p _ now pt (bool_decide (length pending < tagReplenishThreshold)%nat) Hsz1 Hrec)
    as [Hfin Honly]; [|done|].
  - intros Hge%bool_decide_eq_false. destruct Hrec as (s2' & Hs2' & Hrest). exists s2'.
    assert (s2' = s2) as ->.
    { unfold put, set_heap in Hs2'. cbn [heap] in Hs2'. rewrite lookup_insert_eq in Hs2'. congruence. }
    destruct Htags as (_ & T2 & _). rewrite Hs2 in *. rewrite T2 in *. cbn [recv set_recv set_pending pendingTags] in *.
    naive_solver lia.
  - eexists. split; [reflexivity|]. split; [exact Hfin|].
    etransitivity; [|exact Honly]. etransitivity; [|apply put_only]. etransitivity; [|apply put_only].
    split_and!; [by repeat split|done|done].
Qed.

Lemma es_message_tag c pt msg t :
  chain_tag t0 c = Some t -> es_message r0 t0 c pt = Some msg -> take 8 msg = t /\ (8 <= length msg)%nat.
Proof.
  intros Ht Hmsg. unfold es_message in Hmsg. destruct (chain_key r0 c); [|done]. rewrite Ht in Hmsg.
  destruct (aead_encrypt _ pt t _) as [[ct mac]|]; [|done]. apply (inj Some) in Hmsg as <-.
  assert (Ht8 : length t = 8%nat).
  { unfold chain_tag in Ht. destruct (generate_next_tag (chain_tagr t0 c)) as [tr o] eqn:Hg. simpl in Ht. subst o.
    by eapply generate_next_tag_length. }
  rewrite length_app. split; [by apply take_app_length'|lia].
Qed.

(** A message that has arrived before is refused and changes nothing. *)
Lemma existing_again m p used lu lo c pt msg t now :
  receiving m p r0 t0 used lu lo -> c ∈ used -> 1 <= c <= tagHorizon ->
  chain_tag t0 c = Some t -> es_message r0 t0 c pt = Some msg -> es_only m msg ->
  exists e, DecryptGarlicMessage m msg now = (m, Err e).
Proof.
  intros (s & _ & _ & _ & _ & Hinv & _) Hcu Hc Ht Hmsg (Hnsr & Hone & e & Hns).
  destruct (es_message_tag _ _ _ _ Ht Hmsg) as [Htake Hlen].
  destruct (Hinv c t Hc Ht) as [_ Hnone].
  unfold DecryptGarlicMessage. rewrite decide_False by lia.
  unfold tryDecryptExisting, lookupSessionByTag. rewrite Htake, Hnone by (intros [? ?]; done).
  rewrite Htake in Hnsr, Hone. unfold tryDecryptNSR. rewrite Hnsr. unfold tryDecryptOneTimeKey. rewrite Hone.
  unfold decryptNewSession. rewrite Hns. by exists (ENoise e).
Qed.

Lemma receive_all_spec pts msgs T arrivals :
  Z.of_nat (length pts) < DHRatchetInterval ->
  (forall i pt, pts !! i = Some pt -> no_termination pt
     /\ exists msg, msgs !! i = Some msg /\ es_message r0 t0 (Z.of_nat i + 1) pt = Some msg) ->
  forall m p seen used lu,
  receiving m p r0 t0 used lu tagReplenishThreshold ->
  size used = length seen -> (forall i, Z.of_nat i + 1 ∈ used <-> i ∈ seen) -> NoDup seen ->
  Forall (fun i => i < length pts)%nat seen ->
  0 <= sessionTimeout m -> T <= lu ->
  Forall (fun msg => es_only m msg) msgs ->
  Forall (fun a => (a.1 < length pts)%nat /\ T <= a.2 <= T + sessionTimeout m) arrivals ->
  in_reach seen arrivals.*1 ->
  plaintexts (receive_all m msgs arrivals).2 = omap (fun i => pts !! i) (first_arrivals seen arrivals.*1).
Proof.
  intros Hn Hpts. unfold DHRatchetInterval in Hn.
  induction arrivals as [|[i now] arrivals IH];
    intros m p seen used lu Hrec Hsz Hus Hnd Hseen Hto HT Hes Harr Hreach; [done|].
  inversion_clear Harr as [|? ? [Hi Hnow] Harr']. cbn [fst snd] in *.
  destruct Hreach as [Hri Hreach]. cbn [fmap list_fmap fst first_arrivals in_reach receive_all] in *.
  destruct (lookup_lt_is_Some_2 pts i Hi) as [pt Hpt].
  destruct (Hpts i pt Hpt) as (Hterm & msg & Hmsg & Hesm).
  destruct (proj1 tags_ok (Z.of_nat i + 1)) as [t Ht]; [unfold tagHorizon; lia|].
  rewrite Hmsg. cbn [default from_option id].
  assert (Hmes : es_only m msg) by (rewrite Forall_forall in Hes; apply Hes; by eapply list_elem_of_lookup_2).
  revert Hreach. destruct (decide (i ∈ seen)) as [Hin|Hin]; intros Hreach.
  - destruct (existing_again m p used lu _ (Z.of_nat i + 1) pt msg t now Hrec) as [e ->];
      [by apply Hus|unfold tagHorizon; lia|done..|].
    destruct (receive_all m msgs arrivals) as [m' rs] eqn:Hra. cbn.
    specialize (IH m p seen used lu). rewrite Hra in IH. by apply IH.
  - assert (Hlen : (length seen < length pts)%nat).
    { assert (length (i :: seen) <= length (seq 0 (length pts)))%nat as Hle; [|rewrite length_seq in Hle; simpl in Hle; lia].
      apply submseteq_length, NoDup_submseteq; [by constructor|]. intros j Hj. apply elem_of_seq.
      rewrite Forall_forall in Hseen. apply elem_of_cons in Hj as [->|Hj]; [lia|]. specialize (Hseen j Hj). simpl in Hseen. lia. }
    destruct (existing_first m p used lu (Z.of_nat i + 1) pt msg t now Hrec) as (m' & Hdec & Hrec' & Hf & _);
      [lia|by rewrite Hus|unfold DHRatchetInterval; lia|lia|done..|lia|].
    destruct (es_message_tag _ _ _ _ Ht Hesm) as [Htake Hlen8].
    unfold DecryptGarlicMessage. rewrite decide_False by lia. rewrite Htake, Hdec. cbn [rbind fst snd].
    destruct (receive_all m' msgs arrivals) as [m'' rs] eqn:Hra. cbn [snd plaintexts omap list_omap].
    destruct Hf as (F1 & F2 & F3 & F4 & F5 & F6 & _).
    specialize (IH m' p (i :: seen) ({[Z.of_nat i + 1]} ∪ used) now). rewrite Hra, F6 in IH.
    rewrite Hpt. f_equal. apply IH; try done; try lia.
    + rewrite size_union by (rewrite disjoint_singleton_l, Hus; done). rewrite size_singleton, Hsz. done.
    + intros j. rewrite elem_of_union, elem_of_singleton, elem_of_cons, Hus. split; intros [?|?]; auto; left; lia.
    + by constructor.
    + by constructor.
    + eapply Forall_impl; [exact Hes|]. intros msg'. unfold es_only. by rewrite F2, F3, F4, F5.
Qed.

End Chain.

(** ** Setting up a session *)

(** The tags of a chain do not clash with each other or with the index. *)
Definition fresh_tags (m : SessionManager) (t0 : TagRatchet) : Prop :=
  tags_distinct t0
  /\ forall c t, 1 <= c <= tagHorizon -> chain_tag t0 c = Some t -> tagIndex m !! t = None.

Lemma fresh_tags_inv m p t0 : fresh_tags m t0 -> tags_inv m p t0 ∅ 1 [].
Proof. intros [_ Hf] c t Hc Ht. split; [lia|]. intros _. by eapply Hf. Qed.

Lemma fresh_tags_mono m m' t0 :
  (forall t q, tagIndex m' !! t = Some q -> tagIndex m !! t = Some q) -> fresh_tags m t0 -> fresh_tags m' t0.
Proof.
  intros Hsub [Hd Hf]. split; [done|]. intros c t Hc Ht. destruct (tagIndex m' !! t) as [q|] eqn:Hq; [|done].
  apply Hsub in Hq. by rewrite (Hf c t) in Hq.
Qed.

(** The tags that generation adds to the index are the session's pending tags. *)
Lemma tag_window_index fuel m p s tr m' e :
  tag_window_loop fuel m p s tr = Some (m', e) ->
  exists s', heap m' !! p = Some s' /\ (forall t, t ∈ pendingTags (recv s) -> t ∈ pendingTags (recv s'))
    /\ forall t q, tagIndex m' !! t = Some q -> tagIndex m !! t = Some q \/ t ∈ pendingTags (recv s').
Proof.
  revert m s tr. induction fuel as [|fuel IH]; intros m s tr; simpl; (case_decide as Hfull;
    [intros Heq; apply (inj Some) in Heq; apply pair_equal_spec in Heq as [<- _]; exists s;
     split; [apply lookup_insert_eq|by auto]|]); [done|].
  destruct (generate_next_tag tr) as [tr' [t|]].
  - destruct (tag_collides m p t).
    + intros (s' & Hs & Hp & Ht)%IH. exists s'. auto.
    + intros (s' & Hs & Hp & Ht)%IH. exists s'. split; [done|]. split.
      * intros u Hu. apply Hp. simpl. apply elem_of_app. by left.
      * intros u q Hu. apply Ht in Hu as [Hu|Hu]; [|by right]. cbn in Hu.
        apply lookup_insert_Some in Hu as [[<- _]|[_ Hu]]; [|by left].
        right. apply Hp. simpl. apply elem_of_app. right. by left.
  - intros Heq. apply (inj Some) in Heq. apply pair_equal_spec in Heq as [<- _].
    eexists. split; [apply lookup_insert_eq|]. split; [done|by auto].
Qed.

Lemma generateTagWindow_fresh m p s t0 :
  heap m !! p = Some s -> recvTag (recv s) = Some t0 -> pendingTags (recv s) = [] ->
  nextRecvTagCounter (recv s) = 1 -> fresh_tags m t0 ->
  exists m' s', generateTagWindow m p = (m', None) /\ heap m' !! p = Some s'
    /\ nextRecvTagCounter (recv s') = 25 /\ length (pendingTags (recv s')) = 24%nat
    /\ recvTag (recv s') = Some (chain_tagr t0 25) /\ tags_inv m' p t0 ∅ 25 (pendingTags (recv s'))
    /\ same_keys (recv s) (recv s') /\ s' = set_recv s (recv s') /\ only_session p m m'
    /\ (forall t q, tagIndex m' !! t = Some q -> tagIndex m !! t = Some q \/ t ∈ pendingTags (recv s')).
Proof.
  intros Hs Htr Hp Hn Hf. unfold generateTagWindow. rewrite Hs, Htr.
  destruct (tag_window_fill (tag_window_fuel m) m p t0 s 1) as
    (m' & s' & Hl & Hnx & Hi & Hge & Hle & Htr' & Hfr & Hh & Hp' & Hk & Hs');
    [apply Hf|lia|rewrite Hp; unfold tagHorizon, tagWindowSize; simpl; lia
    |unfold tag_window_fuel; lia|done|by rewrite Htr|rewrite Hp; by apply fresh_tags_inv|].
  change (chain_tagr t0 1) with t0 in Hl. rewrite Hl. cbn [default from_option id].
  rewrite Hp in *. unfold tagWindowSize in *. simpl in Hnx, Hge, Hle.
  exists (put m' p s'), s'. rewrite Hnx in *.
  split_and!; try done; try lia.
  - apply lookup_insert_eq.
  - etransitivity; [|apply put_only]. split_and!; [done|done|]. intros q _. by rewrite Hh.
  - intros t q Ht. destruct (tag_window_index _ _ _ _ _ _ _ Hl) as (s2 & Hs2 & _ & Hidx).
    cbn in Hs2. rewrite lookup_insert_eq in Hs2. apply (inj Some) in Hs2 as <-. by apply Hidx.
Qed.

(** Evictions only take entries out of the indices. *)
Definition shrinks (m m' : SessionManager) : Prop :=
  tagIndex m' ⊆ tagIndex m /\ nsrTagIndex m' ⊆ nsrTagIndex m /\ sessions m' ⊆ sessions m
  /\ heap m' = heap m /\ nextPtr m' = nextPtr m /\ oneTimeKeys m' = oneTimeKeys m
  /\ ourPrivateKey m' = ourPrivateKey m /\ ourPublicKey m' = ourPublicKey m
  /\ sessionTimeout m' = sessionTimeout m /\ nsMaxPastAge m' = nsMaxPastAge m
  /\ nsMaxFutureAge m' = nsMaxFutureAge m /\ nsReplayCache m' = nsReplayCache m.

#[local] Instance shrinks_refl : Reflexive shrinks.
Proof. intros m. by repeat split. Qed.

#[local] Instance shrinks_trans : Transitive shrinks.
Proof.
  intros a b c (A1 & A2 & A3 & A4 & A5 & A6 & A7 & A8 & A9 & A10 & A11 & A12)
               (B1 & B2 & B3 & B4 & B5 & B6 & B7 & B8 & B9 & B10 & B11 & B12).
  split_and!; try congruence; by etransitivity.
Qed.

Lemma delete_tags_subseteq {V} (tags : list bytes) (ix : gmap bytes V) :
  foldl (fun ix t => delete t ix) ix tags ⊆ ix.
Proof.
  revert ix. induction tags as [|t tags IH]; intros ix; simpl; [done|].
  etransitivity; [apply IH|apply delete_subseteq].
Qed.

Lemma remove_session_shrinks m hash s : shrinks m (remove_session m hash s).
Proof.
  unfold remove_session, drop_nsr, drop_tags. destruct (nsrTag s); split_and!; try done; cbn;
    (apply delete_tags_subseteq || apply delete_subseteq).
Qed.

Lemma evict_hash_shrinks m hash : shrinks m (evict_hash m hash).
Proof.
  unfold evict_hash. destruct (sessions m !! hash) as [p|]; [|done].
  destruct (heap m !! p); [apply remove_session_shrinks|done].
Qed.

Lemma evictLRU_shrinks m : shrinks m (evictLRUSessionLocked m).
Proof.
  unfold evictLRUSessionLocked. destruct (lru_scan _ _ _) as [[h ?]|]; [apply evict_hash_shrinks|done].
Qed.

Lemma enforceQuota_shrinks m k : shrinks m (enforcePerPeerQuotaLocked m k).
Proof.
  unfold enforcePerPeerQuotaLocked. destruct (quota_scan _ _ _ _ _ _) as [[count oldest] est].
  destruct (count <? MaxSessionsPerPeer); [done|]. destruct oldest as [[h ?]|]; [apply evict_hash_shrinks|done].
Qed.

Lemma make_room_shrinks m k : shrinks m (make_room m k).
Proof.
  unfold make_room. etransitivity; [|apply enforceQuota_shrinks]. case_decide; [apply evictLRU_shrinks|done].
Qed.

End SessionManager.
