(* ===== verification/Garlic.v ===== *)
(** * Conversations over the ratchet

    The session manager of two routers together: a New Session, its reply, and
    the Existing Session messages that follow ([ratchet/session_encrypt.go],
    [ratchet/session_decrypt.go] on both ends). The file also evaluates the
    manager on concrete runs that show where a conversation breaks. *)

From Stdlib Require Import ZArith Lia.
From Stdlib Require Import Strings.Byte Strings.String.
From stdpp Require Import base numbers list gmap.
From S2P Require Import Prelude Crypto NoiseIK RatchetPayload ReplayCache RatchetSession SessionManager.

#[local] Open Scope Z_scope.
#[local] Open Scope go_scope.

Section Garlic.
Context `{HashLib, CurveLib, AEADLib, NoiseLib, RatchetLib}.
Context {Rs : GoRange bytes positive} {Rt : GoRange bytes Z} {Srt : GoSort (bytes * Z)}.

(** ** The parts of a handshake *)

(** The manager after a session was stored at a new pointer: the table has it,
    its tags are registered, and the index has gained nothing else. *)
Definition stored (m m' : SessionManager) (hash : bytes) (p : positive) (s' : Session) : Prop :=
  p = nextPtr m /\ sessions m' !! hash = Some p /\ heap m' !! p = Some s'
  /\ (forall t q, tagIndex m' !! t = Some q -> tagIndex m !! t = Some q \/ t ∈ pendingTags (recv s'))
  /\ oneTimeKeys m' = oneTimeKeys m /\ ourPrivateKey m' = ourPrivateKey m /\ ourPublicKey m' = ourPublicKey m
  /\ sessionTimeout m' = sessionTimeout m.

(** A new session as [createSession] and its callers leave it. *)
Definition new_session (s : Session) (initiator : bool) (hs : noiseHandshakeState) (now : Z) : Prop :=
  isInitiator s = initiator /\ handshakeState s = Some hs /\ awaitingFirstES s = false /\ LastUsed s = now
  /\ dhRatchetCounter (send s) = 0 /\ pendingNextKeys (send s) = [] /\ pendingAcks s = [].

Lemma store_window m1 hash p s t0 :
  heap m1 !! p = Some s -> recvTag (recv s) = Some t0 -> pendingTags (recv s) = [] ->
  nextRecvTagCounter (recv s) = 1 -> fresh_tags m1 t0 ->
  exists m' s', generateTagWindow (set_sessions m1 (<[hash := p]> (sessions m1))) p = (m', None)
    /\ heap m' !! p = Some s' /\ s' = set_recv s (recv s')
    /\ only_session p (set_sessions m1 (<[hash := p]> (sessions m1))) m'
    /\ (forall t q, tagIndex m' !! t = Some q -> tagIndex m1 !! t = Some q \/ t ∈ pendingTags (recv s')).
Proof.
  intros Hs Htr Hp Hn Hf.
  destruct (generateTagWindow_fresh (set_sessions m1 (<[hash := p]> (sessions m1))) p s t0)
    as (m' & s' & Hg & Hh & _ & _ & _ & _ & _ & Hs' & Ho & Hi); try done.
  by exists m', s'.
Qed.

Lemma fresh_after_alloc m s k t0 :
  fresh_tags m t0 -> fresh_tags (make_room (alloc m s).1 k) t0.
Proof.
  apply fresh_tags_mono. intros t q Ht.
  pose proof (make_room_shrinks (alloc m s).1 k) as (Hsub & _). by eapply lookup_weaken in Ht; [|exact Hsub].
Qed.

(** Storing the session of a received New Session. *)
Lemma inbound_stored m remote keys hs ra rb ta tb now :
  derive_keys (rootKey keys) hkdfInfoDHRatchetStep = Some (ra, rb) ->
  derive_keys (tagKey keys) hkdfInfoDHRatchetStep = Some (ta, tb) ->
  fresh_tags m (new_tag ta) ->
  exists m' s', initializeInboundRatchetState m remote keys (Some hs) now = (m', None)
    /\ stored m m' (sha256 remote) (nextPtr m) s' /\ new_session s' false hs now /\ nsrTagIndex m' ⊆ nsrTagIndex m
    /\ nsReplayCache m' = nsReplayCache m.
Proof.
  intros Hr Ht Hf. unfold initializeInboundRatchetState, createSession, deriveDirectionalKeys.
  rewrite Hr, Ht. cbn [or_error rbind fst snd]. set (s := set_initiator _ false). unfold alloc.
  set (m0 := mkSM _ _ _ _ _ _ _ _ _ _ _ _ _).
  pose proof (make_room_shrinks m0 remote) as (S1 & S2 & S3 & S4 & S5 & S6 & S7 & S8 & S9 & S10 & S11 & S12).
  cbn in S6, S7, S8, S9, S12.
  destruct (store_window (make_room m0 remote) (sha256 remote) (nextPtr m) s (new_tag ta))
    as (m' & s' & Hg & Hh & Hs' & (Hfr & _ & _) & Hi); try done.
  - rewrite S4. apply lookup_insert_eq.
  - by apply (fresh_after_alloc m s).
  - exists m', s'. split; [exact Hg|]. destruct Hfr as (F1 & F2 & F3 & F4 & F5 & F6 & F7 & F8 & F9).
    cbn in F1, F2, F3, F4, F5, F6, F9. split_and!.
    + split_and!; try done; try congruence.
      * rewrite F1. apply lookup_insert_eq.
      * intros t q Hq. apply Hi in Hq as [Hq|Hq]; [left|by right]. by eapply lookup_weaken in Hq; [|exact S1].
    + rewrite Hs'. done.
    + by rewrite F2.
    + by rewrite F9, S12.
Qed.

(** Storing the session of a New Session that was sent. *)
Lemma outbound_stored m hash remote keys hs ra rb ta tb tag now :
  derive_keys (rootKey keys) hkdfInfoDHRatchetStep = Some (ra, rb) ->
  derive_keys (tagKey keys) hkdfInfoDHRatchetStep = Some (ta, tb) ->
  nsr_tag (hs_ck hs) = Ok tag -> fresh_tags m (new_tag tb) ->
  exists m' s', storeNewSessionState m hash remote keys hs true now = (m', None)
    /\ stored m m' hash (nextPtr m) s' /\ new_session s' true hs now
    /\ nsrTag s' = Some tag /\ nsrTagIndex m' !! tag = Some (nextPtr m).
Proof.
  intros Hr Ht Htag Hf. unfold storeNewSessionState, createSession, deriveDirectionalKeys.
  rewrite Hr, Ht. cbn [or_error rbind fst snd]. set (s := set_initiator _ true). unfold alloc.
  set (m0 := mkSM _ _ _ _ _ _ _ _ _ _ _ _ _).
  pose proof (make_room_shrinks m0 remote) as (S1 & S2 & S3 & S4 & S5 & S6 & S7 & S8 & S9 & S10 & S11 & S12).
  cbn in S6, S7, S8, S9, S12.
  unfold registerNSRTagLocked. rewrite Htag.
  set (m1 := set_nsr _ _).
  destruct (store_window m1 hash (nextPtr m) (set_nsrTag s (Some tag)) (new_tag tb))
    as (m' & s' & Hg & Hh & Hs' & (Hfr & _ & _) & Hi); try done.
  - apply lookup_insert_eq.
  - by apply (fresh_after_alloc m s).
  - exists m', s'. split; [exact Hg|]. destruct Hfr as (F1 & F2 & F3 & F4 & F5 & F6 & F7 & F8 & F9).
    cbn in F1, F2, F3, F4, F5, F6. split_and!.
    + split_and!; try done; try congruence.
      * rewrite F1. apply lookup_insert_eq.
      * intros t q Hq. apply Hi in Hq as [Hq|Hq]; [left|by right]. by eapply lookup_weaken in Hq; [|exact S1].
    + rewrite Hs'. done.
    + by rewrite Hs'.
    + rewrite F2. apply lookup_insert_eq.
Qed.

Lemma drop_tags_lookup (tags : list bytes) {V} (ix : gmap bytes V) t q :
  foldl (fun ix t => delete t ix) ix tags !! t = Some q -> ix !! t = Some q /\ t ∉ tags.
Proof.
  revert ix. induction tags as [|u tags IH]; intros ix; simpl; [intros ?; split; [done|by intros ?%elem_of_nil]|].
  intros [Hl Hn]%IH. apply lookup_delete_Some in Hl as [Hne Hl]. split; [done|].
  intros [->|?]%elem_of_cons; done.
Qed.

(** The switch to the keys of the reply: the session sends and receives on the
    new chains from the start, with a full window of tags. *)
Lemma apply_nsr_spec m0 m p s nsrKeys (initiator : bool) st ss rt rs :
  heap m !! p = Some s ->
  (forall t q, tagIndex m !! t = Some q -> tagIndex m0 !! t = Some q \/ t ∈ pendingTags (recv s)) ->
  derive_keys (if initiator then keyAB nsrKeys else keyBA nsrKeys) hkdfInfoTagAndKeyGenKeys = Some (st, ss) ->
  derive_keys (if initiator then keyBA nsrKeys else keyAB nsrKeys) hkdfInfoTagAndKeyGenKeys = Some (rt, rs) ->
  fresh_tags m0 (new_tag rt) ->
  exists m' s', applyNSRKeysToSessionWhileLocked m p s nsrKeys initiator = (m', None) /\ heap m' !! p = Some s'
    /\ receiving m' p (new_symmetric rs) (new_tag rt) ∅ (LastUsed s) tagReplenishThreshold
    /\ send s' = mkSend (new_symmetric ss) (new_tag st) 1 (dhRatchetCounter (send s))
                   (consecutiveDHFailures (send s)) (newEphemeralPub (send s)) (sendKeyID (send s))
                   (pendingNextKeys (send s)) (awaitingReverseKey (send s))
    /\ s' = set_recv (set_send s (send s')) (recv s') /\ same_frame m m' /\ nextPtr m' = nextPtr m.
Proof.
  intros Hs Hidx Hst Hrt Hf. unfold applyNSRKeysToSessionWhileLocked, apply_nsr_keys, deriveTagAndSymKeysFromChainKey.
  replace (if initiator then (keyAB nsrKeys, keyBA nsrKeys) else (keyBA nsrKeys, keyAB nsrKeys))
    with (if initiator then keyAB nsrKeys else keyBA nsrKeys, if initiator then keyBA nsrKeys else keyAB nsrKeys)
    by by destruct initiator.
  rewrite Hst, Hrt. cbn [or_error rbind fst snd].
  set (s1 := set_recv _ _). set (m1 := put _ p s1).
  destruct (generateTagWindow_fresh m1 p s1 (new_tag rt)) as
    (m' & s' & Hg & Hh & Hnx & Hlen & Htr & Hinv & Hk & Hs' & (Hfr & Hptr & Hoth) & _); try done.
  - apply lookup_insert_eq.
  - eapply fresh_tags_mono; [|exact Hf]. intros t q Ht. cbn in Ht.
    apply drop_tags_lookup in Ht as [Ht Hn]. apply Hidx in Ht as [Ht|Ht]; [done|contradiction].
  - exists m', s'. split; [exact Hg|]. split; [done|].
    destruct Hk as (K1 & K2 & K3 & K4 & K5). cbn in K1, K2, K3, K4.
    assert (Hsend : send s' = send s1) by by rewrite Hs'.
    assert (Hra : receiver_at (new_symmetric rs) ∅ (recv s')).
    { unfold receiver_at. rewrite K1, K2, K3, K4. unfold recvWindowSize.
      split_and!; try done; try lia; try (by left).
      intros c. rewrite lookup_empty. by rewrite decide_False by lia. }
    split_and!.
    + exists s'. rewrite Hnx, Hlen. split_and!; try done; try (by rewrite Hs').
      * apply Nat.leb_le. reflexivity.
    + by rewrite Hsend.
    + rewrite Hsend. rewrite Hs' at 1. done.
    + destruct Hfr as (F1 & F2 & F3 & F4 & F5 & F6 & F7 & F8 & F9). by repeat split.
    + exact Hptr.
Qed.

(** ** Calls of the manager *)

(** A New Session from an unknown router. *)
Lemma decrypt_ns_spec m ns pt sa keys hs ra rb ta tb now :
  tagIndex m !! take 8 ns = None -> nsrTagIndex m !! take 8 ns = None -> oneTimeKeys m !! take 8 ns = None ->
  readNoiseIKMessage1 (ourPrivateKey m) (ourPublicKey m) ns = Ok (pt, sa, keys, Some hs, false) ->
  validateNSDateTimeFreshness m pt now = None ->
  (CheckAndAdd (nsReplayCache m) (take 32 ns) now).2 = false ->
  derive_keys (rootKey keys) hkdfInfoDHRatchetStep = Some (ra, rb) ->
  derive_keys (tagKey keys) hkdfInfoDHRatchetStep = Some (ta, tb) ->
  fresh_tags m (new_tag ta) ->
  exists m' s', DecryptGarlicMessage m ns now = (m', Ok (pt, zero8, Some (sha256 sa)))
    /\ stored m m' (sha256 sa) (nextPtr m) s' /\ new_session s' false hs now /\ nsrTagIndex m' ⊆ nsrTagIndex m.
Proof.
  intros H1' H2' H3' Hread Hfresh Hrep Hr Ht Hf.
  assert (Hlen : (noiseIKMinMessageSize <= length ns)%nat).
  { revert Hread. unfold readNoiseIKMessage1. case_decide; [done|]. intros _. lia. }
  unfold noiseIKMinMessageSize in Hlen.
  unfold DecryptGarlicMessage. rewrite decide_False by lia.
  unfold tryDecryptExisting, lookupSessionByTag. rewrite H1'. unfold tryDecryptNSR. rewrite H2'.
  unfold tryDecryptOneTimeKey. rewrite H3'. unfold decryptNewSession. rewrite Hread. cbn iota.
  rewrite Hfresh, decide_True by lia. destruct (CheckAndAdd _ _ _) as [c seen]. simpl in Hrep. subst seen. cbn iota.
  destruct (inbound_stored (set_replay m c) sa keys hs ra rb ta tb now) as (m' & s' & -> & Hst & Hnew & Hnsr & _); try done.
  exists m', s'. by split.
Qed.

(** The reply of the responder. *)
Lemma reply_spec m0 m sa p s hs reply rnd tag nsr nsrKeys tab sab tba sba now :
  stored m0 m (sha256 sa) p s -> new_session s false hs (LastUsed s) ->
  writeNoiseIKMessage2 rnd hs reply = Ok (tag, nsr, nsrKeys) ->
  derive_keys (keyAB nsrKeys) hkdfInfoTagAndKeyGenKeys = Some (tab, sab) ->
  derive_keys (keyBA nsrKeys) hkdfInfoTagAndKeyGenKeys = Some (tba, sba) ->
  fresh_tags m0 (new_tag tab) ->
  exists m', EncryptNewSessionReply m (sha256 sa) reply rnd now = (m', Ok nsr)
    /\ receiving m' p (new_symmetric sab) (new_tag tab) ∅ now tagReplenishThreshold /\ same_frame m m'.
Proof.
  intros (_ & Hses & Hheap & Hidx & _) (Hi & Hhs & _) Hw Hab Hba Hf.
  unfold EncryptNewSessionReply. rewrite Hses, Hheap, Hhs, Hi, Hw. cbn iota.
  set (s1 := set_handshake s None).
  destruct (apply_nsr_spec m0 (put m p s1) p s1 nsrKeys false tba sba tab sab)
    as (m' & s' & -> & Hh & Hrec & _ & _ & Hfr & _); try done.
  { apply lookup_insert_eq. }
  unfold update. rewrite Hh. set (s2 := set_used _ now). exists (put m' p s2). split; [done|]. split.
  - destruct Hrec as (s3 & Hs3 & _ & Hrest). assert (s3 = s') as -> by congruence.
    exists s2. split; [apply lookup_insert_eq|]. split; [done|]. exact Hrest.
  - destruct Hfr as (F1 & F2 & F3 & F4 & F5 & F6 & F7 & F8 & F9). by repeat split.
Qed.

(** The reply reaches the initiator. *)
Lemma decrypt_nsr_spec m0 m hash p s hs tag nsr reply nsrKeys tab sab tba sba now :
  stored m0 m hash p s -> new_session s true hs (LastUsed s) -> nsrTagIndex m !! tag = Some p ->
  take 8 nsr = tag -> (8 <= length nsr)%nat -> tagIndex m !! tag = None ->
  readNoiseIKMessage2 hs (ourPrivateKey m) nsr = Ok (reply, nsrKeys) ->
  derive_keys (keyAB nsrKeys) hkdfInfoTagAndKeyGenKeys = Some (tab, sab) ->
  derive_keys (keyBA nsrKeys) hkdfInfoTagAndKeyGenKeys = Some (tba, sba) ->
  fresh_tags m0 (new_tag tba) ->
  exists m' s', DecryptGarlicMessage m nsr now = (m', Ok (reply, zero8, None))
    /\ sessions m' = sessions m /\ heap m' !! p = Some s'
    /\ sender_at (new_symmetric sab) (new_tag tab) 1 s' /\ isInitiator s' = true.
Proof.
  intros (_ & Hses & Hheap & Hidx & _) (Hi & Hhs & _ & _ & Hdh & Hpk & Hpa) Hnsr Htake Hlen Htag Hread Hab Hba Hf.
  unfold DecryptGarlicMessage. rewrite decide_False by lia. rewrite Htake.
  unfold tryDecryptExisting, lookupSessionByTag. rewrite Htag. unfold tryDecryptNSR. rewrite Hnsr.
  unfold update at 1. cbn [heap set_nsr]. rewrite Hheap.
  set (s1 := if decide (nsrTag s = Some tag) then _ else _).
  assert (Hs1 : handshakeState s1 = Some hs /\ isInitiator s1 = true /\ send s1 = send s /\ recv s1 = recv s
    /\ pendingAcks s1 = pendingAcks s) by (unfold s1; by case_decide).
  destruct Hs1 as (E1 & E2 & E3 & E4 & E5). clearbody s1.
  set (m1 := put _ p s1). unfold decryptIncomingNSR.
  replace (heap m1 !! p) with (Some s1) by (symmetry; apply lookup_insert_eq). rewrite E1.
  set (s2 := set_handshake s1 None). set (m2 := put m1 p s2).
  change (ourPrivateKey m2) with (ourPrivateKey m). rewrite Hread.
  destruct (apply_nsr_spec m0 m2 p s2 nsrKeys true tab sab tba sba)
    as (m' & s' & -> & Hh & _ & Hsend & Hs' & Hfr & _); try done.
  { apply lookup_insert_eq. }
  { intros t q Ht. change (recv s2) with (recv s1). rewrite E4. by apply Hidx. }
  unfold update. rewrite Hh. exists (put m' p (set_used s' now)), (set_used s' now).
  split; [done|]. split; [apply Hfr|]. split; [apply lookup_insert_eq|].
  assert (Hini : isInitiator s' = true) by (rewrite Hs'; exact E2). split; [|done].
  unfold sender_at. change (send (set_used s' now)) with (send s').
  rewrite Hsend. cbn [sendSym sendTag MessageCounter dhRatchetCounter pendingNextKeys].
  change (send s2) with (send s1). rewrite E3, Hdh, Hpk.
  split_and!; try done.
  - change (pendingAcks (set_used s' now)) with (pendingAcks s'). rewrite Hs'.
    change (pendingAcks s1 = []). congruence.
  - intros _. change (handshakeState (set_used s' now)) with (handshakeState s'). by rewrite Hs'.
  - change (isInitiator (set_used s' now)) with (isInitiator s'). congruence.
Qed.

(** Messages sent one after the other. *)
Fixpoint send_all (m : SessionManager) (hash pub : bytes) (pts : list bytes) (rnd : bytes) (now : Z)
    : SessionManager * option (list bytes) :=
  match pts with
  | [] => (m, Some [])
  | pt :: rest =>
      match EncryptGarlicMessage m hash pub pt rnd now with
      | (m, Err _) => (m, None)
      | (m, Ok msg) =>
          let '(m, msgs) := send_all m hash pub rest rnd now in
          (m, match msgs with Some msgs => Some (msg :: msgs) | None => None end)
      end
  end.

Lemma send_all_spec r0 t0 hash pub rnd now pts :
  forall m p s n, sessions m !! hash = Some p -> heap m !! p = Some s -> sender_at r0 t0 n s ->
  1 <= n -> n + zlen pts <= DHRatchetInterval ->
  (forall i pt, pts !! i = Some pt -> pt <> [] /\ is_Some (es_message r0 t0 (n + Z.of_nat i) pt)) ->
  exists m' msgs, send_all m hash pub pts rnd now = (m', Some msgs)
    /\ forall i pt, pts !! i = Some pt ->
       exists msg, msgs !! i = Some msg /\ es_message r0 t0 (n + Z.of_nat i) pt = Some msg.
Proof.
  induction pts as [|pt pts IH]; intros m p s n Hses Hs Hat Hn Hlen Hpts.
  { exists m, []. split; [done|]. intros i pt. by rewrite lookup_nil. }
  rewrite zlen_cons in Hlen. pose proof (zlen_nonneg pts).
  destruct (Hpts 0%nat pt) as [Hne Hes]; [done|]. rewrite Z.add_0_r in Hes.
  destruct (encrypt_step r0 t0 n s pt rnd now) as (s' & msg & Henc & Hmsg & Hat'); [lia|done|done|].
  cbn [send_all]. unfold EncryptGarlicMessage at 1. destruct pt as [|b pt]; [done|].
  rewrite Hses, Hs, Henc.
  destruct (IH (put m p s') p s' (n + 1)) as (m' & msgs & -> & Hmsgs); try done; try lia.
  - apply lookup_insert_eq.
  - intros i pt' Hi. destruct (Hpts (S i) pt') as [Hne' Hes']; [done|]. split; [done|].
    by replace (n + 1 + Z.of_nat i) with (n + Z.of_nat (S i)) by lia.
  - exists m', (msg :: msgs). split; [done|]. intros [|i] pt' Hi; cbn in Hi.
    + apply (inj Some) in Hi as <-. exists msg. rewrite Z.add_0_r. done.
    + destruct (Hmsgs i pt' Hi) as (msg' & Hm' & He'). exists msg'. split; [done|].
      by replace (n + Z.of_nat (S i)) with (n + 1 + Z.of_nat i) by lia.
Qed.

(** The handshake state the responder has after reading a New Session. *)
Definition responder_hs (hsA : noiseHandshakeState) (sa : bytes) : noiseHandshakeState :=
  mkHandshake (hs_h hsA) (hs_ck hsA) [] (x25519_public (localEphPriv hsA)) (x25519_public sa).

(** ** A conversation

    What a conversation between the routers with managers [mA] and [mB] needs of
    the libraries and of the state of the two managers: the handshake messages
    can be built, keys can be derived, and the tags of the chains do not clash
    with each other or with those of other sessions. *)
Record conversation (mA mB : SessionManager) (hB sa sb pt0 reply rnd1 rnd2 : bytes) (ns : bytes)
    (keys : sessionKeys) (hsA : noiseHandshakeState) (tag nsr : bytes) (nsrKeys : nsrSessionKeys)
    (sab tab : bytes) (t1 t2 : Z) : Prop := {
  cv_privA : ourPrivateKey mA = sa;
  cv_pubA : ourPublicKey mA = x25519_public sa;
  cv_privB : ourPrivateKey mB = sb;
  cv_pubB : ourPublicKey mB = x25519_public sb;
  cv_static : length (x25519_public sa) = 32%nat /\ isAllZeros (x25519_public sa) = false;
  cv_unknown : sessions mA !! hB = None;
  cv_payload : ValidateNewSessionPayload pt0 = None;
  cv_ns : writeNoiseIKMessage1 rnd1 sa (x25519_public sa) (x25519_public sb) pt0 = Ok (ns, keys, hsA);
  cv_nsr : writeNoiseIKMessage2 rnd2 (responder_hs hsA sa) reply = Ok (tag, nsr, nsrKeys);
  cv_roots : is_Some (derive_keys (rootKey keys) hkdfInfoDHRatchetStep);
  cv_tags : exists ta tb, derive_keys (tagKey keys) hkdfInfoDHRatchetStep = Some (ta, tb)
    /\ fresh_tags mB (new_tag ta) /\ fresh_tags mA (new_tag tb);
  cv_ab : derive_keys (keyAB nsrKeys) hkdfInfoTagAndKeyGenKeys = Some (tab, sab) /\ fresh_tags mB (new_tag tab);
  cv_ba : exists tba sba, derive_keys (keyBA nsrKeys) hkdfInfoTagAndKeyGenKeys = Some (tba, sba)
    /\ fresh_tags mA (new_tag tba);
  cv_nsr_tag : tagIndex (EncryptGarlicMessage mA hB (x25519_public sb) pt0 rnd1 t1).1 !! tag = None;
  cv_ns_tag : tagIndex mB !! take 8 ns = None /\ nsrTagIndex mB !! take 8 ns = None
    /\ oneTimeKeys mB !! take 8 ns = None;
  cv_fresh : validateNSDateTimeFreshness mB pt0 t2 = None;
  cv_new : (CheckAndAdd (nsReplayCache mB) (take 32 ns) t2).2 = false;
}.

(** The first three messages. Afterwards the router is ready to send on the chain
    from A to B and the peer to receive on it. *)
Lemma handshake_exchanged (mA mB : SessionManager) (hB sa sb pt0 reply rnd1 rnd2 ns : bytes)
    (keys : sessionKeys) (hsA : noiseHandshakeState) (tag nsr : bytes) (nsrKeys : nsrSessionKeys)
    (sab tab : bytes) (t1 t2 t3 t4 : Z) :
  conversation mA mB hB sa sb pt0 reply rnd1 rnd2 ns keys hsA tag nsr nsrKeys sab tab t1 t2 ->
  0 <= sessionTimeout mB ->
  exists mA1 mA2 sA2 mB1 mB2,
    EncryptGarlicMessage mA hB (x25519_public sb) pt0 rnd1 t1 = (mA1, Ok ns)
    /\ DecryptGarlicMessage mB ns t2 = (mB1, Ok (pt0, zero8, Some (sha256 (x25519_public sa))))
    /\ EncryptNewSessionReply mB1 (sha256 (x25519_public sa)) reply rnd2 t3 = (mB2, Ok nsr)
    /\ DecryptGarlicMessage mA1 nsr t4 = (mA2, Ok (reply, zero8, None))
    /\ sessions mA2 !! hB = Some (nextPtr mA) /\ heap mA2 !! nextPtr mA = Some sA2
    /\ sender_at (new_symmetric sab) (new_tag tab) 1 sA2
    /\ receiving mB2 (nextPtr mB) (new_symmetric sab) (new_tag tab) ∅ t3 tagReplenishThreshold
    /\ sessionTimeout mB2 = sessionTimeout mB
    /\ (forall msg, es_only mB msg -> es_only mB2 msg).
Proof.
  intros C Hto.
  destruct (cv_roots _ _ _ _ _ _ _ _ _ _ _ _ _ _ _ _ _ _ _ C) as [[ra rb] Hroots].
  destruct C as [PA UA PB UB [Hst Hz] Hunk Hpay Hns Hnsr _ (ta & tb & Htags & HfB & HfA) [Hab HfB2]
    (tba & sba & Hba & HfA2) Hntag (Hi1 & Hi2 & Hi3) Hfresh Hnew].
  destruct (reply_read rnd2 sa hsA (responder_hs hsA sa) reply tag nsr nsrKeys eq_refl eq_refl eq_refl eq_refl Hnsr)
    as (Htake & Htg & Hread2).
  assert (Henc : exists mA1 sA, EncryptGarlicMessage mA hB (x25519_public sb) pt0 rnd1 t1 = (mA1, Ok ns)
    /\ stored mA mA1 hB (nextPtr mA) sA /\ new_session sA true hsA (LastUsed sA)
    /\ nsrTagIndex mA1 !! tag = Some (nextPtr mA)).
  { destruct (outbound_stored mA hB (x25519_public sb) keys hsA ra rb ta tb tag t1)
      as (mA1 & sA & Hsto & Hstd & Hnw & _ & Hnt); try done.
    exists mA1, sA. unfold EncryptGarlicMessage. destruct pt0 as [|b pt0]; [done|].
    rewrite Hunk. unfold encryptNewSession. rewrite Hpay, PA, UA, Hns, Hsto. split_and!; try done.
    destruct Hnw as (?&?&?&Hlu&?). by rewrite Hlu. }
  destruct Henc as (mA1 & sA & HencA & HstA & HnewA & HnsrA).
  pose proof HstA as (_ & _ & _ & _ & _ & PA1 & _).
  destruct (decrypt_ns_spec mB ns pt0 (x25519_public sa) keys (responder_hs hsA sa) ra rb ta tb t2)
    as (mB1 & sB & HdecB & HstB & HnewB & HnsrB); try done.
  { rewrite PB, UB. by apply new_session_read with rnd1. }
  assert (HnewB' : LastUsed sB = t2) by apply HnewB.
  destruct (reply_spec mB mB1 (x25519_public sa) (nextPtr mB) sB (responder_hs hsA sa) reply rnd2
    tag nsr nsrKeys tab sab tba sba t3)
    as (mB2 & HencB & HrecB & HfrB); try done.
  { by rewrite HnewB'. }
  rewrite HencA in Hntag. cbn [fst] in Hntag.
  destruct (decrypt_nsr_spec mA mA1 hB (nextPtr mA) sA hsA tag nsr reply nsrKeys tab sab tba sba t4)
    as (mA2 & sA2 & HdecA & HsesA & HheapA & HatA & _); try done.
  { apply nsr_tag_length in Htg. apply (f_equal length) in Htake. rewrite length_take in Htake. lia. }
  { by rewrite PA1, PA. }
  exists mA1, mA2, sA2, mB1, mB2. split_and!; try done; [by rewrite HsesA; apply HstA|..];
    destruct HfrB as (_ & F2 & F3 & F4 & F5 & F6 & _), HstB as (_ & _ & _ & _ & G3 & G4 & G5 & G6); [by rewrite F6, G6|].
  intros msg (E1 & E2 & E3). unfold es_only. rewrite F2, F3, F4, F5, G3, G4, G5. split_and!; [|done|done].
  destruct (nsrTagIndex mB1 !! take 8 msg) as [q|] eqn:Hq; [|done]. eapply lookup_weaken in Hq; [|exact HnsrB]. congruence.
Qed.

(** C16: a conversation. A router that has no session with a peer sends it a garlic
    message; the peer decrypts it and replies; the router decrypts the reply;
    and of the messages the router then sends (fewer than the 50 after which
    the keys rotate) each is decrypted by the peer at its first arrival, and
    refused afterwards, in whatever order they arrive, as long as none runs
    ahead of the others by more than the window of tags. *)
Theorem garlic_conversation (mA mB : SessionManager) (hB sa sb pt0 reply rnd1 rnd2 ns : bytes)
    (keys : sessionKeys) (hsA : noiseHandshakeState) (tag nsr : bytes) (nsrKeys : nsrSessionKeys)
    (sab tab : bytes) (t1 t2 t3 t4 t5 : Z) (pts : list bytes) (rnd : bytes) (arrivals : list (nat * Z)) :
  conversation mA mB hB sa sb pt0 reply rnd1 rnd2 ns keys hsA tag nsr nsrKeys sab tab t1 t2 ->
  (forall c, 1 <= c -> is_Some (chain_key (new_symmetric sab) c)) ->
  zlen pts < DHRatchetInterval ->
  (forall i pt, pts !! i = Some pt -> pt <> [] /\ no_termination pt
     /\ is_Some (es_message (new_symmetric sab) (new_tag tab) (1 + Z.of_nat i) pt)) ->
  0 <= sessionTimeout mB ->
  Forall (fun a => (a.1 < length pts)%nat /\ t3 <= a.2 <= t3 + sessionTimeout mB) arrivals ->
  in_reach [] arrivals.*1 ->
  exists mA1 mA2 mA3 mB1 mB2 msgs,
    EncryptGarlicMessage mA hB (x25519_public sb) pt0 rnd1 t1 = (mA1, Ok ns)
    /\ DecryptGarlicMessage mB ns t2 = (mB1, Ok (pt0, zero8, Some (sha256 (x25519_public sa))))
    /\ EncryptNewSessionReply mB1 (sha256 (x25519_public sa)) reply rnd2 t3 = (mB2, Ok nsr)
    /\ DecryptGarlicMessage mA1 nsr t4 = (mA2, Ok (reply, zero8, None))
    /\ send_all mA2 hB (x25519_public sb) pts rnd t5 = (mA3, Some msgs)
    /\ (Forall (es_only mB) msgs ->
        let delivered := omap (fun i => pts !! i) (first_arrivals [] arrivals.*1) in
        plaintexts (receive_all mB2 msgs arrivals).2 = delivered
        /\ ((forall i, (i < length pts)%nat -> i ∈ arrivals.*1) -> delivered ≡ₚ pts)).
Proof.
  intros C Hkeys Hlen Hpts Hto Harr Hreach.
  destruct (handshake_exchanged _ _ _ _ _ _ _ _ _ _ _ _ _ _ _ _ _ _ _ t3 t4 C Hto)
    as (mA1 & mA2 & sA2 & mB1 & mB2 & HencA & HdecB & HencB & HdecA & HsesA & HheapA & HatA & HrecB & HtoB & HesB).
  destruct (send_all_spec (new_symmetric sab) (new_tag tab) hB (x25519_public sb) rnd t5 pts mA2 (nextPtr mA) sA2 1)
    as (mA3 & msgs & Hsend & Hmsgs); try done; try lia.
  { intros i pt Hi. destruct (Hpts i pt Hi) as (? & _ & ?). done. }
  exists mA1, mA2, mA3, mB1, mB2, msgs. split_and!; try done. intros Hes. cbv zeta.
  split; [|apply first_arrivals_complete; rewrite Forall_fmap; eapply Forall_impl; [exact Harr|]; by intros a [? _]].
  apply (receive_all_spec (new_symmetric sab) (new_tag tab) Hkeys
    (proj1 (proj2 (cv_ab _ _ _ _ _ _ _ _ _ _ _ _ _ _ _ _ _ _ _ C))) pts msgs t3) with (p := nextPtr mB) (used := ∅) (lu := t3).
  - exact Hlen.
  - intros i pt Hi. destruct (Hpts i pt Hi) as (_ & Hnt & _). split; [exact Hnt|].
    destruct (Hmsgs i pt Hi) as (msg & Hm & He). exists msg. rewrite Z.add_comm. by split.
  - exact HrecB.
  - apply size_empty.
  - intros i. split; [by intros ?%elem_of_empty|by intros ?%elem_of_nil].
  - constructor.
  - constructor.
  - by rewrite HtoB.
  - lia.
  - eapply Forall_impl; [exact Hes|]. exact HesB.
  - by rewrite HtoB.
  - exact Hreach.
Qed.

End Garlic.

(** ** Tags by evaluation *)

Section CheckTags.
Context `{HashLib, CurveLib, AEADLib, NoiseLib, RatchetLib}.

Fixpoint tags_of (n : nat) (t : TagRatchet) : list (option bytes) :=
  match n with
  | O => []
  | S n => let '(t, tag) := generate_next_tag t in tag :: tags_of n t
  end.

Lemma tags_of_lookup n t i : (i < n)%nat -> tags_of n t !! i = Some (generate_next_tag (tag_iter i t)).2.
Proof.
  revert t i. induction n as [|n IH]; intros t i Hi; [lia|]. simpl.
  destruct (generate_next_tag t) as [t' tag] eqn:Hg. destruct i as [|i]; simpl; [by rewrite Hg|].
  rewrite IH by lia. by rewrite Hg.
Qed.

Definition check_tags (m : SessionManager) (t0 : TagRatchet) : bool :=
  let l := tags_of 200 t0 in
  forallb (fun o => match o with Some t => bool_decide (tagIndex m !! t = None) | None => false end) l
  && bool_decide (NoDup l).

Lemma check_tags_fresh m t0 : check_tags m t0 = true -> fresh_tags m t0.
Proof.
  unfold check_tags. intros [Hall Hnd]%andb_true_iff. apply bool_decide_eq_true in Hnd.
  rewrite forallb_forall in Hall.
  assert (Hl : forall c, 1 <= c <= tagHorizon -> tags_of 200 t0 !! Z.to_nat (c - 1) = Some (chain_tag t0 c)).
  { unfold tagHorizon. intros c Hc. rewrite tags_of_lookup by lia. done. }
  assert (Hin : forall c, 1 <= c <= tagHorizon ->
    match chain_tag t0 c with Some t => bool_decide (tagIndex m !! t = None) | None => false end = true).
  { intros c Hc. apply Hall, list_elem_of_In. by eapply list_elem_of_lookup_2, Hl. }
  split; [split|].
  - intros c Hc. specialize (Hin c Hc). destruct (chain_tag t0 c); [done|discriminate].
  - intros c c' t Hc Hc' Ht Ht'. pose proof (Hl c Hc) as H1'. pose proof (Hl c' Hc') as H2'.
    rewrite Ht in H1'. rewrite Ht' in H2'. pose proof (NoDup_lookup _ _ _ _ Hnd H1' H2'). lia.
  - intros c t Hc Ht. specialize (Hin c Hc). rewrite Ht in Hin. by apply bool_decide_eq_true in Hin.
Qed.

End CheckTags.

(** ** Witness *)

#[local] Existing Instances demo_hash demo_curve demo_aead demo_noise demo_ratchet.
#[local] Instance demo_sessions_range : GoRange bytes positive := range_map_to_list bytes positive.
#[local] Instance demo_cache_range : GoRange bytes Z := range_map_to_list bytes Z.
#[local] Instance demo_cache_sort : GoSort (bytes * Z) := sort_merge.

Definition alice : SessionManager := NewSessionManager demo_sa defaultNSMaxPastAge defaultNSMaxFutureAge.
Definition bob : SessionManager := NewSessionManager demo_sb defaultNSMaxPastAge defaultNSMaxFutureAge.

Definition demo_unix : Z := 1700000000.
Definition demo_time : Z := demo_unix * Second.
Definition demo_hashB : bytes := sha256 demo_sb.

Definition demo_first : bytes := ok_or [] (BuildNSPayload [x01; x02] demo_unix).
Definition demo_clove (b : byte) : bytes := ok_or [] (Build [NewGarlicCloveBlock [b]]).

Definition demo_eph1 : bytes := replicate 32 x33.
Definition demo_eph2 : bytes := replicate 32 x44.

Definition demo_msg1 := ok_or ([], mkSessionKeys [] [] [], mkHandshake [] [] [] [] [])
  (writeNoiseIKMessage1 demo_eph1 demo_sa (x25519_public demo_sa) (x25519_public demo_sb) demo_first).

Definition demo_msg2 := ok_or ([], [], mkNSRKeys [] [] [])
  (writeNoiseIKMessage2 demo_eph2 (responder_hs demo_msg1.2 demo_sa) (demo_clove x09)).

Definition demo_ab : bytes * bytes :=
  default ([], []) (derive_keys (keyAB demo_msg2.2) hkdfInfoTagAndKeyGenKeys).

Definition demo_ba : bytes * bytes :=
  default ([], []) (derive_keys (keyBA demo_msg2.2) hkdfInfoTagAndKeyGenKeys).

Definition demo_ns_tags : bytes * bytes :=
  default ([], []) (derive_keys (tagKey demo_msg1.1.2) hkdfInfoDHRatchetStep).

Definition demo_arrivals : list (nat * Z) :=
  [(2%nat, demo_time + 1); (0%nat, demo_time + 2); (2%nat, demo_time + 3); (1%nat, demo_time + 4)].

Definition demo_pts : list bytes := [demo_clove x0a; demo_clove x0b; demo_clove x0c].

Lemma demo_conversation :
  conversation alice bob demo_hashB demo_sa demo_sb demo_first (demo_clove x09) demo_eph1 demo_eph2
    demo_msg1.1.1 demo_msg1.1.2 demo_msg1.2 demo_msg2.1.1 demo_msg2.1.2 demo_msg2.2 demo_ab.2 demo_ab.1
    demo_time demo_time.
Proof.
  split.
  - vm_compute; reflexivity.
  - vm_compute; reflexivity.
  - vm_compute; reflexivity.
  - vm_compute; reflexivity.
  - split; vm_compute; reflexivity.
  - vm_compute; reflexivity.
  - vm_compute; reflexivity.
  - vm_compute; reflexivity.
  - vm_compute; reflexivity.
  - apply is_Some_alt. vm_compute. exact I.
  - exists demo_ns_tags.1, demo_ns_tags.2. split; [vm_compute; reflexivity|].
    split; apply check_tags_fresh; vm_compute; reflexivity.
  - split; [vm_compute; reflexivity|apply check_tags_fresh; vm_compute; reflexivity].
  - exists demo_ba.1, demo_ba.2. split; [vm_compute; reflexivity|apply check_tags_fresh; vm_compute; reflexivity].
  - vm_compute; reflexivity.
  - split_and!; vm_compute; reflexivity.
  - vm_compute; reflexivity.
  - vm_compute; reflexivity.
Qed.

(** The states of the demonstration, by running it. *)
Definition demo_A1 : SessionManager := (EncryptGarlicMessage alice demo_hashB (x25519_public demo_sb) demo_first demo_eph1 demo_time).1.
Definition demo_B1 : SessionManager := (DecryptGarlicMessage bob demo_msg1.1.1 demo_time).1.
Definition demo_B2 : SessionManager :=
  (EncryptNewSessionReply demo_B1 (sha256 (x25519_public demo_sa)) (demo_clove x09) demo_eph2 demo_time).1.
Definition demo_A2 : SessionManager := (DecryptGarlicMessage demo_A1 demo_msg2.1.2 demo_time).1.
Definition demo_msgs : list bytes :=
  default [] (send_all demo_A2 demo_hashB (x25519_public demo_sb) demo_pts [] demo_time).2.

Lemma demo_keys_defined (sab : bytes) (c : Z) : 1 <= c -> is_Some (chain_key (new_symmetric sab) c).
Proof. intros _. unfold chain_key. generalize (chain_sym (new_symmetric sab) c). intros r. by eexists. Qed.

Definition no_terminationb (pt : bytes) : bool :=
  match ParsePayload pt with
  | Ok blocks => forallb (fun b => bool_decide (Type_ b <> BlockTermination)) blocks
  | Err _ => true
  end.

Lemma no_terminationb_spec pt : no_terminationb pt = true -> no_termination pt.
Proof.
  unfold no_terminationb, no_termination. intros Hb blocks Hp b Hin. rewrite Hp, forallb_forall in Hb.
  by apply list_elem_of_In, Hb, bool_decide_eq_true in Hin.
Qed.

Definition es_onlyb (m : SessionManager) (msg : bytes) : bool :=
  bool_decide (nsrTagIndex m !! take 8 msg = None) && bool_decide (oneTimeKeys m !! take 8 msg = None)
  && match readNoiseIKMessage1 (ourPrivateKey m) (ourPublicKey m) msg with Ok _ => false | Err _ => true end.

Lemma es_onlyb_spec m msg : es_onlyb m msg = true -> es_only m msg.
Proof.
  unfold es_onlyb, es_only. rewrite !andb_true_iff, !bool_decide_eq_true. intros [[? ?] Hr]. split_and!; [done..|].
  destruct (readNoiseIKMessage1 _ _ _) as [|e]; [discriminate|by exists e].
Qed.

Lemma es_only_all m l : forallb (es_onlyb m) l = true -> Forall (es_only m) l.
Proof.
  rewrite forallb_forall. intros Hl. apply Forall_forall. intros msg Hin. by apply es_onlyb_spec, Hl, list_elem_of_In.
Qed.

Lemma garlic_conversation_witness :
  (exists m, EncryptGarlicMessage alice demo_hashB (x25519_public demo_sb) demo_first demo_eph1 demo_time
     = (m, Ok demo_msg1.1.1))
  /\ plaintexts (receive_all demo_B2 demo_msgs demo_arrivals).2 = [demo_clove x0c; demo_clove x0a; demo_clove x0b].
Proof.
  destruct (garlic_conversation alice bob demo_hashB demo_sa demo_sb demo_first (demo_clove x09) demo_eph1 demo_eph2
    demo_msg1.1.1 demo_msg1.1.2 demo_msg1.2 demo_msg2.1.1 demo_msg2.1.2 demo_msg2.2 demo_ab.2 demo_ab.1
    demo_time demo_time demo_time demo_time demo_time demo_pts [] demo_arrivals)
    as (mA1 & mA2 & mA3 & mB1 & mB2 & msgs & HA1 & HB1 & HB2 & HA2 & Hsend & Hrecv).
  - exact demo_conversation.
  - apply demo_keys_defined.
  - vm_compute. reflexivity.
  - intros i pt Hi. assert (Hin : pt ∈ demo_pts) by (by eapply list_elem_of_lookup_2).
    split_and!.
    + repeat (apply elem_of_cons in Hin as [->|Hin]; [vm_compute; discriminate|]). by apply elem_of_nil in Hin.
    + apply no_terminationb_spec.
      repeat (apply elem_of_cons in Hin as [->|Hin]; [vm_compute; reflexivity|]). by apply elem_of_nil in Hin.
    + do 3 (destruct i as [|i]; [injection Hi as <-; apply is_Some_alt; vm_compute; exact I|]). discriminate.
  - vm_compute. discriminate.
  - repeat constructor; vm_compute; intros; discriminate.
  - repeat split; vm_compute; lia.
  - split; [by exists mA1|].
    assert (mB2 = demo_B2) as ->.
    { unfold demo_B2, demo_B1. rewrite HB1. cbn [fst]. by rewrite HB2. }
    assert (msgs = demo_msgs) as ->.
    { unfold demo_msgs, demo_A2, demo_A1. rewrite HA1. cbn [fst]. rewrite HA2. cbn [fst]. by rewrite Hsend. }
    assert (Hes : Forall (es_only bob) demo_msgs).
    { apply es_only_all. vm_compute. reflexivity. }
    rewrite (proj1 (Hrecv Hes)). vm_compute. reflexivity.
Defined.
