(* ===== verification/SessionInvariant.v ===== *)
(** * Invariants of the session manager

    What holds of the manager of [ratchet/session_manager.go] after any sequence
    of calls of its API: the tag indices agree with the sessions, the number of sessions,
    of tags and of cached keys is bounded, the least recently used session is the
    one that is evicted, and no New Session message is accepted twice. *)

From Stdlib Require Import ZArith Lia.
From Stdlib Require Import Strings.Byte Strings.String.
From stdpp Require Import base numbers list gmap.
From S2P Require Import Prelude Crypto NoiseIK RatchetPayload ReplayCache RatchetSession SessionManager Garlic.

#[local] Open Scope Z_scope.

Section SessionInvariant.
Context `{HashLib, CurveLib, AEADLib, NoiseLib, RatchetLib}.
Context {Rs : GoRange bytes positive} {Rt : GoRange bytes Z} {Srt : GoSort (bytes * Z)}.

(** ** The receive window of a session *)

(** The cached keys are those of counters in the window, which spans at most
    [recvWindowSize] counters and stays within 32 bits. *)
Definition window_ok (x : RecvState) : Prop :=
  1 <= recvWindowBase x <= recvFillMark x /\ recvFillMark x <= recvWindowBase x + recvWindowSize
  /\ recvFillMark x < 2 ^ 32
  /\ forall c k, recvKeyCache x !! c = Some k -> recvWindowBase x <= c < recvFillMark x.

Lemma window_cache_size x : window_ok x -> Z.of_nat (size (recvKeyCache x)) <= recvWindowSize.
Proof.
  intros ((? & Hle) & Hspan & _ & Hin).
  rewrite <- size_dom.
  assert (Hsub : dom (recvKeyCache x) ⊆ (list_to_set (seqZ (recvWindowBase x) (recvFillMark x - recvWindowBase x)) : gset Z)).
  { intros c [k Hk]%elem_of_dom. apply elem_of_list_to_set, elem_of_seqZ. specialize (Hin c k Hk). lia. }
  apply subseteq_size in Hsub. rewrite size_list_to_set in Hsub by apply NoDup_seqZ.
  rewrite length_seqZ in Hsub. lia.
Qed.

Lemma fill_loop_ok n x sym x' e :
  window_ok x -> recvFillMark x + Z.of_nat n <= recvWindowBase x + recvWindowSize ->
  recvFillMark x + Z.of_nat n < 2 ^ 32 ->
  fill_loop n x sym = (x', e) -> window_ok x' /\ pendingTags x' = pendingTags x.
Proof.
  revert x sym. induction n as [|n IH]; intros x sym Hok Hs Hw; cbn [fill_loop].
  { by intros [= <- <-]. }
  destruct (derive_message_key sym (recvFillMark x)) as [sym' [k|]].
  - intros Hf. apply IH in Hf as [? Hp]; [by rewrite Hp| | |]; try (cbn; lia).
    destruct Hok as (? & ? & ? & Hin). unfold window_ok. cbn. split_and!; try lia.
    intros c k' [[<- _]|[_ Hc]]%lookup_insert_Some; [lia|]. specialize (Hin c k' Hc). lia.
  - intros [= <- <-]. done.
Qed.

Lemma advance_base_bounds n base cache :
  base <= advance_base n base cache <= base + Z.of_nat n
  /\ (forall c k, cache !! c = Some k -> base <= c -> advance_base n base cache <= c).
Proof.
  revert base. induction n as [|n IH]; intros base; cbn [advance_base]; [split; [lia|done]|].
  destruct (cache !! base) as [k0|] eqn:Hb; [split; [lia|done]|].
  destruct (IH (base + 1)) as [? Hc]. split; [lia|].
  intros c k Hk Hle. apply (Hc c k Hk). destruct (decide (c = base)) as [->|]; [congruence|lia].
Qed.

Lemma consume_ok x c : window_ok x -> window_ok (consume_counter x c).
Proof.
  intros (? & ? & ? & Hin). unfold window_ok, consume_counter. cbn [recvWindowBase recvFillMark recvKeyCache].
  set (cache := delete c (recvKeyCache x)).
  destruct (advance_base_bounds (Z.to_nat (recvFillMark x - recvWindowBase x)) (recvWindowBase x) cache) as [? Hb].
  split_and!; try lia. intros d k Hd. assert (recvKeyCache x !! d = Some k) as Hd' by by apply lookup_delete_Some in Hd as [_ ?].
  specialize (Hin d k Hd'). split; [|lia]. apply (Hb d k Hd). lia.
Qed.

Lemma window_end_ok x :
  window_ok x -> window_end x <= recvWindowBase x + recvWindowSize /\ window_end x < 2 ^ 32.
Proof.
  intros (? & ? & ? & _). unfold window_end, u32, wrap, recvWindowSize in *.
  destruct (Z.ltb_spec ((recvWindowBase x + 128) mod 2 ^ 32) (recvWindowBase x)).
  2: { pose proof (Z.mod_le (recvWindowBase x + 128) (2 ^ 32)).
       pose proof (Z.mod_pos_bound (recvWindowBase x + 128) (2 ^ 32)). lia. }
  assert (2 ^ 32 <= recvWindowBase x + 128).
  { destruct (Z_lt_le_dec (recvWindowBase x + 128) (2 ^ 32)); [|done]. rewrite Z.mod_small in * by lia. lia. }
  replace (recvFillMark x + 128) with ((recvFillMark x + 128 - 2 ^ 32) + 1 * 2 ^ 32) by lia.
  rewrite Z.mod_add, Z.mod_small by lia. lia.
Qed.

Lemma fill_ok x x' e :
  window_ok x -> fillRecvKeyCache x (window_end x) = (x', e) -> window_ok x' /\ pendingTags x' = pendingTags x.
Proof.
  intros Hok. unfold fillRecvKeyCache. destruct (recvSym x); [|by intros [= <- <-]].
  pose proof (window_end_ok x Hok) as [? ?]. pose proof Hok as (? & ? & ? & _).
  apply fill_loop_ok; [done|lia..].
Qed.

(** ** Sessions *)

Definition session_ok (s : Session) : Prop :=
  window_ok (recv s) /\ (length (pendingTags (recv s)) <= tagWindowSize)%nat.

Lemma createSession_ok remote keys priv initiator now s :
  createSession remote keys priv initiator now = Ok s -> session_ok s.
Proof.
  unfold createSession. intros Hs. inv_binds. apply Ok_inj in Hs as <-. split; cbn; [|lia].
  unfold window_ok, recvWindowSize. cbn. split_and!; try lia. intros c k Hc. by rewrite lookup_empty in Hc.
Qed.

Lemma open_message_session x msg st hint x' r :
  window_ok x -> open_message x msg st hint = (x', r) -> window_ok x' /\ pendingTags x' = pendingTags x.
Proof.
  intros Hok. unfold open_message. destruct (parseExistingSessionMessage msg) as [[ct tag]|e]; [|by intros [= <- <-]].
  destruct (fillRecvKeyCache x (window_end x)) as [y [e|]] eqn:Hf; apply fill_ok in Hf as [Hy Hp]; try done.
  { by intros [= <- <-]. }
  destruct (match tryCounterHintDecrypt _ _ _ _ _ _ with Some r0 => _ | None => _ end) as [[pt c]|];
    intros [= <- <-]; [|done]. split; [by apply consume_ok|done].
Qed.

Lemma decryptExisting_ok s msg st hint now s' r :
  session_ok s -> decryptExistingSession s msg st hint now = (s', r) ->
  session_ok s' /\ pendingTags (recv s') = pendingTags (recv s).
Proof.
  intros [Hw Hp]. unfold decryptExistingSession.
  destruct (open_message (recv s) msg st hint) as [x [[pt c]|e]] eqn:Ho; apply open_message_session in Ho as [Hx Hpt]; try done;
    intros [= <- <-]; (destruct (negb _ && _) || idtac); unfold session_ok; cbn; by rewrite Hpt.
Qed.

(** The operations of the sending side leave the receiving side alone. *)
Lemma applySend_recv s s' e : applySendRatchetKeys s = (s', e) -> recv s' = recv s.
Proof.
  unfold applySendRatchetKeys, applyRatchetKeys. destruct (dh_perform _) as [dh [[? ?]|]]; [|by intros [= <- <-]].
  destruct (deriveTagAndSymKeysFromChainKey _) as [[? ?]|]; by intros [= <- <-].
Qed.

Lemma attemptDH_recv s rnd s' e : attemptDHRatchetRotation s rnd = (s', e) -> recv s' = recv s.
Proof.
  unfold attemptDHRatchetRotation, performDHRatchetStep. destruct (_ <? _); [by intros [= <- <-]|].
  destruct (MaxKeyID <=? _); [by intros [= <- <-]|]. destruct (dh_generate _ _) as [dh [pub|]]; [|by intros [= <- <-]].
  destruct (applySendRatchetKeys _) as [s1 [e1|]] eqn:Ha; apply applySend_recv in Ha; by intros [= <- <-].
Qed.

Lemma encryptExisting_recv s pt rnd now : recv (encryptExistingSession s pt rnd now).1 = recv s.
Proof.
  unfold encryptExistingSession. destruct (_ && _); [done|]. destruct (_ && _); [done|].
  unfold advanceRatchets. destruct (_ <=? _); [done|].
  destruct (attemptDHRatchetRotation s rnd) as [s1 [e|]] eqn:Ha; apply attemptDH_recv in Ha; [done|].
  unfold deriveMessageKey. destruct (derive_message_key _ _) as [sym [k|]]; cbn [or_error]; [|done].
  unfold generateAndTrackSessionTag. destruct (generate_next_tag _) as [tr [t|]]; cbn [or_error]; [|done].
  unfold prependPendingNextKeys. cbn. destruct (pendingNextKeys (send s1) ++ pendingAcks s1).
  - destruct (encryptWithSessionKey _ _ _ _) as [[? ?]|]; done.
  - destruct (build_loop _ _); [|done]. destruct (encryptWithSessionKey _ _ _ _) as [[? ?]|]; done.
Qed.

(** New receiving chains keep the window. *)
Lemma incomingDH_ok s remote s' e :
  session_ok s -> applyIncomingDHKey s remote = (s', e) -> session_ok s' /\ pendingTags (recv s') = pendingTags (recv s).
Proof.
  unfold applyIncomingDHKey, applyRecvRatchetKeys, applyRatchetKeys. intros Hok.
  destruct (dh_update _ _) as [dh ok]. destruct (negb ok); [by intros [= <- <-]|].
  destruct (dh_perform _) as [dh' [[? ?]|]]; [|by intros [= <- <-]].
  destruct (deriveTagAndSymKeysFromChainKey _) as [[? ?]|]; by intros [= <- <-].
Qed.

Lemma nextKey_ok s info rnd s' e :
  session_ok s ->
  (if KeyPresent info then processNextKeyWithKey s info rnd else processNextKeyAck s info) = (s', e) ->
  session_ok s' /\ pendingTags (recv s') = pendingTags (recv s).
Proof.
  intros Hok. destruct (KeyPresent info).
  - unfold processNextKeyWithKey, processReverseNextKey, processForwardNextKey. destruct (Reverse info);
      destruct (applyIncomingDHKey _ _) as [s1 [e1|]] eqn:Ha; apply incomingDH_ok in Ha; try done;
      try (by intros [= <- <-]).
    destruct (RequestReverse info); [|by intros [= <- <-]]. unfold generateReverseNextKey.
    destruct (_ <=? _); [by intros [= <- <-]|]. destruct (dh_generate _ _) as [dh [pub|]]; by intros [= <- <-].
  - unfold processNextKeyAck.
    destruct (applyIncomingDHKey _ _) as [s1 [e1|]] eqn:Ha; apply incomingDH_ok in Ha; try done;
      intros [= <- <-]; [done|]. by destruct (Reverse info).
Qed.

Lemma apply_nsr_ok s keys initiator s' : apply_nsr_keys s keys initiator = Ok s' -> session_ok s'.
Proof.
  unfold apply_nsr_keys. destruct initiator; intros Hs; inv_binds; apply Ok_inj in Hs as <-; (split; cbn; [|lia]);
    unfold window_ok, recvWindowSize; cbn; split_and!; try lia; intros c k Hc; by rewrite lookup_empty in Hc.
Qed.

Lemma trim_ok s pn : session_ok s -> session_ok (set_recv s (trimRecvWindowByPN (recv s) pn)).
Proof.
  intros [Hw Hp]. rewrite trim_keeps_all; [done|]. destruct Hw as (_ & _ & _ & Hin).
  intros c k Hc. by apply (Hin c k).
Qed.

Lemma trim_pending x pn : pendingTags (trimRecvWindowByPN x pn) = pendingTags x.
Proof. done. Qed.

(** ** The manager *)

(** [p] points to a session. *)
Definition live (m : SessionManager) (p : positive) : Prop := is_Some (heap m !! p).

(** The session at [p] is waiting for a tag. *)
Definition waits (m : SessionManager) (p : positive) (tag : bytes) : Prop :=
  exists s, heap m !! p = Some s /\ tag ∈ pendingTags (recv s).

Record manager_ok (m : SessionManager) : Prop := {
  ok_fresh : forall p, live m p -> (p < nextPtr m)%positive;
  ok_sessions : map_Forall (fun _ p => live m p) (sessions m);
  ok_tags : map_Forall (fun tag p => waits m p tag) (tagIndex m);
  ok_nsr : map_Forall (fun _ p => live m p) (nsrTagIndex m);
  ok_counters : dom (tagCounterIndex m) = dom (tagIndex m);
  ok_count : (size (sessions m) <= MaxGarlicSessions)%nat;
  ok_each : map_Forall (fun _ s => session_ok s) (heap m);
}.

Lemma map_Forall_sub {V : Type} (P : bytes -> V -> Prop) (ix ix' : gmap bytes V) :
  ix' ⊆ ix -> map_Forall P ix -> map_Forall P ix'.
Proof. intros Hs HP k v Hk. eapply HP, lookup_weaken; done. Qed.

Lemma put_live m p s q : live m p -> live (put m p s) q <-> live m q.
Proof.
  intros Hp. unfold live, put, set_heap. cbn [heap]. destruct (decide (q = p)) as [->|Hne].
  - rewrite lookup_insert_eq. split; [done|by eauto].
  - by rewrite lookup_insert_ne.
Qed.

(** The session [s] is waiting for every tag that leads to it. *)
Definition covers (m : SessionManager) (p : positive) (s : Session) : Prop :=
  forall tag, tagIndex m !! tag = Some p -> tag ∈ pendingTags (recv s).

Lemma covers_sub m p s0 s :
  manager_ok m -> heap m !! p = Some s0 -> pendingTags (recv s0) ⊆ pendingTags (recv s) -> covers m p s.
Proof. intros Hm Hp Hsub tag Ht. destruct (ok_tags m Hm tag p Ht) as (s1 & Hs1 & Hin). apply Hsub. congruence. Qed.

Lemma put_ok m p s : manager_ok m -> live m p -> session_ok s -> covers m p s -> manager_ok (put m p s).
Proof.
  intros [] Hp Hs Hc. split; cbn [put set_heap nextPtr sessions tagIndex nsrTagIndex tagCounterIndex heap]; try done.
  - intros q Hq. by apply put_live in Hq; auto.
  - eapply map_Forall_impl; [done|]. intros ? q ?. by apply put_live.
  - intros tag q Hq. unfold waits. cbn. destruct (decide (q = p)) as [->|Hne].
    + exists s. rewrite lookup_insert_eq. auto.
    + rewrite lookup_insert_ne by done. by apply ok_tags0.
  - eapply map_Forall_impl; [done|]. intros ? q ?. by apply put_live.
  - by apply map_Forall_insert_2.
Qed.

(** A session that is written back with no tag less. *)
Lemma put_sub m p s0 s :
  manager_ok m -> heap m !! p = Some s0 -> session_ok s -> pendingTags (recv s0) ⊆ pendingTags (recv s) -> manager_ok (put m p s).
Proof. intros Hm Hp Hs Hsub. apply put_ok; [done|by exists s0|done|by eapply covers_sub]. Qed.

Lemma put_again m p s s' :
  manager_ok (put m p s) -> session_ok s' -> pendingTags (recv s) ⊆ pendingTags (recv s') -> manager_ok (put m p s').
Proof.
  intros Hm Hs Hsub. assert (Hp : heap (put m p s) !! p = Some s) by apply lookup_insert_eq.
  pose proof (put_sub _ _ _ _ Hm Hp Hs Hsub) as Hput. unfold put, set_heap in *. cbn in *. by rewrite insert_insert_eq in Hput.
Qed.

Lemma put_id m p s : heap m !! p = Some s -> put m p s = m.
Proof. intros Hp. unfold put, set_heap. rewrite insert_id by done. by destruct m. Qed.

Lemma update_ok m p f :
  manager_ok m -> (forall s, session_ok s -> session_ok (f s)) -> (forall s, pendingTags (recv (f s)) = pendingTags (recv s)) ->
  manager_ok (update m p f).
Proof.
  intros Hm Hf Hpt. unfold update. destruct (heap m !! p) as [s|] eqn:Hp; [|done].
  eapply put_sub; [done|exact Hp| |by rewrite Hpt]. apply Hf. by apply (ok_each m Hm p s).
Qed.

Lemma alloc_ok m s : manager_ok m -> session_ok s -> manager_ok (alloc m s).1 /\ live (alloc m s).1 (alloc m s).2.
Proof.
  intros [] Hs. cbn [alloc fst snd].
  assert (Hl : forall q, live m q -> is_Some (<[nextPtr m := s]> (heap m) !! q)).
  { intros q Hq. destruct (decide (q = nextPtr m)) as [->|]; [rewrite lookup_insert_eq; eauto|by rewrite lookup_insert_ne]. }
  split; [split; cbn; try done|unfold live; cbn; rewrite lookup_insert_eq; eauto].
  - unfold live. cbn. intros q [s' Hq]. apply lookup_insert_Some in Hq as [[<- _]|[_ Hq]]; [lia|].
    specialize (ok_fresh0 q (ex_intro _ s' Hq)). lia.
  - eapply map_Forall_impl; [done|]. intros. by apply Hl.
  - intros tag q Hq. destruct (ok_tags0 tag q Hq) as (s1 & Hs1 & Hin). exists s1. cbn. split; [|done].
    rewrite lookup_insert_ne; [done|]. intros <-. specialize (ok_fresh0 _ (ex_intro _ s1 Hs1)). lia.
  - eapply map_Forall_impl; [done|]. intros. by apply Hl.
  - by apply map_Forall_insert_2.
Qed.

Lemma register_ok m p tag c : manager_ok m -> waits m p tag -> manager_ok (register_tag m p tag c).
Proof.
  intros [] Hp. split; cbn; try done; [by apply map_Forall_insert_2|]. rewrite !dom_insert_L. congruence.
Qed.

(** A tag that is registered while the session is not written back yet. *)
Lemma register_again m p s s' tag c :
  manager_ok (put m p s) -> session_ok s -> session_ok s' -> pendingTags (recv s') = pendingTags (recv s) ++ [tag] ->
  manager_ok (put (register_tag m p tag c) p s').
Proof.
  intros Hm Hs Hs' Hpt. change (manager_ok (register_tag (put m p s') p tag c)). apply register_ok.
  - eapply put_again; [exact Hm|done|]. rewrite Hpt. set_solver.
  - exists s'. split; [apply lookup_insert_eq|]. rewrite Hpt. set_solver.
Qed.

Lemma delete_tags_dom {V W : Type} (tags : list bytes) (ix : gmap bytes V) (ix' : gmap bytes W) :
  dom ix = dom ix' ->
  dom (foldl (fun ix t => delete t ix) ix tags) = dom (foldl (fun ix t => delete t ix) ix' tags).
Proof.
  revert ix ix'. induction tags as [|t tags IH]; intros ix ix' Hd; simpl; [done|].
  apply IH. rewrite !dom_delete_L. congruence.
Qed.

Lemma deleted_tag {V : Type} (tags : list bytes) (ix : gmap bytes V) tag :
  tag ∈ tags -> foldl (fun ix t => delete t ix) ix tags !! tag = None.
Proof.
  revert ix. induction tags as [|t tags IH]; intros ix; [by intros ?%elem_of_nil|]. intros [->|Hin]%elem_of_cons; cbn [foldl]; [|by apply IH].
  apply eq_None_not_Some. intros [v Hv]. eapply lookup_weaken in Hv; [|apply delete_tags_subseteq]. by rewrite lookup_delete_eq in Hv.
Qed.

Lemma drop_tags_ok m tags : manager_ok m -> manager_ok (drop_tags m tags).
Proof.
  intros []. split; cbn; try done.
  - eapply map_Forall_sub; [apply delete_tags_subseteq|done].
  - by apply delete_tags_dom.
Qed.

Lemma set_nsr_ok m ix : manager_ok m -> map_Forall (fun _ p => live m p) ix -> manager_ok (set_nsr m ix).
Proof. intros [] ?. by split. Qed.

Lemma set_sessions_ok m ss :
  manager_ok m -> map_Forall (fun _ p => live m p) ss -> (size ss <= MaxGarlicSessions)%nat -> manager_ok (set_sessions m ss).
Proof. intros [] ? ?. by split. Qed.

Lemma remove_session_ok m hash s : manager_ok m -> manager_ok (remove_session m hash s).
Proof.
  intros Hm. unfold remove_session. apply (drop_tags_ok m (pendingTags (recv s))) in Hm.
  set (m1 := drop_tags m _) in *. clearbody m1.
  assert (H1' : manager_ok (drop_nsr m1 (nsrTag s))).
  { unfold drop_nsr. destruct (nsrTag s); [|done]. apply set_nsr_ok; [done|].
    eapply map_Forall_sub; [apply delete_subseteq|apply Hm]. }
  set (m2 := drop_nsr m1 _) in *. clearbody m2. apply set_sessions_ok; [done| |].
  - eapply map_Forall_sub; [apply delete_subseteq|apply H1'].
  - etransitivity; [apply map_subseteq_size, delete_subseteq|apply H1'].
Qed.

Lemma evict_hash_ok m hash : manager_ok m -> manager_ok (evict_hash m hash).
Proof.
  intros Hm. unfold evict_hash. destruct (sessions m !! hash); [|done].
  destruct (heap m !! _); [by apply remove_session_ok|done].
Qed.

Lemma removeByPointer_ok m p : manager_ok m -> manager_ok (removeSessionByPointer m p).
Proof.
  intros Hm. unfold removeSessionByPointer. destruct (find_pointer _ _); [|done].
  destruct (heap m !! p); [by apply remove_session_ok|done].
Qed.

Lemma make_room_ok m k : manager_ok m -> manager_ok (make_room m k).
Proof.
  intros Hm. unfold make_room.
  set (m1 := if decide _ then evictLRUSessionLocked m else m). assert (Hm1 : manager_ok m1).
  { subst m1. case_decide; [|done]. unfold evictLRUSessionLocked.
    destruct (lru_scan _ _ _) as [[? ?]|]; [by apply evict_hash_ok|done]. }
  clearbody m1. unfold enforcePerPeerQuotaLocked. destruct (quota_scan _ _ _ _ _ _) as [[count oldest] est].
  destruct (_ <? _); [done|]. destruct oldest as [[? ?]|]; [by apply evict_hash_ok|done].
Qed.

Lemma cleanup_ok m now : manager_ok m -> manager_ok (CleanupExpiredSessions m now).
Proof.
  unfold CleanupExpiredSessions. generalize (go_range (sessions m)) as l.
  intros l. revert m. induction l as [|[h p] l IH]; intros m Hm; [done|]. cbn [foldl]. apply IH.
  unfold cleanup_entry. cbn. destruct (heap m !! p); [|done]. destruct (expired _ _ _); [by apply remove_session_ok|done].
Qed.

(** *** Tags *)

Lemma tag_window_loop_ok fuel m p s tr m' e :
  manager_ok (put m p s) -> session_ok s ->
  tag_window_loop fuel m p s tr = Some (m', e) -> manager_ok m' /\ live m' p.
Proof.
  assert (Hlive : forall m s, live (put m p s) p) by (intros; eexists; apply lookup_insert_eq).
  revert m s tr. induction fuel as [|fuel IH]; intros m s tr Hm Hs; cbn [tag_window_loop]; case_decide as Hfull;
    try (intros [= <- <-]; by split); try done.
  destruct (generate_next_tag tr) as [tr' [tag|]].
  - destruct (tag_collides m p tag); intros Hl; eapply IH in Hl; try done.
    + by eapply put_again.
    + eapply register_again; [done|done| |done]. destruct Hs as [Hw Hlen]. split; cbn; [done|]. rewrite length_app. cbn. lia.
    + destruct Hs as [Hw Hlen]. split; cbn; [done|]. rewrite length_app. cbn. lia.
  - intros [= <- <-]. split; [|done]. by eapply put_again.
Qed.

Lemma generateTagWindow_ok m p : manager_ok m -> live m p -> manager_ok (generateTagWindow m p).1 /\ live (generateTagWindow m p).1 p.
Proof.
  intros Hm Hp. unfold generateTagWindow. destruct (heap m !! p) as [s|] eqn:Hs; [|done].
  destruct (recvTag (recv s)) as [tr|]; [|done].
  destruct (tag_window_loop _ _ _ _ _) as [[m' e]|] eqn:Hl; [|done].
  eapply tag_window_loop_ok; [by rewrite put_id| |exact Hl]. by apply (ok_each m Hm p).
Qed.

Lemma generate_tags_ok n x tr acc x' r :
  generate_tags n x tr acc = (x', r) -> (window_ok x -> window_ok x') /\ pendingTags x' = pendingTags x.
Proof.
  revert x tr acc. induction n as [|n IH]; intros x tr acc; cbn [generate_tags]; [by intros [= <- <-]|].
  destruct (generate_next_tag tr) as [tr' [tag|]]; [|by intros [= <- <-]].
  intros Hg. by apply IH in Hg.
Qed.

Lemma install_ok tags m p s m' s' :
  manager_ok (put m p s) -> session_ok s ->
  installGeneratedTagsLocked m p s tags = (m', s') -> manager_ok (put m' p s') /\ session_ok s'.
Proof.
  revert m s. induction tags as [|[tag c] tags IH]; intros m s Hm Hs; cbn [installGeneratedTagsLocked];
    [by intros [= <- <-]|]. case_decide; [by intros [= <- <-]|].
  destruct (tag_collides m p tag); [by apply IH|].
  assert (Hs' : session_ok (set_recv s (set_pending (recv s) (pendingTags (recv s) ++ [tag])))).
  { destruct Hs as [Hw Hlen]. split; cbn; [done|]. rewrite length_app. cbn. lia. }
  apply IH; [by eapply register_again|done].
Qed.

Lemma replenish_ok m p : manager_ok m -> manager_ok (replenishTagWindowOutsideLock m p).
Proof.
  unfold replenishTagWindowOutsideLock. generalize maxReplenishAttempts as n. intros n.
  revert m. induction n as [|n IH]; intros m Hm; cbn [replenish_loop]; [done|].
  destruct (heap m !! p) as [s|] eqn:Hp; [|done]. case_decide; [done|].
  assert (Hl : live m p) by by exists s. pose proof (ok_each m Hm p s Hp) as Hs.
  unfold generateTagsOutsideLock. destruct (recvTag (recv s)) as [tr|].
  2: { eapply put_sub; [done|exact Hp| |done]. by destruct Hs. }
  destruct (generate_tags _ _ _ _) as [x r] eqn:Hg. apply generate_tags_ok in Hg as [Hw Hpt].
  assert (Hs' : session_ok (set_recv s x)) by (destruct Hs; split; cbn; [auto|by rewrite Hpt]).
  assert (Hput : manager_ok (put m p (set_recv s x))) by (eapply put_sub; [done|exact Hp|done|cbn; by rewrite Hpt]).
  destruct r as [tags|e]; [|done].
  destruct (installGeneratedTagsLocked _ _ _ _) as [m1 s1] eqn:Hi. apply install_ok in Hi as [? ?]; [|done..].
  case_decide; [done|]. by apply IH.
Qed.

Lemma lookup_tag_ok m tag m' r :
  manager_ok m -> lookupSessionByTag m tag = (m', r) ->
  manager_ok m' /\ tagIndex m' !! tag = None.
Proof.
  intros Hm. unfold lookupSessionByTag. destruct (tagIndex m !! tag) as [p|] eqn:Ht; intros [= <- <-]; [|done].
  split; [|cbn; apply lookup_delete_eq]. destruct Hm. split; cbn; try done.
  - by apply map_Forall_delete.
  - rewrite !dom_delete_L. congruence.
Qed.

Lemma remove_pending_le tag l : (length (removeTagFromPendingList tag l) <= length l)%nat.
Proof.
  destruct (decide (tag ∈ l)) as [Hin|Hni]; [apply remove_pending_length in Hin; lia|].
  induction l as [|t l IH]; simpl; [done|]. apply not_elem_of_cons in Hni as [Ht Hni].
  rewrite decide_False by done. simpl. specialize (IH Hni). lia.
Qed.

Lemma validate_ok m p tag now m' v needs :
  manager_ok m -> tagIndex m !! tag = None -> validateAndConsumeTagFromSession m p tag now = (m', v, needs) -> manager_ok m'.
Proof.
  intros Hm Ht. unfold validateAndConsumeTagFromSession. destruct (heap m !! p) as [s|] eqn:Hp; [|by intros [= <- <- <-]].
  destruct (expired m now s); intros [= <- <- <-]; [done|].
  pose proof (ok_each m Hm p s Hp) as [Hw Hlen]. apply put_ok; [done|by exists s| |].
  - split; cbn; [done|]. pose proof (remove_pending_le tag (pendingTags (recv s))). lia.
  - intros t Hti. destruct (ok_tags m Hm t p Hti) as (s0 & Hs0 & Hin). apply remove_pending_elem; [congruence|]. intros ->. congruence.
Qed.

Lemma FindSessionByTag_ok m tag now : manager_ok m -> manager_ok (FindSessionByTag m tag now).1.
Proof.
  intros Hm. unfold FindSessionByTag. destruct (lookupSessionByTag m tag) as [m1 [[p c]|]] eqn:Hl;
    apply lookup_tag_ok in Hl as [Hm1 Ht1]; try done.
  destruct (validateAndConsumeTagFromSession m1 p tag now) as [[m2 [|]] needs] eqn:Hv; apply validate_ok in Hv; try done.
  cbn. destruct needs; [by apply replenish_ok|done].
Qed.

(** *** New sessions *)

(** The pass over the table finds an entry of it. *)
Definition used_at (h : gmap positive Session) (p : positive) : Z :=
  match h !! p with Some s => LastUsed s | None => 0 end.

Lemma lru_scan_time h l best hash t :
  lru_scan h l best = Some (hash, t) -> (exists p, (hash, p) ∈ l /\ t = used_at h p) \/ best = Some (hash, t).
Proof.
  revert best. induction l as [|[hash' p] l IH]; intros best; cbn [lru_scan]; [auto|].
  intros Hs. apply IH in Hs as [(q & Hq & ->)|Hb]; [left; exists q; split; [by right|done]|]. fold (used_at h p) in Hb.
  destruct best as [[oh ot]|]; [destruct (_ || _); [|by right]|];
    injection Hb as <- <-; left; exists p; (split; [by left|done]).
Qed.

Lemma lru_scan_some h l best : l <> [] \/ is_Some best -> is_Some (lru_scan h l best).
Proof.
  revert best. induction l as [|[hash p] l IH]; intros best; cbn [lru_scan]; [by intros [?|?]|].
  intros _. apply IH. right. destruct best as [[? ?]|]; [destruct (_ || _)|]; eauto.
Qed.

Lemma remove_session_size m hash s :
  is_Some (sessions m !! hash) -> S (size (sessions (remove_session m hash s))) = size (sessions m).
Proof.
  intros [p Hp]. assert (Hs : sessions (remove_session m hash s) = delete hash (sessions m))
    by (unfold remove_session, drop_nsr; by destruct (nsrTag s)).
  rewrite Hs, map_size_delete_Some by eauto. assert (size (sessions m) <> 0%nat); [|lia].
  apply map_size_ne_0_lookup. eauto.
Qed.

(** A full table loses a session. *)
Lemma evictLRU_size m :
  manager_ok m -> sessions m <> ∅ -> S (size (sessions (evictLRUSessionLocked m))) = size (sessions m).
Proof.
  intros Hm Hne. unfold evictLRUSessionLocked.
  destruct (lru_scan_some (heap m) (go_range (sessions m)) None) as [[hash t] Hr].
  { left. intros Hnil. apply Hne, map_size_empty_iff.
    rewrite <- length_map_to_list, <- go_range_perm, Hnil. done. }
  rewrite Hr. apply lru_scan_time in Hr as [(p & Hin & _)|]; [|done].
  rewrite go_range_perm in Hin. apply elem_of_map_to_list in Hin. unfold evict_hash. rewrite Hin.
  destruct (ok_sessions m Hm hash p Hin) as [s Hs]. rewrite Hs. apply remove_session_size. eauto.
Qed.

Lemma MaxGarlicSessions_pos : (0 < MaxGarlicSessions)%nat.
Proof. apply Nat.ltb_lt. vm_compute. reflexivity. Qed.

Lemma make_room_count m k : manager_ok m -> (size (sessions (make_room m k)) < MaxGarlicSessions)%nat.
Proof.
  intros Hm. unfold make_room. pose proof (ok_count m Hm) as Hc.
  set (m1 := if decide _ then _ else _). assert (Hm1 : (size (sessions m1) < MaxGarlicSessions)%nat).
  { subst m1. case_decide as Hd; [|lia]. assert (Hne : sessions m <> ∅).
    { intros He. rewrite He, map_size_empty in Hd. pose proof MaxGarlicSessions_pos. lia. }
    pose proof (evictLRU_size m Hm Hne). lia. }
  eapply Nat.le_lt_trans; [|exact Hm1]. apply map_subseteq_size, enforceQuota_shrinks.
Qed.

Lemma insert_session_ok m hash p :
  manager_ok m -> live m p -> (size (sessions m) < MaxGarlicSessions)%nat ->
  manager_ok (set_sessions m (<[hash := p]> (sessions m))).
Proof.
  intros Hm Hp Hs. apply set_sessions_ok; [done|by apply map_Forall_insert_2; [|apply Hm]|].
  pose proof (size_insert_le hash p (sessions m)). lia.
Qed.

(** A session that has been created is stored, with room made for it. *)
Lemma room_for_session m s k :
  manager_ok m -> session_ok s ->
  let '(m1, p) := alloc m s in
  let m2 := make_room m1 k in
  manager_ok m2 /\ heap m2 !! p = Some s /\ (size (sessions m2) < MaxGarlicSessions)%nat.
Proof.
  intros Hm Hs. destruct (alloc_ok m s Hm Hs) as [H1' _].
  assert (Hp : heap (alloc m s).1 !! (alloc m s).2 = Some s) by apply lookup_insert_eq. destruct (alloc m s) as [m1 p]. cbn in *.
  split_and!; [by apply make_room_ok| |by apply make_room_count]. destruct (make_room_shrinks m1 k) as (_ & _ & _ & -> & _). done.
Qed.

Lemma handshake_session_ok s hs b : session_ok s -> session_ok (set_initiator (set_handshake s hs) b).
Proof. done. Qed.

Lemma registerNSR_ok m p s hs m' e :
  manager_ok m -> heap m !! p = Some s -> registerNSRTagLocked m p s hs = (m', e) ->
  manager_ok m' /\ live m' p /\ sessions m' = sessions m.
Proof.
  intros Hm Hs. assert (Hp : live m p) by by exists s. unfold registerNSRTagLocked. destruct (nsr_tag _) as [tag|]; intros [= <- <-]; [|done].
  assert (Hm' : manager_ok (put m p (set_nsrTag s (Some tag)))).
  { eapply put_sub; [done|exact Hs|exact (ok_each m Hm p s Hs)|done]. }
  split_and!; [|by apply put_live|done]. apply set_nsr_ok; [done|]. apply map_Forall_insert_2; [by apply put_live|].
  apply (ok_nsr _ Hm').
Qed.

Lemma storeNew_ok m hash k keys hs b now : manager_ok m -> manager_ok (storeNewSessionState m hash k keys hs b now).1.
Proof.
  intros Hm. unfold storeNewSessionState. destruct (createSession _ _ _ _ _) as [s|e] eqn:Hc; [|done].
  apply createSession_ok in Hc. set (s1 := set_initiator _ _). assert (Hs1 : session_ok s1) by done.
  pose proof (room_for_session m s1 k Hm Hs1) as Hroom. destruct (alloc m s1) as [m1 p].
  destruct Hroom as (Hm2 & Hs2 & Hsz). clearbody s1. set (m2 := make_room m1 k) in *. clearbody m2.
  assert (Hp : live m2 p) by by exists s1. destruct b.
  - destruct (registerNSRTagLocked m2 p s1 hs) as [m3 [e|]] eqn:Hr; apply registerNSR_ok in Hr as (Hm3 & Hp3 & Hs3); try done.
    cbn. apply generateTagWindow_ok; [|done]. apply insert_session_ok; [done|done|by rewrite Hs3].
  - cbn. apply generateTagWindow_ok; [|done]. by apply insert_session_ok.
Qed.

Lemma inbound_ok m k keys hs now : manager_ok m -> manager_ok (initializeInboundRatchetState m k keys hs now).1.
Proof.
  intros Hm. unfold initializeInboundRatchetState. destruct (createSession _ _ _ _ _) as [s|e] eqn:Hc; [|done].
  apply createSession_ok in Hc. set (s1 := set_initiator _ _). assert (Hs1 : session_ok s1) by done.
  pose proof (room_for_session m s1 k Hm Hs1) as Hroom. destruct (alloc m s1) as [m1 p].
  destruct Hroom as (Hm2 & Hs2 & Hsz). assert (Hp : live (make_room m1 k) p) by by exists s1. apply generateTagWindow_ok; [|done]. by apply insert_session_ok.
Qed.

(** *** Messages *)

Lemma EncryptGarlic_ok m hash k pt rnd now : manager_ok m -> manager_ok (EncryptGarlicMessage m hash k pt rnd now).1.
Proof.
  intros Hm. unfold EncryptGarlicMessage. destruct pt as [|b pt]; [done|].
  destruct (sessions m !! hash) as [p|].
  - destruct (heap m !! p) as [s|] eqn:Hp; [|done].
    pose proof (encryptExisting_recv s (b :: pt) rnd now) as Hr.
    destruct (encryptExistingSession s (b :: pt) rnd now) as [s' r]. cbn in *.
    eapply put_sub; [done|exact Hp| |by rewrite Hr]. unfold session_ok. rewrite Hr. by apply (ok_each m Hm p).
  - unfold encryptNewSession. destruct (ValidateNewSessionPayload _); [done|].
    destruct (writeNoiseIKMessage1 _ _ _ _ _) as [[[msg keys] hs]|]; [|done].
    pose proof (storeNew_ok m hash k keys hs true now Hm) as Hs.
    by destruct (storeNewSessionState m hash k keys hs true now) as [m' [e|]].
Qed.

Lemma applyNSR_ok m p s keys b :
  manager_ok m -> heap m !! p = Some s -> manager_ok (applyNSRKeysToSessionWhileLocked m p s keys b).1.
Proof.
  intros Hm Hp. assert (Hl : live m p) by by exists s. unfold applyNSRKeysToSessionWhileLocked. destruct (apply_nsr_keys s keys b) as [s'|] eqn:Ha; [|done].
  apply apply_nsr_ok in Ha. apply generateTagWindow_ok; [|by apply put_live].
  apply put_ok; [by apply drop_tags_ok|done|done|]. intros tag Ht.
  assert (Hin : tag ∈ pendingTags (recv s)).
  { destruct (ok_tags m Hm tag p) as (s0 & Hs0 & Hin); [|congruence]. eapply lookup_weaken; [exact Ht|apply delete_tags_subseteq]. }
  cbn in Ht. by rewrite deleted_tag in Ht.
Qed.

Lemma EncryptReply_ok m hash payload rnd now : manager_ok m -> manager_ok (EncryptNewSessionReply m hash payload rnd now).1.
Proof.
  intros Hm. unfold EncryptNewSessionReply. destruct (sessions m !! hash) as [p|]; [|done].
  destruct (heap m !! p) as [s|] eqn:Hp; [|done]. destruct (handshakeState s) as [hs|]; [|done].
  destruct (isInitiator s); [done|]. assert (Hl : live m p) by by exists s.
  pose proof (put_sub m p s (set_handshake s None) Hm Hp (ok_each m Hm p s Hp) ltac:(done)) as Hput.
  destruct (writeNoiseIKMessage2 _ _ _) as [[[? ?] keys]|]; [|done].
  apply (applyNSR_ok _ p (set_handshake s None) keys false) in Hput; [|apply lookup_insert_eq].
  destruct (applyNSRKeysToSessionWhileLocked _ _ _ _ _) as [m1 [e|]]; [done|]. by apply update_ok.
Qed.

Lemma process_blocks_ok blocks m p : manager_ok m -> manager_ok (process_blocks m p blocks).
Proof.
  revert m. induction blocks as [|b blocks IH]; intros m Hm; cbn [process_blocks]; [done|].
  case_decide; [by apply removeByPointer_ok|]. case_decide.
  { destruct (RatchetPayload.MessageNumber b) as [pn|]; [|by apply IH]. apply IH, update_ok; [done| |done].
    intros s. apply trim_ok. }
  case_decide; [by apply IH, update_ok|]. case_decide; [|by apply IH]. apply IH, update_ok; [done| |];
    intros s; unfold processAck; by destruct (Acks b).
Qed.

Lemma tryExisting_ok m tag msg now : manager_ok m -> manager_ok (tryDecryptExisting m tag msg now).1.
Proof.
  intros Hm. unfold tryDecryptExisting. destruct (lookupSessionByTag m tag) as [m1 [[p c]|]] eqn:Hl;
    apply lookup_tag_ok in Hl as [Hm1 Ht1]; try done.
  destruct (validateAndConsumeTagFromSession m1 p tag now) as [[m2 [|]] needs] eqn:Hv; apply validate_ok in Hv; try done.
  destruct (heap m2 !! p) as [s|] eqn:Hp; [|done].
  destruct (decryptExistingSession s _ tag c now) as [s' r] eqn:Hd.
  apply decryptExisting_ok in Hd as [Hs' Hpt]; [|by apply (ok_each m2 Hv p)]. cbn [fst].
  assert (Hm3 : manager_ok (put m2 p s')) by (eapply put_sub; [done|exact Hp|done|by rewrite Hpt]).
  set (m4 := if needs then _ else _). assert (Hm4 : manager_ok m4) by (subst m4; destruct needs; [by apply replenish_ok|done]).
  clearbody m4. destruct r as [[pt ?]|]; [|done]. unfold processDecryptedESBlocks.
  destruct (ParsePayload pt); [by apply process_blocks_ok|done].
Qed.

Lemma tryNSR_ok m tag msg now : manager_ok m -> manager_ok (tryDecryptNSR m tag msg now).1.
Proof.
  intros Hm. unfold tryDecryptNSR. destruct (nsrTagIndex m !! tag) as [p|]; [|done].
  set (m1 := update _ _ _). assert (Hm1 : manager_ok m1).
  { apply update_ok; [apply set_nsr_ok; [done|apply map_Forall_delete, Hm]| |]; intros s; by case_decide. }
  clearbody m1. unfold decryptIncomingNSR. destruct (heap m1 !! p) as [s|] eqn:Hp; [|done].
  destruct (handshakeState s) as [hs|]; [|done]. assert (Hl : live m1 p) by by exists s.
  pose proof (put_sub m1 p s (set_handshake s None) Hm1 Hp (ok_each m1 Hm1 p s Hp) ltac:(done)) as Hput.
  destruct (readNoiseIKMessage2 _ _ _) as [[pt keys]|]; [|done].
  apply (applyNSR_ok _ p (set_handshake s None) keys true) in Hput; [|apply lookup_insert_eq].
  destruct (applyNSRKeysToSessionWhileLocked _ _ _ _ _) as [m2 [e|]]; [done|]. by apply update_ok.
Qed.

Lemma set_replay_ok m c : manager_ok m -> manager_ok (set_replay m c).
Proof. intros []. by split. Qed.

Lemma decryptNew_ok m msg now : manager_ok m -> manager_ok (decryptNewSession m msg now).1.
Proof.
  intros Hm. unfold decryptNewSession. destruct (readNoiseIKMessage1 _ _ _) as [[[[[pt k] keys] hs] [|]]|]; try done.
  destruct (validateNSDateTimeFreshness m pt now); [done|].
  assert (Hm1 : manager_ok (if decide (32 <= length msg)%nat
    then let '(c, seen) := CheckAndAdd (nsReplayCache m) (take 32 msg) now in (set_replay m c, seen) else (m, false)).1).
  { case_decide; [|done]. destruct (CheckAndAdd _ _ _). by apply set_replay_ok. }
  destruct (if decide _ then _ else _) as [m1 [|]]; [done|]. cbn in Hm1.
  pose proof (inbound_ok m1 k keys hs now Hm1) as Hi. by destruct (initializeInboundRatchetState m1 k keys hs now) as [m2 [e|]].
Qed.

Lemma DecryptGarlic_ok m msg now : manager_ok m -> manager_ok (DecryptGarlicMessage m msg now).1.
Proof.
  intros Hm. unfold DecryptGarlicMessage. case_decide; [done|].
  apply (tryExisting_ok m (take 8 msg) msg now) in Hm. destruct (tryDecryptExisting _ _ _ _) as [m1 [r|]]; [done|].
  apply (tryNSR_ok m1 (take 8 msg) msg now) in Hm. destruct (tryDecryptNSR _ _ _ _) as [m2 [r|]]; [done|]. cbn in Hm.
  unfold tryDecryptOneTimeKey. destruct (oneTimeKeys m2 !! take 8 msg).
  { cbn. destruct Hm. by split. }
  apply (decryptNew_ok m2 msg now) in Hm. by destruct (decryptNewSession m2 msg now).
Qed.

(** ** Runs of the API *)

Inductive Call :=
| CallRegister (tag key : bytes)                             (* RegisterOneTimeKey *)
| CallEncrypt (hash pubKey plaintext rnd : bytes) (now : Z)  (* EncryptGarlicMessage *)
| CallReply (hash payload rnd : bytes) (now : Z)             (* EncryptNewSessionReply *)
| CallDecrypt (msg : bytes) (now : Z)                        (* DecryptGarlicMessage *)
| CallFind (tag : bytes) (now : Z)                           (* FindSessionByTag *)
| CallNextKey (tag : bytes) (info : NextKeyInfo) (rnd : bytes)  (* ProcessReceivedNextKey *)
| CallIncomingDH (tag pubKey : bytes)                        (* ProcessIncomingDHRatchet *)
| CallCleanup (now : Z)                                      (* CleanupExpiredSessions *)
| CallTick (now : Z)                                         (* a tick of the replay cache *)
| CallClose.                                                 (* Close *)

Definition call (m : SessionManager) (c : Call) : SessionManager :=
  match c with
  | CallRegister tag key => RegisterOneTimeKey m tag key
  | CallEncrypt hash pubKey plaintext rnd now => (EncryptGarlicMessage m hash pubKey plaintext rnd now).1
  | CallReply hash payload rnd now => (EncryptNewSessionReply m hash payload rnd now).1
  | CallDecrypt msg now => (DecryptGarlicMessage m msg now).1
  | CallFind tag now => (FindSessionByTag m tag now).1
  | CallNextKey tag info rnd => (ProcessReceivedNextKey m tag info rnd).1
  | CallIncomingDH tag pubKey => (ProcessIncomingDHRatchet m tag pubKey).1
  | CallCleanup now => CleanupExpiredSessions m now
  | CallTick now => if done_ (nsReplayCache m) then m else set_replay m (evictExpired (nsReplayCache m) now)
  | CallClose => SessionManager_Close m
  end.

Definition calls (m : SessionManager) (cs : list Call) : SessionManager := foldl call m cs.

Lemma call_ok m c : manager_ok m -> manager_ok (call m c).
Proof.
  intros Hm. destruct c; cbn [call].
  - destruct Hm. by split.
  - by apply EncryptGarlic_ok.
  - by apply EncryptReply_ok.
  - by apply DecryptGarlic_ok.
  - by apply FindSessionByTag_ok.
  - unfold ProcessReceivedNextKey. destruct (tagIndex m !! tag) as [p|]; [|done].
    destruct (heap m !! p) as [s|] eqn:Hp; [|done].
    destruct (if KeyPresent info then _ else _) as [s' e] eqn:Hn. apply nextKey_ok in Hn as [Hs' Hpt]; [|by apply (ok_each m Hm p)].
    eapply put_sub; [done|exact Hp|done|by rewrite Hpt].
  - unfold ProcessIncomingDHRatchet. destruct (tagIndex m !! tag) as [p|]; [|done].
    destruct (heap m !! p) as [s|] eqn:Hp; [|done].
    destruct (applyIncomingDHKey s pubKey) as [s' e] eqn:Hn. apply incomingDH_ok in Hn as [Hs' Hpt]; [|by apply (ok_each m Hm p)].
    eapply put_sub; [done|exact Hp|done|by rewrite Hpt].
  - by apply cleanup_ok.
  - destruct (done_ _); [done|by apply set_replay_ok].
  - destruct Hm. split; [done| | | | | |done]; [apply map_Forall_empty..|done|]. cbn. rewrite map_size_empty. apply Nat.le_0_l.
Qed.

Lemma new_manager_ok priv past future : manager_ok (NewSessionManager priv past future).
Proof.
  split; [|apply map_Forall_empty..|done| |apply map_Forall_empty].
  - intros p [s Hs]. cbn in Hs. by rewrite lookup_empty in Hs.
  - cbn. rewrite map_size_empty. apply Nat.le_0_l.
Qed.

Lemma calls_ok m cs : manager_ok m -> manager_ok (calls m cs).
Proof. revert m. induction cs as [|c cs IH]; intros m Hm; [done|]. by apply IH, call_ok. Qed.

Lemma cleanup_entry_shrinks now m e : shrinks m (cleanup_entry now m e).
Proof.
  unfold cleanup_entry. destruct (heap m !! e.2) as [s|]; [|by repeat split].
  destruct (expired m now s); [apply remove_session_shrinks|by repeat split].
Qed.

(** A session that is removed has no tag any more. *)
Lemma removed_tags m hash p s tag :
  manager_ok m -> heap m !! p = Some s -> tagIndex (remove_session m hash s) !! tag <> Some p.
Proof.
  intros Hm Hp Ht. assert (Htag : foldl (fun ix t => delete t ix) (tagIndex m) (pendingTags (recv s)) !! tag = Some p)
    by (revert Ht; unfold remove_session, drop_nsr; by destruct (nsrTag s)).
  destruct (ok_tags m Hm tag p) as (s0 & Hs0 & Hin); [eapply lookup_weaken; [exact Htag|apply delete_tags_subseteq]|].
  rewrite deleted_tag in Htag; [done|congruence].
Qed.

Lemma cleanup_removes now l : forall m hash p s,
  manager_ok m -> heap m !! p = Some s -> expired m now s = true ->
  ((hash, p) ∈ l \/ sessions m !! hash = None /\ forall tag, tagIndex m !! tag <> Some p) ->
  let m' := foldl (cleanup_entry now) m l in
  sessions m' !! hash = None /\ forall tag, tagIndex m' !! tag <> Some p.
Proof.
  induction l as [|e l IH]; intros m hash p s Hm Hp Hx Hin; cbn [foldl]; [by destruct Hin as [?%elem_of_nil|]|].
  pose proof (cleanup_entry_shrinks now m e) as (Hti & _ & Hss & Hh & _ & _ & _ & _ & Hto & _).
  assert (Hm' : manager_ok (cleanup_entry now m e)).
  { unfold cleanup_entry. destruct (heap m !! e.2) as [s0|]; [|done]. destruct (expired m now s0); [by apply remove_session_ok|done]. }
  apply (IH _ _ _ s Hm'); [by rewrite Hh|unfold expired in *; by rewrite Hto|].
  destruct Hin as [[<-|Hin]%elem_of_cons|[Hn Ht]]; [right|by left|right].
  - unfold cleanup_entry. cbn [fst snd]. rewrite Hp, Hx. split; [|by intros; apply removed_tags].
    unfold remove_session, drop_nsr. destruct (nsrTag s); apply lookup_delete_eq.
  - split; [by eapply lookup_weaken_None|]. intros tag Htag. apply (Ht tag). by eapply lookup_weaken.
Qed.

(** C35: the tag indices. After any sequence of calls, the index of the tags and the
    index of their counters have the same tags, and a tag leads to a session that is
    waiting for it. So a session whose tags are taken out of the indices leaves none
    behind: after a clean-up no tag leads to a session of the table that had expired. *)
Theorem tag_indices_exact (priv : bytes) (past future : Z) (cs : list Call) :
  let m := calls (NewSessionManager priv past future) cs in
  (forall tag, is_Some (tagIndex m !! tag) <-> is_Some (tagCounterIndex m !! tag))
  /\ (forall tag p, tagIndex m !! tag = Some p -> exists s, heap m !! p = Some s /\ tag ∈ pendingTags (recv s))
  /\ (forall now hash p s, sessions m !! hash = Some p -> heap m !! p = Some s -> expired m now s = true ->
       sessions (CleanupExpiredSessions m now) !! hash = None
       /\ forall tag, tagIndex (CleanupExpiredSessions m now) !! tag <> Some p).
Proof.
  cbv zeta. pose proof (calls_ok _ cs (new_manager_ok priv past future)) as Hm.
  set (m := calls _ _) in *. clearbody m. split_and!.
  - intros tag. rewrite <- !elem_of_dom. by rewrite (ok_counters m Hm).
  - apply (ok_tags m Hm).
  - intros now hash p s Hh Hp Hx. apply (cleanup_removes _ _ _ _ _ s); [done|done|done|]. left. by apply go_range_elem.
Qed.

(** C36: bounds of the manager. After any sequence of calls the table holds at most
    5000 sessions, and every session that was ever created waits for at most 24
    tags and caches at most 128 message keys. *)
Theorem manager_bounded (priv : bytes) (past future : Z) (cs : list Call) :
  let m := calls (NewSessionManager priv past future) cs in
  GetSessionCount m <= 5000
  /\ forall p s, heap m !! p = Some s ->
       (length (pendingTags (recv s)) <= 24)%nat /\ Z.of_nat (size (recvKeyCache (recv s))) <= 128.
Proof.
  cbv zeta. pose proof (calls_ok _ cs (new_manager_ok priv past future)) as Hm.
  set (m := calls _ _) in *. clearbody m. split.
  - unfold GetSessionCount. change 5000 with (Z.of_nat MaxGarlicSessions). apply inj_le, (ok_count m Hm).
  - intros p s Hs. destruct (ok_each m Hm p s Hs) as [Hw Hp]. split; [done|]. by apply window_cache_size.
Qed.

(** ** Eviction *)

Lemma bytesLess_total a b : bytesLess a b = false -> a = b \/ bytesLess b a = true.
Proof.
  revert b. induction a as [|x a IH]; intros [|y b]; simpl; auto.
  destruct (Z.ltb_spec (b2z x) (b2z y)); [discriminate|].
  destruct (Z.ltb_spec (b2z y) (b2z x)); [auto|]. assert (x = y) as -> by (apply b2z_inj; lia).
  intros Hl. destruct (IH b Hl) as [->|]; auto.
Qed.

Lemma bytesLess_trans a b c : bytesLess a b = true -> bytesLess b c = true -> bytesLess a c = true.
Proof.
  revert b c. induction a as [|x a IH]; intros [|y b] [|z c]; simpl; auto; try discriminate.
  destruct (Z.ltb_spec (b2z x) (b2z y)), (Z.ltb_spec (b2z y) (b2z x)), (Z.ltb_spec (b2z y) (b2z z)),
    (Z.ltb_spec (b2z z) (b2z y)), (Z.ltb_spec (b2z x) (b2z z)), (Z.ltb_spec (b2z z) (b2z x)); try discriminate; try lia; auto.
  apply IH.
Qed.

(** The order of eviction: by time, then by hash. *)
Definition no_newer (a b : bytes * Z) : Prop := a.2 < b.2 \/ a.2 = b.2 /\ (a.1 = b.1 \/ bytesLess a.1 b.1 = true).

#[local] Instance no_newer_trans : Transitive no_newer.
Proof.
  intros [h1 t1] [h2 t2] [h3 t3] [?|[? Ha]] [?|[? Hb]]; unfold no_newer; cbn in *; try (left; lia).
  right. split; [lia|]. destruct Ha as [->|Ha], Hb as [->|Hb]; auto. right. by eapply bytesLess_trans.
Qed.

Lemma lru_scan_least h l best r :
  lru_scan h l best = Some r ->
  (forall b, best = Some b -> no_newer r b) /\ (forall hash p, (hash, p) ∈ l -> no_newer r (hash, used_at h p)).
Proof.
  revert best. induction l as [|[hash p] l IH]; intros best; cbn [lru_scan].
  { intros ->. split; [|by intros ? ? ?%elem_of_nil]. intros b [= <-]. right. auto. }
  intros Hs. apply IH in Hs as [Hb Hl]. fold (used_at h p) in Hb.
  enough (Hr : no_newer r (hash, used_at h p) /\ forall b, best = Some b -> no_newer r b).
  { split; [exact (proj2 Hr)|]. intros hash' p' [[= -> ->]|Hin]%elem_of_cons; [exact (proj1 Hr)|by apply Hl]. }
  destruct best as [[oh ot]|]; [|split; [by apply Hb|done]].
  destruct (_ || _) eqn:Hc in Hb; specialize (Hb _ eq_refl).
  - split; [done|]. intros b [= <-]. etransitivity; [exact Hb|].
    apply orb_true_iff in Hc as [?%Z.ltb_lt|[?%Z.eqb_eq ?]%andb_true_iff]; [by left|right; auto].
  - split; [|by intros b [= <-]]. etransitivity; [exact Hb|].
    apply orb_false_iff in Hc as [?%Z.ltb_ge Hc]. unfold no_newer. cbn.
    destruct (Z.eqb_spec (used_at h p) ot) as [->|]; [|left; lia].
    right. split; [done|]. destruct (bytesLess_total hash oh Hc); auto.
Qed.

(** eviction. When the table is full, the session that leaves it is the one used
    least recently, and among several the one with the smallest hash, in
    whatever order the map is ranged over. *)
Theorem evictLRU_least (priv : bytes) (past future : Z) (cs : list Call) :
  let m := calls (NewSessionManager priv past future) cs in
  sessions m <> ∅ ->
  exists hash p s, sessions m !! hash = Some p /\ heap m !! p = Some s
    /\ evictLRUSessionLocked m = remove_session m hash s
    /\ forall hash' p' s', sessions m !! hash' = Some p' -> heap m !! p' = Some s' -> hash' <> hash ->
         LastUsed s < LastUsed s' \/ LastUsed s = LastUsed s' /\ bytesLess hash hash' = true.
Proof.
  cbv zeta. pose proof (calls_ok _ cs (new_manager_ok priv past future)) as Hm.
  set (m := calls _ _) in *. clearbody m. intros Hne. unfold evictLRUSessionLocked.
  destruct (lru_scan_some (heap m) (go_range (sessions m)) None) as [[hash t] Hr].
  { left. intros Hnil. apply Hne, map_size_empty_iff. rewrite <- length_map_to_list, <- go_range_perm, Hnil. done. }
  rewrite Hr. pose proof (lru_scan_least _ _ _ _ Hr) as [_ Hleast].
  pose proof (lru_scan_time _ _ _ _ _ Hr) as [(p & Hin & Ht)|]; [|done].
  rewrite go_range_perm in Hin. apply elem_of_map_to_list in Hin. unfold evict_hash. rewrite Hin.
  destruct (ok_sessions m Hm hash p Hin) as [s Hs]. rewrite Hs. exists hash, p, s. split_and!; try done.
  intros hash' p' s' Hin' Hs' Hne'.
  specialize (Hleast hash' p'). rewrite go_range_perm, elem_of_map_to_list in Hleast. specialize (Hleast Hin').
  unfold no_newer, used_at in *. cbn in Hleast. rewrite Hs in Ht. rewrite Hs', Ht in Hleast.
  destruct Hleast as [?|[? [?|?]]]; auto.
Qed.

(** ** New Session messages *)

(** What the acceptance of a New Session depends on. *)
Definition ns_view (m : SessionManager) : TTLCache * bytes * bytes * Z * Z :=
  (nsReplayCache m, ourPrivateKey m, ourPublicKey m, nsMaxPastAge m, nsMaxFutureAge m).

Lemma view_shrinks m m' : shrinks m m' -> ns_view m' = ns_view m.
Proof. intros (_&_&_&_&_&_&?&?&_&?&?&?). unfold ns_view. congruence. Qed.

Lemma view_update m p f : ns_view (update m p f) = ns_view m.
Proof. unfold update. by destruct (heap m !! p). Qed.

Lemma view_tag_loop fuel m p s tr m' e : tag_window_loop fuel m p s tr = Some (m', e) -> ns_view m' = ns_view m.
Proof.
  revert m s tr. induction fuel as [|fuel IH]; intros m s tr; cbn [tag_window_loop]; case_decide;
    try (by intros [= <- <-]).
  destruct (generate_next_tag tr) as [tr' [tag|]]; [|by intros [= <- <-]].
  destruct (tag_collides m p tag); intros Hl; by rewrite (IH _ _ _ Hl).
Qed.

Lemma view_generate m p : ns_view (generateTagWindow m p).1 = ns_view m.
Proof.
  unfold generateTagWindow. destruct (heap m !! p) as [s|]; [|done]. destruct (recvTag (recv s)); [|done].
  destruct (tag_window_loop _ _ _ _ _) as [[m' e]|] eqn:Hl; [|done]. by apply view_tag_loop in Hl.
Qed.

Lemma view_install tags m p s : ns_view (installGeneratedTagsLocked m p s tags).1 = ns_view m.
Proof.
  revert m s. induction tags as [|[tag c] tags IH]; intros m s; cbn [installGeneratedTagsLocked]; [done|].
  case_decide; [done|]. destruct (tag_collides m p tag); by rewrite IH.
Qed.

Lemma view_replenish m p : ns_view (replenishTagWindowOutsideLock m p) = ns_view m.
Proof.
  unfold replenishTagWindowOutsideLock. generalize maxReplenishAttempts as n. intros n.
  revert m. induction n as [|n IH]; intros m; cbn [replenish_loop]; [done|].
  destruct (heap m !! p) as [s|]; [|done]. case_decide; [done|].
  destruct (generateTagsOutsideLock (recv s)) as [x [tags|e]]; [|done].
  pose proof (view_install tags m p (set_recv s x)) as Hi.
  destruct (installGeneratedTagsLocked _ _ _ _) as [m1 s1]. case_decide; [done|]. by rewrite IH.
Qed.

Lemma view_lookup m tag m' r : lookupSessionByTag m tag = (m', r) -> ns_view m' = ns_view m.
Proof. unfold lookupSessionByTag. by destruct (tagIndex m !! tag); intros [= <- <-]. Qed.

Lemma view_validate m p tag now m' v needs :
  validateAndConsumeTagFromSession m p tag now = (m', v, needs) -> ns_view m' = ns_view m.
Proof.
  unfold validateAndConsumeTagFromSession. destruct (heap m !! p) as [s|]; [|by intros [= <- <- <-]].
  by destruct (expired m now s); intros [= <- <- <-].
Qed.

Lemma view_process blocks m p : ns_view (process_blocks m p blocks) = ns_view m.
Proof.
  revert m. induction blocks as [|b blocks IH]; intros m; cbn [process_blocks]; [done|]. case_decide.
  { unfold removeSessionByPointer. destruct (find_pointer _ _); [|done]. destruct (heap m !! p); [|done].
    apply view_shrinks, remove_session_shrinks. }
  case_decide; [destruct (RatchetPayload.MessageNumber b); rewrite IH, ?view_update; done|].
  case_decide; [by rewrite IH, view_update|]. case_decide; by rewrite IH, ?view_update.
Qed.

Lemma view_existing m tag msg now : ns_view (tryDecryptExisting m tag msg now).1 = ns_view m.
Proof.
  unfold tryDecryptExisting. destruct (lookupSessionByTag m tag) as [m1 [[p c]|]] eqn:Hl; apply view_lookup in Hl; [|done].
  destruct (validateAndConsumeTagFromSession m1 p tag now) as [[m2 [|]] needs] eqn:Hv; apply view_validate in Hv;
    rewrite <- Hl, <- Hv; [|done].
  destruct (heap m2 !! p) as [s|]; [|done]. destruct (decryptExistingSession s _ tag c now) as [s' r]. cbn [fst].
  assert (H4' : ns_view (if needs then replenishTagWindowOutsideLock (put m2 p s') p else put m2 p s') = ns_view m2)
    by (destruct needs; [by rewrite view_replenish|done]).
  destruct r as [[pt ?]|]; [|done]. rewrite <- H4'. unfold processDecryptedESBlocks.
  destruct (ParsePayload pt); [apply view_process|done].
Qed.

Lemma view_applyNSR m p s keys b : ns_view (applyNSRKeysToSessionWhileLocked m p s keys b).1 = ns_view m.
Proof. unfold applyNSRKeysToSessionWhileLocked. destruct (apply_nsr_keys s keys b); [by rewrite view_generate|done]. Qed.

Lemma view_nsr m tag msg now : ns_view (tryDecryptNSR m tag msg now).1 = ns_view m.
Proof.
  unfold tryDecryptNSR. destruct (nsrTagIndex m !! tag) as [p|]; [|done].
  set (m1 := update _ _ _). assert (Hm1 : ns_view m1 = ns_view m) by (subst m1; by rewrite view_update). clearbody m1. rewrite <- Hm1.
  unfold decryptIncomingNSR. destruct (heap m1 !! p) as [s|]; [|done]. destruct (handshakeState s) as [hs|]; [|done].
  destruct (readNoiseIKMessage2 _ _ _) as [[pt keys]|]; [|done].
  pose proof (view_applyNSR (put m1 p (set_handshake s None)) p (set_handshake s None) keys true) as Ha.
  destruct (applyNSRKeysToSessionWhileLocked _ _ _ _ _) as [m2 [e|]]; [done|]. cbn. by rewrite view_update.
Qed.

Lemma view_inbound m k keys hs now : ns_view (initializeInboundRatchetState m k keys hs now).1 = ns_view m.
Proof.
  unfold initializeInboundRatchetState. destruct (createSession _ _ _ _ _) as [s|]; [|done].
  destruct (alloc m _) as [m1 p] eqn:Ha. rewrite view_generate. apply (f_equal fst) in Ha. cbn in Ha.
  transitivity (ns_view (make_room m1 k)); [done|]. rewrite (view_shrinks _ _ (make_room_shrinks m1 k)). by subst m1.
Qed.

Lemma view_store m hash k keys hs b now : ns_view (storeNewSessionState m hash k keys hs b now).1 = ns_view m.
Proof.
  unfold storeNewSessionState. destruct (createSession _ _ _ _ _) as [s|]; [|done].
  set (s1 := set_initiator _ _). destruct (alloc m s1) as [m1 p] eqn:Ha. apply (f_equal fst) in Ha. cbn in Ha.
  assert (Hv : ns_view (make_room m1 k) = ns_view m)
    by (rewrite (view_shrinks _ _ (make_room_shrinks m1 k)); by subst m1).
  clear Ha. set (m2 := make_room m1 k) in *. clearbody m2 s1. rewrite <- Hv. destruct b.
  - unfold registerNSRTagLocked. destruct (nsr_tag _); [by rewrite view_generate|done].
  - by rewrite view_generate.
Qed.

Lemma view_encrypt m hash k pt rnd now : ns_view (EncryptGarlicMessage m hash k pt rnd now).1 = ns_view m.
Proof.
  unfold EncryptGarlicMessage. destruct pt as [|b pt]; [done|]. destruct (sessions m !! hash) as [p|].
  - destruct (heap m !! p) as [s|]; [|done]. by destruct (encryptExistingSession s (b :: pt) rnd now).
  - unfold encryptNewSession. destruct (ValidateNewSessionPayload _); [done|].
    destruct (writeNoiseIKMessage1 _ _ _ _ _) as [[[msg keys] hs]|]; [|done].
    pose proof (view_store m hash k keys hs true now) as Hs.
    by destruct (storeNewSessionState m hash k keys hs true now) as [m' [e|]].
Qed.

Lemma view_reply m hash payload rnd now : ns_view (EncryptNewSessionReply m hash payload rnd now).1 = ns_view m.
Proof.
  unfold EncryptNewSessionReply. destruct (sessions m !! hash) as [p|]; [|done]. destruct (heap m !! p) as [s|]; [|done].
  destruct (handshakeState s) as [hs|]; [|done]. destruct (isInitiator s); [done|].
  destruct (writeNoiseIKMessage2 _ _ _) as [[[? ?] keys]|]; [|done].
  pose proof (view_applyNSR (put m p (set_handshake s None)) p (set_handshake s None) keys false) as Ha.
  destruct (applyNSRKeysToSessionWhileLocked _ _ _ _ _) as [m2 [e|]]; [done|]. cbn. by rewrite view_update.
Qed.

Lemma view_find m tag now : ns_view (FindSessionByTag m tag now).1 = ns_view m.
Proof.
  unfold FindSessionByTag. destruct (lookupSessionByTag m tag) as [m1 [[p c]|]] eqn:Hl; apply view_lookup in Hl; [|done].
  destruct (validateAndConsumeTagFromSession m1 p tag now) as [[m2 [|]] needs] eqn:Hv; apply view_validate in Hv;
    rewrite <- Hl, <- Hv; [|done]. destruct needs; [apply view_replenish|done].
Qed.

Lemma view_cleanup m now : ns_view (CleanupExpiredSessions m now) = ns_view m.
Proof.
  unfold CleanupExpiredSessions. generalize (go_range (sessions m)) as l. intros l. revert m.
  induction l as [|[h p] l IH]; intros m; [done|]. cbn [foldl]. rewrite IH. unfold cleanup_entry. cbn.
  destruct (heap m !! p); [|done]. destruct (expired _ _ _); [|done]. apply view_shrinks, remove_session_shrinks.
Qed.

(** A call changes the replay cache by at most one check or clean-up, at the time of the call. *)
Definition call_time (c : Call) : option Z :=
  match c with
  | CallEncrypt _ _ _ _ now | CallReply _ _ _ now | CallDecrypt _ now | CallFind _ now | CallCleanup now | CallTick now => Some now
  | _ => None
  end.

Definition is_decrypt (c : Call) : bool := match c with CallDecrypt _ _ => true | _ => false end.

Definition set_cache (v : TTLCache * bytes * bytes * Z * Z) (c : TTLCache) : TTLCache * bytes * bytes * Z * Z :=
  let '(_, priv, pub, past, future) := v in (c, priv, pub, past, future).

Lemma decryptNew_view m msg now m' r :
  decryptNewSession m msg now = (m', r) ->
  match r with
  | Ok (pt, Some _) =>
      (exists k keys hs, readNoiseIKMessage1 (ourPrivateKey m) (ourPublicKey m) msg = Ok (pt, k, keys, hs, false))
      /\ validateNSDateTimeFreshness m pt now = None
      /\ exists c, CheckAndAdd (nsReplayCache m) (take 32 msg) now = (c, false) /\ ns_view m' = set_cache (ns_view m) c
  | _ => ns_view m' = ns_view m \/ exists key, ns_view m' = set_cache (ns_view m) (CheckAndAdd (nsReplayCache m) key now).1
  end.
Proof.
  unfold decryptNewSession. destruct (readNoiseIKMessage1 _ _ msg) as [[[[[pt k] keys] hs] [|]]|] eqn:Hr;
    try (intros [= <- <-]; by left).
  assert (Hlen : (32 <= length msg)%nat).
  { unfold readNoiseIKMessage1, noiseIKMinMessageSize in Hr. case_decide; [discriminate|lia]. }
  destruct (validateNSDateTimeFreshness m pt now) eqn:Hf; [intros [= <- <-]; by left|]. rewrite decide_True by done.
  destruct (CheckAndAdd (nsReplayCache m) (take 32 msg) now) as [c [|]] eqn:Hc.
  { intros [= <- <-]. right. exists (take 32 msg). by rewrite Hc. }
  pose proof (view_inbound (set_replay m c) k keys hs now) as Hi.
  destruct (initializeInboundRatchetState _ k keys hs now) as [m2 [e|]]; intros [= <- <-]; cbn in Hi.
  - right. exists (take 32 msg). by rewrite Hc.
  - split; [eauto|]. split; [done|]. exists c. done.
Qed.

(** What the acceptance of [msg] at [now] means for a manager with this view. *)
Definition accepts (v : TTLCache * bytes * bytes * Z * Z) (msg : bytes) (now : Z) (c : TTLCache) (pt : bytes) : Prop :=
  let '(cache, priv, pub, past, future) := v in
  (exists k keys hs, readNoiseIKMessage1 priv pub msg = Ok (pt, k, keys, hs, false))
  /\ (exists b rest unix, ParsePayload pt = Ok (b :: rest) /\ DateTime b = Ok unix
        /\ - future <= time_sub now (unix * Second) <= past)
  /\ CheckAndAdd cache (take 32 msg) now = (c, false).

(** [ops] are made at the time of the call, with at most [n] checks. *)
Definition checks_at (now : option Z) (n : nat) (ops : list op) : Prop :=
  (length (List.filter is_check ops) <= n)%nat /\ Forall (fun o => op_time o = now) ops.

Lemma fresh_inv_time m pt now :
  validateNSDateTimeFreshness m pt now = None ->
  exists b rest unix, ParsePayload pt = Ok (b :: rest) /\ DateTime b = Ok unix
    /\ - nsMaxFutureAge m <= time_sub now (unix * Second) <= nsMaxPastAge m.
Proof.
  unfold validateNSDateTimeFreshness. destruct (ParsePayload pt) as [[|b rest]|]; [done| |done].
  case_decide; [done|]. destruct (DateTime b) as [unix|] eqn:Hd; [|done].
  destruct (Z.ltb_spec (nsMaxPastAge m) (time_sub now (unix * Second))); [done|].
  destruct (Z.ltb_spec (time_sub now (unix * Second)) (- nsMaxFutureAge m)); [done|]. intros _. by exists b, rest, unix.
Qed.

Lemma decrypt_view m msg now m' r :
  DecryptGarlicMessage m msg now = (m', r) ->
  (exists ops, ns_view m' = set_cache (ns_view m) (run (nsReplayCache m) ops) /\ checks_at (Some now) 1 ops)
  /\ forall pt tag h, r = Ok (pt, tag, Some h) ->
       exists c, accepts (ns_view m) msg now c pt /\ ns_view m' = set_cache (ns_view m) c.
Proof.
  assert (Hnil : checks_at (Some now) 1 []) by (split; [cbn; lia|constructor]).
  assert (Hone : forall key, checks_at (Some now) 1 [OpCheck key now])
    by (intros; split; [done|by repeat constructor]).
  assert (Hsame : forall m1, ns_view m1 = ns_view m ->
    exists ops, ns_view m1 = set_cache (ns_view m) (run (nsReplayCache m) ops) /\ checks_at (Some now) 1 ops)
    by (intros m1 Hv; exists []; split; [by rewrite Hv|done]).
  unfold DecryptGarlicMessage. case_decide; [by intros [= <- <-]; split; auto|].
  pose proof (view_existing m (take 8 msg) msg now) as Hv1. destruct (tryDecryptExisting _ _ _ _) as [m1 [r1|]]; cbn in Hv1.
  { intros [= <- <-]. split; [auto|]. destruct r1; intros; discriminate. }
  pose proof (view_nsr m1 (take 8 msg) msg now) as Hv2. destruct (tryDecryptNSR _ _ _ _) as [m2 [r1|]]; cbn in Hv2.
  { intros [= <- <-]. split; [apply Hsame; congruence|]. destruct r1; intros; discriminate. }
  unfold tryDecryptOneTimeKey. destruct (oneTimeKeys m2 !! take 8 msg).
  { intros [= <- <-]. split; [apply Hsame; transitivity (ns_view m2); [done|congruence]|]. match goal with |- context [if ?b then _ else _] => destruct b end; [done|].
    destruct (aead_decrypt _ _ _ _ _); intros; discriminate. }
  destruct (decryptNewSession m2 msg now) as [m3 r3] eqn:Hd. intros [= <- <-]. apply decryptNew_view in Hd.
  assert (Hv : ns_view m2 = ns_view m) by congruence. assert (Hc : nsReplayCache m2 = nsReplayCache m)
    by (unfold ns_view in Hv; congruence).
  rewrite Hv, Hc in Hd. destruct r3 as [[pt [h|]]|e].
  - destruct Hd as (Hread & Hfr & c & Hadd & Hset). split.
    + exists [OpCheck (take 32 msg) now]. split; [|done]. cbn. by rewrite Hadd.
    + intros pt' tag h' [= <- <- <-]. exists c. split; [|done]. rewrite <- Hv. cbn. rewrite Hc.
      split_and!; [done|by apply fresh_inv_time|done].
  - split; [|intros; discriminate]. destruct Hd as [Hd|[key Hd]]; [auto|]. by exists [OpCheck key now].
  - split; [|intros; discriminate]. destruct Hd as [Hd|[key Hd]]; [auto|]. by exists [OpCheck key now].
Qed.

Lemma call_view m c :
  c <> CallClose ->
  exists ops, ns_view (call m c) = set_cache (ns_view m) (run (nsReplayCache m) ops)
    /\ checks_at (call_time c) (if is_decrypt c then 1 else 0) ops.
Proof.
  intros Hc. assert (Hsame : ns_view (call m c) = ns_view m -> is_decrypt c = false ->
    exists ops, ns_view (call m c) = set_cache (ns_view m) (run (nsReplayCache m) ops)
      /\ checks_at (call_time c) (if is_decrypt c then 1 else 0) ops).
  { intros -> ->. exists []. split; [done|]. split; [done|constructor]. }
  destruct c.
  9: { cbn [call]. destruct (done_ _); [by exists []|]. exists [OpExpire now]. split; [done|]. split; [cbn; lia|by repeat constructor]. }
  all: try (apply Hsame; [|done]); cbn [call]; try done.
  - apply view_encrypt.
  - apply view_reply.
  - destruct (DecryptGarlicMessage m msg now) as [m' r] eqn:Hd. by apply decrypt_view in Hd as [Ho _].
  - apply view_find.
  - unfold ProcessReceivedNextKey. destruct (tagIndex m !! tag) as [p|]; [|done]. destruct (heap m !! p); [|done].
    by destruct (if KeyPresent info then _ else _).
  - unfold ProcessIncomingDHRatchet. destruct (tagIndex m !! tag) as [p|]; [|done]. destruct (heap m !! p); [|done].
    by destruct (applyIncomingDHKey _ _).
  - apply view_cleanup.
Qed.

Lemma calls_view m cs :
  CallClose ∉ cs ->
  exists ops, ns_view (calls m cs) = set_cache (ns_view m) (run (nsReplayCache m) ops)
    /\ (length (List.filter is_check ops) <= length (List.filter is_decrypt cs))%nat
    /\ Forall (fun o => exists c, c ∈ cs /\ op_time o = call_time c) ops.
Proof.
  revert m. induction cs as [|c cs IH]; intros m Hc; [by exists []; split_and!|].
  apply not_elem_of_cons in Hc as [Hc Hcs]. destruct (call_view m c) as (ops1 & Hv1 & Hlen1 & Hf1); [done|].
  destruct (IH (call m c) Hcs) as (ops2 & Hv2 & Hlen2 & Hf2). exists (ops1 ++ ops2).
  assert (Hcache : nsReplayCache (call m c) = run (nsReplayCache m) ops1) by (unfold ns_view, set_cache in Hv1; congruence).
  split_and!.
  - cbn [calls foldl]. fold (calls (call m c) cs). rewrite Hv2, Hv1, Hcache. unfold run. by rewrite foldl_app.
  - rewrite List.filter_app, length_app. cbn [List.filter]. destruct (is_decrypt c); cbn; lia.
  - apply Forall_app. split.
    + eapply Forall_impl; [exact Hf1|]. intros o ?. exists c. split; [by left|done].
    + eapply Forall_impl; [exact Hf2|]. intros o (c' & ? & ?). exists c'. split; [by right|done].
Qed.

(** The times of two acceptances of one message differ by less than the time
    its key is remembered. *)
Lemma accepts_close v1 v2 msg t1 t2 c1 c2 pt1 pt2 c :
  v2 = set_cache v1 c -> accepts v1 msg t1 c1 pt1 -> accepts v2 msg t2 c2 pt2 ->
  (let '(_, past, future) := v1 in
   past < maxDuration -> 0 <= future <= maxDuration -> t2 - t1 <= past + future).
Proof.
  destruct v1 as [[[[cache priv] pub] past] future]. intros -> (Hr1 & Hf1 & _) (Hr2 & Hf2 & _) Hp Hfu.
  destruct Hr1 as (k1 & keys1 & hs1 & Hr1). destruct Hr2 as (k2 & keys2 & hs2 & Hr2).
  rewrite Hr1 in Hr2. injection Hr2 as <- _ _ _.
  destruct Hf1 as (b1 & l1 & u1 & Hp1 & Hd1 & Ht1). destruct Hf2 as (b2 & l2 & u2 & Hp2 & Hd2 & Ht2).
  rewrite Hp1 in Hp2. injection Hp2 as <- _. rewrite Hd1 in Hd2. injection Hd2 as <-.
  unfold time_sub, minDuration, maxDuration in *. lia.
Qed.

(** C17: bound New Session messages are accepted once. When the manager has accepted
    a New Session message with the static key of its sender, all calls before it being
    strictly earlier, it does not accept the same message as a bound New Session again
    at any later time, whatever calls and ticks of the replay cache come in between, as
    long as the manager is not closed and fewer than 45000 messages were decrypted in
    between: while its time stamp is fresh the replay cache has it, and afterwards the
    time stamp is too old. A New Session without a static key is not checked. *)
Theorem ns_accepted_once (priv : bytes) (past future : Z) (cs0 cs1 : list Call) (msg : bytes) (t1 t2 : Z)
    (m1 : SessionManager) (pt1 tag1 hash1 : bytes) :
  0 <= past -> 0 <= future -> nsReplayCacheTTL past future <= maxDuration ->
  CallClose ∉ cs0 -> CallClose ∉ cs1 -> t1 <= t2 ->
  (forall c t, c ∈ cs0 -> call_time c = Some t -> t < t1) ->
  (forall c t, c ∈ cs1 -> call_time c = Some t -> t1 <= t <= t2) ->
  Z.of_nat (length (List.filter is_decrypt cs1)) < 45000 ->
  DecryptGarlicMessage (calls (NewSessionManager priv past future) cs0) msg t1 = (m1, Ok (pt1, tag1, Some hash1)) ->
  forall m2 pt2 tag2 hash2, DecryptGarlicMessage (calls m1 cs1) msg t2 <> (m2, Ok (pt2, tag2, Some hash2)).
Proof.
  intros Hpast Hfut Httl Hc0 Hc1 Ht Ht0 Ht1 Hn Hd1 m2 pt2 tag2 hash2 Hd2.
  apply decrypt_view in Hd1 as [_ Hd1]. destruct (Hd1 _ _ _ eq_refl) as (c1 & Hacc1 & Hv1).
  apply decrypt_view in Hd2 as [_ Hd2]. destruct (Hd2 _ _ _ eq_refl) as (c2 & Hacc2 & _).
  destruct (calls_view (NewSessionManager priv past future) cs0 Hc0) as (ops0 & Hv0 & _ & Hf0).
  destruct (calls_view m1 cs1 Hc1) as (ops1 & Hv2 & Hl1 & Hf1).
  cbn [nsReplayCache NewSessionManager] in Hv0.
  set (cache0 := New _) in Hv0. set (m0 := calls (NewSessionManager _ _ _) cs0) in *. clearbody m0.
  rewrite Hv0 in Hacc1, Hv1. cbn [ns_view set_cache NewSessionManager] in Hacc1, Hv1.
  assert (Hc : nsReplayCache m1 = c1) by (unfold ns_view in Hv1; congruence).
  rewrite Hv1, Hc in Hv2. rewrite Hv2 in Hacc2. cbn [set_cache] in Hacc2.
  assert (Hnear : t2 - t1 <= past + future).
  { pose proof (accepts_close _ _ _ _ _ _ _ _ _ (run c1 ops1) eq_refl Hacc1 Hacc2) as Hcl. cbn in Hcl.
    unfold nsReplayCacheTTL, Minute, Second in Httl. apply Hcl; lia. }
  destruct Hacc1 as (_ & _ & Hadd1). destruct Hacc2 as (_ & _ & Hadd2).
  destruct (run_inv cache0 [] ops0 (new_inv _)) as [(_ & _ & Hent) Hmax].
  destruct (recorded_fresh (run cache0 ops0) (take 32 msg) t1 c1) as (Hfr & Hm1 & Httl1); [|exact Hadd1|].
  { intros k t Hk. apply Hent in Hk. cbn [app] in Hk. unfold checked in Hk. rewrite Forall_forall in Hf0.
    destruct (Hf0 _ Hk) as (c & Hin & Hct). eapply Ht0; [exact Hin|]. by rewrite <- Hct. }
  rewrite run_ttl in Httl1. rewrite Hmax in Hm1.
  destruct (run_fresh (take 32 msg) t1 t2 ops1 0 c1 Hfr) as [Hk Hl].
  - by rewrite Hm1.
  - unfold room. rewrite Hm1. apply Nat2Z.inj_lt. apply Z.lt_le_trans with 45000; [|vm_compute; discriminate].
    eapply Z.le_lt_trans; [|exact Hn]. apply inj_le. exact Hl1.
  - eapply Forall_impl; [exact Hf1|]. intros o (c & Hin & Hct) u Hu. apply (Ht1 c u Hin). congruence.
  - rewrite Httl1. unfold cache0, New, nsReplayCacheTTL, Minute, Second. cbn. lia.
  - apply (f_equal snd) in Hadd2. cbn in Hadd2. rewrite (fresh_detected _ _ t1) in Hadd2; [done|done|].
    rewrite Hl, Httl1. unfold cache0, New, nsReplayCacheTTL, Minute, Second. cbn. lia.
Qed.
End SessionInvariant.

(** ** Witnesses *)

#[local] Existing Instances demo_hash demo_curve demo_aead demo_noise demo_ratchet.
#[local] Existing Instances demo_sessions_range demo_cache_range demo_cache_sort.

Lemma evictLRU_least_witness :
  let m := calls alice [CallEncrypt demo_hashB (x25519_public demo_sb) demo_first demo_eph1 demo_time] in
  exists hash p s, sessions m !! hash = Some p /\ heap m !! p = Some s
    /\ evictLRUSessionLocked m = remove_session m hash s.
Proof.
  cbv zeta. destruct (evictLRU_least demo_sa defaultNSMaxPastAge defaultNSMaxFutureAge
    [CallEncrypt demo_hashB (x25519_public demo_sb) demo_first demo_eph1 demo_time]) as (hash & p & s & Hp & Hs & He & _).
  - intros He. apply (f_equal size) in He. vm_compute in He. discriminate.
  - exists hash, p, s. split; [exact Hp|]. split; [exact Hs|exact He].
Defined.

(** Another message arrives, and sessions and the replay cache are cleaned up, between
    the two. *)
Definition demo_between (t : Z) : list Call := [CallDecrypt [x01; x02] (t + 1); CallCleanup (t + 2); CallTick (t + 3)].

Lemma demo_between_times t0 c t : c ∈ demo_between t0 -> call_time c = Some t -> t0 <= t <= t0 + 3.
Proof. unfold demo_between. intros [->|[->|[->|[]%elem_of_nil]%elem_of_cons]%elem_of_cons]%elem_of_cons; intros [= <-]; lia. Qed.

Lemma ns_accepted_once_witness :
  (exists m pt tag hash, DecryptGarlicMessage bob demo_msg1.1.1 demo_time = (m, Ok (pt, tag, Some hash)))
  /\ forall m pt tag hash,
       DecryptGarlicMessage (calls demo_B1 (demo_between demo_time)) demo_msg1.1.1 (demo_time + 3) <> (m, Ok (pt, tag, Some hash)).
Proof.
  destruct (DecryptGarlicMessage bob demo_msg1.1.1 demo_time) as [m r] eqn:Hd.
  assert (Hr : match (DecryptGarlicMessage bob demo_msg1.1.1 demo_time).2 with Ok (_, _, Some _) => true | _ => false end = true)
    by (vm_compute; reflexivity).
  rewrite Hd in Hr. cbn [snd] in Hr. destruct r as [[[pt tag] [hash|]]|]; [|discriminate|discriminate].
  split; [exists m, pt, tag, hash; reflexivity|].
  unfold demo_B1. rewrite Hd. cbn [fst].
  apply (ns_accepted_once demo_sb defaultNSMaxPastAge defaultNSMaxFutureAge [] (demo_between demo_time) demo_msg1.1.1
    demo_time (demo_time + 3) m pt tag hash).
  - vm_compute. discriminate.
  - vm_compute. discriminate.
  - vm_compute. discriminate.
  - by intros ?%elem_of_nil.
  - by intros [?|[?|[?|?%elem_of_nil]%elem_of_cons]%elem_of_cons]%elem_of_cons.
  - lia.
  - intros c t []%elem_of_nil.
  - apply demo_between_times.
  - vm_compute. reflexivity.
  - exact Hd.
Defined.

(** ** Limits

    Runs of the manager, with the demonstration keys, that end in states the
    code does not mean to reach. *)

Definition result_ok {E A} (r : result E A) : bool := match r with Ok _ => true | Err _ => false end.

(** A second New Session message of the same peer. *)
Definition demo_msg1b := ok_or ([], mkSessionKeys [] [] [], mkHandshake [] [] [] [] [])
  (writeNoiseIKMessage1 (replicate 32 x55) demo_sa (x25519_public demo_sa) (x25519_public demo_sb) demo_first).

Definition demo_orphans : SessionManager :=
  calls bob [CallDecrypt demo_msg1.1.1 demo_time; CallDecrypt demo_msg1b.1.1 demo_time;
             CallCleanup (demo_time + 24 * 60 * Minute)].

(** The second New Session of a peer replaces its session in the table and
    leaves the tags of the first in the index, which no clean-up removes. *)
Lemma orphaned_tags : GetSessionCount demo_orphans = 0 /\ size (tagIndex demo_orphans) = 24%nat.
Proof. vm_compute. split; reflexivity. Qed.

(** The messages of a longer conversation, each with the index of its clove. *)
Definition demo_many : list bytes := (fun i => demo_clove (z2b (Z.of_nat i))) <$> seq 0 52.

Definition demo_stream_msgs : list bytes :=
  default [] (send_all demo_A2 demo_hashB (x25519_public demo_sb) demo_many demo_eph1 demo_time).2.

Definition arrive (l : list nat) : list bool :=
  result_ok <$> (receive_all demo_B2 demo_stream_msgs ((fun i => (i, demo_time)) <$> l)).2.

(** With the 50th message the sender takes new chains, before the receiver can
    have the key that the same message announces: neither it nor any later one
    is decrypted. *)
Lemma rotation_breaks_session : arrive (seq 0 52) = replicate 49 true ++ [false; false; false].
Proof. vm_compute. reflexivity. Qed.

(** If the first 13 messages are lost, their tags stay in the window; it is not
    replenished any more, and after 11 messages nothing is decrypted. *)
Lemma lost_tags_starve : arrive (seq 13 30) = replicate 11 true ++ replicate 19 false.
Proof. vm_compute. reflexivity. Qed.

(** A reply that cannot be decrypted uses up the handshake, and the initiator
    sends Existing Session messages under the keys of the New Session. *)
Lemma forged_reply_unlocks_sending :
  let forged := demo_msg2.1.1 ++ replicate 64 x00 in
  let '(m, r) := DecryptGarlicMessage demo_A1 forged demo_time in
  let send m := result_ok (EncryptGarlicMessage m demo_hashB (x25519_public demo_sb) (demo_clove x01) [] demo_time).2 in
  result_ok r = false /\ send demo_A1 = false /\ send m = true.
Proof. vm_compute. split_and!; reflexivity. Qed.

(** The responder sends Existing Session messages before it has replied. *)
Lemma responder_sends_before_reply :
  result_ok (EncryptGarlicMessage demo_B1 (sha256 (x25519_public demo_sa)) (x25519_public demo_sa)
               (demo_clove x01) [] demo_time).2 = true.
Proof. vm_compute. reflexivity. Qed.

(** [Close] keeps the one-time keys. *)
Lemma close_keeps_one_time_keys (m : SessionManager) (tag key : bytes) :
  oneTimeKeys (SessionManager_Close (RegisterOneTimeKey m tag key)) !! tag = Some key.
Proof. apply lookup_insert_eq. Qed.
