(* ===== verification/Fragments.v ===== *)
(** * Fragmentation and reassembly of I2NP messages

    [ssu2/session/fragment_assembler.go] (reassembly, in the [DataHandler]), the
    queue and counters of [ssu2/session/data_handler.go] it uses, and
    [buildI2NPFragmentBlocks] of [ssu2/session/conn_write.go], the sender's side.

    The fragment sets are mutated through pointers held only by the [fragments]
    map, so they are values of the map. A handler reads the clock once. The
    bounded channel [messageQueue] is a list with a capacity. *)

From Stdlib Require Import Strings.Byte.
From stdpp Require Import base numbers list gmap sets.
From S2P Require Import Prelude Block.

#[local] Open Scope Z_scope.

Definition maxFragmentsPerConn : nat := 512.

Record FragmentSet := mkFS {
  MessageID : Z;
  I2NPType : byte;
  ShortExpiration : Z;
  Fragments : gmap Z bytes;
  ReceivedSize : Z;
  HasLast : bool;
  HasFirst : bool;
  LastFragNum : Z;
  CreatedAt : Z;
  LastUpdate : Z;
}.

Record DataHandlerStats := mkStats {
  MessagesReceived : Z;
  FragmentsReceived : Z;
  MessagesReassembled : Z;
  MessagesDropped : Z;
  BlocksProcessed : Z;
  UnknownBlocks : Z;
}.

Inductive stat :=
| SMessagesReceived | SFragmentsReceived | SMessagesReassembled
| SMessagesDropped | SBlocksProcessed | SUnknownBlocks.

Record DataHandler := mkDH {
  messageQueue : list bytes;
  queueCap : nat;
  fragments : gmap Z FragmentSet;
  fragmentTimeout : Z;
  stats : DataHandlerStats;
}.

Inductive DataError :=
| EFirstTooShort (n : Z)
| EFollowOnTooShort (n : Z)
| EFragmentSetNotFound (id : Z)
| EQueueFullReassembled
| EI2NPEmpty
| EQueueFull
| EMTUTooSmall
| ERandom.

Definition NewDataHandler (queueSize : Z) : DataHandler :=
  mkDH [] (Z.to_nat (if queueSize <=? 0 then 100 else queueSize)) ∅ (10 * Second)
    (mkStats 0 0 0 0 0 0).

(** [newDataHandlerFromConfig]; [None] is a nil config. *)
Definition newDataHandlerFromConfig (configTimeout : option Z) : DataHandler :=
  let dh := NewDataHandler 100 in
  match configTimeout with
  | Some t => if 0 <? t then mkDH (messageQueue dh) (queueCap dh) (fragments dh) t (stats dh) else dh
  | None => dh
  end.

(** [atomic.AddUint64] on one counter. *)
Definition bump (k : Z) (s : stat) (st : DataHandlerStats) : DataHandlerStats :=
  match s with
  | SMessagesReceived => mkStats (u64 (MessagesReceived st + k)) (FragmentsReceived st)
      (MessagesReassembled st) (MessagesDropped st) (BlocksProcessed st) (UnknownBlocks st)
  | SFragmentsReceived => mkStats (MessagesReceived st) (u64 (FragmentsReceived st + k))
      (MessagesReassembled st) (MessagesDropped st) (BlocksProcessed st) (UnknownBlocks st)
  | SMessagesReassembled => mkStats (MessagesReceived st) (FragmentsReceived st)
      (u64 (MessagesReassembled st + k)) (MessagesDropped st) (BlocksProcessed st) (UnknownBlocks st)
  | SMessagesDropped => mkStats (MessagesReceived st) (FragmentsReceived st)
      (MessagesReassembled st) (u64 (MessagesDropped st + k)) (BlocksProcessed st) (UnknownBlocks st)
  | SBlocksProcessed => mkStats (MessagesReceived st) (FragmentsReceived st)
      (MessagesReassembled st) (MessagesDropped st) (u64 (BlocksProcessed st + k)) (UnknownBlocks st)
  | SUnknownBlocks => mkStats (MessagesReceived st) (FragmentsReceived st)
      (MessagesReassembled st) (MessagesDropped st) (BlocksProcessed st) (u64 (UnknownBlocks st + k))
  end.

Definition incrementStat (s : stat) (h : DataHandler) : DataHandler :=
  mkDH (messageQueue h) (queueCap h) (fragments h) (fragmentTimeout h) (bump 1 s (stats h)).

Definition set_fragments (h : DataHandler) (m : gmap Z FragmentSet) : DataHandler :=
  mkDH (messageQueue h) (queueCap h) m (fragmentTimeout h) (stats h).

Definition set_queue (h : DataHandler) (q : list bytes) : DataHandler :=
  mkDH q (queueCap h) (fragments h) (fragmentTimeout h) (stats h).

(** The non-blocking send [select { case q <- msg: ...; default: ... }]. *)
Definition enqueue (h : DataHandler) (msg : bytes) : option DataHandler :=
  if decide (length (messageQueue h) < queueCap h)%nat
  then Some (set_queue h (messageQueue h ++ [msg])) else None.

(** [for i := uint8(0); i <= LastFragNum; i++]: the fragment numbers 0..last. *)
Definition frag_numbers (last : Z) : list Z := Z.of_nat <$> seq 0 (S (Z.to_nat last)).

Definition all_present (fs : FragmentSet) : bool :=
  forallb (fun i => match Fragments fs !! i with Some _ => true | None => false end)
    (frag_numbers (LastFragNum fs)).

Definition assemble (fs : FragmentSet) : bytes :=
  ([I2NPType fs] ++ be_encode 4 (MessageID fs) ++ be_encode 4 (ShortExpiration fs))
  ++ concat ((fun i => default [] (Fragments fs !! i)) <$> frag_numbers (LastFragNum fs)).

Definition reassembleMessage (h : DataHandler) (messageID : Z) : DataHandler * option DataError :=
  match fragments h !! messageID with
  | None => (h, Some (EFragmentSetNotFound messageID))
  | Some fs =>
      if negb (HasFirst fs) || negb (HasLast fs) then (h, None)
      else if negb (all_present fs) then (h, None)
      else
        let message := assemble fs in
        match enqueue h message with
        | Some h =>
            let h := incrementStat SMessagesReassembled h in
            (set_fragments h (delete messageID (fragments h)), None)
        | None =>
            let h := incrementStat SMessagesDropped h in
            (set_fragments h (delete messageID (fragments h)), Some EQueueFullReassembled)
        end
  end.

Section Assembler.
Context {R : GoRange Z FragmentSet}.

Definition evictOldestFragment (h : DataHandler) : DataHandler :=
  if decide (size (fragments h) = 0%nat) then h
  else
    let oldestID :=
      match scan_oldest CreatedAt (go_range (fragments h)) None with
      | Some (id, _) => id
      | None => 0
      end in
    incrementStat SMessagesDropped (set_fragments h (delete oldestID (fragments h))).

Definition make_room (h : DataHandler) : DataHandler :=
  if decide (maxFragmentsPerConn <= size (fragments h))%nat then evictOldestFragment h else h.

Definition handleFirstFragment (h : DataHandler) (data : bytes) (now : Z)
    : DataHandler * option DataError :=
  if zlen data <? 9 then (incrementStat SMessagesDropped h, Some (EFirstTooShort (zlen data)))
  else
    let i2npType := z2b (byte_at data 0) in
    let messageID := be_decode (slice 1 5 data) in
    let shortExpiration := be_decode (slice 5 9 data) in
    let fragmentData := drop 9 data in
    match fragments h !! messageID with
    | Some existing =>
        if HasFirst existing then (h, None)
        else
          let sz := match Fragments existing !! 0 with
                    | Some oldFrag => u32 (ReceivedSize existing - u32 (zlen oldFrag))
                    | None => ReceivedSize existing
                    end in
          let existing :=
            mkFS (MessageID existing) i2npType shortExpiration
              (<[0 := fragmentData]> (Fragments existing))
              (u32 (sz + u32 (zlen fragmentData)))
              (HasLast existing) true (LastFragNum existing) (CreatedAt existing) now in
          let h := set_fragments h (<[messageID := existing]> (fragments h)) in
          let h := incrementStat SFragmentsReceived h in
          if HasLast existing then reassembleMessage h messageID else (h, None)
    | None =>
        let h := make_room h in
        let fragmentSet :=
          mkFS messageID i2npType shortExpiration {[0 := fragmentData]}
            (u32 (zlen fragmentData)) false true 0 now now in
        let h := set_fragments h (<[messageID := fragmentSet]> (fragments h)) in
        (incrementStat SFragmentsReceived h, None)
    end.

Definition handleFollowOnFragment (h : DataHandler) (data : bytes) (now : Z)
    : DataHandler * option DataError :=
  if zlen data <? 5 then (incrementStat SMessagesDropped h, Some (EFollowOnTooShort (zlen data)))
  else
    let fragInfo := byte_at data 0 in
    let fragmentNum := Z.shiftr fragInfo 1 in
    let isLast := negb (Z.land fragInfo 1 =? 0) in
    let messageID := be_decode (slice 1 5 data) in
    let fragmentData := drop 5 data in
    let '(h, fragmentSet) :=
      match fragments h !! messageID with
      | Some fs => (h, fs)
      | None =>
          let h := make_room h in
          let fs := mkFS messageID x00 0 ∅ 0 false false 0 now now in
          (set_fragments h (<[messageID := fs]> (fragments h)), fs)
      end in
    match Fragments fragmentSet !! fragmentNum with
    | Some _ => (h, None)
    | None =>
        let fragmentSet :=
          mkFS (MessageID fragmentSet) (I2NPType fragmentSet) (ShortExpiration fragmentSet)
            (<[fragmentNum := fragmentData]> (Fragments fragmentSet))
            (u32 (ReceivedSize fragmentSet + u32 (zlen fragmentData)))
            (if isLast then true else HasLast fragmentSet) (HasFirst fragmentSet)
            (if isLast then fragmentNum else LastFragNum fragmentSet)
            (CreatedAt fragmentSet) now in
        let h := set_fragments h (<[messageID := fragmentSet]> (fragments h)) in
        let h := incrementStat SFragmentsReceived h in
        if HasFirst fragmentSet && HasLast fragmentSet then reassembleMessage h messageID
        else (h, None)
    end.

(** [cleanupStaleFragments] and [CleanupExpiredFragments] run the same loop; each
    removal counts a dropped message. *)
Definition cleanup_loop (h : DataHandler) (timeout now : Z) : DataHandler * Z :=
  let '(m, removed) :=
    delete_where (fun _ fs => timeout <? time_sub now (LastUpdate fs))
      (go_range (fragments h)) (fragments h) 0 in
  (mkDH (messageQueue h) (queueCap h) m (fragmentTimeout h) (bump removed SMessagesDropped (stats h)),
   removed).

Definition cleanupStaleFragments (h : DataHandler) (now : Z) : DataHandler :=
  (cleanup_loop h (fragmentTimeout h) now).1.

Definition CleanupExpiredFragments (h : DataHandler) (timeout now : Z) : DataHandler * Z :=
  cleanup_loop h timeout now.

Definition GetFragmentCount (h : DataHandler) : nat := size (fragments h).
End Assembler.

(** ** The sender's side *)

Definition firstFragHeaderSize : Z := 9.
Definition followOnFragHeaderSize : Z := 5.

(** The loop over the follow-on fragments. [maxFollowData] is positive, so each
    iteration takes at least one byte and [length data] iterations are enough. *)
Fixpoint follow_loop (fuel : nat) (data : bytes) (messageID maxFollowData : Z)
    (offset : nat) (fragNum : Z) : list SSU2Block :=
  match fuel with
  | O => []
  | S fuel =>
      if decide (offset < length data)%nat then
        let fEnd := (offset + Z.to_nat maxFollowData)%nat in
        let fEnd := if decide (length data < fEnd)%nat then length data else fEnd in
        let isLast := bool_decide (fEnd = length data) in
        let fragInfo := u8 (Z.shiftl fragNum 1) in
        let fragInfo := if isLast then Z.lor fragInfo 1 else fragInfo in
        let followData := [z2b fragInfo] ++ be_encode 4 messageID ++ slice offset fEnd data in
        mkBlock BlockTypeFollowOnFragment followData
          :: follow_loop fuel data messageID maxFollowData fEnd (u8 (fragNum + 1))
      else []
  end.

(** [msgIDBuf] is what [rand.Read] gave, [unix] is [time.Now().Unix()]. *)
Definition buildI2NPFragmentBlocks (msgIDBuf : option bytes) (unix : Z) (data : bytes)
    (maxBlockData : Z) : result DataError (list SSU2Block) :=
  match msgIDBuf with
  | None => Err ERandom
  | Some buf =>
      let messageID := be_decode buf in
      let i2npType := match data with b :: _ => b | [] => x00 end in
      let shortExpiry := u32 (u32 unix + 120) in
      let maxFirstData := maxBlockData - firstFragHeaderSize in
      if maxFirstData <=? 0 then Err EMTUTooSmall
      else
        let end_ := Z.to_nat maxFirstData in
        let end_ := if decide (length data < end_)%nat then length data else end_ in
        let firstData := [i2npType] ++ be_encode 4 messageID ++ be_encode 4 shortExpiry
                         ++ slice 0 end_ data in
        let maxFollowData := maxBlockData - followOnFragHeaderSize in
        Ok (mkBlock BlockTypeFirstFragment firstData
            :: follow_loop (length data) data messageID maxFollowData end_ 1)
  end.

(** [processBlock] on the fragment blocks. *)
Definition receive_fragment {R : GoRange Z FragmentSet} (h : DataHandler) (b : SSU2Block) (now : Z)
    : DataHandler * option DataError :=
  if decide (Type_ b = BlockTypeFirstFragment) then handleFirstFragment h (Data b) now
  else handleFollowOnFragment h (Data b) now.

(** Blocks arriving one after the other; the errors are collected. *)
Fixpoint receive_all {R : GoRange Z FragmentSet} (h : DataHandler) (l : list (SSU2Block * Z))
    : DataHandler * list (option DataError) :=
  match l with
  | [] => (h, [])
  | (b, now) :: l =>
      let '(h, e) := receive_fragment h b now in
      let '(h, es) := receive_all h l in
      (h, e :: es)
  end.

(** ** Invariant: bounded memory *)

Section Bounded.
Context {R : GoRange Z FragmentSet}.

Inductive dh_step : DataHandler -> DataHandler -> Prop :=
| dh_fragment h b now : dh_step h (receive_fragment h b now).1
| dh_cleanup h timeout now : dh_step h (CleanupExpiredFragments h timeout now).1
| dh_stale h now : dh_step h (cleanupStaleFragments h now).

Definition dh_inv (h : DataHandler) : Prop :=
  (size (fragments h) <= maxFragmentsPerConn)%nat
  /\ (length (messageQueue h) <= queueCap h)%nat.

Lemma make_room_size h :
  (size (fragments h) <= maxFragmentsPerConn)%nat ->
  (size (fragments (make_room h)) < maxFragmentsPerConn)%nat.
Proof.
  intros Hs. unfold make_room. case_decide as Hd; [|lia].
  unfold evictOldestFragment. case_decide as Hz; [unfold maxFragmentsPerConn in *; lia|].
  destruct (scan_oldest_range R CreatedAt (fragments h)) as (k & v & -> & Hk & _).
  { intros He. apply Hz. by rewrite He, map_size_empty. }
  cbn [incrementStat set_fragments fragments]. rewrite map_size_delete, Hk. simpl. lia.
Qed.

Lemma make_room_queue h :
  messageQueue (make_room h) = messageQueue h /\ queueCap (make_room h) = queueCap h.
Proof. unfold make_room, evictOldestFragment. by repeat case_decide. Qed.

Lemma reassemble_inv h id : dh_inv h -> dh_inv (reassembleMessage h id).1.
Proof.
  intros [Hs Hq]. unfold reassembleMessage. destruct (fragments h !! id); [|done].
  destruct (negb _ || _); [done|]. destruct (negb _); [done|].
  pose proof (size_delete_le id (fragments h)).
  unfold enqueue. case_decide; split; cbn [fst incrementStat set_fragments set_queue fragments
    messageQueue queueCap]; try lia. rewrite length_app. simpl. lia.
Qed.

Lemma dh_inv_insert h id fs :
  dh_inv h -> is_Some (fragments h !! id) \/ (size (fragments h) < maxFragmentsPerConn)%nat ->
  dh_inv (set_fragments h (<[id := fs]> (fragments h))).
Proof.
  intros [Hs Hq] Hor. split; [|done]. cbn [set_fragments fragments]. rewrite map_size_insert.
  destruct Hor as [[x ->]|Hlt]; [done|]. destruct (fragments h !! id); simpl; lia.
Qed.

Lemma dh_inv_stat s h : dh_inv h -> dh_inv (incrementStat s h).
Proof. done. Qed.

Lemma make_room_inv h : dh_inv h -> dh_inv (make_room h).
Proof.
  intros [Hs Hq]. pose proof (make_room_size h Hs). destruct (make_room_queue h) as [H1 H2].
  split; [lia|]. by rewrite H1, H2.
Qed.

Lemma receive_fragment_inv h b now : dh_inv h -> dh_inv (receive_fragment h b now).1.
Proof.
  intros Hinv. pose proof (make_room_inv h Hinv) as Hroom.
  pose proof (make_room_size h (proj1 Hinv)) as Hsize.
  unfold receive_fragment. case_decide.
  - unfold handleFirstFragment. destruct (_ <? _); [done|].
    destruct (fragments h !! _) as [fs|] eqn:E.
    + destruct (HasFirst fs); [done|]. cbn [HasLast].
      match goal with |- context [set_fragments h ?m] =>
        assert (Hi : dh_inv (incrementStat SFragmentsReceived (set_fragments h m)))
          by (apply dh_inv_stat, dh_inv_insert; [done|left; by rewrite E]) end.
      destruct (HasLast fs); [by apply reassemble_inv|done].
    + cbn [fst]. apply dh_inv_stat, dh_inv_insert; [done|by right].
  - unfold handleFollowOnFragment. destruct (_ <? _); [done|].
    set (id := be_decode _). set (n := Z.shiftr _ _).
    assert (Hh : forall h1 fs, dh_inv h1 -> is_Some (fragments h1 !! id) ->
      dh_inv (incrementStat SFragmentsReceived (set_fragments h1 (<[id := fs]> (fragments h1)))))
      by (intros; apply dh_inv_stat, dh_inv_insert; [done|by left]).
    destruct (fragments h !! id) as [fs|] eqn:E.
    + destruct (Fragments fs !! n); [done|].
      destruct (_ && _); [apply reassemble_inv|cbn [fst]]; apply Hh; by rewrite ?E.
    + cbn [Fragments]. rewrite lookup_empty. cbn [HasFirst andb].
      cbn [fst]. apply Hh; [apply dh_inv_insert; [done|by right]|].
      cbn [set_fragments fragments]. by rewrite lookup_insert_eq.
Qed.

Lemma cleanup_loop_spec h timeout now :
  cleanup_loop h timeout now
  = (mkDH (messageQueue h) (queueCap h)
       (filter (fun kv => time_sub now (LastUpdate kv.2) <= timeout) (fragments h))
       (fragmentTimeout h)
       (bump (Z.of_nat (size (fragments h)) - Z.of_nat (size
          (filter (fun kv => time_sub now (LastUpdate kv.2) <= timeout) (fragments h))))
          SMessagesDropped (stats h)),
     Z.of_nat (size (fragments h)) - Z.of_nat (size
          (filter (fun kv => time_sub now (LastUpdate kv.2) <= timeout) (fragments h)))).
Proof.
  unfold cleanup_loop. rewrite delete_where_range, Z.add_0_l.
  assert (He : filter (fun kv : Z * FragmentSet => (timeout <? time_sub now (LastUpdate kv.2)) = false)
      (fragments h) = filter (fun kv => time_sub now (LastUpdate kv.2) <= timeout) (fragments h)).
  { apply map_filter_ext. intros i x _. simpl. by rewrite Z.ltb_ge. }
  by rewrite He.
Qed.

Lemma dh_step_inv h h' : dh_step h h' -> dh_inv h -> dh_inv h'.
Proof.
  destruct 1 as [h b now|h timeout now|h now]; intros Hinv; [by apply receive_fragment_inv| |];
    unfold CleanupExpiredFragments, cleanupStaleFragments; rewrite cleanup_loop_spec;
    destruct Hinv as [Hs Hq]; (split; [|done]); cbn [fst fragments];
    (etransitivity; [apply map_subseteq_size, map_filter_subseteq|done]).
Qed.
End Bounded.

(** ** Reassembly in any order *)

Section Reassembly.
Context {R : GoRange Z FragmentSet}.
Variables (ty : byte) (id exp : Z) (chunks : list bytes).
Hypothesis Hid : is_u32 id.
Hypothesis Hexp : is_u32 exp.
Hypothesis Hchunks : (2 <= length chunks <= 128)%nat.

Let lastn : nat := (length chunks - 1)%nat.

(** The fragment [k] of the message, as the sender encodes it. *)
Definition first_data : bytes :=
  [ty] ++ be_encode 4 id ++ be_encode 4 exp ++ chunks !!! 0%nat.

Definition follow_data (k : nat) : bytes :=
  [z2b (2 * Z.of_nat k + (if decide (k = lastn) then 1 else 0))] ++ be_encode 4 id ++ chunks !!! k.

Definition fragment (k : nat) : SSU2Block :=
  if decide (k = 0%nat) then mkBlock BlockTypeFirstFragment first_data
  else mkBlock BlockTypeFollowOnFragment (follow_data k).

(** The message the receiver delivers. *)
Definition message : bytes := [ty] ++ be_encode 4 id ++ be_encode 4 exp ++ concat chunks.

Definition complete (ks : list nat) : Prop := forall j, (j <= lastn)%nat -> j ∈ ks.

(** The fragment set after the fragments [ks] have arrived. *)
Definition gathered (ks : list nat) (fs : FragmentSet) : Prop :=
  MessageID fs = id
  /\ (forall z, Fragments fs !! z
       = if decide (0 <= z /\ Z.to_nat z ∈ ks) then chunks !! Z.to_nat z else None)
  /\ HasFirst fs = bool_decide (0%nat ∈ ks)
  /\ (0%nat ∈ ks -> I2NPType fs = ty /\ ShortExpiration fs = exp)
  /\ HasLast fs = bool_decide (lastn ∈ ks)
  /\ (lastn ∈ ks -> LastFragNum fs = Z.of_nat lastn).

Definition holds (ks : list nat) (h : DataHandler) : Prop :=
  if decide (ks = []) then fragments h !! id = None
  else exists fs, fragments h !! id = Some fs /\ gathered ks fs.

#[local] Instance complete_dec ks : Decision (complete ks).
Proof.
  destruct (decide (Forall (fun j => j ∈ ks) (seq 0 (S lastn)))) as [Hf|Hf].
  - left. intros j Hj. rewrite Forall_forall in Hf. apply Hf. apply elem_of_seq. lia.
  - right. intros Hc. apply Hf, Forall_forall. intros j Hj%elem_of_seq. apply Hc. lia.
Defined.

Lemma gathered_lookup ks fs k :
  gathered ks fs -> (k <= lastn)%nat ->
  Fragments fs !! Z.of_nat k = if decide (k ∈ ks) then Some (chunks !!! k) else None.
Proof.
  intros (_ & Hf & _) Hk. rewrite Hf, Nat2Z.id.
  destruct (decide (k ∈ ks)) as [Hin|Hin].
  - rewrite decide_True by (split; [lia|done]).
    apply list_lookup_lookup_total_lt. unfold lastn in Hk. lia.
  - rewrite decide_False by tauto. done.
Qed.

Lemma gathered_ext ks ks' fs : (forall j, j ∈ ks <-> j ∈ ks') -> gathered ks fs -> gathered ks' fs.
Proof.
  intros He (H1 & H2 & H3 & H4 & H5 & H6). repeat split; try done.
  - intros z. rewrite H2. apply decide_ext. by rewrite He.
  - rewrite H3. by apply bool_decide_ext.
  - by apply H4, He.
  - by apply H4, He.
  - rewrite H5. by apply bool_decide_ext.
  - intros Hl. by apply H6, He.
Qed.

Lemma gathered_present ks fs :
  gathered ks fs -> lastn ∈ ks -> all_present fs = bool_decide (complete ks).
Proof.
  intros Hg Hl. pose proof Hg as (_ & _ & _ & _ & _ & Hn).
  unfold all_present, frag_numbers. rewrite (Hn Hl), Nat2Z.id.
  apply eq_bool_prop_intro. rewrite bool_decide_spec. unfold complete.
  rewrite Is_true_true, forallb_forall. split.
  - intros H j Hj. specialize (H (Z.of_nat j)).
    rewrite (gathered_lookup ks fs j Hg Hj) in H. destruct (decide (j ∈ ks)); [done|].
    discriminate H. apply list_elem_of_In, list_elem_of_fmap. exists j.
    split; [done|]. apply elem_of_seq. lia.
  - intros H z Hz%list_elem_of_In%list_elem_of_fmap. destruct Hz as (j & -> & Hj%elem_of_seq).
    rewrite (gathered_lookup ks fs j Hg) by lia. by rewrite decide_True by (apply H; lia).
Qed.

Lemma assemble_complete ks fs : gathered ks fs -> complete ks -> assemble fs = message.
Proof.
  intros Hg Hc. pose proof Hg as (Hi & _ & _ & Hf & _ & Hl).
  destruct (Hf ltac:(apply Hc; lia)) as [Ht He].
  unfold assemble, message, frag_numbers. rewrite Hi, Ht, He, (Hl ltac:(apply Hc; lia)), Nat2Z.id.
  rewrite <- !app_assoc. do 3 f_equal. rewrite <- list_fmap_compose.
  replace (S lastn) with (length chunks) by (unfold lastn; lia).
  transitivity (concat ((fun j => chunks !!! j) <$> seq 0 (length chunks)));
    [|by rewrite fmap_lookup_total_seq]. f_equal.
  apply list_fmap_ext. intros _ j Hj%list_elem_of_lookup_2%elem_of_seq. simpl.
  rewrite (gathered_lookup ks fs j Hg) by (unfold lastn; lia).
  by rewrite decide_True by (apply Hc; unfold lastn; lia).
Qed.
(** ** Parsing what the sender encodes *)

Lemma first_parse :
  (zlen first_data <? 9) = false /\ z2b (byte_at first_data 0) = ty
  /\ be_decode (slice 1 5 first_data) = id /\ be_decode (slice 5 9 first_data) = exp
  /\ drop 9 first_data = chunks !!! 0%nat.
Proof.
  unfold first_data. split_and!.
  - apply Z.ltb_ge. rewrite !zlen_app. unfold zlen at 1 2 3. rewrite !length_be_encode.
    change (Z.of_nat (length [ty])) with 1. pose proof (zlen_nonneg (chunks !!! 0%nat)). lia.
  - unfold byte_at. cbn. apply z2b_b2z.
  - rewrite slice_app by (rewrite ?length_be_encode; done). by apply be_decode_encode_small.
  - rewrite (app_assoc [ty]), slice_app by (rewrite !length_app, ?length_be_encode; done).
    by apply be_decode_encode_small.
  - by rewrite !app_assoc, drop_app_length' by (rewrite !length_app, !length_be_encode; done).
Qed.

Lemma follow_parse k :
  (0 < k <= lastn)%nat ->
  (zlen (follow_data k) <? 5) = false
  /\ Z.shiftr (byte_at (follow_data k) 0) 1 = Z.of_nat k
  /\ negb (Z.land (byte_at (follow_data k) 0) 1 =? 0) = bool_decide (k = lastn)
  /\ be_decode (slice 1 5 (follow_data k)) = id /\ drop 5 (follow_data k) = chunks !!! k.
Proof.
  intros Hk. unfold follow_data. set (c := if decide _ then 1 else 0).
  assert (Hb : forall r, byte_at ([z2b (2 * Z.of_nat k + c)] ++ r) 0 = 2 * Z.of_nat k + c).
  { intros r. unfold byte_at. cbn. apply b2z_z2b_u8. unfold c, lastn in *. case_decide; lia. }
  assert (Hc01 : 0 <= c < 2) by (unfold c; case_decide; lia).
  rewrite Hb. split_and!.
  - apply Z.ltb_ge. rewrite !zlen_app. unfold zlen at 1 2. rewrite !length_be_encode.
    change (Z.of_nat (length [_])) with 1. pose proof (zlen_nonneg (chunks !!! k)). lia.
  - rewrite Z.shiftr_div_pow2 by lia. change (2 ^ 1) with 2.
    symmetry. apply (Z.div_unique _ 2 _ c); lia.
  - change 1 with (Z.ones 1) at 1. rewrite Z.land_ones by lia. change (2 ^ 1) with 2.
    assert (He : (2 * Z.of_nat k + c) mod 2 = c)
      by (symmetry; apply (Z.mod_unique _ 2 (Z.of_nat k)); lia).
    rewrite He. unfold c. case_decide as Hc; [by rewrite bool_decide_true|by rewrite bool_decide_false].
  - rewrite slice_app by (rewrite ?length_be_encode; done). by apply be_decode_encode_small.
  - by rewrite app_assoc, drop_app_length' by (rewrite length_app, length_be_encode; done).
Qed.

(** ** One fragment *)

(** Delivery: the message is queued and the fragment set is gone. *)
Definition delivered (h h' : DataHandler) : Prop :=
  messageQueue h' = messageQueue h ++ [message] /\ fragments h' !! id = None
  /\ queueCap h' = queueCap h.

Lemma reassemble_gathered h ks fs :
  fragments h !! id = Some fs -> gathered ks fs -> 0%nat ∈ ks -> lastn ∈ ks ->
  (length (messageQueue h) < queueCap h)%nat ->
  let '(h', e) := reassembleMessage h id in
  e = None /\ if decide (complete ks) then delivered h h' else h' = h.
Proof.
  intros Hf Hg H0 Hl Hq. pose proof Hg as (_ & _ & HF & _ & HL & _).
  unfold reassembleMessage. rewrite Hf, HF, HL, !bool_decide_true by done. cbn [negb orb].
  rewrite (gathered_present ks fs Hg Hl). destruct (decide (complete ks)) as [Hc|Hc].
  - rewrite bool_decide_true by done. cbn [negb]. rewrite (assemble_complete ks fs Hg Hc).
    unfold enqueue. rewrite decide_True by done. split; [done|]. split; [done|].
    split; [|done]. cbn. apply lookup_delete_eq.
  - by rewrite bool_decide_false.
Qed.

Lemma frag_insert ks (F : gmap Z bytes) k :
  (forall z, F !! z = if decide (0 <= z /\ Z.to_nat z ∈ ks) then chunks !! Z.to_nat z else None) ->
  (k <= lastn)%nat ->
  forall z, <[Z.of_nat k := chunks !!! k]> F !! z
    = if decide (0 <= z /\ Z.to_nat z ∈ k :: ks) then chunks !! Z.to_nat z else None.
Proof.
  intros HF Hk z. destruct (decide (z = Z.of_nat k)) as [->|Hne].
  - rewrite lookup_insert_eq, Nat2Z.id, decide_True by (split; [lia|by left]).
    symmetry. apply list_lookup_lookup_total_lt. unfold lastn in Hk. lia.
  - rewrite lookup_insert_ne, HF by done. apply decide_ext. rewrite elem_of_cons.
    split; intros [Hz Hin]; (split; [done|]); [by right|]. destruct Hin as [Hin|Hin]; [lia|done].
Qed.

(** What one more fragment [k] does after the fragments [ks]. *)
Definition after (k : nat) (ks : list nat) (h : DataHandler) (r : DataHandler * option DataError)
    : Prop :=
  r.2 = None
  /\ if decide (complete (k :: ks)) then delivered h r.1
     else holds (k :: ks) r.1 /\ messageQueue r.1 = messageQueue h /\ queueCap r.1 = queueCap h.

(** A duplicate changes nothing. *)
Lemma after_duplicate k ks h fs :
  fragments h !! id = Some fs -> gathered ks fs -> k ∈ ks -> ~ complete ks -> after k ks h (h, None).
Proof.
  intros Hf Hg Hk Hc. assert (He : forall j, j ∈ ks <-> j ∈ k :: ks) by set_solver.
  split; [done|]. rewrite decide_False by (intros Hx; apply Hc; intros j Hj; by apply He, Hx).
  split; [|done]. unfold holds. rewrite decide_False by done. exists fs.
  split; [done|]. by eapply gathered_ext.
Qed.

(** Storing the fragment and trying to reassemble. *)
Lemma after_store k ks h h1 fs (ready : bool) :
  messageQueue h1 = messageQueue h -> queueCap h1 = queueCap h ->
  fragments h1 !! id = Some fs -> gathered (k :: ks) fs ->
  (complete (k :: ks) -> ready = true) -> (ready = true -> 0%nat ∈ k :: ks /\ lastn ∈ k :: ks) ->
  (length (messageQueue h) < queueCap h)%nat ->
  after k ks h (if ready then reassembleMessage h1 id else (h1, None)).
Proof.
  intros Hq Hcap Hf Hg Hready Hin Hlen. unfold after.
  assert (Hh : holds (k :: ks) h1) by (unfold holds; rewrite decide_False by done; by exists fs).
  destruct ready.
  - destruct (Hin eq_refl) as [H0 Hl].
    pose proof (reassemble_gathered h1 (k :: ks) fs Hf Hg H0 Hl ltac:(congruence)) as Hr.
    destruct (reassembleMessage h1 id) as [h2 e]. destruct Hr as [-> Hr]. split; [done|].
    destruct (decide (complete (k :: ks))); cbn [fst].
    + destruct Hr as (H1 & H2 & H3). split; [by rewrite H1, Hq|]. split; [done|]. by rewrite H3.
    + by subst h2.
  - split; [done|]. rewrite decide_False by (intros Hc; discriminate (Hready Hc)). done.
Qed.

Lemma first_step h ks now :
  holds ks h -> ~ complete ks -> (length (messageQueue h) < queueCap h)%nat ->
  after 0 ks h (handleFirstFragment h first_data now).
Proof.
  intros Hh Hnc Hq. destruct first_parse as (P1 & P2 & P3 & P4 & P5).
  unfold handleFirstFragment. rewrite P1, P2, P3, P4, P5. unfold holds in Hh.
  destruct (decide (ks = [])) as [->|Hks].
  - rewrite Hh. destruct (make_room_queue h) as [M1 M2].
    match goal with |- after _ _ _ (?x, None) => change (x, None) with
      (if false then reassembleMessage x id else (x, @None DataError)) end.
    eapply after_store; [exact M1|exact M2|apply lookup_insert_eq| |..|done|done].
    + split; [done|]. split; [|split; [by rewrite bool_decide_true by left|]].
      * apply (frag_insert [] ∅ 0); [|lia]. intros z. rewrite lookup_empty.
        by rewrite decide_False by (intros [_ []%elem_of_nil]).
      * split; [done|]. assert (Hl : lastn ∉ [0%nat]) by (unfold lastn; set_unfold; lia).
        split; [by rewrite bool_decide_false|done].
    + intros Hc. specialize (Hc lastn ltac:(lia)). unfold lastn in Hc. set_unfold. lia.
  - destruct Hh as (fs & Hf & Hg). pose proof Hg as (G1 & G2 & G3 & G4 & G5 & G6).
    rewrite Hf, G3. destruct (decide (0%nat ∈ ks)) as [Hin|Hin].
    { rewrite bool_decide_true by done. by eapply after_duplicate. }
    rewrite bool_decide_false by done. cbn [HasLast]. rewrite G5.
    eapply after_store; [reflexivity|reflexivity|apply lookup_insert_eq| |..|done].
    + split; [done|]. split; [by apply (frag_insert ks _ 0); [|lia]|].
      split; [cbn [HasFirst]; by rewrite bool_decide_true by left|]. split; [done|].
      assert (Hl : lastn ∈ 0%nat :: ks <-> lastn ∈ ks)
        by (rewrite elem_of_cons; unfold lastn; naive_solver lia).
      split; [by apply bool_decide_ext|]. intros Hx. by apply G6, Hl.
    + intros Hc. apply bool_decide_true.
      destruct (proj1 (elem_of_cons ks lastn 0%nat) (Hc lastn ltac:(lia))); [unfold lastn in *; lia|done].
    + intros Hl%bool_decide_eq_true. set_solver.
Qed.
Lemma gathered_store k ks fs now :
  (0 < k <= lastn)%nat -> gathered ks fs ->
  gathered (k :: ks)
    (mkFS (MessageID fs) (I2NPType fs) (ShortExpiration fs)
       (<[Z.of_nat k := chunks !!! k]> (Fragments fs))
       (u32 (ReceivedSize fs + u32 (zlen (chunks !!! k))))
       (if bool_decide (k = lastn) then true else HasLast fs) (HasFirst fs)
       (if bool_decide (k = lastn) then Z.of_nat k else LastFragNum fs) (CreatedAt fs) now).
Proof.
  intros Hk (G1 & G2 & G3 & G4 & G5 & G6).
  assert (H0 : 0%nat ∈ k :: ks <-> 0%nat ∈ ks) by (rewrite elem_of_cons; naive_solver lia).
  split; [done|]. split; [by apply frag_insert; [|lia]|]. cbn [HasFirst HasLast LastFragNum].
  split; [rewrite G3; by apply bool_decide_ext|].
  split; [intros Hx; by apply G4, H0|]. rewrite G5.
  destruct (decide (k = lastn)) as [He|He].
  - rewrite !(bool_decide_true (k = lastn)) by done. rewrite He.
    split; [by rewrite bool_decide_true by left|done].
  - rewrite !(bool_decide_false (k = lastn)) by done.
    assert (Hl : lastn ∈ k :: ks <-> lastn ∈ ks) by (rewrite elem_of_cons; naive_solver).
    split; [by apply bool_decide_ext|]. intros Hx. by apply G6, Hl.
Qed.

Lemma gathered_new now : gathered [] (mkFS id x00 0 ∅ 0 false false 0 now now).
Proof.
  split; [done|]. split.
  - intros z. cbn [Fragments]. rewrite lookup_empty.
    by rewrite decide_False by (intros [_ []%elem_of_nil]).
  - rewrite !bool_decide_false by (by intros ?%elem_of_nil).
    split; [done|]. split; [by intros ?%elem_of_nil|]. split; [done|by intros ?%elem_of_nil].
Qed.

Lemma follow_step h k ks now :
  (0 < k <= lastn)%nat -> holds ks h -> ~ complete ks ->
  (length (messageQueue h) < queueCap h)%nat ->
  after k ks h (handleFollowOnFragment h (follow_data k) now).
Proof.
  intros Hk Hh Hnc Hq. destruct (follow_parse k Hk) as (P1 & P2 & P3 & P4 & P5).
  unfold handleFollowOnFragment. rewrite P1, P2, P3, P4, P5.
  assert (Hs : forall h0 fs, messageQueue h0 = messageQueue h -> queueCap h0 = queueCap h ->
    fragments h0 !! id = Some fs -> gathered ks fs ->
    after k ks h
      match Fragments fs !! Z.of_nat k with
      | Some _ => (h0, None)
      | None =>
          let fs' := mkFS (MessageID fs) (I2NPType fs) (ShortExpiration fs)
            (<[Z.of_nat k := chunks !!! k]> (Fragments fs))
            (u32 (ReceivedSize fs + u32 (zlen (chunks !!! k))))
            (if bool_decide (k = lastn) then true else HasLast fs) (HasFirst fs)
            (if bool_decide (k = lastn) then Z.of_nat k else LastFragNum fs) (CreatedAt fs) now in
          let h1 := incrementStat SFragmentsReceived
                      (set_fragments h0 (<[id := fs']> (fragments h0))) in
          if HasFirst fs' && HasLast fs' then reassembleMessage h1 id else (h1, None)
      end).
  { intros h0 fs Q1 Q2 Hf Hg. rewrite (gathered_lookup ks fs k Hg) by lia.
    destruct (decide (k ∈ ks)) as [Hin|Hin].
    - pose proof (after_duplicate k ks h0 fs Hf Hg Hin Hnc) as [_ Ha]. split; [done|].
      unfold delivered in *. rewrite <- Q1, <- Q2. exact Ha.
    - pose proof (gathered_store k ks fs now Hk Hg) as Hg'. cbv zeta.
      pose proof Hg' as (_ & _ & F1 & _ & F2 & _).
      eapply after_store; [exact Q1|exact Q2|apply lookup_insert_eq|exact Hg'| | |done].
      + intros Hc. rewrite F1, F2. rewrite !bool_decide_true by (apply Hc; lia). done.
      + rewrite F1, F2. intros [H0%bool_decide_eq_true Hl%bool_decide_eq_true]%andb_prop. done. }
  unfold holds in Hh. destruct (decide (ks = [])) as [->|Hks].
  - rewrite Hh. destruct (make_room_queue h) as [M1 M2].
    apply (Hs (set_fragments (make_room h) (<[id := mkFS id x00 0 ∅ 0 false false 0 now now]>
      (fragments (make_room h))))); [exact M1|exact M2|apply lookup_insert_eq|apply gathered_new].
  - destruct Hh as (fs & Hf & Hg). rewrite Hf. by apply Hs.
Qed.

Lemma fragment_step h k ks now :
  (k <= lastn)%nat -> holds ks h -> ~ complete ks ->
  (length (messageQueue h) < queueCap h)%nat ->
  after k ks h (receive_fragment h (fragment k) now).
Proof.
  intros Hk Hh Hnc Hq. unfold receive_fragment, fragment. destruct (decide (k = 0%nat)) as [->|Hne].
  - rewrite decide_True by done. by apply first_step.
  - rewrite decide_False by done. apply follow_step; [lia|done..].
Qed.

(** All fragments up to the one that completes the message. *)
Lemma fragments_deliver (h : DataHandler) (ks : list (nat * Z)) :
  forall seen, holds seen h -> ~ complete seen -> (length (messageQueue h) < queueCap h)%nat ->
  Forall (fun '(k, _) => k <= lastn)%nat ks ->
  (forall ks1 k ks2, ks = ks1 ++ k :: ks2 -> ~ complete (reverse ks1.*1 ++ seen)) ->
  complete (reverse ks.*1 ++ seen) ->
  let '(h', es) := receive_all h ((fun '(k, now) => (fragment k, now)) <$> ks) in
  delivered h h' /\ Forall (fun e => e = None) es.
Proof.
  revert h. induction ks as [|[k now] ks IH]; intros h seen Hh Hnc Hq Hall Hinc Hcomp.
  { by destruct Hnc. }
  rewrite fmap_cons. cbn [receive_all]. inversion_clear Hall as [|? ? Hk Hall'].
  pose proof (fragment_step h k seen now Hk Hh Hnc Hq) as Hstep.
  destruct (receive_fragment h (fragment k) now) as [h1 e]. destruct Hstep as [He Hs].
  cbn [fst snd] in *. destruct ks as [|k2 ks].
  - cbn. rewrite decide_True in Hs by done. split; [done|]. by repeat constructor.
  - assert (Hnc1 : ~ complete (k :: seen)) by (apply (Hinc [(k, now)] k2 ks eq_refl)).
    rewrite decide_False in Hs by done. destruct Hs as (Hh1 & Hq1 & Hc1).
    specialize (IH h1 (k :: seen) Hh1 Hnc1 ltac:(congruence) Hall').
    destruct (receive_all h1 _) as [h2 es]. destruct IH as [Hd Hes].
    + intros ks1 k' ks2 Heq. specialize (Hinc ((k, now) :: ks1) k' ks2).
      rewrite fmap_cons, reverse_cons, <- app_assoc in Hinc. apply Hinc. by rewrite Heq.
    + by rewrite fmap_cons, reverse_cons, <- app_assoc in Hcomp.
    + split; [|by constructor]. unfold delivered in *. by rewrite <- Hq1, <- Hc1.
Qed.
End Reassembly.

(** ** The sender's fragments *)

Lemma lor_even_1 n : Z.lor (2 * n) 1 = 2 * n + 1.
Proof. destruct n as [|p|p]; [done|done|]. by destruct p. Qed.

Lemma frag_info_value n (last : bool) :
  0 <= n < 128 -> (if last then Z.lor (u8 (Z.shiftl n 1)) 1 else u8 (Z.shiftl n 1))
                  = 2 * n + (if last then 1 else 0).
Proof.
  intros Hn. rewrite Z.shiftl_mul_pow2, u8_small by (unfold is_u8; lia).
  change (2 ^ 1) with 2. rewrite (Z.mul_comm n). destruct last; [apply lor_even_1|lia].
Qed.

(** The follow-on blocks carry consecutive pieces of the rest of the message. *)
Lemma follow_loop_spec fuel data id m offset n :
  0 < m -> (offset <= length data)%nat -> (length data <= fuel + offset)%nat -> 0 <= n ->
  exists ds, concat ds = drop offset data /\ length (follow_loop fuel data id m offset n) = length ds
    /\ (n + zlen ds <= 128 -> forall i d, ds !! i = Some d ->
        follow_loop fuel data id m offset n !! i = Some (mkBlock BlockTypeFollowOnFragment
          ([z2b (2 * (n + Z.of_nat i) + (if decide (S i = length ds) then 1 else 0))]
           ++ be_encode 4 id ++ d))).
Proof.
  intros Hm. revert offset n. induction fuel as [|fuel IH]; intros offset n Ho Hf Hn.
  { exists []. rewrite drop_ge by lia. done. }
  cbn [follow_loop]. destruct (decide (offset < length data)%nat) as [Hlt|Hge];
    [|exists []; rewrite drop_ge by lia; done].
  set (fe := if decide (length data < _)%nat then _ else _).
  assert (Hfe : (offset < fe <= length data)%nat) by (unfold fe; case_decide; lia).
  destruct (IH fe (u8 (n + 1))) as (ds & Hc & Hl & Hd); [lia|lia|apply u8_bound|].
  exists (slice offset fe data :: ds). split_and!.
  - cbn [concat]. rewrite Hc. unfold slice.
    replace (drop fe data) with (drop (fe - offset) (drop offset data))
      by (rewrite drop_drop; f_equal; lia). apply take_drop.
  - cbn [length]. by rewrite Hl.
  - rewrite zlen_cons. intros Hle i d Hi. pose proof (zlen_nonneg ds).
    assert (Hlast : bool_decide (fe = length data) = bool_decide (ds = [])).
    { apply bool_decide_ext. split.
      - intros He. rewrite He, drop_ge in Hc by lia. destruct ds as [|d0 ds]; [done|].
        exfalso. rewrite He in Hl. destruct fuel; [done|]. cbn [follow_loop] in Hl.
        rewrite decide_False in Hl by lia. done.
      - intros ->. destruct (decide (fe = length data)) as [|Hne]; [done|]. exfalso.
        assert (Hx : length (drop fe data) = 0%nat) by (by rewrite <- Hc). rewrite length_drop in Hx. lia. }
    destruct i as [|i].
    + rewrite lookup_cons in *. injection Hi as <-. rewrite Hlast, Z.add_0_r.
      rewrite (frag_info_value n (bool_decide (ds = []))) by lia.
      do 4 f_equal. destruct ds as [|d0 ds]; [done|]. rewrite bool_decide_false by done.
      by rewrite decide_False by (cbn; lia).
    + rewrite lookup_cons in *.
      rewrite (u8_small (n + 1)) in * by (unfold is_u8; lia).
      rewrite (Hd ltac:(lia) i d Hi). cbn [length].
      replace (n + 1 + Z.of_nat i) with (n + Z.of_nat (S i)) by lia.
      destruct (decide (S i = length ds)); [rewrite decide_True by lia|rewrite decide_False by lia]; done.
Qed.

(** The sender's blocks are the fragments of consecutive pieces of the data. *)
Lemma build_spec buf unix data mx blocks :
  Z.of_nat (length data) > mx ->
  buildI2NPFragmentBlocks (Some buf) unix data mx = Ok blocks -> (length blocks <= 128)%nat ->
  exists chunks, concat chunks = data /\ (2 <= length chunks <= 128)%nat
    /\ blocks = fragment (match data with b :: _ => b | [] => x00 end) (be_decode buf)
                  (u32 (u32 unix + 120)) chunks <$> seq 0 (length chunks).
Proof.
  intros Hlen. unfold buildI2NPFragmentBlocks, firstFragHeaderSize, followOnFragHeaderSize.
  destruct (Z.leb_spec (mx - 9) 0) as [|Hmx]; [done|].
  rewrite (decide_False (P := (length data < Z.to_nat (mx - 9))%nat)) by lia.
  destruct (follow_loop_spec (length data) data (be_decode buf) (mx - 5) (Z.to_nat (mx - 9)) 1)
    as (ds & Hc & Hl & Hd); [lia..|].
  intros <-%Ok_inj. cbn [length]. rewrite Hl. intros Hn.
  exists (slice 0 (Z.to_nat (mx - 9)) data :: ds). cbn [concat length].
  assert (Hds : ds <> []).
  { intros ->. assert (Hx : length (drop (Z.to_nat (mx - 9)) data) = 0%nat) by (by rewrite <- Hc).
    rewrite length_drop in Hx. lia. }
  split_and!; [|destruct ds; [done|cbn; lia]|lia|].
  - rewrite Hc. unfold slice. rewrite drop_0, Nat.sub_0_r. apply take_drop.
  - cbn [seq]. rewrite fmap_cons. f_equal. apply list_eq. intros i.
    rewrite list_lookup_fmap. destruct (decide (i < length ds)%nat) as [Hi|Hi].
    + destruct (lookup_lt_is_Some_2 ds i Hi) as [d Hid]. rewrite lookup_seq_lt by done.
      rewrite (Hd ltac:(unfold zlen; lia) i d Hid). cbn [fmap option_fmap option_map].
      unfold fragment, follow_data. rewrite (decide_False (P := (1 + i)%nat = 0%nat)) by lia.
      do 2 f_equal. f_equal; [|f_equal].
      * do 3 f_equal; [lia|]. apply decide_ext. cbn [length]. lia.
      * cbn [lookup_total list_lookup_total Nat.add]. symmetry. by apply list_lookup_total_correct.
    + rewrite lookup_seq_ge by lia. apply lookup_ge_None_2. lia.
Qed.

Lemma fragment_inj ty id exp chunks j k :
  is_u32 id -> (2 <= length chunks <= 128)%nat ->
  (j < length chunks)%nat -> (k < length chunks)%nat ->
  fragment ty id exp chunks j = fragment ty id exp chunks k -> j = k.
Proof.
  intros Hid Hc Hj Hk. unfold fragment.
  destruct (decide (j = 0%nat)) as [->|Hj0]; destruct (decide (k = 0%nat)) as [->|Hk0]; try done.
  intros Heq. assert (Hd : follow_data id chunks j = follow_data id chunks k) by congruence.
  destruct (follow_parse id chunks Hid Hc j) as (_ & P1 & _); [lia|].
  destruct (follow_parse id chunks Hid Hc k) as (_ & P2 & _); [lia|].
  rewrite Hd in P1. lia.
Qed.

(** Arrivals drawn from the fragments are given by fragment numbers. *)
Definition numbered (f : nat -> SSU2Block) (ks : list (nat * Z)) : list (SSU2Block * Z) :=
  (fun '(k, now) => (f k, now)) <$> ks.

Lemma numbered_fst f ks : (numbered f ks).*1 = f <$> ks.*1.
Proof.
  unfold numbered. rewrite <- !list_fmap_compose. apply list_fmap_ext. by intros _ [k t] _.
Qed.

Lemma numbered_exists f n (l : list (SSU2Block * Z)) :
  Forall (fun a => a.1 ∈ f <$> seq 0 n) l ->
  exists ks, l = numbered f ks /\ Forall (fun '(k, _) => k <= n - 1)%nat ks.
Proof.
  induction 1 as [|[b t] l Hbl Hin (ks & -> & Hks)]; [by exists []|].
  simpl in Hbl. apply list_elem_of_fmap in Hbl as (k & -> & Hk%elem_of_seq).
  exists ((k, t) :: ks). split; [done|]. constructor; [lia|done].
Qed.

(** Every proper prefix of the arrivals is a prefix of all but the last. *)
Lemma numbered_prefix f arrivals (final : SSU2Block * Z) ks ks1 k ks2 :
  arrivals ++ [final] = numbered f ks -> ks = ks1 ++ k :: ks2 ->
  forall j, j ∈ ks1.*1 -> f j ∈ arrivals.*1.
Proof.
  intros Heq Hsplit j Hj.
  assert (Hpre : arrivals.*1 = take (length arrivals) ((arrivals ++ [final]).*1)).
  { by rewrite fmap_app, take_app_length' by (by rewrite length_fmap). }
  assert (Hle : (length ks1 <= length arrivals)%nat).
  { apply (f_equal length) in Heq. unfold numbered in Heq.
    rewrite Hsplit, length_app, length_fmap, length_app in Heq. cbn in Heq. lia. }
  rewrite Hpre, Heq, numbered_fst, Hsplit, fmap_app, fmap_app.
  rewrite take_app_ge by (by rewrite !length_fmap). apply elem_of_app. left.
  apply list_elem_of_fmap. by exists j.
Qed.

Section Theorems.
Context {R : GoRange Z FragmentSet}.

(** whatever fragments a peer sends and whenever the clean-up runs, a
    connection never holds more than 512 partial messages, nor more queued
    messages than its queue takes. *)
Theorem fragments_bounded (h h' : DataHandler) :
  (size (fragments h) <= maxFragmentsPerConn)%nat -> (length (messageQueue h) <= queueCap h)%nat ->
  rtc dh_step h h' ->
  (size (fragments h') <= maxFragmentsPerConn)%nat
  /\ (length (messageQueue h') <= queueCap h')%nat.
Proof.
  intros Hs Hq Hr. change (dh_inv h'). assert (Hinv : dh_inv h) by done.
  clear Hs Hq. induction Hr as [|x y z Hxy Hr IH]; [done|]. apply IH. by eapply dh_step_inv.
Qed.

(** C22: fragmentation and reassembly. Suppose that [buildI2NPFragmentBlocks] cuts a
    message that does not fit one packet into at most 128 blocks, and that the receiving
    handler has no partial message with that message ID and room in its queue. Then the
    message is delivered exactly when the last missing block arrives: for any order of
    arrival, with any repetitions before that, no error is reported, the queue gains
    exactly one entry and nothing of the partial message is kept. The entry is the data
    with nine bytes in front of it (its first byte as the type, the message ID and the
    expiration), which a message that was not fragmented does not get. *)
Theorem fragmentation_roundtrip (h : DataHandler) (buf data : bytes) (unix mx : Z)
    (blocks : list SSU2Block) (arrivals : list (SSU2Block * Z)) (final : SSU2Block * Z) :
  length buf = 4%nat -> Z.of_nat (length data) > mx ->
  buildI2NPFragmentBlocks (Some buf) unix data mx = Ok blocks -> (length blocks <= 128)%nat ->
  fragments h !! be_decode buf = None -> (length (messageQueue h) < queueCap h)%nat ->
  Forall (fun a => a.1 ∈ blocks) (arrivals ++ [final]) ->
  Exists (fun b => b ∉ arrivals.*1) blocks ->
  Forall (fun b => b ∈ (arrivals ++ [final]).*1) blocks ->
  let '(h', errors) := receive_all h (arrivals ++ [final]) in
  messageQueue h' = messageQueue h
    ++ [take 1 data ++ buf ++ be_encode 4 (u32 (u32 unix + 120)) ++ data]
  /\ fragments h' !! be_decode buf = None
  /\ Forall (fun e => e = None) errors.
Proof.
  intros Hbuf Hlen Hbuild Hn Hfree Hq Hin Hmiss Hall.
  destruct (build_spec buf unix data mx blocks Hlen Hbuild Hn) as (chunks & Hc & Hl & Hb).
  set (ty := match data with b :: _ => b | [] => x00 end) in *.
  set (exp := u32 (u32 unix + 120)) in *.
  assert (Hid : is_u32 (be_decode buf)).
  { pose proof (be_decode_bound buf) as Hbd. unfold zlen in Hbd. rewrite Hbuf in Hbd. exact Hbd. }
  rewrite Hb in Hin. destruct (numbered_exists _ _ _ Hin) as (ks & Heq & Hks). rewrite Heq.
  pose proof (fragments_deliver ty (be_decode buf) exp chunks Hid (u32_bound _) Hl h ks []) as Hd.
  fold (numbered (fragment ty (be_decode buf) exp chunks) ks) in Hd.
  destruct (receive_all h _) as [h' es]. destruct Hd as [(Hm & Hf & _) Hes]; try done.
  - intros Hx. by specialize (Hx 0%nat ltac:(lia)) as ?%elem_of_nil.
  - intros ks1 k ks2 Hsplit Hx. apply Exists_exists in Hmiss as (b & Hbi & Hni). apply Hni.
    rewrite Hb in Hbi. apply list_elem_of_fmap in Hbi as (j & -> & Hj%elem_of_seq).
    eapply numbered_prefix; [done..|]. specialize (Hx j ltac:(lia)). rewrite app_nil_r in Hx.
    by apply elem_of_reverse.
  - intros j Hj. rewrite app_nil_r, elem_of_reverse. rewrite Forall_forall in Hall.
    assert (Hjb : fragment ty (be_decode buf) exp chunks j ∈ blocks)
      by (rewrite Hb; apply list_elem_of_fmap; exists j; split; [done|]; apply elem_of_seq; lia).
    specialize (Hall _ Hjb). rewrite Heq, numbered_fst in Hall.
    apply list_elem_of_fmap in Hall as (k & Hjk & Hk).
    assert (Hkl : (k < length chunks)%nat).
    { apply list_elem_of_fmap in Hk as ([k' t] & -> & Hk). rewrite Forall_forall in Hks.
      specialize (Hks _ Hk). simpl in *. lia. }
    rewrite (fragment_inj ty (be_decode buf) exp chunks j k Hid Hl) by (done || lia). done.
  - split_and!; [|done|done]. rewrite Hm. unfold message. rewrite Hc, be_encode_decode by done.
    do 2 f_equal. destruct data; [|done]. unfold buildI2NPFragmentBlocks in Hbuild.
    exfalso. destruct (Z.leb_spec (mx - firstFragHeaderSize) 0); [done|].
    unfold firstFragHeaderSize in *. cbn in Hlen. lia.
Qed.
End Theorems.

(** ** Findings and witnesses *)

Definition demo_fragment_range : GoRange Z FragmentSet := range_map_to_list Z FragmentSet.

Definition demo_data : bytes := z2b ∘ Z.of_nat <$> seq 65 20.

Definition demo_blocks : list SSU2Block :=
  match buildI2NPFragmentBlocks (Some [x00; x00; x00; x07]) 1000 demo_data 14 with
  | Ok blocks => blocks
  | Err _ => []
  end.

(** A message that fits one packet reaches the peer's queue as it is; the same
    bytes fragmented reach it behind nine more: the header of the fragments, whose
    type byte repeats the first byte of the data. *)
Lemma fragmented_message_differs :
  messageQueue (receive_all (R := demo_fragment_range) (NewDataHandler 4)
    ((fun b => (b, 1)) <$> demo_blocks)).1
  = [take 1 demo_data ++ [x00; x00; x00; x07] ++ [x00; x00; x04; x60] ++ demo_data].
Proof. vm_compute. reflexivity. Qed.

(** 129 blocks are one too many: the number of the last fragment is shifted out of
    its byte, it collides with the first fragment, and nothing is delivered. *)
Lemma too_many_fragments_lost :
  match buildI2NPFragmentBlocks (Some [x00; x00; x00; x07]) 1000
          (replicate (5 + 9 * 128) x41) 14 with
  | Ok blocks => length blocks = 129%nat
      /\ messageQueue (receive_all (R := demo_fragment_range) (NewDataHandler 4)
           ((fun b => (b, 1)) <$> blocks)).1 = []
  | Err _ => False
  end.
Proof. vm_compute. split; reflexivity. Qed.

Lemma fragmentation_roundtrip_witness :
  exists a b c,
  demo_blocks = [a; b; c] /\
  let '(h', _) := receive_all (R := demo_fragment_range) (NewDataHandler 4)
                    [(c, 1); (a, 2); (c, 3); (b, 4)] in
  messageQueue h' = [take 1 demo_data ++ [x00; x00; x00; x07] ++ [x00; x00; x04; x60] ++ demo_data].
Proof.
  destruct demo_blocks as [|a [|b [|c [|d l]]]] eqn:E; try (vm_compute in E; discriminate E).
  exists a, b, c. split; [reflexivity|].
  pose proof (fragmentation_roundtrip (R := demo_fragment_range) (NewDataHandler 4)
    [x00; x00; x00; x07] demo_data 1000 14 demo_blocks [(c, 1); (a, 2); (c, 3)] (b, 4)) as H.
  rewrite E in H. cbn [app] in H.
  destruct (receive_all (NewDataHandler 4) _) as [h' es]. apply H.
  - reflexivity.
  - reflexivity.
  - rewrite <- E. vm_compute. reflexivity.
  - cbn. lia.
  - reflexivity.
  - cbn. lia.
  - clear E H. repeat (constructor; [cbn; rewrite !elem_of_cons; tauto|]). constructor.
  - vm_compute in E. injection E as <- <- <-. apply Exists_exists.
    eexists. split; [right; left|]. vm_compute. intros Hx.
    repeat (apply elem_of_cons in Hx as [Hx|Hx]; [discriminate Hx|]). by apply elem_of_nil in Hx.
  - clear E H. repeat (constructor; [cbn; rewrite !elem_of_cons; tauto|]). constructor.
Defined.

Lemma fragments_bounded_witness :
  (size (fragments (receive_fragment (R := demo_fragment_range) (NewDataHandler 4)
     (mkBlock BlockTypeFollowOnFragment [x02; x00; x00; x00; x07; x41]) 1).1)
   <= maxFragmentsPerConn)%nat.
Proof.
  apply (fragments_bounded (R := demo_fragment_range) (NewDataHandler 4)).
  - vm_compute. lia.
  - vm_compute. lia.
  - apply rtc_once. apply dh_fragment.
Defined.
