(* ===== verification/DataPhase.v ===== *)
(** * Data-phase packet processing

    [ssu2/session/data_handler.go] and [ssu2/session/i2np_handler.go]: a Data
    packet is cut into blocks, each block goes to its handler, complete I2NP
    messages end up in the queue.

    The callbacks are functions of the connection; a handler's result lists the
    callbacks it invoked. The relay and peer-test decoders live in the package
    [github.com/go-i2p/path], which is not part of the repository, and are the
    operations of the class [PathLib]. *)

From Stdlib Require Import Strings.Byte.
From stdpp Require Import base numbers list gmap.
From S2P Require Import Prelude Block Packet Fragments.

#[local] Open Scope Z_scope.

Class PathLib := {
  RelayRequestBlock : Type;
  RelayResponseBlock : Type;
  RelayIntroBlock : Type;
  PeerTestBlock : Type;
  DecodeError : Type;
  DecodeRelayRequest : SSU2Block -> result DecodeError RelayRequestBlock;
  DecodeRelayResponse : SSU2Block -> result DecodeError RelayResponseBlock;
  DecodeRelayIntro : SSU2Block -> result DecodeError RelayIntroBlock;
  DecodePeerTestBlock : SSU2Block -> result DecodeError PeerTestBlock;
  RelayRequest_Signature : RelayRequestBlock -> bytes;
  RelayResponse_Signature : RelayResponseBlock -> bytes;
  RelayResponse_Code : RelayResponseBlock -> Z;
  RelayIntro_Signature : RelayIntroBlock -> bytes;
  PeerTest_Signature : PeerTestBlock -> bytes;
  PeerTest_MessageCode : PeerTestBlock -> Z;
  PeerTestRequest : Z;
  PeerTestResult : Z;
}.

(** Invocations of the callbacks. *)
Inductive Event :=
| CallTermination (validDataReceived : Z) (reason : byte) (additionalData : bytes)
| CallNewToken (token : bytes)
| CallRelayRequest (block : SSU2Block)
| CallRelayResponse (block : SSU2Block)
| CallRelayIntro (block : SSU2Block)
| CallRelayTagRequest (block : SSU2Block)
| CallRelayTag (block : SSU2Block)
| CallPeerTest (block : SSU2Block)
| CallPathChallenge (data : bytes)
| CallPathResponse (data : bytes)
| CallRouterInfo (data : bytes)
| CallOptions (data : bytes)
| CallAddress (data : bytes)
| CallACK (block : SSU2Block)
| CallDateTime (timestamp : Z)
| CallNextNonce (newNonce : Z)
| CallFirstPacketNumber (packetNumber : Z)
| CallCongestion (flags : byte).

Section Handlers.
Context `{P : PathLib} {CbError : Type}.

(** [None] is a nil callback. *)
Record DataHandlerCallbacks := mkCallbacks {
  OnTermination : option unit;
  OnNewToken : option unit;
  OnRelayRequest : option (SSU2Block -> option CbError);
  OnRelayResponse : option (SSU2Block -> option CbError);
  OnRelayIntro : option (SSU2Block -> option CbError);
  OnRelayTagRequest : option (SSU2Block -> option CbError);
  OnRelayTag : option (SSU2Block -> option CbError);
  OnPeerTest : option (SSU2Block -> option CbError);
  OnPathChallenge : option (bytes -> option CbError);
  OnPathResponse : option (bytes -> option CbError);
  OnRouterInfo : option (bytes -> option CbError);
  OnOptions : option (bytes -> option CbError);
  OnAddress : option (bytes -> option CbError);
  OnACK : option (SSU2Block -> option CbError);
  OnDateTime : option (Z -> option CbError);
  OnNextNonce : option (Z -> option CbError);
  OnFirstPacketNumber : option (Z -> option CbError);
  OnCongestion : option (byte -> option CbError);
  VerifyPeerTestSignature : option (PeerTestBlock -> option CbError);
  VerifyRelayRequestSignature : option (RelayRequestBlock -> option CbError);
  VerifyRelayResponseSignature : option (RelayResponseBlock -> option CbError);
  VerifyRelayIntroSignature : option (RelayIntroBlock -> option CbError);
}.

Inductive HandlerError :=
| ETooShort (t : byte) (n : Z)
| EDecode (e : DecodeError)
| EMissingSignature
| ESignatureInvalid (e : CbError)
| ECallback (e : CbError).

(** What a handler does: the callbacks it invokes and the error it returns. *)
Definition outcome : Type := list Event * option HandlerError.

(** [if cbs.OnX != nil { return cbs.OnX(arg) }; return nil] *)
Definition call {A} (cb : option (A -> option CbError)) (arg : A) (ev : Event) : outcome :=
  match cb with
  | Some f => ([ev], ECallback <$> f arg)
  | None => ([], None)
  end.

Definition handleTermination (cbs : DataHandlerCallbacks) (data : bytes) : outcome :=
  if zlen data <? 9 then ([], Some (ETooShort BlockTypeTermination (zlen data)))
  else
    let validDataReceived := be_decode (slice 0 8 data) in
    let reason := z2b (byte_at data 8) in
    let additionalData := drop 9 data in
    match OnTermination cbs with
    | Some _ => ([CallTermination validDataReceived reason additionalData], None)
    | None => ([], None)
    end.

Definition handleNewToken (cbs : DataHandlerCallbacks) (data : bytes) : outcome :=
  if zlen data <? 12 then ([], Some (ETooShort BlockTypeNewToken (zlen data)))
  else match OnNewToken cbs with Some _ => ([CallNewToken data], None) | None => ([], None) end.

Definition handleNextNonce (cbs : DataHandlerCallbacks) (data : bytes) : outcome :=
  if zlen data <? 8 then ([], Some (ETooShort BlockTypeNextNonce (zlen data)))
  else let newNonce := be_decode (slice 0 8 data) in
       call (OnNextNonce cbs) newNonce (CallNextNonce newNonce).

Definition handleFirstPacketNumber (cbs : DataHandlerCallbacks) (data : bytes) : outcome :=
  if zlen data <? 4 then ([], Some (ETooShort BlockTypeFirstPacketNumber (zlen data)))
  else let packetNumber := be_decode (slice 0 4 data) in
       call (OnFirstPacketNumber cbs) packetNumber (CallFirstPacketNumber packetNumber).

Definition handleCongestion (cbs : DataHandlerCallbacks) (data : bytes) : outcome :=
  if zlen data <? 1 then ([], Some (ETooShort BlockTypeCongestion (zlen data)))
  else let flags := z2b (byte_at data 0) in
       call (OnCongestion cbs) flags (CallCongestion flags).

Definition handleDateTime (cbs : DataHandlerCallbacks) (data : bytes) : outcome :=
  if zlen data <? 4 then ([], Some (ETooShort BlockTypeDateTime (zlen data)))
  else
    let timestamp :=
      Z.lor (Z.lor (Z.lor (u32 (Z.shiftl (byte_at data 0) 24)) (u32 (Z.shiftl (byte_at data 1) 16)))
               (u32 (Z.shiftl (byte_at data 2) 8))) (byte_at data 3) in
    call (OnDateTime cbs) timestamp (CallDateTime timestamp).

(** [handleSignedRelayBlock]: the closures of its callers are the decoded
    signature, the verification and the dispatch. *)
Definition handleSignedRelayBlock (decode : result DecodeError bytes)
    (verify : option CbError) (dispatch : outcome) : outcome :=
  match decode with
  | Err e => ([], Some (EDecode e))
  | Ok sig =>
      if decide (length sig = 0%nat) then ([], Some EMissingSignature)
      else match verify with
           | Some e => ([], Some (ESignatureInvalid e))
           | None => dispatch
           end
  end.

(** [if cbs.Verify != nil { return cbs.Verify(decoded) }; return nil] *)
Definition run_verify {A} (v : option (A -> option CbError)) (decoded : A) : option CbError :=
  match v with Some f => f decoded | None => None end.

Definition handleRelayRequest (cbs : DataHandlerCallbacks) (block : SSU2Block) : outcome :=
  match DecodeRelayRequest block with
  | Err e => handleSignedRelayBlock (Err e) None ([], None)
  | Ok decoded =>
      handleSignedRelayBlock (Ok (RelayRequest_Signature decoded))
        (run_verify (VerifyRelayRequestSignature cbs) decoded)
        (call (OnRelayRequest cbs) block (CallRelayRequest block))
  end.

Definition handleRelayIntro (cbs : DataHandlerCallbacks) (block : SSU2Block) : outcome :=
  match DecodeRelayIntro block with
  | Err e => handleSignedRelayBlock (Err e) None ([], None)
  | Ok decoded =>
      handleSignedRelayBlock (Ok (RelayIntro_Signature decoded))
        (run_verify (VerifyRelayIntroSignature cbs) decoded)
        (call (OnRelayIntro cbs) block (CallRelayIntro block))
  end.

Definition handleRelayResponse (cbs : DataHandlerCallbacks) (block : SSU2Block) : outcome :=
  match DecodeRelayResponse block with
  | Err e => ([], Some (EDecode e))
  | Ok decoded =>
      let signed := (RelayResponse_Code decoded =? 0) || (64 <=? RelayResponse_Code decoded) in
      if signed && bool_decide (length (RelayResponse_Signature decoded) = 0%nat)
      then ([], Some EMissingSignature)
      else
        match (if signed then run_verify (VerifyRelayResponseSignature cbs) decoded else None) with
        | Some e => ([], Some (ESignatureInvalid e))
        | None => call (OnRelayResponse cbs) block (CallRelayResponse block)
        end
  end.

Definition handlePeerTest (cbs : DataHandlerCallbacks) (block : SSU2Block) : outcome :=
  match DecodePeerTestBlock block with
  | Err e => ([], Some (EDecode e))
  | Ok decoded =>
      let signed := (PeerTestRequest <=? PeerTest_MessageCode decoded)
                    && (PeerTest_MessageCode decoded <=? PeerTestResult) in
      if signed && bool_decide (length (PeerTest_Signature decoded) = 0%nat)
      then ([], Some EMissingSignature)
      else
        match (if signed then run_verify (VerifyPeerTestSignature cbs) decoded else None) with
        | Some e => ([], Some (ESignatureInvalid e))
        | None => call (OnPeerTest cbs) block (CallPeerTest block)
        end
  end.

Definition handleRelayTagRequest (cbs : DataHandlerCallbacks) (block : SSU2Block) : outcome :=
  call (OnRelayTagRequest cbs) block (CallRelayTagRequest block).

Definition handleRelayTag (cbs : DataHandlerCallbacks) (block : SSU2Block) : outcome :=
  call (OnRelayTag cbs) block (CallRelayTag block).

Definition handlePathChallenge (cbs : DataHandlerCallbacks) (data : bytes) : outcome :=
  call (OnPathChallenge cbs) data (CallPathChallenge data).

Definition handlePathResponse (cbs : DataHandlerCallbacks) (data : bytes) : outcome :=
  call (OnPathResponse cbs) data (CallPathResponse data).

Definition handleOptions (cbs : DataHandlerCallbacks) (data : bytes) : outcome :=
  call (OnOptions cbs) data (CallOptions data).

Definition handleRouterInfo (cbs : DataHandlerCallbacks) (data : bytes) : outcome :=
  call (OnRouterInfo cbs) data (CallRouterInfo data).

Definition handleAddress (cbs : DataHandlerCallbacks) (data : bytes) : outcome :=
  call (OnAddress cbs) data (CallAddress data).

Definition handleACK (cbs : DataHandlerCallbacks) (block : SSU2Block) : outcome :=
  call (OnACK cbs) block (CallACK block).
(** [dispatchNonCriticalBlock]: errors are logged and dropped; an unknown type is
    counted. *)
Definition dispatchNonCriticalBlock (cbs : DataHandlerCallbacks) (h : DataHandler)
    (block : SSU2Block) : DataHandler * list Event :=
  let t := Type_ block in
  if decide (t = BlockTypeTermination) then (h, (handleTermination cbs (Data block)).1)
  else if decide (t = BlockTypeNewToken) then (h, (handleNewToken cbs (Data block)).1)
  else if decide (t = BlockTypeRelayRequest) then (h, (handleRelayRequest cbs block).1)
  else if decide (t = BlockTypeRelayResponse) then (h, (handleRelayResponse cbs block).1)
  else if decide (t = BlockTypeRelayIntro) then (h, (handleRelayIntro cbs block).1)
  else if decide (t = BlockTypeRelayTagRequest) then (h, (handleRelayTagRequest cbs block).1)
  else if decide (t = BlockTypeRelayTag) then (h, (handleRelayTag cbs block).1)
  else if decide (t = BlockTypePeerTest) then (h, (handlePeerTest cbs block).1)
  else if decide (t = BlockTypePathChallenge) then (h, (handlePathChallenge cbs (Data block)).1)
  else if decide (t = BlockTypePathResponse) then (h, (handlePathResponse cbs (Data block)).1)
  else if decide (t = BlockTypeDateTime) then (h, (handleDateTime cbs (Data block)).1)
  else if decide (t = BlockTypeOptions) then (h, (handleOptions cbs (Data block)).1)
  else if decide (t = BlockTypeRouterInfo) then (h, (handleRouterInfo cbs (Data block)).1)
  else if decide (t = BlockTypeAddress) then (h, (handleAddress cbs (Data block)).1)
  else if decide (t = BlockTypeACK) then (h, (handleACK cbs block).1)
  else if decide (t = BlockTypeNextNonce) then (h, (handleNextNonce cbs (Data block)).1)
  else if decide (t = BlockTypeFirstPacketNumber)
    then (h, (handleFirstPacketNumber cbs (Data block)).1)
  else if decide (t = BlockTypeCongestion) then (h, (handleCongestion cbs (Data block)).1)
  else (incrementStat SUnknownBlocks h, []).

Definition handleI2NPMessage (h : DataHandler) (data : bytes) : DataHandler * option DataError :=
  if decide (length data = 0%nat) then (incrementStat SMessagesDropped h, Some EI2NPEmpty)
  else
    match enqueue h data with
    | Some h => (incrementStat SMessagesReceived h, None)
    | None => (incrementStat SMessagesDropped h, Some EQueueFull)
    end.

Context {R : GoRange Z FragmentSet}.

Definition processBlock (cbs : DataHandlerCallbacks) (h : DataHandler) (block : SSU2Block) (now : Z)
    : DataHandler * list Event * option DataError :=
  let critical (r : DataHandler * option DataError) := (r.1, [], r.2) in
  if decide (Type_ block = BlockTypeI2NPMessage) then critical (handleI2NPMessage h (Data block))
  else if decide (Type_ block = BlockTypeFirstFragment)
    then critical (handleFirstFragment h (Data block) now)
  else if decide (Type_ block = BlockTypeFollowOnFragment)
    then critical (handleFollowOnFragment h (Data block) now)
  else if decide (Type_ block = BlockTypePadding) then (h, [], None)
  else let '(h, evs) := dispatchNonCriticalBlock cbs h block in (h, evs, None).

(** The position of the offending block. *)
Inductive OrderingError :=
| EPaddingNotLast (i : Z)
| ETerminationFollowed (i : Z) (t : byte).

Fixpoint ordering_loop (i : Z) (blocks : list SSU2Block) : option OrderingError :=
  match blocks with
  | [] => None
  | block :: after =>
      if decide (Type_ block = BlockTypePadding /\ after <> []) then Some (EPaddingNotLast i)
      else if decide (Type_ block = BlockTypeTermination /\ after <> []) then
        match List.find (fun b => bool_decide (Type_ b <> BlockTypePadding)) after with
        | Some b => Some (ETerminationFollowed i (Type_ b))
        | None => ordering_loop (i + 1) after
        end
      else ordering_loop (i + 1) after
  end.

Definition validateBlockOrdering (blocks : list SSU2Block) : option OrderingError :=
  ordering_loop 0 blocks.

Inductive PacketError :=
| ENotData (t : byte)
| EBlocks (e : BlockError)
| EBlock (e : DataError).

(** The loop over the blocks stops at the first error of a critical block. *)
Fixpoint process_loop (cbs : DataHandlerCallbacks) (h : DataHandler) (blocks : list SSU2Block)
    (now : Z) : DataHandler * list Event * option DataError :=
  match blocks with
  | [] => (h, [], None)
  | block :: rest =>
      let h := incrementStat SBlocksProcessed h in
      match processBlock cbs h block now with
      | (h, evs, Some e) => (h, evs, Some e)
      | (h, evs, None) =>
          let '(h, evs', e) := process_loop cbs h rest now in (h, evs ++ evs', e)
      end
  end.

(** The result of [validateBlockOrdering] is only logged. *)
Definition ProcessDataPacket (cbs : DataHandlerCallbacks) (h : DataHandler) (packet : SSU2Packet)
    (now : Z) : DataHandler * list Event * (list SSU2Block * option PacketError) :=
  if decide (MessageType packet <> MessageTypeData)
  then (h, [], ([], Some (ENotData (MessageType packet))))
  else
    match DeserializeBlocks (Payload packet) with
    | Err e => (incrementStat SMessagesDropped h, [], ([], Some (EBlocks e)))
    | Ok blocks =>
        let '(h, evs, e) := process_loop cbs h blocks now in
        (h, evs, (blocks, EBlock <$> e))
    end.

Definition GetMessage (h : DataHandler) : DataHandler * option bytes :=
  match messageQueue h with
  | m :: q => (set_queue h q, Some m)
  | [] => (h, None)
  end.

Definition HasMessages (h : DataHandler) : bool := bool_decide (0 < length (messageQueue h))%nat.

Definition Clear (h : DataHandler) : DataHandler := set_fragments (set_queue h []) ∅.
End Handlers.

(** ** Block ordering *)

Section Ordering.

Lemma ordered_cons_normal b bs : is_normal b = true -> ordered_spec (b :: bs) = b :: ordered_spec bs.
Proof.
  intros Hn. unfold ordered_spec. cbn [List.filter]. rewrite Hn.
  unfold is_normal in Hn. bool_props. by rewrite H, H0.
Qed.

Lemma all_pads_filter bs :
  List.find (fun b => bool_decide (Type_ b <> BlockTypePadding)) bs = None <-> Forall (fun b => is_pad b = true) bs.
Proof.
  unfold is_pad. induction bs as [|b bs IH]; cbn [List.find]; [by split|].
  rewrite Forall_cons, bool_decide_eq_true. case_bool_decide; naive_solver.
Qed.

Lemma all_pads_ordered bs :
  Forall (fun b => is_pad b = true) bs -> ordered_spec bs = option_list (last bs).
Proof.
  intros Hp. unfold ordered_spec.
  assert (H1 : List.filter is_normal bs = [] /\ List.filter is_term bs = [] /\ List.filter is_pad bs = bs).
  { induction Hp as [|b bs Hb Hp (IH1 & IH2 & IH3)]; [done|]. cbn [List.filter].
    assert (Ht : is_term b = false).
    { destruct (is_term b) eqn:E; [|done]. apply is_term_not_pad in E. congruence. }
    assert (En : is_normal b = false) by (unfold is_normal; by rewrite Hb, andb_false_r).
    by rewrite En, Ht, Hb, IH1, IH2, IH3. }
  destruct H1 as (H1 & H2 & H3). by rewrite H1, H2, H3.
Qed.

(** The head of a reordered payload is a normal block as long as there is one. *)
Lemma ordered_head_normal bs b rest :
  ordered_spec bs = b :: rest -> is_normal b = false ->
  List.filter is_normal bs = [] /\ (is_pad b = true -> List.filter is_term bs = []).
Proof.
  unfold ordered_spec. destruct (List.filter is_normal bs) as [|n ns] eqn:E.
  - intros Heq Hn. split; [done|]. intros Hp. destruct (List.filter is_term bs) as [|t ts] eqn:Et; [done|].
    exfalso. destruct (last (t :: ts)) as [l|] eqn:El; [|by apply last_None in El].
    injection Heq as -> _. apply last_Some in El as [l' Hl'].
    assert (Hin : b ∈ List.filter is_term bs) by (rewrite Et, Hl'; set_solver).
    apply list_elem_of_In, filter_In in Hin as [_ Hin]. apply is_term_not_pad in Hin. congruence.
  - intros [= -> _] Hn. exfalso. assert (Hin : b ∈ List.filter is_normal bs) by (rewrite E; by left).
    apply list_elem_of_In, filter_In in Hin as [_ Hin]. congruence.
Qed.

Lemma filter_all_pads bs :
  List.filter is_normal bs = [] -> List.filter is_term bs = [] -> Forall (fun b => is_pad b = true) bs.
Proof.
  induction bs as [|b bs IH]; [done|]. cbn [List.filter]. unfold is_normal.
  destruct (is_term b) eqn:Et; [done|]. destruct (is_pad b) eqn:Ep; [|done]. cbn.
  intros H1 H2. constructor; [done|]. by apply IH.
Qed.

Lemma last_pad_all_pads bs :
  Forall (fun b => is_pad b = true) (option_list (last (List.filter is_pad bs))).
Proof.
  destruct (last (List.filter is_pad bs)) as [p|] eqn:E; [|constructor].
  repeat constructor. apply last_Some in E as [l Hl].
  assert (Hin : p ∈ List.filter is_pad bs) by (rewrite Hl; set_solver).
  by apply list_elem_of_In, filter_In in Hin as [_ Hin].
Qed.

(** A Termination block followed by padding only. *)
Lemma ordered_cons_term b bs :
  is_term b = true -> List.filter is_normal bs = [] ->
  exists t, ordered_spec (b :: bs) = t :: option_list (last (List.filter is_pad bs))
    /\ (Forall (fun b => is_pad b = true) bs -> t = b).
Proof.
  intros Ht Hn. pose proof (is_term_not_pad b Ht) as Hp. unfold ordered_spec. cbn [List.filter].
  assert (En : is_normal b = false) by (unfold is_normal; by rewrite Ht).
  rewrite En, Ht, Hp, Hn. cbn [app].
  destruct (last (b :: List.filter is_term bs)) as [t|] eqn:El; [|by apply last_None in El].
  exists t. split; [done|]. intros Hf.
  assert (Hnil : List.filter is_term bs = []).
  { destruct (List.filter is_term bs) as [|x l] eqn:E; [done|]. exfalso.
    assert (Hin : x ∈ List.filter is_term bs) by (rewrite E; by left).
    apply list_elem_of_In, filter_In in Hin as [Hin Hx]. apply list_elem_of_In in Hin.
    rewrite Forall_forall in Hf. specialize (Hf x Hin). apply is_term_not_pad in Hx. congruence. }
  rewrite Hnil in El. by injection El.
Qed.

Lemma ordering_loop_ordered i bs : ordering_loop i bs = None <-> ordered_spec bs = bs.
Proof.
  revert i. induction bs as [|b bs IH]; intros i; [done|]. cbn [ordering_loop].
  destruct (is_normal b) eqn:En.
  { rewrite ordered_cons_normal by done. unfold is_normal, is_term, is_pad in En. bool_props.
    apply bool_decide_eq_false in H, H0. rewrite !decide_False by tauto. rewrite IH.
    split; [by intros ->|by intros [= ->]]. }
  destruct (is_pad b) eqn:Ep.
  - pose proof Ep as Ep'. unfold is_pad in Ep'. apply bool_decide_eq_true in Ep'.
    destruct bs as [|b2 bs].
    { rewrite !decide_False by naive_solver. split; [|done]. intros _.
      rewrite all_pads_ordered by (by repeat constructor). done. }
    rewrite decide_True by done. split; [done|]. intros Heq. exfalso.
    destruct (ordered_head_normal _ _ _ Heq En) as [H1 H2].
    rewrite (all_pads_ordered _ (filter_all_pads _ H1 (H2 Ep))) in Heq.
    destruct (last (b :: b2 :: bs)); discriminate Heq.
  - assert (Et : is_term b = true) by (unfold is_normal in En; destruct (is_term b), (is_pad b); done).
    pose proof Et as Et'. unfold is_term in Et'. apply bool_decide_eq_true in Et'.
    assert (Hnp : Type_ b <> BlockTypePadding) by (rewrite Et'; done).
    rewrite (decide_False (P := Type_ b = BlockTypePadding /\ _)) by tauto.
    destruct (decide (Type_ b = BlockTypeTermination /\ bs <> [])) as [[_ Hne]|Hne].
    + destruct (List.find _ bs) as [x|] eqn:Ef.
      * split; [done|]. intros Heq. exfalso. destruct (ordered_head_normal _ _ _ Heq En) as [H1 _].
        assert (Hn : List.filter is_normal bs = []) by (cbn [List.filter] in H1; by rewrite En in H1).
        destruct (ordered_cons_term b bs Et Hn) as (t & Ho & _). rewrite Heq in Ho.
        assert (Hp : Forall (fun b => is_pad b = true) bs).
        { injection Ho as _ ->. apply last_pad_all_pads. }
        apply all_pads_filter in Hp. congruence.
      * apply all_pads_filter in Ef. rewrite IH, all_pads_ordered by done.
        assert (Hn : List.filter is_normal bs = []).
        { clear -Ef. induction Ef as [|x bs Hx Ef IH]; [done|]. cbn [List.filter].
          assert (En : is_normal x = false) by (unfold is_normal; by rewrite Hx, andb_false_r).
          by rewrite En. }
        destruct (ordered_cons_term b bs Et Hn) as (t & -> & Ht). rewrite (Ht Ef).
        assert (Hpads : List.filter is_pad bs = bs).
        { clear -Ef. induction Ef as [|x bs Hx Ef IH]; [done|]. cbn [List.filter]. by rewrite Hx, IH. }
        rewrite Hpads. split; [by intros ->|by intros [= ->]].
    + assert (bs = []) as -> by (destruct bs; [done|exfalso; apply Hne; done]).
      split; [|done]. intros _. unfold ordered_spec. cbn. by rewrite En, Et, Ep.
Qed.
End Ordering.

(** ** Properties *)

Section DataTheorems.
Context `{P : PathLib} {CbError : Type} {R : GoRange Z FragmentSet}.

Lemma ordered_idem bs : ordered_spec (ordered_spec bs) = ordered_spec bs.
Proof.
  assert (Hn : forall l rest, ordered_spec (List.filter is_normal l ++ rest)
    = List.filter is_normal l ++ ordered_spec rest).
  { intros l rest. induction l as [|b l IH]; [done|]. cbn [List.filter].
    destruct (is_normal b) eqn:E; [|done]. cbn [app]. by rewrite ordered_cons_normal, IH. }
  unfold ordered_spec at 2 3. rewrite Hn. f_equal.
  pose proof (last_pad_all_pads bs) as Hp.
  destruct (last (List.filter is_term bs)) as [t|] eqn:Et; cbn [option_list app].
  - assert (Ht : is_term t = true).
    { apply last_Some in Et as [l Hl]. assert (Hin : t ∈ List.filter is_term bs) by (rewrite Hl; set_solver).
      by apply list_elem_of_In, filter_In in Hin as [_ Hin]. }
    set (ps := option_list (last (List.filter is_pad bs))) in *.
    assert (Hps : (length ps <= 1)%nat) by (unfold ps; destruct (last _); cbn; lia).
    clearbody ps. destruct ps as [|p [|q ps]]; cbn in Hps; [| |lia].
    + unfold ordered_spec. cbn. unfold is_normal. rewrite Ht. by rewrite (is_term_not_pad t Ht).
    + inversion_clear Hp as [|? ? Hpp _]. unfold ordered_spec. cbn. unfold is_normal.
      rewrite Ht, Hpp, andb_false_r, (is_term_not_pad t Ht).
      destruct (is_term p) eqn:E; [apply is_term_not_pad in E; congruence|]. done.
  - rewrite all_pads_ordered by done. by destruct (last (List.filter is_pad bs)).
Qed.

(** the receiver's ordering check accepts exactly the payloads that the
    sender's reordering leaves alone, and so everything the sender emits. *)
Theorem block_ordering_agrees (blocks : list SSU2Block) :
  (validateBlockOrdering blocks = None <-> enforceBlockOrder blocks = blocks)
  /\ validateBlockOrdering (enforceBlockOrder blocks) = None.
Proof.
  unfold validateBlockOrdering. rewrite !ordering_loop_ordered, !enforceBlockOrder_ordered.
  split; [done|apply ordered_idem].
Qed.

(** When the callback of a signed block may be invoked. *)
Definition authorised (cbs : @DataHandlerCallbacks P CbError) (ev : Event) : Prop :=
  match ev with
  | CallRelayRequest block => exists d, DecodeRelayRequest block = Ok d
      /\ RelayRequest_Signature d <> [] /\ run_verify (VerifyRelayRequestSignature cbs) d = None
  | CallRelayIntro block => exists d, DecodeRelayIntro block = Ok d
      /\ RelayIntro_Signature d <> [] /\ run_verify (VerifyRelayIntroSignature cbs) d = None
  | CallRelayResponse block => exists d, DecodeRelayResponse block = Ok d
      /\ (RelayResponse_Code d = 0 \/ 64 <= RelayResponse_Code d ->
          RelayResponse_Signature d <> [] /\ run_verify (VerifyRelayResponseSignature cbs) d = None)
  | CallPeerTest block => exists d, DecodePeerTestBlock block = Ok d
      /\ (PeerTestRequest <= PeerTest_MessageCode d <= PeerTestResult ->
          PeerTest_Signature d <> [] /\ run_verify (VerifyPeerTestSignature cbs) d = None)
  | _ => True
  end.

Lemma call_authorised {A} (cbs : DataHandlerCallbacks) (cb : option (A -> option CbError)) arg ev :
  authorised cbs ev -> Forall (authorised cbs) (call cb arg ev).1.
Proof. intros H. unfold call. destruct cb; repeat constructor. done. Qed.

Lemma signed_authorised (cbs : @DataHandlerCallbacks P CbError) dec (ver : option CbError)
    (out : outcome) :
  (forall sig, dec = Ok sig -> sig <> [] -> ver = None -> Forall (authorised cbs) out.1) ->
  Forall (authorised cbs) (handleSignedRelayBlock dec ver out).1.
Proof.
  intros H. unfold handleSignedRelayBlock. destruct dec as [sig|e]; [|constructor].
  case_decide; [constructor|]. destruct ver; [constructor|]. apply (H sig); [done| |done].
  by intros ->.
Qed.

Lemma nonempty_sig (sig : bytes) : bool_decide (length sig = 0%nat) = false -> sig <> [].
Proof. intros H%bool_decide_eq_false ->. by apply H. Qed.

Lemma dispatch_authorised (cbs : @DataHandlerCallbacks P CbError) h block :
  Forall (authorised cbs) (dispatchNonCriticalBlock cbs h block).2.
Proof.
  unfold dispatchNonCriticalBlock.
  repeat (case_decide; [cbn [snd]|]); [..|constructor];
    try (unfold handleTermination, handleNewToken, handleNextNonce, handleFirstPacketNumber,
           handleCongestion, handleDateTime; repeat case_match;
         first [by repeat constructor|by apply call_authorised]);
    try (by apply call_authorised).
  - unfold handleRelayRequest. destruct (DecodeRelayRequest block) as [d|e] eqn:E;
      apply signed_authorised; [|done]. intros sig [= <-] Hs Hv. apply call_authorised. by exists d.
  - unfold handleRelayResponse. destruct (DecodeRelayResponse block) as [d|e] eqn:E; [|constructor].
    destruct (_ || _) eqn:Es; cbn [andb].
    + destruct (bool_decide _) eqn:Eb; [constructor|].
      destruct (run_verify _ d) eqn:Ev; [constructor|]. apply call_authorised. exists d.
      split; [done|]. intros _. split; [by apply nonempty_sig|done].
    + apply call_authorised. exists d. split; [done|]. bool_props. lia.
  - unfold handleRelayIntro. destruct (DecodeRelayIntro block) as [d|e] eqn:E;
      apply signed_authorised; [|done]. intros sig [= <-] Hs Hv. apply call_authorised. by exists d.
  - unfold handlePeerTest. destruct (DecodePeerTestBlock block) as [d|e] eqn:E; [|constructor].
    destruct ((PeerTestRequest <=? _) && _) eqn:Es; cbn [andb].
    + destruct (bool_decide _) eqn:Eb; [constructor|].
      destruct (run_verify _ d) eqn:Ev; [constructor|]. apply call_authorised. exists d.
      split; [done|]. intros _. split; [by apply nonempty_sig|done].
    + apply call_authorised. exists d. split; [done|]. apply andb_false_iff in Es as [Es|Es]; bool_props; lia.
Qed.

Lemma process_loop_authorised (cbs : @DataHandlerCallbacks P CbError) h blocks now :
  Forall (authorised cbs) (process_loop cbs h blocks now).1.2.
Proof.
  revert h. induction blocks as [|b blocks IH]; intros h; [constructor|]. cbn [process_loop].
  assert (Hb : Forall (authorised cbs) (processBlock cbs (incrementStat SBlocksProcessed h) b now).1.2).
  { unfold processBlock. repeat (case_decide; [constructor|]).
    pose proof (dispatch_authorised cbs (incrementStat SBlocksProcessed h) b) as Hd.
    by destruct (dispatchNonCriticalBlock cbs _ b). }
  destruct (processBlock cbs _ b now) as [[h1 evs] [e|]]; [done|]. specialize (IH h1).
  destruct (process_loop cbs h1 blocks now) as [[h2 evs'] e]. cbn in *. by apply Forall_app.
Qed.

(** C39: whatever a Data packet contains, the callback of a relay request, a relay
    introduction, a signed relay response or a peer test 1-4 is only invoked for a
    block that decodes, carries a signature, and passed the verifier if one is set. *)
Theorem signed_blocks_verified (cbs : DataHandlerCallbacks) (h : DataHandler) (packet : SSU2Packet)
    (now : Z) :
  Forall (authorised cbs) (ProcessDataPacket cbs h packet now).1.2.
Proof.
  unfold ProcessDataPacket. case_decide; [constructor|].
  destruct (DeserializeBlocks (Payload packet)) as [blocks|e]; [|constructor].
  pose proof (process_loop_authorised cbs h blocks now) as Hl.
  by destruct (process_loop cbs h blocks now) as [[h' evs] e].
Qed.

(** With no verifier configured, a block with any signature is acted on. *)
Lemma unverified_relay_request_dispatched (cbs : @DataHandlerCallbacks P CbError) block d f :
  VerifyRelayRequestSignature cbs = None -> OnRelayRequest cbs = Some f ->
  DecodeRelayRequest block = Ok d -> RelayRequest_Signature d <> [] ->
  (handleRelayRequest cbs block).1 = [CallRelayRequest block].
Proof.
  intros Hv Hf Hd Hs. unfold handleRelayRequest, handleSignedRelayBlock, call, run_verify.
  rewrite Hd, Hv, Hf. case_decide as Hl; [|done]. by apply nil_length_inv in Hl.
Qed.
Definition i2np_block (b : SSU2Block) : Prop := Type_ b = BlockTypeI2NPMessage /\ Data b <> [].

Lemma i2np_ordered bs : Forall i2np_block bs -> enforceBlockOrder bs = bs.
Proof.
  rewrite enforceBlockOrder_ordered. induction 1 as [|b bs [Ht _] Hb IH]; [done|].
  rewrite ordered_cons_normal; [by rewrite IH|]. unfold is_normal, is_term, is_pad. by rewrite Ht.
Qed.

Lemma process_loop_i2np (cbs : @DataHandlerCallbacks P CbError) h blocks now :
  Forall i2np_block blocks -> (length (messageQueue h) + length blocks <= queueCap h)%nat ->
  exists h', process_loop cbs h blocks now = (h', [], None)
    /\ messageQueue h' = messageQueue h ++ (Data <$> blocks) /\ fragments h' = fragments h
    /\ queueCap h' = queueCap h.
Proof.
  intros Hb. revert h. induction Hb as [|b blocks [Ht Hd] Hb IH]; intros h Hq.
  { exists h. by rewrite app_nil_r. }
  cbn [process_loop length] in *. unfold processBlock, handleI2NPMessage. rewrite Ht, decide_True by done.
  rewrite decide_False by (intros Hz; by apply Hd, nil_length_inv).
  unfold enqueue. cbn [incrementStat messageQueue queueCap]. rewrite decide_True by lia. cbn [fst snd].
  match goal with |- context [process_loop cbs ?x blocks now] =>
    destruct (IH x) as (h' & -> & Hm & Hf & Hc) end.
  { cbn. rewrite length_app. cbn. lia. }
  exists h'. split_and!; [done| |done|done]. rewrite Hm. cbn. by rewrite <- app_assoc.
Qed.

(** end-to-end delivery of unfragmented messages: if the sender serialises
    I2NP blocks into the payload of a Data packet and the receiver's queue has
    room, processing the packet appends exactly the messages to the queue, in
    order, and reports no error. *)
Theorem i2np_delivery (cbs : DataHandlerCallbacks) (h : DataHandler) (packet : SSU2Packet)
    (blocks : list SSU2Block) (now : Z) :
  MessageType packet = MessageTypeData -> SerializeBlocks blocks = Ok (Payload packet) ->
  Forall i2np_block blocks -> (length (messageQueue h) + length blocks <= queueCap h)%nat ->
  let '(h', evs, r) := @ProcessDataPacket P CbError R cbs h packet now in
  messageQueue h' = messageQueue h ++ (Data <$> blocks) /\ fragments h' = fragments h
  /\ evs = [] /\ r = (blocks, None).
Proof.
  intros Ht Hs Hb Hq. unfold ProcessDataPacket. rewrite decide_False by (rewrite Ht; tauto).
  rewrite (blocks_roundtrip blocks _ Hs), (i2np_ordered blocks Hb).
  destruct (process_loop_i2np cbs h blocks now Hb Hq) as (h' & -> & Hm & Hf & _). done.
Qed.
End DataTheorems.

(** ** Witness *)

Definition demo_path : PathLib.
Proof.
  refine {| RelayRequestBlock := bytes; RelayResponseBlock := bytes; RelayIntroBlock := bytes;
    PeerTestBlock := bytes; DecodeError := unit;
    DecodeRelayRequest b := Ok (Data b); DecodeRelayResponse b := Ok (Data b);
    DecodeRelayIntro b := Ok (Data b); DecodePeerTestBlock b := Ok (Data b);
    RelayRequest_Signature d := d; RelayResponse_Signature d := d; RelayResponse_Code d := 0;
    RelayIntro_Signature d := d; PeerTest_Signature d := d; PeerTest_MessageCode d := 1;
    PeerTestRequest := 1; PeerTestResult := 4 |}.
Defined.

Definition no_callbacks : @DataHandlerCallbacks demo_path unit :=
  mkCallbacks None None None None None None None None None None None None None None None None None
    None None None None None.

Definition demo_i2np : list SSU2Block :=
  [mkBlock BlockTypeI2NPMessage [x01; x02]; mkBlock BlockTypeI2NPMessage [x03]].

Definition demo_data_packet : SSU2Packet :=
  mkPacket [] [] (concat (wire_of <$> demo_i2np)) [] MessageTypeData 1 0.

Lemma i2np_delivery_witness :
  let '(h', _, _) := @ProcessDataPacket demo_path unit demo_fragment_range no_callbacks
                       (NewDataHandler 4) demo_data_packet 5 in
  messageQueue h' = [[x01; x02]; [x03]].
Proof.
  pose proof (@i2np_delivery demo_path unit demo_fragment_range no_callbacks (NewDataHandler 4)
    demo_data_packet demo_i2np 5) as H.
  destruct (ProcessDataPacket no_callbacks (NewDataHandler 4) demo_data_packet 5) as [[h' evs] r].
  apply H.
  - reflexivity.
  - vm_compute. reflexivity.
  - repeat (constructor; [split; [reflexivity|discriminate]|]). constructor.
  - cbn. lia.
Defined.
