(* ===== verification/Outbound.v ===== *)
(** * The sending side of a connection

    [ssu2/session/conn_write.go] with the fields of [SSU2Conn] it uses
    ([ssu2/session/conn.go]): packet numbers, the send queue, the packets waiting
    for an acknowledgment and their retransmission.

    The AEAD, the SipHash mask, header protection and the socket are arguments of
    the send step, as are clock readings. *)

From Stdlib Require Import Strings.Byte.
From stdpp Require Import base numbers list gmap relations.
From S2P Require Import Prelude Float64 Block Packet RTTEstimator Fragments.

#[local] Open Scope Z_scope.

Definition rekeyThreshold : Z := 4294967040.
Definition maxPacketRetries : Z := 5.
Definition sendQueueCap : nat := 64.
Definition lastPacketNumber : Z := 4294967295.

Record PendingPacket := mkPendingPacket {
  Packet_ : SSU2Packet;
  PlaintextPayload : bytes;
  SentTime : Z;
  Retries : Z;
  NextRetry : Z;
}.

(** The fields of [SSU2Conn] of the sending side; [closing] records that
    [go h.Close()] was started and [rekeyInFlight] that [go h.initiateRekey()]
    was. *)
Record SSU2Conn := mkConn {
  sendSequence : Z;
  enableNextNonce : bool;
  rekeyInFlight : bool;
  closing : bool;
  remoteConnectionID : Z;
  sendQueue : list SSU2Packet;
  pendingPackets : gmap Z PendingPacket;
  validDataPacketsSent : Z;
}.

Definition assembleSSU2Conn (nextNonce : bool) (connID : Z) : SSU2Conn :=
  mkConn 0 nextNonce false false connID [] ∅ 0.

Definition set_sequence (h : SSU2Conn) (seq : Z) (rekey close_ : bool) : SSU2Conn :=
  mkConn seq (enableNextNonce h) rekey close_ (remoteConnectionID h) (sendQueue h)
    (pendingPackets h) (validDataPacketsSent h).

Definition set_sendQueue (h : SSU2Conn) (q : list SSU2Packet) : SSU2Conn :=
  mkConn (sendSequence h) (enableNextNonce h) (rekeyInFlight h) (closing h) (remoteConnectionID h)
    q (pendingPackets h) (validDataPacketsSent h).

Definition set_pendingPackets (h : SSU2Conn) (m : gmap Z PendingPacket) : SSU2Conn :=
  mkConn (sendSequence h) (enableNextNonce h) (rekeyInFlight h) (closing h) (remoteConnectionID h)
    (sendQueue h) m (validDataPacketsSent h).

Definition count_sent (h : SSU2Conn) : SSU2Conn :=
  mkConn (sendSequence h) (enableNextNonce h) (rekeyInFlight h) (closing h) (remoteConnectionID h)
    (sendQueue h) (pendingPackets h) (u64 (validDataPacketsSent h + 1)).

Inductive WriteError :=
| ENotEstablished
| EFragment (e : DataError)
| ESerializeBlock (e : BlockError)
| EClosed
| EDeadline.

Inductive SendError :=
| ESerializeBlocks (e : BlockError)
| EEncrypt
| ESerializePacket (e : Packet.PacketError)
| EHeaderProtection
| ENetwork.

Definition nextSendSequence (h : SSU2Conn) : SSU2Conn * Z :=
  if sendSequence h =? lastPacketNumber
  then (set_sequence h (sendSequence h) (rekeyInFlight h) true, lastPacketNumber)
  else
    let seq := sendSequence h in
    let rekey := enableNextNonce h && (rekeyThreshold <=? seq) && negb (rekeyInFlight h) in
    (set_sequence h (u32 (seq + 1)) (if rekey then true else rekeyInFlight h) (closing h), seq).

Definition newDataPacket (h : SSU2Conn) : SSU2Conn * SSU2Packet :=
  let '(h, pktNum) := nextSendSequence h in
  let hdr := be_encode 8 (remoteConnectionID h) ++ be_encode 4 pktNum ++ replicate 4 x00 in
  (h, mkPacket hdr [] [] (replicate MACSize x00) MessageTypeData pktNum 0).

Definition with_payload (p : SSU2Packet) (payload : bytes) : SSU2Packet :=
  mkPacket (Header p) (EphemeralKey p) payload (MAC p) (MessageType p) (PacketNumber p) (Timestamp p).

(** [writeBlock]. The channel send waits while the queue is full; [abort] says
    that the connection was closed or the deadline passed first. *)
Definition writeBlock (h : SSU2Conn) (block : SSU2Block) (abort : option WriteError)
    : SSU2Conn * option WriteError :=
  let '(h, packet) := newDataPacket h in
  match SerializeBlocks [block] with
  | Err e => (h, Some (ESerializeBlock e))
  | Ok payload =>
      match abort with
      | Some e => (h, Some e)
      | None => (set_sendQueue h (sendQueue h ++ [with_payload packet payload]), None)
      end
  end.

(** [WriteBlocks]: one packet per block, until an error. *)
Fixpoint write_blocks (h : SSU2Conn) (blocks : list (SSU2Block * option WriteError))
    : SSU2Conn * option WriteError :=
  match blocks with
  | [] => (h, None)
  | (block, abort) :: rest =>
      match writeBlock h block abort with
      | (h, Some e) => (h, Some e)
      | (h, None) => write_blocks h rest
      end
  end.

Definition blockHdrSize : Z := 3.

(** The blocks [Write] sends for the data [b]. *)
Definition Write_blocks (mtu : Z) (msgIDBuf : option bytes) (unix : Z) (b : bytes)
    : result WriteError (list SSU2Block) :=
  let maxBlockData := mtu - 80 - blockHdrSize in
  if zlen b + blockHdrSize <=? maxBlockData + blockHdrSize
  then Ok [mkBlock BlockTypeI2NPMessage b]
  else
    match buildI2NPFragmentBlocks msgIDBuf unix b maxBlockData with
    | Err e => Err (EFragment e)
    | Ok blocks => Ok blocks
    end.

Definition Write (established : bool) (mtu : Z) (msgIDBuf : option bytes) (unix : Z)
    (h : SSU2Conn) (b : bytes) : SSU2Conn * result WriteError Z :=
  if negb established then (h, Err ENotEstablished)
  else
    match Write_blocks mtu msgIDBuf unix b with
    | Err e => (h, Err e)
    | Ok blocks =>
        match write_blocks h ((fun blk => (blk, None)) <$> blocks) with
        | (h, Some e) => (h, Err e)
        | (h, None) => (h, Ok (zlen b))
        end
    end.

(** What a send depends on outside the connection. *)
Record SendEnv := mkEnv {
  cipher : option (Z -> bytes -> bytes -> option bytes);   (* nonce, AD, plaintext *)
  sipMask : option Z;
  protect : bytes -> option bytes;
  network_ok : bool;
}.

(** [copy] of one byte and of two bytes into a header. *)
Definition set_header_byte (p : SSU2Packet) (i : nat) (b : byte) : SSU2Packet :=
  mkPacket (<[i := b]> (Header p)) (EphemeralKey p) (Payload p) (MAC p) (MessageType p)
    (PacketNumber p) (Timestamp p).

Definition encryptDataPayload (env : SendEnv) (packet : SSU2Packet)
    : result SendError (SSU2Packet * bytes) :=
  match cipher env with
  | None => Ok (packet, [])
  | Some encrypt =>
      if decide (MessageType packet <> MessageTypeData \/ length (Payload packet) = 0%nat)
      then Ok (packet, [])
      else
        let plaintextPayload := Payload packet in
        let packet := set_header_byte packet 12 (MessageType packet) in
        match encrypt (PacketNumber packet) (take ShortHeaderSize (Header packet)) (Payload packet) with
        | None => Err EEncrypt
        | Some encrypted => Ok (with_payload packet encrypted, plaintextPayload)
        end
  end.

Definition applySipHashObfuscation (env : SendEnv) (packet : SSU2Packet) : SSU2Packet :=
  match sipMask env with
  | Some mask =>
      if decide (MessageType packet = MessageTypeData) then
        let v := Z.lxor (u16 (zlen (Payload packet))) mask in
        set_header_byte (set_header_byte packet 14 (z2b (Z.shiftr v 8))) 15 (z2b v)
      else packet
  | None => packet
  end.

Definition trackPendingPacket (h : SSU2Conn) (packet : SSU2Packet) (plaintext : bytes)
    (rto now : Z) : SSU2Conn :=
  if decide (MessageType packet <> MessageTypeData \/ PacketNumber packet = 0) then h
  else set_pendingPackets h
         (<[PacketNumber packet := mkPendingPacket packet plaintext now 0 (now + rto)]>
            (pendingPackets h)).

Section Sending.
Context `{FloatConv} {R : GoRange Z PendingPacket}.

(** [sendPacketDirect]; on success the datagram that left. *)
Definition sendPacketDirect (env : SendEnv) (rtt : RTTEstimator) (now : Z) (h : SSU2Conn)
    (packet : SSU2Packet) : SSU2Conn * result SendError bytes :=
  match encryptDataPayload env packet with
  | Err e => (h, Err e)
  | Ok (packet, plaintextPayload) =>
      let packet := applySipHashObfuscation env packet in
      match Packet.Serialize packet with
      | (_, Err e) => (h, Err (ESerializePacket e))
      | (packet, Ok data) =>
          match protect env data with
          | None => (h, Err EHeaderProtection)
          | Some data =>
              if negb (network_ok env) then (h, Err ENetwork)
              else
                let h := if decide (MessageType packet = MessageTypeData) then count_sent h else h in
                (trackPendingPacket h packet plaintextPayload (RTTEstimator_GetRTO rtt) now, Ok data)
          end
      end
  end.

(** One turn of [sendLoop]; errors are skipped. *)
Definition send_next (env : SendEnv) (rtt : RTTEstimator) (now : Z) (h : SSU2Conn) : SSU2Conn :=
  match sendQueue h with
  | [] => h
  | packet :: q => (sendPacketDirect env rtt now (set_sendQueue h q) packet).1
  end.

(** One iteration of [retransmitExpired]. The new retry count and deadline are
    stored in the entry that the same iteration deletes. *)
Definition retransmit_one (rto now : Z) (h : SSU2Conn) (pn : Z) (pp : PendingPacket) : SSU2Conn :=
  if now <? NextRetry pp then h
  else if maxPacketRetries <=? Retries pp
  then set_pendingPackets h (delete pn (pendingPackets h))
  else
    let retries := Retries pp + 1 in
    let backoff := i64 (rto * Z.shiftl 1 retries) in
    let pp := mkPendingPacket (Packet_ pp) (PlaintextPayload pp) (SentTime pp) retries (now + backoff) in
    let h := set_pendingPackets h (<[pn := pp]> (pendingPackets h)) in
    let '(h, newPacket) := newDataPacket h in
    let newPacket := with_payload newPacket (PlaintextPayload pp) in
    let h := set_pendingPackets h (delete pn (pendingPackets h)) in
    if decide (length (sendQueue h) < sendQueueCap)%nat
    then set_sendQueue h (sendQueue h ++ [newPacket]) else h.

Fixpoint retransmit_loop (rto now : Z) (h : SSU2Conn) (l : list (Z * PendingPacket)) : SSU2Conn :=
  match l with
  | [] => h
  | (pn, pp) :: rest => retransmit_loop rto now (retransmit_one rto now h pn pp) rest
  end.

Definition retransmitExpired (rtt : RTTEstimator) (now : Z) (h : SSU2Conn) : SSU2Conn :=
  retransmit_loop (RTTEstimator_GetRTO rtt) now h (go_range (pendingPackets h)).

(** The loop of [processDataPacket] over the acknowledged numbers. *)
Definition retire (h : SSU2Conn) (ackedNums : list Z) : SSU2Conn :=
  set_pendingPackets h (foldl (fun m num => delete num m) (pendingPackets h) ackedNums).
End Sending.

(** ** Runs

    A run is labelled with the packet numbers that reached the AEAD as nonces.
    Rekeying, which restarts the numbers under a new key, is not a step. *)

Section Runs.
Context `{FloatConv} {R : GoRange Z PendingPacket}.

Inductive out_step : SSU2Conn -> list Z -> SSU2Conn -> Prop :=
| os_write h block abort : out_step h [] (writeBlock h block abort).1
| os_send env rtt now h packet q :
    sendQueue h = packet :: q -> out_step h [PacketNumber packet] (send_next env rtt now h)
| os_direct env rtt now h h1 packet payload :  (* sendImmediateACK, CloseWithReason *)
    newDataPacket h = (h1, packet) ->
    out_step h [PacketNumber packet]
      (sendPacketDirect env rtt now h1 (with_payload packet payload)).1
| os_retransmit rtt now h : out_step h [] (retransmitExpired rtt now h)
| os_retire h acked : out_step h [] (retire h acked).

Inductive out_run : SSU2Conn -> list Z -> SSU2Conn -> Prop :=
| or_refl h : out_run h [] h
| or_step h1 ns1 h2 ns2 h3 : out_run h1 ns1 h2 -> out_step h2 ns2 h3 -> out_run h1 (ns1 ++ ns2) h3.

(** Used numbers: those emitted and those queued, all below the next one. *)
Definition out_inv (emitted : list Z) (h : SSU2Conn) : Prop :=
  0 <= sendSequence h <= lastPacketNumber
  /\ (sendSequence h < lastPacketNumber ->
      NoDup (emitted ++ (PacketNumber <$> sendQueue h))
      /\ Forall (fun n => 0 <= n < sendSequence h) (emitted ++ (PacketNumber <$> sendQueue h)))
  /\ (forall pn pp, pendingPackets h !! pn = Some pp -> Retries pp = 0).

Lemma nextSendSequence_spec h :
  0 <= sendSequence h <= lastPacketNumber ->
  let '(h', n) := nextSendSequence h in
  n = sendSequence h
  /\ sendSequence h' = Z.min (sendSequence h + 1) lastPacketNumber
  /\ sendQueue h' = sendQueue h /\ pendingPackets h' = pendingPackets h.
Proof.
  intros Hs. unfold nextSendSequence, lastPacketNumber in *.
  destruct (Z.eqb_spec (sendSequence h) 4294967295) as [He|He]; cbn.
  - split_and!; (done || lia).
  - rewrite u32_small by (unfold is_u32; lia). split_and!; (done || lia).
Qed.

Lemma newDataPacket_spec h :
  0 <= sendSequence h <= lastPacketNumber ->
  let '(h', p) := newDataPacket h in
  PacketNumber p = sendSequence h /\ Payload p = [] /\ MessageType p = MessageTypeData
  /\ length (Header p) = ShortHeaderSize /\ length (MAC p) = MACSize /\ EphemeralKey p = []
  /\ sendSequence h' = Z.min (sendSequence h + 1) lastPacketNumber
  /\ sendQueue h' = sendQueue h /\ pendingPackets h' = pendingPackets h.
Proof.
  intros Hs. unfold newDataPacket. pose proof (nextSendSequence_spec h Hs) as Hn.
  destruct (nextSendSequence h) as [h' n]. destruct Hn as (-> & H2 & H3 & H4). 
  cbn [PacketNumber Payload MessageType Header MAC EphemeralKey].
  split_and!; done.
Qed.

(** Taking a number and emitting or queueing it, or dropping it. *)
Lemma inv_take emitted h1 h2 n :
  out_inv emitted h1 -> n = sendSequence h1 ->
  sendSequence h2 = Z.min (sendSequence h1 + 1) lastPacketNumber ->
  (forall pn pp, pendingPackets h2 !! pn = Some pp -> Retries pp = 0) ->
  forall e q, e ++ q ≡ₚ n :: (emitted ++ (PacketNumber <$> sendQueue h1)) ->
  PacketNumber <$> sendQueue h2 = q -> out_inv e h2.
Proof.
  intros (Hs & Hn & _) -> Hs2 Hr e q Hp Hq. unfold out_inv, lastPacketNumber in *.
  split_and!; [lia|lia| |done]. rewrite Hq. intros Hlt. destruct Hn as [Hnd Hb]; [lia|].
  rewrite !Hp. split.
  - constructor; [|done]. intros Hin. rewrite Forall_forall in Hb. apply Hb in Hin. lia.
  - constructor; [lia|]. eapply Forall_impl; [done|]. cbn. lia.
Qed.

Lemma inv_keep emitted h1 h2 :
  out_inv emitted h1 -> sendSequence h1 <= sendSequence h2 <= lastPacketNumber ->
  (forall pn pp, pendingPackets h2 !! pn = Some pp -> Retries pp = 0) ->
  forall e q, e ++ q ⊆+ emitted ++ (PacketNumber <$> sendQueue h1) ->
  PacketNumber <$> sendQueue h2 = q -> out_inv e h2.
Proof.
  intros (Hs & Hn & _) Hs2 Hr e q Hp Hq. split_and!; [lia|lia| |done]. rewrite Hq. intros Hlt.
  destruct Hn as [Hnd Hb]; [lia|]. split.
  { apply submseteq_Permutation in Hp as [k Hk]. rewrite Hk in Hnd.
    by apply NoDup_app in Hnd as [? _]. }
  rewrite Forall_forall in *. intros x Hx.
  assert (Hx' : x ∈ emitted ++ (PacketNumber <$> sendQueue h1)) by (by eapply elem_of_submseteq).
  specialize (Hb x Hx'). lia.
Qed.
Lemma sendPacketDirect_frame env rtt now h p :
  let h' := (sendPacketDirect env rtt now h p).1 in
  sendSequence h' = sendSequence h /\ sendQueue h' = sendQueue h
  /\ ((forall pn pp, pendingPackets h !! pn = Some pp -> Retries pp = 0) ->
      forall pn pp, pendingPackets h' !! pn = Some pp -> Retries pp = 0).
Proof.
  cbv zeta. unfold sendPacketDirect. destruct (encryptDataPayload env p) as [[p1 pl]|e]; [|done].
  destruct (Packet.Serialize _) as [p2 [data|e]]; [|done].
  destruct (protect env data) as [d|]; [|done]. destruct (negb _); [done|]. cbn [fst].
  set (h1 := if decide _ then count_sent h else h).
  assert (Hh1 : sendSequence h1 = sendSequence h /\ sendQueue h1 = sendQueue h
    /\ pendingPackets h1 = pendingPackets h) by (unfold h1; by case_decide).
  clearbody h1. destruct Hh1 as (H1 & H2 & H3). unfold trackPendingPacket.
  case_decide; [by rewrite H1, H2, H3|]. split_and!; [done..|].
  intros Hr pn pp. cbn [set_pendingPackets pendingPackets].
  intros [[_ <-]|[_ Hl]]%lookup_insert_Some; [done|]. rewrite H3 in Hl. by eapply Hr.
Qed.

Lemma retransmit_one_inv emitted rto now h pn pp :
  out_inv emitted h -> out_inv emitted (retransmit_one rto now h pn pp).
Proof.
  intros Hinv. pose proof Hinv as (Hs & Hn & Hr). unfold retransmit_one.
  destruct (now <? NextRetry pp); [done|].
  assert (Hdel : forall (m : gmap Z PendingPacket), m ⊆ pendingPackets h ->
    forall n x, m !! n = Some x -> Retries x = 0).
  { intros m Hm n x Hx. eapply Hr. by eapply lookup_weaken. }
  destruct (maxPacketRetries <=? Retries pp).
  { eapply inv_keep; [done|cbn; lia|apply Hdel, delete_subseteq|reflexivity|done]. }
  set (h0 := set_pendingPackets h _).
  pose proof (newDataPacket_spec h0 Hs) as Hp. destruct (newDataPacket h0) as [h1 p].
  destruct Hp as (P1 & _ & _ & _ & _ & _ & P2 & P3 & P4).
  assert (Hd1 : delete pn (pendingPackets h1) ⊆ pendingPackets h).
  { rewrite P4. unfold h0. cbn. rewrite delete_insert_eq. apply delete_subseteq. }
  cbn [set_pendingPackets sendQueue]. rewrite P3. unfold h0. cbn [set_pendingPackets sendQueue].
  case_decide.
  - eapply (inv_take emitted h); [done|exact P1|exact P2|by apply Hdel| |].
    + rewrite (Permutation_cons_append (_ ++ _)), <- app_assoc. reflexivity.
    + cbn. by rewrite fmap_app.
  - eapply (inv_keep emitted h); [done| |by apply Hdel|reflexivity|by cbn; rewrite P3].
    cbn. rewrite P2. unfold h0. cbn. unfold lastPacketNumber in *. lia.
Qed.

Lemma retransmit_loop_inv emitted rto now l h :
  out_inv emitted h -> out_inv emitted (retransmit_loop rto now h l).
Proof.
  revert h. induction l as [|[pn pp] l IH]; intros h Hinv; [done|].
  by apply IH, retransmit_one_inv.
Qed.

Lemma out_step_inv emitted h ns h' :
  out_step h ns h' -> out_inv emitted h -> out_inv (emitted ++ ns) h'.
Proof.
  destruct 1 as [h block abort|env rtt now h packet q Hq|env rtt now h h1 packet payload Hp
    |rtt now h|h acked]; intros Hinv; pose proof Hinv as (Hs & Hn & Hr); rewrite ?app_nil_r.
  - unfold writeBlock. pose proof (newDataPacket_spec h Hs) as Hp.
    destruct (newDataPacket h) as [h1 p]. destruct Hp as (P1 & _ & _ & _ & _ & _ & P2 & P3 & P4).
    assert (Hdrop : out_inv emitted h1).
    { eapply inv_keep; [done|unfold lastPacketNumber in *; lia|by rewrite P4|reflexivity|by rewrite P3]. }
    destruct (SerializeBlocks [block]) as [payload|e]; [|done]. destruct abort; [done|].
    eapply (inv_take emitted h); [done|exact P1|exact P2|by cbn; rewrite P4| |cbn; by rewrite fmap_app].
    rewrite (Permutation_cons_append (_ ++ _)), <- app_assoc, P3. reflexivity.
  - unfold send_next. rewrite Hq.
    destruct (sendPacketDirect_frame env rtt now (set_sendQueue h q) packet) as (F1 & F2 & F3).
    eapply (inv_keep emitted h); [done|rewrite F1; cbn; lia|by apply F3| |by rewrite F2].
    rewrite Hq, <- app_assoc. reflexivity.
  - pose proof (newDataPacket_spec h Hs) as Hd. rewrite Hp in Hd.
    destruct Hd as (P1 & _ & _ & _ & _ & _ & P2 & P3 & P4).
    destruct (sendPacketDirect_frame env rtt now h1 (with_payload packet payload)) as (F1 & F2 & F3).
    eapply (inv_take emitted h); [done|exact P1|by rewrite F1|apply F3; by rewrite P4| |by rewrite F2, P3].
    rewrite <- app_assoc. symmetry. apply Permutation_middle.
  - by apply retransmit_loop_inv.
  - eapply (inv_keep emitted h); [done|cbn; lia| |reflexivity|done].
    cbn. clear -Hr. revert Hr. generalize (pendingPackets h). clear h.
    induction acked as [|a acked IH]; intros m Hr; [done|]. cbn [foldl]. apply IH.
    intros pn pp [_ Hl]%lookup_delete_Some. by eapply Hr.
Qed.

Lemma out_run_inv h ns h' : out_run h ns h' -> out_inv [] h -> out_inv ns h'.
Proof.
  intros Hr Hi. induction Hr as [|h1 ns1 h2 ns2 h3 Hr IH Hs]; [done|].
  eapply out_step_inv; [done|]. by apply IH.
Qed.

Lemma assemble_inv nextNonce connID : out_inv [] (assembleSSU2Conn nextNonce connID).
Proof.
  split; [done|]. split; [intros _; split; constructor|].
  intros pn pp Hl. cbn in Hl. by rewrite lookup_empty in Hl.
Qed.

(** C28: AEAD nonces are never reused: in any run of a new connection's sending
    side (writes, sends, failures, direct sends, retransmissions, acknowledgments)
    under one key that has not exhausted the packet numbers, the nonces are
    pairwise distinct and below the next one. *)
Theorem nonces_never_reused (nextNonce : bool) (connID : Z) (nonces : list Z) (h : SSU2Conn) :
  out_run (assembleSSU2Conn nextNonce connID) nonces h -> sendSequence h < lastPacketNumber ->
  NoDup nonces /\ Forall (fun n => 0 <= n < sendSequence h) nonces.
Proof.
  intros Hrun Hlt. destruct (out_run_inv _ _ _ Hrun (assemble_inv _ _)) as (_ & Hn & _).
  destruct (Hn Hlt) as [Hnd Hb]. apply NoDup_app in Hnd as [Hnd _].
  apply Forall_app in Hb as [Hb _]. done.
Qed.

(** the retry limit is never reached: in every state of every run each packet
    that waits for an acknowledgment has a retry count of zero, because a
    retransmission is tracked as a new packet; so [maxPacketRetries] and the
    back-off have no effect and an unacknowledged packet is resent forever. *)
Theorem retry_limit_never_reached (nextNonce : bool) (connID : Z) (nonces : list Z) (h : SSU2Conn)
    (pn : Z) (pp : PendingPacket) :
  out_run (assembleSSU2Conn nextNonce connID) nonces h -> pendingPackets h !! pn = Some pp ->
  Retries pp = 0 /\ (maxPacketRetries <=? Retries pp) = false.
Proof.
  intros Hrun Hpp. destruct (out_run_inv _ _ _ Hrun (assemble_inv _ _)) as (_ & _ & Hr).
  by rewrite (Hr pn pp Hpp).
Qed.
(** One iteration on a packet that is due. *)
Lemma retransmit_one_due rto now h pn pp :
  0 <= sendSequence h <= lastPacketNumber -> NextRetry pp <= now -> Retries pp < maxPacketRetries ->
  (length (sendQueue h) < sendQueueCap)%nat ->
  let h' := retransmit_one rto now h pn pp in
  sendSequence h' = Z.min (sendSequence h + 1) lastPacketNumber
  /\ pendingPackets h' = delete pn (pendingPackets h)
  /\ exists p, sendQueue h' = sendQueue h ++ [p] /\ PacketNumber p = sendSequence h
     /\ Payload p = PlaintextPayload pp.
Proof.
  intros Hs Hd Hr Hq. cbv zeta. unfold retransmit_one.
  destruct (Z.ltb_spec now (NextRetry pp)); [lia|].
  destruct (Z.leb_spec maxPacketRetries (Retries pp)); [lia|].
  set (h0 := set_pendingPackets h _). pose proof (newDataPacket_spec h0 Hs) as Hp.
  destruct (newDataPacket h0) as [h1 p]. destruct Hp as (P1 & _ & _ & _ & _ & _ & P2 & P3 & P4).
  cbn [set_pendingPackets sendQueue]. rewrite P3, decide_True by done.
  cbn. rewrite P4. unfold h0. cbn. split_and!; [done|by rewrite delete_insert_eq|].
  by eexists.
Qed.

Lemma retransmit_loop_spec rto now l h :
  0 <= sendSequence h -> sendSequence h + zlen l < lastPacketNumber ->
  (length (sendQueue h) + length l <= sendQueueCap)%nat -> NoDup l.*1 ->
  (forall pn pp, (pn, pp) ∈ l -> Retries pp < maxPacketRetries) ->
  let h' := retransmit_loop rto now h l in
  sendSequence h <= sendSequence h'
  /\ (forall p, p ∈ sendQueue h -> p ∈ sendQueue h')
  /\ (forall pn, pn ∉ l.*1 -> pendingPackets h' !! pn = pendingPackets h !! pn)
  /\ (forall pn pp, (pn, pp) ∈ l -> now < NextRetry pp ->
      pendingPackets h' !! pn = pendingPackets h !! pn)
  /\ (forall pn pp, (pn, pp) ∈ l -> NextRetry pp <= now ->
      pendingPackets h' !! pn = None
      /\ exists p, p ∈ sendQueue h' /\ Payload p = PlaintextPayload pp
         /\ sendSequence h <= PacketNumber p < sendSequence h').
Proof.
  revert h. induction l as [|[pn pp] l IH]; intros h Hs Hlast Hq Hnd Hr; cbn [retransmit_loop].
  { split_and!; try done; try lia; intros ? ? ?%elem_of_nil; done. }
  rewrite zlen_cons in Hlast. cbn [length] in Hq. inversion_clear Hnd as [|? ? Hni Hnd'].
  pose proof (zlen_nonneg l) as Hl0. cbn [fst] in Hni.
  assert (Hr' : forall pn pp, (pn, pp) ∈ l -> Retries pp < maxPacketRetries)
    by (intros n x Hx; apply (Hr n x); by right).
  destruct (Z.ltb_spec now (NextRetry pp)) as [Hd|Hd].
  - assert (H1 : retransmit_one rto now h pn pp = h).
    { unfold retransmit_one. by destruct (Z.ltb_spec now (NextRetry pp)); [|lia]. }
    rewrite H1. destruct (IH h Hs ltac:(lia) ltac:(lia) Hnd' Hr') as (I1 & I2 & I3 & I4 & I5).
    split_and!; [done..| | |].
    + intros n Hn. apply I3. cbn in Hn. set_solver.
    + intros n x [[= -> ->]|Hx]%elem_of_cons Hlt; [by apply I3|by apply (I4 n x)].
    + intros n x [[= -> ->]|Hx]%elem_of_cons Hle; [lia|by apply (I5 n x)].
  - destruct (retransmit_one_due rto now h pn pp) as (O1 & O2 & p & O3 & O4 & O5);
      [lia|lia|apply (Hr pn pp); by left|lia|].
    set (h1 := retransmit_one rto now h pn pp) in *.
    assert (Hs1 : sendSequence h1 = sendSequence h + 1) by lia.
    destruct (IH h1 ltac:(lia) ltac:(lia)) as (I1 & I2 & I3 & I4 & I5);
      [rewrite O3, length_app; cbn; lia|done|done|].
    assert (Hpn : forall n, n <> pn -> pendingPackets h1 !! n = pendingPackets h !! n)
      by (intros n Hn; by rewrite O2, lookup_delete_ne).
    split_and!; [lia| | | |].
    + intros x Hx. apply I2. rewrite O3. set_solver.
    + intros n Hn. cbn in Hn. rewrite I3, Hpn by set_solver. done.
    + intros n x [[= -> ->]|Hx]%elem_of_cons Hlt; [lia|]. rewrite (I4 n x Hx Hlt). apply Hpn.
      intros ->. apply Hni. by apply (list_elem_of_fmap_2 fst) in Hx.
    + intros n x [[= -> ->]|Hx]%elem_of_cons Hle.
      * split; [by rewrite I3, O2, lookup_delete_eq|]. exists p. split; [|split; [done|lia]].
        apply I2. rewrite O3. set_solver.
      * destruct (I5 n x Hx Hle) as (J1 & q & J2 & J3 & J4). split; [done|]. exists q.
        split_and!; [done..|lia|lia].
Qed.

(** retransmission loses nothing and never repeats a number: with room in
    the queue and packet numbers left, every packet whose deadline has passed and
    whose retry count is below the limit is removed from the pending set and its
    payload is queued again under a number not used before; the others stay. *)
Theorem retransmission_keeps_payloads (rtt : RTTEstimator) (now : Z) (h : SSU2Conn) :
  0 <= sendSequence h -> sendSequence h + Z.of_nat (size (pendingPackets h)) < lastPacketNumber ->
  (length (sendQueue h) + size (pendingPackets h) <= sendQueueCap)%nat ->
  (forall pn pp, pendingPackets h !! pn = Some pp -> Retries pp < maxPacketRetries) ->
  let h' := retransmitExpired rtt now h in
  forall pn pp, pendingPackets h !! pn = Some pp ->
  if now <? NextRetry pp then pendingPackets h' !! pn = Some pp
  else pendingPackets h' !! pn = None
       /\ exists p, p ∈ sendQueue h' /\ Payload p = PlaintextPayload pp
          /\ sendSequence h <= PacketNumber p < sendSequence h'.
Proof.
  intros Hs Hlast Hq Hr. cbv zeta. intros pn pp Hpp.
  assert (Hlen : length (go_range (pendingPackets h)) = size (pendingPackets h))
    by (by rewrite (go_range_perm (pendingPackets h)), length_map_to_list).
  destruct (retransmit_loop_spec (RTTEstimator_GetRTO rtt) now (go_range (pendingPackets h)) h)
    as (_ & _ & _ & I4 & I5).
  - done.
  - unfold zlen. lia.
  - lia.
  - rewrite (go_range_perm (pendingPackets h)). apply NoDup_fst_map_to_list.
  - intros n x Hx%go_range_elem. by eapply Hr.
  - apply go_range_elem in Hpp as Hin. destruct (Z.ltb_spec now (NextRetry pp)).
    + unfold retransmitExpired. by rewrite (I4 pn pp Hin).
    + by apply (I5 pn pp Hin).
Qed.
End Runs.

(** ** Edges of the number space *)

(** Once the numbers are exhausted every packet built gets the last one, until
    the [Close] that was started takes effect. *)
Lemma exhausted_number_repeats h :
  sendSequence h = lastPacketNumber ->
  let '(h1, p1) := newDataPacket h in
  let '(_, p2) := newDataPacket h1 in
  PacketNumber p1 = lastPacketNumber /\ PacketNumber p2 = lastPacketNumber /\ closing h1 = true.
Proof.
  intros Hs. unfold newDataPacket, nextSendSequence. rewrite Hs, Z.eqb_refl. done.
Qed.

(** The first packet of a connection is never tracked for retransmission. *)
Lemma first_packet_untracked h packet plaintext rto now :
  PacketNumber packet = 0 -> trackPendingPacket h packet plaintext rto now = h.
Proof. intros H0. unfold trackPendingPacket. rewrite decide_True; auto. Qed.

(** ** Witnesses *)

(** A channel that appends a zero tag and sends in the clear. *)
Definition demo_env : SendEnv :=
  mkEnv (Some (fun _ _ pt => Some (pt ++ replicate 16 x00))) None Some true.

Definition demo_pending_range : GoRange Z PendingPacket := range_map_to_list Z PendingPacket.

Definition demo_block : SSU2Block := mkBlock BlockTypeI2NPMessage (replicate 20 x01).

(** Two blocks written and sent: packet 0 is not tracked, packet 1 is. *)
Definition demo_written : SSU2Conn :=
  (writeBlock (writeBlock (assembleSSU2Conn false 7) demo_block None).1 demo_block None).1.

Definition demo_sent : SSU2Conn :=
  let send := send_next (H := amd64_conv) demo_env NewRTTEstimator 5 in send (send demo_written).

Lemma demo_send_step h n :
  head (PacketNumber <$> sendQueue h) = Some n ->
  out_step (H := amd64_conv) (R := demo_pending_range) h [n]
    (send_next (H := amd64_conv) demo_env NewRTTEstimator 5 h).
Proof.
  intros Hn. destruct (sendQueue h) as [|packet q] eqn:Hq; [done|]. cbn in Hn.
  apply (inj Some) in Hn as <-. by apply (os_send (H := amd64_conv) demo_env _ 5 h packet q).
Qed.

Lemma demo_run :
  out_run (H := amd64_conv) (R := demo_pending_range) (assembleSSU2Conn false 7)
    [0; 1] demo_sent.
Proof.
  pose proof (@or_step amd64_conv demo_pending_range) as step.
  apply (step _ [0] (send_next (H := amd64_conv) demo_env NewRTTEstimator 5 demo_written) [1]).
  - apply (step _ [] demo_written [0]); [|apply demo_send_step; vm_compute; reflexivity].
    apply (step _ [] (writeBlock (assembleSSU2Conn false 7) demo_block None).1 []); [|apply os_write].
    apply (step _ [] (assembleSSU2Conn false 7) []); [constructor|apply os_write].
  - apply demo_send_step. vm_compute. reflexivity.
Qed.

Lemma nonces_never_reused_witness :
  sendSequence demo_sent < lastPacketNumber
  /\ NoDup [0; 1] /\ Forall (fun n => 0 <= n < sendSequence demo_sent) [0; 1].
Proof.
  split; [vm_compute; reflexivity|].
  apply (nonces_never_reused (H := amd64_conv) (R := demo_pending_range) false 7 [0; 1] demo_sent);
    [apply demo_run|vm_compute; reflexivity].
Defined.

Lemma retry_limit_never_reached_witness :
  exists pp, pendingPackets demo_sent !! 1 = Some pp /\ Retries pp = 0.
Proof.
  destruct (pendingPackets demo_sent !! 1) as [pp|] eqn:Hpp; [|vm_compute in Hpp; discriminate].
  exists pp. split; [reflexivity|].
  exact (proj1 (retry_limit_never_reached (H := amd64_conv) (R := demo_pending_range)
    false 7 [0; 1] demo_sent 1 pp demo_run Hpp)).
Defined.

Lemma retransmission_keeps_payloads_witness :
  exists pp, pendingPackets demo_sent !! 1 = Some pp
  /\ exists p, p ∈ sendQueue (retransmitExpired (H := amd64_conv) (R := demo_pending_range)
       NewRTTEstimator (60 * Second) demo_sent)
     /\ Payload p = PlaintextPayload pp /\ PacketNumber p = 2.
Proof.
  destruct (pendingPackets demo_sent !! 1) as [pp|] eqn:Hpp; [|vm_compute in Hpp; discriminate].
  exists pp. split; [reflexivity|].
  pose proof (retransmission_keeps_payloads (H := amd64_conv) (R := demo_pending_range)
    NewRTTEstimator (60 * Second) demo_sent) as T.
  assert (Hr : forall pn pp, pendingPackets demo_sent !! pn = Some pp -> Retries pp < maxPacketRetries).
  { intros n x Hx. assert (Hm : pendingPackets demo_sent = {[1 := pp]}).
    { vm_compute in Hpp |- *. injection Hpp as <-. reflexivity. }
    rewrite Hm in Hx. apply lookup_singleton_Some in Hx as [_ <-].
    vm_compute in Hpp. injection Hpp as <-. reflexivity. }
  specialize (T ltac:(vm_compute; discriminate) ltac:(vm_compute; reflexivity)
    ltac:(vm_compute; lia) Hr 1 pp Hpp).
  assert (Hdue : (60 * Second <? NextRetry pp) = false)
    by (vm_compute in Hpp; injection Hpp as <-; reflexivity).
  rewrite Hdue in T. destruct T as (_ & p & T1 & T2 & T3). exists p. split; [done|]. split; [done|].
  assert (H2 : sendSequence demo_sent = 2) by (vm_compute; reflexivity).
  assert (H3 : sendSequence (retransmitExpired (H := amd64_conv) (R := demo_pending_range)
    NewRTTEstimator (60 * Second) demo_sent) = 3) by (vm_compute; reflexivity).
  rewrite H2, H3 in T3. lia.
Defined.
