(* ===== verification/Session.v ===== *)
(** * A connection

    The receiving side of [SSU2Conn] and what ties the components of a connection
    together: [ssu2/session/conn_read.go], the acknowledgment, rekeying and
    sending parts of [conn_write.go] that Outbound leaves open, [conn_state.go],
    [conn_data.go], closing and path packets of [conn_lifecycle.go], and the
    routing of packets to connections ([packet_router.go]).

    A step returns the connection and the datagrams it sent. The AEAD of the Noise
    library and the key derivation are operations of the class [SSU2Cipher];
    clock readings and whether the socket accepts a datagram are arguments. A
    callback that the data handler invokes is applied to the connection when the
    packet's blocks have been processed: the callbacks that the connection installs
    use other parts of it than the data handler does. *)

From Stdlib Require Import Strings.Byte.
From stdpp Require Import base numbers list gmap strings.
From S2P Require Import Prelude Float64 AckHandler RTTEstimator Congestion Modifiers HeaderProtection.
From S2P Require Import Block Packet ReceiveWindow Fragments DataPhase Outbound.

#[local] Open Scope Z_scope.

Class SSU2Cipher (K : Type) := {
  seal : K -> Z -> bytes -> bytes -> option bytes;     (* nonce, AD, plaintext *)
  unseal : K -> Z -> bytes -> bytes -> option bytes;   (* nonce, AD, ciphertext *)
  derive_rekey : K -> option K;
  unseal_seal : forall k n ad pt ct, seal k n ad pt = Some ct -> unseal k n ad ct = Some pt;
  seal_length : forall k n ad pt ct, seal k n ad pt = Some ct -> length ct = (length pt + 16)%nat;
}.

Definition recvQueueCap : nat := 64.

Record Conn (K : Type) := mkSession {
  out : SSU2Conn;
  established : bool;
  closed : bool;
  initiator : bool;
  headerProtector : option HeaderProtectorManager;
  sipHashModifier : option LengthModifier;
  sendCipher : option K;
  recvCipher : option K;
  recvWindow : ReceiveWindow;
  ackHandler : ACKHandler;
  dataHandler : DataHandler;
  rttEst : RTTEstimator;
  congestionController : CongestionController;
  recvQueue : list SSU2Packet;
  validDataPacketsReceived : Z;
  parseErrors : Z;
  decryptErrors : Z;
  pendingMessage : bytes;
  lastActivity : Z;
}.

Arguments mkSession {K}.
Arguments out {K}.
Arguments established {K}.
Arguments closed {K}.
Arguments initiator {K}.
Arguments headerProtector {K}.
Arguments sipHashModifier {K}.
Arguments sendCipher {K}.
Arguments recvCipher {K}.
Arguments recvWindow {K}.
Arguments ackHandler {K}.
Arguments dataHandler {K}.
Arguments rttEst {K}.
Arguments congestionController {K}.
Arguments recvQueue {K}.
Arguments validDataPacketsReceived {K}.
Arguments parseErrors {K}.
Arguments decryptErrors {K}.
Arguments pendingMessage {K}.
Arguments lastActivity {K}.

(** ** Field updates *)

Section Updates.
Context {K : Type}.

Definition set_out (c : Conn K) (o : SSU2Conn) : Conn K :=
  mkSession o (established c) (closed c) (initiator c) (headerProtector c) (sipHashModifier c)
    (sendCipher c) (recvCipher c) (recvWindow c) (ackHandler c) (dataHandler c) (rttEst c)
    (congestionController c) (recvQueue c) (validDataPacketsReceived c) (parseErrors c)
    (decryptErrors c) (pendingMessage c) (lastActivity c).

Definition set_sip (c : Conn K) (m : option LengthModifier) : Conn K :=
  mkSession (out c) (established c) (closed c) (initiator c) (headerProtector c) m
    (sendCipher c) (recvCipher c) (recvWindow c) (ackHandler c) (dataHandler c) (rttEst c)
    (congestionController c) (recvQueue c) (validDataPacketsReceived c) (parseErrors c)
    (decryptErrors c) (pendingMessage c) (lastActivity c).

Definition set_ciphers (c : Conn K) (s r : option K) : Conn K :=
  mkSession (out c) (established c) (closed c) (initiator c) (headerProtector c) (sipHashModifier c)
    s r (recvWindow c) (ackHandler c) (dataHandler c) (rttEst c)
    (congestionController c) (recvQueue c) (validDataPacketsReceived c) (parseErrors c)
    (decryptErrors c) (pendingMessage c) (lastActivity c).

Definition set_recv (c : Conn K) (rw : ReceiveWindow) (ah : ACKHandler) (dh : DataHandler)
    (valid : Z) : Conn K :=
  mkSession (out c) (established c) (closed c) (initiator c) (headerProtector c) (sipHashModifier c)
    (sendCipher c) (recvCipher c) rw ah dh (rttEst c)
    (congestionController c) (recvQueue c) valid (parseErrors c)
    (decryptErrors c) (pendingMessage c) (lastActivity c).

Definition set_window (c : Conn K) (rw : ReceiveWindow) : Conn K :=
  set_recv c rw (ackHandler c) (dataHandler c) (validDataPacketsReceived c).

Definition set_ack (c : Conn K) (ah : ACKHandler) : Conn K :=
  set_recv c (recvWindow c) ah (dataHandler c) (validDataPacketsReceived c).

Definition set_handler (c : Conn K) (dh : DataHandler) : Conn K :=
  set_recv c (recvWindow c) (ackHandler c) dh (validDataPacketsReceived c).

Definition count_received (c : Conn K) : Conn K :=
  set_recv c (recvWindow c) (ackHandler c) (dataHandler c) (u64 (validDataPacketsReceived c + 1)).

Definition set_congestion (c : Conn K) (cc : CongestionController) : Conn K :=
  mkSession (out c) (established c) (closed c) (initiator c) (headerProtector c) (sipHashModifier c)
    (sendCipher c) (recvCipher c) (recvWindow c) (ackHandler c) (dataHandler c) (rttEst c)
    cc (recvQueue c) (validDataPacketsReceived c) (parseErrors c)
    (decryptErrors c) (pendingMessage c) (lastActivity c).

Definition set_recvQueue (c : Conn K) (q : list SSU2Packet) : Conn K :=
  mkSession (out c) (established c) (closed c) (initiator c) (headerProtector c) (sipHashModifier c)
    (sendCipher c) (recvCipher c) (recvWindow c) (ackHandler c) (dataHandler c) (rttEst c)
    (congestionController c) q (validDataPacketsReceived c) (parseErrors c)
    (decryptErrors c) (pendingMessage c) (lastActivity c).

Definition set_errors (c : Conn K) (parse decrypt : Z) : Conn K :=
  mkSession (out c) (established c) (closed c) (initiator c) (headerProtector c) (sipHashModifier c)
    (sendCipher c) (recvCipher c) (recvWindow c) (ackHandler c) (dataHandler c) (rttEst c)
    (congestionController c) (recvQueue c) (validDataPacketsReceived c) parse
    decrypt (pendingMessage c) (lastActivity c).

Definition set_pendingMessage (c : Conn K) (m : bytes) : Conn K :=
  mkSession (out c) (established c) (closed c) (initiator c) (headerProtector c) (sipHashModifier c)
    (sendCipher c) (recvCipher c) (recvWindow c) (ackHandler c) (dataHandler c) (rttEst c)
    (congestionController c) (recvQueue c) (validDataPacketsReceived c) (parseErrors c)
    (decryptErrors c) m (lastActivity c).

Definition updateActivity (c : Conn K) (now : Z) : Conn K :=
  mkSession (out c) (established c) (closed c) (initiator c) (headerProtector c) (sipHashModifier c)
    (sendCipher c) (recvCipher c) (recvWindow c) (ackHandler c) (dataHandler c) (rttEst c)
    (congestionController c) (recvQueue c) (validDataPacketsReceived c) (parseErrors c)
    (decryptErrors c) (pendingMessage c) now.

Definition set_state (c : Conn K) (est cl : bool) : Conn K :=
  mkSession (out c) est cl (initiator c) (headerProtector c) (sipHashModifier c)
    (sendCipher c) (recvCipher c) (recvWindow c) (ackHandler c) (dataHandler c) (rttEst c)
    (congestionController c) (recvQueue c) (validDataPacketsReceived c) (parseErrors c)
    (decryptErrors c) (pendingMessage c) (lastActivity c).
End Updates.

(** ** Sending *)

Section Operations.
Context {K : Type} `{SSU2Cipher K} `{ChaCha20Lib} `{SipHashLib} `{FloatConv}.
Context {R : GoRange Z FragmentSet} {P : PathLib} {CbError : Type}.

(** [applyOutboundHeaderProtection] *)
Definition outbound_protection (c : Conn K) (messageType : byte) (data : bytes) : option bytes :=
  match headerProtector c with
  | None => Some data
  | Some m =>
      match EncryptOutboundHeader m data (messageTypeToHeaderType messageType) with
      | (data, None) => Some data
      | (_, Some _) => None
      end
  end.

(** [sendPacketDirect] of Outbound with the parts of the connection it uses: the
    mask of the length is only drawn for a data packet that was encrypted. *)
Definition send_packet (c : Conn K) (net_ok : bool) (now : Z) (packet : SSU2Packet)
    : Conn K * result SendError bytes :=
  let env mask := mkEnv (seal <$> sendCipher c) mask
                    (outbound_protection c (MessageType packet)) net_ok in
  let masked := bool_decide (MessageType packet = MessageTypeData)
                && is_ok (encryptDataPayload (env None) packet) in
  let '(c, mask) :=
    match sipHashModifier c with
    | Some m => if masked then let '(m, mask) := NextOutboundMask m in (set_sip c (Some m), Some mask)
                else (c, None)
    | None => (c, None)
    end in
  match sendPacketDirect (env mask) (rttEst c) now (out c) packet with
  | (o, Err e) => (set_out c o, Err e)
  | (o, Ok data) => (updateActivity (set_out c o) now, Ok data)
  end.

Definition datagrams (r : result SendError bytes) : list bytes :=
  match r with Ok data => [data] | Err _ => [] end.

(** One turn of [sendLoop]; errors are skipped. *)
Definition send_loop_turn (c : Conn K) (net_ok : bool) (now : Z) : Conn K * list bytes :=
  match sendQueue (out c) with
  | [] => (c, [])
  | packet :: q =>
      let '(c, r) := send_packet (set_out c (set_sendQueue (out c) q)) net_ok now packet in
      (c, datagrams r)
  end.

Definition Session_Write (c : Conn K) (mtu : Z) (msgIDBuf : option bytes) (unix : Z) (b : bytes)
    : Conn K * result WriteError Z :=
  let '(o, r) := Write (established c) mtu msgIDBuf unix (out c) b in (set_out c o, r).

Definition sendImmediateACK (c : Conn K) (net_ok : bool) (now : Z) : Conn K * list bytes :=
  match GenerateACK (ackHandler c) now with
  | (ah, None) => (set_ack c ah, [])
  | (ah, Some ack) =>
      let c := set_ack c ah in
      let '(o, packet) := newDataPacket (out c) in
      let payload := match SerializeBlocks [ack] with Ok payload => payload | Err _ => [] end in
      let '(c, r) := send_packet (set_out c o) net_ok now (with_payload packet payload) in
      (c, datagrams r)
  end.

Definition handleCongestionBlock (c : Conn K) (flags : byte) (net_ok : bool) (now : Z)
    : Conn K * list bytes :=
  let '(c, sent) := if Z.testbit (b2z flags) 0 then sendImmediateACK c net_ok now else (c, []) in
  (if Z.testbit (b2z flags) 1
   then set_congestion c (OnECN (fun _ => rttEst c) (congestionController c) now) else c, sent).

Definition handlePeerNextNonce (c : Conn K) : Conn K :=
  match recvCipher c with
  | None => c
  | Some k =>
      match derive_rekey k with
      | None => c
      | Some k => set_ciphers c (sendCipher c) (Some k)
      end
  end.

(** [SendToAddress]: the packet goes out as it is serialised. *)
Definition SendToAddress (c : Conn K) (block : SSU2Block) : Conn K * result SendError bytes :=
  let '(o, packet) := newDataPacket (out c) in
  let c := set_out c o in
  match SerializeBlocks [block] with
  | Err e => (c, Err (ESerializeBlocks e))
  | Ok payload =>
      match Packet.Serialize (with_payload packet payload) with
      | (_, Err e) => (c, Err (ESerializePacket e))
      | (_, Ok data) => (c, Ok data)
      end
  end.

(** [sendNextNonceInline]; a failure of the header protection is ignored. *)
Definition sendNextNonceInline (c : Conn K) (k : K) (net_ok : bool) (now : Z)
    : Conn K * result SendError bytes :=
  let o := out c in
  let pktNum := sendSequence o in
  let c := set_out c (set_sequence o (u32 (pktNum + 1)) (rekeyInFlight o) (closing o)) in
  match SerializeBlocks [mkBlock BlockTypeNextNonce (replicate 8 x00)] with
  | Err e => (c, Err (ESerializeBlocks e))
  | Ok payload =>
      let hdr := be_encode 8 (remoteConnectionID o) ++ be_encode 4 pktNum
                 ++ [MessageTypeData] ++ replicate 3 x00 in
      match seal k pktNum (take ShortHeaderSize hdr) payload with
      | None => (c, Err EEncrypt)
      | Some encrypted =>
          let packet := mkPacket hdr [] encrypted (replicate MACSize x00) MessageTypeData pktNum 0 in
          let '(c, packet) :=
            match sipHashModifier c with
            | Some m =>
                let '(m, mask) := NextOutboundMask m in
                let v := Z.lxor (u16 (zlen encrypted)) mask in
                (set_sip c (Some m),
                 set_header_byte (set_header_byte packet 14 (z2b (Z.shiftr v 8))) 15 (z2b v))
            | None => (c, packet)
            end in
          match Packet.Serialize packet with
          | (_, Err e) => (c, Err (ESerializePacket e))
          | (_, Ok data) =>
              let data := match headerProtector c with
                          | Some m => (EncryptOutboundHeader m data HeaderTypeData).1
                          | None => data
                          end in
              if net_ok then (updateActivity c now, Ok data) else (c, Err ENetwork)
          end
      end
  end.

Definition initiateRekey (c : Conn K) (net_ok : bool) (now : Z) : Conn K * list bytes :=
  match sendCipher c with
  | None => (c, [])
  | Some k =>
      match derive_rekey k with
      | None => (c, [])
      | Some newKey =>
          match sendNextNonceInline c k net_ok now with
          | (c, Err _) => (c, [])
          | (c, Ok data) =>
              let o := out c in
              (set_ciphers (set_out c (set_sequence o 0 (rekeyInFlight o) (closing o)))
                 (Some newKey) (recvCipher c), [data])
          end
      end
  end.

(** ** Receiving *)

(** [binary.BigEndian.PutUint16(data[14:16], v)] *)
Definition put_length (data : bytes) (v : Z) : bytes :=
  <[14%nat := z2b (Z.shiftr v 8)]> (<[15%nat := z2b v]> data).

(** The part of [parseInboundPacket] before the cipher: the header protection is removed,
    the length field restored, the packet parsed. *)
Definition unwrap_datagram (c : Conn K) (data : bytes) (now : Z) : Conn K * option SSU2Packet :=
  let parse_error c := (set_errors c (u64 (parseErrors c + 1)) (decryptErrors c), None) in
  match (match headerProtector c with
         | None => (data, None)
         | Some m =>
             DecryptInboundHeader m data (expectedInboundHeaderType (established c) (initiator c))
         end) with
  | (_, Some _) => parse_error c
  | (data, None) =>
      let '(c, data) :=
        match sipHashModifier c with
        | Some m =>
            if decide (ShortHeaderSize <= length data)%nat then
              let '(m, mask) := NextInboundMask m in
              (set_sip c (Some m), put_length data (Z.lxor (be_decode (slice 14 16 data)) mask))
            else (c, data)
        | None => (c, data)
        end in
      match Packet.Deserialize (mkPacket [] [] [] [] x00 0 0) data now with
      | (_, Some _) => parse_error c
      | (packet, None) => (c, Some packet)
      end
  end.

(** The part under [cipherMutex]: a Data packet is opened, with its number as nonce and its
    header, the length field zeroed, as associated data. *)
Definition open_packet (cipher : option K) (packet : SSU2Packet) : option SSU2Packet :=
  match cipher with
  | Some k =>
      if decide (MessageType packet = MessageTypeData /\ (0 < length (Payload packet))%nat) then
        let packet := set_header_byte (set_header_byte packet 14 x00) 15 x00 in
        match unseal k (PacketNumber packet) (take ShortHeaderSize (Header packet)) (Payload packet) with
        | None => None
        | Some decrypted => Some (with_payload packet decrypted)
        end
      else Some packet
  | None => Some packet
  end.

(** [InitiatePathValidation] of the path library: [blocks] is what it sends to the new
    address, through [SendToAddress]. *)
Fixpoint initiate_validation (c : Conn K) (blocks : list SSU2Block) : Conn K * list bytes :=
  match blocks with
  | [] => (c, [])
  | block :: rest =>
      let '(c, r) := SendToAddress c block in
      let '(c, sent) := initiate_validation c rest in
      (c, datagrams r ++ sent)
  end.

(** [parseInboundPacket]: [udp] says that the source is a UDP address; [newPath] is [None]
    when it is the peer's, and has the blocks that the path validator sends to it when it is
    another. Also what is sent there. *)
Definition parseInboundPacket (c : Conn K) (data : bytes) (udp : bool) (newPath : option (list SSU2Block)) (now : Z)
    : Conn K * option SSU2Packet * list bytes :=
  if negb udp then (c, None, [])
  else
    match unwrap_datagram c data now with
    | (c, None) => (c, None, [])
    | (c, Some packet) =>
        match open_packet (recvCipher c) packet with
        | None => (set_errors c (parseErrors c) (u64 (decryptErrors c + 1)), None, [])
        | Some packet =>
            let '(c, sent) := match newPath with
                              | Some blocks => initiate_validation c blocks
                              | None => (c, [])
                              end in
            (updateActivity c now, Some packet, sent)
        end
    end.

(** What a callback installed by [wireDataCallbacks] does to the connection. *)
Definition apply_event (c : Conn K) (ev : Event) (net_ok : bool) (now : Z) : Conn K * list bytes :=
  match ev with
  | CallCongestion flags => handleCongestionBlock c flags net_ok now
  | CallNextNonce _ => if enableNextNonce (out c) then (handlePeerNextNonce c, []) else (c, [])
  | _ => (c, [])
  end.

Fixpoint apply_events (c : Conn K) (evs : list Event) (net_ok : bool) (now : Z)
    : Conn K * list bytes :=
  match evs with
  | [] => (c, [])
  | ev :: rest =>
      let '(c, sent1) := apply_event c ev net_ok now in
      let '(c, sent2) := apply_events c rest net_ok now in
      (c, sent1 ++ sent2)
  end.

(** [wireDataCallbacks]. The results of these callbacks are only logged. *)
Definition wireDataCallbacks (nextNonce : bool) (cbs : @DataHandlerCallbacks P CbError)
    : @DataHandlerCallbacks P CbError :=
  {| OnTermination := Some tt;
     OnNewToken := OnNewToken cbs;
     OnRelayRequest := OnRelayRequest cbs;
     OnRelayResponse := OnRelayResponse cbs;
     OnRelayIntro := OnRelayIntro cbs;
     OnRelayTagRequest := OnRelayTagRequest cbs;
     OnRelayTag := OnRelayTag cbs;
     OnPeerTest := OnPeerTest cbs;
     OnPathChallenge := Some (fun _ => None);
     OnPathResponse := Some (fun _ => None);
     OnRouterInfo := OnRouterInfo cbs;
     OnOptions := OnOptions cbs;
     OnAddress := Some (match OnAddress cbs with Some f => f | None => fun _ => None end);
     OnACK := OnACK cbs;
     OnDateTime := OnDateTime cbs;
     OnNextNonce := if nextNonce then Some (fun _ => None) else OnNextNonce cbs;
     OnFirstPacketNumber := OnFirstPacketNumber cbs;
     OnCongestion := Some (fun _ => None);
     VerifyPeerTestSignature := VerifyPeerTestSignature cbs;
     VerifyRelayRequestSignature := VerifyRelayRequestSignature cbs;
     VerifyRelayResponseSignature := VerifyRelayResponseSignature cbs;
     VerifyRelayIntroSignature := VerifyRelayIntroSignature cbs |}.

(** The loop of [processDataPacket] over the blocks of a packet. *)
Fixpoint ack_blocks (c : Conn K) (blocks : list SSU2Block) : Conn K :=
  match blocks with
  | [] => c
  | block :: rest =>
      if decide (Type_ block = BlockTypeACK) then
        let '(ah, r) := ProcessACK (ackHandler c) block in
        let ackedNums := match r with Ok l => l | Err _ => [] end in
        ack_blocks (set_out (set_ack c ah) (retire (out c) ackedNums)) rest
      else ack_blocks c rest
  end.

Definition processDataPacket (cbs : @DataHandlerCallbacks P CbError) (c : Conn K)
    (packet : SSU2Packet) (net_ok : bool) (now : Z) : Conn K * list bytes :=
  let '(dh, evs, (blocks, err)) := ProcessDataPacket cbs (dataHandler c) packet now in
  let '(c, sent) := apply_events (set_handler c dh) evs net_ok now in
  match err with
  | Some _ => (c, sent)
  | None => (ack_blocks c blocks, sent)
  end.

Definition processInboundPacket (cbs : @DataHandlerCallbacks P CbError) (c : Conn K)
    (packet : SSU2Packet) (net_ok : bool) (now : Z) : Conn K * list bytes :=
  let t := MessageType packet in
  let record c := if 0 <? PacketNumber packet
                  then set_ack c (RecordReceived (ackHandler c) (PacketNumber packet)) else c in
  if decide (t = MessageTypeData) then
    match Insert (recvWindow c) (Some packet) with
    | (rw, Err _) => (set_window c rw, [])
    | (rw, Ok _) =>
        let c := count_received (record (set_window c rw)) in
        let '(c, sent1) :=
          if bool_decide (13 < length (Header packet))%nat && Z.testbit (byte_at (Header packet) 13) 0
          then sendImmediateACK c net_ok now else (c, []) in
        let '(c, sent2) := processDataPacket cbs c packet net_ok now in
        (c, sent1 ++ sent2)
    end
  else if decide (t = MessageTypeSessionRequest \/ t = MessageTypeSessionCreated
                  \/ t = MessageTypeSessionConfirmed) then
    let c := record c in
    (if decide (length (recvQueue c) < recvQueueCap)%nat
     then set_recvQueue c (recvQueue c ++ [packet]) else c, [])
  else (c, []).

(** One datagram of [recvLoop]. *)
Definition receive (cbs : @DataHandlerCallbacks P CbError) (c : Conn K) (data : bytes)
    (newPath : option (list SSU2Block)) (net_ok : bool) (now : Z) : Conn K * list bytes :=
  match parseInboundPacket c data true newPath now with
  | (c, Some packet, sent1) =>
      let '(c, sent2) := processInboundPacket cbs c packet net_ok now in (c, sent1 ++ sent2)
  | (c, None, sent) => (c, sent)
  end.

(** ** Reading *)

Inductive ReadError :=
| RNotEstablished
| RClosed
| RDeadline
| RBufferTooSmall (need got : Z).

(** [Read] into a buffer of [n] bytes. [interrupt] is the case that [select]
    takes instead of a message; [None] is returned while the call blocks. *)
Definition Session_Read (c : Conn K) (n : nat) (interrupt : option ReadError)
    : option (Conn K * bytes * option ReadError) :=
  if negb (established c) then Some (c, [], Some RNotEstablished)
  else if decide (0 < length (pendingMessage c))%nat then
    Some (set_pendingMessage c (drop n (pendingMessage c)), take n (pendingMessage c), None)
  else
    match interrupt with
    | Some e => Some (c, [], Some e)
    | None =>
        match GetMessage (dataHandler c) with
        | (_, None) => None
        | (dh, Some msg) =>
            let c := set_handler c dh in
            if decide (n < length msg)%nat
            then Some (set_pendingMessage c (drop n msg), take n msg,
                       Some (RBufferTooSmall (zlen msg) (Z.of_nat n)))
            else Some (c, msg, None)
        end
    end.

(** ** Keepalive and close *)

(** One tick of [keepaliveLoop]; the second result says that the connection is
    closed as idle. *)
Definition keepalive_tick (c : Conn K) (keepaliveInterval idleTimeout : Z) (net_ok : bool) (now : Z)
    : Conn K * list bytes * bool :=
  let timeSinceActivity := time_sub now (lastActivity c) in
  let '(c, sent) :=
    if keepaliveInterval <=? timeSinceActivity then sendImmediateACK c net_ok now else (c, []) in
  let idleTimeout := if idleTimeout <=? 0 then 5 * 60 * Second else idleTimeout in
  (c, sent, idleTimeout <=? timeSinceActivity).

Definition CloseWithReason (c : Conn K) (reason : byte) (additionalData : bytes) (net_ok : bool)
    (now : Z) : Conn K * list bytes :=
  if closed c then (c, [])
  else
    let c := set_state c false true in
    let termData := be_encode 8 (validDataPacketsReceived c) ++ [reason] ++ additionalData in
    let '(o, packet) := newDataPacket (out c) in
    let c := set_out c o in
    let '(c, sent) :=
      match SerializeBlocks [mkBlock BlockTypeTermination termData] with
      | Err _ => (c, [])
      | Ok payload => let '(c, r) := send_packet c net_ok now (with_payload packet payload) in (c, datagrams r)
      end in
    (set_pendingMessage (set_sip c (ZeroKeys <$> sipHashModifier c)) [], sent).

(** ** Routing *)

Inductive RouteError :=
| EInvalidPacket
| EInvalidRemoteAddr
| ERouteHeader (n : nat)
| ENoSessionHandler
| ENewSession
| EDuplicateConnectionID (id : Z)
| ESessionNotFound (id : Z) (t : byte).

(** The sessions by connection ID. *)
Definition PacketRouter : Type := gmap Z (Conn K).

Definition AddSession (pr : PacketRouter) (connID : Z) (conn : Conn K)
    : PacketRouter * option RouteError :=
  match pr !! connID with
  | Some _ => (pr, Some (EDuplicateConnectionID connID))
  | None => (<[connID := conn]> pr, None)
  end.

Definition RemoveSession (pr : PacketRouter) (connID : Z) : PacketRouter := delete connID pr.

Definition ExtractConnectionID (header : bytes) : result RouteError Z :=
  if decide (length header < ShortHeaderSize)%nat then Err (ERouteHeader (length header))
  else Ok (be_decode (slice 0 8 header)).

Definition CanCreateSession (msgType : byte) : bool :=
  bool_decide (msgType = MessageTypeSessionRequest) || bool_decide (msgType = MessageTypeTokenRequest).

(** [RoutePacket]. The handler of new sessions is a callback of the router: it
    gives the connection and its connection ID. [remoteAddr] says that there is an address. *)
Definition RoutePacket (cbs : @DataHandlerCallbacks P CbError) (pr : PacketRouter)
    (newSessionHandler : option (SSU2Packet -> option (Z * Conn K))) (packet : option SSU2Packet) (remoteAddr : bool)
    (net_ok : bool) (now : Z) : PacketRouter * list bytes * option RouteError :=
  match packet with
  | None => (pr, [], Some EInvalidPacket)
  | Some packet =>
      if negb remoteAddr then (pr, [], Some EInvalidRemoteAddr)
      else
        match ExtractConnectionID (Header packet) with
        | Err e => (pr, [], Some e)
        | Ok connID =>
            match pr !! connID with
            | None =>
                if CanCreateSession (MessageType packet) then
                  match newSessionHandler with
                  | None => (pr, [], Some ENoSessionHandler)
                  | Some handler =>
                      match handler packet with
                      | None => (pr, [], Some ENewSession)
                      | Some (id, conn) => let '(pr, e) := AddSession pr id conn in (pr, [], e)
                      end
                  end
                else (pr, [], Some (ESessionNotFound connID (MessageType packet)))
            | Some conn =>
                let '(conn, sent) := processInboundPacket cbs conn packet net_ok now in
                (<[connID := conn]> pr, sent, None)
            end
        end
  end.

End Operations.

(** ** The wire image of a data packet *)

Definition data_header (id num : Z) (a b : byte) : bytes :=
  be_encode 8 id ++ be_encode 4 num ++ [MessageTypeData; x00; a; b].

Definition data_wire (id num : Z) (a b : byte) (ct : bytes) : bytes :=
  data_header id num a b ++ ct ++ replicate MACSize x00.

Lemma length_data_header id num a b : length (data_header id num a b) = 16%nat.
Proof. unfold data_header. rewrite !length_app, !length_be_encode. done. Qed.

Lemma data_header_tail id num t u a b i x :
  (12 <= i)%nat ->
  <[i := x]> (be_encode 8 id ++ be_encode 4 num ++ [t; u; a; b])
  = be_encode 8 id ++ be_encode 4 num ++ <[(i - 12)%nat := x]> [t; u; a; b].
Proof.
  intros Hi. rewrite insert_app_r_alt by (rewrite length_be_encode; lia). f_equal.
  rewrite insert_app_r_alt by (rewrite !length_be_encode; lia). f_equal.
  rewrite !length_be_encode. f_equal. lia.
Qed.

Lemma data_header_lookup id num a b i :
  (12 <= i)%nat -> data_header id num a b !! i = [MessageTypeData; x00; a; b] !! (i - 12)%nat.
Proof.
  intros Hi. unfold data_header. rewrite lookup_app_r by (rewrite length_be_encode; lia).
  rewrite lookup_app_r by (rewrite !length_be_encode; lia). rewrite !length_be_encode. f_equal. lia.
Qed.

Lemma data_header_number id num a b : is_u32 num -> be_decode (slice 8 12 (data_header id num a b)) = num.
Proof.
  intros Hn. unfold data_header. rewrite slice_app by (rewrite ?length_be_encode; lia).
  apply be_decode_encode_small. done.
Qed.

Section Wire.
Context {K : Type} `{SSU2Cipher K} `{ChaCha20Lib} `{SipHashLib} `{FloatConv}.

(** A packet as [newDataPacket] builds it, with a payload. *)
Definition fresh_packet (id num : Z) (payload : bytes) : SSU2Packet :=
  mkPacket (be_encode 8 id ++ be_encode 4 num ++ replicate 4 x00) [] payload (replicate MACSize x00)
    MessageTypeData num 0.

Lemma newDataPacket_fresh o o' p payload :
  newDataPacket o = (o', p) ->
  with_payload p payload = fresh_packet (remoteConnectionID o) (PacketNumber p) payload.
Proof.
  unfold newDataPacket, nextSendSequence. intros Hnew.
  destruct (sendSequence o =? lastPacketNumber); injection Hnew as <- <-; reflexivity.
Qed.

(** What reaches the socket for a fresh packet. *)
Lemma sendPacketDirect_wire env f rtt now h id num payload h' d :
  cipher env = Some f -> payload <> [] ->
  sendPacketDirect env rtt now h (fresh_packet id num payload) = (h', Ok d) ->
  exists ct a b, f num (data_header id num x00 x00) payload = Some ct
    /\ protect env (data_wire id num a b ct) = Some d.
Proof.
  intros Hf Hpl Hsend. unfold sendPacketDirect, encryptDataPayload in Hsend. rewrite Hf in Hsend.
  rewrite decide_False in Hsend
    by (intros [Hne|Hz]; [by apply Hne|by apply nil_length_inv in Hz]).
  assert (Hhdr : Header (set_header_byte (fresh_packet id num payload) 12 MessageTypeData)
                 = data_header id num x00 x00).
  { unfold set_header_byte, fresh_packet. cbn [Header replicate].
    rewrite data_header_tail by lia. reflexivity. }
  change (MessageType (fresh_packet id num payload)) with MessageTypeData in Hsend.
  rewrite Hhdr, take_ge in Hsend by (rewrite length_data_header; unfold ShortHeaderSize; lia).
  change (PacketNumber (set_header_byte _ _ _)) with num in Hsend.
  change (Payload (set_header_byte _ _ _)) with payload in Hsend.
  destruct (f num (data_header id num x00 x00) payload) as [ct|]; [|done].
  set (p1 := applySipHashObfuscation _ _) in Hsend.
  assert (Hp1 : exists a b ts, p1 = mkPacket (data_header id num a b) [] ct (replicate MACSize x00)
                                     MessageTypeData num ts).
  { subst p1. unfold applySipHashObfuscation, with_payload. rewrite Hhdr.
    destruct (sipMask env) as [mask|]; [|by eexists _, _, _].
    cbn [MessageType set_header_byte fresh_packet]. rewrite decide_True by done.
    eexists _, _, _. unfold set_header_byte, data_header.
    cbn [Header]. rewrite !data_header_tail by lia. reflexivity. }
  clearbody p1. destruct Hp1 as (a & b & ts & ->).
  destruct (Packet.Serialize _) as [p2 [buf|e]] eqn:Hser; [|done].
  apply Serialize_ok_inv in Hser as (_ & -> & ->).
  exists ct, a, b. split; [done|].
  unfold sections in Hsend. cbn [Header EphemeralKey Payload MAC MessageType app] in Hsend.
  unfold data_header in Hsend. rewrite data_header_tail in Hsend by lia.
  destruct (protect env _) as [d'|] eqn:Hprot; [|done].
  destruct (network_ok env); [|done]. cbn [negb] in Hsend.
  apply (inj2 pair) in Hsend as [_ <-%Ok_inj]. done.
Qed.

(** The datagrams that carry the payload under the number: sealed with the key and
    protected for the way out of [c]. *)
Definition carries (c : Conn K) (num : Z) (payload d : bytes) : Prop :=
  exists k id ct a b, sendCipher c = Some k
    /\ seal k num (data_header id num x00 x00) payload = Some ct
    /\ outbound_protection c MessageTypeData (data_wire id num a b ct) = Some d.

(** What sending does to a connection. *)
Definition same_sender (c c' : Conn K) : Prop :=
  headerProtector c' = headerProtector c /\ sendCipher c' = sendCipher c
  /\ established c' = established c.

Lemma send_packet_carries c net_ok now id num payload c' d :
  is_Some (sendCipher c) -> payload <> [] ->
  send_packet c net_ok now (fresh_packet id num payload) = (c', Ok d) ->
  carries c num payload d /\ same_sender c c'
  /\ sendSequence (out c') = sendSequence (out c) /\ sendQueue (out c') = sendQueue (out c).
Proof.
  intros [k Hk] Hpl. unfold send_packet.
  set (env := fun mask => mkEnv (seal <$> sendCipher c) mask
                (outbound_protection c (MessageType (fresh_packet id num payload))) net_ok).
  set (masked := bool_decide _ && _).
  destruct (match sipHashModifier c with Some m => _ | None => _ end) as [c1 mask] eqn:Hmask.
  assert (Hc1 : same_sender c c1 /\ out c1 = out c).
  { destruct (sipHashModifier c) as [m|]; [|injection Hmask as <- _; done].
    destruct masked; [|injection Hmask as <- _; done].
    destruct (NextOutboundMask m). injection Hmask as <- _. done. }
  destruct Hc1 as [(Hh & Hs & He) Ho].
  destruct (sendPacketDirect _ _ _ _ _) as [o [d'|e]] eqn:Hsend; [|done].
  intros [<- <-%Ok_inj]%(inj2 pair).
  pose proof (sendPacketDirect_frame (env mask) (rttEst c1) now (out c1) (fresh_packet id num payload)) as Hfr.
  unfold env in Hfr. rewrite Hsend, Ho in Hfr.
  apply (sendPacketDirect_wire (env mask) (seal k)) in Hsend as (ct & a & b & Hct & Hd);
    [|subst env; cbn; rewrite Hk; done|done].
  split; [exists k, id, ct, a, b; done|]. split; [done|]. cbn. destruct Hfr as (Hq & Hsq & _). done.
Qed.

(** The way back: header protection is undone by the peer. *)
Definition linked (s r : Conn K) : Prop :=
  established r = true /\ recvCipher r = sendCipher s /\ is_Some (sendCipher s)
  /\ match headerProtector s, headerProtector r with
     | None, None => True
     | Some ms, Some mr => keys_set ms /\ managers_paired ms mr
     | _, _ => False
     end.

(** The header as the receiver undoes it, before the length is read. *)
Definition inbound_unprotected (c : Conn K) (d : bytes) : bytes * option HeaderError :=
  match headerProtector c with
  | None => (d, None)
  | Some m => DecryptInboundHeader m d (expectedInboundHeaderType (established c) (initiator c))
  end.

Lemma linked_unprotects s r data d :
  linked s r -> (40 <= length data)%nat ->
  outbound_protection s MessageTypeData data = Some d -> inbound_unprotected r d = (data, None).
Proof.
  intros (He & _ & _ & Hhp) Hlen. unfold outbound_protection, inbound_unprotected.
  destruct (headerProtector s) as [ms|], (headerProtector r) as [mr|]; try done; [|by intros [= ->]].
  destruct Hhp as [Hset Hpair]. rewrite He.
  destruct (protected_and_back ms mr HeaderTypeData data Hset Hpair) as (q & Henc & Hdec & _);
    [done|exact Hlen|].
  change (messageTypeToHeaderType MessageTypeData) with HeaderTypeData. rewrite Henc.
  intros [= ->]. exact Hdec.
Qed.

Lemma put_length_wire id num a b ct v :
  exists a' b', put_length (data_wire id num a b ct) v = data_wire id num a' b' ct.
Proof.
  eexists _, _. unfold put_length, data_wire.
  rewrite !insert_app_l by (rewrite ?length_insert, length_data_header; lia).
  unfold data_header. rewrite data_header_tail by lia. cbn [insert list_insert Nat.sub].
  rewrite data_header_tail by lia. reflexivity.
Qed.

Lemma Deserialize_wire id num a b ct now :
  is_u32 num -> (8 <= length ct)%nat ->
  Packet.Deserialize (mkPacket [] [] [] [] x00 0 0) (data_wire id num a b ct) now
  = (mkPacket (data_header id num a b) [] ct (replicate MACSize x00) MessageTypeData num now, None).
Proof.
  intros Hn Hct.
  set (p := mkPacket (data_header id num a b) [] ct (replicate MACSize x00) MessageTypeData num 0).
  change (data_wire id num a b ct) with (sections p).
  rewrite (Deserialize_sections p); cbn [Header EphemeralKey Payload MAC MessageType p].
  - rewrite data_header_number by done. reflexivity.
  - apply length_data_header.
  - done.
  - done.
  - rewrite data_header_lookup by lia. done.
  - intros Hl. done.
  - unfold sections. cbn [Header EphemeralKey Payload MAC p].
    rewrite !length_app, length_data_header. cbn [length]. unfold MinPacketSize, MACSize. rewrite length_replicate. lia.
  - done.
  - done.
Qed.

(** A datagram that carries a payload is parsed into it. *)
Lemma parse_carried s r num payload d now :
  linked s r -> is_u32 num -> carries s num payload d ->
  exists sip p, parseInboundPacket r d true None now
      = (updateActivity (set_sip r sip) now, Some p, [])
    /\ MessageType p = MessageTypeData /\ PacketNumber p = num /\ Payload p = payload
    /\ byte_at (Header p) 13 = 0.
Proof.
  intros Hl Hnum (k & id & ct & a & b & Hk & Hct & Hd).
  pose proof (seal_length _ _ _ _ _ Hct) as Hlen.
  apply (linked_unprotects s r) in Hd; [|done|].
  2:{ unfold data_wire. rewrite !length_app, length_data_header, length_replicate. unfold MACSize. lia. }
  destruct Hl as (_ & Hrc & _ & _). rewrite Hk in Hrc.
  unfold parseInboundPacket, unwrap_datagram. fold (inbound_unprotected r d). rewrite Hd. cbn [negb].
  set (step := match sipHashModifier r with Some m => _ | None => _ end).
  assert (Hstep : exists sip a' b', step = (set_sip r sip, data_wire id num a' b' ct)).
  { subst step. assert (Hid : r = set_sip r (sipHashModifier r)) by (by destruct r).
    destruct (sipHashModifier r) as [m|] eqn:Hm; [|by exists None, a, b; rewrite <- Hid].
    rewrite decide_True
      by (unfold data_wire; rewrite length_app, length_data_header; unfold ShortHeaderSize; lia).
    destruct (NextInboundMask m) as [m' mask].
    destruct (put_length_wire id num a b ct (Z.lxor (be_decode (slice 14 16 (data_wire id num a b ct))) mask))
      as (a' & b' & ->). by exists (Some m'), a', b'. }
  clearbody step. destruct Hstep as (sip & a' & b' & ->).
  rewrite Deserialize_wire by (done || lia).
  change (recvCipher (set_sip r sip)) with (recvCipher r). rewrite Hrc. unfold open_packet.
  rewrite decide_True by (split; [done|cbn; lia]).
  set (p := set_header_byte _ _ _).
  assert (Hp : p = mkPacket (data_header id num x00 x00) [] ct (replicate MACSize x00) MessageTypeData num now).
  { subst p. unfold set_header_byte. cbn [Header EphemeralKey Payload MAC MessageType PacketNumber Timestamp].
    unfold data_header. rewrite !data_header_tail by lia. reflexivity. }
  clearbody p. subst p. cbn [Header PacketNumber Payload].
  rewrite take_ge by (rewrite length_data_header; unfold ShortHeaderSize; lia).
  rewrite (unseal_seal _ _ _ _ _ Hct).
  eexists sip, _. split; [reflexivity|]. cbn. split_and!; [done..|].
  unfold byte_at. rewrite data_header_lookup by lia. done.
Qed.
End Wire.

(** ** Delivery *)

Section Delivery.
Context {K : Type} `{SSU2Cipher K} `{ChaCha20Lib} `{SipHashLib} `{FloatConv}.
Context {R : GoRange Z FragmentSet} {P : PathLib} {CbError : Type}.

Definition i2np (m : bytes) : SSU2Block := mkBlock BlockTypeI2NPMessage m.

(** Sender: each message is written and the send loop takes a turn. *)
Fixpoint transmit_all (c : Conn K) (mtu : Z) (now : Z) (msgs : list bytes)
    : option (Conn K * list bytes) :=
  match msgs with
  | [] => Some (c, [])
  | m :: rest =>
      match Session_Write c mtu None 0 m with
      | (_, Err _) => None
      | (c, Ok _) =>
          match send_loop_turn c true now with
          | (c, [d]) =>
              match transmit_all c mtu now rest with
              | Some (c, ds) => Some (c, d :: ds)
              | None => None
              end
          | _ => None
          end
      end
  end.

(** Receiver: the datagrams arrive as the network likes, [(i, now)] being an
    arrival of the [i]-th one at the time [now]. *)
Definition receive_arrivals (cbs : @DataHandlerCallbacks P CbError) (c : Conn K) (ds : list bytes)
    (arrivals : list (nat * Z)) : Conn K :=
  foldl (fun c a => (receive cbs c (default [] (ds !! a.1)) None true a.2).1) c arrivals.

Lemma i2np_payload m payload :
  m <> [] -> SerializeBlocks [i2np m] = Ok payload ->
  DeserializeBlocks payload = Ok [i2np m] /\ payload <> [].
Proof.
  intros Hm Hser. apply blocks_roundtrip in Hser. rewrite i2np_ordered in Hser by (repeat constructor; done).
  split; [done|]. intros ->. discriminate Hser.
Qed.

Lemma transmit_one c mtu now m c1 n c2 d :
  is_Some (sendCipher c) -> m <> [] -> zlen m <= mtu - 83 -> sendQueue (out c) = [] ->
  0 <= sendSequence (out c) < lastPacketNumber ->
  Session_Write c mtu None 0 m = (c1, Ok n) -> send_loop_turn c1 true now = (c2, [d]) ->
  (exists payload, SerializeBlocks [i2np m] = Ok payload /\ carries c (sendSequence (out c)) payload d)
  /\ same_sender c c2 /\ sendQueue (out c2) = []
  /\ sendSequence (out c2) = sendSequence (out c) + 1.
Proof.
  intros Hk Hm Hfit Hq Hseq. unfold Session_Write, Write, Write_blocks.
  destruct (established c); [|done]. cbn [negb].
  rewrite (proj2 (Z.leb_le _ _)) by (unfold blockHdrSize; lia). cbn [fmap list_fmap write_blocks].
  unfold writeBlock. destruct (newDataPacket (out c)) as [o p] eqn:Hnew.
  pose proof (newDataPacket_spec (out c)) as Hspec. rewrite Hnew in Hspec.
  fold (i2np m). destruct (SerializeBlocks [i2np m]) as [payload|e] eqn:Hser; [|done].
  destruct (i2np_payload m payload Hm Hser) as [_ Hpl].
  intros [<- _]%(inj2 pair). unfold send_loop_turn. cbn [out set_out].
  destruct Hspec as (Hnum & _ & _ & _ & _ & _ & Hnext & Hsq & _); [lia|].
  rewrite Hsq, Hq. cbn [sendQueue set_sendQueue app].
  rewrite (newDataPacket_fresh _ _ _ payload Hnew).
  destruct (send_packet _ _ _ _) as [c3 r] eqn:Hsend. destruct r as [d'|]; [|done].
  intros [<- Hd]%(inj2 pair). injection Hd as <-.
  apply send_packet_carries in Hsend as (Hc & Hsame & Hs & Hqq); [|done|done].
  split; [exists payload; split; [done|]; rewrite <- Hnum; exact Hc|].
  split; [exact Hsame|]. split; [rewrite Hqq; done|]. rewrite Hs. cbn. lia.
Qed.

Lemma carries_same c c' num payload d :
  same_sender c c' -> carries c' num payload d -> carries c num payload d.
Proof.
  intros (Hh & Hs & _) (k & id & ct & a & b & Hk & Hct & Hd).
  exists k, id, ct, a, b. unfold outbound_protection in *. rewrite Hh in Hd. rewrite Hs in Hk. done.
Qed.

Lemma transmit_all_spec msgs c mtu now c' ds :
  is_Some (sendCipher c) -> Forall (fun m => m <> [] /\ zlen m <= mtu - 83) msgs ->
  sendQueue (out c) = [] -> 0 <= sendSequence (out c) ->
  sendSequence (out c) + zlen msgs <= lastPacketNumber ->
  transmit_all c mtu now msgs = Some (c', ds) ->
  forall i m, msgs !! i = Some m -> exists d payload, ds !! i = Some d
    /\ SerializeBlocks [i2np m] = Ok payload
    /\ carries c (sendSequence (out c) + Z.of_nat i) payload d.
Proof.
  intros Hk Hm. revert c c' ds Hk. induction Hm as [|m msgs [Hne Hfit] Hm IH];
    intros c c' ds Hk Hq Hpos Hseq Htr i m' Hi; [done|].
  cbn [transmit_all] in Htr. rewrite zlen_cons in Hseq. pose proof (zlen_nonneg msgs).
  destruct (Session_Write c mtu None 0 m) as [c1 [n|]] eqn:Hw; [|done].
  destruct (send_loop_turn c1 true now) as [c2 [|d [|]]] eqn:Ht; try done.
  destruct (transmit_all c2 mtu now msgs) as [[c3 ds']|] eqn:Hrest; [|done].
  injection Htr as <- <-.
  destruct (transmit_one c mtu now m c1 n c2 d) as ((payload & Hser & Hc) & Hsame & Hq2 & Hs2);
    [done..|lia|done|done|].
  destruct i as [|i]; cbn in Hi.
  - injection Hi as <-. exists d, payload. rewrite Z.add_0_r. done.
  - destruct (IH c2 c3 ds') with (i := i) (m := m') as (d' & pl' & Hd' & Hser' & Hc'); try done; try lia.
    + destruct Hsame as (_ & -> & _). done.
    + exists d', pl'. split_and!; [done..|]. apply (carries_same _ _ _ _ _ Hsame) in Hc'.
      replace (sendSequence (out c) + Z.of_nat (S i)) with (sendSequence (out c2) + Z.of_nat i) by lia. done.
Qed.

(** The state of a receiver of [n] packets from number [e] on, of which those in
    [seen] have arrived. *)
Record receiving (s : Conn K) (e : Z) (n : nat) (size_ : Z) (cap : nat) (seen : list nat)
    (q : list bytes) (r : Conn K) : Prop := {
  rc_linked : linked s r;
  rc_window : admitted e n size_ (list_to_set seen) (recvWindow r);
  rc_queue : messageQueue (dataHandler r) = q;
  rc_cap : queueCap (dataHandler r) = cap;
}.

(** Processing the packet of a message when the window accepts it. *)
Lemma process_accepted (cbs : @DataHandlerCallbacks P CbError) c p m payload net_ok now rw ready :
  MessageType p = MessageTypeData -> Payload p = payload -> byte_at (Header p) 13 = 0 ->
  m <> [] -> SerializeBlocks [i2np m] = Ok payload ->
  Insert (recvWindow c) (Some p) = (rw, Ok ready) ->
  (length (messageQueue (dataHandler c)) < queueCap (dataHandler c))%nat ->
  exists c', processInboundPacket cbs c p net_ok now = (c', [])
    /\ recvWindow c' = rw /\ established c' = established c /\ recvCipher c' = recvCipher c
    /\ headerProtector c' = headerProtector c
    /\ messageQueue (dataHandler c') = messageQueue (dataHandler c) ++ [m]
    /\ queueCap (dataHandler c') = queueCap (dataHandler c).
Proof.
  intros Ht Hpl H13 Hm Hser Hins Hroom. unfold processInboundPacket.
  rewrite decide_True by done. rewrite Hins, H13, Z.testbit_0_l, andb_false_r.
  set (c1 := count_received _).
  assert (Hc1 : recvWindow c1 = rw /\ established c1 = established c /\ recvCipher c1 = recvCipher c
    /\ headerProtector c1 = headerProtector c /\ dataHandler c1 = dataHandler c).
  { subst c1. destruct (0 <? PacketNumber p); done. }
  clearbody c1. destruct Hc1 as (Hw & He & Hrc & Hhp & Hdh).
  destruct (i2np_payload m payload Hm Hser) as [Hdes _].
  unfold processDataPacket, ProcessDataPacket. rewrite decide_False by (rewrite Ht; tauto).
  rewrite Hpl, Hdes, Hdh.
  destruct (process_loop_i2np cbs (dataHandler c) [i2np m] now) as (h' & -> & Hq & _ & Hcap);
    [repeat constructor; done|cbn; lia|].
  cbn [apply_events fmap option_fmap option_map]. cbn [ack_blocks].
  rewrite decide_False by done. eexists. split; [reflexivity|]. cbn. done.
Qed.

Lemma receive_step (cbs : @DataHandlerCallbacks P CbError) s e n size_ cap seen q r i m payload d now :
  is_u32 e -> Z.of_nat n <= 2 ^ 31 -> Z.of_nat n <= size_ + 1 ->
  receiving s e n size_ cap seen q r -> (i < n)%nat ->
  carries s (num e i) payload d -> SerializeBlocks [i2np m] = Ok payload -> m <> [] ->
  (length q + (if decide (i ∈ seen) then 0 else 1) <= cap)%nat ->
  let r' := (receive cbs r d None true now).1 in
  if decide (i ∈ seen) then receiving s e n size_ cap seen q r'
  else receiving s e n size_ cap (i :: seen) (q ++ [m]) r'.
Proof.
  intros He Hn Hsz [Hl Hw Hq Hcap] Hi Hc Hser Hm Hroom. cbv zeta. unfold receive.
  destruct (parse_carried s r (num e i) payload d now Hl (u32_bound _) Hc)
    as (sip & p & -> & Ht & Hnum & Hpl & H13).
  set (r1 := updateActivity (set_sip r sip) now).
  revert Hroom. destruct (decide (i ∈ seen)) as [Hin|Hin]; intros Hroom.
  - destruct (admitted_seen e n size_ Hn (list_to_set seen) (recvWindow r) p i Hw) as [err Hins];
      [by apply elem_of_list_to_set|done|].
    unfold processInboundPacket. rewrite decide_True by done.
    change (recvWindow r1) with (recvWindow r). rewrite Hins. split; done.
  - destruct (admitted_new e n size_ He Hn Hsz (list_to_set seen) (recvWindow r) p i Hw)
      as (rw & ready & Hins & Hw'); [done|by rewrite elem_of_list_to_set|done|].
    destruct (process_accepted cbs r1 p m payload true now rw ready)
      as (c' & -> & Hrw & Hest & Hrc & Hhp & Hq' & Hcap'); [done..| |].
    { change (dataHandler r1) with (dataHandler r). rewrite Hq, Hcap. lia. }
    split; cbn [fst].
    + destruct Hl as (H1' & H2' & H3' & H4'). unfold linked. rewrite Hest, Hrc, Hhp. done.
    + rewrite Hrw. cbn. exact Hw'.
    + rewrite Hq'. cbn. by rewrite Hq.
    + rewrite Hcap'. done.
Qed.

Lemma arrivals_delivered (cbs : @DataHandlerCallbacks P CbError) s e size_ cap msgs ds :
  is_u32 e -> zlen msgs <= 2 ^ 31 -> zlen msgs <= size_ + 1 -> Forall (fun m => m <> []) msgs ->
  (forall i m, msgs !! i = Some m -> exists d payload, ds !! i = Some d
     /\ SerializeBlocks [i2np m] = Ok payload /\ carries s (num e i) payload d) ->
  forall arrivals seen q r, receiving s e (length msgs) size_ cap seen q r ->
  Forall (fun a => a.1 < length msgs)%nat arrivals ->
  (length q + length (first_arrivals seen arrivals.*1) <= cap)%nat ->
  messageQueue (dataHandler (receive_arrivals cbs r ds arrivals))
  = q ++ omap (fun i => msgs !! i) (first_arrivals seen arrivals.*1).
Proof.
  intros He Hn Hsz Hne Hds. unfold zlen in *.
  induction arrivals as [|[i now] arrivals IH]; intros seen q r Hr Harr Hroom.
  { cbn. rewrite (rc_queue _ _ _ _ _ _ _ _ Hr), app_nil_r. done. }
  inversion_clear Harr as [|? ? Hi Harr']. cbn [fst] in Hi.
  destruct (lookup_lt_is_Some_2 msgs i Hi) as [m Hm].
  destruct (Hds i m Hm) as (d & payload & Hd & Hser & Hc).
  rewrite Forall_lookup in Hne. specialize (Hne i m Hm).
  pose proof (receive_step cbs s e (length msgs) size_ cap seen q r i m payload d now He Hn Hsz Hr Hi Hc Hser Hne)
    as Hstep. cbn [fmap list_fmap fst first_arrivals] in *.
  unfold receive_arrivals. cbn [foldl fst snd]. rewrite Hd. cbn [default from_option id].
  fold (receive_arrivals cbs (receive cbs r d None true now).1 ds arrivals).
  revert Hstep Hroom. destruct (decide (i ∈ seen)); intros Hstep Hroom.
  - apply IH; [apply Hstep; lia|done|done].
  - cbn [length] in Hroom. rewrite (IH (i :: seen) (q ++ [m])); [|apply Hstep; lia|done|].
    + rewrite <- app_assoc. cbn [omap list_omap]. rewrite Hm. done.
    + rewrite length_app. cbn. lia.
Qed.

(** C2: delivery over a network that reorders, repeats and loses datagrams. Messages that fit one
    packet each, at most one more of them than the receive window holds, are written, sent once
    each, and arrive at a peer with the matching keys, an empty window and room in its queue.
    Each datagram delivers its message at its first arrival and at no later one, so the
    messages are delivered in the order of the first arrivals, and if all datagrams arrive they
    are those written. Retransmissions are other datagrams with numbers of their own, and are not part of
    this (see [retransmission_delivered_twice]). *)
Theorem datagrams_delivered_once (cbs : @DataHandlerCallbacks P CbError) (s r s' : Conn K) (mtu now size_ : Z)
    (msgs ds : list bytes) (arrivals : list (nat * Z)) :
  linked s r -> sendQueue (out s) = [] -> 0 <= sendSequence (out s) ->
  sendSequence (out s) + zlen msgs <= lastPacketNumber ->
  Forall (fun m => m <> [] /\ zlen m <= mtu - 83) msgs ->
  transmit_all s mtu now msgs = Some (s', ds) ->
  recvWindow r = mkWindow (sendSequence (out s)) ∅ size_ ->
  zlen msgs <= 2 ^ 31 -> zlen msgs <= size_ + 1 ->
  (length (messageQueue (dataHandler r)) + length msgs <= queueCap (dataHandler r))%nat ->
  Forall (fun a => a.1 < length msgs)%nat arrivals ->
  let delivered := omap (fun i => msgs !! i) (first_arrivals [] arrivals.*1) in
  messageQueue (dataHandler (receive_arrivals cbs r ds arrivals))
    = messageQueue (dataHandler r) ++ delivered
  /\ ((forall i, (i < length msgs)%nat -> i ∈ arrivals.*1) -> delivered ≡ₚ msgs).
Proof.
  intros Hl Hq Hpos Hseq Hm Htr Hw Hn Hsz Hroom Harr. set (e := sendSequence (out s)) in *.
  unfold lastPacketNumber in Hseq. pose proof (zlen_nonneg msgs).
  assert (He : is_u32 e) by (split; lia).
  assert (Harr' : Forall (fun i => i < length msgs)%nat arrivals.*1) by by rewrite Forall_fmap.
  pose proof (first_arrivals_length _ _ Harr') as Hlen.
  cbv zeta. split.
  - apply (arrivals_delivered cbs s e size_ (queueCap (dataHandler r))); try done.
    + eapply Forall_impl; [exact Hm|]. intros m [Hne _]. done.
    + intros i m Hi. destruct (transmit_all_spec msgs s mtu now s' ds) with (i := i) (m := m)
        as (d & pl & Hd & Hser & Hc); try done; [apply Hl|].
      exists d, pl. split_and!; [done..|]. unfold num. rewrite u32_small; [done|].
      apply lookup_lt_Some in Hi. unfold zlen in *. fold e. split; lia.
    + split; [done| |done|done]. rewrite Hw. apply admitted_init; done.
    + lia.
  - by apply first_arrivals_complete.
Qed.
End Delivery.

(** ** Authentication *)

Section Authentication.
Context {K : Type} `{SSU2Cipher K} `{ChaCha20Lib} `{SipHashLib} `{FloatConv}.
Context {R : GoRange Z FragmentSet} {P : PathLib} {CbError : Type}.

(** The parts of a connection that only opened data may change. *)
Definition untouched (c c' : Conn K) : Prop :=
  recvWindow c' = recvWindow c /\ dataHandler c' = dataHandler c
  /\ recvCipher c' = recvCipher c /\ sendCipher c' = sendCipher c
  /\ validDataPacketsReceived c' = validDataPacketsReceived c
  /\ congestionController c' = congestionController c /\ rttEst c' = rttEst c /\ pendingMessage c' = pendingMessage c
  /\ established c' = established c /\ closed c' = closed c /\ initiator c' = initiator c
  /\ headerProtector c' = headerProtector c.

(** Only the error counters, the length mask and the time of the last activity may differ. *)
Definition same_data (c c' : Conn K) : Prop :=
  untouched c c' /\ out c' = out c /\ ackHandler c' = ackHandler c /\ recvQueue c' = recvQueue c.

(** The associated data of a Data packet. *)
Definition data_ad (p : SSU2Packet) : bytes :=
  take ShortHeaderSize (Header (set_header_byte (set_header_byte p 14 x00) 15 x00)).

(** Only what [initiate_validation] does with the sending side, and what it sends. *)
Definition only_validation (newPath : option (list SSU2Block)) (c c' : Conn K) (sent : list bytes) : Prop :=
  out c' = out (initiate_validation c (default [] newPath)).1 /\ sent = (initiate_validation c (default [] newPath)).2.

(** A parsed Data packet has a payload. *)
Lemma data_payload_nonempty q data now p :
  EphemeralKey q = [] -> Payload q = [] -> Packet.Deserialize q data now = (p, None) ->
  MessageType p = MessageTypeData -> (0 < length (Payload p))%nat.
Proof.
  intros He Hp Hd Ht. pose proof (Deserialize_inv _ _ _ _ Hd He Hp) as (-> & Hh & Hk & Hm & _).
  unfold Packet.Deserialize in Hd. destruct (decide _) as [|Hmin]; [done|].
  unfold MinPacketSize, sections in Hmin. rewrite !length_app, Hh, Hk, Hm in Hmin.
  assert (Hs : Packet.getHeaderSize p = 16%nat /\ ephemeral_len p = 0%nat).
  { unfold ephemeral_len, Packet.getHeaderSize, hasEphemeralKey. rewrite Ht. done. }
  destruct Hs as [Hs1 Hs2]. rewrite Hs1, Hs2 in Hmin. unfold MACSize in Hmin. lia.
Qed.

Lemma Insert_err rw p rw' e : Insert rw (Some p) = (rw', Err e) -> rw' = rw.
Proof.
  unfold Insert. destruct (seqBefore _ _); [by intros [= <- _]|].
  destruct (_ =? _); [|destruct (window rw !! _); [by intros [= <- _]|];
                       destruct (_ <=? _); [by intros [= <- _]|done]].
  destruct (window rw !! _); [by intros [= <- _]|]. destruct (release _ _ _ _) as [[? ?] ?]. done.
Qed.

(** Whether a packet is accepted depends on its number only. *)
Lemma Insert_number rw p q :
  PacketNumber p = PacketNumber q -> is_ok (Insert rw (Some p)).2 = is_ok (Insert rw (Some q)).2.
Proof.
  intros Hn. unfold Insert. rewrite Hn. destruct (seqBefore _ _); [done|].
  destruct (_ =? _); destruct (window rw !! _); try done.
  - destruct (release _ _ _ [p]) as [[? ?] ?], (release _ _ _ [q]) as [[? ?] ?]. done.
  - destruct (_ <=? _); done.
Qed.

Lemma unwrap_same (c : Conn K) data now : same_data c (unwrap_datagram c data now).1.
Proof.
  unfold unwrap_datagram. destruct (match headerProtector c with Some m => _ | None => _ end) as [data1 [e|]]; [done|].
  destruct (match sipHashModifier c with Some m => _ | None => _ end) as [c1 data2] eqn:Hsip.
  assert (Hc1 : same_data c c1).
  { destruct (sipHashModifier c) as [m|]; [|injection Hsip as <- _; done].
    destruct (decide _); [|injection Hsip as <- _; done].
    destruct (NextInboundMask m). injection Hsip as <- _. done. }
  destruct (Packet.Deserialize _ data2 now) as [p1 [e|]]; done.
Qed.

(** A Data packet has a payload, so it is opened. *)
Lemma unwrap_open (c : Conn K) data now c1 p k :
  unwrap_datagram c data now = (c1, Some p) -> MessageType p = MessageTypeData ->
  open_packet (Some k) p
  = with_payload (set_header_byte (set_header_byte p 14 x00) 15 x00) <$> unseal k (PacketNumber p) (data_ad p) (Payload p).
Proof.
  unfold unwrap_datagram. destruct (match headerProtector c with Some m => _ | None => _ end) as [data1 [e|]]; [done|].
  destruct (match sipHashModifier c with Some m => _ | None => _ end) as [c2 data2].
  destruct (Packet.Deserialize _ data2 now) as [p1 [e|]] eqn:Hd; [done|]. intros [= _ <-] Ht.
  unfold open_packet. rewrite decide_True; [|by split; [|eapply data_payload_nonempty; [..|exact Hd|]]].
  cbn [PacketNumber Payload set_header_byte]. fold (data_ad p1). by destruct (unseal _ _ _ _).
Qed.

(** The path validator only takes packet numbers. *)
Lemma SendToAddress_out (c c2 : Conn K) block : out c = out c2 ->
  (SendToAddress c block).1 = set_out c (out (SendToAddress c2 block).1) /\ (SendToAddress c block).2 = (SendToAddress c2 block).2.
Proof.
  intros E. unfold SendToAddress. rewrite E. destruct (newDataPacket (out c2)) as [o p].
  destruct (SerializeBlocks [block]) as [pl|e]; [|done]. by destruct (Packet.Serialize _) as [p' [d|e]].
Qed.

Lemma initiate_out blocks (c c2 : Conn K) : out c = out c2 ->
  (initiate_validation c blocks).1 = set_out c (out (initiate_validation c2 blocks).1)
  /\ (initiate_validation c blocks).2 = (initiate_validation c2 blocks).2.
Proof.
  revert c c2. induction blocks as [|b blocks IH]; intros c c2 E; cbn [initiate_validation].
  - cbn. rewrite <- E. by destruct c.
  - destruct (SendToAddress_out c c2 b E) as [E1 E2]. destruct (SendToAddress c b) as [c' r], (SendToAddress c2 b) as [c2' r2].
    cbn [fst snd] in *. subst c' r2. destruct (IH (set_out c (out c2')) c2' eq_refl) as [I1 I2].
    destruct (initiate_validation (set_out c (out c2')) blocks) as [c3 s3], (initiate_validation c2' blocks) as [c4 s4].
    cbn [fst snd] in *. by subst c3 s3.
Qed.

(** C3: authentication of received data. Whatever datagram arrives at an established
    connection, from whatever address, let [p] be the packet it is parsed into. Unless [p] is a
    Data packet whose payload opens under the receiving key of the connection, with its number
    as nonce and its header as associated data, and whose number the receive window accepts,
    nothing of the window, the data handler, the keys, the congestion control and the state
    changes, and nothing is acknowledged or sent, with two exceptions: a packet of a handshake
    type may be queued and its number recorded, and a packet that is not refused and comes from
    a new address starts the path validation. *)
Theorem receive_authenticated (cbs : @DataHandlerCallbacks P CbError) (c : Conn K) (data : bytes)
    (newPath : option (list SSU2Block)) (net_ok : bool) (now : Z) (k : K) :
  recvCipher c = Some k ->
  let '(c', sent) := receive cbs c data newPath net_ok now in
  match (unwrap_datagram c data now).2 with
  | None => same_data c c' /\ sent = []
  | Some p =>
      if decide (MessageType p = MessageTypeData) then
        match unseal k (PacketNumber p) (data_ad p) (Payload p) with
        | None => same_data c c' /\ sent = []
        | Some _ =>
            is_ok (Insert (recvWindow c) (Some p)).2 = true
            \/ untouched c c' /\ ackHandler c' = ackHandler c /\ recvQueue c' = recvQueue c
               /\ only_validation newPath c c' sent
        end
      else
        untouched c c' /\ only_validation newPath c c' sent
        /\ (MessageType p = MessageTypeSessionRequest \/ MessageType p = MessageTypeSessionCreated
              \/ MessageType p = MessageTypeSessionConfirmed
            \/ ackHandler c' = ackHandler c /\ recvQueue c' = recvQueue c)
  end.
Proof.
  intros Hk. unfold receive, parseInboundPacket. cbn [negb]. pose proof (unwrap_same c data now) as Hs.
  pose proof (unwrap_open c data now) as Hopen. destruct (unwrap_datagram c data now) as [c1 [p|]]; [|done]. cbn [snd].
  cbn [fst] in Hs. destruct Hs as (Hu & Ho & Ha & Hq). specialize (Hopen c1 p k eq_refl).
  rewrite (proj1 (proj2 (proj2 Hu)) : recvCipher c1 = recvCipher c), Hk.
  assert (Hv : exists cv sv, (match newPath with Some blocks => initiate_validation c1 blocks | None => (c1, []) end) = (cv, sv)
    /\ untouched c cv /\ ackHandler cv = ackHandler c /\ recvQueue cv = recvQueue c /\ only_validation newPath c cv sv).
  { destruct (initiate_out (default [] newPath) c1 c Ho) as [E1 E2].
    destruct (initiate_validation c1 (default [] newPath)) as [cv sv] eqn:Ev. cbn [fst snd] in *. exists cv, sv.
    split; [by destruct newPath|]. subst cv sv. split; [exact Hu|done]. }
  destruct Hv as (cv & sv & -> & Huv & Hav & Hqv & Hov & Hsv). destruct (decide (MessageType p = MessageTypeData)) as [Ht|Ht].
  - rewrite Hopen by done. destruct (unseal k _ _ _) as [pl|]; [|done]. cbn [fmap option_fmap option_map].
    set (p' := with_payload _ pl). unfold processInboundPacket. rewrite decide_True by done.
    change (recvWindow (updateActivity cv now)) with (recvWindow cv). rewrite (proj1 Huv).
    rewrite (Insert_number (recvWindow c) p p') by done.
    destruct (Insert (recvWindow c) (Some p')) as [rw [ready|e]] eqn:Hins.
    + repeat match goal with |- context [let '(_, _) := ?x in _] => destruct x end. by left.
    + apply Insert_err in Hins as ->. right. rewrite app_nil_r. destruct Huv as [_ Huv].
      split; [by split|done].
  - unfold open_packet. rewrite decide_False by tauto. unfold processInboundPacket. rewrite decide_False by done.
    case_decide as Hh; rewrite app_nil_r.
    + split_and!; [| |tauto]; revert Huv Hov; destruct (0 <? PacketNumber p); case_decide; done.
    + split_and!; [done|done|]. do 3 right. done.
Qed.

(** Only the source address and the type of a packet decide whether a path validation is
    started: a packet of a type that is not encrypted starts one, whoever sent it. *)
Lemma validation_unauthenticated (c c1 : Conn K) data now p blocks :
  unwrap_datagram c data now = (c1, Some p) -> MessageType p <> MessageTypeData ->
  (parseInboundPacket c data true (Some blocks) now).2 = (initiate_validation c1 blocks).2.
Proof.
  intros Hu Ht. unfold parseInboundPacket. cbn [negb]. rewrite Hu. unfold open_packet.
  destruct (recvCipher c1); [rewrite decide_False by tauto|]; by destruct (initiate_validation c1 blocks).
Qed.
End Authentication.

(** ** Reading *)

Section Reading.
Context {K : Type}.

(** The bytes a connection has for its reader. *)
Definition readable (c : Conn K) : bytes := pendingMessage c ++ concat (messageQueue (dataHandler c)).

(** Reads with buffers of the given sizes, until one blocks. *)
Fixpoint session_reads (c : Conn K) (ns : list nat) : Conn K * bytes :=
  match ns with
  | [] => (c, [])
  | n :: rest =>
      match Session_Read c n None with
      | None => (c, [])
      | Some (c, got, _) => let '(c, more) := session_reads c rest in (c, got ++ more)
      end
  end.

Lemma read_one (c : Conn K) n :
  established c = true -> (0 < n)%nat -> Forall (fun m => m <> []) (messageQueue (dataHandler c)) ->
  (readable c = [] /\ Session_Read c n None = None)
  \/ exists c' got e, Session_Read c n None = Some (c', got, e) /\ got <> [] /\ established c' = true
       /\ readable c = got ++ readable c'
       /\ Forall (fun m => m <> []) (messageQueue (dataHandler c')).
Proof.
  intros He Hn Hne. unfold Session_Read, readable, GetMessage. rewrite He. cbn [negb].
  destruct (pendingMessage c) as [|x pend] eqn:Hp; cbn [length].
  - rewrite decide_False by lia. destruct (messageQueue (dataHandler c)) as [|m q] eqn:Hq; [by left|].
    right. inversion_clear Hne as [|? ? Hm Hne']. destruct n as [|n]; [lia|]. destruct m as [|y m]; [done|].
    destruct (decide (S n < length (y :: m))%nat); eexists _, _, _; (split; [reflexivity|]);
      cbn [pendingMessage dataHandler set_pendingMessage set_handler set_recv messageQueue set_queue];
      rewrite ?Hp; split_and!; try done; [|cbn; by rewrite ?app_nil_l..].
    rewrite app_assoc. rewrite (firstn_skipn (S n) (y :: m)). done.
  - rewrite decide_True by lia. right. eexists _, _, _. split; [reflexivity|].
    cbn [pendingMessage dataHandler set_pendingMessage]. destruct n as [|n]; [lia|].
    split_and!; [done|done| |done]. rewrite app_assoc, (firstn_skipn (S n) (x :: pend)). done.
Qed.

(** C19: reading loses nothing: with buffers of any sizes the bytes that reads
    return, in order, and those that are still to be read make up the queued
    messages, also when a message is larger than the buffer; and as many reads as
    there are bytes return them all. *)
Theorem session_reads_lossless (c : Conn K) (ns : list nat) :
  established c = true -> Forall (fun m => m <> []) (messageQueue (dataHandler c)) ->
  Forall (fun n => 0 < n)%nat ns ->
  let '(c', got) := session_reads c ns in
  readable c = got ++ readable c'
  /\ ((length (readable c) <= length ns)%nat -> got = readable c).
Proof.
  intros He Hne Hns. revert c He Hne. induction Hns as [|n ns Hn Hns IH]; intros c He Hne.
  - cbn [session_reads length]. split; [done|]. intros Hl. symmetry. apply nil_length_inv. lia.
  - cbn [session_reads]. destruct (read_one c n He Hn Hne) as [[Hr ->]|(c1 & got & e & -> & Hg & He1 & Hr & Hne1)].
    { rewrite Hr. done. }
    specialize (IH c1 He1 Hne1). destruct (session_reads c1 ns) as [c2 more]. destruct IH as [IH1 IH2].
    rewrite Hr. split; [rewrite <- app_assoc; f_equal; exact IH1|].
    rewrite length_app. cbn [length]. destruct got as [|g got]; [done|]. cbn [length].
    intros Hl. rewrite IH2 by lia. done.
Qed.
End Reading.

(** ** Routing *)

Section Routing.
Context {K : Type} `{SSU2Cipher K} `{ChaCha20Lib} `{SipHashLib} `{FloatConv}.
Context {R : GoRange Z FragmentSet} {P : PathLib} {CbError : Type}.

(** C20: routing keeps sessions apart: a packet reaches the session whose ID is in
    the first eight bytes of its header and no other; a packet for an unknown ID
    creates a session only if it is a session or token request and the new ID is
    free, and otherwise changes nothing; a packet with a header that is too short
    is an error and changes nothing; no session is ever removed or replaced. *)
Theorem RoutePacket_isolated (cbs : @DataHandlerCallbacks P CbError) (pr : gmap Z (Conn K))
    (handler : option (SSU2Packet -> option (Z * Conn K))) (packet : SSU2Packet) (net_ok : bool)
    (now : Z) :
  let '(pr', sent, e) := RoutePacket cbs pr handler (Some packet) true net_ok now in
  let id := be_decode (slice 0 8 (Header packet)) in
  (forall c, pr !! id = Some c -> (ShortHeaderSize <= length (Header packet))%nat ->
     e = None /\ (<[id := (processInboundPacket cbs c packet net_ok now).1]> pr) = pr'
     /\ sent = (processInboundPacket cbs c packet net_ok now).2)
  /\ (pr !! id = None -> sent = []
      /\ (pr' = pr
          \/ CanCreateSession (MessageType packet) = true
             /\ exists f newID conn, handler = Some f /\ f packet = Some (newID, conn)
                  /\ pr !! newID = None /\ pr' = <[newID := conn]> pr))
  /\ ((length (Header packet) < ShortHeaderSize)%nat -> pr' = pr /\ sent = [] /\ e <> None).
Proof.
  unfold RoutePacket, ExtractConnectionID, AddSession, PacketRouter. set (id := be_decode _). cbn [negb].
  case_decide as Hlen; cbv beta iota zeta; [split_and!; [intros; lia|by auto|done]|].
  destruct (pr !! id) as [c|] eqn:Hid.
  - destruct (processInboundPacket cbs c packet net_ok now) as [c' sent] eqn:Hproc.
    split_and!; [|done|lia]. intros c0 [= <-] _. rewrite Hproc. done.
  - destruct (CanCreateSession (MessageType packet)) eqn:Hcan; [|split_and!; [done|by auto|lia]].
    destruct handler as [f|]; [|split_and!; [done|by auto|lia]].
    destruct (f packet) as [[newID conn]|] eqn:Hf; [|split_and!; [done|by auto|lia]].
    destruct (pr !! newID) as [c|] eqn:Hnew; (split_and!; [done| |lia]).
    + intros _. auto.
    + intros _. split; [done|]. right. split; [done|]. by exists f, newID, conn.
Qed.

(** ** Edges *)

(** A data packet that is routed to its session is not opened: its payload is
    processed as it arrived, whatever the key of the session is. *)
Lemma routed_data_not_opened (cbs : @DataHandlerCallbacks P CbError) (pr : gmap Z (Conn K)) handler
    net_ok now c id num m payload rw ready :
  pr !! (id mod 2 ^ 64) = Some c -> m <> [] -> SerializeBlocks [i2np m] = Ok payload ->
  Insert (recvWindow c) (Some (fresh_packet id num payload)) = (rw, Ok ready) ->
  (length (messageQueue (dataHandler c)) < queueCap (dataHandler c))%nat ->
  exists c', RoutePacket cbs pr handler (Some (fresh_packet id num payload)) true net_ok now
             = (<[id mod 2 ^ 64 := c']> pr, [], None)
    /\ messageQueue (dataHandler c') = messageQueue (dataHandler c) ++ [m].
Proof.
  intros Hid Hm Hser Hins Hroom. unfold RoutePacket, ExtractConnectionID, PacketRouter. cbn [negb].
  rewrite decide_False
    by (cbn [Header fresh_packet]; rewrite !length_app, !length_be_encode; cbn; unfold ShortHeaderSize; lia).
  assert (Hhdr : be_decode (slice 0 8 (Header (fresh_packet id num payload))) = id mod 2 ^ 64).
  { cbn [Header fresh_packet]. rewrite slice_prefix by (by rewrite length_be_encode).
    rewrite be_decode_encode. done. }
  rewrite Hhdr, Hid.
  assert (H13 : byte_at (Header (fresh_packet id num payload)) 13 = 0).
  { unfold byte_at. cbn [Header fresh_packet].
    rewrite lookup_app_r by (rewrite length_be_encode; lia).
    rewrite lookup_app_r by (rewrite !length_be_encode; lia). rewrite !length_be_encode. done. }
  destruct (process_accepted cbs c (fresh_packet id num payload) m payload net_ok now rw ready)
    as (c' & -> & _ & _ & _ & _ & Hq & _); [done..|].
  exists c'. done.
Qed.

(** A Retry packet never reaches the handshake that waits for it. *)
Lemma retry_dropped (cbs : @DataHandlerCallbacks P CbError) (c : Conn K) packet net_ok now :
  MessageType packet = MessageTypeRetry -> processInboundPacket cbs c packet net_ok now = (c, []).
Proof. intros Ht. unfold processInboundPacket. rewrite Ht. done. Qed.

(** The number of a handshake packet, which is neither opened nor checked by the
    window, is recorded for the next acknowledgment. *)
Lemma handshake_number_recorded (cbs : @DataHandlerCallbacks P CbError) (c : Conn K) packet net_ok now :
  MessageType packet = MessageTypeSessionCreated -> 0 < PacketNumber packet ->
  receivedPackets (ackHandler (processInboundPacket cbs c packet net_ok now).1)
  = receivedPackets (ackHandler c) ++ [PacketNumber packet].
Proof.
  intros Ht Hn. unfold processInboundPacket. rewrite Ht, decide_False by done.
  rewrite decide_True by auto. rewrite (proj2 (Z.ltb_lt _ _) Hn). case_decide; done.
Qed.

(** An idle connection that has nothing to acknowledge sends no keepalive. *)
Lemma keepalive_silent (c : Conn K) interval idle net_ok now :
  receivedPackets (ackHandler c) = [] -> (keepalive_tick c interval idle net_ok now).1.2 = [].
Proof.
  intros Hr. unfold keepalive_tick, sendImmediateACK, GenerateACK. rewrite Hr.
  destruct (interval <=? _); done.
Qed.
End Routing.

(** ** Witnesses *)

(** An AEAD that appends its key sixteen times. *)
#[program] Definition demo_cipher : SSU2Cipher byte := {|
  seal k _ _ pt := Some (pt ++ replicate 16 k);
  unseal k _ _ ct :=
    if decide (drop (length ct - 16) ct = replicate 16 k) then Some (take (length ct - 16) ct) else None;
  derive_rekey k := Some k;
|}.
Next Obligation.
  intros k n ad pt ct Hs. apply (inj Some) in Hs as <-. rewrite length_app, length_replicate, Nat.add_sub.
  rewrite drop_app_length, decide_True by done. rewrite take_app_length. done.
Qed.
Next Obligation. intros k n ad pt ct Hs. apply (inj Some) in Hs as <-. rewrite length_app, length_replicate. done. Qed.

#[local] Existing Instance demo_cipher.
#[local] Existing Instance demo_chacha.
#[local] Existing Instance demo_hash.
#[local] Existing Instance amd64_conv.
#[local] Existing Instance demo_fragment_range.
#[local] Existing Instance demo_path.
#[local] Existing Instance demo_pending_range.

Definition demo_session (hpm : HeaderProtectorManager) (initiator : bool) : Conn byte :=
  mkSession (assembleSSU2Conn false 77) true false initiator (Some hpm)
    (Some (NewLengthModifier "sip"%string (1, 2) 3)) (Some x2a) (Some x2a) (NewReceiveWindow 0 512)
    NewACKHandler (NewDataHandler 100) NewRTTEstimator (NewCongestionControllerWithMTU None 1280)
    [] 0 0 0 [] 0.

Definition demo_sender : Conn byte := demo_session demo_alice true.
Definition demo_receiver : Conn byte := demo_session demo_bob false.

Definition demo_msgs : list bytes := [[x01; x02]; [x03]; [x04; x05; x06]].

Definition demo_cbs : @DataHandlerCallbacks demo_path unit := wireDataCallbacks false no_callbacks.

Definition demo_datagrams : list bytes :=
  match transmit_all demo_sender 1280 0 demo_msgs with Some (_, ds) => ds | None => [] end.

Lemma demo_linked : linked demo_sender demo_receiver.
Proof. repeat split; try done. repeat constructor. Qed.

Lemma datagrams_delivered_once_witness :
  messageQueue (dataHandler (receive_arrivals demo_cbs demo_receiver demo_datagrams
    [(2%nat, 5); (0%nat, 6); (2%nat, 7); (1%nat, 8); (0%nat, 9)]))
  = [[x04; x05; x06]; [x01; x02]; [x03]].
Proof.
  destruct (transmit_all demo_sender 1280 0 demo_msgs) as [[s' ds]|] eqn:Htr;
    [|vm_compute in Htr; discriminate Htr].
  assert (Hds : demo_datagrams = ds) by (unfold demo_datagrams; by rewrite Htr).
  rewrite Hds.
  destruct (datagrams_delivered_once demo_cbs demo_sender demo_receiver s' 1280 0 512 demo_msgs ds
    [(2%nat, 5); (0%nat, 6); (2%nat, 7); (1%nat, 8); (0%nat, 9)]) as [Hq _].
  - apply demo_linked.
  - reflexivity.
  - cbn. lia.
  - vm_compute. discriminate.
  - repeat (constructor; [split; [discriminate|vm_compute; discriminate]|]). constructor.
  - exact Htr.
  - reflexivity.
  - vm_compute. discriminate.
  - vm_compute. discriminate.
  - apply Nat.leb_le. reflexivity.
  - repeat (constructor; [cbn; lia|]). constructor.
  - exact Hq.
Defined.

(** A datagram with a forged payload is dropped, though it comes from a new address. *)
Lemma receive_authenticated_witness :
  let forged := match demo_datagrams with d :: _ => <[25%nat := x77]> d | [] => [] end in
  let '(c', sent) := receive demo_cbs demo_receiver forged (Some [mkBlock BlockTypePathChallenge (replicate 8 x11)]) true 5 in
  same_data demo_receiver c' /\ sent = [] /\ decryptErrors c' = 1.
Proof.
  intros forged. set (newPath := Some _).
  pose proof (receive_authenticated demo_cbs demo_receiver forged newPath true 5 x2a eq_refl) as Hr.
  assert (Hf : match (unwrap_datagram demo_receiver forged 5).2 with
               | Some p => MessageType p = MessageTypeData /\ unseal x2a (PacketNumber p) (data_ad p) (Payload p) = None
               | None => False
               end) by (vm_compute; split; reflexivity).
  assert (He : decryptErrors (receive demo_cbs demo_receiver forged newPath true 5).1 = 1) by (vm_compute; reflexivity).
  destruct (receive demo_cbs demo_receiver forged newPath true 5) as [c' sent].
  destruct (unwrap_datagram demo_receiver forged 5).2 as [p|]; [|contradiction]. destruct Hf as [Ht Hu].
  rewrite decide_True in Hr by exact Ht. rewrite Hu in Hr. destruct Hr as [Hr1 Hr2]. split; [exact Hr1|split; [exact Hr2|exact He]].
Defined.

Definition demo_reader : Conn byte :=
  set_handler demo_receiver (set_queue (NewDataHandler 100) demo_msgs).

Lemma session_reads_lossless_witness :
  (session_reads demo_reader [1; 5; 5; 2; 9; 3]%nat).2 = [x01; x02; x03; x04; x05; x06].
Proof.
  pose proof (session_reads_lossless demo_reader [1; 5; 5; 2; 9; 3]%nat) as Hr.
  destruct (session_reads demo_reader [1; 5; 5; 2; 9; 3]%nat) as [c' got].
  apply Hr.
  - reflexivity.
  - repeat (constructor; [discriminate|]). constructor.
  - repeat (constructor; [lia|]). constructor.
  - apply Nat.leb_le. reflexivity.
Defined.

(** Retransmissions carry a fresh number: without an acknowledgment in time the
    receiver delivers the message a second time. *)
Lemma retransmission_delivered_twice :
  match transmit_all demo_sender 1280 0 demo_msgs with
  | Some (s, ds) =>
      let s := set_out s (retransmitExpired (rttEst s) (100 * Second) (out s)) in
      let '(s, d1) := send_loop_turn s true (100 * Second) in
      let '(s, d2) := send_loop_turn s true (100 * Second) in
      messageQueue (dataHandler (receive_arrivals demo_cbs demo_receiver (ds ++ d1 ++ d2)
        [(0%nat, 1); (1%nat, 2); (2%nat, 3); (3%nat, 4); (4%nat, 5)]))
      = [[x01; x02]; [x03]; [x04; x05; x06]; [x04; x05; x06]; [x03]]
  | None => False
  end.
Proof. vm_compute. reflexivity. Qed.

(** Packets that arrive out of order are delivered out of order. *)
Lemma delivered_out_of_order :
  messageQueue (dataHandler (receive_arrivals demo_cbs demo_receiver demo_datagrams [(2%nat, 1); (0%nat, 2)]))
  = [[x04; x05; x06]; [x01; x02]].
Proof. vm_compute. reflexivity. Qed.

(** A path challenge is sent in the clear, and the peer drops it. *)
Lemma path_challenge_dropped :
  match SendToAddress demo_sender (mkBlock BlockTypePathChallenge (replicate 8 x11)) with
  | (_, Ok d) =>
      slice 16 27 d = [BlockTypePathChallenge; x00; x08] ++ replicate 8 x11
      /\ let demo_receiver := set_sip (demo_session demo_bob false) None in
         same_data demo_receiver (receive demo_cbs demo_receiver d None true 5).1
  | _ => False
  end.
Proof. vm_compute. split_and!; reflexivity. Qed.
