(* ===== verification/Sha256.v ===== *)
(** * SHA-256 and HMAC-SHA-256 of Go's standard library

    [crypto/sha256] and [crypto/hmac], as FIPS 180-4 and RFC 2104 define them, on
    byte lists. The words of the hash state are 32-bit integers. *)

From Stdlib Require Import ZArith Lia.
From Stdlib Require Import Strings.Byte.
From stdpp Require Import base numbers list.
From S2P Require Import Prelude.

#[local] Open Scope Z_scope.

(** ** Definitions *)

Definition rotr (n x : Z) : Z := Z.lor (Z.shiftr x n) (u32 (Z.shiftl x (32 - n))).

Definition sigma (a b c : Z) (x : Z) : Z := Z.lxor (Z.lxor (rotr a x) (rotr b x)) (Z.shiftr x c).
Definition Sigma (a b c : Z) (x : Z) : Z := Z.lxor (Z.lxor (rotr a x) (rotr b x)) (rotr c x).
Definition Ch (x y z : Z) : Z := Z.lxor (Z.land x y) (Z.land (Z.lxor x 0xffffffff) z).
Definition Maj (x y z : Z) : Z := Z.lxor (Z.lxor (Z.land x y) (Z.land x z)) (Z.land y z).

(** The constants are the first 32 bits of the fractional parts of the roots of the
    first primes: the cube roots for the rounds, the square roots for the start. *)
Definition is_prime (p : Z) : bool :=
  forallb (fun d => negb (p mod d =? 0)) (seqZ 2 (Z.sqrt p - 1)).

Definition primes (n : nat) : list Z := take n (filter (fun p => is_prime p = true) (seqZ 2 400)).

(** The integer cube root of [x] by its bits, the highest first. *)
Fixpoint cube_root (bits : nat) (root x : Z) : Z :=
  match bits with
  | O => root
  | S bits => let r := root + 2 ^ Z.of_nat bits in cube_root bits (if r * r * r <=? x then r else root) x
  end.

Definition round_constants : list Z :=
  Eval vm_compute in map (fun p => u32 (cube_root 40 0 (Z.shiftl p 96))) (primes 64).

Definition initial_state : list Z :=
  Eval vm_compute in map (fun p => u32 (Z.sqrt (Z.shiftl p 64))) (primes 8).

(** The message schedule, over the last sixteen words [w]. *)
Fixpoint schedule (n : nat) (w : list Z) : list Z :=
  match n with
  | O => []
  | S n =>
      match w with
      | w0 :: rest =>
          let next := u32 (sigma 17 19 10 (nth 13 rest 0) + nth 8 rest 0 + sigma 7 18 3 (nth 0 rest 0) + w0) in
          w0 :: schedule n (rest ++ [next])
      | [] => []
      end
  end.

Definition round (s : list Z) (kw : Z * Z) : list Z :=
  match s with
  | [a; b; c; d; e; f; g; h] =>
      let t1 := h + Sigma 6 11 25 e + Ch e f g + kw.1 + kw.2 in
      let t2 := Sigma 2 13 22 a + Maj a b c in
      [u32 (t1 + t2); a; b; c; u32 (d + t1); e; f; g]
  | _ => s
  end.

(** The big-endian words of a byte list. *)
Fixpoint words (n : nat) (l : bytes) : list Z :=
  match n with
  | O => []
  | S n => be_decode (take 4 l) :: words n (drop 4 l)
  end.

Definition compress (s : list Z) (block : bytes) : list Z :=
  zip_with (fun x y => u32 (x + y)) s (foldl round s (zip round_constants (schedule 64 (words 16 block)))).

Fixpoint compress_blocks (n : nat) (s : list Z) (l : bytes) : list Z :=
  match n with
  | O => s
  | S n => compress_blocks n (compress s (take 64 l)) (drop 64 l)
  end.

(** The message with the byte 0x80, zeros up to 8 bytes short of a block, and its
    length in bits. *)
Definition padded (l : bytes) : bytes :=
  l ++ x80 :: replicate (Z.to_nat ((55 - zlen l) mod 64)) x00 ++ be_encode 8 (8 * zlen l).

(** [sha256.Sum256] *)
Definition Sum256 (l : bytes) : bytes :=
  let p := padded l in
  concat (map (be_encode 4) (compress_blocks (length p / 64) initial_state p)).

Definition xor_byte (b : byte) (k : bytes) : bytes := map (fun x => z2b (Z.lxor (b2z x) (b2z b))) k.

(** [hmac.New(sha256.New, key)], the message written, and [Sum(nil)]. *)
Definition hmac_sha256 (key msg : bytes) : bytes :=
  let key := if decide (64 < length key)%nat then Sum256 key else key in
  let key := key ++ replicate (64 - length key) x00 in
  Sum256 (xor_byte x5c key ++ Sum256 (xor_byte x36 key ++ msg)).

(** ** Lemmas *)

Lemma length_round s kw : length (round s kw) = length s.
Proof. do 9 (destruct s as [|? s]; [done|]). done. Qed.

Lemma length_schedule n w : w <> [] -> length (schedule n w) = n.
Proof.
  revert w. induction n as [|n IH]; intros [|w0 rest] Hw; [done|done|done|]. cbn. rewrite IH; [done|]. by destruct rest.
Qed.

Lemma length_foldl_round s l : length (foldl round s l) = length s.
Proof. revert s. induction l as [|kw l IH]; intros s; [done|]. cbn. by rewrite IH, length_round. Qed.

Lemma length_compress s block : length (compress s block) = length s.
Proof. unfold compress. rewrite length_zip_with, length_foldl_round. lia. Qed.

Lemma length_compress_blocks n s l : length (compress_blocks n s l) = length s.
Proof.
  revert s l. induction n as [|n IH]; intros s l; [done|]. cbn [compress_blocks]. by rewrite IH, length_compress.
Qed.

(** A digest has 32 bytes. *)
Lemma length_Sum256 l : length (Sum256 l) = 32%nat.
Proof.
  unfold Sum256. set (s := compress_blocks _ _ _). assert (Hs : length s = 8%nat) by apply length_compress_blocks.
  clearbody s. do 9 (destruct s as [|? s]; try discriminate Hs).
  cbn [map concat]. by rewrite !length_app, !length_be_encode.
Qed.

Lemma length_hmac key msg : length (hmac_sha256 key msg) = 32%nat.
Proof. apply length_Sum256. Qed.

(** The padded message is a number of whole blocks. *)
Lemma padded_blocks l : (length (padded l) mod 64 = 0)%nat.
Proof.
  unfold padded, zlen. rewrite length_app, length_cons, length_app, length_replicate, length_be_encode.
  apply Nat2Z.inj. rewrite Nat2Z.inj_mod. rewrite Nat2Z.inj_add, Nat2Z.inj_succ, Nat2Z.inj_add.
  rewrite Z2Nat.id by (apply Z.mod_pos_bound; lia). set (n := Z.of_nat (length l)).
  pose proof (Z.div_mod (55 - n) 64). rewrite <- (Z_mod_plus_full _ ((55 - n) / 64)).
  replace (n + Z.succ ((55 - n) mod 64 + Z.of_nat 8) + (55 - n) / 64 * Z.of_nat 64) with (1 * 64) by lia.
  apply Z_mod_mult.
Qed.

(** ** Known answers *)

(** FIPS 180-2, B.1: the digest of abc. *)
Lemma sha256_abc :
  Sum256 [x61; x62; x63] =
  [xba; x78; x16; xbf; x8f; x01; xcf; xea; x41; x41; x40; xde; x5d; xae; x22; x23;
   xb0; x03; x61; xa3; x96; x17; x7a; x9c; xb4; x10; xff; x61; xf2; x00; x15; xad].
Proof. vm_compute. reflexivity. Qed.

(** RFC 4231, test case 2: the key Jefe and the message [what do ya want for nothing?]. *)
Lemma hmac_rfc4231_2 :
  hmac_sha256 [x4a; x65; x66; x65]
    [x77; x68; x61; x74; x20; x64; x6f; x20; x79; x61; x20; x77; x61; x6e; x74; x20;
     x66; x6f; x72; x20; x6e; x6f; x74; x68; x69; x6e; x67; x3f] =
  [x5b; xdc; xc1; x46; xbf; x60; x75; x4e; x6a; x04; x24; x26; x08; x95; x75; xc7;
   x5a; x00; x3f; x08; x9d; x27; x39; x83; x9d; xec; x58; xb9; x64; xec; x38; x43].
Proof. vm_compute. reflexivity. Qed.
