(* ===== verification/Options.v ===== *)
(** * Padding options of the SSU2 handshake

    [ssu2/handshake/options.go]: the Options block with its 4.4 fixed-point
    ratios, and the padding both ends derive from their own and the peer's
    options. *)

From Stdlib Require Import ZArith Lia.
From Stdlib Require Import Floats.SpecFloat.
From Stdlib Require Import Strings.Byte.
From stdpp Require Import base numbers list.
From S2P Require Import Prelude Float64.

#[local] Open Scope Z_scope.

(** ** Data *)

Record OptionsParams := mkOptions {
  TMinRatio : float64;
  TMaxRatio : float64;
  RMinRatio : float64;
  RMaxRatio : float64;
  TDummy : Z;
  RDummy : Z;
  TDelay : Z;
  RDelay : Z;
}.

Inductive OptionsError := EOptionsTooShort (len : nat).

(** ** Operations *)

Section Options.
Context `{FloatConv}.

Definition fixedPointToFloat (b : byte) : float64 :=
  fadd (f64 (Z.shiftr (b2z b) 4)) (fdiv (f64 (Z.land (b2z b) 15)) (f64 16)).

Definition floatToFixedPoint (f : float64) : byte :=
  let f := if SFltb f (S754_zero false) then S754_zero false else f in
  let f := if SFltb f64_15_9375 f then f64_15_9375 else f in
  let intPart := f2i f in
  let fracPart := f2i (fmul (SFsub 53 1024 f (f64 intPart)) (f64 16)) in
  z2b (Z.lor (i64 (Z.shiftl intPart 4)) fracPart).

Definition ParseOptionsBlock (data : bytes) : result OptionsError OptionsParams :=
  if decide (length data < 12)%nat then Err (EOptionsTooShort (length data))
  else
    let ratio i := fixedPointToFloat (default x00 (data !! i)) in
    Ok (mkOptions (ratio 0%nat) (ratio 1%nat) (ratio 2%nat) (ratio 3%nat)
          (be_decode (slice 4 6 data)) (be_decode (slice 6 8 data))
          (be_decode (slice 8 10 data)) (be_decode (slice 10 12 data))).

Definition Options_Serialize (o : OptionsParams) : bytes :=
  [floatToFixedPoint (TMinRatio o); floatToFixedPoint (TMaxRatio o);
   floatToFixedPoint (RMinRatio o); floatToFixedPoint (RMaxRatio o)]
  ++ be_encode 2 (TDummy o) ++ be_encode 2 (RDummy o) ++ be_encode 2 (TDelay o) ++ be_encode 2 (RDelay o).

Definition max44 (a b : float64) : float64 := if SFltb b a then a else b.
Definition min44 (a b : float64) : float64 := if SFltb a b then a else b.
Definition minU16 (a b : Z) : Z := if a <? b then a else b.

(** An empty range is no constraint: both ends are zero. *)
Definition ratio_range (mn mx : float64) : float64 * float64 :=
  if SFltb mx mn then (S754_zero false, S754_zero false) else (mn, mx).

Definition NegotiatedPadding (local peer : option OptionsParams) : option OptionsParams :=
  match local, peer with
  | Some local, Some peer =>
      let '(tmin, tmax) := ratio_range (max44 (TMinRatio local) (RMinRatio peer))
                             (min44 (TMaxRatio local) (RMaxRatio peer)) in
      let '(rmin, rmax) := ratio_range (max44 (RMinRatio local) (TMinRatio peer))
                             (min44 (RMaxRatio local) (TMaxRatio peer)) in
      Some (mkOptions tmin tmax rmin rmax
              (minU16 (TDummy local) (RDummy peer)) (minU16 (RDummy local) (TDummy peer))
              (minU16 (TDelay local) (RDelay peer)) (minU16 (RDelay local) (TDelay peer)))
  | _, _ => None
  end.

(** The options as the peer receives them. *)
Definition on_wire (o : option OptionsParams) : bytes :=
  match o with Some o => Options_Serialize o | None => replicate 12 x00 end.

(** ** Encoding *)

Lemma length_Options_Serialize o : length (Options_Serialize o) = 12%nat.
Proof. done. Qed.

Lemma length_on_wire o : length (on_wire o) = 12%nat.
Proof. by destruct o. Qed.

(** A fixed-point byte is the exact float of its sixteenths. *)
Lemma fixedPointToFloat_exact b : fixedPointToFloat b = canon (b2z b) (-4).
Proof. destruct b; vm_compute; reflexivity. Qed.

Lemma fixed_point_roundtrip b : floatToFixedPoint (fixedPointToFloat b) = b.
Proof. destruct b; vm_compute; reflexivity. Qed.

Lemma twelve_bytes (data : bytes) :
  (12 <= length data)%nat ->
  take 12 data = [default x00 (data !! 0%nat); default x00 (data !! 1%nat); default x00 (data !! 2%nat);
                  default x00 (data !! 3%nat)]
                 ++ slice 4 6 data ++ slice 6 8 data ++ slice 8 10 data ++ slice 10 12 data.
Proof. intros Hl. do 12 (destruct data as [|? data]; [cbn in Hl; lia|]). reflexivity. Qed.

Lemma parse_serialize data o :
  ParseOptionsBlock data = Ok o -> Options_Serialize o = take 12 data.
Proof.
  unfold ParseOptionsBlock. case_decide; [done|]. intros <-%Ok_inj. rewrite twelve_bytes by lia.
  unfold Options_Serialize. cbn [TMinRatio TMaxRatio RMinRatio RMaxRatio TDummy RDummy TDelay RDelay].
  rewrite !fixed_point_roundtrip, !be_encode_decode; [done|..]; unfold slice; rewrite length_take, length_drop; lia.
Qed.

Lemma parse_total data : (12 <= length data)%nat -> exists o, ParseOptionsBlock data = Ok o.
Proof. intros. unfold ParseOptionsBlock. rewrite decide_False by lia. eauto. Qed.

Lemma parse_take data o : ParseOptionsBlock data = Ok o -> ParseOptionsBlock (take 12 data) = Ok o.
Proof.
  unfold ParseOptionsBlock. case_decide; [done|]. rewrite length_take, decide_False by lia. intros <-%Ok_inj. f_equal.
  do 12 (destruct data as [|? data]; [cbn in *; lia|]). reflexivity.
Qed.

(** Options that the wire format represents: ratios in sixteenths, 16-bit values. *)
Definition representable (o : OptionsParams) : Prop := exists data, ParseOptionsBlock data = Ok o.

(** options round trip. Options with representable values are received as they
    were sent; and whatever was received is sent on as the same bytes. *)
Theorem options_roundtrip (o : OptionsParams) (data : bytes) :
  (ParseOptionsBlock data = Ok o -> Options_Serialize o = take 12 data)
  /\ (representable o -> ParseOptionsBlock (Options_Serialize o) = Ok o).
Proof.
  split; [apply parse_serialize|]. intros [d Hd]. rewrite (parse_serialize d o Hd). by apply parse_take.
Qed.

(** ** Negotiation *)

Lemma SFltb_canon x y e :
  0 <= x < 2 ^ 53 -> 0 <= y < 2 ^ 53 -> SFltb (canon x e) (canon y e) = (x <? y).
Proof.
  intros Hx Hy. destruct x as [|p|]; [by destruct y; [..|lia]| |lia]. destruct y as [|q|]; [done| |lia].
  unfold canon, SFltb, SFcompare. set (jp := 52 - Z.log2 (Zpos p)). set (jq := 52 - Z.log2 (Zpos q)).
  assert (Z.log2 (Zpos p) < 53) by (apply Z.log2_lt_pow2; lia).
  assert (Z.log2 (Zpos q) < 53) by (apply Z.log2_lt_pow2; lia).
  destruct (Z.compare_spec (e - jp) (e - jq)) as [Heq|Hlt|Hgt].
  - assert (jp = jq) as -> by lia. assert (H2 : 0 < 2 ^ jq) by (apply Z.pow_pos_nonneg; lia).
    replace (Pos.compare_cont Eq _ _) with (Zpos p ?= Zpos q); [unfold Z.ltb; by destruct (Zpos p ?= Zpos q)|].
    rewrite (Zmult_compare_compat_r (Zpos p) (Zpos q) (2 ^ jq)) by lia.
    rewrite <- (Z2Pos.id (Zpos p * 2 ^ jq)), <- (Z2Pos.id (Zpos q * 2 ^ jq)) at 1 by lia. done.
  - symmetry. apply Z.ltb_lt. apply Z.nle_gt. intros Hle%Z.log2_le_mono. lia.
  - symmetry. apply Z.ltb_ge. apply Z.nlt_ge. intros Hle. apply Z.lt_le_incl, Z.log2_le_mono in Hle. lia.
Qed.

Lemma SFltb_fixed a b : SFltb (fixedPointToFloat a) (fixedPointToFloat b) = (b2z a <? b2z b).
Proof. rewrite !fixedPointToFloat_exact. pose proof (b2z_bound a). pose proof (b2z_bound b). apply SFltb_canon; lia. Qed.

Lemma max44_comm a b :
  max44 (fixedPointToFloat a) (fixedPointToFloat b) = max44 (fixedPointToFloat b) (fixedPointToFloat a).
Proof.
  unfold max44. rewrite !SFltb_fixed. destruct (Z.ltb_spec (b2z b) (b2z a)), (Z.ltb_spec (b2z a) (b2z b)); try done; [lia|].
  f_equal. apply b2z_inj. lia.
Qed.

Lemma min44_comm a b :
  min44 (fixedPointToFloat a) (fixedPointToFloat b) = min44 (fixedPointToFloat b) (fixedPointToFloat a).
Proof.
  unfold min44. rewrite !SFltb_fixed. destruct (Z.ltb_spec (b2z b) (b2z a)), (Z.ltb_spec (b2z a) (b2z b)); try done; [lia|].
  f_equal. apply b2z_inj. lia.
Qed.

Lemma minU16_comm a b : minU16 a b = minU16 b a.
Proof. unfold minU16. destruct (Z.ltb_spec a b), (Z.ltb_spec b a); lia. Qed.

(** A float that a fixed-point byte stands for. *)
Definition fixed (f : float64) : Prop := exists b, f = fixedPointToFloat b.

Lemma representable_fixed o :
  representable o -> fixed (TMinRatio o) /\ fixed (TMaxRatio o) /\ fixed (RMinRatio o) /\ fixed (RMaxRatio o).
Proof.
  intros [data Hd]. unfold ParseOptionsBlock in Hd. case_decide; [done|]. apply Ok_inj in Hd as <-.
  split_and!; eexists; reflexivity.
Qed.

Lemma ratio_range_ordered mn mx : let '(a, b) := ratio_range mn mx in SFltb b a = false.
Proof. unfold ratio_range. by destruct (SFltb mx mn) eqn:E. Qed.

(** The options with the two directions exchanged. *)
Definition mirror (o : OptionsParams) : OptionsParams :=
  mkOptions (RMinRatio o) (RMaxRatio o) (TMinRatio o) (TMaxRatio o) (RDummy o) (TDummy o) (RDelay o) (TDelay o).

(** padding agreement. When both ends know both options, what one end derives
    for sending is what the other derives for receiving, and the range of ratios
    is never empty. *)
Theorem padding_agreement (a b : OptionsParams) :
  representable a -> representable b ->
  exists n, NegotiatedPadding (Some a) (Some b) = Some n /\ NegotiatedPadding (Some b) (Some a) = Some (mirror n)
  /\ SFltb (TMaxRatio n) (TMinRatio n) = false /\ SFltb (RMaxRatio n) (RMinRatio n) = false.
Proof.
  intros ([a1 Ha1] & [a2 Ha2] & [a3 Ha3] & [a4 Ha4])%representable_fixed
    ([b1 Hb1] & [b2 Hb2] & [b3 Hb3] & [b4 Hb4])%representable_fixed.
  cbn. rewrite Ha1, Ha2, Ha3, Ha4, Hb1, Hb2, Hb3, Hb4.
  rewrite (max44_comm b1), (max44_comm b3), (min44_comm b2), (min44_comm b4),
    (minU16_comm (TDummy b)), (minU16_comm (RDummy b)), (minU16_comm (TDelay b)), (minU16_comm (RDelay b)).
  set (r1 := max44 _ _). set (r2 := min44 _ _). set (r3 := max44 (fixedPointToFloat a3) _).
  set (r4 := min44 (fixedPointToFloat a4) _).
  pose proof (ratio_range_ordered r1 r2) as H1. pose proof (ratio_range_ordered r3 r4) as H2.
  destruct (ratio_range r1 r2), (ratio_range r3 r4). eexists. split; [done|]. done.
Qed.
End Options.

(** ** Witnesses and limits *)

#[local] Existing Instance amd64_conv.

Definition demo_a : OptionsParams :=
  mkOptions (fixedPointToFloat x01) (fixedPointToFloat x20) (fixedPointToFloat x00) (fixedPointToFloat x18) 5 6 7 8.
Definition demo_b : OptionsParams :=
  mkOptions (fixedPointToFloat x02) (fixedPointToFloat x10) (fixedPointToFloat x04) (fixedPointToFloat x12) 9 1 8 3.

Definition demo_bytes (o : OptionsParams) : bytes := Options_Serialize o.

Lemma options_roundtrip_witness :
  ParseOptionsBlock (demo_bytes demo_a) = Ok demo_a /\ Options_Serialize demo_a = take 12 (demo_bytes demo_a).
Proof.
  assert (Hp : ParseOptionsBlock (demo_bytes demo_a) = Ok demo_a) by (vm_compute; reflexivity).
  destruct (options_roundtrip demo_a (demo_bytes demo_a)) as [H1 H2]. split; [apply H2; by eexists|by apply H1].
Defined.

Lemma padding_agreement_witness :
  exists n, NegotiatedPadding (Some demo_a) (Some demo_b) = Some n /\ TMaxRatio n = fixedPointToFloat x12
  /\ NegotiatedPadding (Some demo_b) (Some demo_a) = Some (mirror n).
Proof.
  destruct (padding_agreement demo_a demo_b) as (n & H1 & H2 & _).
  - exists (demo_bytes demo_a). vm_compute. reflexivity.
  - exists (demo_bytes demo_b). vm_compute. reflexivity.
  - exists n. split_and!; [done| |done]. revert H1. vm_compute. by intros [= <-].
Defined.

(** A ratio that is no number of sixteenths is rounded down on the wire only: with
    0.1 at one end and 0.5 at the other, the first may send more padding than
    the second expects. *)
Lemma negotiation_disagrees :
  let tenth := fdiv (f64 1) (f64 10) in
  let a := mkOptions (S754_zero false) tenth (S754_zero false) tenth 0 0 0 0 in
  let half := fixedPointToFloat x08 in
  let b := mkOptions (S754_zero false) half (S754_zero false) half 0 0 0 0 in
  let received o := match ParseOptionsBlock (Options_Serialize o) with Ok o => Some o | Err _ => None end in
  match NegotiatedPadding (Some a) (received b), NegotiatedPadding (Some b) (received a) with
  | Some na, Some nb => TMaxRatio na = tenth /\ RMaxRatio nb = fixedPointToFloat x01
                        /\ SFltb (RMaxRatio nb) (TMaxRatio na) = true
  | _, _ => False
  end.
Proof. vm_compute. split_and!; reflexivity. Qed.
