(* ===== verification/SSU2Handshake.v ===== *)
(** * The SSU2 handshake messages

    [ssu2/handshake]: the handler that creates and processes SessionRequest,
    SessionCreated and SessionConfirmed, its key derivation ([kdf.go]) and the
    check of the peer's RouterInfo ([router_info.go]). The Noise state machine is
    the package [github.com/go-i2p/noise]; it is the class [NoiseXK], with the
    contract of the XK pattern as the class [NoiseXKLaws]. *)

From Stdlib Require Import ZArith Lia.
From Stdlib Require Import Strings.Byte Strings.String.
From stdpp Require Import base numbers list gmap.
From S2P Require Import Prelude Float64 Crypto Sha256 Block Packet ReplayCache Options.

#[local] Open Scope Z_scope.

(** ** The Noise library

    [WriteMessage] draws the ephemeral key from the random bytes it is given. A
    message comes with the two cipher states once the handshake is complete. *)

Class NoiseXK := {
  HandshakeState : Type;
  CipherState : Type;
  (* initiator, private key, public key, static key of the peer (or empty), prologue *)
  NewHandshakeState : bool -> bytes -> bytes -> bytes -> bytes -> option HandshakeState;
  MixHash : HandshakeState -> bytes -> HandshakeState;
  WriteMessage : bytes -> HandshakeState -> bytes ->
    HandshakeState * option (bytes * option (CipherState * CipherState));
  ReadMessage : HandshakeState -> bytes ->
    HandshakeState * option (bytes * option (CipherState * CipherState));
  ChainingKey : HandshakeState -> bytes;
  MessageIndex : HandshakeState -> Z;
  PeerStatic : HandshakeState -> bytes;
  UnsafeKey : CipherState -> bytes;
  UnsafeSetKey : CipherState -> bytes -> CipherState;
  (* curve25519.X25519(private, curve25519.Basepoint) *)
  x25519_base : bytes -> option bytes;
}.

(** The XK pattern: [in_step pa n i r] says that the initiator [i], whose static
    public key is [pa], and the responder [r] have exchanged [n] messages and
    mixed the same data. A message of the end whose turn it is can be written, and
    the other end reads its payload; after the third both have the two cipher
    states, and the responder the static key of the initiator. *)
Class NoiseXKLaws `{NoiseXK} := {
  in_step : bytes -> nat -> HandshakeState -> HandshakeState -> Prop;
  new_in_step : forall sa pa sb pb pro i r,
    x25519_base sa = Some pa -> x25519_base sb = Some pb ->
    NewHandshakeState true sa pa pb pro = Some i -> NewHandshakeState false sb pb [] pro = Some r ->
    in_step pa 0 i r;
  mix_in_step : forall pa n i r h, in_step pa n i r -> in_step pa n (MixHash i h) (MixHash r h);
  in_step_index : forall pa n i r, in_step pa n i r -> MessageIndex i = Z.of_nat n /\ MessageIndex r = Z.of_nat n;
  in_step_chaining : forall pa n i r, in_step pa n i r -> ChainingKey i = ChainingKey r;
  message_1 : forall pa i r rnd p,
    in_step pa 0 i r -> length rnd = 32%nat -> zlen p <= 65000 ->
    exists i' r' m, WriteMessage rnd i p = (i', Some (m, None)) /\ ReadMessage r m = (r', Some (p, None))
      /\ length m = (length p + 48)%nat /\ in_step pa 1 i' r';
  message_2 : forall pa i r rnd p,
    in_step pa 1 i r -> length rnd = 32%nat -> zlen p <= 65000 ->
    exists i' r' m, WriteMessage rnd r p = (r', Some (m, None)) /\ ReadMessage i m = (i', Some (p, None))
      /\ length m = (length p + 48)%nat /\ in_step pa 2 i' r';
  message_3 : forall pa i r rnd p,
    in_step pa 2 i r -> zlen p <= 65000 ->
    exists i' r' m c1 c2, WriteMessage rnd i p = (i', Some (m, Some (c1, c2)))
      /\ ReadMessage r m = (r', Some (p, Some (c1, c2)))
      /\ length m = (length p + 64)%nat /\ PeerStatic r' = pa;
  unsafe_key_set : forall c k, UnsafeKey (UnsafeSetKey c k) = k;
  x25519_base_length : forall s p, x25519_base s = Some p -> length p = 32%nat;
}.

(** ** Data *)

Inductive HandshakeError :=
| EStaticKeySize (got : nat)
| ERemoteKeySize (got : nat)
| EDerivePublic
| ENewState
| EWrongRole
| EUnexpectedType (got : byte)
| ENoEphemeral
| ETokenSize (got : nat)
| EZeroToken
| EZeroDest
| ESerialize (e : BlockError)
| ENoiseWrite
| EShortMessage (got : nat)
| EReplayed
| ENoiseRead
| EBlocks (e : BlockError)
| EDateTimeShort (got : nat)
| EClockSkew (skew : Z)
| ENoDateTime (msgType : byte)
| ENotReady (index : Z)
| ETooLarge (size : Z)
| ETooManyFragments (n : Z)
| EFragmented (fragNum total : Z)
| ENoFragments
| EFragmentCount (expected got : Z)
| EFragmentType (i : nat) (got : byte)
| EFragmentNumber (i : nat) (got : Z)
| EHeaderPanic          (* index out of range: the Go code panics *)
| ESParamMissing
| EIncomplete.

Section Handler.
Context `{NX : NoiseXK} `{B64 : I2PBase64} `{FC : FloatConv}.
Context {R : GoRange bytes Z} {Srt : GoSort (bytes * Z)}.

(** A nil slice is the empty list. *)
Record HandshakeHandler := mkHandler {
  initiator : bool;
  staticKey : bytes;
  remoteStaticKey : bytes;
  handshakeState : HandshakeState;
  sendCipher : option CipherState;
  recvCipher : option CipherState;
  sessCreateHeaderKey : bytes;
  sessionConfirmedHeaderKey : bytes;
  replayCache : option TTLCache;
  localOptions : option OptionsParams;
  peerOptions : option OptionsParams;
  peerRouterInfo : bytes;
  maxClockSkew : Z;
}.

Definition set_hs (h : HandshakeHandler) (s : HandshakeState) : HandshakeHandler :=
  mkHandler (initiator h) (staticKey h) (remoteStaticKey h) s (sendCipher h) (recvCipher h)
    (sessCreateHeaderKey h) (sessionConfirmedHeaderKey h) (replayCache h) (localOptions h) (peerOptions h)
    (peerRouterInfo h) (maxClockSkew h).

Definition set_ciphers (h : HandshakeHandler) (s r : option CipherState) : HandshakeHandler :=
  mkHandler (initiator h) (staticKey h) (remoteStaticKey h) (handshakeState h) s r
    (sessCreateHeaderKey h) (sessionConfirmedHeaderKey h) (replayCache h) (localOptions h) (peerOptions h)
    (peerRouterInfo h) (maxClockSkew h).

Definition set_header_keys (h : HandshakeHandler) (created confirmed : bytes) : HandshakeHandler :=
  mkHandler (initiator h) (staticKey h) (remoteStaticKey h) (handshakeState h) (sendCipher h) (recvCipher h)
    created confirmed (replayCache h) (localOptions h) (peerOptions h) (peerRouterInfo h) (maxClockSkew h).

Definition set_cache (h : HandshakeHandler) (c : option TTLCache) : HandshakeHandler :=
  mkHandler (initiator h) (staticKey h) (remoteStaticKey h) (handshakeState h) (sendCipher h) (recvCipher h)
    (sessCreateHeaderKey h) (sessionConfirmedHeaderKey h) c (localOptions h) (peerOptions h)
    (peerRouterInfo h) (maxClockSkew h).

Definition set_peer (h : HandshakeHandler) (key : bytes) (opts : option OptionsParams) (ri : bytes) : HandshakeHandler :=
  mkHandler (initiator h) (staticKey h) key (handshakeState h) (sendCipher h) (recvCipher h)
    (sessCreateHeaderKey h) (sessionConfirmedHeaderKey h) (replayCache h) (localOptions h) opts ri (maxClockSkew h).

Definition SetLocalOptions (h : HandshakeHandler) (opts : option OptionsParams) : HandshakeHandler :=
  mkHandler (initiator h) (staticKey h) (remoteStaticKey h) (handshakeState h) (sendCipher h) (recvCipher h)
    (sessCreateHeaderKey h) (sessionConfirmedHeaderKey h) (replayCache h) opts (peerOptions h)
    (peerRouterInfo h) (maxClockSkew h).

Definition SetMaxClockSkew (h : HandshakeHandler) (d : Z) : HandshakeHandler :=
  mkHandler (initiator h) (staticKey h) (remoteStaticKey h) (handshakeState h) (sendCipher h) (recvCipher h)
    (sessCreateHeaderKey h) (sessionConfirmedHeaderKey h) (replayCache h) (localOptions h) (peerOptions h)
    (peerRouterInfo h) d.

(** ** Construction *)

Definition handshakeCache (ttl : Z) : TTLCache := New (mkConfig ttl 1024 (30 * Second)).

(** The checks both constructors make on the peer's key. *)
Definition checkRemoteKey (init : bool) (remote : option bytes) : option HandshakeError :=
  let len := length (default [] remote) in
  if init && negb (bool_decide (len = 32%nat)) then Some (ERemoteKeySize len)
  else if negb init && bool_decide (remote <> None) && negb (bool_decide (len = 32%nat)) then Some (ERemoteKeySize len)
  else None.

Definition newHandler (init : bool) (priv pub : bytes) (remote : option bytes) (prologue : bytes)
    : result HandshakeError HandshakeHandler :=
  match NewHandshakeState init priv pub (if init then default [] remote else []) prologue with
  | None => Err ENewState
  | Some hs =>
      Ok (mkHandler init priv (default [] remote) hs None None [] []
            (if init then None else Some (handshakeCache (4 * 60 * Second))) None None [] 0)
  end.

Definition NewHandshakeHandler (init : bool) (priv : bytes) (remote : option bytes) (prologue : bytes)
    : result HandshakeError HandshakeHandler :=
  if negb (bool_decide (length priv = 32%nat)) then Err (EStaticKeySize (length priv))
  else match checkRemoteKey init remote with
  | Some e => Err e
  | None =>
      match x25519_base priv with
      | None => Err EDerivePublic
      | Some pub => newHandler init priv pub remote prologue
      end
  end.

Definition NewHandshakeHandlerWithKeys (init : bool) (priv pub : bytes) (remote : option bytes) (prologue : bytes)
    : result HandshakeError HandshakeHandler :=
  if negb (bool_decide (length priv = 32%nat)) then Err (EStaticKeySize (length priv))
  else if negb (bool_decide (length pub = 32%nat)) then Err (EStaticKeySize (length pub))
  else match checkRemoteKey init remote with
  | Some e => Err e
  | None => newHandler init priv pub remote prologue
  end.

Definition IsHandshakeComplete (h : HandshakeHandler) : bool :=
  bool_decide (is_Some (sendCipher h)) && bool_decide (is_Some (recvCipher h)).

Definition GetCipherStates (h : HandshakeHandler) : result HandshakeError (option CipherState * option CipherState) :=
  if IsHandshakeComplete h then Ok (sendCipher h, recvCipher h) else Err EIncomplete.

Definition Handler_Close (h : HandshakeHandler) : HandshakeHandler :=
  match replayCache h with Some c => set_cache h (Some (Close c)) | None => h end.

Definition ReconfigureReplayCache (h : HandshakeHandler) (ttl : Z) : HandshakeHandler :=
  set_cache h (Some (handshakeCache ttl)).

(** ** Key derivation *)

Definition deriveIntermediateHeaderKey (chainKey : bytes) (info : string) : bytes :=
  let tempKey := hmac_sha256 chainKey [] in
  hmac_sha256 tempKey (list_byte_of_string info ++ [x01]).

Definition deriveDataPhaseKeys (cs : CipherState) : bytes * bytes :=
  let info := list_byte_of_string "HKDFSSU2DataKeys" in
  let tempKey := hmac_sha256 (UnsafeKey cs) [] in
  let kData := hmac_sha256 tempKey (info ++ [x01]) in
  let kHeader2 := hmac_sha256 tempKey (kData ++ info ++ [x02]) in
  (kData, kHeader2).

(** [DeriveHeaderKeys] installs the data keys in the cipher states. *)
Definition DeriveHeaderKeys (h : HandshakeHandler) : HandshakeHandler * result HandshakeError (bytes * bytes) :=
  match sendCipher h, recvCipher h with
  | Some s, Some r =>
      let '(sendKData, sendKHeader2) := deriveDataPhaseKeys s in
      let '(recvKData, recvKHeader2) := deriveDataPhaseKeys r in
      (set_ciphers h (Some (UnsafeSetKey s sendKData)) (Some (UnsafeSetKey r recvKData)),
       Ok (sendKHeader2, recvKHeader2))
  | _, _ => (h, Err EIncomplete)
  end.

(** ** Blocks of the handshake messages *)

Definition createHandshakeBlocks (h : HandshakeHandler) (now : Z) : list SSU2Block :=
  [NewSSU2Block BlockTypeDateTime (be_encode 4 (now / Second));
   NewSSU2Block BlockTypeOptions
     (match localOptions h with Some o => Options_Serialize o | None => replicate 12 x00 end)].

Definition validateTimestampSkew (h : HandshakeHandler) (dateTimeData : bytes) (now : Z) : option HandshakeError :=
  if maxClockSkew h <=? 0 then None
  else
    let skew := time_sub now (be_decode (slice 0 4 dateTimeData) * Second) in
    let skew := if skew <? 0 then i64 (- skew) else skew in
    if maxClockSkew h <? skew then Some (EClockSkew skew) else None.

(** The loop of [validateHandshakeBlocks]: whether a DateTime block was seen. *)
Fixpoint datetime_loop (h : HandshakeHandler) (blocks : list SSU2Block) (hasDateTime : bool) (now : Z)
    : result HandshakeError bool :=
  match blocks with
  | [] => Ok hasDateTime
  | block :: blocks =>
      if decide (Type_ block = BlockTypeDateTime) then
        if decide (length (Data block) < 4)%nat then Err (EDateTimeShort (length (Data block)))
        else match validateTimestampSkew h (Data block) now with
             | Some e => Err e
             | None => datetime_loop h blocks true now
             end
      else datetime_loop h blocks hasDateTime now
  end.

Definition validateHandshakeBlocks (h : HandshakeHandler) (blocks : list SSU2Block) (messageType : byte) (now : Z)
    : option HandshakeError :=
  match datetime_loop h blocks false now with
  | Err e => Some e
  | Ok hasDateTime => if hasDateTime then None else Some (ENoDateTime messageType)
  end.

Definition set_peer_options (h : HandshakeHandler) (o : OptionsParams) : HandshakeHandler :=
  set_peer h (remoteStaticKey h) (Some o) (peerRouterInfo h).

Fixpoint extractPeerOptions (h : HandshakeHandler) (blocks : list SSU2Block) : HandshakeHandler :=
  match blocks with
  | [] => h
  | block :: blocks =>
      if bool_decide (Type_ block = BlockTypeOptions) && bool_decide (12 <= length (Data block))%nat then
        match ParseOptionsBlock (Data block) with
        | Ok opts => set_peer_options h opts
        | Err _ => h
        end
      else extractPeerOptions h blocks
  end.

Definition updateCipherStates (h : HandshakeHandler) (cs : option (CipherState * CipherState)) : HandshakeHandler :=
  match cs with
  | Some (cs1, cs2) => if initiator h then set_ciphers h (Some cs1) (Some cs2) else set_ciphers h (Some cs2) (Some cs1)
  | None => h
  end.

(** The Poly1305 tag is the end of the AEAD output. *)
Definition split_mac (aead : bytes) : bytes * bytes :=
  if decide (16 <= length aead)%nat then (take (length aead - 16) aead, drop (length aead - 16) aead)
  else (aead, replicate 16 x00).

(** ** SessionRequest and SessionCreated *)

Definition longHeader (destConnID sourceConnID : Z) (msgType : byte) (token : bytes) : bytes :=
  be_encode 8 destConnID ++ be_encode 4 0 ++ [msgType; z2b SSU2ProtocolVersion; z2b SSU2NetworkID; x00]
  ++ be_encode 8 sourceConnID ++ (if decide (length token = 8%nat) then token else replicate 8 x00).

Definition derive_next_key (h : HandshakeHandler) (msgType : byte) : HandshakeHandler :=
  let ck := ChainingKey (handshakeState h) in
  if decide (msgType = MessageTypeSessionRequest)
  then set_header_keys h (deriveIntermediateHeaderKey ck "SessCreateHeader") (sessionConfirmedHeaderKey h)
  else if decide (msgType = MessageTypeSessionCreated)
  then set_header_keys h (sessCreateHeaderKey h) (deriveIntermediateHeaderKey ck "SessionConfirmed")
  else h.

Definition buildHandshakePacket (h : HandshakeHandler) (blocks : list SSU2Block) (msgType : byte)
    (sourceConnID destConnID : Z) (token : bytes) (rnd : bytes) : HandshakeHandler * result HandshakeError SSU2Packet :=
  if (destConnID =? 0) && negb (bool_decide (msgType = MessageTypeSessionRequest)) then (h, Err EZeroDest)
  else match SerializeBlocks blocks with
  | Err e => (h, Err (ESerialize e))
  | Ok payload =>
      let header := longHeader destConnID sourceConnID msgType token in
      match WriteMessage rnd (MixHash (handshakeState h) header) payload with
      | (hs, None) => (set_hs h hs, Err ENoiseWrite)
      | (hs, Some (ciphertext, cs)) =>
          let h := updateCipherStates (set_hs h hs) cs in
          if decide (length ciphertext < 32)%nat then (h, Err (EShortMessage (length ciphertext)))
          else
            let h := derive_next_key h msgType in
            let '(pktPayload, mac) := split_mac (drop 32 ciphertext) in
            (h, Ok (mkPacket header (take 32 ciphertext) pktPayload mac msgType 0 0))
      end
  end.

Definition CreateSessionRequest (h : HandshakeHandler) (sourceConnID destConnID : Z) (rnd : bytes) (now : Z)
    : HandshakeHandler * result HandshakeError SSU2Packet :=
  if negb (initiator h) then (h, Err EWrongRole)
  else buildHandshakePacket h (createHandshakeBlocks h now) MessageTypeSessionRequest sourceConnID destConnID [] rnd.

(** [ResetForRetry]; the ephemeral key of the old state is erased with it. *)
Definition ResetForRetry (h : HandshakeHandler) : HandshakeHandler * option HandshakeError :=
  match x25519_base (staticKey h) with
  | None => (h, Some EDerivePublic)
  | Some pub =>
      let peer := if initiator h && bool_decide (length (remoteStaticKey h) = 32%nat) then remoteStaticKey h else [] in
      match NewHandshakeState (initiator h) (staticKey h) pub peer [] with
      | None => (h, Some ENewState)
      | Some hs => (set_header_keys (set_ciphers (set_hs h hs) None None) [] [], None)
      end
  end.

Definition CreateSessionRequestWithToken (h : HandshakeHandler) (sourceConnID destConnID : Z) (token rnd : bytes) (now : Z)
    : HandshakeHandler * result HandshakeError SSU2Packet :=
  if negb (initiator h) then (h, Err EWrongRole)
  else if negb (bool_decide (length token = 8%nat)) then (h, Err (ETokenSize (length token)))
  else if forallb (fun b => bool_decide (b = x00)) token then (h, Err EZeroToken)
  else match ResetForRetry h with
  | (h, Some e) => (h, Err e)
  | (h, None) =>
      buildHandshakePacket h (createHandshakeBlocks h now) MessageTypeSessionRequest sourceConnID destConnID token rnd
  end.

Definition CreateSessionCreated (h : HandshakeHandler) (sourceConnID destConnID : Z) (rnd : bytes) (now : Z)
    : HandshakeHandler * result HandshakeError SSU2Packet :=
  if initiator h then (h, Err EWrongRole)
  else buildHandshakePacket h (createHandshakeBlocks h now) MessageTypeSessionCreated sourceConnID destConnID [] rnd.

(** The end of [ProcessSessionRequest] and [ProcessSessionCreated]: the blocks are
    parsed and validated, and the peer's options kept. *)
Definition processHandshakeBlocks (h : HandshakeHandler) (payload : bytes) (msgType : byte) (now : Z)
    : HandshakeHandler * option HandshakeError :=
  match DeserializeBlocks payload with
  | Err e => (h, Some (EBlocks e))
  | Ok blocks =>
      match validateHandshakeBlocks h blocks msgType now with
      | Some e => (h, Some e)
      | None => (extractPeerOptions h blocks, None)
      end
  end.

(** The replay check of [ProcessSessionRequest]: whether the message was seen. *)
Definition checkReplay (h : HandshakeHandler) (packet : SSU2Packet) (now : Z) : HandshakeHandler * bool :=
  match replayCache h with
  | Some c =>
      let '(c, seen) := CheckAndAdd c (Sum256 (EphemeralKey packet ++ Payload packet)) now in (set_cache h (Some c), seen)
  | None => (h, false)
  end.

Definition ProcessSessionRequest (h : HandshakeHandler) (packet : SSU2Packet) (now : Z)
    : HandshakeHandler * option HandshakeError :=
  if initiator h then (h, Some EWrongRole)
  else if negb (bool_decide (MessageType packet = MessageTypeSessionRequest)) then (h, Some (EUnexpectedType (MessageType packet)))
  else if negb (bool_decide (length (EphemeralKey packet) = 32%nat)) then (h, Some ENoEphemeral)
  else
    let '(h, replayed) := checkReplay h packet now in
    if replayed then (h, Some EReplayed)
    else
      match ReadMessage (MixHash (handshakeState h) (Header packet)) (EphemeralKey packet ++ Payload packet ++ MAC packet) with
      | (hs, None) => (set_hs h hs, Some ENoiseRead)
      | (hs, Some (payload, cs)) =>
          let h := derive_next_key (set_hs h hs) MessageTypeSessionRequest in
          processHandshakeBlocks (updateCipherStates h cs) payload MessageTypeSessionRequest now
      end.

Definition ProcessSessionCreated (h : HandshakeHandler) (packet : SSU2Packet) (now : Z)
    : HandshakeHandler * option HandshakeError :=
  if negb (initiator h) then (h, Some EWrongRole)
  else if negb (bool_decide (MessageType packet = MessageTypeSessionCreated)) then (h, Some (EUnexpectedType (MessageType packet)))
  else if negb (bool_decide (length (EphemeralKey packet) = 32%nat)) then (h, Some ENoEphemeral)
  else
    match ReadMessage (MixHash (handshakeState h) (Header packet)) (EphemeralKey packet ++ Payload packet ++ MAC packet) with
    | (hs, None) => (set_hs h hs, Some ENoiseRead)
    | (hs, Some (payload, cs)) =>
        let h := derive_next_key (set_hs h hs) MessageTypeSessionCreated in
        processHandshakeBlocks (updateCipherStates h cs) payload MessageTypeSessionCreated now
    end.

(** ** SessionConfirmed *)

Definition sessionConfirmedMinMTU : Z := 1280.
Definition sessionConfirmedPerPacketOverhead : Z := 64.
Definition sessionConfirmedMaxPerPacket : Z := sessionConfirmedMinMTU - sessionConfirmedPerPacketOverhead.
Definition sessionConfirmedMaxFragments : Z := 15.

Definition serializeConfirmedPayload (routerInfo : bytes) : result HandshakeError bytes :=
  let blocks := if decide (0 < length routerInfo)%nat then [NewSSU2Block BlockTypeRouterInfo routerInfo] else [] in
  match SerializeBlocks blocks with Ok p => Ok p | Err e => Err (ESerialize e) end.

Definition computeFragmentCount (ciphertextSize : Z) : result HandshakeError Z :=
  let totalFrags := Z.quot (ciphertextSize + sessionConfirmedMaxPerPacket - 1) sessionConfirmedMaxPerPacket in
  let totalFrags := if totalFrags <? 1 then 1 else totalFrags in
  if sessionConfirmedMaxFragments <? totalFrags then Err (ETooManyFragments totalFrags) else Ok totalFrags.

Definition buildSessionConfirmedHeader (connID packetNumber fragNum totalFrags : Z) : bytes :=
  be_encode 8 connID ++ be_encode 4 packetNumber
  ++ [MessageTypeSessionConfirmed; z2b (Z.lor (b2z (z2b (Z.shiftl fragNum 4))) (b2z (z2b totalFrags))); x00; x00].

(** The packets [i], ..., [totalFrags - 1] of the ciphertext from [offset] on; [n]
    is their number. *)
Fixpoint fragment_loop (n : nat) (ciphertext : bytes) (connID packetNumber totalFrags i : Z) (offset : nat)
    : list SSU2Packet :=
  match n with
  | O => []
  | S n =>
      let last := Nat.min (offset + Z.to_nat sessionConfirmedMaxPerPacket) (length ciphertext) in
      let chunk := slice offset last ciphertext in
      let '(pktPayload, mac) :=
        if (i =? totalFrags - 1) && bool_decide (MACSize <= length chunk)%nat
        then (take (length chunk - MACSize) chunk, drop (length chunk - MACSize) chunk)
        else (chunk, replicate MACSize x00) in
      mkPacket (buildSessionConfirmedHeader connID packetNumber i totalFrags) [] pktPayload mac
        MessageTypeSessionConfirmed packetNumber 0
      :: fragment_loop n ciphertext connID packetNumber totalFrags (i + 1) last
  end.

Definition buildFragmentPackets (ciphertext : bytes) (connID packetNumber totalFrags : Z) : list SSU2Packet :=
  fragment_loop (Z.to_nat totalFrags) ciphertext connID packetNumber totalFrags 0 0.

Definition with_header (p : SSU2Packet) (header : bytes) : SSU2Packet :=
  mkPacket header (EphemeralKey p) (Payload p) (MAC p) (MessageType p) (PacketNumber p) (Timestamp p).

Definition CreateSessionConfirmed (h : HandshakeHandler) (connID packetNumber : Z) (routerInfo rnd : bytes)
    : HandshakeHandler * result HandshakeError SSU2Packet :=
  if negb (initiator h) then (h, Err EWrongRole)
  else if negb (MessageIndex (handshakeState h) =? 2) then (h, Err (ENotReady (MessageIndex (handshakeState h))))
  else match serializeConfirmedPayload routerInfo with
  | Err e => (h, Err e)
  | Ok payload =>
      let header := buildSessionConfirmedHeader connID packetNumber 0 1 in
      if sessionConfirmedMaxPerPacket <? zlen payload + 64 then (h, Err (ETooLarge (zlen payload + 64)))
      else match WriteMessage rnd (MixHash (handshakeState h) header) payload with
      | (hs, None) => (set_hs h hs, Err ENoiseWrite)
      | (hs, Some (ciphertext, cs)) =>
          let h := updateCipherStates (set_hs h hs) cs in
          let '(pktPayload, mac) := split_mac ciphertext in
          (h, Ok (mkPacket header [] pktPayload mac MessageTypeSessionConfirmed packetNumber 0))
      end
  end.

Definition CreateSessionConfirmedFragments (h : HandshakeHandler) (connID packetNumber : Z) (routerInfo rnd : bytes)
    : HandshakeHandler * result HandshakeError (list SSU2Packet) :=
  if negb (initiator h) then (h, Err EWrongRole)
  else if negb (MessageIndex (handshakeState h) =? 2) then (h, Err (ENotReady (MessageIndex (handshakeState h))))
  else match serializeConfirmedPayload routerInfo with
  | Err e => (h, Err e)
  | Ok payload =>
      match computeFragmentCount (zlen payload + 64) with
      | Err e => (h, Err e)
      | Ok totalFrags =>
          let header := buildSessionConfirmedHeader connID packetNumber 0 totalFrags in
          match WriteMessage rnd (MixHash (handshakeState h) header) payload with
          | (hs, None) => (set_hs h hs, Err ENoiseWrite)
          | (hs, Some (ciphertext, cs)) =>
              let h := updateCipherStates (set_hs h hs) cs in
              (h, Ok (match buildFragmentPackets ciphertext connID packetNumber totalFrags with
                      | p :: packets => with_header p header :: packets
                      | [] => []
                      end))
          end
      end
  end.

(** *** The peer's RouterInfo *)

Fixpoint find_router_info (blocks : list SSU2Block) : bytes :=
  match blocks with
  | [] => []
  | block :: blocks =>
      if bool_decide (Type_ block = BlockTypeRouterInfo) && bool_decide (0 < length (Data block))%nat
      then Data block else find_router_info blocks
  end.

Definition extractPeerRouterInfo (payload : bytes) : result HandshakeError bytes :=
  if decide (length payload = 0%nat) then Ok []
  else match DeserializeBlocks payload with
       | Err e => Err (EBlocks e)
       | Ok blocks => Ok (find_router_info blocks)
       end.

Definition verifyPeerRouterInfoStaticKey (peerRouterInfo remoteStaticKey : bytes) : option HandshakeError :=
  if decide (length peerRouterInfo = 0%nat) then None
  else if negb (bool_decide (length remoteStaticKey = 32%nat)) then None
  else if Contains peerRouterInfo (base64 remoteStaticKey) then None
  else Some ESParamMissing.

Definition finalizeSessionConfirmed (h : HandshakeHandler) (noiseMessage : bytes)
    : HandshakeHandler * option HandshakeError :=
  match ReadMessage (handshakeState h) noiseMessage with
  | (hs, None) => (set_hs h hs, Some ENoiseRead)
  | (hs, Some (payload, cs)) =>
      let h := updateCipherStates (set_hs h hs) cs in
      let h := if decide (0 < length (PeerStatic hs))%nat
               then set_peer h (PeerStatic hs) (peerOptions h) (peerRouterInfo h) else h in
      match extractPeerRouterInfo payload with
      | Err e => (h, Some e)
      | Ok ri =>
          let h := set_peer h (remoteStaticKey h) (peerOptions h) ri in
          (h, verifyPeerRouterInfoStaticKey (peerRouterInfo h) (remoteStaticKey h))
      end
  end.

(** *** Receiving *)

Definition frag_total (p : SSU2Packet) : Z := Z.land (byte_at (Header p) 13) 15.
Definition frag_num (p : SSU2Packet) : Z := Z.land (Z.shiftr (byte_at (Header p) 13) 4) 15.

Definition ProcessSessionConfirmed (h : HandshakeHandler) (packet : SSU2Packet)
    : HandshakeHandler * option HandshakeError :=
  if initiator h then (h, Some EWrongRole)
  else if negb (bool_decide (MessageType packet = MessageTypeSessionConfirmed)) then (h, Some (EUnexpectedType (MessageType packet)))
  else if negb (MessageIndex (handshakeState h) =? 2) then (h, Some (ENotReady (MessageIndex (handshakeState h))))
  else if bool_decide (14 <= length (Header packet))%nat && ((1 <? frag_total packet) || (0 <? frag_num packet))
  then (h, Some (EFragmented (frag_num packet) (frag_total packet)))
  else finalizeSessionConfirmed (set_hs h (MixHash (handshakeState h) (Header packet))) (Payload packet ++ MAC packet).

Fixpoint check_fragments (i : nat) (packets : list SSU2Packet) : option HandshakeError :=
  match packets with
  | [] => None
  | pkt :: packets =>
      if negb (bool_decide (MessageType pkt = MessageTypeSessionConfirmed)) then Some (EFragmentType i (MessageType pkt))
      else if decide (length (Header pkt) < 14)%nat then Some EHeaderPanic
      else if negb (frag_num pkt =? Z.of_nat i) then Some (EFragmentNumber i (frag_num pkt))
      else check_fragments (S i) packets
  end.

(** [validateFragmentOrdering] of a non-empty list; it reads byte 13 of the headers
    without checking their length. *)
Definition validateFragmentOrdering (packets : list SSU2Packet) : option HandshakeError :=
  match packets with
  | [] => Some EHeaderPanic
  | first :: _ =>
      if decide (length (Header first) < 14)%nat then Some EHeaderPanic
      else
        let totalFrags := if frag_total first <? 1 then 1 else frag_total first in
        if negb (zlen packets =? totalFrags) then Some (EFragmentCount totalFrags (zlen packets))
        else check_fragments 0 packets
  end.

Fixpoint reassembleFragments (packets : list SSU2Packet) : bytes :=
  match packets with
  | [] => []
  | [pkt] => Payload pkt ++ MAC pkt
  | pkt :: packets => Payload pkt ++ reassembleFragments packets
  end.

Definition ProcessSessionConfirmedFragments (h : HandshakeHandler) (packets : list SSU2Packet)
    : HandshakeHandler * option HandshakeError :=
  if initiator h then (h, Some EWrongRole)
  else match packets with
  | [] => (h, Some ENoFragments)
  | first :: _ =>
      if negb (MessageIndex (handshakeState h) =? 2) then (h, Some (ENotReady (MessageIndex (handshakeState h))))
      else match validateFragmentOrdering packets with
      | Some e => (h, Some e)
      | None =>
          finalizeSessionConfirmed (set_hs h (MixHash (handshakeState h) (Header first))) (reassembleFragments packets)
      end
  end.

(** ** Packets on the wire *)

(** The packet as the receiver parses it: the sections, with the packet number of
    the header and the time of arrival. *)
Definition received (p : SSU2Packet) (now : Z) : SSU2Packet :=
  mkPacket (Header p) (EphemeralKey p) (Payload p) (MAC p) (MessageType p) (be_decode (slice 8 12 (Header p))) now.

(** Serialised by one end and parsed by the other. *)
Definition transfer (p : SSU2Packet) (now : Z) : option SSU2Packet :=
  match (Packet.Serialize p).2 with
  | Ok data => match Packet.Deserialize (NewSSU2Packet x00 0 now) data now with (q, None) => Some q | (_, Some _) => None end
  | Err _ => None
  end.

Definition wire_ok (p : SSU2Packet) : Prop :=
  Packet.validate p = None /\ Header p !! 12%nat = Some (MessageType p) /\ long_header_ok p
  /\ (MinPacketSize <= length (sections p))%nat.

Lemma transfer_ok p now : wire_ok p -> transfer p now = Some (received p now).
Proof.
  intros (Hv & H12 & Hl & Hm). unfold transfer. destruct (Packet.Serialize p) as [p' r] eqn:E.
  assert (exists buf, r = Ok buf) as [buf ->].
  { unfold Packet.Serialize in E. rewrite Hv in E. injection E as _ <-. eauto. }
  apply Serialize_ok_inv in E as (_ & -> & ->). rewrite list_insert_id by done. cbn [snd].
  set (q := mkPacket _ _ _ _ _ _ _). assert (q = p) as -> by by destruct p.
  destruct (validate_none_inv p Hv) as (H1 & H2 & H3 & _).
  by rewrite Deserialize_sections.
Qed.

Lemma length_longHeader dst src t token : length (longHeader dst src t token) = 32%nat.
Proof. unfold longHeader. rewrite !length_app, !length_be_encode. cbn. case_decide; [lia|done]. Qed.

Lemma longHeader_fields dst src t token :
  longHeader dst src t token !! 12%nat = Some t /\ byte_at (longHeader dst src t token) 13 = SSU2ProtocolVersion
  /\ byte_at (longHeader dst src t token) 14 = SSU2NetworkID
  /\ slice 16 24 (longHeader dst src t token) = be_encode 8 src.
Proof. done. Qed.

(** A handshake message split into the sections of a packet. *)
Lemma split_message (m : bytes) :
  (48 <= length m)%nat -> let '(p, mac) := split_mac (drop 32 m) in
  take 32 m ++ p ++ mac = m /\ length (take 32 m) = 32%nat /\ length mac = 16%nat /\ length p = (length m - 48)%nat.
Proof.
  intros Hm. unfold split_mac. rewrite length_drop, decide_True by lia. rewrite take_drop, take_drop.
  rewrite !length_take, !length_drop. split_and!; lia || done.
Qed.

Lemma handshake_packet_ok dst src t token m p mac :
  (t = MessageTypeSessionRequest \/ t = MessageTypeSessionCreated) ->
  split_mac (drop 32 m) = (p, mac) -> (48 <= length m <= 1400)%nat ->
  wire_ok (mkPacket (longHeader dst src t token) (take 32 m) p mac t 0 0).
Proof.
  intros Ht Hs Hm. pose proof (split_message m) as Hsp. rewrite Hs in Hsp. destruct Hsp as (_ & H1 & H2 & H3); [lia|].
  set (q := mkPacket _ _ _ _ _ _ _).
  assert (Hhs : getHeaderSize q = LongHeaderSize) by (by destruct Ht as [-> | ->]).
  assert (Hek : hasEphemeralKey q = true) by (by destruct Ht as [-> | ->]).
  assert (Hlen : length (sections q) = (length m + 32)%nat).
  { unfold sections. cbn [Header EphemeralKey Payload MAC q]. rewrite !length_app, length_longHeader. lia. }
  unfold wire_ok, MinPacketSize. split_and!; [|done|done|lia]. apply validate_none_intro.
  - rewrite Hhs. apply length_longHeader.
  - unfold ephemeral_len. by rewrite Hek.
  - done.
  - rewrite Hlen. unfold MaxPacketSizeIPv6. lia.
Qed.

(** ** The blocks of a handshake message *)

Lemma handshake_payload h now :
  exists payload, SerializeBlocks (createHandshakeBlocks h now) = Ok payload /\ length payload = 22%nat
    /\ DeserializeBlocks payload = Ok (createHandshakeBlocks h now).
Proof.
  destruct (SerializeBlocks (createHandshakeBlocks h now)) as [payload|e] eqn:E.
  - exists payload. split; [done|]. pose proof (blocks_roundtrip _ _ E) as Hr. split; [|exact Hr].
    unfold SerializeBlocks in E. cbn in E. unfold SerializeBlocks in E. rewrite decide_False in E by done.
    apply serialize_loop_ok_iff in E as [_ ->].
    unfold createHandshakeBlocks. destruct (localOptions h); done.
  - exfalso. revert E. unfold SerializeBlocks. rewrite decide_False by done. unfold createHandshakeBlocks. by destruct (localOptions h).
Qed.

(** The clocks of the two ends are close enough for [h], at the time [now], to
    accept a message created at the time [sent]. *)
Definition clock_ok (h : HandshakeHandler) (sent now : Z) : Prop :=
  maxClockSkew h <= 0
  \/ 0 <= sent < 2 ^ 32 * Second /\ Z.abs (now - sent / Second * Second) <= maxClockSkew h <= maxDuration.

Lemma clock_ok_skew h h' sent now : maxClockSkew h = maxClockSkew h' -> clock_ok h' sent now -> clock_ok h sent now.
Proof. unfold clock_ok. by intros ->. Qed.

Lemma clock_accepted h sent now :
  clock_ok h sent now -> validateTimestampSkew h (be_encode 4 (sent / Second)) now = None.
Proof.
  unfold validateTimestampSkew. intros [Hk|(Hs & Hk & Hd)]; [by rewrite (proj2 (Z.leb_le _ _) Hk)|].
  destruct (Z.leb_spec (maxClockSkew h) 0); [done|].
  change (slice 0 4 (be_encode 4 (sent / Second))) with (be_encode 4 (sent / Second)).
  rewrite be_decode_encode_small.
  2: { unfold Second in *. split; [apply Z.div_pos; lia|]. apply Z.div_lt_upper_bound; lia. }
  assert (Ht : time_sub now (sent / Second * Second) = now - sent / Second * Second).
  { unfold time_sub, minDuration, maxDuration in *. lia. }
  rewrite Ht. set (d := now - sent / Second * Second) in *. clearbody d.
  assert (Hi : i64 (- d) = - d).
  { unfold i64, signed, wrap, maxDuration in *. destruct (decide (0 <= - d)).
    - rewrite Z.mod_small by lia. case_ifs; lia.
    - rewrite <- (Z_mod_plus_full _ 1), Z.mod_small by lia. case_ifs; lia. }
  rewrite Hi. destruct (Z.ltb_spec d 0); [destruct (Z.ltb_spec (maxClockSkew h) (- d))|destruct (Z.ltb_spec (maxClockSkew h) d)]; done || lia.
Qed.

Lemma process_blocks h h' payload t sent now o :
  DeserializeBlocks payload = Ok (createHandshakeBlocks h' sent) -> clock_ok h sent now ->
  ParseOptionsBlock (on_wire (localOptions h')) = Ok o ->
  processHandshakeBlocks h payload t now = (set_peer_options h o, None).
Proof.
  change (createHandshakeBlocks h' sent) with
    [mkBlock BlockTypeDateTime (be_encode 4 (sent / Second)); mkBlock BlockTypeOptions (on_wire (localOptions h'))].
  intros Hd Hc Ho. unfold processHandshakeBlocks. rewrite Hd. unfold validateHandshakeBlocks.
  cbn [datetime_loop Type_ Data]. rewrite decide_True by done. rewrite decide_False by (rewrite length_be_encode; lia).
  rewrite clock_accepted by done. rewrite decide_False by done. unfold extractPeerOptions. cbn [Type_ Data].
  rewrite bool_decide_eq_false_2 by done. cbn [andb]. rewrite length_on_wire, bool_decide_eq_true_2, bool_decide_eq_true_2 by (done || lia).
  cbn [andb]. by rewrite Ho.
Qed.

(** ** The first two messages *)

Context {NL : NoiseXKLaws}.

(** What an end stores with the keys of the next message. *)
Definition advanced (h : HandshakeHandler) (hs : HandshakeState) (t : byte) : HandshakeHandler := derive_next_key (set_hs h hs) t.

(** Building a packet around the message the library writes. *)
Lemma build_packet h t src dst token rnd now payload hs m :
  SerializeBlocks (createHandshakeBlocks h now) = Ok payload ->
  (dst <> 0 \/ t = MessageTypeSessionRequest) ->
  WriteMessage rnd (MixHash (handshakeState h) (longHeader dst src t token)) payload = (hs, Some (m, None)) ->
  (48 <= length m)%nat ->
  exists p mac, buildHandshakePacket h (createHandshakeBlocks h now) t src dst token rnd
    = (advanced h hs t, Ok (mkPacket (longHeader dst src t token) (take 32 m) p mac t 0 0))
    /\ split_mac (drop 32 m) = (p, mac).
Proof.
  intros Hs Hd Hw Hm. unfold buildHandshakePacket. rewrite Hs, Hw.
  replace (_ && _) with false.
  2: { symmetry. destruct Hd as [Hd | ->]; [by rewrite (proj2 (Z.eqb_neq _ _) Hd)|]. by rewrite bool_decide_eq_true_2, andb_false_r. }
  cbn [updateCipherStates]. rewrite decide_False by lia. destruct (split_mac (drop 32 m)) as [p mac]. eauto.
Qed.

(** The SessionRequest. Each end keeps the header key of the SessionCreated message. *)
Lemma request_exchange pa a b src dst token rnd t t' :
  initiator b = false -> in_step pa 0 (handshakeState a) (handshakeState b) ->
  length rnd = 32%nat -> clock_ok b t t' ->
  exists i r p o b0, buildHandshakePacket a (createHandshakeBlocks a t) MessageTypeSessionRequest src dst token rnd
      = (advanced a i MessageTypeSessionRequest, Ok p)
    /\ wire_ok p /\ Header p = longHeader dst src MessageTypeSessionRequest token /\ MessageType p = MessageTypeSessionRequest
    /\ in_step pa 1 i r /\ ParseOptionsBlock (on_wire (localOptions a)) = Ok o
    /\ checkReplay b (received p t') t' = (b0, (checkReplay b p t').2)
    /\ ((checkReplay b p t').2 = false ->
        ProcessSessionRequest b (received p t') t' = (set_peer_options (advanced b0 r MessageTypeSessionRequest) o, None)).
Proof.
  intros Hb Hst Hrnd Hclk. destruct (handshake_payload a t) as (payload & Hs & Hl & Hd).
  set (hdr := longHeader dst src MessageTypeSessionRequest token).
  destruct (message_1 pa _ _ rnd payload (mix_in_step _ _ _ _ hdr Hst) Hrnd) as (i & r & m & Hw & Hr & Hm & Hst');
    [unfold zlen; lia|].
  destruct (build_packet a MessageTypeSessionRequest src dst token rnd t payload i m) as (p & mac & Hbld & Hsp); [done|by right|done|lia|].
  destruct (parse_total (on_wire (localOptions a))) as [o Ho]; [rewrite length_on_wire; lia|].
  set (pkt := mkPacket hdr (take 32 m) p mac MessageTypeSessionRequest 0 0).
  exists i, r, pkt, o, (checkReplay b pkt t').1.
  split_and!; [done|apply handshake_packet_ok; [by left|done|lia]|done|done|done|done|by destruct (checkReplay b pkt t') eqn:?|].
  pose proof (split_message m) as Hspm. rewrite Hsp in Hspm. destruct Hspm as (Hcat & H32 & _ & _); [lia|].
  intros Hfresh. unfold ProcessSessionRequest. rewrite Hb. cbn [received MessageType EphemeralKey Payload MAC Header pkt].
  rewrite bool_decide_eq_true_2, H32, bool_decide_eq_true_2 by done. cbn [negb].
  assert (Hck : checkReplay b (received pkt t') t' = ((checkReplay b pkt t').1, false)).
  { rewrite <- Hfresh. unfold checkReplay. destruct (replayCache b); [|done]. by destruct (CheckAndAdd _ _ _). }
  rewrite Hck.
  assert (Hst0 : handshakeState (checkReplay b pkt t').1 = handshakeState b /\ maxClockSkew (checkReplay b pkt t').1 = maxClockSkew b).
  { unfold checkReplay. destruct (replayCache b); [|done]. by destruct (CheckAndAdd _ _ _). }
  destruct Hst0 as [-> Hskew]. rewrite Hcat, Hr. apply (process_blocks _ a _ _ t); [done| |done].
  eapply clock_ok_skew; [|exact Hclk]. exact Hskew.
Qed.

(** The SessionCreated. Each end keeps the header key of the SessionConfirmed message. *)
Lemma created_exchange pa a b src dst rnd t t' :
  initiator a = true -> initiator b = false -> in_step pa 1 (handshakeState a) (handshakeState b) ->
  length rnd = 32%nat -> clock_ok a t t' -> dst <> 0 ->
  exists i r p o, CreateSessionCreated b src dst rnd t = (advanced b r MessageTypeSessionCreated, Ok p)
    /\ wire_ok p /\ Header p = longHeader dst src MessageTypeSessionCreated [] /\ MessageType p = MessageTypeSessionCreated
    /\ in_step pa 2 i r /\ ParseOptionsBlock (on_wire (localOptions b)) = Ok o
    /\ ProcessSessionCreated a (received p t') t' = (set_peer_options (advanced a i MessageTypeSessionCreated) o, None).
Proof.
  intros Ha Hb Hst Hrnd Hclk Hdst. destruct (handshake_payload b t) as (payload & Hs & Hl & Hd).
  set (hdr := longHeader dst src MessageTypeSessionCreated []).
  destruct (message_2 pa _ _ rnd payload (mix_in_step _ _ _ _ hdr Hst) Hrnd) as (i & r & m & Hw & Hr & Hm & Hst');
    [unfold zlen; lia|].
  destruct (build_packet b MessageTypeSessionCreated src dst [] rnd t payload r m) as (p & mac & Hbld & Hsp); [done|by left|done|lia|].
  destruct (parse_total (on_wire (localOptions b))) as [o Ho]; [rewrite length_on_wire; lia|].
  set (pkt := mkPacket hdr (take 32 m) p mac MessageTypeSessionCreated 0 0).
  exists i, r, pkt, o. unfold CreateSessionCreated. rewrite Hb.
  split_and!; [done|apply handshake_packet_ok; [by right|done|lia]|done|done|done|done|].
  pose proof (split_message m) as Hspm. rewrite Hsp in Hspm. destruct Hspm as (Hcat & H32 & _ & _); [lia|].
  unfold ProcessSessionCreated. rewrite Ha. cbn [received MessageType EphemeralKey Payload MAC Header pkt negb].
  rewrite bool_decide_eq_true_2, H32, bool_decide_eq_true_2 by done. cbn [negb]. rewrite Hcat, Hr.
  by apply (process_blocks _ b _ _ t).
Qed.

(** ** Fragments of SessionConfirmed *)

Lemma frag_byte i t :
  0 <= i < 16 -> 0 <= t < 16 ->
  let b := b2z (z2b (Z.lor (b2z (z2b (Z.shiftl i 4))) (b2z (z2b t)))) in
  Z.land b 15 = t /\ Z.land (Z.shiftr b 4) 15 = i.
Proof.
  intros Hi Ht. set (ok i t := let b := b2z (z2b (Z.lor (b2z (z2b (Z.shiftl i 4))) (b2z (z2b t)))) in
    (Z.land b 15 =? t) && (Z.land (Z.shiftr b 4) 15 =? i)).
  assert (Hall : forallb (fun i => forallb (ok i) (seqZ 0 16)) (seqZ 0 16) = true) by (vm_compute; reflexivity).
  rewrite forallb_forall in Hall. specialize (Hall i). rewrite forallb_forall in Hall.
  assert (Hok : ok i t = true).
  { apply Hall; apply list_elem_of_In, elem_of_seqZ; lia. }
  unfold ok in Hok. cbv zeta in *. bool_props. lia.
Qed.

(** Fragment [j] of [total], as it is sent. *)
Record is_fragment (connID pn total j : Z) (p : SSU2Packet) : Prop := {
  frag_wire : wire_ok p;
  frag_type : MessageType p = MessageTypeSessionConfirmed;
  frag_header : Header p = buildSessionConfirmedHeader connID pn j total;
  frag_j : frag_num p = j;
  frag_t : frag_total p = total;
}.

Lemma length_confirmed_header connID pn j total : length (buildSessionConfirmedHeader connID pn j total) = 16%nat.
Proof. unfold buildSessionConfirmedHeader. by rewrite !length_app, !length_be_encode. Qed.

Lemma fragment_is connID pn total j payload mac :
  0 <= j < 16 -> 0 <= total < 16 -> length mac = 16%nat -> (8 <= length payload <= 1216)%nat ->
  is_fragment connID pn total j (mkPacket (buildSessionConfirmedHeader connID pn j total) [] payload mac
    MessageTypeSessionConfirmed pn 0).
Proof.
  intros Hj Ht Hm Hp. set (p := mkPacket _ _ _ _ _ _ _).
  assert (Hlen : length (sections p) = (16 + length payload + 16)%nat).
  { unfold sections. cbn [Header EphemeralKey Payload MAC p]. rewrite !length_app, length_confirmed_header. cbn. lia. }
  destruct (frag_byte j total Hj Ht) as [H1 H2]. split; [|done|done|exact H2|exact H1].
  unfold wire_ok, MinPacketSize. split_and!; [|done| |lia]; [|by intros ?].
  apply validate_none_intro; [apply length_confirmed_header|done|done|]. rewrite Hlen. unfold MaxPacketSizeIPv6. lia.
Qed.

(** The sizes whose last fragment is at least as long as the shortest packet that
    is parsed: a last chunk of 1 to 23 bytes is not. *)
Definition confirmed_size_ok (size : Z) : Prop :=
  0 < size <= 15 * sessionConfirmedMaxPerPacket
  /\ (size mod sessionConfirmedMaxPerPacket = 0 \/ 24 <= size mod sessionConfirmedMaxPerPacket).

Lemma fragment_loop_spec n ct connID pn total i :
  Z.of_nat n = total - i -> 0 <= i -> total <= 15 -> (1 <= n)%nat ->
  let offset := Z.to_nat (i * 1216) in
  24 <= zlen ct - i * 1216 - (Z.of_nat n - 1) * 1216 <= 1216 ->
  let ps := fragment_loop n ct connID pn total i offset in
  length ps = n /\ reassembleFragments ps = drop offset ct
  /\ forall k p, ps !! k = Some p -> is_fragment connID pn total (i + Z.of_nat k) p.
Proof.
  revert i. induction n as [|n IH]; intros i Hn Hi Ht Hn1 offset Hlast; [lia|]. cbv zeta. cbn [fragment_loop].
  unfold zlen in Hlast. change (Z.to_nat sessionConfirmedMaxPerPacket) with 1216%nat. change MACSize with 16%nat.
  set (stop := Nat.min (offset + 1216) (length ct)). set (chunk := slice offset stop ct).
  assert (Hchunk : length chunk = (stop - offset)%nat).
  { unfold chunk, slice. rewrite length_take, length_drop. lia. }
  destruct n as [|n].
  - assert (stop = length ct) as Hstop by lia.
    assert (chunk = drop offset ct) as Heq.
    { unfold chunk, slice. rewrite Hstop. apply take_ge. rewrite length_drop. lia. }
    replace (i =? total - 1) with true by lia. rewrite bool_decide_eq_true_2 by lia. cbn [andb fragment_loop length].
    split_and!; [done| |].
    + cbn [reassembleFragments Payload MAC]. by rewrite take_drop.
    + intros [|k] p [= <-]. replace (i + Z.of_nat 0) with i by lia.
      apply fragment_is; [lia..| |]; rewrite ?length_take, ?length_drop; lia.
  - assert (stop = (offset + 1216)%nat) as Hstop by lia.
    replace (i =? total - 1) with false by lia. cbn [andb].
    destruct (IH (i + 1)) as (H1 & H2 & H3); [lia..|unfold zlen; lia|].
    replace (Z.to_nat ((i + 1) * 1216)) with stop in * by lia.
    set (ps := fragment_loop _ _ _ _ _ _ _) in *. clearbody ps.
    destruct ps as [|p1 ps]; [done|]. split_and!; [cbn [length] in *; lia| |].
    + change (chunk ++ reassembleFragments (p1 :: ps) = drop offset ct). rewrite H2. unfold chunk, slice.
      rewrite Hstop, <- drop_drop. replace (offset + 1216 - offset)%nat with 1216%nat by lia. apply take_drop.
    + intros [|k] p.
      * intros [= <-]. replace (i + Z.of_nat 0) with i by lia. apply fragment_is; [lia..|done|lia].
      * intros Hk. replace (i + Z.of_nat (S k)) with (i + 1 + Z.of_nat k) by lia. by apply H3.
Qed.

Lemma fragment_count size :
  confirmed_size_ok size ->
  exists total, computeFragmentCount size = Ok total /\ 1 <= total <= 15 /\ 24 <= size - (total - 1) * 1216 <= 1216.
Proof.
  intros [Hs Hr]. unfold computeFragmentCount. change sessionConfirmedMaxPerPacket with 1216 in *.
  change sessionConfirmedMaxFragments with 15. rewrite Z.quot_div_nonneg by lia.
  set (total := (size + 1216 - 1) / 1216). exists total.
  pose proof (Z.div_mod (size + 1216 - 1) 1216 ltac:(lia)) as Hd.
  pose proof (Z.mod_pos_bound (size + 1216 - 1) 1216 ltac:(lia)) as Hb. fold total in Hd.
  pose proof (Z.div_mod size 1216 ltac:(lia)) as Hd2. pose proof (Z.mod_pos_bound size 1216 ltac:(lia)) as Hb2.
  assert (Ht : 1 <= total <= 15) by lia.
  destruct (Z.ltb_spec total 1); [lia|]. destruct (Z.ltb_spec 15 total); [lia|]. split; [done|]. lia.
Qed.

(** The size of the message that carries the RouterInfo. *)
Definition confirmed_size (routerInfo : bytes) : Z :=
  (if decide (0 < length routerInfo)%nat then 3 + zlen routerInfo else 0) + 64.

Lemma confirmed_payload ri :
  zlen ri <= 65535 ->
  exists payload, serializeConfirmedPayload ri = Ok payload /\ zlen payload + 64 = confirmed_size ri
    /\ extractPeerRouterInfo payload = Ok ri.
Proof.
  intros Hl. unfold serializeConfirmedPayload, confirmed_size. case_decide as Hp.
  - set (bl := NewSSU2Block BlockTypeRouterInfo ri).
    assert (Hs : SerializeBlocks [bl] = Ok (wire_of_blocks [bl])).
    { unfold SerializeBlocks. rewrite decide_False by done. apply serialize_loop_ok_iff. split; [|done].
      change (enforceBlockOrder [bl]) with [bl]. constructor; [|constructor]. unfold Block.validate. cbn [Data Type_ bl NewSSU2Block].
      unfold maxBlockLength. destruct (Z.ltb_spec 65535 (zlen ri)); [lia|done]. }
    rewrite Hs. eexists. split; [done|].
    assert (Hz : zlen (wire_of_blocks [bl]) = 3 + zlen ri).
    { unfold wire_of_blocks. cbn [map concat]. rewrite app_nil_r, zlen_wire_of. done. }
    split; [lia|]. unfold extractPeerRouterInfo. rewrite decide_False by (unfold zlen in Hz; lia).
    rewrite (blocks_roundtrip _ _ Hs). change (enforceBlockOrder [bl]) with [bl]. unfold find_router_info. cbn [Data Type_ bl NewSSU2Block].
    by rewrite !bool_decide_eq_true_2 by done.
  - exists []. split; [done|]. split; [done|]. destruct ri; [done|cbn in Hp; lia].
Qed.

Lemma check_fragments_ok ps k connID pn total :
  (forall j p, ps !! j = Some p -> exists q now, is_fragment connID pn total (Z.of_nat (k + j)) q /\ p = received q now) ->
  check_fragments k ps = None.
Proof.
  revert k. induction ps as [|p ps IH]; intros k Hps; [done|]. cbn [check_fragments].
  destruct (Hps 0%nat p eq_refl) as (q & now & Hq & ->). rewrite Nat.add_0_r in Hq. destruct Hq as [_ Ht Hh Hj _].
  cbn [received MessageType Header]. rewrite Ht, bool_decide_eq_true_2 by done. cbn [negb].
  rewrite decide_False by (rewrite Hh, length_confirmed_header; lia).
  assert (frag_num (received q now) = Z.of_nat k) as -> by exact Hj. rewrite Z.eqb_refl. cbn [negb]. apply IH. intros j p Hp.
  replace (S k + j)%nat with (k + S j)%nat by lia. by apply Hps.
Qed.

Lemma fragments_ordered connID pn total ps :
  1 <= total -> zlen ps = total ->
  (forall k q, ps !! k = Some q -> exists p now, is_fragment connID pn total (Z.of_nat k) p /\ q = received p now) ->
  validateFragmentOrdering ps = None.
Proof.
  intros Ht Hl Hrec. unfold validateFragmentOrdering. destruct ps as [|q ps]; [unfold zlen in Hl; cbn in Hl; lia|].
  destruct (Hrec 0%nat q eq_refl) as (p & now & [_ _ Hh _ Hft] & Hq).
  rewrite decide_False by (subst q; cbn [received Header]; rewrite Hh, length_confirmed_header; lia).
  assert (frag_total q = total) as -> by by subst q. destruct (Z.ltb_spec total 1); [lia|].
  rewrite Hl, Z.eqb_refl. apply (check_fragments_ok _ _ connID pn total). exact Hrec.
Qed.

Lemma reassemble_received ps ps' :
  Forall2 (fun p q => exists now, q = received p now) ps ps' -> reassembleFragments ps' = reassembleFragments ps.
Proof.
  induction 1 as [|p q ps ps' [now ->] Hps IH]; [done|]. destruct Hps as [|p1 q1 ps ps' Hq Hps]; [done|].
  change (Payload p ++ reassembleFragments (q1 :: ps') = Payload p ++ reassembleFragments (p1 :: ps)). by rewrite IH.
Qed.

(** The SessionConfirmed. The initiator needs one packet for every 1216 bytes; once
    all have been received and put in order, the responder has the two cipher
    states, the static key and the RouterInfo of the initiator, and checks that one
    advertises the other. *)
Lemma confirmed_exchange pa a b connID pn ri rnd :
  initiator a = true -> initiator b = false -> in_step pa 2 (handshakeState a) (handshakeState b) ->
  confirmed_size_ok (confirmed_size ri) -> length pa = 32%nat ->
  exists i r c1 c2 ps total, CreateSessionConfirmedFragments a connID pn ri rnd = (set_ciphers (set_hs a i) (Some c1) (Some c2), Ok ps)
    /\ 1 <= total <= 15 /\ zlen ps = total /\ (total - 1) * 1216 < confirmed_size ri <= total * 1216
    /\ (forall k p, ps !! k = Some p -> is_fragment connID pn total (Z.of_nat k) p)
    /\ forall ps', Forall2 (fun p q => exists now, q = received p now) ps ps' ->
       ProcessSessionConfirmedFragments b ps' =
         (set_peer (set_ciphers (set_hs b r) (Some c2) (Some c1)) pa (peerOptions b) ri,
          verifyPeerRouterInfoStaticKey ri pa).
Proof.
  intros Ha Hb Hst Hsz Hpa. destruct (in_step_index _ _ _ _ Hst) as [Hia Hib].
  destruct (fragment_count _ Hsz) as (total & Hcount & Ht & Hlast).
  assert (Hlri : zlen ri <= 65535).
  { destruct Hsz as [[_ Hmax] _]. unfold confirmed_size, sessionConfirmedMaxPerPacket, sessionConfirmedMinMTU, sessionConfirmedPerPacketOverhead in Hmax.
    case_decide; unfold zlen in *; lia. }
  destruct (confirmed_payload ri Hlri) as (payload & Hser & Hzp & Hext).
  set (hdr := buildSessionConfirmedHeader connID pn 0 total).
  destruct (message_3 pa _ _ rnd payload (mix_in_step _ _ _ _ hdr Hst)) as (i & r & m & c1 & c2 & Hw & Hr & Hm & Hpeer).
  { destruct Hsz as [[_ Hmax] _]. change sessionConfirmedMaxPerPacket with 1216 in Hmax. lia. }
  destruct (fragment_loop_spec (Z.to_nat total) m connID pn total 0) as (Hlen & Hre & Hfr); [lia..|unfold zlen in *; lia|].
  change (Z.to_nat (0 * 1216)) with 0%nat in *. rewrite drop_0 in Hre.
  set (ps := fragment_loop _ _ _ _ _ _ _) in *.
  assert (Hhd : match ps with p :: packets => with_header p hdr :: packets | [] => [] end = ps).
  { destruct ps as [|p ps']; [done|]. f_equal. destruct (Hfr 0%nat p eq_refl) as [_ _ Hh _ _]. destruct p. cbn in Hh. by subst. }
  exists i, r, c1, c2, ps, total. split_and!; [|lia|lia|unfold zlen; lia|lia|lia| |].
  - unfold CreateSessionConfirmedFragments. rewrite Ha, Hia. cbn [negb Z.of_nat Z.eqb]. rewrite Hser, Hzp, Hcount. fold hdr. rewrite Hw.
    unfold buildFragmentPackets. fold ps. rewrite Hhd. unfold updateCipherStates. cbn [initiator set_hs]. by rewrite Ha.
  - exact Hfr.
  - intros ps' Hps'. pose proof (reassemble_received _ _ Hps') as Hre'. pose proof (Forall2_length _ _ _ Hps') as Hlen'.
    assert (Hrec : forall k q, ps' !! k = Some q -> exists p now, is_fragment connID pn total (Z.of_nat k) p /\ q = received p now).
    { intros k q Hq. destruct (Forall2_lookup_r _ _ _ _ _ Hps' Hq) as (p & Hp & now & ->). exists p, now. by split; [apply Hfr|]. }
    unfold ProcessSessionConfirmedFragments. rewrite Hb, Hib. destruct ps' as [|q ps']; [cbn in Hlen'; lia|].
    cbn [negb Z.of_nat Z.eqb]. destruct (Hrec 0%nat q eq_refl) as (p & now & [_ _ Hh _ _] & Hq).
    assert (Hv : validateFragmentOrdering (q :: ps') = None).
    { apply (fragments_ordered connID pn total); [lia|unfold zlen; lia|exact Hrec]. }
    change (Pos.eqb 2 2) with true. cbn [negb]. rewrite Hv, Hre', Hre. subst q. cbn [received Header]. rewrite Hh. change (Z.of_nat 0) with 0. fold hdr.
    unfold finalizeSessionConfirmed. cbn [handshakeState set_hs]. rewrite Hr. unfold updateCipherStates. cbn [initiator set_hs]. rewrite Hb, Hpeer.
    rewrite decide_True by lia. by rewrite Hext.
Qed.

(** ** Keys of the data phase *)

(** Once the handshake is complete, the two ends derive the same keys, with the
    directions exchanged. *)
Lemma derived_keys_agree a b c1 c2 :
  sendCipher a = Some c1 -> recvCipher a = Some c2 -> sendCipher b = Some c2 -> recvCipher b = Some c1 ->
  exists k1 k2 h1 h2, DeriveHeaderKeys a = (set_ciphers a (Some (UnsafeSetKey c1 k1)) (Some (UnsafeSetKey c2 k2)), Ok (h1, h2))
    /\ DeriveHeaderKeys b = (set_ciphers b (Some (UnsafeSetKey c2 k2)) (Some (UnsafeSetKey c1 k1)), Ok (h2, h1))
    /\ length h1 = 32%nat /\ length h2 = 32%nat.
Proof.
  intros H1 H2 H3 H4. unfold DeriveHeaderKeys. rewrite H1, H2, H3, H4. cbv zeta. unfold deriveDataPhaseKeys.
  eexists _, _, _, _. split_and!; [done|done|apply length_hmac..].
Qed.
End Handler.

(** ** An instance of the library

    Messages carry their payload in the clear with a digest of the transcript; the
    third has the static key of the initiator in front. *)

Record DemoHS := mkDemoHS {
  d_init : bool;
  d_idx : Z;
  d_pub : bytes;
  d_peer : bytes;
  d_h : bytes;
  d_ck : bytes;
}.

Definition demo_mix (s : DemoHS) (d : bytes) : DemoHS :=
  mkDemoHS (d_init s) (d_idx s) (d_pub s) (d_peer s) (demo_digest 32 (d_h s ++ d)) (d_ck s).

Definition demo_next (s : DemoHS) (m pre peer : bytes) : DemoHS :=
  mkDemoHS (d_init s) (d_idx s + 1) (d_pub s) peer (demo_digest 32 (d_h s ++ m)) (demo_digest 32 (d_ck s ++ pre)).

Definition demo_ciphers (s : DemoHS) : option (bytes * bytes) :=
  if d_idx s =? 3 then Some (demo_digest 32 (d_ck s ++ [x01]), demo_digest 32 (d_ck s ++ [x02])) else None.

(** What a message starts with: the ephemeral key, or the static key and its tag. *)
Definition demo_prefix (s : DemoHS) (rnd : bytes) : bytes :=
  if d_idx s =? 2 then d_pub s ++ replicate 16 x00 else rnd.

Definition demo_prefix_len (s : DemoHS) : nat := if d_idx s =? 2 then 48 else 32.

Definition demo_write (rnd : bytes) (s : DemoHS) (p : bytes) : DemoHS * option (bytes * option (bytes * bytes)) :=
  let pre := demo_prefix s rnd in
  if bool_decide (length pre = demo_prefix_len s) && (d_idx s <=? 2) && eqb (d_init s) (Z.even (d_idx s)) then
    let m := pre ++ p ++ demo_digest 16 (d_h s ++ pre ++ p) in
    let s := demo_next s m pre (d_peer s) in (s, Some (m, demo_ciphers s))
  else (s, None).

Definition demo_read (s : DemoHS) (m : bytes) : DemoHS * option (bytes * option (bytes * bytes)) :=
  let n := demo_prefix_len s in
  let pre := take n m in
  let p := slice n (length m - 16) m in
  if bool_decide (n + 16 <= length m)%nat && (d_idx s <=? 2) && eqb (d_init s) (Z.odd (d_idx s))
     && bool_decide (drop (length m - 16) m = demo_digest 16 (d_h s ++ pre ++ p)) then
    let s := demo_next s m pre (if d_idx s =? 2 then take 32 m else d_peer s) in (s, Some (p, demo_ciphers s))
  else (s, None).

#[local] Instance demo_xk : NoiseXK := {|
  HandshakeState := DemoHS;
  CipherState := bytes;
  NewHandshakeState init priv pub peer pro := Some (mkDemoHS init 0 pub peer (demo_digest 32 pro) []);
  MixHash := demo_mix;
  WriteMessage := demo_write;
  ReadMessage := demo_read;
  ChainingKey := d_ck;
  MessageIndex := d_idx;
  PeerStatic := d_peer;
  UnsafeKey c := c;
  UnsafeSetKey _ k := k;
  x25519_base s := Some (demo_digest 32 s);
|}.

Record demo_in_step (pa : bytes) (n : nat) (i r : DemoHS) : Prop := {
  st_init : d_init i = true /\ d_init r = false;
  st_idx : d_idx i = Z.of_nat n /\ d_idx r = Z.of_nat n;
  st_h : d_h i = d_h r;
  st_ck : d_ck i = d_ck r;
  st_pub : d_pub i = pa /\ length pa = 32%nat;
}.

Lemma demo_message (w r : DemoHS) rnd p :
  d_idx w = d_idx r -> d_idx w <= 2 -> d_h w = d_h r -> d_init w = Z.even (d_idx w) -> d_init r = Z.odd (d_idx r) ->
  length (demo_prefix w rnd) = demo_prefix_len w ->
  let pre := demo_prefix w rnd in
  let m := pre ++ p ++ demo_digest 16 (d_h w ++ pre ++ p) in
  let w' := demo_next w m pre (d_peer w) in
  let r' := demo_next r m pre (if d_idx r =? 2 then take 32 m else d_peer r) in
  demo_write rnd w p = (w', Some (m, demo_ciphers w')) /\ demo_read r m = (r', Some (p, demo_ciphers r'))
  /\ length m = (length p + 16 + demo_prefix_len w)%nat.
Proof.
  intros Hidx Hle Hh Hw Hr Hpre pre m w' r'. change (length pre = demo_prefix_len w) in Hpre.
  assert (Hlen : length m = (length p + 16 + demo_prefix_len w)%nat).
  { unfold m. rewrite !length_app, length_demo_digest. lia. }
  assert (Hn : demo_prefix_len r = length pre) by (rewrite Hpre; unfold demo_prefix_len; by rewrite Hidx).
  assert (Hm16 : (length m - 16 = length pre + length p)%nat) by lia.
  split_and!; [| |done].
  - unfold demo_write. fold pre. rewrite bool_decide_eq_true_2 by done. rewrite (proj2 (Z.leb_le _ _) Hle), Hw, eqb_reflx.
    cbn [andb]. reflexivity.
  - unfold demo_read. rewrite Hn. assert (Htk : take (length pre) m = pre) by apply take_app_length. rewrite Htk, Hm16.
    assert (Hsl : slice (length pre) (length pre + length p) m = p) by (apply slice_app; [done|lia]).
    rewrite Hsl. rewrite bool_decide_eq_true_2 by lia. rewrite <- Hidx, (proj2 (Z.leb_le _ _) Hle), Hr, <- Hidx, eqb_reflx.
    assert (Hdr : drop (length pre + length p) m = demo_digest 16 (d_h r ++ pre ++ p)).
    { unfold m. rewrite app_assoc, <- Hh. apply drop_app_length'. by rewrite length_app. }
    rewrite bool_decide_eq_true_2 by exact Hdr. cbn [andb]. unfold r'. rewrite <- Hidx. reflexivity.
Qed.

#[local] Instance demo_xk_laws : NoiseXKLaws.
Proof.
  refine {| in_step := (demo_in_step : bytes -> nat -> @HandshakeState demo_xk -> @HandshakeState demo_xk -> Prop) |}.
  - intros sa pa sb pb pro i r [= <-] [= <-] [= <-] [= <-]. split; [done|done|done|done|]. split; [done|apply length_demo_digest].
  - intros pa n i r h [Hi Hx Hh Hc Hp]. split; cbn; try done. by rewrite Hh.
  - by intros pa n i r [_ Hx _ _ _].
  - by intros pa n i r [_ _ _ Hc _].
  - intros pa i r rnd p [[Hi Hr] [Hxi Hxr] Hh Hc [Hp Hl]] Hrnd _.
    destruct (demo_message i r rnd p) as (H1 & H2 & H3); rewrite ?Hxi, ?Hxr; try done.
    { unfold demo_prefix, demo_prefix_len. by rewrite Hxi. }
    assert (Hlen : demo_prefix_len i = 32%nat) by (unfold demo_prefix_len; by rewrite Hxi).
    eexists _, _, _. cbn [WriteMessage ReadMessage demo_xk]. rewrite H1, H2, H3. unfold demo_ciphers, demo_next. cbn [d_idx].
    rewrite Hxi, Hxr. split_and!; [done|done|rewrite Hlen; lia|].
    split; cbn; rewrite ?Hxi, ?Hxr; try done; [by rewrite Hh|by rewrite Hc].
  - intros pa i r rnd p [[Hi Hr] [Hxi Hxr] Hh Hc [Hp Hl]] Hrnd _.
    destruct (demo_message r i rnd p) as (H1 & H2 & H3); rewrite ?Hxi, ?Hxr; try done.
    { unfold demo_prefix, demo_prefix_len. by rewrite Hxr. }
    assert (Hlen : demo_prefix_len r = 32%nat) by (unfold demo_prefix_len; by rewrite Hxr).
    eexists _, _, _. cbn [WriteMessage ReadMessage demo_xk]. rewrite H1, H2, H3. unfold demo_ciphers, demo_next. cbn [d_idx].
    rewrite Hxi, Hxr. split_and!; [done|done|rewrite Hlen; lia|].
    split; cbn; rewrite ?Hxi, ?Hxr; try done; [by rewrite Hh|by rewrite Hc].
  - intros pa i r rnd p [[Hi Hr] [Hxi Hxr] Hh Hc [Hp Hl]] _.
    destruct (demo_message i r rnd p) as (H1 & H2 & H3); rewrite ?Hxi, ?Hxr; try done.
    { unfold demo_prefix, demo_prefix_len. rewrite Hxi, Hp. change (Z.of_nat 2 =? 2) with true. cbv iota.
      rewrite length_app, length_replicate. lia. }
    assert (Hlen : demo_prefix_len i = 48%nat) by (unfold demo_prefix_len; by rewrite Hxi).
    eexists _, _, _, _, _. cbn [WriteMessage ReadMessage PeerStatic demo_xk]. rewrite H1, H2, H3. unfold demo_ciphers, demo_next. cbn [d_idx d_ck d_peer].
    rewrite Hxi, Hxr, Hc. split_and!; [done|done|rewrite Hlen; lia|].
    change (Z.of_nat 2 =? 2) with true. cbv iota. unfold demo_prefix. rewrite Hxi, Hp. change (Z.of_nat 2 =? 2) with true. cbv iota.
    rewrite <- app_assoc. by apply take_app_length'.
  - done.
  - intros s p [= <-]. apply length_demo_digest.
Defined.

#[local] Existing Instance demo_base64.

(** ** Sizes of fragments *)

Definition demo_fragments (size : nat) : list SSU2Packet := buildFragmentPackets (replicate size x01) 9 0 2.

(** A last chunk shorter than a MAC goes out with a MAC of zeros, which the receiver
    takes for the end of the message. *)
Lemma short_chunk_changes_message : zlen (reassembleFragments (demo_fragments 1221)) = 1221 + 16.
Proof. vm_compute. reflexivity. Qed.

(** A last chunk of 16 to 23 bytes makes a packet that is too short to be parsed. *)
Lemma short_last_fragment :
  map (fun p => bool_decide (length (sections p) < MinPacketSize)%nat) (demo_fragments 1236) = [false; true].
Proof. vm_compute. reflexivity. Qed.

(** A first fragment, with the 48 bytes of the IPv6 and UDP headers, is longer than
    the 1280 bytes that the limits are computed for. *)
Lemma first_fragment_length : map (fun p => zlen (sections p) + 48) (demo_fragments 1300) = [1296; 148].
Proof. vm_compute. reflexivity. Qed.
