(* ===== verification/ConnHandshake.v ===== *)
(** * The handshake of a connection

    [ssu2/session/conn_handshake.go], and the installation of the keys of
    [conn_data.go]: the two ends of a connection exchange the messages of
    SSU2Handshake over the network, with retransmission, the Retry answer and the
    collection of SessionConfirmed fragments, and become established.

    A wait for a packet takes the datagrams that arrive during the wait; they are
    received as by [recvLoop]. The time of a wait that ends without a packet is its
    full length. *)

From Stdlib Require Import ZArith Lia.
From Stdlib Require Import Floats.SpecFloat.
From Stdlib Require Import Strings.Byte Strings.String.
From stdpp Require Import base numbers list gmap sorting.
From S2P Require Import Prelude Float64 Crypto Sha256 Block Packet ReplayCache Modifiers Padding HeaderProtection.
From S2P Require Import Fragments DataPhase Outbound Session Options SSU2Handshake.

#[local] Open Scope Z_scope.

(** The HKDF of [github.com/go-i2p/crypto/hkdf], without salt: key material, info
    and length. It derives any length up to 255 blocks. *)
Class HKDFLib := {
  hkdf_derive : bytes -> string -> nat -> option bytes;
  hkdf_derive_ok : forall ikm info n, (n <= 255 * 32)%nat ->
    exists out, hkdf_derive ikm info n = Some out /\ length out = n;
}.

(** ** Data *)

Inductive ConnHandshakeError :=
| EInvalidState (s : ConnState)
| EHandler (e : HandshakeError)
| EHeaderKey (e : HeaderError)
| ESendFailed (e : SendError)
| EWaitTimeout
| EContext
| EConnClosed
| EHandshakeTimeout
| EWrongMessage (got : byte)
| ERetryDest (got : Z)
| ERetryPayload (e : BlockError)
| ERetryNoToken
| EFragmentTotal (n : Z)
| EFragmentTruncated
| EFragmentMismatch (expected got : Z)
| EOutOfFuel
| ENotComplete
| EValidation
| ESipKeys.

(** What a wait saw: the datagrams that arrived, and why it ended early. *)
Inductive Interruption := ContextDone | ConnectionClosed.

Definition interruption_error (i : Interruption) : ConnHandshakeError :=
  match i with ContextDone => EContext | ConnectionClosed => EConnClosed end.

Record Wait := mkWait {
  arrives : list bytes;
  interrupted : option Interruption;
}.

Record HandshakeConfig := mkHandshakeConfig {
  ConnectionID : Z;
  HandshakeTimeout : Z;
  RouterHash : bytes;
  cfgMTU : Z;
  cfgPaddingRatio : float64;
  cfgMinPaddingSize : Z;
  cfgMaxPaddingSize : Z;
  RouterInfoValidator : option (bytes -> bytes -> bool);
}.

Section ConnHandshake.
Context `{NX : NoiseXK} `{B64 : I2PBase64} `{FC : FloatConv} `{HK : HKDFLib}.
Context `{CH : ChaCha20Lib} `{SH : SipHashLib} `{SC : SSU2Cipher CipherState}.
Context {R : GoRange bytes Z} {Srt : GoSort (bytes * Z)} {R2 : GoRange Z FragmentSet} {P : PathLib} {CbError : Type}.

(** The handshake and the connection share the cipher states by pointer. *)
Record HConn := mkHConn {
  conn : Conn CipherState;
  handler : HandshakeHandler;
  config : HandshakeConfig;
  state : ConnState;
  paddingModifier : option SSU2PaddingModifier;
}.

Definition set_conn (c : HConn) (s : Conn CipherState) : HConn :=
  mkHConn s (handler c) (config c) (state c) (paddingModifier c).

Definition set_hh (c : HConn) (h : HandshakeHandler) : HConn :=
  mkHConn (conn c) h (config c) (state c) (paddingModifier c).

Definition set_remote_id (c : HConn) (id : Z) : HConn :=
  let o := out (conn c) in
  set_conn c (set_out (conn c) (mkConn (sendSequence o) (enableNextNonce o) (rekeyInFlight o) (closing o) id
    (sendQueue o) (pendingPackets o) (validDataPacketsSent o))).

Definition set_protector (c : HConn) (m : HeaderProtectorManager) : HConn :=
  let s := conn c in
  set_conn c (mkSession (out s) (established s) (closed s) (Session.initiator s) (Some m) (sipHashModifier s)
    (Session.sendCipher s) (Session.recvCipher s) (recvWindow s) (ackHandler s) (dataHandler s) (rttEst s)
    (congestionController s) (recvQueue s) (validDataPacketsReceived s) (parseErrors s) (decryptErrors s)
    (pendingMessage s) (lastActivity s)).

(** ** Sending and waiting *)

(** [sendPacketDirect]: the datagram that was sent. *)
Definition hsend (c : HConn) (packet : SSU2Packet) (net_ok : bool) (now : Z) : HConn * result ConnHandshakeError bytes :=
  let '(s, r) := send_packet (conn c) net_ok now packet in
  (set_conn c s, match r with Ok d => Ok d | Err e => Err (ESendFailed e) end).

Definition deliver (cbs : @DataHandlerCallbacks P CbError) (c : HConn) (ds : list bytes) (now : Z) : HConn :=
  set_conn c (foldl (fun s d => (receive cbs s d None true now).1) (conn c) ds).

Context (cbs : @DataHandlerCallbacks P CbError).

Definition receivePacketWithTimeout (c : HConn) (w : Wait) (now : Z) : HConn * result ConnHandshakeError SSU2Packet :=
  let c := deliver cbs c (arrives w) now in
  match recvQueue (conn c) with
  | packet :: q => (set_conn c (set_recvQueue (conn c) q), Ok packet)
  | [] => (c, Err (default EWaitTimeout (interruption_error <$> interrupted w)))
  end.

Definition next_wait (waits : list Wait) : Wait * list Wait :=
  match waits with w :: waits => (w, waits) | [] => (mkWait [] None, []) end.

Definition retransmitSchedule (msgType : byte) : list Z :=
  if decide (msgType = MessageTypeSessionCreated) then [1 * Second; 2 * Second; 4 * Second]
  else [Second * 5 / 4; Second * 5 / 2; 5 * Second].

(** [retransmitWait]: [None] is an attempt after the last interval. *)
Definition retransmitWait (interval : option Z) (remaining : Z) : Z :=
  let wait := default remaining interval in
  if remaining <? wait then remaining else wait.

(** The attempts of [receiveHandshakeWithRetransmit] from the time [now] on. The second
    result is what was retransmitted, and when; the third is the time when the loop gives up,
    or when the wait began in which it ended. *)
Fixpoint retransmit_attempts (slots : list (option Z)) (deadline : Z) (c : HConn) (lastSent : SSU2Packet)
    (net_ok : bool) (waits : list Wait) (now : Z) : HConn * list (Z * bytes) * Z * result ConnHandshakeError SSU2Packet :=
  match slots with
  | [] => (c, [], now, Err EHandshakeTimeout)
  | slot :: slots =>
      let remaining := time_sub deadline now in
      if remaining <=? 0 then (c, [], now, Err EHandshakeTimeout)
      else
        let wait := retransmitWait slot remaining in
        let '(w, waits) := next_wait waits in
        match receivePacketWithTimeout c w now with
        | (c, Ok pkt) => (c, [], now, Ok pkt)
        | (c, Err _) =>
            match interrupted w with
            | Some i => (c, [], now, Err (interruption_error i))
            | None =>
                let now := now + wait in
                let '(c, sent) :=
                  match slot with
                  | Some _ => let '(c, r) := hsend c lastSent net_ok now in (c, match r with Ok d => [(now, d)] | Err _ => [] end)
                  | None => (c, [])
                  end in
                let '(c, more, ended, r) := retransmit_attempts slots deadline c lastSent net_ok waits now in
                (c, sent ++ more, ended, r)
            end
        end
  end.

Definition receiveHandshakeWithRetransmit (c : HConn) (lastSent : SSU2Packet) (totalTimeout : Z) (net_ok : bool)
    (waits : list Wait) (now : Z) : HConn * list (Z * bytes) * Z * result ConnHandshakeError SSU2Packet :=
  retransmit_attempts (map Some (retransmitSchedule (MessageType lastSent)) ++ [None]) (now + totalTimeout) c lastSent net_ok waits now.

(** ** Header keys *)

Definition installSessCreateHeaderKey (c : HConn) : HConn * option ConnHandshakeError :=
  match headerProtector (conn c) with
  | None => (c, None)
  | Some m =>
      let k := sessCreateHeaderKey (handler c) in
      if decide (length k = 0%nat) then (c, None)
      else let '(m, e) := SetSessCreateHeaderKey m k in (set_protector c m, option_map EHeaderKey e)
  end.

Definition installSessionConfirmedHeaderKey (c : HConn) : HConn * option ConnHandshakeError :=
  match headerProtector (conn c) with
  | None => (c, None)
  | Some m =>
      let k := sessionConfirmedHeaderKey (handler c) in
      if decide (length k = 0%nat) then (c, None)
      else let '(m, e) := SetSessionConfirmedHeaderKey m k in (set_protector c m, option_map EHeaderKey e)
  end.

(** ** The initiator *)

(** The packet that was sent and its datagram. *)
Definition sendSessionRequest (c : HConn) (rnd : bytes) (net_ok : bool) (now : Z)
    : HConn * result ConnHandshakeError (SSU2Packet * bytes) :=
  match CreateSessionRequest (handler c) (ConnectionID (config c)) 0 rnd now with
  | (h, Err e) => (set_hh c h, Err (EHandler e))
  | (h, Ok sessionRequest) =>
      match installSessCreateHeaderKey (set_hh c h) with
      | (c, Some e) => (c, Err e)
      | (c, None) =>
          match hsend c sessionRequest net_ok now with
          | (c, Err e) => (c, Err e)
          | (c, Ok d) => (c, Ok (sessionRequest, d))
          end
      end
  end.

Definition extractRetryToken (retry : SSU2Packet) : result ConnHandshakeError bytes :=
  match DeserializeBlocks (Payload retry) with
  | Err e => Err (ERetryPayload e)
  | Ok blocks =>
      match FindBlockByType blocks BlockTypeNewToken with
      | None => Err ERetryNoToken
      | Some tokenBlock =>
          match ParseNewTokenBlock tokenBlock with
          | Err e => Err (ERetryPayload e)
          | Ok parsed => Ok (Token parsed)
          end
      end
  end.

(** [handleRetryResponse]: also what was sent. *)
Definition handleRetryResponse (c : HConn) (response : SSU2Packet) (rnd : bytes) (net_ok : bool) (waits : list Wait) (now : Z)
    : HConn * list bytes * result ConnHandshakeError SSU2Packet :=
  let retryDestID := be_decode (slice 0 8 (Header response)) in
  if bool_decide (8 <= length (Header response))%nat && negb (retryDestID =? ConnectionID (config c))
  then (c, [], Err (ERetryDest retryDestID))
  else
    match extractRetryToken response with
    | Err e => (c, [], Err e)
    | Ok token =>
        match CreateSessionRequestWithToken (handler c) (ConnectionID (config c)) 0 token rnd now with
        | (h, Err e) => (set_hh c h, [], Err (EHandler e))
        | (h, Ok sessionRequest) =>
            match installSessCreateHeaderKey (set_hh c h) with
            | (c, Some e) => (c, [], Err e)
            | (c, None) =>
                match hsend c sessionRequest net_ok now with
                | (c, Err e) => (c, [], Err e)
                | (c, Ok d) =>
                    let '(c, sent, _, r) :=
                      receiveHandshakeWithRetransmit c sessionRequest (HandshakeTimeout (config c)) net_ok waits now in
                    (c, d :: map snd sent, r)
                end
            end
        end
    end.

(** [awaitSessionCreated]: [waits2] is for the wait after a Retry. *)
Definition awaitSessionCreated (c : HConn) (sessionRequest : SSU2Packet) (rnd : bytes) (net_ok : bool)
    (waits waits2 : list Wait) (now : Z) : HConn * list bytes * result ConnHandshakeError SSU2Packet :=
  let '(c, sent, _, r) := receiveHandshakeWithRetransmit c sessionRequest (HandshakeTimeout (config c)) net_ok waits now in
  match r with
  | Err e => (c, map snd sent, Err e)
  | Ok response =>
      if decide (MessageType response <> MessageTypeRetry) then (c, map snd sent, Ok response)
      else let '(c, sent2, r) := handleRetryResponse c response rnd net_ok waits2 now in (c, map snd sent ++ sent2, r)
  end.

Definition processSessionCreated (c : HConn) (response : SSU2Packet) (now : Z) : HConn * option ConnHandshakeError :=
  if decide (MessageType response <> MessageTypeSessionCreated) then (c, Some (EWrongMessage (MessageType response)))
  else match ProcessSessionCreated (handler c) response now with
  | (h, Some e) => (set_hh c h, Some (EHandler e))
  | (h, None) =>
      let c := set_hh c h in
      let c := if decide (24 <= length (Header response))%nat
               then set_remote_id c (be_decode (slice 16 24 (Header response))) else c in
      installSessionConfirmedHeaderKey c
  end.

Fixpoint send_fragments (c : HConn) (fragments : list SSU2Packet) (net_ok : bool) (now : Z)
    : HConn * result ConnHandshakeError (list bytes) :=
  match fragments with
  | [] => (c, Ok [])
  | frag :: fragments =>
      match hsend c frag net_ok now with
      | (c, Err e) => (c, Err e)
      | (c, Ok d) =>
          match send_fragments c fragments net_ok now with
          | (c, Err e) => (c, Err e)
          | (c, Ok ds) => (c, Ok (d :: ds))
          end
      end
  end.

(** The code sends the router hash as the RouterInfo. *)
Definition sendSessionConfirmed (c : HConn) (rnd : bytes) (net_ok : bool) (now : Z)
    : HConn * result ConnHandshakeError (list bytes) :=
  match CreateSessionConfirmedFragments (handler c) (remoteConnectionID (out (conn c))) 0 (RouterHash (config c)) rnd with
  | (h, Err e) => (set_hh c h, Err (EHandler e))
  | (h, Ok fragments) => send_fragments (set_hh c h) fragments net_ok now
  end.

(** ** The responder *)

Definition receiveSessionRequest (c : HConn) (w : Wait) (now : Z) : HConn * result ConnHandshakeError Z :=
  match receivePacketWithTimeout c w now with
  | (c, Err e) => (c, Err e)
  | (c, Ok sessionRequest) =>
      if decide (MessageType sessionRequest <> MessageTypeSessionRequest)
      then (c, Err (EWrongMessage (MessageType sessionRequest)))
      else match ProcessSessionRequest (handler c) sessionRequest now with
      | (h, Some e) => (set_hh c h, Err (EHandler e))
      | (h, None) =>
          let initiatorConnID := if decide (24 <= length (Header sessionRequest))%nat
                                 then be_decode (slice 16 24 (Header sessionRequest)) else 0 in
          match installSessCreateHeaderKey (set_remote_id (set_hh c h) initiatorConnID) with
          | (c, Some e) => (c, Err e)
          | (c, None) => (c, Ok initiatorConnID)
          end
      end
  end.

Definition createAndSendSessionCreated (c : HConn) (initiatorConnID : Z) (rnd : bytes) (net_ok : bool) (now : Z)
    : HConn * result ConnHandshakeError (SSU2Packet * bytes) :=
  match CreateSessionCreated (handler c) (ConnectionID (config c)) initiatorConnID rnd now with
  | (h, Err e) => (set_hh c h, Err (EHandler e))
  | (h, Ok sessionCreated) =>
      match installSessionConfirmedHeaderKey (set_hh c h) with
      | (c, Some e) => (c, Err e)
      | (c, None) =>
          match hsend c sessionCreated net_ok now with
          | (c, Err e) => (c, Err e)
          | (c, Ok d) => (c, Ok (sessionCreated, d))
          end
      end
  end.

Definition validateConfirmedFragment (frag : SSU2Packet) (expectedTotal : Z) : option ConnHandshakeError :=
  if decide (MessageType frag <> MessageTypeSessionConfirmed) then Some (EWrongMessage (MessageType frag))
  else if decide (length (Header frag) < 14)%nat then Some EFragmentTruncated
  else if negb (frag_total frag =? expectedTotal) then Some (EFragmentMismatch expectedTotal (frag_total frag))
  else None.

(** One turn of the sort: the fragment moves in front of those with a larger index;
    [acc] is the sorted part, last one first. *)
Fixpoint sink (x : SSU2Packet) (acc : list SSU2Packet) : list SSU2Packet :=
  match acc with
  | y :: acc' => if frag_num x <? frag_num y then y :: sink x acc' else x :: acc
  | [] => [x]
  end.

Definition sortFragmentsByIndex (fragments : list SSU2Packet) : list SSU2Packet :=
  reverse (foldl (fun acc x => sink x acc) [] fragments).

(** The loop of [collectConfirmedFragments]; every turn takes a packet or ends. *)
Fixpoint collect_loop (fuel : nat) (c : HConn) (totalFrags : Z) (seen : list Z) (fragments : list SSU2Packet)
    (waits : list Wait) (now : Z) : HConn * result ConnHandshakeError (list SSU2Packet) :=
  if negb (zlen seen <? totalFrags) then (c, Ok (sortFragmentsByIndex fragments))
  else match fuel with
  | O => (c, Err EOutOfFuel)
  | S fuel =>
      let '(w, waits) := next_wait waits in
      match receivePacketWithTimeout c w now with
      | (c, Err e) => (c, Err e)
      | (c, Ok frag) =>
          match validateConfirmedFragment frag totalFrags with
          | Some e => (c, Err e)
          | None =>
              if decide (frag_num frag ∈ seen) then collect_loop fuel c totalFrags seen fragments waits now
              else collect_loop fuel c totalFrags (frag_num frag :: seen) (fragments ++ [frag]) waits now
          end
      end
  end.

(** The packets that can arrive: those queued and those of the waits. *)
Definition collect_fuel (c : HConn) (waits : list Wait) : nat :=
  S (length (recvQueue (conn c)) + length (concat (map arrives waits))).

Definition collectConfirmedFragments (c : HConn) (first : SSU2Packet) (waits : list Wait) (now : Z)
    : HConn * result ConnHandshakeError (list SSU2Packet) :=
  if decide (length (Header first) < 14)%nat then (c, Ok [first])
  else
    let totalFrags := frag_total first in
    if (totalFrags <? 1) || (15 <? totalFrags) then (c, Err (EFragmentTotal totalFrags))
    else if totalFrags =? 1 then (c, Ok [first])
    else collect_loop (collect_fuel c waits) c totalFrags [frag_num first] [first] waits now.

(** [receiveAndProcessSessionConfirmed]: also what was retransmitted. *)
Definition receiveAndProcessSessionConfirmed (c : HConn) (sessionCreated : SSU2Packet) (net_ok : bool)
    (waits waits2 : list Wait) (now : Z) : HConn * list (Z * bytes) * option ConnHandshakeError :=
  let '(c, sent, _, r) := receiveHandshakeWithRetransmit c sessionCreated (HandshakeTimeout (config c)) net_ok waits now in
  match r with
  | Err e => (c, sent, Some e)
  | Ok sessionConfirmed =>
      if decide (MessageType sessionConfirmed <> MessageTypeSessionConfirmed)
      then (c, sent, Some (EWrongMessage (MessageType sessionConfirmed)))
      else match collectConfirmedFragments c sessionConfirmed waits2 now with
      | (c, Err e) => (c, sent, Some e)
      | (c, Ok fragments) =>
          let '(h, e) := ProcessSessionConfirmedFragments (handler c) fragments in
          (set_hh c h, sent, option_map EHandler e)
      end
  end.

(** ** Completion *)

(** The connection's ciphers are those of the handler. *)
Definition share_ciphers (c : HConn) : HConn :=
  set_conn c (Session.set_ciphers (conn c) (sendCipher (handler c)) (recvCipher (handler c))).

Definition validatePeerRouterInfo (c : HConn) : option ConnHandshakeError :=
  let peerKey := remoteStaticKey (handler c) in
  if negb (bool_decide (length peerKey = 32%nat)) then None
  else match RouterInfoValidator (config c) with
  | None => None
  | Some validate =>
      let ri := peerRouterInfo (handler c) in
      if decide (length ri = 0%nat) then None
      else if validate ri peerKey then None else Some EValidation
  end.

Definition installCipherStates (c : HConn) : HConn * option ConnHandshakeError :=
  match GetCipherStates (handler c) with
  | Err e => (c, Some (EHandler e))
  | Ok _ => let c := share_ciphers c in (c, validatePeerRouterInfo c)
  end.

(** [deriveDataPhaseKeys]: the data keys are installed in the shared cipher states. *)
Definition Conn_deriveDataPhaseKeys (c : HConn) : HConn * result ConnHandshakeError (bytes * bytes) :=
  match DeriveHeaderKeys (handler c) with
  | (h, Err e) => (set_hh c h, Err (EHandler e))
  | (h, Ok (sendKHeader2, recvKHeader2)) =>
      let c := share_ciphers (set_hh c h) in
      match headerProtector (conn c) with
      | None => (c, Ok (sendKHeader2, recvKHeader2))
      | Some m =>
          match SetKDFKeys m sendKHeader2 recvKHeader2 with
          | (m, Some e) => (set_protector c m, Err (EHeaderKey e))
          | (m, None) => (set_protector c m, Ok (sendKHeader2, recvKHeader2))
          end
      end
  end.

Definition deriveSipHashModifier (sendKHeader2 recvKHeader2 : bytes) : option LengthModifier :=
  let keys k :=
    match hkdf_derive k "SipHashKey" 16, hkdf_derive k "SipHashIV" 8 with
    | Some ks, Some iv => Some ((le_decode (slice 0 8 ks), le_decode (slice 8 16 ks)), le_decode (slice 0 8 iv))
    | _, _ => None
    end in
  match keys sendKHeader2, keys recvKHeader2 with
  | Some (outKeys, outIV), Some (inKeys, inIV) =>
      Some (NewLengthModifierDirectional "ssu2-data-siphash" outKeys inKeys outIV inIV)
  | _, _ => None
  end.

Definition applyNegotiatedPadding (c : HConn) : HConn :=
  match NegotiatedPadding (localOptions (handler c)) (peerOptions (handler c)) with
  | None => c
  | Some negotiated =>
      let cfg := config c in
      let mtu := f64 (cfgMTU cfg) in
      let minBytes := f2i (fmul (TMinRatio negotiated) mtu) in
      let minSize := if SFltb (S754_zero false) (TMinRatio negotiated) && (cfgMinPaddingSize cfg <? minBytes)
                     then minBytes else cfgMinPaddingSize cfg in
      let cfg := mkHandshakeConfig (ConnectionID cfg) (HandshakeTimeout cfg) (RouterHash cfg) (cfgMTU cfg)
                   (TMaxRatio negotiated) minSize (cfgMaxPaddingSize cfg) (RouterInfoValidator cfg) in
      let maxBytes := if SFltb (S754_zero false) (TMaxRatio negotiated)
                      then f2i (fmul (TMaxRatio negotiated) mtu) else cfgMaxPaddingSize cfg in
      let pm := match paddingModifier c with
                | Some pm => Some (UpdatePaddingParams pm minSize maxBytes (TMaxRatio negotiated)).1
                | None => None
                end in
      mkHConn (conn c) (handler c) cfg (state c) pm
  end.

Definition finalizeHandshake (c : HConn) : HConn * option ConnHandshakeError :=
  if negb (IsHandshakeComplete (handler c)) then (c, Some ENotComplete)
  else match installCipherStates c with
  | (c, Some e) => (c, Some e)
  | (c, None) =>
      match Conn_deriveDataPhaseKeys c with
      | (c, Err e) => (c, Some e)
      | (c, Ok (sendKHeader2, recvKHeader2)) =>
          match deriveSipHashModifier sendKHeader2 recvKHeader2 with
          | None => (c, Some ESipKeys)
          | Some sipMod =>
              let s := Session.set_state (set_sip (conn c) (Some sipMod)) true (closed (conn c)) in
              (applyNegotiatedPadding (mkHConn s (handler c) (config c) StateEstablished (paddingModifier c)), None)
          end
      end
  end.

(** [Handshake]: the state is checked, the role's part is run, and a failure closes
    the connection. [run] is what the role does. *)
Definition Handshake (c : HConn) (run : HConn -> HConn * option ConnHandshakeError) (net_ok : bool) (now : Z)
    : HConn * option ConnHandshakeError :=
  if decide (state c <> StateInit) then (c, Some (EInvalidState (state c)))
  else
    match run (mkHConn (conn c) (handler c) (config c) StateHandshaking (paddingModifier c)) with
    | (c, None) => (c, None)
    | (c, Some e) =>
        let s := (CloseWithReason (conn c) TerminationTimeout [] net_ok now).1 in
        (mkHConn s (Handler_Close (handler c)) (config c) StateClosed (paddingModifier c), Some e)
    end.

(** What the two roles do; [rnd1], [rnd2] are the random bytes of the messages. *)
Definition handshakeInitiator (rnd1 rndRetry rnd2 : bytes) (net_ok : bool) (waits waits2 : list Wait) (now now2 : Z) (c : HConn)
    : HConn * option ConnHandshakeError :=
  match sendSessionRequest c rnd1 net_ok now with
  | (c, Err e) => (c, Some e)
  | (c, Ok (sessionRequest, _)) =>
      match awaitSessionCreated c sessionRequest rndRetry net_ok waits waits2 now with
      | (c, _, Err e) => (c, Some e)
      | (c, _, Ok response) =>
          match processSessionCreated c response now2 with
          | (c, Some e) => (c, Some e)
          | (c, None) =>
              match sendSessionConfirmed c rnd2 net_ok now2 with
              | (c, Err e) => (c, Some e)
              | (c, Ok _) => finalizeHandshake c
              end
          end
      end
  end.

Definition handshakeResponder (rnd : bytes) (net_ok : bool) (w : Wait) (waits waits2 : list Wait) (now now2 : Z) (c : HConn)
    : HConn * option ConnHandshakeError :=
  match receiveSessionRequest c w now with
  | (c, Err e) => (c, Some e)
  | (c, Ok initiatorConnID) =>
      match createAndSendSessionCreated c initiatorConnID rnd net_ok now with
      | (c, Err e) => (c, Some e)
      | (c, Ok (sessionCreated, _)) =>
          match receiveAndProcessSessionConfirmed c sessionCreated net_ok waits waits2 now2 with
          | (c, _, Some e) => (c, Some e)
          | (c, _, None) => finalizeHandshake c
          end
      end
  end.

(** ** Construction *)

(** [buildHandshakeHandler] *)
Definition buildHandshakeHandler (init : bool) (priv : bytes) (remote : option bytes) (replayTTL skew : Z) (ratio : float64)
    : result HandshakeError HandshakeHandler :=
  match NewHandshakeHandler init priv remote [] with
  | Err e => Err e
  | Ok h =>
      let h := if (0 <? replayTTL) && negb init then ReconfigureReplayCache h replayTTL else h in
      let h := SetMaxClockSkew h skew in
      Ok (SetLocalOptions h (Some (mkOptions (S754_zero false) ratio (S754_zero false) ratio 0 0 0 0)))
  end.

(** ** Packets between connections *)

(** What sending and receiving handshake packets leaves alone. *)
Definition core (s s' : Conn CipherState) : Prop :=
  headerProtector s' = headerProtector s /\ sipHashModifier s' = sipHashModifier s /\ out s' = out s.

(** No header protection and no length obfuscation. *)
Definition bare (s : Conn CipherState) : Prop := headerProtector s = None /\ sipHashModifier s = None.

Lemma core_bare s s' : core s s' -> bare s -> bare s'.
Proof. intros (H1 & H2 & _) [H3 H4]. split; congruence. Qed.

Lemma core_trans s1 s2 s3 : core s1 s2 -> core s2 s3 -> core s1 s3.
Proof. intros (? & ? & ?) (? & ? & ?). split_and!; congruence. Qed.

Definition is_handshake (p : SSU2Packet) : Prop :=
  MessageType p = MessageTypeSessionRequest \/ MessageType p = MessageTypeSessionCreated
  \/ MessageType p = MessageTypeSessionConfirmed.

Lemma handshake_not_data p : is_handshake p -> MessageType p <> MessageTypeData.
Proof. by intros [-> |[-> | ->]]. Qed.

Lemma Serialize_wire p : wire_ok p -> Packet.Serialize p = (p, Ok (sections p)).
Proof.
  intros (Hv & H12 & _). destruct (Packet.Serialize p) as [p' r] eqn:E.
  assert (exists buf, r = Ok buf) as [buf ->].
  { unfold Packet.Serialize in E. rewrite Hv in E. injection E as _ <-. eauto. }
  apply Serialize_ok_inv in E as (_ & -> & ->). rewrite list_insert_id by done. by destruct p.
Qed.

Lemma encrypt_handshake env p : MessageType p <> MessageTypeData -> encryptDataPayload env p = Ok (p, []).
Proof. intros Ht. unfold encryptDataPayload. destruct (cipher env); [|done]. by rewrite decide_True by auto. Qed.

Lemma hsend_spec c p now :
  bare (conn c) -> wire_ok p -> is_handshake p ->
  exists s, hsend c p true now = (set_conn c s, Ok (sections p)) /\ core (conn c) s /\ recvQueue s = recvQueue (conn c).
Proof.
  intros [Hh Hs] Hw Ht. apply handshake_not_data in Ht. unfold hsend, send_packet. rewrite Hs.
  unfold sendPacketDirect. set (env := mkEnv _ _ _ _).
  rewrite (encrypt_handshake env p Ht). change (applySipHashObfuscation env p) with p. rewrite Serialize_wire by done.
  change (protect env) with (outbound_protection (conn c) (MessageType p)). unfold outbound_protection. rewrite Hh.
  cbn [network_ok env negb]. rewrite decide_False by done. unfold trackPendingPacket. rewrite decide_True by (by left).
  eexists. split; [done|]. done.
Qed.

Lemma receive_handshake s p now :
  bare s -> wire_ok p -> is_handshake p -> be_decode (slice 8 12 (Header p)) = 0 -> (length (recvQueue s) < recvQueueCap)%nat ->
  exists s', (receive cbs s (sections p) None true now).1 = s' /\ core s s' /\ recvQueue s' = recvQueue s ++ [received p now].
Proof.
  intros [Hh Hs] (Hv & H12 & Hl & Hm) Ht Hn Hq. destruct (validate_none_inv p Hv) as (H1 & H2 & H3 & _).
  unfold receive, parseInboundPacket, unwrap_datagram, open_packet. cbn [negb]. rewrite Hh, Hs, Deserialize_sections by done.
  assert (Hty : MessageType p <> MessageTypeData) by by apply handshake_not_data.
  set (q := mkPacket _ _ _ _ _ _ _).
  replace (match Session.recvCipher s with Some _ => _ | None => _ end) with (Some q).
  2: { destruct (Session.recvCipher s); [|done]. rewrite decide_False; [done|]. by intros [? _]. }
  cbn. unfold processInboundPacket. cbn [MessageType q]. rewrite decide_False by done. rewrite decide_True by exact Ht.
  cbn [PacketNumber q]. rewrite Hn. cbn [Z.ltb Z.compare]. rewrite decide_True by done.
  eexists. split; [done|]. split; [done|]. reflexivity.
Qed.

(** Handshake packets that arrive are queued. *)
Lemma deliver_spec c ps now :
  bare (conn c) -> Forall (fun p => wire_ok p /\ is_handshake p /\ be_decode (slice 8 12 (Header p)) = 0) ps ->
  (length (recvQueue (conn c)) + length ps <= recvQueueCap)%nat ->
  exists s, deliver cbs c (map sections ps) now = set_conn c s /\ core (conn c) s
    /\ recvQueue s = recvQueue (conn c) ++ map (fun p => received p now) ps.
Proof.
  intros Hb Hps Hq. unfold deliver. generalize dependent (conn c). intros s Hb Hq. eexists. split; [done|].
  revert s Hb Hq. induction ps as [|p ps IH]; intros s Hb Hq; [cbn; by rewrite app_nil_r|].
  inversion_clear Hps as [|? ? (Hw & Ht & Hn) Hps']. cbn [map foldl length] in *.
  destruct (receive_handshake s p now Hb Hw Ht Hn) as (s1 & Hr & Hc & Hq1); [lia|]. rewrite Hr.
  destruct (IH Hps' s1) as [Hc2 Hq2]; [by eapply core_bare|rewrite Hq1, length_app; cbn; lia|].
  split; [by eapply core_trans|]. by rewrite Hq2, Hq1, <- app_assoc.
Qed.

(** Only a handshake packet that arrives is queued, and the header keys stay. *)
Definition kept (s s' : Conn CipherState) : Prop := recvQueue s' = recvQueue s /\ headerProtector s' = headerProtector s.

Lemma kept_trans s1 s2 s3 : kept s1 s2 -> kept s2 s3 -> kept s1 s3.
Proof. intros [? ?] [? ?]. split; congruence. Qed.

Lemma send_packet_kept s net_ok now p : kept s (send_packet s net_ok now p).1.
Proof.
  unfold send_packet. destruct (sipHashModifier s) as [m|]; [destruct (_ && _); [destruct (NextOutboundMask m)|]|];
    destruct (sendPacketDirect _ _ _ _ _) as [o [d|e]]; done.
Qed.

Lemma send_ack_kept s net_ok now : kept s (sendImmediateACK s net_ok now).1.
Proof.
  unfold sendImmediateACK. destruct (AckHandler.GenerateACK _ _) as [ah [ack|]]; [|done]. destruct (newDataPacket _) as [o p].
  pose proof (send_packet_kept (set_out (set_ack s ah) o) net_ok now
    (with_payload p match SerializeBlocks [ack] with Ok payload => payload | Err _ => [] end)) as Hq.
  by destruct (send_packet _ _ _ _).
Qed.

Lemma apply_events_kept evs s net_ok now : kept s (apply_events s evs net_ok now).1.
Proof.
  revert s. induction evs as [|ev evs IH]; intros s; [done|]. cbn [apply_events].
  assert (Hev : kept s (apply_event s ev net_ok now).1).
  { destruct ev; try done; cbn [apply_event].
    - destruct (enableNextNonce _); [|done]. unfold handlePeerNextNonce.
      destruct (Session.recvCipher s); [|done]. by destruct (derive_rekey _).
    - unfold handleCongestionBlock. pose proof (send_ack_kept s net_ok now) as Hq.
      destruct (Z.testbit _ 0); [destruct (sendImmediateACK _ _ _)|]; by destruct (Z.testbit _ 1). }
  destruct (apply_event s ev net_ok now) as [s1 sent1]. specialize (IH s1). destruct (apply_events s1 evs net_ok now).
  by eapply kept_trans.
Qed.

Lemma ack_blocks_kept blocks (s : Conn CipherState) : kept s (ack_blocks s blocks).
Proof.
  revert s. induction blocks as [|b blocks IH]; intros s; [done|]. cbn [ack_blocks]. case_decide; [|done].
  destruct (AckHandler.ProcessACK _ _) as [ah r]. eapply kept_trans; [|apply IH]. done.
Qed.

Lemma data_packet_kept s p net_ok now : kept s (processDataPacket cbs s p net_ok now).1.
Proof.
  unfold processDataPacket. destruct (ProcessDataPacket cbs (dataHandler s) p now) as [[dh evs] [blocks err]].
  pose proof (apply_events_kept evs (set_handler s dh) net_ok now) as Hq. destruct (apply_events _ _ _ _) as [s1 sent].
  destruct err; [done|]. eapply kept_trans; [exact Hq|apply ack_blocks_kept].
Qed.

Lemma unwrap_kept (s : Conn CipherState) d now : kept s (unwrap_datagram s d now).1.
Proof. destruct (unwrap_same s d now) as (Hu & _ & _ & Hq). split; [done|apply Hu]. Qed.

Lemma parse_kept (s : Conn CipherState) d udp now : kept s (parseInboundPacket s d udp None now).1.1.
Proof.
  unfold parseInboundPacket. destruct (negb udp); [done|]. pose proof (unwrap_kept s d now) as Hk.
  destruct (unwrap_datagram s d now) as [s1 [p|]]; [|done]. by destruct (open_packet _ _).
Qed.

Lemma receive_kept s d now (s' := (receive cbs s d None true now).1) :
  headerProtector s' = headerProtector s /\ (recvQueue s' = recvQueue s \/ exists p, recvQueue s' = recvQueue s ++ [p]).
Proof.
  subst s'. unfold receive. pose proof (parse_kept s d true now) as Hp.
  destruct (parseInboundPacket s d true None now) as [[s1 [p|]] v]; [|destruct Hp; by auto].
  cbn [fst] in Hp. destruct Hp as [Hq Hh]. rewrite <- Hq, <- Hh. unfold processInboundPacket. case_decide.
  - destruct (ReceiveWindow.Insert _ _) as [rw [ready|e]]; [|by auto].
    set (s2 := count_received _). assert (H2 : kept s1 s2) by (unfold s2; by destruct (0 <? _)).
    destruct (_ && _).
    + pose proof (send_ack_kept s2 true now) as H3. destruct (sendImmediateACK s2 true now) as [s3 l3].
      pose proof (data_packet_kept s3 p true now) as H4. destruct (processDataPacket _ _ _ _ _).
      destruct (kept_trans _ _ _ (kept_trans _ _ _ H2 H3) H4). by auto.
    + pose proof (data_packet_kept s2 p true now) as H4. destruct (processDataPacket _ _ _ _ _).
      destruct (kept_trans _ _ _ H2 H4). by auto.
  - case_decide; [|by auto]. set (s2 := if 0 <? _ then _ else _). assert (H2 : kept s1 s2) by (unfold s2; by destruct (0 <? _)).
    destruct H2 as [H2 H3]. case_decide; cbn [fst]; [|by auto]. split; [done|]. right. exists p. cbn. by rewrite H2.
Qed.

Lemma deliver_kept c ds now (c' := deliver cbs c ds now) :
  headerProtector (conn c') = headerProtector (conn c)
  /\ (length (recvQueue (conn c')) <= length (recvQueue (conn c)) + length ds)%nat.
Proof.
  subst c'. unfold deliver. cbn [conn set_conn]. generalize (conn c). induction ds as [|d ds IH]; intros s; [cbn; split; [done|lia]|].
  cbn [foldl length]. destruct (IH (receive cbs s d None true now).1) as [H1 H2]. destruct (receive_kept s d now) as [H3 H4].
  split; [congruence|]. destruct H4 as [Hq|[p Hq]]; rewrite Hq in H2; [|rewrite length_app in H2; cbn in H2]; lia.
Qed.

(** ** Collecting the fragments *)

Lemma sink_perm x acc : sink x acc ≡ₚ x :: acc.
Proof.
  induction acc as [|y acc IH]; [done|]. cbn [sink]. destruct (frag_num x <? frag_num y); [|done].
  rewrite IH. apply Permutation_swap.
Qed.

(** The sorted part is kept last one first, largest index first. *)
Definition larger (a b : SSU2Packet) : Prop := frag_num b <= frag_num a.

Lemma sink_sorted x acc : StronglySorted larger acc -> StronglySorted larger (sink x acc).
Proof.
  induction 1 as [|y acc Hs IH Hy]; [by repeat constructor|]. cbn [sink].
  destruct (Z.ltb_spec (frag_num x) (frag_num y)) as [Hlt|Hge].
  - constructor; [done|]. rewrite Forall_forall in *. intros z. rewrite sink_perm, elem_of_cons.
    intros [-> |Hz]; [unfold larger; lia|by apply Hy].
  - constructor; [by constructor|]. constructor; [done|]. eapply Forall_impl; [exact Hy|]. unfold larger. intros. lia.
Qed.

Lemma sort_fragments_spec l :
  sortFragmentsByIndex l ≡ₚ l /\ StronglySorted (fun a b => frag_num a <= frag_num b) (sortFragmentsByIndex l).
Proof.
  unfold sortFragmentsByIndex.
  assert (Hgen : forall acc, StronglySorted larger acc -> StronglySorted larger (foldl (fun acc x => sink x acc) acc l)
    /\ foldl (fun acc x => sink x acc) acc l ≡ₚ l ++ acc).
  { induction l as [|x l IH]; intros acc Ha; [done|]. cbn [foldl]. destruct (IH (sink x acc)) as [H1 H2]; [by apply sink_sorted|].
    split; [done|]. rewrite H2, sink_perm. cbn. by rewrite Permutation_middle. }
  destruct (Hgen [] ltac:(constructor)) as [H1 H2]. rewrite app_nil_r in H2. split; [by rewrite reverse_Permutation|].
  set (r := foldl _ _ _) in *. clearbody r. clear H2 Hgen. induction H1 as [|y acc Hs IH Hy]; [constructor|].
  rewrite reverse_cons. apply StronglySorted_app. split_and!; [|done|by repeat constructor].
  intros a b Ha Hb%list_elem_of_singleton. subst b. rewrite elem_of_reverse in Ha. rewrite Forall_forall in Hy. exact (Hy a Ha).
Qed.

Lemma strictly_sorted l :
  StronglySorted (fun a b => frag_num a <= frag_num b) l -> NoDup (frag_num <$> l) -> StronglySorted (fun a b => frag_num a < frag_num b) l.
Proof.
  induction 1 as [|a l Hs IH Ha]; [constructor|]. cbn. intros [Hni Hnd]%NoDup_cons. constructor; [by apply IH|].
  rewrite Forall_forall in *. intros b Hb. specialize (Ha b Hb).
  assert (frag_num a <> frag_num b); [|lia]. intros Heq. apply Hni. rewrite Heq. by apply list_elem_of_fmap_2.
Qed.

(** Fragments with the indices 0, 1, ... in any order are put in that order. *)
Lemma sort_fragments_seq (f : nat -> SSU2Packet) js n :
  js ≡ₚ seq 0 n -> (forall j, (j < n)%nat -> frag_num (f j) = Z.of_nat j) ->
  sortFragmentsByIndex (map f js) = map f (seq 0 n).
Proof.
  intros Hp Hf. destruct (sort_fragments_spec (map f js)) as [Hperm Hsort].
  apply Permutation_map_inv in Hperm as (l & Hl & Hjl). rewrite Hl in Hsort |- *. f_equal.
  assert (Hln : forall j, j ∈ l -> (j < n)%nat).
  { intros j Hj. rewrite <- Hjl, Hp in Hj. apply elem_of_seq in Hj. lia. }
  apply (StronglySorted_unique_strong le).
  - intros x1 x2 _ _. lia.
  - clear Hl Hjl. induction l as [|j l IH]; [constructor|]. cbn [map] in Hsort. inversion_clear Hsort as [|? ? Hs Hall].
    constructor; [apply IH; [done|]; intros k Hk; apply Hln; by right|].
    apply Forall_forall. intros k Hk. rewrite Forall_forall in Hall. specialize (Hall (f k)).
    rewrite !Hf in Hall by (apply Hln; (by left) || (by right)). apply Nat2Z.inj_le, Hall. apply list_elem_of_fmap. by exists k.
  - apply Sorted_StronglySorted; [apply _|]. clear. generalize 0%nat. induction n as [|n IH]; intros m; [constructor|].
    constructor; [apply IH|]. destruct n; constructor. lia.
  - by rewrite <- Hjl, Hp.
Qed.

Lemma set_conn_id c : set_conn c (conn c) = c.
Proof. by destruct c. Qed.

Lemma take_queued c p q w now :
  arrives w = [] -> recvQueue (conn c) = p :: q ->
  receivePacketWithTimeout c w now = (set_conn c (set_recvQueue (conn c) q), Ok p).
Proof.
  intros Hw Hq. unfold receivePacketWithTimeout. rewrite Hw. unfold deliver. cbn [foldl]. rewrite set_conn_id. by rewrite Hq.
Qed.

(** Only the queue of received packets changes. *)
Definition queue_only (c c' : HConn) : Prop :=
  handler c' = handler c /\ config c' = config c /\ state c' = state c /\ paddingModifier c' = paddingModifier c /\ core (conn c) (conn c').

Lemma queue_only_trans c1 c2 c3 : queue_only c1 c2 -> queue_only c2 c3 -> queue_only c1 c3.
Proof. intros (? & ? & ? & ? & ?) (? & ? & ? & ? & ?). split_and!; [congruence..|by eapply core_trans]. Qed.

(** What the loop holds: the distinct numbers of the fragments taken so far. *)
Definition collected (totalFrags : Z) (seen : list Z) (fragments : list SSU2Packet) : Prop :=
  NoDup seen /\ seen ≡ₚ map frag_num fragments /\ zlen seen <= totalFrags
  /\ Forall (fun f => frag_total f = totalFrags) fragments.

Lemma collect_returns fuel c totalFrags seen fragments waits now c' r :
  collected totalFrags seen fragments ->
  (length (recvQueue (conn c)) + length (concat (map arrives waits)) < fuel)%nat ->
  collect_loop fuel c totalFrags seen fragments waits now = (c', r) ->
  r <> Err EOutOfFuel /\ forall l, r = Ok l -> exists seen' fs, l = sortFragmentsByIndex fs /\ fragments `sublist_of` fs
    /\ collected totalFrags seen' fs /\ zlen seen' = totalFrags.
Proof.
  revert c seen fragments waits. induction fuel as [|fuel IH]; intros c seen fragments waits Hcol Hf; [lia|]. cbn [collect_loop].
  destruct (Z.ltb_spec (zlen seen) totalFrags) as [Hlt|Hge]; cbn [negb].
  2: { intros [= <- <-]. split; [done|]. intros l <-%Ok_inj. exists seen, fragments. destruct Hcol as (? & ? & ? & ?).
       split_and!; try done. lia. }
  destruct (next_wait waits) as [w waits'] eqn:Ew.
  assert (Hlen : length (concat (map arrives waits)) = (length (arrives w) + length (concat (map arrives waits')))%nat).
  { destruct waits; injection Ew as <- <-; [done|]. cbn. by rewrite length_app. }
  unfold receivePacketWithTimeout. destruct (deliver_kept c (arrives w) now) as [_ Hq]. set (c1 := deliver cbs c _ _) in *.
  destruct (recvQueue (conn c1)) as [|frag q] eqn:Eq; cbn [length] in Hq.
  { intros [= <- <-]. split; [|done]. destruct (interrupted w) as [[]|]; try done. }
  destruct (validateConfirmedFragment frag totalFrags) as [e|] eqn:Ev.
  { intros [= <- <-]. split; [|done]. unfold validateConfirmedFragment in Ev. repeat case_decide; try (injection Ev as <-; done).
    destruct (negb _); [|done]. by injection Ev as <-. }
  case_decide as Hin; intros Hr; apply IH in Hr; try done; try (cbn; lia).
  - destruct Hr as [H1 H2]. split; [done|]. intros l Hl. destruct (H2 l Hl) as (s' & fs & Hl' & Hs & Hrest). exists s', fs.
    split; [done|]. split; [|done]. etrans; [|exact Hs]. by apply sublist_inserts_r.
  - destruct Hcol as (Hn & Hp & Hz & Ht). split_and!; [by constructor| |unfold zlen in *; cbn [length]; lia|].
    + rewrite map_app, Hp. cbn. by rewrite Permutation_app_comm.
    + apply Forall_app. split; [done|]. apply Forall_singleton. unfold validateConfirmedFragment in Ev.
      repeat case_decide; try done. destruct (Z.eqb_spec (frag_total frag) totalFrags); done.
Qed.

Section Collect.
Context (rp : nat -> SSU2Packet) (n : nat).
Hypothesis rp_ok : forall j, (j < n)%nat -> validateConfirmedFragment (rp j) (Z.of_nat n) = None /\ frag_num (rp j) = Z.of_nat j.

Lemma collect_spec q c js seen fuel now :
  recvQueue (conn c) = map rp q -> Forall (fun j => j < n)%nat (js ++ q) -> NoDup js -> seen ≡ₚ map Z.of_nat js ->
  (forall k, (k < n)%nat -> k ∈ js ++ q) -> (length q < fuel)%nat ->
  exists js' c', collect_loop fuel c (Z.of_nat n) seen (map rp js) [] now = (c', Ok (sortFragmentsByIndex (map rp js')))
    /\ js' ≡ₚ seq 0 n /\ queue_only c c'.
Proof.
  revert c js seen fuel. induction q as [|j q IH]; intros c js seen fuel Hq Hlt Hnd Hseen Hall Hfuel;
    (destruct fuel as [|fuel]; [cbn in Hfuel; lia|]); cbn [collect_loop].
  - rewrite app_nil_r in *. assert (Hp : js ≡ₚ seq 0 n).
    { apply NoDup_Permutation; [done|apply NoDup_seq|]. intros k. rewrite elem_of_seq. rewrite Forall_forall in Hlt.
      split; [intros Hk; specialize (Hlt k Hk); lia|intros; apply Hall; lia]. }
    assert (Hz : zlen seen = Z.of_nat n) by (unfold zlen; rewrite Hseen, length_map, Hp, length_seq; done).
    rewrite Hz, Z.ltb_irrefl. exists js, c. split_and!; done.
  - assert (Hjn : (j < n)%nat).
    { rewrite Forall_forall in Hlt. apply Hlt. apply elem_of_app. right. by left. }
    destruct (rp_ok j Hjn) as [Hv Hfn].
    destruct (Z.ltb_spec (zlen seen) (Z.of_nat n)) as [Hless|Hge]; cbn [negb].
    2: { assert (Hp : js ≡ₚ seq 0 n).
         { assert (Hsub : js ⊆+ seq 0 n).
           { apply NoDup_submseteq; [done|]. intros k Hk. apply elem_of_seq. rewrite Forall_forall in Hlt.
             specialize (Hlt k). rewrite elem_of_app in Hlt. specialize (Hlt (or_introl Hk)). lia. }
           apply submseteq_length_Permutation; [done|]. rewrite length_seq. unfold zlen in Hge. rewrite Hseen, length_map in Hge. lia. }
         exists js, c. split_and!; done. }
    cbn [next_wait]. rewrite (take_queued c (rp j) (map rp q)) by done. rewrite Hv, Hfn.
    set (c1 := set_conn c _). assert (Hc1 : queue_only c c1) by (split_and!; done).
    assert (Hin : Z.of_nat j ∈ seen <-> j ∈ js).
    { rewrite Hseen, list_elem_of_fmap. split; [intros (k & Hk & ?); by apply Nat2Z.inj in Hk as ->|eauto]. }
    case_decide as Hd.
    + destruct (IH c1 js seen fuel) as (js' & c' & Hr & Hp & Hq'); [done| |done|done| |cbn in Hfuel; lia|].
      * rewrite Forall_app, Forall_cons in Hlt. rewrite Forall_app. tauto.
      * intros k Hk. specialize (Hall k Hk). rewrite elem_of_app, elem_of_cons in Hall. rewrite elem_of_app.
        destruct Hall as [?|[-> |?]]; [by left|left; by apply Hin|by right].
      * exists js', c'. split_and!; [done|done|by eapply queue_only_trans].
    + rewrite Hin in Hd. change [rp j] with (map rp [j]). rewrite <- map_app.
      destruct (IH c1 (js ++ [j]) (Z.of_nat j :: seen) fuel) as (js' & c' & Hr & Hp & Hq'); [done| | | | |cbn in Hfuel; lia|].
      * by rewrite <- app_assoc.
      * apply NoDup_app. split_and!; [done| |apply NoDup_singleton]. intros k Hk ->%list_elem_of_singleton. done.
      * rewrite map_app. cbn. rewrite Hseen. by rewrite Permutation_app_comm.
      * intros k Hk. rewrite <- app_assoc. by apply Hall.
      * exists js', c'. split_and!; [done|done|by eapply queue_only_trans].
Qed.
End Collect.

(** ** The steps between two connections *)

Context {NL : NoiseXKLaws}.

(** A packet that arrives during the wait is taken. *)
Lemma receive_one c p now :
  bare (conn c) -> recvQueue (conn c) = [] -> wire_ok p -> is_handshake p -> be_decode (slice 8 12 (Header p)) = 0 ->
  exists s, receivePacketWithTimeout c (mkWait [sections p] None) now = (set_conn c s, Ok (received p now))
    /\ core (conn c) s /\ recvQueue s = [].
Proof.
  intros Hb Hq Hw Ht Hn. destruct (deliver_spec c [p] now Hb) as (s & Hd & Hc & Hqs).
  { by apply Forall_singleton. }
  { rewrite Hq. cbn. unfold recvQueueCap. lia. }
  unfold receivePacketWithTimeout. cbn [arrives]. change [sections p] with (map sections [p]). rewrite Hd. cbn [conn set_conn].
  rewrite Hqs, Hq. cbn [map app]. eexists. split; [done|]. split; [|done]. done.
Qed.

(** The first attempt of a wait takes the first packet that arrives. *)
Lemma await_first c lastSent timeout net_ok w waits now c' p :
  0 < timeout <= maxDuration -> receivePacketWithTimeout c w now = (c', Ok p) ->
  receiveHandshakeWithRetransmit c lastSent timeout net_ok (w :: waits) now = (c', [], now, Ok p).
Proof.
  intros Ht Hr. unfold receiveHandshakeWithRetransmit.
  assert (Hrem : (time_sub (now + timeout) now <=? 0) = false).
  { unfold time_sub, minDuration, maxDuration in *. lia. }
  unfold retransmitSchedule. case_decide; cbn [map app retransmit_attempts next_wait]; rewrite Hrem, Hr; done.
Qed.

Lemma install_create_bare c : bare (conn c) -> installSessCreateHeaderKey c = (c, None).
Proof. intros [Hh _]. unfold installSessCreateHeaderKey. by rewrite Hh. Qed.

Lemma install_confirmed_bare c : bare (conn c) -> installSessionConfirmedHeaderKey c = (c, None).
Proof. intros [Hh _]. unfold installSessionConfirmedHeaderKey. by rewrite Hh. Qed.

Lemma longHeader_number dst src t token : be_decode (slice 8 12 (longHeader dst src t token)) = 0.
Proof. reflexivity. Qed.

Lemma longHeader_source dst src t token :
  0 <= src < 2 ^ 64 -> be_decode (slice 16 24 (longHeader dst src t token)) = src.
Proof. intros Hs. destruct (longHeader_fields dst src t token) as (_ & _ & _ & ->). apply be_decode_encode_small. exact Hs. Qed.

(** Fields of the handler that the first two messages leave alone. *)
Lemma advanced_fields h hs t :
  initiator (advanced h hs t) = initiator h /\ handshakeState (advanced h hs t) = hs
  /\ localOptions (advanced h hs t) = localOptions h /\ maxClockSkew (advanced h hs t) = maxClockSkew h
  /\ remoteStaticKey (advanced h hs t) = remoteStaticKey h /\ peerRouterInfo (advanced h hs t) = peerRouterInfo h
  /\ replayCache (advanced h hs t) = replayCache h /\ peerOptions (advanced h hs t) = peerOptions h.
Proof. unfold advanced, derive_next_key. by repeat case_decide. Qed.

(** The SessionRequest and the SessionCreated. *)
Lemma request_step pa a b rnd t t' :
  initiator (handler a) = true -> initiator (handler b) = false -> in_step pa 0 (handshakeState (handler a)) (handshakeState (handler b)) ->
  bare (conn a) -> bare (conn b) -> recvQueue (conn b) = [] -> 0 <= ConnectionID (config a) < 2 ^ 64 ->
  (forall c, replayCache (handler b) = Some c -> entries c = ∅) -> length rnd = 32%nat -> clock_ok (handler b) t t' ->
  exists i r o sa sb p b0, sendSessionRequest a rnd true t
      = (set_conn (set_hh a (advanced (handler a) i MessageTypeSessionRequest)) sa, Ok (p, sections p))
    /\ MessageType p = MessageTypeSessionRequest /\ core (conn a) sa /\ recvQueue sa = recvQueue (conn a)
    /\ receiveSessionRequest b (mkWait [sections p] None) t'
      = (set_remote_id (set_conn (set_hh b (set_peer_options (advanced b0 r MessageTypeSessionRequest) o)) sb) (ConnectionID (config a)),
         Ok (ConnectionID (config a)))
    /\ core (conn b) sb /\ recvQueue sb = [] /\ in_step pa 1 i r
    /\ ParseOptionsBlock (on_wire (localOptions (handler a))) = Ok o /\ b0 = set_cache (handler b) (replayCache b0).
Proof.
  intros Ha Hb Hst Hba Hbb Hq Hid Hrc Hrnd Hclk.
  destruct (request_exchange pa (handler a) (handler b) (ConnectionID (config a)) 0 [] rnd t t' Hb Hst Hrnd Hclk)
    as (i & r & p & o & b0 & Hbld & Hw & Hhdr & Hty & Hst1 & Ho & Hrep & Hproc).
  assert (Hfresh : (checkReplay (handler b) p t').2 = false).
  { unfold checkReplay. destruct (replayCache (handler b)) as [c|]; [|done]. unfold CheckAndAdd.
    rewrite (Hrc c eq_refl), lookup_empty. done. }
  assert (Hb0 : b0 = set_cache (handler b) (replayCache b0)).
  { unfold checkReplay in Hrep. destruct (replayCache (handler b)) as [c|] eqn:Hc.
    - destruct (CheckAndAdd _ _ _). apply pair_equal_spec in Hrep as [<- _]. done.
    - apply pair_equal_spec in Hrep as [<- _]. destruct (handler b). cbn in *. by subst. }
  assert (Hnum : be_decode (slice 8 12 (Header p)) = 0) by (rewrite Hhdr; apply longHeader_number).
  destruct (hsend_spec (set_hh a (advanced (handler a) i MessageTypeSessionRequest)) p t Hba Hw) as (sa & Hsend & Hca & Hqa); [by left|].
  destruct (receive_one b p t' Hbb Hq Hw) as (sb & Hrecv & Hcb & Hqb); [by left|done|].
  exists i, r, o, sa, sb, p, b0. split_and!; try done.
  - unfold sendSessionRequest, CreateSessionRequest. rewrite Ha. cbn [negb]. rewrite Hbld.
    rewrite install_create_bare by done. by rewrite Hsend.
  - unfold receiveSessionRequest. rewrite Hrecv. cbn [received MessageType]. rewrite decide_False by (by intros []).
    cbn [handler set_conn]. rewrite (Hproc Hfresh).
    assert (Hlen : length (Header (received p t')) = 32%nat) by (cbn [received Header]; rewrite Hhdr; apply length_longHeader).
    rewrite decide_True by lia.
    assert (Hsrc : be_decode (slice 16 24 (Header (received p t'))) = ConnectionID (config a)).
    { cbn [received Header]. rewrite Hhdr. by apply longHeader_source. }
    rewrite Hsrc. rewrite install_create_bare; [done|]. exact (core_bare _ _ Hcb Hbb).
Qed.

Lemma created_step pa a b req rnd t t0 t' :
  initiator (handler a) = true -> initiator (handler b) = false -> in_step pa 1 (handshakeState (handler a)) (handshakeState (handler b)) ->
  bare (conn a) -> bare (conn b) -> recvQueue (conn a) = [] -> 0 <= ConnectionID (config b) < 2 ^ 64 -> ConnectionID (config a) <> 0 ->
  0 < HandshakeTimeout (config a) <= maxDuration -> length rnd = 32%nat -> clock_ok (handler a) t t' ->
  exists i r o sa sb p, createAndSendSessionCreated b (ConnectionID (config a)) rnd true t
      = (set_conn (set_hh b (advanced (handler b) r MessageTypeSessionCreated)) sb, Ok (p, sections p))
    /\ MessageType p = MessageTypeSessionCreated /\ core (conn b) sb /\ recvQueue sb = recvQueue (conn b)
    /\ awaitSessionCreated a req [] true [mkWait [sections p] None] [] t0 = (set_conn a sa, [], Ok (received p t0))
    /\ processSessionCreated (set_conn a sa) (received p t0) t'
      = (set_remote_id (set_conn (set_hh a (set_peer_options (advanced (handler a) i MessageTypeSessionCreated) o)) sa)
           (ConnectionID (config b)), None)
    /\ core (conn a) sa /\ recvQueue sa = [] /\ in_step pa 2 i r
    /\ ParseOptionsBlock (on_wire (localOptions (handler b))) = Ok o.
Proof.
  intros Ha Hb Hst Hba Hbb Hq Hid Hnz Hto Hrnd Hclk.
  destruct (created_exchange pa (handler a) (handler b) (ConnectionID (config b)) (ConnectionID (config a)) rnd t t' Ha Hb Hst Hrnd Hclk Hnz)
    as (i & r & p & o & Hbld & Hw & Hhdr & Hty & Hst1 & Ho & Hproc).
  assert (Hnum : be_decode (slice 8 12 (Header p)) = 0) by (rewrite Hhdr; apply longHeader_number).
  destruct (hsend_spec (set_hh b (advanced (handler b) r MessageTypeSessionCreated)) p t Hbb Hw) as (sb & Hsend & Hcb & Hqb); [by right; left|].
  destruct (receive_one a p t0 Hba Hq Hw) as (sa & Hrecv & Hca & Hqa); [by right; left|done|].
  exists i, r, o, sa, sb, p. split_and!; try done.
  - unfold createAndSendSessionCreated. rewrite Hbld. rewrite install_confirmed_bare by done. by rewrite Hsend.
  - unfold awaitSessionCreated. rewrite (await_first _ _ _ _ _ _ _ _ _ Hto Hrecv). cbn [received MessageType].
    rewrite decide_True by (by rewrite Hty). done.
  - unfold processSessionCreated. cbn [received MessageType]. rewrite decide_False by (by intros []).
    change (handler (set_conn a sa)) with (handler a).
    assert (Hproc' : ProcessSessionCreated (handler a) (received p t0) t' = ProcessSessionCreated (handler a) (received p t') t').
    { unfold ProcessSessionCreated, received. done. }
    rewrite Hproc', Hproc.
    assert (Hlen : length (Header (received p t0)) = 32%nat) by (cbn [received Header]; rewrite Hhdr; apply length_longHeader).
    rewrite decide_True by lia.
    assert (Hsrc : be_decode (slice 16 24 (Header (received p t0))) = ConnectionID (config b)).
    { cbn [received Header]. rewrite Hhdr. by apply longHeader_source. }
    rewrite Hsrc. rewrite install_confirmed_bare; [done|]. exact (core_bare _ _ Hca Hba).
Qed.

(** Sending the fragments. *)
Lemma send_fragments_spec c ps now :
  bare (conn c) -> Forall (fun p => wire_ok p /\ is_handshake p) ps ->
  exists s, send_fragments c ps true now = (set_conn c s, Ok (map sections ps)) /\ core (conn c) s /\ recvQueue s = recvQueue (conn c).
Proof.
  revert c. induction ps as [|p ps IH]; intros c Hb Hps.
  { exists (conn c). cbn. rewrite set_conn_id. done. }
  inversion_clear Hps as [|? ? [Hw Ht] Hps']. cbn [send_fragments map].
  destruct (hsend_spec c p now Hb Hw Ht) as (s & -> & Hc & Hq).
  destruct (IH (set_conn c s)) as (s2 & -> & Hc2 & Hq2); [by eapply core_bare|done|].
  exists s2. split; [done|]. split; [by eapply core_trans|]. rewrite Hq2. done.
Qed.

Lemma fragment_number connID pn total j : be_decode (slice 8 12 (buildSessionConfirmedHeader connID pn j total)) = pn mod 2 ^ 32.
Proof.
  unfold buildSessionConfirmedHeader. rewrite slice_app by (by rewrite length_be_encode). apply be_decode_encode.
Qed.

(** The packets of a list, by index. *)
Definition nth_packet (ps : list SSU2Packet) (k : nat) : SSU2Packet := default (mkPacket [] [] [] [] x00 0 0) (ps !! k).

Lemma nth_packets ps : map (nth_packet ps) (seq 0 (length ps)) = ps.
Proof.
  apply list_eq. intros k. rewrite (list_lookup_fmap (nth_packet ps)).
  destruct (decide (k < length ps)%nat) as [Hk|Hk].
  - rewrite lookup_seq_lt by done. cbn. unfold nth_packet. destruct (lookup_lt_is_Some_2 ps k Hk) as [p ->]. done.
  - rewrite !lookup_ge_None_2; [done|lia|rewrite length_seq; lia].
Qed.

Lemma arrivals_packets ps idx :
  Forall (fun k => k < length ps)%nat idx -> omap (fun k => map sections ps !! k) idx = map sections (map (nth_packet ps) idx).
Proof.
  induction 1 as [|k idx Hk _ IH]; [done|]. cbn [omap list_omap map]. change (map sections ps) with (sections <$> ps) at 1.
  rewrite list_lookup_fmap. unfold nth_packet at 1. destruct (lookup_lt_is_Some_2 ps k Hk) as [p ->]. cbn. by rewrite <- IH.
Qed.

Section Fragments.
Context (connID total : Z) (ps : list SSU2Packet) (t' : Z).
Hypothesis Htotal : 1 <= total <= 15.
Hypothesis Hlen : zlen ps = total.
Hypothesis Hfr : forall k p, ps !! k = Some p -> is_fragment connID 0 total (Z.of_nat k) p.

Definition rp (k : nat) : SSU2Packet := received (nth_packet ps k) t'.

Lemma nth_fragment k : (k < length ps)%nat -> is_fragment connID 0 total (Z.of_nat k) (nth_packet ps k).
Proof. intros Hk. unfold nth_packet. destruct (lookup_lt_is_Some_2 ps k Hk) as [p Hp]. rewrite Hp. by apply Hfr. Qed.

Lemma rp_valid k : (k < length ps)%nat ->
  validateConfirmedFragment (rp k) (Z.of_nat (length ps)) = None /\ frag_num (rp k) = Z.of_nat k.
Proof.
  intros Hk. destruct (nth_fragment k Hk) as [_ Hty Hh Hj Htot]. split; [|exact Hj].
  unfold validateConfirmedFragment, rp. cbn [received MessageType Header]. rewrite decide_False by (rewrite Hty; by intros []).
  rewrite decide_False by (rewrite Hh, length_confirmed_header; lia).
  assert (frag_total (received (nth_packet ps k) t') = total) as -> by exact Htot.
  unfold zlen in Hlen. by rewrite Hlen, Z.eqb_refl.
Qed.

Lemma nth_deliverable idx :
  Forall (fun k => k < length ps)%nat idx ->
  Forall (fun p => wire_ok p /\ is_handshake p /\ be_decode (slice 8 12 (Header p)) = 0) (map (nth_packet ps) idx).
Proof.
  intros Hidx. apply Forall_map. eapply Forall_impl; [exact Hidx|]. intros k Hk. destruct (nth_fragment k Hk) as [Hw Hty Hh _ _].
  split; [done|]. split; [by right; right|]. rewrite Hh, fragment_number. done.
Qed.

(** Whatever order the fragments arrive in, they are collected in the order of their numbers. *)
Lemma collect_confirmed c k idx :
  recvQueue (conn c) = map rp idx -> Forall (fun k => k < length ps)%nat (k :: idx) ->
  (forall j, (j < length ps)%nat -> j ∈ k :: idx) ->
  exists c', collectConfirmedFragments c (rp k) [] t' = (c', Ok (map rp (seq 0 (length ps)))) /\ queue_only c c'.
Proof.
  intros Hq Hidx Hall. assert (Hk : (k < length ps)%nat) by by inversion_clear Hidx.
  destruct (nth_fragment k Hk) as [_ _ Hh _ Htot]. unfold collectConfirmedFragments.
  rewrite decide_False by (unfold rp; cbn [received Header]; rewrite Hh, length_confirmed_header; lia).
  assert (frag_total (rp k) = total) as -> by exact Htot.
  destruct (Z.ltb_spec total 1); [lia|]. destruct (Z.ltb_spec 15 total); [lia|]. cbn [orb].
  destruct (Z.eqb_spec total 1) as [H1|H1].
  - exists c. assert (Hl1 : length ps = 1%nat) by (unfold zlen in Hlen; lia). rewrite Hl1.
    assert (k = 0%nat) as -> by lia. split; [done|]. split_and!; done.
  - rewrite <- Hlen. unfold zlen.
    destruct (collect_spec rp (length ps) rp_valid idx c [k] [frag_num (rp k)] (collect_fuel c []) t')
      as (js & c' & Hc & Hp & Hqo); [done|done|apply NoDup_singleton| |done| |].
    { cbn. rewrite (proj2 (rp_valid k Hk)). done. }
    { unfold collect_fuel. rewrite Hq, length_map. lia. }
    exists c'. change [rp k] with (map rp [k]). rewrite Hc. split; [|done]. f_equal. f_equal.
    apply sort_fragments_seq; [done|]. intros j Hj. by apply rp_valid.
Qed.
End Fragments.

(** What [sendSessionConfirmed] would do with another RouterInfo in place of the router hash.
    The code has no such function; it is here to show what the hash changes. *)
Definition send_confirmed_with (c : HConn) (routerInfo rnd : bytes) (net_ok : bool) (now : Z)
    : HConn * result ConnHandshakeError (list bytes) :=
  match CreateSessionConfirmedFragments (handler c) (remoteConnectionID (out (conn c))) 0 routerInfo rnd with
  | (h, Err e) => (set_hh c h, Err (EHandler e))
  | (h, Ok fragments) => send_fragments (set_hh c h) fragments net_ok now
  end.

(** The SessionConfirmed, with fragments arriving in any order and repeatedly. *)
Lemma confirmed_step pa a b created ri rnd idx t t' :
  initiator (handler a) = true -> initiator (handler b) = false -> in_step pa 2 (handshakeState (handler a)) (handshakeState (handler b)) ->
  bare (conn a) -> bare (conn b) -> recvQueue (conn b) = [] -> 0 < HandshakeTimeout (config b) <= maxDuration ->
  confirmed_size_ok (confirmed_size ri) -> length pa = 32%nat ->
  (forall k, k ∈ idx <-> Z.of_nat k * 1216 < confirmed_size ri) -> (length idx <= recvQueueCap)%nat ->
  exists i r c1 c2 sa ds b', send_confirmed_with a ri rnd true t
      = (set_conn (set_hh a (SSU2Handshake.set_ciphers (set_hs (handler a) i) (Some c1) (Some c2))) sa, Ok ds)
    /\ core (conn a) sa
    /\ receiveAndProcessSessionConfirmed b created true [mkWait (omap (fun k => ds !! k) idx) None] [] t'
      = (b', [], option_map EHandler (verifyPeerRouterInfoStaticKey ri pa))
    /\ queue_only b (set_hh b' (handler b))
    /\ handler b' = set_peer (SSU2Handshake.set_ciphers (set_hs (handler b) r) (Some c2) (Some c1)) pa (peerOptions (handler b)) ri.
Proof.
  intros Ha Hb Hst Hba Hbb Hq Hto Hsz Hpa Hall Hcap.
  destruct (confirmed_exchange pa (handler a) (handler b) (remoteConnectionID (out (conn a))) 0 ri rnd Ha Hb Hst Hsz Hpa)
    as (i & r & c1 & c2 & ps & total & Hcr & Ht & Hlen & Hsize & Hfr & Hproc).
  assert (Hin : forall k, k ∈ idx <-> (k < length ps)%nat) by (intros k; rewrite Hall; unfold zlen in Hlen; lia).
  assert (Hidx : Forall (fun k => k < length ps)%nat idx) by (apply Forall_forall; intros k; apply Hin).
  set (a1 := set_hh a (SSU2Handshake.set_ciphers (set_hs (handler a) i) (Some c1) (Some c2))).
  destruct (send_fragments_spec a1 ps t Hba) as (sa & Hsend & Hca & _).
  { apply Forall_forall. intros p [k Hk]%list_elem_of_lookup. destruct (Hfr k p Hk) as [Hw Hty _ _ _]. split; [done|by right; right]. }
  destruct (deliver_spec b (map (nth_packet ps) idx) t' Hbb) as (sb & Hd & Hcb & Hqb);
    [by eapply nth_deliverable|rewrite Hq, length_map; cbn; lia|].
  rewrite Hq, map_map in Hqb. change (map (fun k => received (nth_packet ps k) t') idx) with (map (rp ps t') idx) in Hqb.
  destruct idx as [|k idx]; [specialize (proj2 (Hin 0%nat)); intros Hz; unfold zlen in Hlen; apply not_elem_of_nil in Hz; [done|lia]|].
  cbn [map app] in Hqb. set (b1 := set_conn b (set_recvQueue sb (map (rp ps t') idx))).
  assert (Hrecv : receivePacketWithTimeout b (mkWait (map sections (map (nth_packet ps) (k :: idx))) None) t' = (b1, Ok (rp ps t' k))).
  { unfold receivePacketWithTimeout. cbn [arrives]. rewrite Hd. cbn [conn set_conn]. by rewrite Hqb. }
  destruct (collect_confirmed _ total ps t' Ht Hlen Hfr b1 k idx) as (b2 & Hcol & Hqo); [done|done|intros j; apply Hin|].
  assert (Hqo1 : queue_only b b1) by (split_and!; done).
  pose proof (queue_only_trans _ _ _ Hqo1 Hqo) as Hqo2. destruct Hqo2 as (Hh2 & Hqo2).
  assert (Hproc2 : ProcessSessionConfirmedFragments (handler b) (map (rp ps t') (seq 0 (length ps)))
    = (set_peer (SSU2Handshake.set_ciphers (set_hs (handler b) r) (Some c2) (Some c1)) pa (peerOptions (handler b)) ri,
       verifyPeerRouterInfoStaticKey ri pa)).
  { apply Hproc. rewrite <- (nth_packets ps) at 1. generalize (seq 0 (length ps)). intros l. induction l; constructor; [by eexists|done]. }
  exists i, r, c1, c2, sa, (map sections ps), (set_hh b2 (set_peer (SSU2Handshake.set_ciphers (set_hs (handler b) r) (Some c2) (Some c1)) pa
    (peerOptions (handler b)) ri)).
  split_and!; [|done| | |done].
  - unfold send_confirmed_with. rewrite Hcr. exact Hsend.
  - unfold receiveAndProcessSessionConfirmed. rewrite arrivals_packets by done.
    rewrite (await_first _ _ _ _ _ _ _ _ _ Hto Hrecv). destruct (nth_fragment _ total ps Hfr k) as [_ Hty _ _ _]; [apply Hin; by left|].
    rewrite decide_False by (unfold rp; cbn [received MessageType]; rewrite Hty; by intros []).
    rewrite Hcol, Hh2, Hproc2. done.
  - split; [done|]. exact Hqo2.
Qed.

(** ** Completion at both ends *)

Lemma negotiated_frame c :
  conn (applyNegotiatedPadding c) = conn c /\ handler (applyNegotiatedPadding c) = handler c /\ state (applyNegotiatedPadding c) = state c.
Proof. unfold applyNegotiatedPadding. by destruct (NegotiatedPadding _ _). Qed.

Lemma sip_keys h1 h2 :
  exists m1 m2, deriveSipHashModifier h1 h2 = Some m1 /\ deriveSipHashModifier h2 h1 = Some m2
    /\ outboundKeys m1 = inboundKeys m2 /\ outboundIV m1 = inboundIV m2 /\ inboundKeys m1 = outboundKeys m2 /\ inboundIV m1 = outboundIV m2.
Proof.
  unfold deriveSipHashModifier.
  destruct (hkdf_derive_ok h1 "SipHashKey" 16) as (k1 & -> & _); [lia|]. destruct (hkdf_derive_ok h1 "SipHashIV" 8) as (v1 & -> & _); [lia|].
  destruct (hkdf_derive_ok h2 "SipHashKey" 16) as (k2 & -> & _); [lia|]. destruct (hkdf_derive_ok h2 "SipHashIV" 8) as (v2 & -> & _); [lia|].
  eexists _, _. done.
Qed.

(** What an end has after [finalizeHandshake]. *)
Lemma finalize_spec c s r h' k1 k2 h1 h2 m :
  bare (conn c) -> sendCipher (handler c) = Some s -> recvCipher (handler c) = Some r -> validatePeerRouterInfo c = None ->
  DeriveHeaderKeys (handler c) = (h', Ok (h1, h2)) -> h' = SSU2Handshake.set_ciphers (handler c) (Some k1) (Some k2) ->
  deriveSipHashModifier h1 h2 = Some m ->
  exists c', finalizeHandshake c = (c', None) /\ handler c' = h' /\ state c' = StateEstablished /\ established (conn c') = true
    /\ Session.sendCipher (conn c') = Some k1 /\ Session.recvCipher (conn c') = Some k2 /\ headerProtector (conn c') = None
    /\ sipHashModifier (conn c') = Some m /\ out (conn c') = out (conn c).
Proof.
  intros [Hh _] Hs Hr Hv Hd -> Hm. unfold finalizeHandshake, IsHandshakeComplete. rewrite Hs, Hr. cbn [andb negb].
  rewrite !bool_decide_eq_true_2 by eauto. cbn [andb negb]. unfold installCipherStates, GetCipherStates, IsHandshakeComplete.
  rewrite Hs, Hr, !bool_decide_eq_true_2 by eauto. cbn [andb].
  assert (Hv' : validatePeerRouterInfo (share_ciphers c) = None) by exact Hv. rewrite Hv'.
  unfold Conn_deriveDataPhaseKeys. change (handler (share_ciphers c)) with (handler c). rewrite Hd.
  change (headerProtector (conn (share_ciphers (set_hh (share_ciphers c) (SSU2Handshake.set_ciphers (handler c) (Some k1) (Some k2))))))
    with (headerProtector (conn c)). rewrite Hh, Hm.
  eexists. split; [done|]. set (c1 := mkHConn _ _ _ _ _). destruct (negotiated_frame c1) as (-> & -> & ->). done.
Qed.

Lemma finalize_pair a b c1 c2 :
  bare (conn a) -> bare (conn b) -> sendCipher (handler a) = Some c1 -> recvCipher (handler a) = Some c2 ->
  sendCipher (handler b) = Some c2 -> recvCipher (handler b) = Some c1 ->
  validatePeerRouterInfo a = None -> validatePeerRouterInfo b = None ->
  exists a' b' ma mb, finalizeHandshake a = (a', None) /\ finalizeHandshake b = (b', None)
    /\ linked (conn a') (conn b') /\ linked (conn b') (conn a') /\ state a' = StateEstablished /\ state b' = StateEstablished
    /\ out (conn a') = out (conn a) /\ out (conn b') = out (conn b)
    /\ remoteStaticKey (handler b') = remoteStaticKey (handler b) /\ peerRouterInfo (handler b') = peerRouterInfo (handler b)
    /\ sipHashModifier (conn a') = Some ma /\ sipHashModifier (conn b') = Some mb
    /\ outboundKeys ma = inboundKeys mb /\ outboundIV ma = inboundIV mb /\ inboundKeys ma = outboundKeys mb /\ inboundIV ma = outboundIV mb.
Proof.
  intros Hba Hbb H1 H2 H3 H4 Hva Hvb.
  destruct (derived_keys_agree (handler a) (handler b) c1 c2 H1 H2 H3 H4) as (k1 & k2 & h1 & h2 & Hda & Hdb & _ & _).
  destruct (sip_keys h1 h2) as (ma & mb & Hma & Hmb & Hsip).
  destruct (finalize_spec a c1 c2 _ _ _ _ _ _ Hba H1 H2 Hva Hda eq_refl Hma) as (a' & Hfa & Hha & Hsta & Hea & Hsa & Hra & Hpa & Hsma & Hoa).
  destruct (finalize_spec b c2 c1 _ _ _ _ _ _ Hbb H3 H4 Hvb Hdb eq_refl Hmb) as (b' & Hfb & Hhb & Hstb & Heb & Hsb & Hrb & Hpb & Hsmb & Hob).
  exists a', b', ma, mb. unfold linked. rewrite Hea, Heb, Hsa, Hra, Hsb, Hrb, Hpa, Hpb, Hhb.
  split_and!; try done; eauto; apply Hsip.
Qed.

(** ** The whole handshake *)

(** What the environment supplies: random bytes, clock readings, the RouterInfo of
    the initiator and the order in which its fragments arrive. *)
Record Exchange := mkExchange {
  rnd_request : bytes;
  rnd_created : bytes;
  rnd_confirmed : bytes;
  t_request : Z;
  t_received : Z;
  t_processed : Z;
  t_confirmed : Z;
  router_info : bytes;
  fragment_arrivals : list nat;
}.

(** The steps of [handshakeInitiator] and [handshakeResponder], in the order in
    which the messages let them run: the first two messages, *)
Definition exchange_keys (x : Exchange) (a b : HConn) : option (HConn * HConn * SSU2Packet) :=
  match sendSessionRequest a (rnd_request x) true (t_request x) with
  | (_, Err _) => None
  | (a, Ok (request, d1)) =>
  match receiveSessionRequest b (mkWait [d1] None) (t_received x) with
  | (_, Err _) => None
  | (b, Ok initiatorConnID) =>
  match createAndSendSessionCreated b initiatorConnID (rnd_created x) true (t_received x) with
  | (_, Err _) => None
  | (b, Ok (created, d2)) =>
  match awaitSessionCreated a request [] true [mkWait [d2] None] [] (t_request x) with
  | (_, _, Err _) => None
  | (a, _, Ok response) =>
  match processSessionCreated a response (t_processed x) with
  | (_, Some _) => None
  | (a, None) => Some (a, b, created)
  end end end end end.

(** and the third with the completion, with the RouterInfo of [x] in place of the router hash. *)
Definition exchange_confirmed (x : Exchange) (a b : HConn) (created : SSU2Packet) : option (HConn * HConn) :=
  match send_confirmed_with a (router_info x) (rnd_confirmed x) true (t_processed x) with
  | (_, Err _) => None
  | (a, Ok ds) =>
  match receiveAndProcessSessionConfirmed b created true [mkWait (omap (fun k => ds !! k) (fragment_arrivals x)) None] [] (t_confirmed x) with
  | (_, _, Some _) => None
  | (b, _, None) =>
  match finalizeHandshake a, finalizeHandshake b with
  | (a, None), (b, None) => Some (a, b)
  | _, _ => None
  end end end.

Definition exchange (x : Exchange) (a b : HConn) : option (HConn * HConn) :=
  match exchange_keys x a b with
  | Some (a, b, created) => exchange_confirmed x a b created
  | None => None
  end.

(** A connection before its handshake, without header protection. *)
Record new_conn (c : HConn) : Prop := {
  new_bare : bare (conn c);
  new_queue : recvQueue (conn c) = [];
  new_id : 0 < ConnectionID (config c) < 2 ^ 64;
  new_timeout : 0 < HandshakeTimeout (config c) <= maxDuration;
}.

Lemma build_fields init priv remote ttl skew ratio h :
  buildHandshakeHandler init priv remote ttl skew ratio = Ok h ->
  exists pub, x25519_base priv = Some pub
    /\ NewHandshakeState init priv pub (if init then default [] remote else []) [] = Some (handshakeState h)
    /\ initiator h = init /\ peerRouterInfo h = [] /\ forall c, replayCache h = Some c -> entries c = ∅.
Proof.
  unfold buildHandshakeHandler, NewHandshakeHandler. destruct (negb _); [done|]. destruct (checkRemoteKey _ _); [done|].
  destruct (x25519_base priv) as [pub|]; [|done]. unfold newHandler. destruct (NewHandshakeState _ _ _ _ _) as [hs|] eqn:E; [|done].
  intros <-%Ok_inj. exists pub. destruct ((0 <? ttl) && negb init) eqn:Ht.
  - cbn. split_and!; try done. by intros c [= <-].
  - cbn. split_and!; try done. intros c. destruct init; [done|]. by intros [= <-].
Qed.

Lemma verified ri pa : (ri = [] \/ Contains ri (base64 pa) = true) -> verifyPeerRouterInfoStaticKey ri pa = None.
Proof.
  intros Hri. unfold verifyPeerRouterInfoStaticKey. case_decide; [done|]. destruct (negb _); [done|].
  destruct Hri as [-> | ->]; done.
Qed.

Lemma no_router_info c : peerRouterInfo (handler c) = [] -> validatePeerRouterInfo c = None.
Proof. intros Hri. unfold validatePeerRouterInfo. destruct (negb _); [done|]. rewrite Hri. by destruct (RouterInfoValidator _). Qed.

(** The two ends after the first two messages. *)
Record keys_exchanged (pa : bytes) (a b a' b' : HConn) : Prop := {
  ke_init : initiator (handler a') = true /\ initiator (handler b') = false;
  ke_step : in_step pa 2 (handshakeState (handler a')) (handshakeState (handler b'));
  ke_bare : bare (conn a') /\ bare (conn b');
  ke_queue : recvQueue (conn b') = [];
  ke_config : config a' = config a /\ config b' = config b;
  ke_ri : peerRouterInfo (handler a') = [];
  ke_ids : remoteConnectionID (out (conn a')) = ConnectionID (config b)
    /\ remoteConnectionID (out (conn b')) = ConnectionID (config a);
}.

(** What a connection holds after it has sent, or taken, one of these messages. *)
Lemma sent_fields c h s :
  handler (set_conn (set_hh c h) s) = h /\ conn (set_conn (set_hh c h) s) = s /\ config (set_conn (set_hh c h) s) = config c.
Proof. done. Qed.

Lemma taken_fields c h o s id (c' := set_remote_id (set_conn (set_hh c (set_peer_options h o)) s) id) :
  initiator (handler c') = initiator h /\ handshakeState (handler c') = handshakeState h /\ peerRouterInfo (handler c') = peerRouterInfo h
  /\ recvQueue (conn c') = recvQueue s /\ config c' = config c /\ remoteConnectionID (out (conn c')) = id
  /\ (bare s -> bare (conn c')).
Proof. done. Qed.

Lemma exchange_keys_spec pa x a b :
  initiator (handler a) = true -> initiator (handler b) = false -> in_step pa 0 (handshakeState (handler a)) (handshakeState (handler b)) ->
  (forall c, replayCache (handler b) = Some c -> entries c = ∅) -> peerRouterInfo (handler a) = [] -> new_conn a -> new_conn b ->
  length (rnd_request x) = 32%nat -> length (rnd_created x) = 32%nat ->
  clock_ok (handler b) (t_request x) (t_received x) -> clock_ok (handler a) (t_received x) (t_processed x) ->
  exists a' b' p, exchange_keys x a b = Some (a', b', p) /\ keys_exchanged pa a b a' b'.
Proof.
  intros Hia Hib Hst0 Hrc Hria [Hba Hqa Hida Htoa] [Hbb Hqb Hidb Htob] Hr1 Hr2 Hck1 Hck2.
  destruct (request_step pa a b (rnd_request x) (t_request x) (t_received x))
    as (i1 & r1 & oa & sa1 & sb1 & p1 & b0 & Hs1 & Hty1 & Hca1 & Hqa1 & Hrcv1 & Hcb1 & Hqb1 & Hst1 & Ho1 & Hb0); try done; [lia|].
  pose proof (core_bare _ _ Hca1 Hba) as Hba1. pose proof (core_bare _ _ Hcb1 Hbb) as Hbb1.
  destruct (advanced_fields (handler a) i1 MessageTypeSessionRequest) as (Hf1 & Hf2 & Hf3 & Hf4 & Hf5 & Hf6 & _ & _).
  destruct (advanced_fields b0 r1 MessageTypeSessionRequest) as (Hg1 & Hg2 & _ & _ & _ & _ & _ & _).
  assert (Hib0 : initiator b0 = false) by (rewrite Hb0; exact Hib).
  destruct (sent_fields a (advanced (handler a) i1 MessageTypeSessionRequest) sa1) as (Ha1 & Hs1c & Hcf1).
  destruct (taken_fields b (advanced b0 r1 MessageTypeSessionRequest) oa sb1 (ConnectionID (config a)))
    as (Hb1 & Hb2 & _ & Hb3 & Hb4 & Hb5 & Hb6).
  set (a1 := set_conn _ _) in *. set (b1 := set_remote_id _ _) in *. clearbody a1 b1.
  destruct (created_step pa a1 b1 p1 (rnd_created x) (t_received x) (t_request x) (t_processed x))
    as (i2 & r2 & ob & sa2 & sb2 & p2 & Hs2 & Hty2 & Hcb2 & Hqb2 & Haw & Hpr & Hca2 & Hqa2 & Hst2 & Ho2);
    rewrite ?Ha1, ?Hs1c, ?Hcf1, ?Hb1, ?Hb2, ?Hb4; try (by first [done | congruence | lia]).
  { by apply Hb6. }
  rewrite Hcf1 in Hs2. rewrite Hb4 in Hpr.
  destruct (advanced_fields (handler a1) i2 MessageTypeSessionCreated) as (Hf1' & Hf2' & _ & _ & _ & Hf6' & _ & _).
  destruct (advanced_fields (handler b1) r2 MessageTypeSessionCreated) as (Hg1' & Hg2' & _ & _ & _ & _ & _ & _).
  destruct (sent_fields b1 (advanced (handler b1) r2 MessageTypeSessionCreated) sb2) as (Hb1' & Hb2' & Hb3').
  destruct (taken_fields a1 (advanced (handler a1) i2 MessageTypeSessionCreated) ob sa2 (ConnectionID (config b)))
    as (Ha1' & Ha2' & Ha3' & Ha4' & Ha5' & Ha6' & Ha7').
  set (b2 := set_conn _ _) in *. set (a2 := set_remote_id _ _) in *. clearbody a2 b2. exists a2, b2, p2. split.
  { unfold exchange_keys. by rewrite Hs1, Hrcv1, Hs2, Haw, Hpr. }
  assert (Hbb2 : bare (conn b1)) by by apply Hb6. rewrite Hs1c in Hca2.
  split; [by split; congruence|by rewrite Ha2', Hf2', Hb1', Hg2'| |by congruence|by split; congruence|by congruence|].
  - split; [by apply Ha7', (core_bare _ _ Hca2)|rewrite Hb2'; by apply (core_bare _ _ Hcb2)].
  - split; [done|]. destruct Hcb2 as (_ & _ & Hout). by rewrite Hb2', Hout.
Qed.

(** New connections get there. *)
Lemma built_keys x a b sa sb pa pb ttlA ttlB skewA skewB ratioA ratioB :
  buildHandshakeHandler true sa (Some pb) ttlA skewA ratioA = Ok (handler a) ->
  buildHandshakeHandler false sb None ttlB skewB ratioB = Ok (handler b) ->
  x25519_base sa = Some pa -> x25519_base sb = Some pb -> new_conn a -> new_conn b ->
  length (rnd_request x) = 32%nat -> length (rnd_created x) = 32%nat ->
  clock_ok (handler b) (t_request x) (t_received x) -> clock_ok (handler a) (t_received x) (t_processed x) ->
  length pa = 32%nat /\ exists a' b' p, exchange_keys x a b = Some (a', b', p) /\ keys_exchanged pa a b a' b'.
Proof.
  intros Hha Hhb Hpa Hpb Hna Hnb Hr1 Hr2 Hck1 Hck2. split; [exact (x25519_base_length _ _ Hpa)|].
  destruct (build_fields _ _ _ _ _ _ _ Hha) as (pub & Hpub & Hsa & Hia & Hria & _). rewrite Hpa in Hpub. injection Hpub as <-.
  destruct (build_fields _ _ _ _ _ _ _ Hhb) as (pub & Hpub & Hsb & Hib & _ & Hrc). rewrite Hpb in Hpub. injection Hpub as <-.
  pose proof (new_in_step _ _ _ _ _ _ _ Hpa Hpb Hsa Hsb) as Hst0. by apply exchange_keys_spec.
Qed.

(** C24: [collectConfirmedFragments] returns, whatever arrives: it takes at most
    the packets that are queued or arrive, and every turn of its loop takes one. When
    it succeeds for a first packet with a header, it returns as many fragments as the
    header announces, all of this total, with distinct numbers in increasing order,
    the first packet among them. *)
Theorem collect_terminates (c : HConn) (first : SSU2Packet) (waits : list Wait) (now : Z) :
  exists c' r, collectConfirmedFragments c first waits now = (c', r) /\ r <> Err EOutOfFuel
    /\ forall l, r = Ok l -> (14 <= length (Header first))%nat ->
       zlen l = frag_total first /\ first ∈ l /\ Forall (fun f => frag_total f = frag_total first) l
       /\ StronglySorted (fun f g => frag_num f < frag_num g) l.
Proof.
  unfold collectConfirmedFragments. case_decide as Hh.
  { eexists _, _. split; [done|]. split; [done|]. intros l _. lia. }
  destruct (_ || _) eqn:Hb; [by eexists _, _|]. apply orb_false_iff in Hb as [Hb1 Hb2].
  destruct (Z.eqb_spec (frag_total first) 1) as [H1|H1].
  { eexists _, _. split; [done|]. split; [done|]. intros l <-%Ok_inj _. rewrite H1. split_and!; [done|by left| |by repeat constructor].
    by apply Forall_singleton. }
  destruct (collect_loop _ _ _ _ _ _ _) as [c' r] eqn:Hr. apply collect_returns in Hr as [Hf Hl].
  - exists c', r. split; [done|]. split; [done|]. intros l Hrl _. destruct (Hl l Hrl) as (seen & fs & -> & Hsub & (Hn & Hp & _ & Ht) & Hz).
    destruct (sort_fragments_spec fs) as [Hperm Hsort]. split_and!.
    + rewrite <- Hz. unfold zlen. by rewrite Hperm, Hp, length_map.
    + rewrite Hperm. apply (sublist_subseteq _ _ Hsub). by left.
    + by rewrite Hperm.
    + apply strictly_sorted; [done|]. change (map frag_num) with (fmap (M:=list) frag_num) in Hp. by rewrite Hperm, <- Hp.
  - split_and!; [apply NoDup_singleton|done|unfold zlen; cbn; lia|by apply Forall_singleton].
  - unfold collect_fuel. lia.
Qed.

Lemma handshake_completes (x : Exchange) (a b : HConn) (sa sb pa pb : bytes) (ttlA ttlB skewA skewB : Z) (ratioA ratioB : float64) :
  buildHandshakeHandler true sa (Some pb) ttlA skewA ratioA = Ok (handler a) ->
  buildHandshakeHandler false sb None ttlB skewB ratioB = Ok (handler b) ->
  x25519_base sa = Some pa -> x25519_base sb = Some pb -> new_conn a -> new_conn b ->
  length (rnd_request x) = 32%nat -> length (rnd_created x) = 32%nat ->
  clock_ok (handler b) (t_request x) (t_received x) -> clock_ok (handler a) (t_received x) (t_processed x) ->
  let ri := router_info x in
  confirmed_size_ok (confirmed_size ri) -> (ri = [] \/ Contains ri (base64 pa) = true) ->
  (forall validate, RouterInfoValidator (config b) = Some validate -> validate ri pa = true) ->
  (forall k, k ∈ fragment_arrivals x <-> Z.of_nat k * 1216 < confirmed_size ri) ->
  (length (fragment_arrivals x) <= recvQueueCap)%nat ->
  exists a' b' ma mb, exchange x a b = Some (a', b') /\ linked (conn a') (conn b') /\ linked (conn b') (conn a')
    /\ state a' = StateEstablished /\ state b' = StateEstablished
    /\ remoteConnectionID (out (conn a')) = ConnectionID (config b) /\ remoteConnectionID (out (conn b')) = ConnectionID (config a)
    /\ remoteStaticKey (handler b') = pa /\ peerRouterInfo (handler b') = ri
    /\ sipHashModifier (conn a') = Some ma /\ sipHashModifier (conn b') = Some mb
    /\ outboundKeys ma = inboundKeys mb /\ outboundIV ma = inboundIV mb /\ inboundKeys ma = outboundKeys mb /\ inboundIV ma = outboundIV mb.
Proof.
  intros Hha Hhb Hpa Hpb Hna Hnb Hr1 Hr2 Hck1 Hck2 ri Hsz Hadv Hval Harr Hcap.
  destruct (built_keys x a b sa sb pa pb ttlA ttlB skewA skewB ratioA ratioB)
    as (Hlen & a2 & b2 & p2 & Hkeys & [[Hi1 Hi2] Hst2 [Hba2 Hbb2] Hq2 [Hcfa Hcfb] Hri2 [Hid1 Hid2]]); try done.
  destruct (confirmed_step pa a2 b2 p2 ri (rnd_confirmed x) (fragment_arrivals x) (t_processed x) (t_confirmed x))
    as (i3 & r3 & c1 & c2 & sa3 & ds & b3 & Hs3 & Hca3 & Hrcv3 & (_ & Hcf3 & _ & _ & Hcb3) & Hhb3); try done.
  { rewrite Hcfb. apply Hnb. }
  rewrite (verified ri pa Hadv) in Hrcv3. cbn [option_map] in Hrcv3. set (a3 := set_conn _ _) in Hs3.
  destruct (finalize_pair a3 b3 c1 c2) as (a' & b' & ma & mb & Hfa & Hfb & Hl1 & Hl2 & Hst1 & Hst3 & Hoa & Hob & Hrk & Hrri & Hsip);
    [exact (core_bare _ _ Hca3 Hba2)|exact (core_bare _ _ Hcb3 Hbb2)|done|done|by rewrite Hhb3|by rewrite Hhb3| | |].
  { apply no_router_info. exact Hri2. }
  { unfold validatePeerRouterInfo. destruct (negb _); [done|]. cbn [set_hh config] in Hcf3. rewrite Hcf3, Hcfb, Hhb3. cbn [peerRouterInfo remoteStaticKey set_peer].
    destruct (RouterInfoValidator (config b)) as [v|] eqn:Hv; [|done]. case_decide; [done|]. by rewrite (Hval v eq_refl). }
  exists a', b', ma, mb. split.
  { unfold exchange. rewrite Hkeys. unfold exchange_confirmed. fold ri. by rewrite Hs3, Hrcv3, Hfa, Hfb. }
  destruct Hca3 as (_ & _ & Hout3). destruct Hcb3 as (_ & _ & Hout3'). cbn [set_hh conn] in Hout3'.
  rewrite Hoa, Hob, Hrk, Hrri, Hhb3, Hout3'. cbn [a3 conn set_conn out]. rewrite Hout3.
  split_and!; try done; apply Hsip.
Qed.

(** The RouterInfo is all that is missing: if the initiator sent one, two new
    connections, of which the initiator knows the static key of the responder, with
    clocks within the allowed skew, would complete the handshake in three messages,
    whatever order the fragments of the third arrive in and however often. Both would
    then be established with the same keys in each direction, for the payload and for
    the length masks, each knowing the connection ID of the other, and the responder
    having the static key of the initiator and its RouterInfo. *)
Lemma ssu2_handshake (x : Exchange) (a b : HConn) (sa sb pa pb : bytes) (ttlA ttlB skewA skewB : Z) (ratioA ratioB : float64) :
  buildHandshakeHandler true sa (Some pb) ttlA skewA ratioA = Ok (handler a) ->
  buildHandshakeHandler false sb None ttlB skewB ratioB = Ok (handler b) ->
  x25519_base sa = Some pa -> x25519_base sb = Some pb -> new_conn a -> new_conn b ->
  length (rnd_request x) = 32%nat -> length (rnd_created x) = 32%nat ->
  clock_ok (handler b) (t_request x) (t_received x) -> clock_ok (handler a) (t_received x) (t_processed x) ->
  let ri := router_info x in
  confirmed_size_ok (confirmed_size ri) -> (ri = [] \/ Contains ri (base64 pa) = true) ->
  (forall validate, RouterInfoValidator (config b) = Some validate -> validate ri pa = true) ->
  (forall k, k ∈ fragment_arrivals x <-> Z.of_nat k * 1216 < confirmed_size ri) ->
  (length (fragment_arrivals x) <= recvQueueCap)%nat ->
  exists a' b' ma mb, exchange x a b = Some (a', b') /\ linked (conn a') (conn b') /\ linked (conn b') (conn a')
    /\ state a' = StateEstablished /\ state b' = StateEstablished
    /\ remoteConnectionID (out (conn a')) = ConnectionID (config b) /\ remoteConnectionID (out (conn b')) = ConnectionID (config a)
    /\ remoteStaticKey (handler b') = pa /\ peerRouterInfo (handler b') = ri
    /\ sipHashModifier (conn a') = Some ma /\ sipHashModifier (conn b') = Some mb
    /\ outboundKeys ma = inboundKeys mb /\ outboundIV ma = inboundIV mb /\ inboundKeys ma = outboundKeys mb /\ inboundIV ma = outboundIV mb.
Proof. intros. by eapply handshake_completes. Qed.

(** ** Retransmission *)

(** The times of the attempts of a schedule. *)
Fixpoint attempt_times (now : Z) (schedule : list Z) : list Z :=
  match schedule with
  | [] => []
  | interval :: schedule => now + interval :: attempt_times (now + interval) schedule
  end.

(** The datagram of a handshake packet depends on the header keys only. *)
Definition handshake_datagram (s : Conn CipherState) (p : SSU2Packet) : option bytes :=
  match Packet.Serialize p with
  | (_, Ok d) => outbound_protection s (MessageType p) d
  | (_, Err _) => None
  end.

Lemma hsend_datagram c p net_ok now c' d :
  MessageType p <> MessageTypeData -> hsend c p net_ok now = (c', Ok d) -> handshake_datagram (conn c) p = Some d.
Proof.
  intros Ht. unfold hsend, send_packet. rewrite bool_decide_eq_false_2 by done. cbn [andb].
  replace (match sipHashModifier (conn c) with Some _ => _ | None => _ end) with (conn c, None : option Z) by by destruct (sipHashModifier _).
  unfold sendPacketDirect. set (env := mkEnv _ _ _ _).
  rewrite (encrypt_handshake env p Ht). change (applySipHashObfuscation env p) with p. unfold handshake_datagram.
  destruct (Packet.Serialize p) as [p' [d'|e]] eqn:Es; [|done].
  change (protect env d') with (outbound_protection (conn c) (MessageType p) d').
  destruct (outbound_protection _ _ _) as [d2|]; [|done]. destruct (negb _); [done|]. by intros [= _ ->].
Qed.

Lemma datagram_kept s s' p : headerProtector s' = headerProtector s -> handshake_datagram s' p = handshake_datagram s p.
Proof. intros Hh. unfold handshake_datagram, outbound_protection. by rewrite Hh. Qed.

Lemma hsend_kept c p net_ok now : headerProtector (conn (hsend c p net_ok now).1) = headerProtector (conn c).
Proof. unfold hsend. pose proof (send_packet_kept (conn c) net_ok now p) as [_ Hk]. by destruct (send_packet _ _ _ _). Qed.

Lemma receive_wait_kept c w now : headerProtector (conn (receivePacketWithTimeout c w now).1) = headerProtector (conn c).
Proof.
  unfold receivePacketWithTimeout. destruct (deliver_kept c (arrives w) now) as [Hk _].
  by destruct (recvQueue (conn (deliver cbs c (arrives w) now))).
Qed.

Lemma next_wait_in waits w waits' : next_wait waits = (w, waits') -> interrupted w = None \/ w ∈ waits.
Proof. destruct waits as [|w0 waits]; intros [= <- <-]; [by left|right; by left]. Qed.

Lemma next_wait_rest waits w waits' w1 : next_wait waits = (w, waits') -> w1 ∈ waits' -> w1 ∈ waits.
Proof. destruct waits as [|w0 waits]; intros [= <- <-]; [done|by right]. Qed.

(** Why and when the attempts end. *)
Definition ends (waits : list Wait) (deadline ended : Z) (r : result ConnHandshakeError SSU2Packet) : Prop :=
  match r with
  | Ok _ => ended < deadline
  | Err e => e = EHandshakeTimeout /\ ended = deadline
             \/ ended < deadline /\ exists w i, w ∈ waits /\ interrupted w = Some i /\ e = interruption_error i
  end.

Lemma ends_rest waits w waits' deadline ended r : next_wait waits = (w, waits') -> ends waits' deadline ended r -> ends waits deadline ended r.
Proof.
  intros Hw. destruct r as [p|e]; [done|]. intros [?|(Hl & w1 & i & Hin & ? & ?)]; [by left|right].
  split; [done|]. exists w1, i. split; [by eapply next_wait_rest|done].
Qed.

Lemma wait_remaining deadline now : now <= deadline -> deadline - now <= maxDuration -> time_sub deadline now = deadline - now.
Proof. unfold time_sub, minDuration, maxDuration. lia. Qed.

(** At the deadline the loop gives up. *)
Lemma attempts_over slots deadline c p net_ok waits :
  retransmit_attempts slots deadline c p net_ok waits deadline = (c, [], deadline, Err EHandshakeTimeout).
Proof. destruct slots as [|o slots]; [done|]. cbn [retransmit_attempts]. unfold time_sub. by rewrite Z.sub_diag. Qed.

Lemma attempts_spec schedule deadline c p net_ok waits now c' sent ended r :
  MessageType p <> MessageTypeData -> Forall (fun i => 0 < i) schedule -> now <= deadline -> deadline - now <= maxDuration ->
  retransmit_attempts (map Some schedule ++ [None]) deadline c p net_ok waits now = (c', sent, ended, r) ->
  map fst sent `sublist_of` map (Z.min deadline) (attempt_times now schedule)
  /\ Forall (fun x => handshake_datagram (conn c) p = Some x.2) sent
  /\ ends waits deadline ended r.
Proof.
  intros Ht Hpos. revert c waits now c' sent ended r. induction schedule as [|i schedule IH]; intros c waits now c' sent ended r Hle Hd.
  all: destruct (decide (now = deadline)) as [->|Hne];
    [rewrite attempts_over; intros [= <- <- <- <-]; split_and!; [apply sublist_nil_l|done|by left]|].
  all: cbn [map app retransmit_attempts]; rewrite (wait_remaining _ _ Hle Hd), (proj2 (Z.leb_gt (deadline - now) 0)) by lia.
  all: destruct (next_wait waits) as [w waits'] eqn:Ew; pose proof (next_wait_in _ _ _ Ew) as Hw.
  all: pose proof (receive_wait_kept c w now) as Hk1; destruct (receivePacketWithTimeout c w now) as [c1 [pkt|e1]]; cbn [fst] in Hk1;
    [intros [= <- <- <- <-]; split_and!; [apply sublist_nil_l|done|cbn; lia]|].
  all: destruct (interrupted w) as [j|] eqn:Ej;
    [intros [= <- <- <- <-]; split_and!; [apply sublist_nil_l|done|]; destruct Hw as [Hw|Hw]; [done|];
     right; split; [lia|]; by exists w, j|].
  - intros [= <- <- <- <-]. split_and!; [done|done|]. left. split; [done|].
    unfold retransmitWait. change (default _ None) with (deadline - now). rewrite Z.ltb_irrefl. lia.
  - inversion_clear Hpos as [|? ? Hi Hpos']. specialize (IH Hpos').
    assert (Hnow : now + retransmitWait (Some i) (deadline - now) = Z.min deadline (now + i)).
    { unfold retransmitWait. change (default _ (Some i)) with i. destruct (Z.ltb_spec (deadline - now) i); lia. }
    rewrite Hnow. set (now1 := Z.min deadline (now + i)) in *.
    pose proof (hsend_datagram c1 p net_ok now1) as Hd1. pose proof (hsend_kept c1 p net_ok now1) as Hk2.
    destruct (hsend c1 p net_ok now1) as [c2 r2]. cbn [fst] in Hk2.
    destruct (retransmit_attempts _ _ c2 p net_ok waits' now1) as [[[c3 more] ended3] r3] eqn:E. intros [= <- <- <- <-].
    destruct (IH c2 waits' now1 c3 more ended3 r3) as (H1 & H2 & H3); [lia|lia|done|]. rewrite (datagram_kept (conn c)) in H2 by congruence.
    assert (H1' : map fst more `sublist_of` map (Z.min deadline) (attempt_times (now + i) schedule)).
    { unfold now1 in *. destruct (Z.le_gt_cases deadline (now + i)) as [Hle'|Hgt]; [|by rewrite Z.min_r in H1 by lia].
      rewrite Z.min_l, attempts_over in E by lia. injection E as _ <- _ _. apply sublist_nil_l. }
    rewrite map_app. split_and!; [|apply Forall_app; split; [|done]|by eapply ends_rest].
    + cbn [attempt_times map]. destruct r2 as [d2|e2]; cbn [map app fst]; [by apply sublist_skip|by apply sublist_cons].
    + destruct r2 as [d2|e2]; [|done]. apply Forall_singleton. cbn [snd]. rewrite <- (datagram_kept (conn c) (conn c1)) by done.
      by apply (Hd1 c2).
Qed.

(** Nothing arrives, and nobody interrupts. *)
Definition silent (w : Wait) : Prop := arrives w = [] /\ interrupted w = None.

Lemma silent_wait c waits w waits' now :
  Forall silent waits -> next_wait waits = (w, waits') -> recvQueue (conn c) = [] ->
  receivePacketWithTimeout c w now = (c, Err EWaitTimeout) /\ interrupted w = None /\ Forall silent waits'.
Proof.
  intros Hs Hw Hq. assert (silent w /\ Forall silent waits') as [[Ha Hi] Hs'].
  { destruct Hs; injection Hw as <- <-; done. }
  split; [|done]. unfold receivePacketWithTimeout. rewrite Ha. unfold deliver. cbn [foldl]. by rewrite set_conn_id, Hq, Hi.
Qed.

Lemma hsend_ok c p now d :
  MessageType p <> MessageTypeData -> handshake_datagram (conn c) p = Some d ->
  exists s, hsend c p true now = (set_conn c s, Ok d) /\ kept (conn c) s.
Proof.
  intros Ht Hd. pose proof (send_packet_kept (conn c) true now p) as Hk. unfold hsend.
  destruct (send_packet (conn c) true now p) as [s r] eqn:E. exists s. split; [|done]. f_equal.
  unfold send_packet in E. rewrite bool_decide_eq_false_2 in E by done. cbn [andb] in E.
  replace (match sipHashModifier (conn c) with Some _ => _ | None => _ end) with (conn c, None : option Z) in E by by destruct (sipHashModifier _).
  unfold sendPacketDirect in E. set (env := mkEnv _ _ _ _) in E. rewrite (encrypt_handshake env p Ht) in E.
  change (applySipHashObfuscation env p) with p in E. unfold handshake_datagram in Hd.
  destruct (Packet.Serialize p) as [p' [d'|e]]; [|done].
  change (protect env d') with (outbound_protection (conn c) (MessageType p) d') in E. rewrite Hd in E. by injection E as _ <-.
Qed.

Lemma attempts_silent schedule deadline c p waits now d :
  MessageType p <> MessageTypeData -> Forall (fun i => 0 < i) schedule -> now < deadline -> deadline - now <= maxDuration ->
  Forall (fun t => t <= deadline) (attempt_times now schedule) -> handshake_datagram (conn c) p = Some d ->
  recvQueue (conn c) = [] -> Forall silent waits ->
  exists c' ended, retransmit_attempts (map Some schedule ++ [None]) deadline c p true waits now
    = (c', map (fun t => (t, d)) (attempt_times now schedule), ended, Err EHandshakeTimeout).
Proof.
  intros Ht Hpos. revert c waits now. induction schedule as [|i schedule IH]; intros c waits now Hlt Hd Htimes Hdg Hq Hs;
    cbn [map app retransmit_attempts attempt_times].
  all: assert (Hrem : time_sub deadline now = deadline - now) by (unfold time_sub, minDuration, maxDuration in *; lia).
  all: rewrite Hrem; rewrite (proj2 (Z.leb_gt (deadline - now) 0)) by lia.
  all: destruct (next_wait waits) as [w waits'] eqn:Ew; destruct (silent_wait c _ _ _ now Hs Ew Hq) as (-> & -> & Hs').
  { by eexists _, _. }
  cbn [attempt_times] in Htimes. inversion_clear Hpos as [|? ? Hi Hpos']. inversion_clear Htimes as [|? ? Hti Htimes'].
  assert (now + retransmitWait (Some i) (deadline - now) = now + i) as ->.
  { unfold retransmitWait. change (default _ (Some i)) with i. destruct (Z.ltb_spec (deadline - now) i); lia. }
  destruct (hsend_ok c p (now + i) d Ht Hdg) as (s & -> & [Hkq Hkh]).
  destruct schedule as [|i2 schedule].
  { cbn [map app retransmit_attempts attempt_times]. destruct (time_sub deadline (now + i) <=? 0); [by eexists _, _|].
    destruct (next_wait waits') as [w' waits''] eqn:Ew'. destruct (silent_wait (set_conn c s) _ _ _ (now + i) Hs' Ew') as (-> & -> & _);
      [by rewrite <- Hq|by eexists _, _]. }
  assert (now + i < deadline).
  { inversion_clear Hpos' as [|? ? Hi2 _]. cbn [attempt_times] in Htimes'. inversion_clear Htimes'. lia. }
  destruct (IH Hpos' (set_conn c s) waits' (now + i)) as (c' & ended & ->); [done|lia|done| | |done|by eexists _, _].
  - rewrite <- Hdg. by apply datagram_kept.
  - by rewrite <- Hq.
Qed.

Lemma schedule_positive t : Forall (fun i => 0 < i) (retransmitSchedule t).
Proof. unfold retransmitSchedule. case_decide; by repeat constructor. Qed.


(** ** The RouterInfo of the code *)

Lemma hash_refused h pa : length h = 32%nat -> length pa = 32%nat -> verifyPeerRouterInfoStaticKey h pa = Some ESParamMissing.
Proof.
  intros Hh Hpa. unfold verifyPeerRouterInfoStaticKey. rewrite decide_False by lia. rewrite bool_decide_eq_true_2 by done. cbn [negb].
  rewrite contains_short; [done|]. rewrite base64_length, Hpa, Hh. cbn. lia.
Qed.

(** The handshake as two connections run it: the first two messages agree on the keys, the
    third is opened by the responder and refused, and the initiator is established. *)
Record hash_sent (x : Exchange) (a b : HConn) (pa : bytes) (a2 b2 a3 b3 a4 : HConn) (created : SSU2Packet) (ds : list bytes)
    (c1 c2 : CipherState) : Prop := {
  hs_keys : exchange_keys x a b = Some (a2, b2, created);
  hs_sent : sendSessionConfirmed a2 (rnd_confirmed x) true (t_processed x) = (a3, Ok ds);
  hs_received : receiveAndProcessSessionConfirmed b2 created true [mkWait (omap (fun k => ds !! k) [0%nat]) None] [] (t_confirmed x)
    = (b3, [], Some (EHandler ESParamMissing));
  hs_final : finalizeHandshake a3 = (a4, None) /\ state a4 = StateEstablished;
  hs_ciphers : sendCipher (handler a3) = Some c1 /\ recvCipher (handler a3) = Some c2
    /\ sendCipher (handler b3) = Some c2 /\ recvCipher (handler b3) = Some c1;
  hs_peer : remoteStaticKey (handler b3) = pa /\ peerRouterInfo (handler b3) = RouterHash (config a);
  hs_remote : remoteConnectionID (out (conn a4)) = ConnectionID (config b) /\ remoteConnectionID (out (conn b3)) = ConnectionID (config a);
}.

Lemma hash_exchange (x : Exchange) (a b : HConn) (sa sb pa pb : bytes) (ttlA ttlB skewA skewB : Z) (ratioA ratioB : float64) :
  buildHandshakeHandler true sa (Some pb) ttlA skewA ratioA = Ok (handler a) ->
  buildHandshakeHandler false sb None ttlB skewB ratioB = Ok (handler b) ->
  x25519_base sa = Some pa -> x25519_base sb = Some pb -> new_conn a -> new_conn b ->
  length (rnd_request x) = 32%nat -> length (rnd_created x) = 32%nat ->
  clock_ok (handler b) (t_request x) (t_received x) -> clock_ok (handler a) (t_received x) (t_processed x) ->
  length (RouterHash (config a)) = 32%nat ->
  exists a2 b2 a3 b3 a4 created ds c1 c2, hash_sent x a b pa a2 b2 a3 b3 a4 created ds c1 c2.
Proof.
  intros Hha Hhb Hpa Hpb Hna Hnb Hr1 Hr2 Hck1 Hck2 Hh.
  destruct (built_keys x a b sa sb pa pb ttlA ttlB skewA skewB ratioA ratioB)
    as (Hlen & a2 & b2 & p2 & Hkeys & [[Hi1 Hi2] Hst2 [Hba2 Hbb2] Hq2 [Hcfa Hcfb] Hri2 [Hid1 Hid2]]); try done.
  assert (Hsz : confirmed_size (RouterHash (config a2)) = 99).
  { rewrite Hcfa. unfold confirmed_size, zlen. rewrite Hh. by rewrite decide_True by lia. }
  destruct (confirmed_step pa a2 b2 p2 (RouterHash (config a2)) (rnd_confirmed x) [0%nat] (t_processed x) (t_confirmed x))
    as (i3 & r3 & c1 & c2 & sa3 & ds & b3 & Hs3 & Hca3 & Hrcv3 & Hqo3 & Hhb3); try done.
  { rewrite Hcfb. apply Hnb. } { rewrite Hsz. split; [done|by right]. }
  { intros k. rewrite Hsz, list_elem_of_singleton. lia. } { cbn. unfold recvQueueCap. lia. }
  rewrite Hcfa, (hash_refused _ pa Hh Hlen) in Hrcv3. set (a3 := set_conn _ _) in Hs3.
  destruct (derived_keys_agree (handler a3) (handler b3) c1 c2) as (k1 & k2 & h1 & h2 & Hda & _); [done|done|by rewrite Hhb3|by rewrite Hhb3|].
  destruct (sip_keys h1 h2) as (ma & _ & Hma & _).
  destruct (finalize_spec a3 c1 c2 _ _ _ _ _ _ (core_bare _ _ Hca3 Hba2) eq_refl eq_refl (no_router_info a3 Hri2) Hda eq_refl Hma)
    as (a4 & Hf & _ & Hst4 & _ & _ & _ & _ & _ & Hout4).
  destruct Hca3 as (_ & _ & Hout3). destruct Hqo3 as (_ & _ & _ & _ & _ & _ & Hout3'). cbn [set_hh conn] in Hout3'.
  exists a2, b2, a3, b3, a4, p2, ds, c1, c2. split; try done.
  - by rewrite Hhb3.
  - rewrite Hhb3. by rewrite Hcfa.
  - split; [rewrite Hout4; cbn [a3 conn set_conn out]; by rewrite Hout3|by rewrite Hout3'].
Qed.

(** C25: the handshake as the connection runs it. The initiator sends its router
    hash in place of the RouterInfo. The responder looks for the static key of the
    initiator in it, in base64, and refuses: the initiator is established and the
    responder is not. *)
Theorem router_hash_refused (x : Exchange) (a b : HConn) (sa sb pa pb : bytes) (ttlA ttlB skewA skewB : Z) (ratioA ratioB : float64) :
  buildHandshakeHandler true sa (Some pb) ttlA skewA ratioA = Ok (handler a) ->
  buildHandshakeHandler false sb None ttlB skewB ratioB = Ok (handler b) ->
  x25519_base sa = Some pa -> x25519_base sb = Some pb -> new_conn a -> new_conn b ->
  length (rnd_request x) = 32%nat -> length (rnd_created x) = 32%nat ->
  clock_ok (handler b) (t_request x) (t_received x) -> clock_ok (handler a) (t_received x) (t_processed x) ->
  length (RouterHash (config a)) = 32%nat ->
  exists a2 b2 created a3 ds b3 a4, exchange_keys x a b = Some (a2, b2, created)
    /\ sendSessionConfirmed a2 (rnd_confirmed x) true (t_processed x) = (a3, Ok ds)
    /\ receiveAndProcessSessionConfirmed b2 created true [mkWait (omap (fun k => ds !! k) [0%nat]) None] [] (t_confirmed x)
       = (b3, [], Some (EHandler ESParamMissing))
    /\ finalizeHandshake a3 = (a4, None) /\ state a4 = StateEstablished.
Proof.
  intros Hha Hhb Hpa Hpb Hna Hnb Hr1 Hr2 Hck1 Hck2 Hh.
  destruct (hash_exchange x a b sa sb pa pb ttlA ttlB skewA skewB ratioA ratioB)
    as (a2 & b2 & a3 & b3 & a4 & created & ds & c1 & c2 & [H1 H2 H3 [H4 H5] _ _ _]); try done.
  by exists a2, b2, created, a3, ds, b3, a4.
Qed.

(** A SessionRequest of a connection whose configuration has no connection ID names
    the ID 0, which the answer cannot be addressed to. *)
Lemma zero_id_refused c rnd net_ok now :
  initiator (handler c) = false -> createAndSendSessionCreated c 0 rnd net_ok now = (c, Err (EHandler EZeroDest)).
Proof.
  intros Hi. unfold createAndSendSessionCreated, CreateSessionCreated, buildHandshakePacket. rewrite Hi. cbn. by destruct c.
Qed.
End ConnHandshake.

(** ** Witnesses *)

#[local] Existing Instances demo_xk demo_xk_laws demo_base64 demo_chacha demo_hash amd64_conv demo_fragment_range demo_path.
#[local] Instance demo_replay_range : GoRange bytes Z := range_map_to_list bytes Z.
#[local] Instance demo_replay_sort : GoSort (bytes * Z) := sort_merge.

#[local] Instance demo_hkdf : HKDFLib.
Proof.
  refine {| hkdf_derive k info n := Some (demo_digest n (k ++ demo_string info)) |}.
  intros k info n _. eexists. split; [done|apply length_demo_digest].
Defined.

(** An AEAD that appends a digest of its key. *)
#[local] Instance demo_key_cipher : SSU2Cipher (@CipherState demo_xk).
Proof.
  refine {|
    seal (k : bytes) _ _ pt := Some (pt ++ demo_digest 16 k);
    unseal (k : bytes) _ _ ct :=
      if decide (drop (length ct - 16) ct = demo_digest 16 k) then Some (take (length ct - 16) ct) else None;
    derive_rekey k := Some k;
  |}.
  - intros k n ad pt ct [= <-]. rewrite length_app, length_demo_digest, Nat.add_sub, drop_app_length, take_app_length.
    by rewrite decide_True.
  - intros k n ad pt ct [= <-]. by rewrite length_app, length_demo_digest.
Defined.

Definition demo_conn (init : bool) : Conn (@CipherState demo_xk) :=
  mkSession (assembleSSU2Conn false 0) false false init None None None None (ReceiveWindow.NewReceiveWindow 0 512)
    AckHandler.NewACKHandler (NewDataHandler 100) RTTEstimator.NewRTTEstimator (Congestion.NewCongestionControllerWithMTU None 1280)
    [] 0 0 0 [] 0.

Definition demo_config (id : Z) : HandshakeConfig :=
  mkHandshakeConfig id (15 * Second) (replicate 32 x07) 1280 (S754_zero false) 0 64 None.

Definition demo_hconn (init : bool) (id : Z) (h : HandshakeHandler) : HConn :=
  mkHConn (demo_conn init) h (demo_config id) StateInit None.

Lemma demo_new init id h : 0 < id < 2 ^ 64 -> new_conn (demo_hconn init id h).
Proof. intros Hid. by split. Qed.

Definition demo_static (b : byte) : bytes := replicate 32 b.
Definition demo_public (b : byte) : bytes := demo_digest 32 (demo_static b).

Lemma demo_built init b remote :
  (init = true \/ remote <> None -> length (default [] remote) = 32%nat) ->
  exists h, buildHandshakeHandler init (demo_static b) remote 0 (60 * Second) (S754_zero false) = Ok h /\ maxClockSkew h = 60 * Second.
Proof.
  intros Hr. unfold buildHandshakeHandler, NewHandshakeHandler. rewrite bool_decide_eq_true_2 by apply length_replicate. cbn [negb].
  assert (checkRemoteKey init remote = None) as ->; [|by eexists].
  unfold checkRemoteKey. destruct init; cbn [andb negb]; [by rewrite bool_decide_eq_true_2 by (by apply Hr; left)|].
  case_bool_decide; [|done]. rewrite bool_decide_eq_true_2; [done|]. apply Hr. by right.
Qed.

(** A RouterInfo that takes two fragments, the second of which arrives first and twice. *)
Definition demo_router_info : bytes := base64 (demo_public x01) ++ replicate 1500 x00.

Definition demo_exchange : Exchange :=
  mkExchange (replicate 32 x0a) (replicate 32 x0b) [] (100 * Second) (101 * Second) (102 * Second) (103 * Second)
    demo_router_info [1%nat; 0%nat; 1%nat].

Lemma demo_size : confirmed_size demo_router_info = 1611.
Proof. vm_compute. reflexivity. Qed.

Lemma ssu2_handshake_witness :
  exists (a b a' b' : HConn), exchange no_callbacks demo_exchange a b = Some (a', b')
    /\ linked (conn a') (conn b') /\ linked (conn b') (conn a') /\ peerRouterInfo (handler b') = demo_router_info.
Proof.
  destruct (demo_built true x01 (Some (demo_public x02))) as (ha & Ha & Hska); [intros _; apply length_demo_digest|].
  destruct (demo_built false x02 None) as (hb & Hb & Hskb); [by intros [?|[]]|].
  exists (demo_hconn true 5 ha), (demo_hconn false 9 hb).
  destruct (ssu2_handshake no_callbacks demo_exchange (demo_hconn true 5 ha) (demo_hconn false 9 hb) (demo_static x01) (demo_static x02)
    (demo_public x01) (demo_public x02) 0 0 (60 * Second) (60 * Second) (S754_zero false) (S754_zero false))
    as (a' & b' & ma & mb & Hx & Hl1 & Hl2 & _ & _ & _ & _ & _ & Hri & _);
    [exact Ha|exact Hb|done|done|by apply demo_new|by apply demo_new|done|done| | | | | | | |].
  - right. cbn [handler demo_hconn]. rewrite Hskb. done.
  - right. cbn [handler demo_hconn]. rewrite Hska. done.
  - cbn [router_info demo_exchange]. rewrite demo_size. split; [done|by right].
  - right. apply contains_prefix.
  - done.
  - intros k. cbn [router_info fragment_arrivals demo_exchange]. rewrite demo_size, !elem_of_cons, elem_of_nil. lia.
  - cbn. unfold recvQueueCap. lia.
  - exists a', b'. done.
Defined.

Lemma router_hash_refused_witness :
  exists (a b : HConn) a2 b2 created a3 ds b3, exchange_keys no_callbacks demo_exchange a b = Some (a2, b2, created)
    /\ sendSessionConfirmed a2 [] true (102 * Second) = (a3, Ok ds)
    /\ receiveAndProcessSessionConfirmed no_callbacks b2 created true [mkWait (omap (fun k => ds !! k) [0%nat]) None] [] (103 * Second)
       = (b3, [], Some (EHandler ESParamMissing)).
Proof.
  destruct (demo_built true x01 (Some (demo_public x02))) as (ha & Ha & Hska); [intros _; apply length_demo_digest|].
  destruct (demo_built false x02 None) as (hb & Hb & Hskb); [by intros [?|[]]|].
  exists (demo_hconn true 5 ha), (demo_hconn false 9 hb).
  destruct (router_hash_refused no_callbacks demo_exchange (demo_hconn true 5 ha) (demo_hconn false 9 hb) (demo_static x01) (demo_static x02)
    (demo_public x01) (demo_public x02) 0 0 (60 * Second) (60 * Second) (S754_zero false) (S754_zero false))
    as (a2 & b2 & created & a3 & ds & b3 & a4 & H1 & H2 & H3 & _);
    [exact Ha|exact Hb|done|done|by apply demo_new|by apply demo_new|done|done| | |done|].
  - right. cbn [handler demo_hconn]. rewrite Hskb. done.
  - right. cbn [handler demo_hconn]. rewrite Hska. done.
  - by exists a2, b2, created, a3, ds, b3.
Defined.

Definition demo_request : SSU2Packet :=
  mkPacket (longHeader 0 5 MessageTypeSessionRequest []) (replicate 32 x0a) [] (replicate 16 x00) MessageTypeSessionRequest 0 0.

