(* ===== verification/Dial.v ===== *)
(** * Making SSU2 connections

    The constructor of [ssu2/session/conn.go] and dialling
    ([ssu2/server/transport.go]): settings are checked, a connection ID is chosen, and
    the handlers of the connection are put together. A connection that is made this
    way is ready for the handshake of [ConnHandshake].

    A nil argument is [None]; the socket is only present or absent. Opening a socket
    may fail. Random reads and the clock are arguments. *)

From Stdlib Require Import Floats.SpecFloat ZArith Lia.
From Stdlib Require Import Strings.Byte.
From stdpp Require Import base numbers list gmap strings.
From S2P Require Import Prelude Float64 Crypto Block Packet Modifiers Padding HeaderProtection ReceiveWindow AckHandler RTTEstimator Congestion.
From S2P Require Import Fragments DataPhase Outbound Session Sha256 Options SSU2Handshake ConnHandshake SSU2Config.

#[local] Open Scope Z_scope.

Inductive DialError :=
| ENilPacketConn
| ENilRemoteAddr
| ENilConfig
| EConfigValidation (e : SSU2ConfigError)
| ENotInitiator
| ENotResponder
| EConnectionID (e : SSU2ConfigError)
| EConnectionIDCollision (id : Z)
| EHandshakeHandler (e : HandshakeError)
| EAddress (e : SSU2ConfigError)
| EHeaderProtector (e : HeaderError)
| EUDPDial
| EHandshakeFailed (e : ConnHandshakeError).

Section Dial.
Context `{NX : NoiseXK} `{B64 : I2PBase64} `{FC : FloatConv} `{HK : HKDFLib}.
Context `{CH : ChaCha20Lib} `{SH : SipHashLib} `{SC : SSU2Cipher CipherState}.
Context {R : GoRange bytes Z} {Srt : GoSort (bytes * Z)} {R2 : GoRange Z FragmentSet} {P : PathLib} {CbError : Type}.
Context {U UDPAddr : Type}.

(** A connection with its addresses. *)
Record SSU2Session := mkSSU2Session {
  hconn : HConn;
  ssu2Addr : SSU2Addr UDPAddr;
  remoteAddr : UDPAddr;
  ownsUnderlying : bool;
}.

(** ** The constructor *)

Definition validateConnInputs (underlying : bool) (remoteAddr : option UDPAddr) (config : option (SSU2Config U)) : option DialError :=
  if negb underlying then Some ENilPacketConn
  else match remoteAddr, config with
  | None, _ => Some ENilRemoteAddr
  | _, None => Some ENilConfig
  | Some _, Some sc => EConfigValidation <$> SSU2_Validate sc
  end.

Definition resolveConnectionID (sc : SSU2Config U) (reads : list (option bytes)) : result DialError Z :=
  if sConnectionID sc =? 0 then
    match GenerateConnectionID reads with
    | Err e => Err (EConnectionID e)
    | Ok id => Ok id
    end
  else Ok (sConnectionID sc).

Definition newSSU2AddrForConn (remoteAddr : UDPAddr) (routerHash : bytes) (connID : Z) (init : bool) : result DialError (SSU2Addr UDPAddr) :=
  match NewSSU2Addr (Some remoteAddr) routerHash connID (if init then "initiator" else "responder") with
  | Err e => Err (EAddress e)
  | Ok a => Ok a
  end.

(** The settings that the handshake reads. *)
Definition handshake_config (sc : SSU2Config U) : HandshakeConfig :=
  mkHandshakeConfig (sConnectionID sc) (sHandshakeTimeout sc) (sRouterHash sc) (sMTU sc) (sPaddingRatio sc) (sMinPaddingSize sc)
    (sMaxPaddingSize sc) (sRouterInfoValidator sc).

(** [assembleSSU2Conn]; the congestion controller shares the RTT estimator of the
    connection. *)
Definition assembleConnection (sc : SSU2Config U) (init : bool) (h : HandshakeHandler) (m : option HeaderProtectorManager) (now : Z) : HConn :=
  mkHConn
    (mkSession (assembleSSU2Conn (sEnableNextNonce sc) 0) false false init m None None None
       (NewReceiveWindow 0 (sReceiveWindowSize sc)) NewACKHandler (newDataHandlerFromConfig (Some (sFragmentTimeout sc))) NewRTTEstimator
       (NewCongestionControllerWithMTU (Some 1%positive) (sMTU sc)) [] 0 0 0 [] now)
    h (handshake_config sc) StateInit None.

(** [initHeaderProtection] *)
Definition conn_protector (sc : SSU2Config U) (init : bool) : result DialError (option HeaderProtectorManager) :=
  if decide (length (sIntroKey sc) = HeaderKeySize) then
    match NewHeaderProtectorManager (sIntroKey sc) (sRemoteIntroKey sc) init with
    | Err e => Err (EHeaderProtector e)
    | Ok m => Ok (Some m)
    end
  else Ok None.

Definition NewSSU2Conn (underlying : bool) (remoteAddr : option UDPAddr) (config : option (SSU2Config U)) (init : bool) (staticKey : bytes)
    (remoteStaticKey : option bytes) (reads : list (option bytes)) (now : Z) : result DialError SSU2Session :=
  match validateConnInputs underlying remoteAddr config with
  | Some e => Err e
  | None =>
      match remoteAddr, config with
      | Some remoteAddr, Some sc =>
          match resolveConnectionID sc reads with
          | Err e => Err e
          | Ok connID =>
              if negb (sInitiatorConnectionID sc =? 0) && (sInitiatorConnectionID sc =? connID) then Err (EConnectionIDCollision connID)
              else
                match buildHandshakeHandler init staticKey remoteStaticKey (sReplayCacheTTL sc) (sMaxClockSkew sc) (sPaddingRatio sc) with
                | Err e => Err (EHandshakeHandler e)
                | Ok h =>
                    match newSSU2AddrForConn remoteAddr (sRouterHash sc) connID init with
                    | Err e => Err e
                    | Ok addr =>
                        match conn_protector sc init with
                        | Err e => Err e
                        | Ok m => Ok (mkSSU2Session (assembleConnection sc init h m now) addr remoteAddr false)
                        end
                    end
                end
          end
      | _, _ => Err ENilConfig
      end
  end.

(** ** Dialling *)

Definition validateDialParams (remoteAddr : option UDPAddr) (config : option (SSU2Config U)) : option DialError :=
  match remoteAddr, config with
  | None, _ => Some ENilRemoteAddr
  | _, None => Some ENilConfig
  | Some _, Some sc =>
      match SSU2_Validate sc with
      | Some e => Some (EConfigValidation e)
      | None => if negb (sInitiator sc) then Some ENotInitiator else None
      end
  end.

Definition validateListenParams (addr : option UDPAddr) (config : option (SSU2Config U)) : option DialError :=
  match addr, config with
  | None, _ => Some ENilRemoteAddr
  | _, None => Some ENilConfig
  | Some _, Some sc =>
      match SSU2_Validate sc with
      | Some e => Some (EConfigValidation e)
      | None => if sInitiator sc then Some ENotResponder else None
      end
  end.

#[local] Open Scope settings_scope.

Definition set_connection_id (sc : SSU2Config U) (id : Z) : SSU2Config U := assigned (sConnectionID sc) := id.

(** [createSSU2Connection]: a generated connection ID is stored in the settings of the
    caller, which are returned. *)
Definition createSSU2Connection (remoteAddr : UDPAddr) (sc : SSU2Config U) (reads : list (option bytes)) (now : Z)
    : SSU2Config U * result DialError SSU2Session :=
  let chosen := if sConnectionID sc =? 0 then
                  match GenerateConnectionID reads with Err e => Err (EConnectionID e) | Ok id => Ok (set_connection_id sc id) end
                else Ok sc in
  match chosen with
  | Err e => (sc, Err e)
  | Ok sc =>
      (sc, NewSSU2Conn true (Some remoteAddr) (Some sc) (sInitiator sc) (sStaticKey sc)
             (if decide (sRemoteStaticKey sc = []) then None else Some (sRemoteStaticKey sc)) [] now)
  end.

Definition DialSSU2WithConn (packetConn : bool) (remoteAddr : option UDPAddr) (config : option (SSU2Config U)) (reads : list (option bytes)) (now : Z)
    : option (SSU2Config U) * result DialError SSU2Session :=
  if negb packetConn then (config, Err ENilPacketConn)
  else match validateDialParams remoteAddr config with
  | Some e => (config, Err e)
  | None =>
      match remoteAddr, config with
      | Some remoteAddr, Some sc => let '(sc, r) := createSSU2Connection remoteAddr sc reads now in (Some sc, r)
      | _, _ => (config, Err ENilConfig)
      end
  end.

(** [DialSSU2]: [listen_ok] tells whether a socket could be opened; the connection owns it. *)
Definition DialSSU2 (listen_ok : bool) (remoteAddr : option UDPAddr) (config : option (SSU2Config U)) (reads : list (option bytes)) (now : Z)
    : option (SSU2Config U) * result DialError SSU2Session :=
  match validateDialParams remoteAddr config with
  | Some e => (config, Err e)
  | None =>
      if negb listen_ok then (config, Err EUDPDial)
      else
        match remoteAddr, config with
        | Some remoteAddr, Some sc =>
            let '(sc, r) := createSSU2Connection remoteAddr sc reads now in
            (Some sc, match r with
                      | Err e => Err e
                      | Ok s => Ok (mkSSU2Session (hconn s) (ssu2Addr s) (Dial.remoteAddr s) true)
                      end)
        | _, _ => (config, Err ENilConfig)
        end
  end.

Definition WrapSSU2Conn (underlying : bool) (remoteAddr : option UDPAddr) (config : option (SSU2Config U)) (reads : list (option bytes)) (now : Z)
    : option (SSU2Config U) * result DialError SSU2Session :=
  match validateConnInputs underlying remoteAddr config with
  | Some e => (config, Err e)
  | None =>
      match remoteAddr, config with
      | Some remoteAddr, Some sc => let '(sc, r) := createSSU2Connection remoteAddr sc reads now in (Some sc, r)
      | _, _ => (config, Err ENilConfig)
      end
  end.

(** [DialSSU2WithConnAndHandshakeContext]; [run] is the handshake of the initiator. *)
Definition DialSSU2WithConnAndHandshake (packetConn : bool) (remoteAddr : option UDPAddr) (config : option (SSU2Config U))
    (reads : list (option bytes)) (run : HConn -> HConn * option ConnHandshakeError) (net_ok : bool) (now : Z)
    : option (SSU2Config U) * result DialError SSU2Session :=
  match DialSSU2WithConn packetConn remoteAddr config reads now with
  | (config, Err e) => (config, Err e)
  | (config, Ok s) =>
      match Handshake (hconn s) run net_ok now with
      | (_, Some e) => (config, Err (EHandshakeFailed e))
      | (c, None) => (config, Ok (mkSSU2Session c (ssu2Addr s) (Dial.remoteAddr s) (ownsUnderlying s)))
      end
  end.

(** [DialSSU2WithHandshakeContext]. *)
Definition DialSSU2WithHandshake (listen_ok : bool) (remoteAddr : option UDPAddr) (config : option (SSU2Config U))
    (reads : list (option bytes)) (run : HConn -> HConn * option ConnHandshakeError) (net_ok : bool) (now : Z)
    : option (SSU2Config U) * result DialError SSU2Session :=
  match DialSSU2 listen_ok remoteAddr config reads now with
  | (config, Err e) => (config, Err e)
  | (config, Ok s) =>
      match Handshake (hconn s) run net_ok now with
      | (_, Some e) => (config, Err (EHandshakeFailed e))
      | (c, None) => (config, Ok (mkSSU2Session c (ssu2Addr s) (Dial.remoteAddr s) (ownsUnderlying s)))
      end
  end.

(** ** What the constructors give *)

(** A connection that was made, with the pieces it was made of. *)
Lemma new_conn_inv underlying ra config init staticKey remoteStaticKey reads now s :
  NewSSU2Conn underlying ra config init staticKey remoteStaticKey reads now = Ok s ->
  exists addr sc connID h m, ra = Some addr /\ config = Some sc /\ SSU2_Validate sc = None
    /\ resolveConnectionID sc reads = Ok connID /\ (sInitiatorConnectionID sc = 0 \/ sInitiatorConnectionID sc <> connID)
    /\ buildHandshakeHandler init staticKey remoteStaticKey (sReplayCacheTTL sc) (sMaxClockSkew sc) (sPaddingRatio sc) = Ok h
    /\ conn_protector sc init = Ok m /\ connID <> 0
    /\ s = mkSSU2Session (assembleConnection sc init h m now)
             (mkSSU2Addr addr (sRouterHash sc) connID (if init then "initiator" else "responder")%string None None) addr false.
Proof.
  unfold NewSSU2Conn, validateConnInputs. destruct (negb underlying); [done|]. destruct ra as [addr|]; [|done]. destruct config as [sc|]; [|done].
  destruct (SSU2_Validate sc) eqn:Hv; [done|]. cbn [fmap option_fmap option_map].
  destruct (resolveConnectionID sc reads) as [connID|e] eqn:Hid; [|done]. destruct (_ && _) eqn:Hc; [done|].
  destruct (buildHandshakeHandler _ _ _ _ _ _) as [h|e] eqn:Hh; [|done].
  unfold newSSU2AddrForConn, NewSSU2Addr. destruct (Z.eqb_spec connID 0); [done|].
  destruct (conn_protector sc init) as [m|e] eqn:Hm; [|by destruct init].
  intros Hs. exists addr, sc, connID, h, m. split_and!; try done.
  - apply andb_false_iff in Hc as [Hc|Hc]; [left|right]; [|by apply Z.eqb_neq]. by apply negb_false_iff, Z.eqb_eq in Hc.
  - destruct init; by apply Ok_inj in Hs.
Qed.

Lemma assembled_new sc init h now :
  0 < sConnectionID sc < 2 ^ 64 -> 0 < sHandshakeTimeout sc <= maxDuration -> new_conn (assembleConnection sc init h None now).
Proof. intros Hid Ht. by split. Qed.

Lemma build_skew init priv remote ttl skew ratio h : buildHandshakeHandler init priv remote ttl skew ratio = Ok h -> maxClockSkew h = skew.
Proof. unfold buildHandshakeHandler. destruct (NewHandshakeHandler _ _ _ _); [|done]. by intros <-%Ok_inj. Qed.

Lemma no_protector sc init : sIntroKey sc = [] -> conn_protector sc init = Ok None.
Proof. intros Hk. unfold conn_protector. by rewrite Hk. Qed.

Lemma valid_timeout (sc : SSU2Config U) : SSU2_Validate sc = None -> 0 < sHandshakeTimeout sc.
Proof. unfold SSU2_Validate. rewrite !run_none. intros (_ & _ & Ht & _). by apply timeout_valid in Ht as [? _]. Qed.

Lemma valid_remote_key (sc : SSU2Config U) : SSU2_Validate sc = None -> sInitiator sc = true -> sRemoteStaticKey sc <> [].
Proof.
  unfold SSU2_Validate, ssu2_validateCryptographicParameters. rewrite !run_none. intros (_ & (_ & Hk & _) & _) Hi Hn.
  by rewrite Hi, Hn in Hk.
Qed.

(** A connection dialled with the settings [sc]; [sc'] are the settings afterwards, which
    have its connection ID. *)
Definition dialled (sc sc' : SSU2Config U) (addr : UDPAddr) (now : Z) (s : SSU2Session) : Prop :=
  0 < sConnectionID sc' < 2 ^ 64 /\ sc' = set_connection_id sc (sConnectionID sc') /\ exists h m,
  buildHandshakeHandler true (sStaticKey sc) (Some (sRemoteStaticKey sc)) (sReplayCacheTTL sc) (sMaxClockSkew sc) (sPaddingRatio sc) = Ok h
  /\ conn_protector sc true = Ok m
  /\ s = mkSSU2Session (assembleConnection sc' true h m now)
           (mkSSU2Addr addr (sRouterHash sc) (sConnectionID sc') "initiator"%string None None) addr false.

Lemma dialled_new sc sc' addr now s :
  sInitiator sc = true -> sRemoteStaticKey sc <> [] -> sc' = set_connection_id sc (sConnectionID sc') -> 0 < sConnectionID sc' < 2 ^ 64 ->
  NewSSU2Conn true (Some addr) (Some sc') (sInitiator sc') (sStaticKey sc')
    (if decide (sRemoteStaticKey sc' = []) then None else Some (sRemoteStaticKey sc')) [] now = Ok s -> dialled sc sc' addr now s.
Proof.
  intros Hi Hrk Hsc Hid Hnew. apply new_conn_inv in Hnew as (a & sc1 & connID & h & m & [= <-] & [= <-] & _ & Hr & _ & Hh & Hm & _ & Hs).
  unfold resolveConnectionID in Hr. rewrite (proj2 (Z.eqb_neq _ _)) in Hr by lia. apply Ok_inj in Hr as <-.
  assert (sInitiator sc' = true /\ sStaticKey sc' = sStaticKey sc /\ sRemoteStaticKey sc' = sRemoteStaticKey sc
    /\ sReplayCacheTTL sc' = sReplayCacheTTL sc /\ sMaxClockSkew sc' = sMaxClockSkew sc /\ sPaddingRatio sc' = sPaddingRatio sc
    /\ sRouterHash sc' = sRouterHash sc /\ conn_protector sc' true = conn_protector sc true)
    as (H1 & H2 & H3 & H4 & H5 & H6 & H7 & H8) by (by rewrite Hsc).
  rewrite H1, H2, H3, H4, H5, H6, decide_False in Hh by done. rewrite H1, H8 in Hm. rewrite H1, H7 in Hs.
  split; [done|]. split; [done|]. by exists h, m.
Qed.

Lemma dialled_inv packetConn ra (sc : SSU2Config U) reads now config s :
  DialSSU2WithConn packetConn ra (Some sc) reads now = (config, Ok s) -> 0 <= sConnectionID sc < 2 ^ 64 ->
  exists addr sc', ra = Some addr /\ config = Some sc' /\ SSU2_Validate sc = None /\ sInitiator sc = true /\ dialled sc sc' addr now s.
Proof.
  unfold DialSSU2WithConn. destruct (negb packetConn); [done|]. unfold validateDialParams. destruct ra as [addr|]; [|done].
  destruct (SSU2_Validate sc) eqn:Hv; [done|]. destruct (sInitiator sc) eqn:Hi; [|done]. cbn [negb].
  unfold createSSU2Connection. pose proof (valid_remote_key sc Hv Hi) as Hrk. destruct (Z.eqb_spec (sConnectionID sc) 0) as [H0|H0].
  - destruct (GenerateConnectionID reads) as [id|e] eqn:Hg; [|done]. intros [= <- Hnew] _. exists addr, (set_connection_id sc id).
    split_and!; [done..|]. apply dialled_new; try done. by apply connection_id_range in Hg.
  - intros [= <- Hnew] Hid. exists addr, sc. split_and!; [done..|]. apply dialled_new; try done; [by destruct sc|lia].
Qed.

Context (cbs : @DataHandlerCallbacks P CbError) {NL : NoiseXKLaws}.


(** The chosen connection ID stays in the settings, so that the next dial with them uses
    it again. *)
Lemma second_dial_same_id pc ra sc reads now config s ra' reads' now' config' s' :
  DialSSU2WithConn pc ra (Some sc) reads now = (config, Ok s) -> 0 <= sConnectionID sc < 2 ^ 64 ->
  DialSSU2WithConn pc ra' config reads' now' = (config', Ok s') -> connectionID (ssu2Addr s') = connectionID (ssu2Addr s).
Proof.
  intros H1 Hid H2. apply dialled_inv in H1 as (addr & sc1 & -> & -> & _ & Hi & Hid1 & Hsc & h & m & _ & _ & ->); [|done].
  unfold DialSSU2WithConn in H2. destruct (negb pc); [done|]. destruct (validateDialParams ra' _); [done|]. destruct ra' as [addr'|]; [|done].
  unfold createSSU2Connection in H2. rewrite (proj2 (Z.eqb_neq _ _)) in H2 by lia. injection H2 as <- H2.
  apply new_conn_inv in H2 as (a & sc2 & connID & h' & m' & _ & [= <-] & _ & Hr & _ & _ & _ & _ & ->).
  unfold resolveConnectionID in Hr. rewrite (proj2 (Z.eqb_neq _ _)) in Hr by lia. by apply Ok_inj in Hr as <-.
Qed.
End Dial.

(** ** Witness *)

#[local] Existing Instances demo_xk demo_xk_laws demo_base64 demo_chacha demo_hash amd64_conv demo_fragment_range demo_path
  demo_hkdf demo_key_cipher demo_replay_range demo_replay_sort.

Definition demo_dialler : SSU2Config unit :=
  foldl build (NewSSU2Config (replicate 32 x07) true) [WithStaticKey (demo_static x01); WithRemoteStaticKey (demo_public x02)].

Definition demo_answerer : SSU2Config unit :=
  foldl build (NewSSU2Config (replicate 32 x08) false)
    [WithStaticKey (demo_static x02); WithConnectionID 9; WithRouterInfoValidator (Some (fun _ _ => true))].

