(* ===== verification/Listener.v ===== *)
(** * The SSU2 listener

    [ssu2/server]: the listener takes datagrams from its socket, gives those of known
    connections to them ([PacketRouter] of [ssu2/session/packet_router.go]) and makes
    connections for the others, guarded by the rate limits and the retry tokens of
    RateLimit, FirstSight and TokenCache.

    The connections are shared by the listener, the router and the application: they
    are in a heap, and the tables hold pointers. What a step does besides changing the
    listener (a token issued or used, a datagram sent, a connection registered) is
    recorded in a list of events. In the runs of [listener_run] a worker handles a packet
    in one step; in those of [actions] eight workers interleave, at the points where they
    release the locks of the tables. One clock reading is made per packet; random reads
    are arguments. Addresses that Go passes by pointer are not nil here: the socket
    delivers them. *)

From Stdlib Require Import Floats.SpecFloat ZArith Lia Sorting.Sorted.
From Stdlib Require Import Strings.Byte.
From stdpp Require Import base numbers list gmap strings.
From S2P Require Import Prelude Float64 Crypto Block RateLimit FirstSight TokenCache Modifiers HeaderProtection Fragments DataPhase Outbound.
From S2P Require Import Session Sha256 Options SSU2Handshake SSU2Config ConnHandshake Dial Packet.

#[local] Open Scope Z_scope.

(** ** Data *)

Inductive ListenerError :=
| EListenerClosed
| ERateLimited
| EFirstSightOnly
| EIssuanceLimit
| ETokenCache (e : TokenError)
| ERetryPayloadBlocks (e : BlockError)
| ERetryTokenSize
| ERetryRandom
| ERetryPacket (e : PacketError)
| EAmplification
| EWriteTo
| ERetrySent
| ETokenParse (e : BlockError)
| ETokenExpired
| EInvalidToken
| EListenerID (e : SSU2ConfigError)
| EIDCollision
| ENewConn (e : DialError)
| EAcceptQueueFull
| ERoute (e : RouteError)
| ENilUnderlying
| EListenerConfig (e : option SSU2ConfigError)
| EIntroProtector (e : HeaderError).

Definition acceptQueueCap : nat := 100.
Definition packetQueueSize : nat := 256.
Definition packetWorkers : nat := 8.

Section Listener.
Context `{NX : NoiseXK} `{B64 : I2PBase64} `{FC : FloatConv} `{HK : HKDFLib}.
Context `{CH : ChaCha20Lib} `{SH : SipHashLib} `{SC : SSU2Cipher CipherState}.
Context {R : GoRange bytes Z} {Srt : GoSort (bytes * Z)} {R2 : GoRange Z FragmentSet} {P : PathLib} {CbError : Type}.
Context {U UDPAddr : Type} (String_ IPString : UDPAddr -> string).
Context {RT : GoRange string (@TokenEntry UDPAddr)} {RI : GoRange string rateLimitEntry}.
Context (cbs : @DataHandlerCallbacks P CbError).

Record incomingPacket := mkIncoming {
  inData : bytes;
  inAddr : UDPAddr;
}.

(** What a step does to the world, with the string form of the address for tokens. *)
Inductive Event :=
| Issued (key : string) (token : bytes) (now : Z)
| Used (key : string) (token : bytes) (now : Z)
| Registered (ptr : nat) (msgType : byte) (key : string)
| Accepted (ptr : nat)
| Sent (to : UDPAddr) (datagram : bytes).

Record SSU2Listener := mkListener {
  lconfig : SSU2Config U;
  laddr : SSU2Addr UDPAddr;
  conns : list (@SSU2Session NX UDPAddr);
  sessions : gmap Z nat;
  tokenCache : @TokenCache UDPAddr;
  firstSight : firstSightTracker;
  issuanceLimiter : tokenIssuanceLimiter;
  acceptQueue : list nat;
  packetQueue : list incomingPacket;
  routes : gmap Z nat;
  introHeaderProtector : option HeaderProtector;
  sessionRateLimiter : ipRateLimiter;
  droppedPackets : Z;
  lclosed : bool;
}.

Definition set_conns (l : SSU2Listener) cs : SSU2Listener :=
  mkListener (lconfig l) (laddr l) cs (sessions l) (tokenCache l) (firstSight l) (issuanceLimiter l) (acceptQueue l) (packetQueue l)
    (routes l) (introHeaderProtector l) (sessionRateLimiter l) (droppedPackets l) (lclosed l).

Definition set_sessions (l : SSU2Listener) m : SSU2Listener :=
  mkListener (lconfig l) (laddr l) (conns l) m (tokenCache l) (firstSight l) (issuanceLimiter l) (acceptQueue l) (packetQueue l)
    (routes l) (introHeaderProtector l) (sessionRateLimiter l) (droppedPackets l) (lclosed l).

Definition set_tokenCache (l : SSU2Listener) tc : SSU2Listener :=
  mkListener (lconfig l) (laddr l) (conns l) (sessions l) tc (firstSight l) (issuanceLimiter l) (acceptQueue l) (packetQueue l)
    (routes l) (introHeaderProtector l) (sessionRateLimiter l) (droppedPackets l) (lclosed l).

Definition set_gates (l : SSU2Listener) fs il : SSU2Listener :=
  mkListener (lconfig l) (laddr l) (conns l) (sessions l) (tokenCache l) fs il (acceptQueue l) (packetQueue l)
    (routes l) (introHeaderProtector l) (sessionRateLimiter l) (droppedPackets l) (lclosed l).

Definition set_acceptQueue (l : SSU2Listener) q : SSU2Listener :=
  mkListener (lconfig l) (laddr l) (conns l) (sessions l) (tokenCache l) (firstSight l) (issuanceLimiter l) q (packetQueue l)
    (routes l) (introHeaderProtector l) (sessionRateLimiter l) (droppedPackets l) (lclosed l).

Definition set_packetQueue (l : SSU2Listener) q dropped : SSU2Listener :=
  mkListener (lconfig l) (laddr l) (conns l) (sessions l) (tokenCache l) (firstSight l) (issuanceLimiter l) (acceptQueue l) q
    (routes l) (introHeaderProtector l) (sessionRateLimiter l) dropped (lclosed l).

Definition set_routes (l : SSU2Listener) m : SSU2Listener :=
  mkListener (lconfig l) (laddr l) (conns l) (sessions l) (tokenCache l) (firstSight l) (issuanceLimiter l) (acceptQueue l) (packetQueue l)
    m (introHeaderProtector l) (sessionRateLimiter l) (droppedPackets l) (lclosed l).

Definition set_rateLimiter (l : SSU2Listener) rl : SSU2Listener :=
  mkListener (lconfig l) (laddr l) (conns l) (sessions l) (tokenCache l) (firstSight l) (issuanceLimiter l) (acceptQueue l) (packetQueue l)
    (routes l) (introHeaderProtector l) rl (droppedPackets l) (lclosed l).

Definition set_closed (l : SSU2Listener) : SSU2Listener :=
  mkListener (lconfig l) (laddr l) (conns l) (sessions l) (tokenCache l) (firstSight l) (issuanceLimiter l) (acceptQueue l) (packetQueue l)
    (routes l) (introHeaderProtector l) (sessionRateLimiter l) (droppedPackets l) true.

(** What the environment supplies for one packet: the clock, the random bytes of a
    token, of the source ID of a Retry and of the two tries of a connection ID, whether
    the socket takes what is sent, and whether a [select] that could also take the
    shutdown channel does. *)
Record Env := mkPacketEnv {
  now : Z;
  rndToken : option bytes;
  rndSource : option bytes;
  idReads : list (option bytes);
  idReads2 : list (option bytes);
  net_ok : bool;
  pick_shutdown : bool;
}.

(** ** Steps that change the listener and may fail *)

Definition Act (A : Type) : Type := SSU2Listener -> SSU2Listener * list Event * result ListenerError A.

#[local] Instance Act_ret : MRet Act := fun A a l => (l, [], Ok a).
#[local] Instance Act_bind : MBind Act := fun A B k m l =>
  match m l with
  | (l, evs, Err e) => (l, evs, Err e)
  | (l, evs, Ok a) => let '(l, evs', r) := k a l in (l, evs ++ evs', r)
  end.

Definition throw {A} (e : ListenerError) : Act A := fun l => (l, [], Err e).
Definition get : Act SSU2Listener := fun l => (l, [], Ok l).
Definition put (l : SSU2Listener) : Act unit := fun _ => (l, [], Ok ()).
Definition emit (ev : Event) : Act unit := fun l => (l, [ev], Ok ()).
Definition lift {E A} (wrap : E -> ListenerError) (r : result E A) : Act A :=
  match r with Ok a => mret a | Err e => throw (wrap e) end.

(** ** Retry ([retry.go]) *)

Definition buildRetryPayload (tc : @TokenCache UDPAddr) (token : bytes) (now : Z) : result BlockError bytes :=
  let dateTimeBlock := NewSSU2Block BlockTypeDateTime (be_encode 4 (u32 (now / Second))) in
  match NewNewTokenBlock ((now + TokenCache.ttl tc) / Second) token with
  | Err e => Err e
  | Ok tokenBlock => SerializeBlocks [dateTimeBlock; tokenBlock]
  end.

(** [buildRetryHeader]; [None] is a failed read of the random source. *)
Definition buildRetryHeader (originalHeader token : bytes) (rnd : option bytes) : option bytes :=
  let dest := if decide (24 <= length originalHeader)%nat then slice 16 24 originalHeader
              else if decide (8 <= length originalHeader)%nat then slice 0 8 originalHeader
              else replicate 8 x00 in
  match rnd with
  | None => None
  | Some srcConnID =>
      Some (dest ++ replicate 4 x00 ++ [MessageTypeRetry; z2b SSU2ProtocolVersion; z2b SSU2NetworkID; x00]
            ++ take 8 srcConnID ++ take 8 token)
  end.

Definition sendRetry (remoteAddr : UDPAddr) (token originalHeader : bytes) (incomingSize : Z) (env : Env) : Act unit :=
  if negb (zlen token =? TokenSize) then throw ERetryTokenSize
  else
    l ← get;
    payload ← lift ERetryPayloadBlocks (buildRetryPayload (tokenCache l) token (now env));
    match buildRetryHeader originalHeader token (rndSource env) with
    | None => throw ERetryRandom
    | Some header =>
        packetData ← lift ERetryPacket
          (Packet.Serialize (mkPacket header [] payload (replicate MACSize x00) MessageTypeRetry 0 (now env))).2;
        if (0 <? incomingSize) && (3 * incomingSize <? zlen packetData) then throw EAmplification
        else if negb (net_ok env) then throw EWriteTo
        else emit (Sent remoteAddr packetData)
    end.

(** ** Tokens *)

Definition enforceRateLimit (remoteAddr : UDPAddr) (env : Env) : Act unit :=
  l ← get;
  let '(rl, ok) := ip_Allow (sessionRateLimiter l) (IPString remoteAddr) (now env) in
  put (set_rateLimiter l rl);;
  if ok then mret () else throw ERateLimited.

Definition processTokenRequest (packet : SSU2Packet) (remoteAddr : UDPAddr) (env : Env) : Act unit :=
  l ← get;
  let '(fs, seen) := if sFirstSightRequired (lconfig l) then ObserveAndAllow (firstSight l) (String_ remoteAddr) (now env)
                     else (firstSight l, true) in
  put (set_gates l fs (issuanceLimiter l));;
  if negb seen then throw EFirstSightOnly
  else
    let '(il, ok) := issuance_Allow (issuanceLimiter l) (now env) in
    put (set_gates l fs il);;
    if negb ok then throw EIssuanceLimit
    else
      let '(tc, r) := GenerateToken String_ (tokenCache l) (Some remoteAddr) (rndToken env) (now env) (now env) in
      put (set_tokenCache (set_gates l fs il) tc);;
      token ← lift ETokenCache r;
      emit (Issued (String_ remoteAddr) token (now env));;
      sendRetry remoteAddr token (Header packet) (zlen (Header packet) + zlen (Payload packet) + zlen (MAC packet)) env.

(** [validateSessionRequestToken]: [Some None] stands for [errNoTokenPresent]. *)
Definition validateSessionRequestToken (packet : SSU2Packet) (remoteAddr : UDPAddr) (env : Env) : Act (option (option ListenerError)) :=
  if decide (length (Payload packet) = 0%nat) then mret (Some None)
  else match DeserializeBlocks (Payload packet) with
  | Err _ => mret (Some None)
  | Ok blocks =>
      match FindBlockByType blocks BlockTypeNewToken with
      | None => mret (Some None)
      | Some tokenBlock =>
          match ParseNewTokenBlock tokenBlock with
          | Err e => mret (Some (Some (ETokenParse e)))
          | Ok newToken =>
              if Expiration newToken <? now env / Second then mret (Some (Some ETokenExpired))
              else
                l ← get;
                let '(tc, ok) := ConsumeToken String_ (tokenCache l) (Token newToken) (Some remoteAddr) (now env) in
                put (set_tokenCache l tc);;
                if negb ok then mret (Some (Some EInvalidToken))
                else emit (Used (String_ remoteAddr) (Token newToken) (now env));; mret None
          end
      end
  end.

Definition handleSessionRequestToken (packet : SSU2Packet) (remoteAddr : UDPAddr) (env : Env) : Act unit :=
  if decide (MessageType packet <> MessageTypeSessionRequest) then mret ()
  else
    err ← validateSessionRequestToken packet remoteAddr env;
    l ← get;
    match err with
    | None => mret ()
    | Some None =>
        if sRequireRetry (lconfig l) then processTokenRequest packet remoteAddr env;; throw ERetrySent else mret ()
    | Some (Some e) => throw e
    end.

(** ** New connections *)

Definition generateUniqueConnectionID (env : Env) : Act Z :=
  l ← get;
  connID ← lift EListenerID (GenerateConnectionID (idReads env));
  match sessions l !! connID with
  | None => mret connID
  | Some _ =>
      connID ← lift EListenerID (GenerateConnectionID (idReads2 env));
      match sessions l !! connID with
      | None => mret connID
      | Some _ => throw EIDCollision
      end
  end.

#[local] Open Scope settings_scope.

Definition set_conn_identity (sc : SSU2Config U) (connID : Z) (hash : bytes) : SSU2Config U :=
  let sc := set_connection_id sc connID in
  let sc := assigned (sRouterHash sc) := hash in
  assigned (sInitiator sc) := false.

Definition set_initiator_id (sc : SSU2Config U) (id : Z) : SSU2Config U := assigned (sInitiatorConnectionID sc) := id.

Definition buildConnConfig (config : SSU2Config U) (packet : SSU2Packet) (connID : Z) : SSU2Config U :=
  let routerHash := if decide (length (EphemeralKey packet) = 32%nat) then Sum256 (EphemeralKey packet) else replicate 32 x00 in
  let sc := set_conn_identity config connID routerHash in
  if decide (24 <= length (Header packet))%nat then set_initiator_id sc (be_decode (slice 16 24 (Header packet))) else sc.

(** [registerAndQueueConn]: under the lock the new connection, which gets the next
    pointer, is stored in the table, *)
Definition register_conn (conn : SSU2Session) (connID : Z) (msgType : byte) (key : string) : Act nat :=
  l ← get;
  let ptr := length (conns l) in
  put (set_sessions (set_conns l (conns l ++ [conn])) (<[connID := ptr]> (sessions l)));;
  emit (Registered ptr msgType key);;
  mret ptr.

(** and then it is queued, without the lock. *)
Definition queue_conn (ptr : nat) (env : Env) : Act nat :=
  l ← get;
  if decide (length (acceptQueue l) < acceptQueueCap)%nat then
    if lclosed l && pick_shutdown env then throw EListenerClosed
    else put (set_acceptQueue l (acceptQueue l ++ [ptr]));; mret ptr
  else throw (if lclosed l then EListenerClosed else EAcceptQueueFull).

Definition registerAndQueueConn (conn : SSU2Session) (connID : Z) (msgType : byte) (key : string) (env : Env) : Act nat :=
  ptr ← register_conn conn connID msgType key;
  queue_conn ptr env.

Definition handleNewSession (remoteAddr : UDPAddr) (packet : SSU2Packet) (env : Env) : Act nat :=
  enforceRateLimit remoteAddr env;;
  handleSessionRequestToken packet remoteAddr env;;
  connID ← generateUniqueConnectionID env;
  l ← get;
  let connConfig := buildConnConfig (lconfig l) packet connID in
  if negb (sInitiatorConnectionID connConfig =? 0) && (sInitiatorConnectionID connConfig =? connID) then throw EIDCollision
  else
    conn ← lift ENewConn (NewSSU2Conn true (Some remoteAddr) (Some connConfig) false (sStaticKey (lconfig l)) None [] (now env));
    registerAndQueueConn conn connID (MessageType packet) (String_ remoteAddr) env.

(** ** Routing ([packet_router.go]) *)

(** [PacketRouter.AddSession] *)
Definition router_AddSession (ptr : nat) : Act unit :=
  l ← get;
  match conns l !! ptr with
  | None => mret ()
  | Some s =>
      let connID := connectionID (ssu2Addr s) in
      match routes l !! connID with
      | Some _ => throw (ERoute (EDuplicateConnectionID connID))
      | None => put (set_routes l (<[connID := ptr]> (routes l)))
      end
  end.

Definition router_RemoveSession (l : SSU2Listener) (connID : Z) : SSU2Listener := set_routes l (delete connID (routes l)).

(** A packet for the connection at [ptr]: what it sends goes to its peer. *)
Definition deliver_to (ptr : nat) (packet : SSU2Packet) (env : Env) : Act unit := fun l =>
  match conns l !! ptr with
  | None => (l, [], Ok ())
  | Some s =>
      let '(c, sent) := processInboundPacket cbs (conn (hconn s)) packet (net_ok env) (now env) in
      (set_conns l (<[ptr := mkSSU2Session (set_conn (hconn s) c) (ssu2Addr s) (Dial.remoteAddr s) (ownsUnderlying s)]> (conns l)),
       map (Sent (Dial.remoteAddr s)) sent, Ok ())
  end.

Definition listener_RoutePacket (packet : SSU2Packet) (remoteAddr : UDPAddr) (env : Env) : Act unit :=
  connID ← lift ERoute (Session.ExtractConnectionID (Header packet));
  l ← get;
  match routes l !! connID with
  | None =>
      if CanCreateSession (MessageType packet) then
        newConn ← handleNewSession remoteAddr packet env;
        router_AddSession newConn
      else throw (ERoute (ESessionNotFound connID (MessageType packet)))
  | Some ptr => deliver_to ptr packet env
  end.

(** ** Incoming packets ([accept_loop.go], [intro_protection.go]) *)

Definition no_packet : SSU2Packet := mkPacket [] [] [] [] x00 0 0.

Definition listener_parseInboundPacket (protector : option HeaderProtector) (data : bytes) (now : Z) : option SSU2Packet :=
  match Packet.Deserialize no_packet data now with
  | (packet, None) => Some packet
  | (_, Some _) =>
      match protector with
      | None => None
      | Some hp =>
          match DecryptHeader hp data with
          | (_, Some _) => None
          | (decrypted, None) =>
              match Packet.Deserialize no_packet decrypted now with
              | (packet, None) => Some packet
              | (_, Some _) => None
              end
          end
      end
  end.

Definition handleIncomingPacket (data : bytes) (remoteAddr : UDPAddr) (env : Env) (l : SSU2Listener) : SSU2Listener * list Event :=
  match listener_parseInboundPacket (introHeaderProtector l) data (now env) with
  | None => (l, [])
  | Some packet =>
      match listener_RoutePacket packet remoteAddr env l with
      | (l, evs, Ok _) => (l, evs)
      | (l, evs, Err _) =>
          if decide (MessageType packet = MessageTypeTokenRequest) then
            let '(l, evs', _) := processTokenRequest packet remoteAddr env l in (l, evs ++ evs')
          else (l, evs)
      end
  end.

(** What [ReadFrom] returns: an error, or a datagram (at most the buffer) with its
    source, which may be no UDP address. *)
Inductive ReadFrom := ReadFailed | Read (d : bytes) (from : option UDPAddr).

Definition backoffMin : Z := 5 * Millisecond.
Definition backoffMax : Z := Second.

(** One turn of [receiveLoop]; [None] is its return. The waits are left out. *)
Definition receiveLoop_turn (r : ReadFrom) (backoff : Z) (l : SSU2Listener) : option (SSU2Listener * Z) :=
  match r with
  | ReadFailed =>
      if lclosed l then None
      else Some (l, if backoff <? backoffMax then (if backoffMax <? backoff * 2 then backoffMax else backoff * 2) else backoff)
  | Read d from =>
      match from with
      | None => Some (l, backoffMin)
      | Some udpAddr =>
          let packetData := take MaxPacketSizeIPv4 d in
          Some (if decide (length (packetQueue l) < packetQueueSize)%nat
                then set_packetQueue l (packetQueue l ++ [mkIncoming packetData udpAddr]) (droppedPackets l)
                else set_packetQueue l (packetQueue l) (u64 (droppedPackets l + 1)), backoffMin)
      end
  end.

(** One turn of [packetWorker] that takes a packet; [None] when it waits. *)
Definition packetWorker_turn (env : Env) (l : SSU2Listener) : option (SSU2Listener * list Event) :=
  match packetQueue l with
  | [] => None
  | pkt :: q => Some (handleIncomingPacket (inData pkt) (inAddr pkt) env (set_packetQueue l q (droppedPackets l)))
  end.

(** A tick of [tokenCleanupLoop] *)
Definition tokenCleanup_tick (now : Z) (l : SSU2Listener) : SSU2Listener := set_tokenCache l (TokenCache.Cleanup (tokenCache l) now).1.

(** ** The listener's own operations *)

Definition newTokenCacheFromConfig (config : option (SSU2Config U)) : @TokenCache UDPAddr :=
  let maxSize := match config with
                 | Some sc => if 0 <? sTokenCacheMaxSize sc then sTokenCacheMaxSize sc else MaxTokenCacheSize
                 | None => MaxTokenCacheSize
                 end in
  NewTokenCacheWithMaxSize (60 * Second) maxSize.

(** [initHeaderProtection] *)
Definition intro_protector (sc : SSU2Config U) : result HeaderError (option HeaderProtector) :=
  if decide (length (sIntroKey sc) <> 32%nat) then Ok None
  else match NewHeaderProtectorFromIntroKey (sIntroKey sc) HeaderTypeSessionRequest with
  | Err e => Err e
  | Ok hp => Ok (Some hp)
  end.

(** [NewSSU2Listener]; [local] is the address of the socket, [None] a nil socket. *)
Definition NewSSU2Listener (local : option UDPAddr) (config : option (SSU2Config U)) (reads : list (option bytes)) (now : Z)
    : result ListenerError SSU2Listener :=
  match local, config with
  | None, _ => Err ENilUnderlying
  | _, None => Err (EListenerConfig None)
  | Some local, Some sc =>
      match SSU2_Validate sc with
      | Some e => Err (EListenerConfig (Some e))
      | None =>
          match GenerateConnectionID reads with
          | Err e => Err (EListenerID e)
          | Ok connID =>
              match NewSSU2Addr (Some local) (sRouterHash sc) connID "responder" with
              | Err e => Err (EListenerID e)
              | Ok addr =>
                  match intro_protector sc with
                  | Err e => Err (EIntroProtector e)
                  | Ok hp =>
                      Ok (mkListener sc addr [] ∅ (newTokenCacheFromConfig (Some sc))
                            (newFirstSightTracker (sFirstSightWindow sc) (sFirstSightMaxEntries sc))
                            (newTokenIssuanceLimiter (sGlobalTokenIssuanceRate sc) (sGlobalTokenIssuanceBurst sc) now) [] [] ∅ hp
                            (newIPRateLimiter sessionRequestsPerSecond sessionRateLimiterMaxIPs) 0 false)
                  end
              end
          end
      end
  end.

Definition validateWrapListenerParams (local : option UDPAddr) (config : option (SSU2Config U)) : option ListenerError :=
  match local, config with
  | None, _ => Some ENilUnderlying
  | _, None => Some (EListenerConfig None)
  | _, Some sc => match SSU2_Validate sc with Some e => Some (EListenerConfig (Some e)) | None => None end
  end.

Definition WrapSSU2Listener (local : option UDPAddr) (config : option (SSU2Config U)) (reads : list (option bytes)) (now : Z)
    : result ListenerError SSU2Listener :=
  match validateWrapListenerParams local config with
  | Some e => Err e
  | None => NewSSU2Listener local config reads now
  end.

(** [Start] starts the workers, the receive loop and the clean-up. *)
Definition Start (l : SSU2Listener) : option ListenerError := if lclosed l then Some EListenerClosed else None.

(** [Accept]: [None] while it waits; [pick] says which ready case [select] takes. *)
Definition Accept (pick : bool) (l : SSU2Listener) : option (SSU2Listener * result ListenerError nat) :=
  match acceptQueue l with
  | ptr :: q => if lclosed l && pick then Some (l, Err EListenerClosed) else Some (set_acceptQueue l q, Ok ptr)
  | [] => if lclosed l then Some (l, Err EListenerClosed) else None
  end.

Definition listener_Close (l : SSU2Listener) : SSU2Listener := if lclosed l then l else set_closed l.

Definition removeSession (l : SSU2Listener) (connID : Z) : SSU2Listener := set_sessions l (delete connID (sessions l)).

Definition listener_AddSession (l : SSU2Listener) (connID : Z) (ptr : nat) : SSU2Listener :=
  set_sessions l (<[connID := ptr]> (sessions l)).

Definition SessionCount (l : SSU2Listener) : Z := Z.of_nat (size (sessions l)).

(** [ListenSSU2]; [listen_ok] tells whether the socket could be opened. *)
Definition ListenSSU2 (listen_ok : bool) (addr : option UDPAddr) (config : option (SSU2Config U)) (reads : list (option bytes)) (now : Z)
    : result (DialError + ListenerError) SSU2Listener :=
  match validateListenParams addr config with
  | Some e => Err (inl e)
  | None =>
      if negb listen_ok then Err (inl EUDPDial)
      else match NewSSU2Listener addr config reads now with
      | Err e => Err (inr e)
      | Ok l => match Start l with Some e => Err (inr e) | None => Ok l end
      end
  end.

(** ** Runs *)

(** [NewConn] is a connection that the application made elsewhere; [AddConn] and
    [RouteConn] are [AddSession] of the listener and of its router. *)
Inductive ListenerOp :=
| Arrive (r : ReadFrom)
| Work (env : Env)
| CleanTokens (t : Z)
| AcceptConn (pick : bool)
| CloseListener
| RemoveConn (connID : Z)
| Unroute (connID : Z)
| NewConn (s : @SSU2Session NX UDPAddr)
| AddConn (connID : Z) (ptr : nat)
| RouteConn (ptr : nat).

Definition op_step (l : SSU2Listener) (op : ListenerOp) : SSU2Listener * list Event :=
  match op with
  | Arrive r => (default l (fst <$> receiveLoop_turn r backoffMin l), [])
  | Work env => default (l, []) (packetWorker_turn env l)
  | CleanTokens t => (tokenCleanup_tick t l, [])
  | AcceptConn pick =>
      match Accept pick l with
      | Some (l, r) => (l, match r with Ok ptr => [Accepted ptr] | Err _ => [] end)
      | None => (l, [])
      end
  | CloseListener => (listener_Close l, [])
  | RemoveConn connID => (removeSession l connID, [])
  | Unroute connID => (router_RemoveSession l connID, [])
  | NewConn s => (set_conns l (conns l ++ [s]), [])
  | AddConn connID ptr => (listener_AddSession l connID ptr, [])
  | RouteConn ptr => ((router_AddSession ptr l).1.1, [])
  end.

Fixpoint listener_run (l : SSU2Listener) (ops : list ListenerOp) : SSU2Listener * list Event :=
  match ops with
  | [] => (l, [])
  | op :: ops => let '(l, evs) := op_step l op in let '(l, evs') := listener_run l ops in (l, evs ++ evs')
  end.

(** *** Workers that interleave

    A worker with a packet that was parsed, by what it does next: look the connection up,
    give it the packet, or the steps of [handleNewSession] and of the router that make a
    new connection; [WRetry] is the second part of [handleIncomingPacket]. *)
Inductive WorkerStage :=
| WRoute
| WDeliver (ptr : nat)
| WRate
| WToken
| WConnID
| WRegister (connID : Z)
| WQueue (ptr : nat)
| WAdd (ptr : nat)
| WRetry.

Record Worker := mkWorker {
  wStage : WorkerStage;
  wPacket : SSU2Packet;
  wAddr : UDPAddr;
  wEnv : Env;
}.

Definition at_stage (w : Worker) (stage : WorkerStage) : Worker := mkWorker stage (wPacket w) (wAddr w) (wEnv w).

(** After an error of [RoutePacket]. *)
Definition on_error (w : Worker) : option Worker :=
  if decide (MessageType (wPacket w) = MessageTypeTokenRequest) then Some (at_stage w WRetry) else None.

(** A step that goes on to another stage. *)
Definition go_on {A} (w : Worker) (r : SSU2Listener * list Event * result ListenerError A) (next : A -> option WorkerStage)
    : SSU2Listener * list Event * option Worker :=
  match r with
  | (l, evs, Ok a) => (l, evs, at_stage w <$> next a)
  | (l, evs, Err _) => (l, evs, on_error w)
  end.

(** The connection for a packet, up to its registration. *)
Definition make_conn (packet : SSU2Packet) (remoteAddr : UDPAddr) (connID : Z) (env : Env) : Act nat :=
  l ← get;
  let connConfig := buildConnConfig (lconfig l) packet connID in
  if negb (sInitiatorConnectionID connConfig =? 0) && (sInitiatorConnectionID connConfig =? connID) then throw EIDCollision
  else
    conn ← lift ENewConn (NewSSU2Conn true (Some remoteAddr) (Some connConfig) false (sStaticKey (lconfig l)) None [] (now env));
    register_conn conn connID (MessageType packet) (String_ remoteAddr).

(** The next step of a worker; without a worker left, the packet is done. *)
Definition worker_step (l : SSU2Listener) (w : Worker) : SSU2Listener * list Event * option Worker :=
  let '(mkWorker stage packet remoteAddr env) := w in
  match stage with
  | WRoute =>
      match Session.ExtractConnectionID (Header packet) with
      | Err _ => (l, [], on_error w)
      | Ok connID =>
          match routes l !! connID with
          | Some ptr => (l, [], Some (at_stage w (WDeliver ptr)))
          | None => (l, [], if CanCreateSession (MessageType packet) then Some (at_stage w WRate) else on_error w)
          end
      end
  | WDeliver ptr => go_on w (deliver_to ptr packet env l) (fun _ => None)
  | WRate => go_on w (enforceRateLimit remoteAddr env l) (fun _ => Some WToken)
  | WToken => go_on w (handleSessionRequestToken packet remoteAddr env l) (fun _ => Some WConnID)
  | WConnID => go_on w (generateUniqueConnectionID env l) (fun connID => Some (WRegister connID))
  | WRegister connID => go_on w (make_conn packet remoteAddr connID env l) (fun ptr => Some (WQueue ptr))
  | WQueue ptr => go_on w (queue_conn ptr env l) (fun ptr => Some (WAdd ptr))
  | WAdd ptr => go_on w (router_AddSession ptr l) (fun _ => None)
  | WRetry => ((processTokenRequest packet remoteAddr env l).1, None)
  end.

(** A worker that is alone, for at most [n] steps. *)
Fixpoint worker_alone (n : nat) (l : SSU2Listener) (w : Worker) : option (SSU2Listener * list Event) :=
  match n with
  | O => None
  | S n =>
      match worker_step l w with
      | (l, evs, None) => Some (l, evs)
      | (l, evs, Some w) =>
          match worker_alone n l w with
          | Some (l, evs') => Some (l, evs ++ evs')
          | None => None
          end
      end
  end.

(** What happens to the listener and its workers: an operation, where [Work] is a free
    worker that takes a packet, or a step of worker [i]. *)
Inductive Action := Do (op : ListenerOp) | Advance (i : nat).

Definition action_step (st : SSU2Listener * list Worker) (a : Action) : SSU2Listener * list Worker * list Event :=
  let '(l, ws) := st in
  match a with
  | Do (Work env) =>
      match packetQueue l with
      | pkt :: q =>
          if decide (length ws < packetWorkers)%nat then
            let l := set_packetQueue l q (droppedPackets l) in
            match listener_parseInboundPacket (introHeaderProtector l) (inData pkt) (now env) with
            | Some packet => (l, ws ++ [mkWorker WRoute packet (inAddr pkt) env], [])
            | None => (l, ws, [])
            end
          else (l, ws, [])
      | [] => (l, ws, [])
      end
  | Do op => let '(l, evs) := op_step l op in (l, ws, evs)
  | Advance i =>
      match ws !! i with
      | None => (l, ws, [])
      | Some w => let '(l, evs, w) := worker_step l w in (l, take i ws ++ option_list w ++ drop (S i) ws, evs)
      end
  end.

Fixpoint actions (st : SSU2Listener * list Worker) (acts : list Action) : SSU2Listener * list Worker * list Event :=
  match acts with
  | [] => (st, [])
  | a :: acts => let '(st, evs) := action_step st a in let '(st, evs') := actions st acts in (st, evs ++ evs')
  end.

(** The clock readings of a run. *)
Definition op_clock (op : ListenerOp) : list Z := match op with Work env => [now env] | CleanTokens t => [t] | _ => [] end.

(** A property of the listener, its log and the clock that every operation keeps. *)
Lemma run_timed (J : Z -> SSU2Listener -> list Event -> Prop) :
  (forall t l log op, J t l log -> Forall (fun t' => t <= t') (op_clock op) ->
    let '(l', evs) := op_step l op in J (default t (head (op_clock op))) l' (log ++ evs)) ->
  forall ops t l log, J t l log -> StronglySorted Z.le (t :: concat (map op_clock ops)) ->
  exists t', let '(l', evs) := listener_run l ops in J t' l' (log ++ evs).
Proof.
  intros Hstep ops. induction ops as [|op ops IH]; intros t l log H Hs; cbn [listener_run]; [exists t; by rewrite app_nil_r|].
  cbn [map concat] in Hs. inversion_clear Hs as [|? ? Hs' Hall]. apply Forall_app in Hall as [Hop Hops].
  pose proof (Hstep t l log op H Hop) as Ho. destruct (op_step l op) as [l1 evs1].
  destruct (IH (default t (head (op_clock op))) l1 (log ++ evs1) Ho) as [t' Ht'].
  - destruct op; cbn [op_clock app head default] in *; try done; by constructor.
  - exists t'. destruct (listener_run l1 ops). by rewrite app_assoc.
Qed.

(** A time before all readings of the clock. *)
Lemma before_all ts : StronglySorted Z.le ts -> StronglySorted Z.le (default 0 (head ts) :: ts).
Proof.
  intros Hs. destruct ts as [|t ts]; [by repeat constructor|]. cbn [head default]. constructor; [done|].
  inversion_clear Hs as [|? ? _ Hall]. by constructor.
Qed.

(** ** Reasoning about steps *)

(** From a listener and a log in [Pre], the step ends in [Post] with its events added. *)
Definition triple {A} (Pre : SSU2Listener -> list Event -> Prop) (m : Act A)
    (Post : result ListenerError A -> SSU2Listener -> list Event -> Prop) : Prop :=
  forall l log, Pre l log -> let '(l', evs, r) := m l in Post r l' (log ++ evs).

Lemma triple_ret {A} (Post : result ListenerError A -> SSU2Listener -> list Event -> Prop) (a : A) : triple (Post (Ok a)) (mret a) Post.
Proof. intros l log H. unfold mret, Act_ret. by rewrite app_nil_r. Qed.

Lemma triple_throw {A} (Post : result ListenerError A -> SSU2Listener -> list Event -> Prop) e : triple (Post (Err e)) (throw e) Post.
Proof. intros l log H. unfold throw. by rewrite app_nil_r. Qed.

Lemma triple_bind {A B} (Pre : SSU2Listener -> list Event -> Prop) (m : Act A) (k : A -> Act B)
    (Mid : result ListenerError A -> SSU2Listener -> list Event -> Prop) (Post : result ListenerError B -> SSU2Listener -> list Event -> Prop) :
  triple Pre m Mid -> (forall a, triple (Mid (Ok a)) (k a) Post) -> (forall e l log, Mid (Err e) l log -> Post (Err e) l log) ->
  triple Pre (m ≫= k) Post.
Proof.
  intros Hm Hk He l log Hp. specialize (Hm l log Hp). unfold mbind, Act_bind. destruct (m l) as [[l1 evs] [a|e]]; [|by apply He].
  specialize (Hk a l1 (log ++ evs) Hm). destruct (k a l1) as [[l2 evs2] r]. by rewrite app_assoc.
Qed.

(** The state is read: what follows may use it. *)
Lemma triple_get {B} (Pre : SSU2Listener -> list Event -> Prop) (k : SSU2Listener -> Act B) Post :
  (forall l0, triple (fun l log => l = l0 /\ Pre l log) (k l0) Post) -> triple Pre (get ≫= k) Post.
Proof.
  intros Hk l log Hp. specialize (Hk l l log (conj eq_refl Hp)). unfold mbind, Act_bind, get. cbn. by destruct (k l l) as [[l2 evs2] r].
Qed.

Lemma triple_put {B} (Pre : SSU2Listener -> list Event -> Prop) l0 (k : unit -> Act B) Post :
  triple (fun l log => l = l0 /\ exists l1, Pre l1 log) (k ()) Post -> triple Pre (put l0 ≫= k) Post.
Proof.
  intros Hk l log Hp. assert (H1 : l0 = l0 /\ exists l1, Pre l1 log) by eauto. specialize (Hk l0 log H1).
  unfold mbind, Act_bind, put. cbn. by destruct (k () l0) as [[l2 evs2] r].
Qed.

Lemma triple_pre {A} (Pre Pre' : SSU2Listener -> list Event -> Prop) (m : Act A) Post :
  (forall l log, Pre l log -> Pre' l log) -> triple Pre' m Post -> triple Pre m Post.
Proof. intros H Hm l log Hp. by apply Hm, H. Qed.

Lemma triple_emit (Pre : SSU2Listener -> list Event -> Prop) ev (Post : result ListenerError unit -> SSU2Listener -> list Event -> Prop) :
  (forall l log, Pre l log -> Post (Ok ()) l (log ++ [ev])) -> triple Pre (emit ev) Post.
Proof. intros H l log Hp. by apply H. Qed.

Lemma triple_lift {E A B} (wrap : E -> ListenerError) (r : result E A) (k : A -> Act B) Pre Post :
  (forall a, r = Ok a -> triple Pre (k a) Post) -> (forall e, r = Err e -> forall l log, Pre l log -> Post (Err (wrap e)) l log) -> triple Pre (lift wrap r ≫= k) Post.
Proof.
  intros Hk He. destruct r as [a|e].
  - intros l log Hp. specialize (Hk a eq_refl l log Hp). unfold mbind, Act_bind, lift, mret, Act_ret. by destruct (k a l) as [[l2 evs2] r2].
  - intros l log Hp. unfold mbind, Act_bind, lift, throw. rewrite app_nil_r. by apply He.
Qed.

(** ** The ledger of tokens *)

Definition tokenTTL : Z := 60 * Second.

(** The tokens that are out, with the time of their last issue, and the address whose
    token was used by the last event. *)
Definition Ledger : Type := gmap string (bytes * Z) * option string.

(** What an event does to the ledger; [None]: the event is not allowed. A token is used
    by the address it was issued to, once, within its lifetime; if tokens are required,
    a connection is registered for a SessionRequest right after the use of a token. *)
Definition ledger_step (required : bool) (st : option Ledger) (ev : Event) : option Ledger :=
  match st with
  | None => None
  | Some (m, used) =>
      match ev with
      | Issued k v t => Some (<[k := (v, t)]> m, None)
      | Used k v t =>
          match m !! k with
          | Some (v', t') => if decide (v = v' /\ t - t' <= tokenTTL) then Some (delete k m, Some k) else None
          | None => None
          end
      | Registered _ ty k =>
          if required && bool_decide (ty = MessageTypeSessionRequest) && negb (bool_decide (used = Some k)) then None else Some (m, None)
      | Accepted _ | Sent _ _ => Some (m, None)
      end
  end.

Definition ledger (required : bool) (log : list Event) : option Ledger := foldl (ledger_step required) (Some (∅, None)) log.

Lemma ledger_snoc required log ev : ledger required (log ++ [ev]) = ledger_step required (ledger required log) ev.
Proof. unfold ledger. by rewrite foldl_app. Qed.

Lemma ledger_prefix required log evs : is_Some (ledger required (log ++ evs)) -> is_Some (ledger required log).
Proof.
  induction evs as [|ev evs IH] using rev_ind; [by rewrite app_nil_r|]. rewrite app_assoc, ledger_snoc. intros H. apply IH.
  by destruct (ledger required (log ++ evs)).
Qed.

(** A token that is out was issued, and not used since. *)
Lemma ledger_out required log m used k v t :
  ledger required log = Some (m, used) -> m !! k = Some (v, t) ->
  exists pre post, log = pre ++ Issued k v t :: post /\ forall v' t', Used k v' t' ∉ post.
Proof.
  revert m used. induction log as [|ev log IH] using rev_ind; intros m used.
  { intros [= <- _]. by rewrite lookup_empty. }
  rewrite ledger_snoc. destruct (ledger required log) as [[m0 used0]|] eqn:E; [|done].
  assert (Hold : m0 !! k = Some (v, t) -> (forall v' t', ev <> Used k v' t') ->
    exists pre post, log ++ [ev] = pre ++ Issued k v t :: post /\ forall v' t', Used k v' t' ∉ post).
  { intros Hm Hev. destruct (IH m0 used0 eq_refl Hm) as (pre & post & -> & Hp). exists pre, (post ++ [ev]). split; [by rewrite <- app_assoc|].
    intros v' t' [?|Heq%list_elem_of_singleton]%elem_of_app; [by eapply Hp|]. by eapply Hev. }
  destruct ev as [k' v' t'|k' v' t'|p ty k'|p|to d]; cbn [ledger_step].
  - intros [= <- _]. rewrite lookup_insert_Some. intros [[-> [= -> ->]]|[_ Hm]]; [|by apply Hold].
    exists log, []. split; [done|]. intros ? ?. apply not_elem_of_nil.
  - destruct (m0 !! k') as [[v0 t0]|]; [|done]. case_decide; [|done]. intros [= <- _].
    rewrite lookup_delete_Some. intros [Hne Hm]. apply Hold; [done|]. congruence.
  - destruct (_ && _); [done|]. intros [= <- _] Hm. by apply Hold.
  - intros [= <- _] Hm. by apply Hold.
  - intros [= <- _] Hm. by apply Hold.
Qed.

(** A use follows an issue to the address within the lifetime. *)
Lemma ledger_used required pre k v t post :
  is_Some (ledger required (pre ++ Used k v t :: post)) ->
  exists pre1 pre2 t', pre = pre1 ++ Issued k v t' :: pre2 /\ t - t' <= tokenTTL /\ forall v' t', Used k v' t' ∉ pre2.
Proof.
  rewrite cons_middle, app_assoc. intros H%ledger_prefix. rewrite ledger_snoc in H.
  destruct (ledger required pre) as [[m used]|] eqn:E; [|by destruct H]. cbn [ledger_step] in H.
  destruct (m !! k) as [[v0 t0]|] eqn:Em; [|by destruct H]. case_decide as Hd; [|by destruct H]. destruct Hd as [<- Ht].
  destruct (ledger_out _ _ _ _ _ _ _ E Em) as (pre1 & pre2 & -> & Hno). by exists pre1, pre2, t0.
Qed.

(** With required tokens a registration follows a use. *)
Lemma ledger_registered pre p k post :
  is_Some (ledger true (pre ++ Registered p MessageTypeSessionRequest k :: post)) -> exists pre' v t, pre = pre' ++ [Used k v t].
Proof.
  rewrite cons_middle, app_assoc. intros H%ledger_prefix. rewrite ledger_snoc in H.
  destruct (ledger true pre) as [[m used]|] eqn:E; [|by destruct H]. cbn [ledger_step andb] in H.
  rewrite bool_decide_eq_true_2 in H by done. case_bool_decide as Hu; [|by destruct H]. subst used. clear H.
  destruct pre as [|ev pre _] using rev_ind; [done|]. rewrite ledger_snoc in E. destruct (ledger true pre) as [[m0 used0]|]; [|done].
  destruct ev as [k' v' t'|k' v' t'|p' ty k'|p'|to d]; cbn [ledger_step] in E; try done.
  - destruct (m0 !! k') as [[v0 t0]|]; [|done]. case_decide; [|done]. injection E as _ <-. by exists pre, v', t'.
  - by destruct (_ && _).
Qed.

(** ** Tokens in the cache are in the ledger *)

(** [AddSession] of the router changes the router. *)
Lemma router_AddSession_only ptr l : exists m, (router_AddSession ptr l).1.1 = set_routes l m.
Proof.
  exists (routes (router_AddSession ptr l).1.1). unfold router_AddSession, mbind, Act_bind, get. destruct (conns l !! ptr); [|by destruct l].
  destruct (routes l !! _); by destruct l.
Qed.

Section Gate.
Context (required : bool).

(** At time [t]; if [need] is an address, its token was just used. *)
Definition gated (t : Z) (need : option string) (l : SSU2Listener) (log : list Event) : Prop :=
  sRequireRetry (lconfig l) = required /\ TokenCache.ttl (tokenCache l) = tokenTTL /\ exists m used,
  ledger required log = Some (m, used) /\ (forall k, need = Some k -> used = Some k)
  /\ forall k e, TokenCache.tokens (tokenCache l) !! k = Some e ->
       TokenCache.CreatedAt e <= t /\ exists t', m !! k = Some (Value e, t') /\ TokenCache.CreatedAt e <= t'.

Lemma gated_same t need l l' log :
  lconfig l' = lconfig l -> tokenCache l' = tokenCache l -> gated t need l log -> gated t need l' log.
Proof. unfold gated. by intros -> ->. Qed.

Lemma gated_none t need l log : gated t need l log -> gated t None l log.
Proof. intros (H1 & H2 & m & used & H3 & _ & H4). split_and!; [done..|]. by exists m, used. Qed.

Lemma gated_later t t' l log : t <= t' -> gated t None l log -> gated t' None l log.
Proof.
  intros Ht (H1 & H2 & m & used & H3 & H4 & H5). split_and!; [done..|]. exists m, used. split_and!; [done..|].
  intros k e Hk. destruct (H5 k e Hk) as [? ?]. split; [lia|done].
Qed.

(** Fewer tokens in the cache. *)
Lemma gated_fewer t need l log tc :
  TokenCache.ttl tc = TokenCache.ttl (tokenCache l) -> TokenCache.tokens tc ⊆ TokenCache.tokens (tokenCache l) ->
  gated t need l log -> gated t need (set_tokenCache l tc) log.
Proof.
  intros Ht Hs (H1 & H2 & m & used & H3 & H4 & H5). split_and!; [done|by rewrite <- H2|]. exists m, used. split_and!; [done..|].
  intros k e Hk. apply H5. by eapply lookup_weaken.
Qed.

Lemma gated_sent t l log to d : gated t None l log -> gated t None l (log ++ [Sent to d]).
Proof.
  intros (H1 & H2 & m & used & H3 & _ & H5). split_and!; [done..|]. exists m, None. rewrite ledger_snoc, H3. by split_and!.
Qed.

Lemma gated_accepted t l log p : gated t None l log -> gated t None l (log ++ [Accepted p]).
Proof.
  intros (H1 & H2 & m & used & H3 & _ & H5). split_and!; [done..|]. exists m, None. rewrite ledger_snoc, H3. by split_and!.
Qed.

Lemma gated_sent_all t l log to ds : gated t None l log -> gated t None l (log ++ map (Sent to) ds).
Proof.
  revert log. induction ds as [|d ds IH]; intros log H; [by rewrite app_nil_r|]. cbn [map]. rewrite cons_middle, app_assoc.
  by apply IH, gated_sent.
Qed.

Lemma gated_issued env l log tc addr v :
  GenerateToken String_ (tokenCache l) (Some addr) (rndToken env) (now env) (now env) = (tc, Ok v) ->
  gated (now env) None l log -> gated (now env) None (set_tokenCache l tc) (log ++ [Issued (String_ addr) v (now env)]).
Proof.
  intros Hg (H1 & H2 & m & used & H3 & _ & H5). destruct (GenerateToken_others _ _ _ _ _ _ _ _ Hg) as (Ht & Ho & _).
  destruct (GenerateToken_entry _ _ _ _ _ _ _ _ Hg) as (_ & e & He & Hv & _).
  assert (Hc : TokenCache.CreatedAt e <= now env).
  { unfold GenerateToken in Hg. destruct (TokenCache.tokens (tokenCache l) !! String_ addr) as [e0|] eqn:E0.
    - destruct (_ <=? _); [injection Hg as <- _; rewrite E0 in He; injection He as <-; by apply (H5 (String_ addr))|].
      destruct (rndToken env); [|done]. injection Hg as <- _. cbn in He. rewrite lookup_insert_eq in He. by injection He as <-.
    - destruct (rndToken env); [|done]. injection Hg as <- _. cbn in He. rewrite lookup_insert_eq in He. by injection He as <-. }
  split_and!; [done|by rewrite <- H2|]. exists (<[String_ addr := (v, now env)]> m), None. rewrite ledger_snoc, H3.
  split_and!; [done|done|]. intros k e' Hk. cbn [tokenCache set_tokenCache] in Hk. destruct (decide (k = String_ addr)) as [-> |Hne].
  - rewrite He in Hk. injection Hk as <-. split; [done|]. exists (now env). by rewrite lookup_insert_eq, Hv.
  - rewrite lookup_insert_ne by done. apply H5. by eapply Ho.
Qed.

Lemma gated_used env l log tc addr v :
  ConsumeToken String_ (tokenCache l) v (Some addr) (now env) = (tc, true) -> gated (now env) None l log ->
  gated (now env) (Some (String_ addr)) (set_tokenCache l tc) (log ++ [Used (String_ addr) v (now env)]).
Proof.
  intros Hg (H1 & H2 & m & used & H3 & _ & H5).
  destruct (ConsumeToken_entries _ _ _ _ _ _ _ Hg) as (Ht & _ & Hok). destruct (Hok eq_refl) as (Hd & e & He & Hv & Httl).
  destruct (H5 _ _ He) as (Hc & t' & Hm & Hct).
  split_and!; [done|by rewrite <- H2|]. exists (delete (String_ addr) m), (Some (String_ addr)). rewrite ledger_snoc, H3.
  cbn [ledger_step]. rewrite Hm, decide_True.
  - split_and!; [done|by intros k [= <-]|]. intros k e' Hk. cbn [tokenCache set_tokenCache] in Hk. rewrite Hd in Hk.
    apply lookup_delete_Some in Hk as [Hne Hk]. rewrite lookup_delete_ne by done. by apply H5.
  - split; [done|]. rewrite H2 in Httl. unfold time_sub, tokenTTL, maxDuration, minDuration, Second in *. lia.
Qed.
(** Steps that keep the tokens in the ledger. *)
Definition keeps {A} (t : Z) (m : Act A) : Prop := triple (gated t None) m (fun _ => gated t None).

Lemma keeps_ret {A} t (a : A) : keeps t (mret a).
Proof. apply (triple_ret (fun _ => gated t None)). Qed.

Lemma keeps_throw {A} t e : keeps (A := A) t (throw e).
Proof. apply (triple_throw (fun _ => gated t None)). Qed.

Lemma keeps_at {A} t l0 (m : Act A) : keeps t m -> triple (fun l log => l = l0 /\ gated t None l log) m (fun _ => gated t None).
Proof. intros Hm. eapply triple_pre; [|exact Hm]. by intros l log [_ H]. Qed.

(** Storing a listener with the same settings and tokens. *)
Lemma keeps_put {B} t l0 l1 (k : unit -> Act B) Post :
  lconfig l1 = lconfig l0 -> tokenCache l1 = tokenCache l0 -> triple (fun l log => l = l1 /\ gated t None l log) (k ()) Post ->
  triple (fun l log => l = l0 /\ gated t None l log) (put l1 ≫= k) Post.
Proof.
  intros Hc Ht Hk. apply triple_put. eapply triple_pre; [|exact Hk]. intros l log [-> (l' & -> & H)]. split; [done|].
  by eapply gated_same.
Qed.

Lemma sendRetry_keeps t addr token hdr size env : keeps t (sendRetry addr token hdr size env).
Proof.
  unfold sendRetry. destruct (negb (zlen token =? TokenSize)); [apply keeps_throw|]. apply triple_get. intros l0. apply keeps_at.
  apply triple_lift; [|done]. intros payload _. destruct (buildRetryHeader _ _ _) as [header|]; [|apply keeps_throw].
  apply triple_lift; [|done]. intros d _. destruct (_ && _); [apply keeps_throw|]. destruct (negb _); [apply keeps_throw|].
  apply triple_emit. intros l log H. by apply gated_sent.
Qed.

Lemma processTokenRequest_keeps packet addr env : keeps (now env) (processTokenRequest packet addr env).
Proof.
  unfold processTokenRequest. apply triple_get. intros l0. destruct (if sFirstSightRequired _ then _ else _) as [fs seen].
  apply keeps_put; [done..|]. destruct seen; cbn [negb]; [|apply keeps_at, keeps_throw]. destruct (issuance_Allow _ _) as [il ok].
  apply keeps_put; [done..|]. destruct ok; cbn [negb]; [|apply keeps_at, keeps_throw].
  destruct (GenerateToken _ _ _ _ _ _) as [tc [v|e]] eqn:Hg; apply triple_put.
  - apply triple_lift; [|done]. intros token <-%Ok_inj.
    eapply (triple_bind _ _ _ (fun _ => gated (now env) None)); [|intros []; apply sendRetry_keeps|done].
    apply triple_emit. intros l log [-> (l1 & -> & H)].
    eapply (gated_issued env (set_gates l0 fs il)); [exact Hg|]. by eapply gated_same.
  - apply triple_lift; [done|]. intros e' _ l log [-> (l1 & -> & H)]. apply GenerateToken_others in Hg as (_ & _ & ->); [|done].
    by eapply gated_same.
Qed.

(** The token of a SessionRequest: when it was accepted, its use is the last event. *)
Lemma validate_token_gated packet addr env :
  triple (gated (now env) None) (validateSessionRequestToken packet addr env)
    (fun r l log => gated (now env) (match r with Ok None => Some (String_ addr) | _ => None end) l log).
Proof.
  unfold validateSessionRequestToken. set (Post := fun r l log => _).
  case_decide as Hl; [exact (triple_ret Post (Some _))|]. destruct (DeserializeBlocks _) as [blocks|]; [|exact (triple_ret Post (Some _))].
  destruct (FindBlockByType _ _) as [b|]; [|exact (triple_ret Post (Some _))]. destruct (ParseNewTokenBlock b) as [nt|]; [|exact (triple_ret Post (Some _))].
  destruct (_ <? _); [exact (triple_ret Post (Some _))|]. apply triple_get. intros l0.
  destruct (ConsumeToken _ _ _ _ _) as [tc ok] eqn:Hc. apply triple_put. destruct ok; cbn [negb].
  - eapply (triple_bind _ _ _ (fun _ => gated (now env) (Some (String_ addr)))); [|intros []; exact (triple_ret Post None)|].
    + apply triple_emit. intros l log [-> (l1 & -> & H)]. by apply gated_used.
    + intros e l log. apply gated_none.
  - eapply triple_pre; [|exact (triple_ret Post (Some (Some EInvalidToken)))]. intros l log [-> (l1 & -> & H)].
    apply ConsumeToken_entries in Hc as (Ht & Hs & _). by apply gated_fewer.
Qed.

(** A SessionRequest is let through right after the use of its token, if tokens are required. *)
Definition needed (packet : SSU2Packet) (addr : UDPAddr) : option string :=
  if required && bool_decide (MessageType packet = MessageTypeSessionRequest) then Some (String_ addr) else None.

Lemma token_gate packet addr env :
  triple (gated (now env) None) (handleSessionRequestToken packet addr env)
    (fun r => gated (now env) (if is_ok r then needed packet addr else None)).
Proof.
  unfold handleSessionRequestToken, needed. set (Post := fun r => gated _ _). case_decide as Ht.
  { eapply triple_pre; [|exact (triple_ret Post ())]. intros l log H. unfold Post. cbn [is_ok]. by rewrite bool_decide_eq_false_2, andb_false_r. }
  eapply triple_bind; [apply validate_token_gated| |by intros e l log; apply gated_none].
  intros err. apply triple_get. intros l0. destruct err as [[e|]|].
  - eapply triple_pre; [|exact (triple_throw Post e)]. by intros l log [_ H].
  - destruct (sRequireRetry (lconfig l0)) eqn:Hr.
    + eapply (triple_pre _ (gated (now env) None)); [by intros l log [_ H]|].
      eapply triple_bind; [apply processTokenRequest_keeps|intros []; exact (triple_throw Post _)|done].
    + eapply triple_pre; [|exact (triple_ret Post ())]. intros l log [-> H]. unfold Post. by rewrite <- (proj1 H), Hr.
  - eapply triple_pre; [|exact (triple_ret Post ())]. intros l log [-> H]. unfold Post. cbn [is_ok].
    destruct (_ && _); [done|by eapply gated_none].
Qed.

Lemma unique_id_spec Pre env :
  triple Pre (generateUniqueConnectionID env)
    (fun r l log => Pre l log /\ forall id, r = Ok id -> 0 < id < 2 ^ 64 /\ sessions l !! id = None).
Proof.
  unfold generateUniqueConnectionID. set (Post := fun r l log => _). apply triple_get. intros l0.
  assert (Hok : forall id reads, GenerateConnectionID reads = Ok id -> sessions l0 !! id = None ->
    triple (fun l log => l = l0 /\ Pre l log) (mret id) Post).
  { intros id reads Hg Hs. eapply triple_pre; [|exact (triple_ret Post id)]. intros l log [-> H]. split; [done|]. intros id' <-%Ok_inj.
    split; [by eapply connection_id_range|done]. }
  apply triple_lift; [|by intros e _ l log [-> H]]. intros id Hid. destruct (sessions l0 !! id) eqn:E; [|by eapply Hok].
  apply triple_lift; [|by intros e _ l log [-> H]]. intros id' Hid'. destruct (sessions l0 !! id') eqn:E'; [|by eapply Hok].
  eapply triple_pre; [|exact (triple_throw Post _)]. by intros l log [-> H].
Qed.

Lemma gated_registered t l log p ty addr k :
  k = String_ addr -> gated t (if required && bool_decide (ty = MessageTypeSessionRequest) then Some k else None) l log ->
  gated t None l (log ++ [Registered p ty k]).
Proof.
  intros -> (H1 & H2 & m & used & H3 & Hu & H5). split_and!; [done..|]. exists m, None. rewrite ledger_snoc, H3. cbn [ledger_step].
  destruct (required && _); [|done]. by rewrite (Hu _ eq_refl), bool_decide_eq_true_2.
Qed.

Lemma queue_keeps t ptr env : keeps t (queue_conn ptr env).
Proof.
  unfold queue_conn. apply triple_get. intros l0. case_decide; [|apply keeps_at, keeps_throw]. destruct (_ && _); [apply keeps_at, keeps_throw|].
  apply keeps_put; [done..|]. apply keeps_at, keeps_ret.
Qed.

Lemma new_session_keeps addr packet env : keeps (now env) (handleNewSession addr packet env).
Proof.
  unfold handleNewSession, keeps.
  eapply (triple_bind _ _ _ (fun _ => gated (now env) None)); [|intros []|done].
  { unfold enforceRateLimit. apply triple_get. intros l0. destruct (ip_Allow _ _ _) as [rl ok]. apply keeps_put; [done..|].
    destruct ok; apply keeps_at; [apply keeps_ret|apply keeps_throw]. }
  eapply triple_bind; [apply token_gate|intros []|done]. cbn [is_ok].
  eapply triple_bind; [apply unique_id_spec|intros connID|by intros e l log [H _]; eapply gated_none].
  apply triple_get. intros l0. destruct (_ && _).
  { eapply triple_pre; [|apply keeps_throw]. intros l log [_ [H _]]. by eapply gated_none. }
  apply triple_lift; [|by intros e _ l log [_ [H _]]; eapply gated_none]. intros c _. unfold registerAndQueueConn.
  eapply (triple_bind _ _ _ (fun _ => gated (now env) None)); [|intros ptr; apply queue_keeps|done].
  unfold register_conn. apply triple_get. intros l1. apply triple_put. set (l2 := set_sessions _ _).
  eapply (triple_bind _ _ _ (fun _ => gated (now env) None)); [|intros []; apply keeps_ret|done].
  apply triple_emit. intros l log [-> (l' & -> & -> & [H _])]. apply (gated_registered _ _ _ _ _ addr); [done|].
  by eapply gated_same.
Qed.

Lemma route_keeps packet addr env : keeps (now env) (listener_RoutePacket packet addr env).
Proof.
  unfold listener_RoutePacket. apply triple_lift; [|done]. intros connID _. apply triple_get. intros l0.
  destruct (routes l0 !! connID) as [ptr|].
  - apply keeps_at. unfold deliver_to. intros l log H. destruct (conns l !! ptr) as [s0|]; [|by rewrite app_nil_r].
    destruct (processInboundPacket _ _ _ _ _) as [c sent]. apply gated_sent_all. by eapply gated_same.
  - destruct (CanCreateSession _); [|apply keeps_at, keeps_throw]. apply keeps_at.
    eapply triple_bind; [apply new_session_keeps|intros ptr|done]. unfold router_AddSession. apply triple_get. intros l1.
    destruct (conns l1 !! ptr) as [s0|]; [|apply keeps_at, keeps_ret]. destruct (routes l1 !! _); [apply keeps_at, keeps_throw|].
    intros l log [-> H]. cbn. rewrite app_nil_r. by eapply gated_same.
Qed.

Lemma incoming_keeps d addr env l log :
  gated (now env) None l log -> let '(l', evs) := handleIncomingPacket d addr env l in gated (now env) None l' (log ++ evs).
Proof.
  intros H. unfold handleIncomingPacket. destruct (listener_parseInboundPacket _ _ _) as [packet|]; [|by rewrite app_nil_r].
  pose proof (route_keeps packet addr env l log H) as Hr. destruct (listener_RoutePacket packet addr env l) as [[l1 evs1] [[]|e]]; [done|].
  case_decide; [|done]. pose proof (processTokenRequest_keeps packet addr env l1 _ Hr) as Hp.
  destruct (processTokenRequest packet addr env l1) as [[l2 evs2] r]. by rewrite app_assoc.
Qed.

Lemma op_keeps t l log op :
  gated t None l log -> Forall (fun t' => t <= t') (op_clock op) ->
  let '(l', evs) := op_step l op in gated (default t (head (op_clock op))) None l' (log ++ evs).
Proof.
  intros H Ht. assert (Hsame : forall l', lconfig l' = lconfig l -> tokenCache l' = tokenCache l -> gated t None l' (log ++ [])).
  { intros l' ? ?. rewrite app_nil_r. by eapply gated_same. }
  destruct op as [r|env|t'|pick| |id|id|s|id ptr|ptr]; cbn [op_step op_clock head default] in *.
  - apply Hsame; by destruct r as [|d [a|]]; cbn; try destruct (lclosed l); try case_decide.
  - rewrite Forall_singleton in Ht. apply (gated_later _ _ _ _ Ht) in H. unfold packetWorker_turn.
    destruct (packetQueue l) as [|pkt q]; cbn [default]; [by rewrite app_nil_r|]. apply incoming_keeps. by eapply gated_same.
  - rewrite Forall_singleton in Ht. apply (gated_later _ _ _ _ Ht) in H. rewrite app_nil_r. unfold tokenCleanup_tick.
    destruct (Cleanup_entries (tokenCache l) t'). by apply gated_fewer.
  - unfold Accept. destruct (acceptQueue l) as [|ptr q]; [destruct (lclosed l); by apply Hsame|].
    destruct (_ && _); [by apply Hsame|]. apply gated_accepted. by eapply gated_same.
  - apply Hsame; unfold listener_Close; by destruct (lclosed l).
  - by apply Hsame.
  - by apply Hsame.
  - by apply Hsame.
  - by apply Hsame.
  - destruct (router_AddSession_only ptr l) as [m ->]. by apply Hsame.
Qed.
End Gate.

(** ** The Retry datagram *)

(** The Retry packet with its varying fields: destination and source ID, token, time
    and expiration. *)
Definition retry_header (dest src token : bytes) : bytes :=
  dest ++ replicate 4 x00 ++ [MessageTypeRetry; z2b SSU2ProtocolVersion; z2b SSU2NetworkID; x00] ++ src ++ token.

Definition retry_payload (dt ex token : bytes) : bytes :=
  [BlockTypeDateTime] ++ be_encode 2 4 ++ dt ++ [BlockTypeNewToken] ++ be_encode 2 12 ++ ex ++ token.

Definition retry_packet (dest src token dt ex : bytes) (now : Z) : SSU2Packet :=
  mkPacket (retry_header dest src token) [] (retry_payload dt ex token) (replicate MACSize x00) MessageTypeRetry 0 now.

Lemma retry_payload_blocks dt ex token :
  length dt = 4%nat -> length ex = 4%nat -> length token = 8%nat ->
  SerializeBlocks [NewSSU2Block BlockTypeDateTime dt; NewSSU2Block BlockTypeNewToken (ex ++ token)] = Ok (retry_payload dt ex token).
Proof.
  intros Hd He Ht. do 5 (destruct dt as [|? dt]; try done). do 5 (destruct ex as [|? ex]; try done).
  do 9 (destruct token as [|? token]; try done).
Qed.

Lemma buildRetryPayload_spec tc token t :
  length token = 8%nat -> buildRetryPayload tc token t
    = Ok (retry_payload (be_encode 4 (u32 (t / Second))) (be_encode 4 (u32 ((t + TokenCache.ttl tc) / Second))) token).
Proof.
  intros Ht. unfold buildRetryPayload, NewNewTokenBlock. rewrite decide_False by (unfold zlen, TokenSize; rewrite Ht; auto).
  apply retry_payload_blocks; [apply length_be_encode..|done].
Qed.

(** What the initiator reads from it. *)
Lemma retry_packet_spec dest src token dt ex now now' (p := retry_packet dest src token dt ex now) :
  length dest = 8%nat -> length src = 8%nat -> length token = 8%nat -> length dt = 4%nat -> length ex = 4%nat ->
  exists d, (Packet.Serialize p).2 = Ok d /\ length d = 70%nat
    /\ exists r, Packet.Deserialize no_packet d now' = (r, None) /\ MessageType r = MessageTypeRetry
        /\ extractRetryToken r = Ok token /\ slice 0 8 (Header r) = dest /\ slice 24 32 (Header r) = token.
Proof.
  intros H1 H2 H3 H4 H5. do 9 (destruct dest as [|? dest]; try done). do 9 (destruct src as [|? src]; try done).
  do 9 (destruct token as [|? token]; try done). do 5 (destruct dt as [|? dt]; try done). do 5 (destruct ex as [|? ex]; try done).
  eexists. split; [reflexivity|]. split; [reflexivity|]. eexists. split; [reflexivity|]. split_and!; reflexivity.
Qed.

(** ** Properties *)

Lemma new_listener_inv local config reads t0 l :
  NewSSU2Listener local config reads t0 = Ok l ->
  exists addr sc connID hp, local = Some addr /\ config = Some sc /\ SSU2_Validate sc = None /\ intro_protector sc = Ok hp
    /\ l = mkListener sc (mkSSU2Addr addr (sRouterHash sc) connID "responder"%string None None) [] ∅ (newTokenCacheFromConfig (Some sc))
             (newFirstSightTracker (sFirstSightWindow sc) (sFirstSightMaxEntries sc))
             (newTokenIssuanceLimiter (sGlobalTokenIssuanceRate sc) (sGlobalTokenIssuanceBurst sc) t0) [] [] ∅ hp
             (newIPRateLimiter sessionRequestsPerSecond sessionRateLimiterMaxIPs) 0 false.
Proof.
  unfold NewSSU2Listener. destruct local as [addr|]; [|done]. destruct config as [sc|]; [|done]. destruct (SSU2_Validate sc) eqn:Hv; [done|].
  destruct (GenerateConnectionID reads) as [connID|]; [|done]. unfold NewSSU2Addr. destruct (_ =? _); [done|].
  destruct (_ && _); [done|]. destruct (intro_protector sc) as [hp|] eqn:Hp; [|done]. intros <-%Ok_inj. by exists addr, sc, connID, hp.
Qed.

Lemma new_cache (sc : SSU2Config U) :
  TokenCache.ttl (newTokenCacheFromConfig (Some sc)) = tokenTTL /\ TokenCache.tokens (newTokenCacheFromConfig (Some sc)) = ∅
  /\ 0 < TokenCache.maxSize (newTokenCacheFromConfig (Some sc)).
Proof.
  unfold newTokenCacheFromConfig, NewTokenCacheWithMaxSize. destruct (Z.ltb_spec 0 (sTokenCacheMaxSize sc)) as [H|H]; [|done].
  rewrite (proj2 (Z.ltb_lt _ _) H). done.
Qed.

(** C8: the Retry gate. When tokens are required, then in any run of a listener with a
    clock that does not go back, each connection that is registered for a SessionRequest
    is preceded by the use of a token that was issued to the same address at most 60
    seconds before, and that was not used since. *)
Theorem retry_gate (local : option UDPAddr) (config : option (SSU2Config U)) (reads : list (option bytes)) (t0 : Z) (l0 : SSU2Listener)
    (ops : list ListenerOp) :
  NewSSU2Listener local config reads t0 = Ok l0 -> sRequireRetry (lconfig l0) = true ->
  StronglySorted Z.le (concat (map op_clock ops)) ->
  forall pre p k post, (listener_run l0 ops).2 = pre ++ Registered p MessageTypeSessionRequest k :: post ->
  exists pre1 pre2 v t t', pre = pre1 ++ Issued k v t' :: pre2 ++ [Used k v t] /\ t - t' <= tokenTTL
    /\ forall v' u, Used k v' u ∉ pre2.
Proof.
  intros (addr & sc & connID & hp & _ & _ & _ & _ & ->)%new_listener_inv Hreq Hs pre p k post Hlog.
  set (l0 := mkListener _ _ _ _ _ _ _ _ _ _ _ _ _ _) in *. apply before_all in Hs.
  edestruct (run_timed (fun t => gated true t None) (op_keeps true) ops (default 0 (head (concat (map op_clock ops)))) l0 []) as [t' Hrun]; [|exact Hs|].
  - destruct (new_cache sc) as (Httl & Hempty & _). split_and!; [done..|]. exists ∅, None. split_and!; [done..|].
    intros k' e. cbn [tokenCache l0]. by rewrite Hempty, lookup_empty.
  - destruct (listener_run l0 ops) as [l' evs]. cbn [snd] in Hlog. subst evs. destruct Hrun as (_ & _ & m & used & Hl & _).
    assert (His : is_Some (ledger true (pre ++ Registered p MessageTypeSessionRequest k :: post))) by by eexists.
    destruct (ledger_registered _ _ _ _ His) as (pre' & v & t & ->). rewrite <- app_assoc in His.
    destruct (ledger_used _ _ _ _ _ _ His) as (pre1 & pre2 & ti & -> & Ht & Hno). exists pre1, pre2, v, t, ti.
    by rewrite <- app_assoc.
Qed.

(** A token is issued and sent. *)
Lemma sendRetry_spec addr token hdr size env l src :
  length token = 8%nat -> (24 <= length hdr)%nat -> rndSource env = Some src -> length src = 8%nat -> 70 <= 3 * size -> net_ok env = true ->
  exists d, sendRetry addr token hdr size env l = (l, [Sent addr d], Ok ()) /\ zlen d = 70
    /\ forall t', exists r, Packet.Deserialize no_packet d t' = (r, None) /\ MessageType r = MessageTypeRetry
        /\ extractRetryToken r = Ok token /\ slice 0 8 (Header r) = slice 16 24 hdr /\ slice 24 32 (Header r) = token.
Proof.
  intros Ht Hh Hsrc Hls Hsz Hnet. set (dest := slice 16 24 hdr).
  assert (Hd : length dest = 8%nat) by (unfold dest; rewrite length_slice; lia).
  set (dt := be_encode 4 (u32 (now env / Second))). set (ex := be_encode 4 (u32 ((now env + TokenCache.ttl (tokenCache l)) / Second))).
  destruct (retry_packet_spec dest src token dt ex (now env) 0) as (d & Hser & Hlen & _); [done..|]. exists d.
  split; [|split; [unfold zlen; by rewrite Hlen|]].
  - unfold sendRetry. replace (zlen token =? TokenSize) with true by (unfold zlen; by rewrite Ht). cbn [negb].
    unfold mbind, Act_bind, get, lift. rewrite buildRetryPayload_spec by done. unfold mret, Act_ret, buildRetryHeader.
    rewrite Hsrc, decide_True by done. fold dest dt ex. rewrite (firstn_all2 src), (firstn_all2 token) by lia.
    fold (retry_header dest src token). fold (retry_packet dest src token dt ex (now env)). rewrite Hser, Hnet.
    replace (zlen d) with 70 by (unfold zlen; by rewrite Hlen). replace (3 * size <? 70) with false by lia. by rewrite andb_false_r.
  - intros t'. destruct (retry_packet_spec dest src token dt ex (now env) t') as (d' & Hser' & _ & Hr); [done..|].
    rewrite Hser in Hser'. apply Ok_inj in Hser' as <-. exact Hr.
Qed.

(** The Retry for a request that the gates allow. *)
Lemma token_answer (data : bytes) (t t' : Z) (packet : SSU2Packet) (addr : UDPAddr) (env : Env) (l : SSU2Listener) :
  Packet.Deserialize no_packet data t = (packet, None) -> CanCreateSession (MessageType packet) = true ->
  (sFirstSightRequired (lconfig l) = true -> (ObserveAndAllow (firstSight l) (String_ addr) (now env)).2 = true) ->
  (issuance_Allow (issuanceLimiter l) (now env)).2 = true ->
  (forall v, rndToken env = Some v -> length v = 8%nat) -> is_Some (rndToken env) ->
  (forall k e, TokenCache.tokens (tokenCache l) !! k = Some e -> length (Value e) = 8%nat) ->
  0 <= TokenCache.ttl (tokenCache l) ->
  (exists src, rndSource env = Some src /\ length src = 8%nat) -> net_ok env = true ->
  exists l' v d r, processTokenRequest packet addr env l = (l', [Issued (String_ addr) v (now env); Sent addr d], Ok ())
    /\ zlen d = 70 /\ zlen d <= 3 * zlen data
    /\ Packet.Deserialize no_packet d t' = (r, None) /\ MessageType r = MessageTypeRetry
    /\ slice 0 8 (Header r) = slice 16 24 (Header packet) /\ extractRetryToken r = Ok v
    /\ ValidateToken String_ (tokenCache l') v (Some addr) (now env) = true
    /\ conns l' = conns l /\ sessions l' = sessions l /\ routes l' = routes l /\ acceptQueue l' = acceptQueue l.
Proof.
  intros Hdes Hty Hfs Hil Hrnd [rnd Hrnd'] Hcache Httl (src & Hsrc & Hls) Hnet.
  destruct (Deserialize_inv _ _ _ _ Hdes) as (Hdata & Hh & _ & Hm & _); [done..|].
  assert (Hh32 : length (Header packet) = 32%nat).
  { rewrite Hh. unfold Packet.getHeaderSize. rewrite decide_False; [done|]. unfold CanCreateSession in Hty.
    intros [Ht|Ht]; by rewrite Ht in Hty. }
  unfold processTokenRequest, mbind at 1, Act_bind at 1, get.
  assert (exists fs, (if sFirstSightRequired (lconfig l) then ObserveAndAllow (firstSight l) (String_ addr) (now env)
    else (firstSight l, true)) = (fs, true)) as [fs ->].
  { destruct (sFirstSightRequired (lconfig l)); [|by eexists]. destruct (ObserveAndAllow _ _ _) as [fs ok]. exists fs. f_equal. by apply Hfs. }
  destruct (issuance_Allow _ _) as [il ok]. cbn [snd] in Hil. subst ok. cbn [negb].
  destruct (GenerateToken String_ (tokenCache l) (Some addr) (rndToken env) (now env) (now env)) as [tc [v|e]] eqn:Hg.
  2: { exfalso. unfold GenerateToken in Hg. rewrite Hrnd' in Hg.
       destruct (TokenCache.tokens (tokenCache l) !! String_ addr); [destruct (time_sub _ _ <=? _)|]; done. }
  destruct (GenerateToken_entry _ _ _ _ _ _ _ _ Hg) as (Htc & e & He & Hv & Hc).
  assert (Hlv : length v = 8%nat).
  { unfold GenerateToken in Hg. rewrite Hrnd' in Hg.
    destruct (TokenCache.tokens (tokenCache l) !! String_ addr) as [e0|] eqn:E0; [destruct (time_sub _ _ <=? _)|];
      injection Hg as <- <-; [by eapply Hcache|by apply Hrnd..]. }
  set (size := zlen (Header packet) + zlen (Payload packet) + zlen (MAC packet)).
  assert (Hsz : 48 <= size) by (unfold size, zlen; rewrite Hh32, Hm; unfold MACSize; lia).
  destruct (sendRetry_spec addr v (Header packet) size env (set_tokenCache (set_gates l fs il) tc) src)
    as (d & Hsend & Hzd & Hr); [done|lia|done|done|lia|done|]. destruct (Hr t') as (r & Hr1 & Hr2 & Hr3 & Hr4 & _).
  exists (set_tokenCache (set_gates l fs il) tc), v, d, r. split_and!; try done.
  - unfold mbind, Act_bind, put, lift, mret, Act_ret, emit. fold size. by rewrite Hsend.
  - rewrite Hzd, Hdata. unfold sections, zlen. rewrite !length_app, Hh32. lia.
  - apply ValidateToken_true. split; [unfold zlen; by rewrite Hlv|]. exists e. cbn [tokenCache set_tokenCache]. rewrite Htc.
    split_and!; [done| |done]. destruct Hc as [Hc|Hc]; [|done]. rewrite Hc. unfold time_sub, maxDuration, minDuration in *. lia.
Qed.

(** A request that brings no token. *)
Definition no_token (packet : SSU2Packet) : Prop :=
  Payload packet = [] \/ forall blocks, DeserializeBlocks (Payload packet) = Ok blocks -> FindBlockByType blocks BlockTypeNewToken = None.

Lemma no_token_found packet addr env l : no_token packet -> validateSessionRequestToken packet addr env l = (l, [], Ok (Some None)).
Proof.
  intros Hno. unfold validateSessionRequestToken. case_decide; [done|]. destruct Hno as [Hp|Hno]; [by rewrite Hp in *|].
  destruct (DeserializeBlocks (Payload packet)) as [blocks|e]; [|done]. by rewrite (Hno blocks).
Qed.

(** A parsed packet has the length of its datagram, whose header may have been protected. *)
Lemma parsed_from protector data t packet :
  listener_parseInboundPacket protector data t = Some packet ->
  exists plain, Packet.Deserialize no_packet plain t = (packet, None) /\ length plain = length data.
Proof.
  unfold listener_parseInboundPacket. destruct (Packet.Deserialize no_packet data t) as [p [e|]] eqn:Hd; [|intros [= <-]; by exists data].
  destruct protector as [hp|]; [|done]. destruct (DecryptHeader hp data) as [plain [e'|]] eqn:Hdec; [done|].
  destruct (Packet.Deserialize no_packet plain t) as [p' [e'|]] eqn:Hp'; [done|]. intros [= <-].
  exists plain. by apply DecryptHeader_length in Hdec.
Qed.

(** C9: what the listener does with a SessionRequest without a token when tokens are
    required. The datagram may be one with a protected header, its connection ID leads to
    no connection, the rate limit of the IP address, the first-sight gate and the
    issuance limit allow it, the random bytes can be read and the datagram can be sent.
    Then the request is answered with one Retry of 70 bytes, at most three times the
    bytes of the request, addressed to the source ID of the request; the initiator reads
    from it the token that the cache then accepts from this address; and no connection
    is made, routed or queued. *)
Theorem retry_answer (data : bytes) (t' : Z) (packet : SSU2Packet) (connID : Z) (addr : UDPAddr) (env : Env) (l : SSU2Listener) :
  listener_parseInboundPacket (introHeaderProtector l) data (now env) = Some packet ->
  MessageType packet = MessageTypeSessionRequest -> no_token packet -> sRequireRetry (lconfig l) = true ->
  Session.ExtractConnectionID (Header packet) = Ok connID -> routes l !! connID = None ->
  (ip_Allow (sessionRateLimiter l) (IPString addr) (now env)).2 = true ->
  (sFirstSightRequired (lconfig l) = true -> (ObserveAndAllow (firstSight l) (String_ addr) (now env)).2 = true) ->
  (issuance_Allow (issuanceLimiter l) (now env)).2 = true ->
  (exists v, rndToken env = Some v /\ length v = 8%nat) ->
  (forall k e, TokenCache.tokens (tokenCache l) !! k = Some e -> length (Value e) = 8%nat) ->
  0 <= TokenCache.ttl (tokenCache l) ->
  (exists src, rndSource env = Some src /\ length src = 8%nat) -> net_ok env = true ->
  exists l' v d r, handleIncomingPacket data addr env l = (l', [Issued (String_ addr) v (now env); Sent addr d])
    /\ zlen d = 70 /\ zlen d <= 3 * zlen data
    /\ Packet.Deserialize no_packet d t' = (r, None) /\ MessageType r = MessageTypeRetry
    /\ slice 0 8 (Header r) = slice 16 24 (Header packet) /\ extractRetryToken r = Ok v
    /\ ValidateToken String_ (tokenCache l') v (Some addr) (now env) = true
    /\ conns l' = conns l /\ sessions l' = sessions l /\ routes l' = routes l /\ acceptQueue l' = acceptQueue l.
Proof.
  intros Hparse Hty Hno Hreq Hid Hroute Hrate Hfs Hil (rnd & Hrnd & Hl) Hcache Httl Hsrc Hnet.
  destruct (parsed_from _ _ _ _ Hparse) as (plain & Hdes & Hlen).
  assert (Hcan : CanCreateSession (MessageType packet) = true) by by rewrite Hty.
  destruct (ip_Allow (sessionRateLimiter l) (IPString addr) (now env)) as [rl ok] eqn:Hip. cbn [snd] in Hrate. subst ok.
  destruct (token_answer plain (now env) t' packet addr env (set_rateLimiter l rl)) as (l' & v & d & r & Hp & Hd & H3 & Hr);
    [done|done|done|done|by intros v; rewrite Hrnd; intros [= <-]|by eexists|done|done|done|done|].
  exists l', v, d, r. split_and!; [|done|unfold zlen in *; by rewrite <- Hlen|apply Hr..].
  unfold handleIncomingPacket. rewrite Hparse. unfold listener_RoutePacket, mbind, Act_bind, lift. rewrite Hid. unfold mret, Act_ret, get.
  rewrite Hroute, Hcan. unfold handleNewSession, mbind, Act_bind, enforceRateLimit, mbind, Act_bind, get. rewrite Hip. cbn [put].
  unfold put, mret, Act_ret, handleSessionRequestToken. rewrite decide_False by (by intros []).
  unfold mbind, Act_bind. rewrite no_token_found by done. unfold get. cbn [lconfig set_rateLimiter]. rewrite Hreq, Hp.
  unfold throw. cbn [app]. rewrite decide_False; [done|]. by rewrite Hty.
Qed.

(** ** The tables of connections *)

Section Inert.
(** A property of the tables, which the gates, the tokens and other events leave alone. *)
Context (J : SSU2Listener -> list Event -> Prop).
Context (J_same : forall l l' log, conns l' = conns l -> sessions l' = sessions l -> routes l' = routes l -> acceptQueue l' = acceptQueue l ->
  J l log -> J l' log).
Context (J_event : forall l log ev, (match ev with Registered _ _ _ | Accepted _ => False | _ => True end) -> J l log -> J l (log ++ [ev])).

Definition inert {A} (m : Act A) : Prop := triple J m (fun _ => J).

Lemma inert_ret {A} (a : A) : inert (mret a).
Proof. apply (triple_ret (fun _ => J)). Qed.

Lemma inert_throw {A} e : inert (A := A) (throw e).
Proof. apply (triple_throw (fun _ => J)). Qed.

Lemma inert_bind {A B} (m : Act A) (k : A -> Act B) : inert m -> (forall a, inert (k a)) -> inert (m ≫= k).
Proof. intros Hm Hk. by eapply triple_bind. Qed.

Lemma inert_at {A} l0 (m : Act A) : inert m -> triple (fun l log => l = l0 /\ J l log) m (fun _ => J).
Proof. intros Hm. eapply triple_pre; [|exact Hm]. by intros l log [_ H]. Qed.

Lemma inert_put {B} l0 l1 (k : unit -> Act B) :
  conns l1 = conns l0 -> sessions l1 = sessions l0 -> routes l1 = routes l0 -> acceptQueue l1 = acceptQueue l0 ->
  inert (k ()) -> triple (fun l log => l = l0 /\ J l log) (put l1 ≫= k) (fun _ => J).
Proof.
  intros H1 H2 H3 H4 Hk. apply triple_put. eapply triple_pre; [|exact Hk]. intros l log [-> (l' & -> & H)]. by eapply J_same.
Qed.

Lemma inert_emit ev : (match ev with Registered _ _ _ | Accepted _ => False | _ => True end) -> inert (emit ev).
Proof. intros Hev. apply triple_emit. intros l log H. by apply J_event. Qed.

Lemma inert_lift {E A} (wrap : E -> ListenerError) (r : result E A) : inert (lift wrap r).
Proof. destruct r; [apply inert_ret|apply inert_throw]. Qed.

Lemma sendRetry_inert addr token hdr size env : inert (sendRetry addr token hdr size env).
Proof.
  unfold sendRetry. destruct (negb (zlen token =? TokenSize)); [apply inert_throw|]. apply triple_get. intros l0. apply inert_at.
  apply inert_bind; [apply inert_lift|]. intros payload. destruct (buildRetryHeader _ _ _) as [header|]; [|apply inert_throw].
  apply inert_bind; [apply inert_lift|]. intros d. destruct (_ && _); [apply inert_throw|]. destruct (negb _); [apply inert_throw|].
  by apply inert_emit.
Qed.

(** The listener that was read may be replaced later. *)
Lemma inert_repeat {B} l0 l1 l2 (k : unit -> Act B) :
  conns l2 = conns l0 -> sessions l2 = sessions l0 -> routes l2 = routes l0 -> acceptQueue l2 = acceptQueue l0 ->
  conns l1 = conns l0 -> sessions l1 = sessions l0 -> routes l1 = routes l0 -> acceptQueue l1 = acceptQueue l0 ->
  triple (fun l log => l = l2 /\ J l log) (k ()) (fun _ => J) -> triple (fun l log => l = l1 /\ J l log) (put l2 ≫= k) (fun _ => J).
Proof.
  intros. apply triple_put. eapply triple_pre; [|done]. intros l log [-> (l' & -> & ?)]. split; [done|].
  eapply (J_same l1); [congruence..|done].
Qed.

Lemma processTokenRequest_inert packet addr env : inert (processTokenRequest packet addr env).
Proof.
  unfold processTokenRequest. apply triple_get. intros l0. destruct (if sFirstSightRequired _ then _ else _) as [fs seen].
  apply (inert_repeat l0); [done..|]. destruct seen; cbn [negb]; [|apply inert_at, inert_throw]. destruct (issuance_Allow _ _) as [il ok].
  apply (inert_repeat l0); [done..|]. destruct ok; cbn [negb]; [|apply inert_at, inert_throw].
  destruct (GenerateToken _ _ _ _ _ _) as [tc r]. apply (inert_repeat l0); [done..|]. apply inert_at.
  apply inert_bind; [apply inert_lift|]. intros token. apply inert_bind; [by apply inert_emit|]. intros []. apply sendRetry_inert.
Qed.

Lemma validate_inert packet addr env : inert (validateSessionRequestToken packet addr env).
Proof.
  unfold validateSessionRequestToken. case_decide; [apply inert_ret|]. destruct (DeserializeBlocks _) as [blocks|]; [|apply inert_ret].
  destruct (FindBlockByType _ _) as [b|]; [|apply inert_ret]. destruct (ParseNewTokenBlock b) as [nt|]; [|apply inert_ret].
  destruct (_ <? _); [apply inert_ret|]. apply triple_get. intros l0. destruct (ConsumeToken _ _ _ _ _) as [tc ok].
  apply inert_put; [done..|]. destruct ok; [|apply inert_ret]. apply inert_bind; [by apply inert_emit|]. intros []. apply inert_ret.
Qed.

Lemma rate_inert addr env : inert (enforceRateLimit addr env).
Proof.
  unfold enforceRateLimit. apply triple_get. intros l0. destruct (ip_Allow _ _ _) as [rl ok]. apply inert_put; [done..|].
  destruct ok; [apply inert_ret|apply inert_throw].
Qed.

Lemma token_inert packet addr env : inert (handleSessionRequestToken packet addr env).
Proof.
  unfold handleSessionRequestToken. case_decide; [apply inert_ret|]. apply inert_bind; [apply validate_inert|]. intros err.
  apply triple_get. intros l0. apply inert_at. destruct err as [[e|]|]; [apply inert_throw| |apply inert_ret].
  destruct (sRequireRetry _); [|apply inert_ret]. apply inert_bind; [apply processTokenRequest_inert|]. intros []. apply inert_throw.
Qed.
End Inert.

(** The connections that were registered and accepted. *)
Definition registered (log : list Event) : list nat := omap (fun ev => match ev with Registered p _ _ => Some p | _ => None end) log.
Definition accepted (log : list Event) : list nat := omap (fun ev => match ev with Accepted p => Some p | _ => None end) log.

(** A table of connections by their ID. *)
Definition points (cs : list (@SSU2Session NX UDPAddr)) (m : gmap Z nat) : Prop :=
  forall id ptr, m !! id = Some ptr -> exists s, cs !! ptr = Some s /\ connectionID (ssu2Addr s) = id.

Definition responder (s : @SSU2Session NX UDPAddr) : Prop :=
  0 < connectionID (ssu2Addr s) < 2 ^ 64 /\ role (ssu2Addr s) = "responder"%string.

Lemma points_app cs s m : points cs m -> points (cs ++ [s]) m.
Proof. intros Hp id ptr H. destruct (Hp id ptr H) as (s' & Hs & Hid). exists s'. split; [by apply lookup_app_l_Some|done]. Qed.

Lemma points_delete cs m id : points cs m -> points cs (delete id m).
Proof. intros Hp id' ptr [_ H]%lookup_delete_Some. by apply Hp. Qed.

Lemma points_insert cs m id ptr s : cs !! ptr = Some s -> connectionID (ssu2Addr s) = id -> points cs m -> points cs (<[id := ptr]> m).
Proof. intros Hs Hid Hp id' ptr' [[<- <-]|[_ H]]%lookup_insert_Some; [by exists s|by apply Hp]. Qed.

(** A connection that is replaced keeps its address. *)
Lemma kept_update (cs : list (@SSU2Session NX UDPAddr)) (ptr p : nat) s s' (Q : SSU2Addr UDPAddr -> Prop) :
  cs !! ptr = Some s -> ssu2Addr s' = ssu2Addr s ->
  (exists s0, cs !! p = Some s0 /\ Q (ssu2Addr s0)) -> exists s0, <[ptr := s']> cs !! p = Some s0 /\ Q (ssu2Addr s0).
Proof.
  intros Hs Ha (s0 & Hs0 & HQ). destruct (decide (p = ptr)) as [-> |Hne].
  - exists s'. rewrite list_lookup_insert_eq by by eapply lookup_lt_Some. split; [done|]. rewrite Ha. congruence.
  - exists s0. by rewrite list_lookup_insert_ne.
Qed.

Section Tables.
(** [added] are the IDs given to [AddSession] of the listener. *)
Context (added : list Z).

(** The tables, with the connections [pend] that are registered and not yet queued. *)
Record tables (pend : list nat) (l : SSU2Listener) (log : list Event) : Prop := {
  tb_registered : NoDup (registered log);
  tb_responder : forall p, p ∈ registered log -> exists s, conns l !! p = Some s /\ responder s;
  tb_once : NoDup (accepted log ++ acceptQueue l ++ pend);
  tb_known : forall p, p ∈ accepted log ++ acceptQueue l ++ pend -> p ∈ registered log;
  tb_queue : (length (acceptQueue l) <= acceptQueueCap)%nat;
  tb_sessions : forall id ptr, sessions l !! id = Some ptr -> id ∉ added ->
    ptr ∈ registered log /\ exists s, conns l !! ptr = Some s /\ connectionID (ssu2Addr s) = id;
  tb_routes : points (conns l) (routes l);
}.

Lemma tables_same pend l l' log :
  conns l' = conns l -> sessions l' = sessions l -> routes l' = routes l -> acceptQueue l' = acceptQueue l ->
  tables pend l log -> tables pend l' log.
Proof. intros H1 H2 H3 H4 []. split; by rewrite ?H1, ?H2, ?H3, ?H4. Qed.

Lemma tables_event pend l log ev :
  (match ev with Registered _ _ _ | Accepted _ => False | _ => True end) -> tables pend l log -> tables pend l (log ++ [ev]).
Proof.
  intros Hev []. assert (Hr : registered (log ++ [ev]) = registered log) by (unfold registered; rewrite omap_app; destruct ev; try done; cbn; by rewrite app_nil_r).
  assert (Ha : accepted (log ++ [ev]) = accepted log) by (unfold accepted; rewrite omap_app; destruct ev; try done; cbn; by rewrite app_nil_r).
  split; by rewrite ?Hr, ?Ha.
Qed.

Lemma tables_sent pend l log to ds : tables pend l log -> tables pend l (log ++ map (Sent to) ds).
Proof.
  revert log. induction ds as [|d ds IH]; intros log H; [by rewrite app_nil_r|]. cbn [map]. rewrite cons_middle, app_assoc.
  by apply IH, tables_event.
Qed.

Lemma tables_perm pend pend' l log : pend ≡ₚ pend' -> tables pend l log -> tables pend' l log.
Proof. intros Hp []. split; try done; [by rewrite <- Hp|]. intros p. rewrite <- Hp. apply tb_known0. Qed.

Lemma tables_less p pend l log : tables (p :: pend) l log -> tables pend l log.
Proof.
  intros []. assert (Hs : accepted log ++ acceptQueue l ++ pend `sublist_of` accepted log ++ acceptQueue l ++ p :: pend)
    by (apply sublist_app; [done|]; apply sublist_app; [done|by constructor]).
  split; try done; [by eapply sublist_NoDup|]. intros q Hq. apply tb_known0. eapply elem_of_submseteq; [done|by apply sublist_submseteq].
Qed.

(** A connection is registered. *)
Lemma tables_registered pend l log s id ty k :
  responder s -> connectionID (ssu2Addr s) = id -> tables pend l log ->
  tables (length (conns l) :: pend) (set_sessions (set_conns l (conns l ++ [s])) (<[id := length (conns l)]> (sessions l)))
    (log ++ [Registered (length (conns l)) ty k]).
Proof.
  intros Hr Hid []. set (ptr := length (conns l)).
  assert (Hreg : registered (log ++ [Registered ptr ty k]) = registered log ++ [ptr]) by (unfold registered; by rewrite omap_app).
  assert (Hacc : accepted (log ++ [Registered ptr ty k]) = accepted log) by (unfold accepted; rewrite omap_app; apply app_nil_r).
  assert (Hnew : ptr ∉ registered log) by (intros Hin; destruct (tb_responder0 _ Hin) as (s0 & Hs0 & _); apply lookup_lt_Some in Hs0; unfold ptr in Hs0; lia).
  assert (Hold : forall p (Q : SSU2Session -> Prop), (exists s0, conns l !! p = Some s0 /\ Q s0) -> exists s0, (conns l ++ [s]) !! p = Some s0 /\ Q s0).
  { intros p Q (s0 & Hs0 & HQ). exists s0. split; [by apply lookup_app_l_Some|done]. }
  assert (Hat : (conns l ++ [s]) !! ptr = Some s) by by apply list_lookup_middle.
  split; rewrite ?Hreg, ?Hacc; cbn [conns sessions routes acceptQueue set_sessions set_conns]; try done.
  - apply NoDup_app. split_and!; [done| |apply NoDup_singleton]. intros p Hp ->%list_elem_of_singleton. done.
  - intros p [Hp| ->%list_elem_of_singleton]%elem_of_app; [by apply Hold, tb_responder0|by exists s].
  - rewrite <- Permutation_middle, <- Permutation_middle. constructor; [|done]. intros Hin. by apply Hnew, tb_known0.
  - intros p Hp. rewrite <- Permutation_middle, <- Permutation_middle in Hp. rewrite elem_of_app, list_elem_of_singleton.
    apply elem_of_cons in Hp as [-> |Hp]; [by right|left; by apply tb_known0].
  - intros id' p Hp Hna. rewrite elem_of_app, list_elem_of_singleton. apply lookup_insert_Some in Hp as [[<- <-]|[_ Hp]]; [by split; [right|exists s]|].
    destruct (tb_sessions0 _ _ Hp Hna) as [? ?]. split; [by left|by apply Hold].
  - by apply points_app.
Qed.

(** The connection made for a packet has the ID that was chosen for it. *)
Lemma accepted_responder sc packet connID addr key t s :
  0 < connID < 2 ^ 64 -> NewSSU2Conn true (Some addr) (Some (buildConnConfig sc packet connID)) false key None [] t = Ok s ->
  responder s /\ connectionID (ssu2Addr s) = connID.
Proof.
  intros Hid Hnew. apply new_conn_inv in Hnew as (a & sc1 & id & h & m & _ & [= <-] & _ & Hr & _ & _ & _ & _ & ->).
  assert (Hc : sConnectionID (buildConnConfig sc packet connID) = connID) by (unfold buildConnConfig; by repeat case_decide).
  unfold resolveConnectionID in Hr. rewrite Hc, (proj2 (Z.eqb_neq _ _)) in Hr by lia. by apply Ok_inj in Hr as <-.
Qed.

Lemma make_conn_tables pend packet addr connID env :
  0 < connID < 2 ^ 64 ->
  triple (tables pend) (make_conn packet addr connID env) (fun r => tables (match r with Ok ptr => ptr :: pend | Err _ => pend end)).
Proof.
  intros Hid l log H. unfold make_conn, mbind, Act_bind, get. destruct (_ && _); [cbn; by rewrite app_nil_r|].
  destruct (NewSSU2Conn _ _ _ _ _ _ _ _) as [s|e] eqn:Hs; cbn; [|by rewrite app_nil_r].
  destruct (accepted_responder _ _ _ _ _ _ _ Hid Hs) as [Hr Ha]. by apply tables_registered.
Qed.

Lemma queue_tables pend ptr env : triple (tables (ptr :: pend)) (queue_conn ptr env) (fun _ => tables pend).
Proof.
  intros l log H. unfold queue_conn, mbind, Act_bind, get. case_decide as Hq; [|cbn; rewrite app_nil_r; by eapply tables_less].
  destruct (_ && _); cbn; rewrite app_nil_r; [by eapply tables_less|]. destruct H. split; cbn; try done; try (rewrite <- app_assoc; done).
  rewrite length_app. cbn. lia.
Qed.

Lemma router_tables pend ptr : triple (tables pend) (router_AddSession ptr) (fun _ => tables pend).
Proof.
  intros l log H. unfold router_AddSession, mbind, Act_bind, get. destruct (conns l !! ptr) as [s|] eqn:Hs; [|cbn; by rewrite app_nil_r].
  destruct (routes l !! _); cbn; rewrite app_nil_r; [done|]. destruct H. split; try done. by eapply points_insert.
Qed.

Lemma deliver_tables pend ptr packet env : triple (tables pend) (deliver_to ptr packet env) (fun _ => tables pend).
Proof.
  intros l log H. unfold deliver_to. destruct (conns l !! ptr) as [s|] eqn:Hs; [|by rewrite app_nil_r].
  destruct (processInboundPacket _ _ _ _ _) as [c sent]. apply tables_sent. destruct H. split; cbn; try done.
  - intros p Hp. by apply (kept_update _ _ _ s _ (fun a => 0 < connectionID a < 2 ^ 64 /\ role a = "responder"%string)), tb_responder0.
  - intros id p Hp Hna. destruct (tb_sessions0 _ _ Hp Hna) as [? ?]. split; [done|]. by apply (kept_update _ _ _ s _ (fun a => connectionID a = id)).
  - intros id p Hp. by apply (kept_update _ _ _ s _ (fun a => connectionID a = id)), tb_routes0.
Qed.

(** *** Steps of a worker *)

Definition waiting (ws : list Worker) : list nat := omap (fun w => match wStage w with WQueue p => Some p | _ => None end) ws.

Definition stage_ok (w : Worker) : Prop := match wStage w with WRegister id => 0 < id < 2 ^ 64 | _ => True end.

Lemma error_waits w : waiting (option_list (on_error w)) = [] /\ Forall stage_ok (option_list (on_error w)).
Proof. unfold on_error. case_decide; split; try done; by repeat constructor. Qed.

Lemma go_on_tables {A} w pend pend' (m : Act A) (next : A -> option WorkerStage) l log :
  tables pend l log -> triple (tables pend) m (fun r => tables (match r with Ok a => waiting (option_list (at_stage w <$> next a)) | Err _ => [] end ++ pend')) ->
  (forall a, (m l).2 = Ok a -> Forall stage_ok (option_list (at_stage w <$> next a))) ->
  let '(l', evs, o) := go_on w (m l) next in
  tables (waiting (option_list o) ++ pend') l' (log ++ evs) /\ Forall stage_ok (option_list o).
Proof.
  intros H Hm Hok. specialize (Hm l log H). unfold go_on. destruct (m l) as [[l' evs] [a|e]]; cbn [snd] in Hok; [by split; [|apply Hok]|].
  destruct (error_waits w) as [-> ?]. done.
Qed.

(** A step that leaves no connection to be queued. *)
Lemma go_on_inert {A} w rest (m : Act A) (next : A -> option WorkerStage) l log :
  tables rest l log -> triple (tables rest) m (fun _ => tables rest) ->
  (forall a, waiting (option_list (at_stage w <$> next a)) = []) ->
  (forall a, (m l).2 = Ok a -> Forall stage_ok (option_list (at_stage w <$> next a))) ->
  let '(l', evs, o) := go_on w (m l) next in
  tables (waiting (option_list o) ++ rest) l' (log ++ evs) /\ Forall stage_ok (option_list o).
Proof.
  intros H Hm Hn Hok. apply (go_on_tables w rest); [done| |done]. intros l1 log1 H1. specialize (Hm l1 log1 H1).
  destruct (m l1) as [[l2 evs] [a|e]]; [by rewrite Hn|done].
Qed.

Lemma worker_tables w rest l log :
  stage_ok w -> tables (waiting [w] ++ rest) l log ->
  let '(l', evs, o) := worker_step l w in
  tables (waiting (option_list o) ++ rest) l' (log ++ evs) /\ Forall stage_ok (option_list o).
Proof.
  intros Hok H. destruct w as [stage packet addr env]. set (w := mkWorker stage packet addr env) in *.
  assert (Hsame : forall o, waiting (option_list o) = [] -> Forall stage_ok (option_list o) -> tables rest l log ->
    tables (waiting (option_list o) ++ rest) l (log ++ []) /\ Forall stage_ok (option_list o)) by (intros o -> ? ?; by rewrite app_nil_r).
  destruct (error_waits w) as [He1 He2]. pose proof (tables_same rest) as Jsame. pose proof (tables_event rest) as Jevent.
  destruct stage as [|ptr| | | |id|ptr|ptr|]; cbv beta iota delta [worker_step w]; fold w.
  - destruct (Session.ExtractConnectionID (Header packet)) as [id|]; [|by apply Hsame]. destruct (routes l !! id); [apply Hsame; [done|by repeat constructor|done]|].
    destruct (CanCreateSession _); apply Hsame; try done. by repeat constructor.
  - apply (go_on_inert w rest); [done|apply deliver_tables|done|by repeat constructor].
  - apply (go_on_inert w rest); [done|apply (rate_inert _ Jsame)|done|by repeat constructor].
  - apply (go_on_inert w rest); [done|apply (token_inert _ Jsame Jevent)|done|by repeat constructor].
  - apply (go_on_inert w rest); [done| |done|].
    + intros l1 log1 H1. pose proof (unique_id_spec (tables rest) env l1 log1 H1) as Hu. destruct (generateUniqueConnectionID env l1) as [[? ?] []]; by destruct Hu.
    + intros id Hid. apply Forall_singleton. pose proof (unique_id_spec (fun _ _ => True) env l [] I) as Hu.
      destruct (generateUniqueConnectionID env l) as [[? ?] r]. cbn in Hid. by apply Hu.
  - apply (go_on_tables w rest); [done| |by repeat constructor]. intros l1 log1 H1.
    pose proof (make_conn_tables rest packet addr id env Hok l1 log1 H1) as Hm. by destruct (make_conn packet addr id env l1) as [[? ?] []].
  - apply (go_on_tables w (ptr :: rest)); [done| |by repeat constructor]. intros l1 log1 H1.
    pose proof (queue_tables rest ptr env l1 log1 H1) as Hm. by destruct (queue_conn ptr env l1) as [[? ?] []].
  - apply (go_on_inert w rest); [done|apply router_tables|done|by repeat constructor].
  - pose proof (processTokenRequest_inert _ Jsame Jevent packet addr env l log H) as Hp.
    destruct (processTokenRequest packet addr env l) as [[l' evs] r]. by split.
Qed.

(** *** Runs *)

Definition invariant (st : SSU2Listener * list Worker) (log : list Event) : Prop :=
  tables (waiting st.2) st.1 log /\ Forall stage_ok st.2 /\ (length st.2 <= packetWorkers)%nat.

Lemma op_tables pend l log op :
  (forall env, op <> Work env) -> (forall id ptr, op = AddConn id ptr -> id ∈ added) -> tables pend l log ->
  let '(l', evs) := op_step l op in tables pend l' (log ++ evs).
Proof.
  intros Hw Hadd H. assert (Hsame : forall l', conns l' = conns l -> sessions l' = sessions l -> routes l' = routes l -> acceptQueue l' = acceptQueue l ->
    tables pend l' (log ++ [])) by (intros; rewrite app_nil_r; by eapply tables_same).
  destruct op as [r|env|t'|pick| |id|id|s|id ptr|ptr]; cbn [op_step].
  - apply Hsame; by destruct r as [|d [a|]]; cbn; try destruct (lclosed l); try case_decide.
  - by destruct (Hw env).
  - by apply Hsame.
  - unfold Accept. destruct (acceptQueue l) as [|ptr q] eqn:Hq; [destruct (lclosed l); by apply Hsame|].
    destruct (_ && _); [by apply Hsame|]. destruct H. rewrite Hq in *.
    assert (Hr : registered (log ++ [Accepted ptr]) = registered log) by (unfold registered; rewrite omap_app; apply app_nil_r).
    assert (Ha : accepted (log ++ [Accepted ptr]) = accepted log ++ [ptr]) by (unfold accepted; by rewrite omap_app).
    split; rewrite ?Hr, ?Ha; cbn; try done; try (rewrite <- app_assoc; done). cbn in *. lia.
  - apply Hsame; unfold listener_Close; by destruct (lclosed l).
  - rewrite app_nil_r. destruct H. split; cbn; try done. intros id' ptr [_ Hp]%lookup_delete_Some. by apply tb_sessions0.
  - rewrite app_nil_r. destruct H. split; cbn; try done. by apply points_delete.
  - rewrite app_nil_r. destruct H. split; cbn; try done; [..|by apply points_app].
    + intros p Hp. destruct (tb_responder0 p Hp) as (s0 & ? & ?). exists s0. split; [by apply lookup_app_l_Some|done].
    + intros id' p Hp Hna. destruct (tb_sessions0 _ _ Hp Hna) as (? & s0 & ? & ?). split; [done|]. exists s0. split; [by apply lookup_app_l_Some|done].
  - rewrite app_nil_r. destruct H. split; cbn; try done. intros id' p [[<- <-]|[_ Hp]]%lookup_insert_Some Hna; [|by apply tb_sessions0].
    destruct Hna. by eapply Hadd.
  - rewrite app_nil_r. pose proof (router_tables pend ptr l log H) as Hr. unfold router_AddSession, mbind, Act_bind, get, throw, mret, Act_ret, put in *.
    destruct (conns l !! ptr); [|done]. destruct (routes l !! _); cbn in *; [done|by rewrite app_nil_r in Hr].
Qed.

Lemma action_tables st log a :
  (forall id ptr, a = Do (AddConn id ptr) -> id ∈ added) -> invariant st log ->
  let '(st', evs) := action_step st a in invariant st' (log ++ evs).
Proof.
  intros Hadd (H & Hok & Hn). destruct st as [l ws]. cbn [fst snd] in *.
  assert (Hop : forall op, (forall env, op <> Work env) -> a = Do op -> let '(l', evs) := op_step l op in invariant (l', ws) (log ++ evs)).
  { intros op Hw ->. pose proof (op_tables (waiting ws) l log op Hw) as Ho. destruct (op_step l op) as [l' evs]. split_and!; try done. apply Ho; [|done].
    intros id ptr ->. by eapply Hadd. }
  destruct a as [op|i]; cbn [action_step].
  - destruct op;
      try match goal with |- context [op_step l ?op] => specialize (Hop op ltac:(by intros) eq_refl); by destruct (op_step l op) end.
    destruct (packetQueue l) as [|pkt q]; [by rewrite app_nil_r|]. case_decide as Hlt; [|by rewrite app_nil_r].
    destruct (listener_parseInboundPacket _ _ _) as [packet|]; rewrite app_nil_r; split_and!; cbn [fst snd]; try done; try by apply (tables_same _ l).
    + unfold waiting. rewrite omap_app. cbn. rewrite app_nil_r. by apply (tables_same _ l).
    + apply Forall_app_2; [done|]. by repeat constructor.
    + rewrite length_app. cbn. lia.
  - destruct (ws !! i) as [w|] eqn:Hi; [|by rewrite app_nil_r]. rewrite <- (take_drop_middle _ _ _ Hi) in H, Hok, Hn.
    set (ws1 := take i ws) in *. set (ws2 := drop (S i) ws) in *. apply Forall_app in Hok as [Hok1 Hok2]. inversion_clear Hok2 as [|? ? Hw Hok2'].
    assert (Hsplit : forall o : option Worker, waiting (ws1 ++ option_list o ++ ws2) ≡ₚ waiting (option_list o) ++ waiting ws1 ++ waiting ws2).
    { intros o. unfold waiting. rewrite !omap_app, !app_assoc. apply Permutation_app_tail, Permutation_app_comm. }
    pose proof (worker_tables w (waiting ws1 ++ waiting ws2) l log Hw) as Ht. ospecialize (Ht _).
    { eapply tables_perm; [|exact H]. apply (Hsplit (Some w)). }
    destruct (worker_step l w) as [[l' evs] o]. destruct Ht as [Ht1 Ht2]. split_and!; cbn [fst snd].
    + eapply tables_perm; [symmetry; apply Hsplit|done].
    + apply Forall_app_2; [done|]. by apply Forall_app_2.
    + rewrite !length_app in *. cbn in Hn. destruct o; cbn; lia.
Qed.

Lemma run_tables acts : forall st log,
  (forall id ptr, Do (AddConn id ptr) ∈ acts -> id ∈ added) -> invariant st log ->
  let '(st', evs) := actions st acts in invariant st' (log ++ evs).
Proof.
  induction acts as [|a acts IH]; intros st log Hadd H; cbn [actions]; [by rewrite app_nil_r|].
  pose proof (action_tables st log a) as Ha. ospecialize (Ha _ H); [intros id ptr ->; eapply Hadd; by left|].
  destruct (action_step st a) as [st1 evs1]. specialize (IH st1 (log ++ evs1)). ospecialize (IH _ Ha); [intros id ptr Hin; eapply Hadd; by right|].
  destruct (actions st1 acts). by rewrite app_assoc.
Qed.
End Tables.

(** The IDs of the calls of [AddSession]. *)
Definition added_ids (acts : list Action) : list Z := omap (fun a => match a with Do (AddConn id _) => Some id | _ => None end) acts.

(** *** A worker that is alone

    Its steps, one after the other, are [handleIncomingPacket]. *)

Lemma bind_assoc {A B C} (m : Act A) (f : A -> Act B) (g : B -> Act C) l : ((m ≫= f) ≫= g) l = (m ≫= fun a => f a ≫= g) l.
Proof.
  unfold mbind, Act_bind. destruct (m l) as [[l1 e1] [a|]]; [|done]. destruct (f a l1) as [[l2 e2] [b|]]; [|done].
  destruct (g b l2) as [[l3 e3] r]. by rewrite app_assoc.
Qed.

(** What is left to do after [RoutePacket]. *)
Definition after_route (w : Worker) (r : SSU2Listener * list Event * result ListenerError unit) : SSU2Listener * list Event :=
  match r with
  | (l, evs, Ok _) => (l, evs)
  | (l, evs, Err _) =>
      if decide (MessageType (wPacket w) = MessageTypeTokenRequest)
      then let '(l, evs', _) := processTokenRequest (wPacket w) (wAddr w) (wEnv w) l in (l, evs ++ evs') else (l, evs)
  end.

(** A stage that runs [m] and then goes on with [k]. *)
Lemma stage_alone {A} n w stage (m : Act A) (k : A -> Act unit) (next : A -> option WorkerStage) l :
  worker_step l (at_stage w stage) = go_on (at_stage w stage) (m l) next ->
  (forall a l', match next a with
                | None => k a l' = (l', [], Ok ())
                | Some stage' => worker_alone (S n) l' (at_stage w stage') = Some (after_route w (k a l'))
                end) ->
  worker_alone (S (S n)) l (at_stage w stage) = Some (after_route w ((m ≫= k) l)).
Proof.
  intros Hstep Hk. cbn [worker_alone]. rewrite Hstep. unfold go_on, mbind, Act_bind. destruct (m l) as [[l1 evs] [a|e]].
  - specialize (Hk a l1). destruct (next a) as [stage'|]; cbn [fmap option_fmap option_map].
    + change (at_stage (at_stage w stage) stage') with (at_stage w stage'). change (worker_alone (S n)) with (worker_alone (S n)) in Hk.
      cbn [worker_alone] in Hk. rewrite Hk. destruct (k a l1) as [[l2 evs2] [[]|e2]]; [done|]. cbn [after_route].
      case_decide; [|done]. destruct (processTokenRequest _ _ _ _) as [[? ?] ?]. by rewrite app_assoc.
    + rewrite Hk. cbn. by rewrite app_nil_r.
  - unfold on_error, after_route. cbn [wPacket at_stage]. case_decide; [|done]. cbn.
    by destruct (processTokenRequest _ _ _ _) as [[? ?] ?].
Qed.

Lemma make_conn_bind packet addr connID env (k : nat -> Act unit) l :
  ((l ← get;
    let connConfig := buildConnConfig (lconfig l) packet connID in
    if negb (sInitiatorConnectionID connConfig =? 0) && (sInitiatorConnectionID connConfig =? connID) then throw EIDCollision
    else
      conn ← lift ENewConn (NewSSU2Conn true (Some addr) (Some connConfig) false (sStaticKey (lconfig l)) None [] (now env));
      registerAndQueueConn conn connID (MessageType packet) (String_ addr) env) ≫= k) l
  = (make_conn packet addr connID env ≫= fun ptr => queue_conn ptr env ≫= k) l.
Proof.
  unfold make_conn, registerAndQueueConn. rewrite !bind_assoc. unfold mbind, Act_bind, get. destruct (_ && _); [done|].
  destruct (NewSSU2Conn _ _ _ _ _ _ _ _) as [s|e]; [|done]. unfold lift, mret, Act_ret. destruct (register_conn _ _ _ _ _) as [[l1 e1] [ptr|]]; [|done].
  destruct (queue_conn ptr env l1) as [[l2 e2] [ptr'|]]; [|done]. destruct (k ptr' l2) as [[l3 e3] r]. cbn. by rewrite app_assoc.
Qed.

Lemma new_session_alone packet addr env l (w := mkWorker WRoute packet addr env) :
  worker_alone 7 l (at_stage w WRate) = Some (after_route w ((handleNewSession addr packet env ≫= router_AddSession) l)).
Proof.
  unfold handleNewSession. rewrite bind_assoc. apply (stage_alone _ _ _ (enforceRateLimit addr env) _ (fun _ => Some WToken)); [done|]. intros [] l1.
  rewrite bind_assoc. apply (stage_alone _ _ _ (handleSessionRequestToken packet addr env) _ (fun _ => Some WConnID)); [done|]. intros [] l2.
  rewrite bind_assoc. apply (stage_alone _ _ _ (generateUniqueConnectionID env) _ (fun id => Some (WRegister id))); [done|]. intros connID l3.
  rewrite make_conn_bind. apply (stage_alone _ _ _ (make_conn packet addr connID env) _ (fun p => Some (WQueue p))); [done|]. intros ptr l4.
  apply (stage_alone _ _ _ (queue_conn ptr env) _ (fun p => Some (WAdd p))); [done|]. intros ptr' l5.
  assert (Hr : router_AddSession ptr' l5 = (router_AddSession ptr' ≫= mret) l5).
  { unfold mbind, Act_bind. destruct (router_AddSession ptr' l5) as [[l6 e6] [[]|]]; [|done]. cbn. by rewrite app_nil_r. }
  rewrite Hr. apply (stage_alone _ _ _ (router_AddSession ptr') _ (fun _ => None)); [done|]. by intros [] l6.
Qed.

Lemma worker_sequential data packet addr env l :
  listener_parseInboundPacket (introHeaderProtector l) data (now env) = Some packet ->
  worker_alone 8 l (mkWorker WRoute packet addr env) = Some (handleIncomingPacket data addr env l).
Proof.
  intros Hp. set (w := mkWorker WRoute packet addr env).
  assert (Hin : handleIncomingPacket data addr env l = after_route w (listener_RoutePacket packet addr env l)).
  { unfold handleIncomingPacket, after_route. rewrite Hp. by destruct (listener_RoutePacket packet addr env l) as [[? ?] []]. }
  rewrite Hin. assert (Herr : forall e, match on_error w with
      | None => Some (l, []) | Some w' => match worker_alone 7 l w' with Some (l', evs) => Some (l', evs) | None => None end end
      = Some (after_route w (l, [], Err e))).
  { intros e. unfold on_error, after_route. cbn [wPacket w]. case_decide; [|done]. cbn. by destruct (processTokenRequest _ _ _ _) as [[? ?] ?]. }
  cbn [worker_alone]. unfold worker_step at 1, w at 1, listener_RoutePacket, mbind at 1, Act_bind at 1. fold w.
  destruct (Session.ExtractConnectionID (Header packet)) as [connID|e]; [|exact (Herr _)]. unfold lift, mret, Act_ret, mbind at 1, Act_bind at 1, get.
  destruct (routes l !! connID) as [ptr|].
  - cbn. unfold go_on. destruct (deliver_to ptr packet env l) as [[l1 e1] [[]|e]] eqn:Hd; [done|].
    unfold deliver_to in Hd. destruct (conns l !! ptr); [|done]. by destruct (processInboundPacket _ _ _ _ _).
  - destruct (CanCreateSession _); [|exact (Herr _)]. pose proof (new_session_alone packet addr env l) as Hn. fold w in Hn.
    cbn [worker_alone] in Hn. rewrite Hn.
    change (handleNewSession addr packet env ≫= fun newConn => router_AddSession newConn) with (handleNewSession addr packet env ≫= router_AddSession).
    destruct ((handleNewSession addr packet env ≫= router_AddSession) l) as [[l1 e1] [[]|e]]; cbn [app after_route]; [done|].
    case_decide; [|done]. by destruct (processTokenRequest _ _ _ _) as [[? ?] ?].
Qed.

(** C10: the tables of the listener, with eight workers that interleave. In any run of
    operations and of steps of the workers, no connection is registered twice, and none
    is accepted or waits to be accepted twice or without being registered; at most 100
    wait. Every registered connection is a responder with a nonzero ID of 64 bits. An ID
    that was not given to [AddSession] leads in the table of the listener to a registered
    connection with this ID, and every ID leads in the table of the router to a
    connection with this ID, so that no two IDs lead to the same connection. *)
Theorem listener_tables (local : option UDPAddr) (config : option (SSU2Config U)) (reads : list (option bytes)) (t0 : Z) (l0 : SSU2Listener)
    (acts : list Action) :
  NewSSU2Listener local config reads t0 = Ok l0 ->
  let '(l, ws, log) := actions (l0, []) acts in
  NoDup (registered log) /\ NoDup (accepted log ++ acceptQueue l) /\ (forall p, p ∈ accepted log ++ acceptQueue l -> p ∈ registered log)
  /\ (length (acceptQueue l) <= acceptQueueCap)%nat /\ (length ws <= packetWorkers)%nat
  /\ (forall p, p ∈ registered log -> exists s, conns l !! p = Some s /\ responder s)
  /\ (forall id ptr, sessions l !! id = Some ptr -> id ∉ added_ids acts ->
       ptr ∈ registered log /\ exists s, conns l !! ptr = Some s /\ connectionID (ssu2Addr s) = id)
  /\ (forall id ptr, routes l !! id = Some ptr -> exists s, conns l !! ptr = Some s /\ connectionID (ssu2Addr s) = id)
  /\ forall id id' ptr, routes l !! id = Some ptr -> routes l !! id' = Some ptr -> id = id'.
Proof.
  intros (addr & sc & connID & hp & _ & _ & _ & _ & ->)%new_listener_inv. set (l0 := mkListener _ _ _ _ _ _ _ _ _ _ _ _ _ _).
  assert (H0 : invariant (added_ids acts) (l0, []) []).
  { split_and!; cbn; [|done|lia]. split; cbn; try (by constructor); try lia; try (by intros p ?%elem_of_nil); intros id ptr; by rewrite lookup_empty. }
  apply (run_tables _ acts) in H0.
  2: { intros id ptr Hin. apply list_elem_of_omap. by exists (Do (AddConn id ptr)). }
  destruct (actions (l0, []) acts) as [[l ws] log]. destruct H0 as ([] & _ & Hn). cbn [fst snd] in *.
  assert (Hsub : accepted log ++ acceptQueue l `sublist_of` accepted log ++ acceptQueue l ++ waiting ws)
    by (rewrite app_assoc; by apply sublist_inserts_r).
  split_and!; try done.
  - by eapply sublist_NoDup.
  - intros p Hp. apply tb_known0. eapply elem_of_submseteq; [exact Hp|by apply sublist_submseteq].
  - intros id id' ptr Hi Hi'. destruct (tb_routes0 _ _ Hi) as (s & Hs & <-), (tb_routes0 _ _ Hi') as (s' & Hs' & <-). by simplify_eq.
Qed.

(** ** Bounds *)

(** The single changes of a listener at time [t]. *)
Inductive change (t : Z) (l : SSU2Listener) : SSU2Listener -> Prop :=
| change_rate a : change t l (set_rateLimiter l (ip_Allow (sessionRateLimiter l) (IPString a) t).1)
| change_sight a il : change t l (set_gates l (ObserveAndAllow (firstSight l) (String_ a) t).1 il)
| change_issuance il : change t l (set_gates l (firstSight l) il)
| change_tokens tc : tc_step String_ (tokenCache l) tc -> change t l (set_tokenCache l tc)
| change_tables cs m r q : change t l (set_acceptQueue (set_routes (set_sessions (set_conns l cs) m) r) q).

(** A step made from [l] consists of such changes. *)
Definition made {A} (t : Z) (l : SSU2Listener) (m : Act A) : Prop := rtc (change t) l (m l).1.1.

(** A step that changes nothing. *)
#[local] Hint Extern 0 (made _ _ _) => apply rtc_refl : core.

Section Changes.
Context (t : Z).

Lemma made_bind {A B} l (m : Act A) (k : A -> Act B) : made t l m -> (forall a l', made t l' (k a)) -> made t l (m ≫= k).
Proof.
  unfold made, mbind, Act_bind. intros Hm Hk. destruct (m l) as [[l1 evs] [a|e]]; [|done]. specialize (Hk a l1).
  destruct (k a l1) as [[l2 evs2] r]. by etrans.
Qed.

Lemma made_get {B} l (k : SSU2Listener -> Act B) : made t l (k l) -> made t l (get ≫= k).
Proof. unfold made, mbind, Act_bind, get. by destruct (k l l) as [[l2 evs2] r]. Qed.

Lemma made_put {B} l l1 (k : unit -> Act B) : rtc (change t) l l1 -> made t l1 (k ()) -> made t l (put l1 ≫= k).
Proof. unfold made, mbind, Act_bind, put. intros H1 H2. destruct (k () l1) as [[l2 evs2] r]. by etrans. Qed.

Lemma made_lift {E A} l (wrap : E -> ListenerError) (r : result E A) : made t l (lift wrap r).
Proof. by destruct r. Qed.

Lemma made_emit {B} l ev (k : unit -> Act B) : made t l (k ()) -> made t l (emit ev ≫= k).
Proof. unfold made, mbind, Act_bind, emit. by destruct (k () l) as [[l2 evs2] r]. Qed.

Lemma sendRetry_made l addr token hdr size env : made t l (sendRetry addr token hdr size env).
Proof.
  unfold sendRetry. destruct (negb (zlen token =? TokenSize)); [done|]. apply made_get. apply made_bind; [apply made_lift|]. intros payload l1.
  destruct (buildRetryHeader _ _ _) as [header|]; [|done]. apply made_bind; [apply made_lift|]. intros d l2.
  destruct (_ && _); [done|]. by destruct (negb _).
Qed.
End Changes.

Lemma processTokenRequest_made l packet addr env : made (now env) l (processTokenRequest packet addr env).
Proof.
  unfold processTokenRequest. apply made_get.
  assert (Hfs : rtc (change (now env)) l (set_gates l (if sFirstSightRequired (lconfig l)
    then ObserveAndAllow (firstSight l) (String_ addr) (now env) else (firstSight l, true)).1 (issuanceLimiter l))).
  { destruct (sFirstSightRequired _); apply rtc_once; [apply change_sight|apply change_issuance]. }
  destruct (if sFirstSightRequired _ then _ else _) as [fs seen]. apply made_put; [done|]. destruct seen; cbn [negb]; [|done].
  destruct (issuance_Allow _ _) as [il ok]. apply made_put; [apply rtc_once, (change_issuance _ (set_gates l fs (issuanceLimiter l)))|].
  destruct ok; cbn [negb]; [|done].
  destruct (GenerateToken _ _ _ _ _ _) as [tc r] eqn:Hg. apply made_put.
  { apply rtc_once, (change_tokens _ (set_gates l fs il)). cbn [tokenCache set_gates].
    replace tc with (GenerateToken String_ (tokenCache l) (Some addr) (rndToken env) (now env) (now env)).1 by by rewrite Hg.
    apply step_generate. }
  apply made_bind; [apply made_lift|]. intros token l1. apply made_emit, sendRetry_made.
Qed.

Lemma token_made l packet addr env : made (now env) l (handleSessionRequestToken packet addr env).
Proof.
  unfold handleSessionRequestToken. case_decide; [done|]. apply made_bind.
  - unfold validateSessionRequestToken. case_decide; [done|]. destruct (DeserializeBlocks _) as [blocks|]; [|done].
    destruct (FindBlockByType _ _) as [b|]; [|done]. destruct (ParseNewTokenBlock b) as [nt|]; [|done]. destruct (_ <? _); [done|].
    apply made_get. destruct (ConsumeToken _ _ _ _ _) as [tc ok] eqn:Hc. apply made_put; [|by destruct ok].
    apply rtc_once, change_tokens. replace tc with (ConsumeToken String_ (tokenCache l) (Token nt) (Some addr) (now env)).1 by by rewrite Hc.
    apply step_consume.
  - intros err l1. apply made_get. destruct err as [[e|]|]; [done| |done]. destruct (sRequireRetry _); [|done].
    apply made_bind; [apply processTokenRequest_made|done].
Qed.

(** The tables may be replaced. *)
Lemma made_tables t l l' :
  lconfig l' = lconfig l -> laddr l' = laddr l -> tokenCache l' = tokenCache l -> firstSight l' = firstSight l -> issuanceLimiter l' = issuanceLimiter l ->
  packetQueue l' = packetQueue l -> introHeaderProtector l' = introHeaderProtector l -> sessionRateLimiter l' = sessionRateLimiter l ->
  droppedPackets l' = droppedPackets l -> lclosed l' = lclosed l -> rtc (change t) l l'.
Proof.
  intros. apply rtc_once. replace l' with (set_acceptQueue (set_routes (set_sessions (set_conns l (conns l')) (sessions l')) (routes l')) (acceptQueue l')).
  - apply change_tables.
  - destruct l, l'. cbn in *. by simplify_eq.
Qed.

Lemma new_session_made l addr packet env : made (now env) l (handleNewSession addr packet env).
Proof.
  unfold handleNewSession. apply made_bind.
  { unfold enforceRateLimit. apply made_get. destruct (ip_Allow _ _ _) as [rl ok] eqn:Hr. apply made_put; [|by destruct ok].
    replace rl with (ip_Allow (sessionRateLimiter l) (IPString addr) (now env)).1 by by rewrite Hr. apply rtc_once, change_rate. }
  intros [] l1. apply made_bind; [apply token_made|]. intros [] l2. apply made_bind.
  { unfold generateUniqueConnectionID. apply made_get. apply made_bind; [apply made_lift|]. intros id l3. destruct (sessions l2 !! id); [|done].
    apply made_bind; [apply made_lift|]. intros id' l4. by destruct (sessions l2 !! id'). }
  intros connID l3. apply made_get. destruct (_ && _); [done|]. apply made_bind; [apply made_lift|]. intros s l4.
  unfold registerAndQueueConn. apply made_bind.
  { unfold register_conn. apply made_get. apply made_put; [by apply made_tables|]. by apply made_emit. }
  intros ptr l5. unfold queue_conn. apply made_get. case_decide; [|done]. destruct (_ && _); [done|]. by apply made_put; [apply made_tables|].
Qed.

Lemma incoming_changes l d addr env : rtc (change (now env)) l (handleIncomingPacket d addr env l).1.
Proof.
  unfold handleIncomingPacket. destruct (listener_parseInboundPacket _ _ _) as [packet|]; [|done].
  assert (Hr : made (now env) l (listener_RoutePacket packet addr env)).
  { unfold listener_RoutePacket. apply made_bind; [apply made_lift|]. intros connID l1. apply made_get.
    destruct (routes l1 !! connID) as [ptr|].
    - unfold made, deliver_to. destruct (conns l1 !! ptr) as [s|]; [|done]. destruct (processInboundPacket _ _ _ _ _). by apply made_tables.
    - destruct (CanCreateSession _); [|done]. apply made_bind; [apply new_session_made|]. intros ptr l2. unfold router_AddSession. apply made_get.
      destruct (conns l2 !! ptr) as [s|]; [|done]. destruct (routes l2 !! _); [done|]. unfold made, put. by apply made_tables. }
  unfold made in Hr. destruct (listener_RoutePacket packet addr env l) as [[l1 evs1] [[]|e]]; [done|]. case_decide; [|done].
  pose proof (processTokenRequest_made l1 packet addr env) as Hp. unfold made in Hp.
  destruct (processTokenRequest packet addr env l1) as [[l2 evs2] r]. by etrans.
Qed.

(** What is bounded, at time [t]. *)
Definition limits (size_ entries_ t : Z) (l : SSU2Listener) : Prop :=
  tc_inv size_ (tokenCache l) /\ (tracks (firstSight l) t /\ maxEntries (firstSight l) = entries_ /\ sight_Size (firstSight l) <= entries_)
  /\ (Z.of_nat (size (RateLimit.entries (sessionRateLimiter l))) <= sessionRateLimiterMaxIPs
      /\ maxIPs (sessionRateLimiter l) = sessionRateLimiterMaxIPs /\ RateLimit.entries (sessionRateLimiter l) !! EmptyString = None)
  /\ (length (packetQueue l) <= packetQueueSize)%nat.

Lemma observe_size w max m a t m' ok : 0 < max -> observe w max m a t m' ok -> Z.of_nat (size m) <= max -> Z.of_nat (size m') <= max.
Proof.
  intros Hmax Ho Hm. destruct (spec_sound w max m [Observe a t] [ok] m' Hmax) as [_ H]; [|by apply H].
  eapply spec_observe; [done|constructor].
Qed.

Lemma sight_size f : sight_Size f = Z.of_nat (size (sightings f)).
Proof. unfold sight_Size, sightings. by rewrite map_size_fmap. Qed.

Lemma change_limits size_ entries_ t l l' :
  (forall a, IPString a <> EmptyString) -> change t l l' -> limits size_ entries_ t l -> limits size_ entries_ t l'.
Proof.
  intros Hip Hc (H1 & (H2 & H3 & H4) & (H5 & H6 & H7) & H8). destruct Hc as [a|a il|il|tc Htc|cs m r q]; unfold limits; cbn -[tracks sight_Size]; split_and!; try done.
  - rewrite <- H6 in H5. destruct (ip_table_bounded (sessionRateLimiter l) (IPString a) t) as (Hb & Hm & Hn); [by rewrite H6|done..|by apply Hip|].
    rewrite Hm, H6 in Hb. done.
  - destruct (ip_table_bounded (sessionRateLimiter l) (IPString a) t) as (Hb & Hm & Hn); [by rewrite H6|by rewrite H6|done|by apply Hip|].
    congruence.
  - by destruct (ip_table_bounded (sessionRateLimiter l) (IPString a) t) as (Hb & Hm & Hn); [by rewrite H6|by rewrite H6|done|by apply Hip|].
  - by destruct (observe_spec (firstSight l) t (String_ a) t H2) as (Ht & _).
  - destruct (observe_spec (firstSight l) t (String_ a) t H2) as (_ & [_ Hl] & _); [done|]. congruence.
  - destruct (observe_spec (firstSight l) t (String_ a) t H2) as (_ & _ & Ho); [done|]. destruct H2 as (_ & _ & Hmax & _). rewrite H3 in *.
    rewrite !sight_size in *. by eapply observe_size.
  - by eapply tc_step_inv.
Qed.

Lemma limits_later size_ entries_ t t' l : t <= t' -> limits size_ entries_ t l -> limits size_ entries_ t' l.
Proof. intros Ht (H1 & (H2 & H3) & H4). unfold limits. split_and!; try done; [by eapply tracks_later|tauto..]. Qed.

Lemma op_limits size_ entries_ t l op :
  (forall a, IPString a <> EmptyString) -> Forall (fun t' => t <= t') (op_clock op) -> limits size_ entries_ t l ->
  limits size_ entries_ (default t (head (op_clock op))) (op_step l op).1.
Proof.
  intros Hip Ht H. destruct op as [r|env|t'|pick| |id|id|s|id ptr|ptr]; cbn [op_clock op_step head default fst] in *; try done.
  - destruct r as [|d [a|]]; cbn [receiveLoop_turn]; [by destruct (lclosed l)| |done]. destruct H as (H1 & H2 & H3 & H4).
    cbn. case_decide; unfold limits; cbn; split_and!; try tauto. rewrite length_app. cbn. lia.
  - rewrite Forall_singleton in Ht. apply (limits_later _ _ _ _ _ Ht) in H. unfold packetWorker_turn.
    destruct (packetQueue l) as [|pkt q] eqn:Hq; cbn [default]; [done|].
    assert (Hc : forall l1 l2, rtc (change (now env)) l1 l2 -> limits size_ entries_ (now env) l1 -> limits size_ entries_ (now env) l2).
    { induction 1; [done|]. intros. eauto using change_limits. }
    eapply Hc; [apply incoming_changes|]. destruct H as (H1 & H2 & H3 & H4). rewrite Hq in H4. cbn in H4. unfold limits. cbn. split_and!; try tauto. lia.
  - rewrite Forall_singleton in Ht. apply (limits_later _ _ _ _ _ Ht) in H. destruct H as (H1 & H). split; [|done].
    eapply (tc_step_inv String_); [exact H1|apply step_cleanup].
  - unfold Accept. destruct (acceptQueue l), (lclosed l), pick; done.
  - unfold listener_Close. by destruct (lclosed l).
  - by destruct (router_AddSession_only ptr l) as [m ->].
Qed.

(** C11: what a flood of datagrams can fill is bounded. In any run with a clock that does
    not go back, the token cache, the first-sight table, the table of addresses of the
    rate limit and the queues stay within their limits. *)
Theorem listener_bounded (local : option UDPAddr) (config : option (SSU2Config U)) (reads : list (option bytes)) (t0 : Z) (l0 : SSU2Listener)
    (ops : list ListenerOp) (l := (listener_run l0 ops).1) :
  (forall a, IPString a <> EmptyString) ->
  NewSSU2Listener local config reads t0 = Ok l0 -> sFirstSightWindow (lconfig l0) <= maxDuration ->
  StronglySorted Z.le (concat (map op_clock ops)) ->
  TokenCache.Size (tokenCache l) <= TokenCache.maxSize (tokenCache l0)
  /\ sight_Size (firstSight l) <= maxEntries (firstSight l0)
  /\ Z.of_nat (size (RateLimit.entries (sessionRateLimiter l))) <= sessionRateLimiterMaxIPs
  /\ (length (packetQueue l) <= packetQueueSize)%nat.
Proof.
  intros Hip (addr & sc & connID & hp & _ & _ & _ & _ & ->)%new_listener_inv Hw Hs%before_all. set (l0 := mkListener _ _ _ _ _ _ _ _ _ _ _ _ _ _) in *.
  destruct (new_cache sc) as (_ & Hempty & Hmax).
  set (J := fun t (l : SSU2Listener) (_ : list Event) => limits (TokenCache.maxSize (tokenCache l0)) (maxEntries (firstSight l0)) t l).
  assert (Hstep : forall t l log op, J t l log -> Forall (fun t' => t <= t') (op_clock op) ->
    let '(l', evs) := op_step l op in J (default t (head (op_clock op))) l' (log ++ evs)).
  { intros t l1 log op H Ht. pose proof (op_limits _ _ _ _ op Hip Ht H) as Ho. by destruct (op_step l1 op). }
  destruct (run_timed J Hstep ops (default 0 (head (concat (map op_clock ops)))) l0 []) as [t' Hrun]; [|exact Hs|].
  - unfold limits. split_and!; try done.
    + split; [done|]. split; [done|]. unfold TokenCache.Size. cbn [tokenCache l0]. rewrite Hempty, map_size_empty. lia.
    + by apply new_tracks.
    + unfold sight_Size. cbn [firstSight l0 newFirstSightTracker sightElems maxEntries]. rewrite map_size_empty.
      destruct (Z.leb_spec (sFirstSightMaxEntries sc) 0); lia.
    + cbn. lia.
  - unfold l. destruct (listener_run l0 ops) as [l' evs]. destruct Hrun as ((H1 & H2 & H3) & (H4 & H5 & H6) & (H7 & _) & H8). by split_and!.
Qed.

End Listener.

(** ** Witnesses *)

#[local] Existing Instances demo_xk demo_xk_laws demo_base64 demo_chacha demo_hash amd64_conv demo_fragment_range demo_path
  demo_hkdf demo_key_cipher demo_replay_range demo_replay_sort.
#[local] Instance demo_token_range : GoRange string (@TokenEntry string) := range_map_to_list _ _.
#[local] Instance demo_ip_range : GoRange string rateLimitEntry := range_map_to_list _ _.

Definition demo_ip (a : string) : string := ("ip " ++ a)%string.

Definition with_retry {U} (sc : SSU2Config U) (required : bool) : SSU2Config U :=
  ltac:(assign (sRequireRetry sc) required).

Definition demo_settings (required : bool) : SSU2Config unit :=
  with_retry (foldl build (NewSSU2Config (replicate 32 x08) false) [WithStaticKey (demo_static x02); WithRouterInfoValidator (Some (fun _ _ => true))]) required.

Abbreviation demo_new_listener required :=
  (NewSSU2Listener (NX := demo_xk) (U := unit) (Some "listener"%string) (Some (demo_settings required)) [Some (be_encode 8 77)] 0).

(** A SessionRequest or TokenRequest of source ID 5 with the payload. *)
Definition demo_datagram (t : byte) (payload : bytes) : bytes :=
  longHeader 0 5 t [] ++ (if decide (t = MessageTypeSessionRequest) then replicate 32 x0a else []) ++ payload ++ replicate 16 x00.

Definition demo_token : bytes := replicate 8 x33.

Definition demo_token_payload : bytes := [BlockTypeNewToken] ++ be_encode 2 12 ++ be_encode 4 161 ++ demo_token.

Definition demo_env (seconds id : Z) : Env :=
  mkPacketEnv (seconds * Second) (Some demo_token) (Some (replicate 8 x44)) [Some (be_encode 8 id)] [] true false.

(** The datagram arrives and a worker takes it. *)
Definition demo_ops (seconds id : Z) (d : bytes) : list (@ListenerOp demo_xk string) :=
  [Arrive (Read d (Some "peer"%string)); Work (demo_env seconds id)].

Definition demo_run (required : bool) (ops : list ListenerOp) : option (SSU2Listener * list (@Event string)) :=
  match demo_new_listener required with
  | Ok l => Some (listener_run id demo_ip no_callbacks l ops)
  | Err _ => None
  end.

(** The requests of a peer: twice without a token, the second of which is answered with
    one, and with the token. *)
Definition demo_requests : list ListenerOp :=
  demo_ops 100 9 (demo_datagram MessageTypeSessionRequest []) ++ demo_ops 101 9 (demo_datagram MessageTypeSessionRequest [])
  ++ demo_ops 102 9 (demo_datagram MessageTypeSessionRequest demo_token_payload) ++ [AcceptConn false].

Definition demo_retry : bytes :=
  sections (retry_packet (be_encode 8 5) (replicate 8 x44) demo_token (be_encode 4 101) (be_encode 4 161) 0).

Definition demo_log : list (@Event string) :=
  [Issued "peer" demo_token (101 * Second); Sent "peer"%string demo_retry; Used "peer" demo_token (102 * Second);
   Registered 0 MessageTypeSessionRequest "peer"; Accepted 0].

Lemma demo_requests_log : snd <$> demo_run true demo_requests = Some demo_log.
Proof. vm_compute. reflexivity. Qed.

(** The listener of the examples. *)
Lemma new_listener_config local config reads t0 l :
  NewSSU2Listener (NX := demo_xk) (U := unit) (UDPAddr := string) local (Some config) reads t0 = Ok l ->
  lconfig l = config /\ tokenCache l = newTokenCacheFromConfig (Some config).
Proof. by intros (addr & sc & connID & hp & _ & [= <-] & _ & _ & ->)%new_listener_inv. Qed.

Lemma demo_made required : is_ok (demo_new_listener required) = true.
Proof. destruct required; vm_compute; reflexivity. Qed.

Lemma demo_limits required :
  sRequireRetry (demo_settings required) = required /\ sFirstSightWindow (demo_settings required) <= maxDuration
  /\ TokenCache.maxSize (newTokenCacheFromConfig (UDPAddr := string) (Some (demo_settings required))) = 10000.
Proof. destruct required; vm_compute; split_and!; congruence. Qed.

Lemma demo_listener required : exists l0,
  demo_new_listener required = Ok l0
  /\ (sRequireRetry (lconfig l0) = required /\ sFirstSightWindow (lconfig l0) <= maxDuration /\ TokenCache.maxSize (tokenCache l0) = 10000)
  /\ forall ops, demo_run required ops = Some (listener_run id demo_ip no_callbacks l0 ops).
Proof.
  pose proof (demo_made required) as Hok. pose proof (demo_limits required) as Hset.
  unfold demo_run. destruct (demo_new_listener required) as [l0|e] eqn:E; [|done]. exists l0.
  destruct (new_listener_config _ _ _ _ _ E) as [-> ->]. split_and!; [done|apply Hset..|done].
Qed.

Lemma snd_some {A B} (x : A * B) y : snd <$> Some x = Some y -> x.2 = y.
Proof. by intros [= ->]. Qed.

Lemma demo_times : StronglySorted Z.le (concat (map op_clock demo_requests)).
Proof. repeat constructor; done. Qed.

Lemma retry_gate_witness :
  exists pre1 pre2 v t t', [Issued "peer" demo_token (101 * Second); Sent "peer"%string demo_retry; Used "peer" demo_token (102 * Second)]
    = pre1 ++ Issued "peer" v t' :: pre2 ++ [Used "peer" v t] /\ t - t' <= tokenTTL /\ forall v' u, Used "peer" v' u ∉ pre2.
Proof.
  destruct (demo_listener true) as (l0 & Hl0 & (Hc1 & Hc2 & Hc3) & Hrun). pose proof demo_requests_log as Hlog. rewrite Hrun in Hlog. apply snd_some in Hlog.
  apply (retry_gate id demo_ip no_callbacks _ _ _ _ l0 demo_requests Hl0) with (p := 0%nat) (post := [Accepted 0]);
    [exact Hc1|exact demo_times|exact Hlog].
Defined.

(** Two workers register a connection each, and the second queues its own first. *)
Definition demo_race : list (@Action demo_xk string) :=
  (Do <$> (demo_ops 100 9 (demo_datagram MessageTypeSessionRequest []) ++ demo_ops 101 10 (demo_datagram MessageTypeSessionRequest [])))
  ++ replicate 5 (Advance 0) ++ replicate 5 (Advance 1) ++ [Advance 1; Advance 0; Do (AcceptConn false); Do (AcceptConn false)].

Definition demo_race_run : option (SSU2Listener * list Worker * list (@Event string)) :=
  match demo_new_listener false with
  | Ok l => Some (actions id demo_ip no_callbacks (l, []) demo_race)
  | Err _ => None
  end.

(** Connections are not always accepted in the order of their registration. *)
Lemma accept_out_of_order :
  snd <$> demo_race_run
  = Some [Registered 0 MessageTypeSessionRequest "peer"; Registered 1 MessageTypeSessionRequest "peer"; Accepted 1; Accepted 0].
Proof. vm_compute. reflexivity. Qed.

Lemma listener_tables_witness :
  exists l ws, fst <$> demo_race_run = Some (l, ws) /\ (forall p, p ∈ [0; 1]%nat -> exists s, conns l !! p = Some s /\ responder s)
    /\ NoDup ([1; 0]%nat ++ acceptQueue l).
Proof.
  pose proof accept_out_of_order as Hlog. unfold demo_race_run in *.
  destruct (demo_listener false) as (l0 & Hl0 & _). rewrite Hl0 in Hlog |- *. apply snd_some in Hlog.
  pose proof (listener_tables id demo_ip no_callbacks _ _ _ _ l0 demo_race Hl0) as H.
  destruct (actions id demo_ip no_callbacks (l0, []) demo_race) as [[l ws] log].
  cbn [snd] in Hlog. subst log. exists l, ws. destruct H as (_ & Hn & _ & _ & _ & Hr & _). split_and!; [done|exact Hr|exact Hn].
Defined.

Lemma listener_bounded_witness :
  exists l, fst <$> demo_run true demo_requests = Some l /\ TokenCache.Size (tokenCache l) <= 10000.
Proof.
  destruct (demo_listener true) as (l0 & Hl0 & (Hc1 & Hc2 & Hc3) & Hrun). rewrite Hrun.
  destruct (listener_bounded id demo_ip no_callbacks _ _ _ _ l0 demo_requests (fun _ => ltac:(discriminate)) Hl0) as [H _];
    [exact Hc2|exact demo_times|].
  destruct (listener_run id demo_ip no_callbacks l0 demo_requests) as [l log]. exists l. split; [done|]. by rewrite <- Hc3.
Defined.

(** What [retry_answer] asks of the listener after the first request of the peer. *)
Definition demo_gates (l : @SSU2Listener demo_xk unit string) : bool * bool * bool * (bool * option nat) * (gmap string (@TokenEntry string) * Z) :=
  ((ip_Allow (sessionRateLimiter l) (demo_ip "peer") (101 * Second)).2, (ObserveAndAllow (firstSight l) "peer" (101 * Second)).2,
   (issuance_Allow (issuanceLimiter l) (101 * Second)).2, (sRequireRetry (lconfig l), routes l !! 0),
   (TokenCache.tokens (tokenCache l), TokenCache.ttl (tokenCache l))).

(** The second request of the peer is answered. *)
Lemma retry_answer_witness :
  exists l l' v d, fst <$> demo_run true (demo_ops 100 9 (demo_datagram MessageTypeSessionRequest [])) = Some l
    /\ handleIncomingPacket id demo_ip no_callbacks (demo_datagram MessageTypeSessionRequest []) "peer"%string (demo_env 101 9) l
       = (l', [Issued "peer" v (101 * Second); Sent "peer"%string d])
    /\ ValidateToken id (tokenCache l') v (Some "peer"%string) (101 * Second) = true.
Proof.
  destruct (demo_listener true) as (l0 & _ & _ & Hrun).
  assert (Hl : snd <$> ((fun r : SSU2Listener * list Event => (r, demo_gates r.1)) <$> demo_run true (demo_ops 100 9 (demo_datagram MessageTypeSessionRequest [])))
    = Some (true, true, true, (true, None), (∅, 60 * Second))) by (vm_compute; reflexivity).
  rewrite Hrun in Hl |- *. apply snd_some in Hl.
  destruct (listener_run id demo_ip no_callbacks l0 _) as [l log]. cbn [snd fst] in Hl. unfold demo_gates in Hl.
  apply pair_equal_spec in Hl as [[[[Hip Hfs]%pair_equal_spec Hil]%pair_equal_spec [Hreq Hroute]%pair_equal_spec]%pair_equal_spec
    [Htok Httl]%pair_equal_spec].
  destruct (retry_answer id demo_ip no_callbacks (demo_datagram MessageTypeSessionRequest []) 0
    (Packet.Deserialize no_packet (demo_datagram MessageTypeSessionRequest []) (101 * Second)).1 0 "peer"%string (demo_env 101 9) l)
    as (l' & v & d & r & Hp & _ & _ & _ & _ & _ & _ & Hv & _).
  - unfold listener_parseInboundPacket. vm_compute. reflexivity.
  - vm_compute. reflexivity.
  - left. vm_compute. reflexivity.
  - exact Hreq.
  - vm_compute. reflexivity.
  - exact Hroute.
  - exact Hip.
  - by intros _.
  - exact Hil.
  - by exists demo_token.
  - intros k e. rewrite Htok. by rewrite lookup_empty.
  - by rewrite Httl.
  - by exists (replicate 8 x44).
  - done.
  - by exists l, l', v, d.
Defined.

(** ** What requests do *)

(** A TokenRequest makes a connection even if tokens are required, and is not answered. *)
Lemma token_request_admitted :
  snd <$> demo_run true (demo_ops 100 9 (demo_datagram MessageTypeTokenRequest [])) = Some [Registered 0 MessageTypeTokenRequest "peer"].
Proof. vm_compute. reflexivity. Qed.

(** A SessionRequest is not given to the connection it makes, and makes another one when
    it is sent again. *)
Lemma request_not_delivered :
  (fun r => (r.2, (fun s => recvQueue (conn (hconn s))) <$> conns r.1)) <$>
    demo_run false (demo_ops 100 9 (demo_datagram MessageTypeSessionRequest []) ++ demo_ops 101 10 (demo_datagram MessageTypeSessionRequest []))
  = Some ([Registered 0 MessageTypeSessionRequest "peer"; Registered 1 MessageTypeSessionRequest "peer"], [[]; []]).
Proof. vm_compute. reflexivity. Qed.

(** The token of the initiator, in the header of its SessionRequest, is not read. *)
Lemma header_token_ignored :
  let d := longHeader 0 5 MessageTypeSessionRequest demo_token ++ replicate 32 x0a ++ replicate 16 x00 in
  snd <$> demo_run true (demo_ops 100 9 d ++ demo_ops 101 9 d ++ demo_ops 102 9 d)
  = Some [Issued "peer" demo_token (101 * Second); Sent "peer"%string demo_retry; Issued "peer" demo_token (102 * Second);
          Sent "peer"%string (sections (retry_packet (be_encode 8 5) (replicate 8 x44) demo_token (be_encode 4 102) (be_encode 4 162) 0))].
Proof. vm_compute. reflexivity. Qed.
