(* ===== verification/Shutdown.v ===== *)
(** * Transports, listeners and their shutdown

    The shutdown manager ([shutdown/shutdown.go]) with what it manages: generic
    listeners ([listener/listener.go]), the life cycle of Noise connections
    ([SetShutdownManager] of [conn/state.go], [Close] of [conn/conn.go]), and the
    transport that opens both ([transport.go], [transport_factory.go],
    [transport_validate.go], [pool_wrapper.go]).

    Connections and listeners are pointers into a heap, and the manager's maps hold
    pointers. A socket is external: whether it opens, and the error of closing it, are
    arguments, and so are the answers of the connection pool, a third-party package, and
    the outcome of a handshake (NoiseHandshake has the handshake itself; here it matters
    that a handshake takes a connection out of the state Closed, which is noted). Other
    goroutines run between the steps of a shutdown; what they do there is an argument, and
    may be any of these operations. There is one manager. *)

From Stdlib Require Import ZArith Lia.
From Stdlib Require Import Strings.Byte.
From stdpp Require Import base numbers list gmap strings.
From S2P Require Import Prelude NoiseHandshake.

#[local] Open Scope Z_scope.

(** ** Settings of a listener *)

(** [M] stands for a modifier, [H] for a hook. *)
Record ListenerConfig {M H : Type} := mkListenerConfig {
  lcPattern : string;
  lcStaticKey : bytes;
  lcHandshakeTimeout : Z;
  lcReadTimeout : Z;
  lcWriteTimeout : Z;
  lcModifiers : list M;
  lcPostHandshakeHook : option H;
  lcAdditionalSymmetricKeyLabels : list bytes;
  lcHandshakeRetries : Z;
  lcRetryBackoff : Z;
}.
Arguments ListenerConfig : clear implicits.

(** The settings of an accepted connection: those of NoiseHandshake and the rest. *)
Record AcceptConfig {M H : Type} := mkAcceptConfig {
  acConn : ConnConfig;
  acReadTimeout : Z;
  acWriteTimeout : Z;
  acModifiers : list M;
  acPostHandshakeHook : option H;
  acAdditionalSymmetricKeyLabels : list bytes;
}.
Arguments AcceptConfig : clear implicits.

Section Settings.
Context {M H : Type}.

Definition NewListenerConfig (pattern : string) : ListenerConfig M H :=
  mkListenerConfig _ _ pattern [] (30 * Second) 0 0 [] None [] 0 (1 * Second).

Definition listener_Validate (lc : ListenerConfig M H) : option ConfigError :=
  if decide (lcPattern lc = ""%string) then Some EPatternRequired
  else match parseHandshakePattern (lcPattern lc) with
  | None => Some EPatternUnknown
  | Some _ =>
      if (0 <? zlen (lcStaticKey lc)) && negb (zlen (lcStaticKey lc) =? 32) then Some (EKeyLength (zlen (lcStaticKey lc)))
      else if lcHandshakeTimeout lc <=? 0 then Some EInvalidTimeout
      else None
  end.

Definition createAcceptConnConfig (lc : ListenerConfig M H) : AcceptConfig M H :=
  let c := NewConnConfig (lcPattern lc) false in
  mkAcceptConfig _ _
    (mkConnConfig (Pattern c) (Initiator c) (lcStaticKey lc) (RemoteKey c) (lcHandshakeTimeout lc)
       (if 0 <? lcHandshakeRetries lc then lcHandshakeRetries lc else HandshakeRetries c)
       (if 0 <? lcRetryBackoff lc then lcRetryBackoff lc else RetryBackoff c))
    (lcReadTimeout lc) (lcWriteTimeout lc) (lcModifiers lc) (lcPostHandshakeHook lc) (lcAdditionalSymmetricKeyLabels lc).
End Settings.

(** ** State *)

(** What a connection or listener closes: a socket with a number of its own, or the
    wrapper that gives a freshly dialled one to the pool instead ([putOnCloseWrapper]). *)
Record Underlying := mkUnder { u_id : nat; u_put : bool }.

Inductive ShutError :=
| EInvalidNetwork
| EInvalidAddress
| ENilConfig
| EInvalidConfig (e : ConfigError)
| EOpenFailed
| ENoiseConnFailed (e : NoiseError)
| EHandshakeFailed
| EListenerClosed
| EAcceptFailed
| ECloseFailed (id : nat)
| EPoolClose.

Section Transport.
Context {M H : Type}.

Record ConnObj := mkConnObj {
  c_closed : bool;
  c_managed : bool;
  c_under : Underlying;
  c_config : ConnConfig;
}.

Record ListenerObj := mkListenerObj {
  l_closed : bool;
  l_managed : bool;
  l_under : Underlying;
  l_config : ListenerConfig M H;
}.

(** What can undo a shutdown: a handshake that takes a connection out of the state Closed,
    and calls of the manager's own [UnregisterConnection] and [RegisterListener]. *)
Inductive Note := Revived (p : nat) | Unregistered (p : nat) | Listed (p : nat).

(** [opened] counts the sockets and wrappers made so far; [released] lists those closed,
    or given to the pool, in order, and [notes] what can undo a shutdown. [shutdownErr] is
    set once a shutdown is complete. *)
Record World := mkWorld {
  connections : gmap nat unit;
  listeners : gmap nat unit;
  shutdownTimeout : Z;
  cancelled : bool;
  shutdownErr : option (option ShutError);
  conns : list ConnObj;
  lstns : list ListenerObj;
  opened : nat;
  released : list nat;
  notes : list Note;
}.

Definition NewShutdownManager (timeout : Z) : World :=
  mkWorld ∅ ∅ (if timeout =? 0 then 30 * Second else timeout) false None [] [] 0 [] [].

Definition set_maps (w : World) cs ls : World :=
  mkWorld cs ls (shutdownTimeout w) (cancelled w) (shutdownErr w) (conns w) (lstns w) (opened w) (released w) (notes w).
Definition set_objs (w : World) cs ls : World :=
  mkWorld (connections w) (listeners w) (shutdownTimeout w) (cancelled w) (shutdownErr w) cs ls (opened w) (released w) (notes w).
Definition set_socks (w : World) n rs : World :=
  mkWorld (connections w) (listeners w) (shutdownTimeout w) (cancelled w) (shutdownErr w) (conns w) (lstns w) n rs (notes w).
Definition set_done (w : World) c e : World :=
  mkWorld (connections w) (listeners w) (shutdownTimeout w) c e (conns w) (lstns w) (opened w) (released w) (notes w).

Definition add_note (w : World) (n : Note) : World :=
  mkWorld (connections w) (listeners w) (shutdownTimeout w) (cancelled w) (shutdownErr w) (conns w) (lstns w) (opened w) (released w) (notes w ++ [n]).

Definition RegisterConnection (w : World) (p : nat) : World := set_maps w (<[p := ()]> (connections w)) (listeners w).
Definition UnregisterConnection (w : World) (p : nat) : World := set_maps w (delete p (connections w)) (listeners w).
Definition RegisterListener (w : World) (p : nat) : World := set_maps w (connections w) (<[p := ()]> (listeners w)).
Definition UnregisterListener (w : World) (p : nat) : World := set_maps w (connections w) (delete p (listeners w)).
Definition ConnectionRegistered (w : World) (p : nat) : bool := bool_decide (is_Some (connections w !! p)).
Definition ListenerRegistered (w : World) (p : nat) : bool := bool_decide (is_Some (listeners w !! p)).

Context {CS : Type} `{NL : NoiseHandshakeLib CS}.
(** Whether closing a socket fails, which has been closed before or not. *)
Context (closeFails : nat -> bool -> bool).
Context {R : GoRange nat unit}.

(** Opening a socket, or taking one from the pool in a wrapper of the pool's. *)
Definition open_under (w : World) (put : bool) : World * Underlying :=
  (set_socks w (S (opened w)) (released w), mkUnder (opened w) put).

(** [Close] of a socket, and of [putOnCloseWrapper], which does its work once and never
    returns an error. *)
Definition under_Close (w : World) (u : Underlying) : World * option ShutError :=
  let w' := set_socks w (opened w) (released w ++ [u_id u]) in
  if u_put u then (if decide (u_id u ∈ released w) then w else w', None)
  else (w', if closeFails (u_id u) (bool_decide (u_id u ∈ released w)) then Some (ECloseFailed (u_id u)) else None).

(** ** Connections *)

(** [NewNoiseConn] around [u]; the modifiers and the hook do not matter here. *)
Definition new_conn (w : World) (u : Underlying) (config : ConnConfig) : World * result ShutError nat :=
  match NewNoiseConn (W := unit) (M := unit) config None () None with
  | Err e => (w, Err (ENoiseConnFailed e))
  | Ok _ => (set_objs w (conns w ++ [mkConnObj false false u config]) (lstns w), Ok (length (conns w)))
  end.

(** [Conn.SetShutdownManager], with the manager. *)
Definition conn_SetShutdownManager (w : World) (p : nat) : World :=
  RegisterConnection
    (set_objs w (alter (fun o => mkConnObj (c_closed o) true (c_under o) (c_config o)) p (conns w)) (lstns w)) p.

(** [Conn.Close]; the erasure of keys is not part of this state. *)
Definition conn_Close (w : World) (p : nat) : World * option ShutError :=
  match conns w !! p with
  | None => (w, None)
  | Some o =>
      if c_closed o then (w, None)
      else
        let w := set_objs w (<[p := mkConnObj true (c_managed o) (c_under o) (c_config o)]> (conns w)) (lstns w) in
        let w := if c_managed o then UnregisterConnection w p else w in
        under_Close w (c_under o)
  end.

(** A step of a handshake: [Handshake] ([StartHandshake], [CompleteHandshake]) sets the
    state to Handshaking when it starts and to Init or Established when it ends, without
    a look at the state Closed. *)
Definition conn_Handshake (w : World) (p : nat) : World :=
  match conns w !! p with
  | None => w
  | Some o =>
      if c_closed o
      then add_note (set_objs w (<[p := mkConnObj false (c_managed o) (c_under o) (c_config o)]> (conns w)) (lstns w)) (Revived p)
      else w
  end.

(** ** Listeners *)

(** [NewNoiseListener] around [u]. *)
Definition NewNoiseListener (w : World) (u : Underlying) (lc : ListenerConfig M H) : World * result ShutError nat :=
  match listener_Validate lc with
  | Some e => (w, Err (EInvalidConfig e))
  | None => (set_objs w (conns w) (lstns w ++ [mkListenerObj false false u lc]), Ok (length (lstns w)))
  end.

(** [Listener.SetShutdownManager], with the manager. *)
Definition listener_SetShutdownManager (w : World) (p : nat) : World :=
  match lstns w !! p with
  | None => w
  | Some o =>
      if l_closed o then w
      else RegisterListener (set_objs w (conns w) (<[p := mkListenerObj false true (l_under o) (l_config o)]> (lstns w))) p
  end.

(** [Listener.Close]. *)
Definition noise_listener_Close (w : World) (p : nat) : World * option ShutError :=
  match lstns w !! p with
  | None => (w, None)
  | Some o =>
      if l_closed o then (w, None)
      else
        let w := set_objs w (conns w) (<[p := mkListenerObj true (l_managed o) (l_under o) (l_config o)]> (lstns w)) in
        let w := if l_managed o then UnregisterListener w p else w in
        under_Close w (l_under o)
  end.

(** [Listener.Accept]; [accepted] says whether the socket below accepts a connection. *)
Definition noise_Accept (w : World) (p : nat) (accepted : bool) : World * result ShutError nat :=
  match lstns w !! p with
  | None => (w, Err EListenerClosed)
  | Some o =>
      if l_closed o then (w, Err EListenerClosed)
      else if negb accepted then (w, Err EAcceptFailed)
      else
        let '(w, u) := open_under w false in
        match new_conn w u (acConn (createAcceptConnConfig (l_config o))) with
        | (w, Err e) => ((under_Close w u).1, Err e)
        | r => r
        end
  end.

(** ** Transports *)

(** A transport: whether it has a pool and a shutdown manager. *)
Record Transport := mkTransport { t_pool : bool; t_sm : bool }.

Definition validateNetworkAddr (network addr : string) : option ShutError :=
  if decide (network = ""%string) then Some EInvalidNetwork
  else if decide (addr = ""%string) then Some EInvalidAddress
  else None.

Definition transport_validateDialParams (network addr : string) (config : option ConnConfig) : result ShutError ConnConfig :=
  match validateNetworkAddr network addr with
  | Some e => Err e
  | None =>
      match config with
      | None => Err ENilConfig
      | Some c => match Validate c with Some e => Err (EInvalidConfig e) | None => Ok c end
      end
  end.

Definition transport_validateListenParams (network addr : string) (config : option (ListenerConfig M H))
    : result ShutError (ListenerConfig M H) :=
  match validateNetworkAddr network addr with
  | Some e => Err e
  | None =>
      match config with
      | None => Err ENilConfig
      | Some c => match listener_Validate c with Some e => Err (EInvalidConfig e) | None => Ok c end
      end
  end.

(** [openAndWrapTransport]: [valid] is what the validation gave, [opens] whether the
    network resource opens. *)
Definition openAndWrapTransport {C : Type} (w : World) (sm : bool) (valid : result ShutError C) (opens : bool)
    (wrap : World -> Underlying -> C -> World * result ShutError nat) (setManager : World -> nat -> World)
    : World * result ShutError nat :=
  match valid with
  | Err e => (w, Err e)
  | Ok config =>
      if negb opens then (w, Err EOpenFailed)
      else
        let '(w, u) := open_under w false in
        match wrap w u config with
        | (w, Err e) => ((under_Close w u).1, Err e)
        | (w, Ok p) => (if sm then setManager w p else w, Ok p)
        end
  end.

Definition Transport_Dial (t : Transport) (w : World) network addr config (opens : bool) : World * result ShutError nat :=
  openAndWrapTransport w (t_sm t) (transport_validateDialParams network addr config) opens new_conn conn_SetShutdownManager.

Definition Transport_Listen (t : Transport) (w : World) network addr config (opens : bool) : World * result ShutError nat :=
  openAndWrapTransport w (t_sm t) (transport_validateListenParams network addr config) opens
    NewNoiseListener listener_SetShutdownManager.

(** [DialWithPool]; [pooled] says whether the pool has a connection. *)
Definition DialWithPool (t : Transport) (w : World) network addr config (pooled opens : bool) : World * result ShutError nat :=
  match transport_validateDialParams network addr config with
  | Err e => (w, Err e)
  | Ok config =>
      let fromPool := t_pool t && pooled in
      if negb fromPool && negb opens then (w, Err EOpenFailed)
      else
        let '(w, u) := open_under w (negb fromPool && t_pool t) in
        match new_conn w u config with
        | (w, Err e) => ((under_Close w u).1, Err e)
        | (w, Ok p) => (if t_sm t then conn_SetShutdownManager w p else w, Ok p)
        end
  end.

(** [createAndHandshakeConnTransport]; [shaken] is the outcome of [HandshakeWithRetry]. *)
Definition createAndHandshakeConnTransport (t : Transport) (w : World) (u : Underlying) (config : ConnConfig) (shaken : bool)
    : World * result ShutError nat :=
  match new_conn w u config with
  | (w, Err e) => ((under_Close w u).1, Err e)
  | (w, Ok p) =>
      let w := if t_sm t then conn_SetShutdownManager w p else w in
      if shaken then (w, Ok p) else ((conn_Close w p).1, Err EHandshakeFailed)
  end.

Definition DialWithHandshakeContext (t : Transport) (w : World) network addr config (opens shaken : bool)
    : World * result ShutError nat :=
  match transport_validateDialParams network addr config with
  | Err e => (w, Err e)
  | Ok config =>
      if negb opens then (w, Err EOpenFailed)
      else let '(w, u) := open_under w false in createAndHandshakeConnTransport t w u config shaken
  end.

(** [DialWithPoolAndHandshakeContext]; [pshaken] is the outcome on the pooled connection. *)
Definition DialWithPoolAndHandshakeContext (t : Transport) (w : World) network addr config (pooled pshaken opens shaken : bool)
    : World * result ShutError nat :=
  match transport_validateDialParams network addr config with
  | Err e => (w, Err e)
  | Ok c =>
      if t_pool t && pooled then
        let '(w, u) := open_under w false in
        match createAndHandshakeConnTransport t w u c pshaken with
        | (w, Err _) => DialWithHandshakeContext t w network addr config opens shaken
        | r => r
        end
      else DialWithHandshakeContext t w network addr config opens shaken
  end.

(** ** Shutdown *)

(** What other goroutines do: methods of connections and listeners, of transports, and of
    the manager itself. A dial with a handshake is one step here; its parts, with others
    between them, are [ODial], [OHandshake] and [OClose]. *)
Inductive Other :=
| OClose (p : nat)
| OCloseListener (p : nat)
| OManage (p : nat)
| OManageListener (p : nat)
| ODial (t : Transport) (network addr : string) (config : option ConnConfig) (opens : bool)
| OListen (t : Transport) (network addr : string) (config : option (ListenerConfig M H)) (opens : bool)
| ODialWithPool (t : Transport) (network addr : string) (config : option ConnConfig) (pooled opens : bool)
| ODialHandshake (t : Transport) (network addr : string) (config : option ConnConfig) (pooled pshaken opens shaken : bool)
| OAccept (p : nat) (accepted : bool)
| OHandshake (p : nat)
| ORegister (p : nat)
| OUnregister (p : nat)
| ORegisterListener (p : nat)
| OUnregisterListener (p : nat).

(** A method needs an object, so [OManage] has no effect where there is none, and the
    manager's methods ignore nil. *)
Definition other_step (w : World) (o : Other) : World :=
  match o with
  | OClose p => (conn_Close w p).1
  | OCloseListener p => (noise_listener_Close w p).1
  | OManage p => if decide (is_Some (conns w !! p)) then conn_SetShutdownManager w p else w
  | OManageListener p => listener_SetShutdownManager w p
  | ODial t network addr config opens => (Transport_Dial t w network addr config opens).1
  | OListen t network addr config opens => (Transport_Listen t w network addr config opens).1
  | ODialWithPool t network addr config pooled opens => (DialWithPool t w network addr config pooled opens).1
  | ODialHandshake t network addr config pooled pshaken opens shaken =>
      (DialWithPoolAndHandshakeContext t w network addr config pooled pshaken opens shaken).1
  | OAccept p accepted => (noise_Accept w p accepted).1
  | OHandshake p => conn_Handshake w p
  | ORegister p => if decide (is_Some (conns w !! p)) then RegisterConnection w p else w
  | OUnregister p => add_note (UnregisterConnection w p) (Unregistered p)
  | ORegisterListener p => if decide (is_Some (lstns w !! p)) then add_note (RegisterListener w p) (Listed p) else w
  | OUnregisterListener p => UnregisterListener w p
  end.

Definition others_run (w : World) (os : list Other) : World := foldl other_step w os.

(** The loops of [closeListeners] and [forceCloseConnections] over the pointers they have
    copied; before each call of [Close] others run. *)
Fixpoint close_all (close : World -> nat -> World * option ShutError) (w : World) (ps : list nat) (gaps : list (list Other))
    (firstError : option ShutError) : World * option ShutError :=
  match ps with
  | [] => (w, firstError)
  | p :: ps =>
      let '(w, err) := close (others_run w (hd [] gaps)) p in
      close_all close w ps (tl gaps) (match firstError with Some _ => firstError | None => err end)
  end.

Definition closeListeners (w : World) (gaps : list (list Other)) : World * option ShutError :=
  close_all noise_listener_Close w (go_range (listeners w)).*1 gaps None.
Definition forceCloseConnections (w : World) (gaps : list (list Other)) : World * option ShutError :=
  close_all conn_Close w (go_range (connections w)).*1 gaps None.

(** [waitForConnectionsDrain]: [ticks] has what others do before each tick that comes
    before the timer, [last] what they do before the timer. Also whether the timer fired. *)
Fixpoint waitForConnectionsDrain (w : World) (ticks : list (list Other)) (last : list Other) : World * bool :=
  match ticks with
  | [] => (others_run w last, true)
  | os :: ticks =>
      let w := others_run w os in
      if decide (size (connections w) = 0%nat) then (w, false) else waitForConnectionsDrain w ticks last
  end.

(** What others do during a shutdown. *)
Record Schedule := mkSchedule {
  s_listeners : list (list Other);
  s_ticks : list (list Other);
  s_last : list Other;
  s_conns : list (list Other);
}.

Definition handleConnectionDraining (w : World) (s : Schedule) : World * option ShutError :=
  match waitForConnectionsDrain w (s_ticks s) (s_last s) with
  | (w, true) => forceCloseConnections w (s_conns s)
  | (w, false) => (w, None)
  end.

Definition executeShutdownSequence (w : World) (s : Schedule) : World * option ShutError :=
  let '(w, shutdownErr) := closeListeners w (s_listeners s) in
  let '(w, err) := handleConnectionDraining w s in
  (w, match shutdownErr with Some _ => shutdownErr | None => err end).

(** [Shutdown]: the first call runs the sequence, every call returns its error. *)
Definition Shutdown (w : World) (s : Schedule) : World * option ShutError :=
  match shutdownErr w with
  | Some e => (w, e)
  | None =>
      let '(w, e) := executeShutdownSequence (set_done w true None) s in
      (set_done w true (Some e), e)
  end.

(** [Transport.GracefulShutdown]; [poolFails] says whether closing the pool fails. *)
Definition Transport_GracefulShutdown (t : Transport) (w : World) (s : Schedule) (poolFails : bool) : World * option ShutError :=
  let '(w, err) := if t_sm t then Shutdown w s else (w, None) in
  (w, match err with Some _ => err | None => if t_pool t && poolFails then Some EPoolClose else None end).

(** ** Invariant *)

Definition conn_id (o : ConnObj) : nat := u_id (c_under o).
Definition lstn_id (o : ListenerObj) : nat := u_id (l_under o).
Definition ids (w : World) : list nat := (conn_id <$> conns w) ++ (lstn_id <$> lstns w).

(** The socket of a connection that a handshake took out of the state Closed. *)
Definition revived_socket (w : World) (i : nat) : Prop := exists p o, conns w !! p = Some o /\ conn_id o = i /\ Revived p ∈ notes w.

(** No element twice, apart from those with [Q]. *)
Definition once (Q : nat -> Prop) (l : list nat) : Prop := forall i j k, l !! j = Some i -> l !! k = Some i -> j = k \/ Q i.

(** Every socket belongs to one object or is released, only that of a revived connection
    more than once; an object is closed exactly when its socket is released, revived
    connections apart; and the manager's maps lead to objects. *)
Record wf (w : World) : Prop := {
  wf_ids : NoDup (ids w);
  wf_released : once (revived_socket w) (released w);
  wf_opened : forall i, (i < opened w)%nat <-> i ∈ ids w \/ i ∈ released w;
  wf_conn : forall p o, conns w !! p = Some o -> c_closed o = true -> conn_id o ∈ released w;
  wf_conn_open : forall p o, conns w !! p = Some o -> conn_id o ∈ released w -> c_closed o = true \/ Revived p ∈ notes w;
  wf_lstn : forall p o, lstns w !! p = Some o -> l_closed o = true <-> lstn_id o ∈ released w;
  wf_put : forall p o, lstns w !! p = Some o -> u_put (l_under o) = false;
  wf_connections : forall p, is_Some (connections w !! p) -> is_Some (conns w !! p);
  wf_listeners : forall p, is_Some (listeners w !! p) ->
    exists o, lstns w !! p = Some o /\ (l_managed o = true /\ l_closed o = false \/ Listed p ∈ notes w);
}.

Definition conn_closed (w : World) (p : nat) : Prop := exists o, conns w !! p = Some o /\ c_closed o = true.
Definition listener_closed (w : World) (p : nat) : Prop := exists o, lstns w !! p = Some o /\ l_closed o = true.

(** What a log has got since it was [l]. *)
Definition since {A} (l l' : list A) : list A := drop (length l) l'.

(** The note was made between [w] and [w']. *)
Definition noted (w w' : World) (n : Note) : Prop := n ∈ since (notes w) (notes w').

(** What no operation undoes without a note. *)
Record ext (w w' : World) : Prop := {
  ext_conn : forall p, conn_closed w p -> conn_closed w' p \/ noted w w' (Revived p);
  ext_lstn : forall p, listener_closed w p -> listener_closed w' p;
  ext_registered : forall p, is_Some (connections w !! p) ->
    is_Some (connections w' !! p) \/ conn_closed w' p \/ noted w w' (Revived p) \/ noted w w' (Unregistered p);
  ext_released : released w `prefix_of` released w';
  ext_notes : notes w `prefix_of` notes w';
  ext_err : shutdownErr w' = shutdownErr w;
  ext_conns : (length (conns w) <= length (conns w'))%nat;
  ext_lstns : (length (lstns w) <= length (lstns w'))%nat;
}.

Definition good (w w' : World) : Prop := wf w -> wf w' /\ ext w w'.

Lemma since_mono {A} (l0 l1 l2 l3 : list A) x :
  l0 `prefix_of` l1 -> l1 `prefix_of` l2 -> l2 `prefix_of` l3 -> x ∈ since l1 l2 -> x ∈ since l0 l3.
Proof.
  intros [a ->] [b ->] [c ->]. unfold since. rewrite drop_app_length, <- !app_assoc, drop_app_length, !elem_of_app. auto.
Qed.

Lemma once_mono (Q Q' : nat -> Prop) l : (forall i, Q i -> Q' i) -> once Q l -> once Q' l.
Proof. intros HQ Ho i j k Hj Hk. destruct (Ho i j k Hj Hk); auto. Qed.

Lemma once_snoc (Q : nat -> Prop) l x : once Q l -> (x ∈ l -> Q x) -> once Q (l ++ [x]).
Proof.
  intros Ho Hx i j k [Hj | [Lj [Ej <-]%list_lookup_singleton_Some]]%lookup_app_Some [Hk | [Lk [Ek E]%list_lookup_singleton_Some]]%lookup_app_Some.
  - by apply (Ho i).
  - subst. right. by apply Hx, (list_elem_of_lookup_2 _ j).
  - right. by apply Hx, (list_elem_of_lookup_2 _ k).
  - left. lia.
Qed.

Lemma ext_refl w : ext w w.
Proof. split; auto. Qed.

Lemma ext_trans w1 w2 w3 : ext w1 w2 -> ext w2 w3 -> ext w1 w3.
Proof.
  intros [A1 A2 A3 A4 A5 A6 A7 A8] [B1 B2 B3 B4 B5 B6 B7 B8].
  assert (N1 : forall n, noted w1 w2 n -> noted w1 w3 n) by (intros n; by apply since_mono).
  assert (N2 : forall n, noted w2 w3 n -> noted w1 w3 n) by (intros n; by apply since_mono).
  split; [| eauto | | by etrans | by etrans | congruence | lia | lia].
  - intros p Hp. destruct (A1 p Hp) as [Hc | Hn]; [destruct (B1 p Hc); auto | auto].
  - intros p Hp. destruct (A3 p Hp) as [Hr | [Hc | [Hn | Hn]]]; [destruct (B3 p Hr) as [? | [? | [? | ?]]] | destruct (B1 p Hc) | |]; auto.
Qed.

Lemma noted_before w0 w w' n : ext w0 w -> ext w w' -> noted w w' n -> noted w0 w' n.
Proof. intros E0 E. by apply since_mono; [apply (ext_notes _ _ E0) | apply (ext_notes _ _ E) |]. Qed.

Lemma noted_after w w' w1 n : ext w w' -> ext w' w1 -> noted w w' n -> noted w w1 n.
Proof. intros E E1. by apply since_mono; [| apply (ext_notes _ _ E) | apply (ext_notes _ _ E1)]. Qed.

Lemma good_refl w : good w w.
Proof. split; [done | apply ext_refl]. Qed.

Lemma good_trans w1 w2 w3 : good w1 w2 -> good w2 w3 -> good w1 w3.
Proof. intros G1 G2 W. destruct (G1 W) as [W2 E1]. destruct (G2 W2). split; [done | by eapply ext_trans]. Qed.

Lemma wf_new timeout : wf (NewShutdownManager timeout).
Proof.
  split; cbn; try done; try constructor.
  - lia.
  - intros [Hi | Hi]; by apply elem_of_nil in Hi.
  - intros p [? Hp]. by rewrite lookup_empty in Hp.
  - intros p [? Hp]. by rewrite lookup_empty in Hp.
Qed.

Lemma conn_id_in w p o : conns w !! p = Some o -> conn_id o ∈ ids w.
Proof. intros Hp. apply elem_of_app. left. apply list_elem_of_fmap_2, (list_elem_of_lookup_2 _ _ _ Hp). Qed.

Lemma lstn_id_in w p o : lstns w !! p = Some o -> lstn_id o ∈ ids w.
Proof. intros Hp. apply elem_of_app. right. apply list_elem_of_fmap_2, (list_elem_of_lookup_2 _ _ _ Hp). Qed.

(** The next number is in no use. *)
Lemma fresh_id w : wf w -> (opened w ∉ ids w) /\ (opened w ∉ released w).
Proof. intros W. split; intros Hi; assert ((opened w < opened w)%nat) by (apply (wf_opened w W); auto); lia. Qed.

Lemma lt_S_iff i n : (i < S n)%nat <-> (i < n)%nat \/ i = n.
Proof. lia. Qed.

(** ** Every operation keeps the invariant *)

(** A socket that is opened and closed again. *)
Lemma good_fail w u : u_id u = opened w ->
  good w (under_Close (set_socks w (S (opened w)) (released w)) u).1.
Proof.
  intros Hu W. destruct (fresh_id w W) as [F1 F2].
  assert (E : (under_Close (set_socks w (S (opened w)) (released w)) u).1 = set_socks w (S (opened w)) (released w ++ [opened w])).
  { unfold under_Close. cbn. rewrite Hu. destruct (u_put u); [| done]. by rewrite decide_False. }
  rewrite E. destruct W as [W1 W2 W3 W4 WO W5 W6 W7 W8]. split; [split; cbn; try done | split; cbn; auto; try (rewrite ?length_app, ?length_insert; cbn; lia)].
  - by apply once_snoc.
  - intros i. change (i ∈ ids (set_socks _ _ _)) with (i ∈ ids w).
    rewrite (elem_of_app (released w)), list_elem_of_singleton. cbn. rewrite lt_S_iff, W3. tauto.
  - intros p o Hp Hc. apply elem_of_app. left. by apply (W4 p o).
  - intros p o Hp [Hi | Hi%list_elem_of_singleton]%elem_of_app; [by apply WO |].
    pose proof (conn_id_in _ _ _ Hp) as Hin. by rewrite Hi in Hin.
  - intros p o Hp. rewrite (W5 p o Hp), elem_of_app, list_elem_of_singleton.
    pose proof (lstn_id_in _ _ _ Hp) as Hi. split; [auto | intros [? | E']; [done |]]. by rewrite E' in Hi.
  - by apply prefix_app_r.
Qed.

(** A socket that is opened and given to a new connection. *)
Lemma good_new_conn w u config : u_id u = opened w ->
  good w (set_objs (set_socks w (S (opened w)) (released w)) (conns w ++ [mkConnObj false false u config]) (lstns w)).
Proof.
  intros Hu W. destruct (fresh_id w W) as [F1 F2]. destruct W as [W1 W2 W3 W4 WO W5 W6 W7 W8].
  assert (P : forall p o, conns w !! p = Some o -> (conns w ++ [mkConnObj false false u config]) !! p = Some o).
  { intros p o Hp. by apply lookup_app_l_Some. }
  assert (I : forall i, i ∈ ids (set_objs (set_socks w (S (opened w)) (released w)) (conns w ++ [mkConnObj false false u config]) (lstns w))
      <-> i ∈ ids w \/ i = opened w).
  { intros i. unfold ids. cbn. rewrite fmap_app, !elem_of_app. cbn. unfold conn_id at 2. cbn. rewrite Hu, list_elem_of_singleton. tauto. }
  split; [split; try done | split; cbn; auto; try (rewrite ?length_app, ?length_insert; cbn; lia)].
  - unfold ids in *. cbn. rewrite fmap_app, <- app_assoc. cbn. unfold conn_id at 2. cbn. rewrite Hu.
    rewrite <- Permutation_middle. by apply NoDup_cons.
  - eapply once_mono, W2. intros i (p & o & Hp & Hi). exists p, o. eauto.
  - intros i. rewrite I. cbn. rewrite lt_S_iff, W3. tauto.
  - cbn. intros p o [Hp | [_ Hp]]%lookup_app_Some; [by apply (W4 p) |].
    by apply list_lookup_singleton_Some in Hp as [_ <-].
  - cbn. intros p o [Hp | [_ Hp]]%lookup_app_Some; [by apply (WO p) |].
    apply list_lookup_singleton_Some in Hp as [_ <-]. unfold conn_id. cbn. rewrite Hu. intros Hi. by destruct F2.
  - cbn. intros p Hp. destruct (W7 p Hp) as [o Ho]. eauto.
  - intros p (o & Ho & Hc). left. exists o. eauto.
Qed.

(** A socket that is opened and given to a new listener. *)
Lemma good_new_lstn w u lc : u_id u = opened w -> u_put u = false ->
  good w (set_objs (set_socks w (S (opened w)) (released w)) (conns w) (lstns w ++ [mkListenerObj false false u lc])).
Proof.
  intros Hu Hput W. destruct (fresh_id w W) as [F1 F2]. destruct W as [W1 W2 W3 W4 WO W5 W6 W7 W8].
  assert (P : forall p o, lstns w !! p = Some o -> (lstns w ++ [mkListenerObj false false u lc]) !! p = Some o).
  { intros p o Hp. by apply lookup_app_l_Some. }
  assert (I : forall i, i ∈ ids (set_objs (set_socks w (S (opened w)) (released w)) (conns w) (lstns w ++ [mkListenerObj false false u lc]))
      <-> i ∈ ids w \/ i = opened w).
  { intros i. unfold ids. cbn. rewrite fmap_app, !elem_of_app. cbn. unfold lstn_id at 2. cbn. rewrite Hu, list_elem_of_singleton. tauto. }
  split; [split; try done | split; cbn; auto; try (rewrite ?length_app, ?length_insert; cbn; lia)].
  - unfold ids in *. cbn. rewrite fmap_app, app_assoc. cbn. unfold lstn_id at 2. cbn. rewrite Hu.
    rewrite <- Permutation_cons_append. by apply NoDup_cons.
  - intros i. rewrite I. cbn. rewrite lt_S_iff, W3. tauto.
  - cbn. intros p o [Hp | [_ Hp]]%lookup_app_Some; [by apply (W5 p) |].
    apply list_lookup_singleton_Some in Hp as [_ <-]. unfold lstn_id. cbn. rewrite Hu. split; [done | intros Hi; by destruct F2].
  - cbn. intros p o [Hp | [_ Hp]]%lookup_app_Some; [by apply (W6 p) |].
    by apply list_lookup_singleton_Some in Hp as [_ <-].
  - cbn. intros p Hp. destruct (W8 p Hp) as (o & Ho & Hm). eauto.
  - intros p (o & Ho & Hc). exists o. eauto.
Qed.

Lemma conn_id_inj w p q o o' : wf w ->
  conns w !! p = Some o -> conns w !! q = Some o' -> conn_id o = conn_id o' -> p = q.
Proof.
  intros W Hp Hq E. destruct (proj1 (NoDup_app _ _) (wf_ids w W)) as (N & _ & _).
  eapply (NoDup_lookup _ _ _ _ N); rewrite list_lookup_fmap; [by rewrite Hp | rewrite Hq; cbn; by rewrite E].
Qed.

Lemma lstn_id_inj w p q o o' : wf w ->
  lstns w !! p = Some o -> lstns w !! q = Some o' -> lstn_id o = lstn_id o' -> p = q.
Proof.
  intros W Hp Hq E. destruct (proj1 (NoDup_app _ _) (wf_ids w W)) as (_ & _ & N).
  eapply (NoDup_lookup _ _ _ _ N); rewrite list_lookup_fmap; [by rewrite Hp | rewrite Hq; cbn; by rewrite E].
Qed.

Lemma conn_lstn_id w p q o o' : wf w ->
  conns w !! p = Some o -> lstns w !! q = Some o' -> conn_id o <> lstn_id o'.
Proof.
  intros W Hp Hq E. destruct (proj1 (NoDup_app _ _) (wf_ids w W)) as (_ & D & _).
  apply (D (conn_id o)); [apply list_elem_of_fmap_2, (list_elem_of_lookup_2 _ _ _ Hp) |].
  rewrite E. apply list_elem_of_fmap_2, (list_elem_of_lookup_2 _ _ _ Hq).
Qed.

(** Replacing an object by one with the same socket. *)
Lemma ids_insert_conn w cs p o o' : conns w !! p = Some o -> cs = <[p := o']> (conns w) -> conn_id o' = conn_id o ->
  conn_id <$> cs = conn_id <$> conns w.
Proof. intros Hp -> E. rewrite list_fmap_insert, E. apply list_insert_id. by rewrite list_lookup_fmap, Hp. Qed.

Lemma ids_insert_lstn w ls p o o' : lstns w !! p = Some o -> ls = <[p := o']> (lstns w) -> lstn_id o' = lstn_id o ->
  lstn_id <$> ls = lstn_id <$> lstns w.
Proof. intros Hp -> E. rewrite list_fmap_insert, E. apply list_insert_id. by rewrite list_lookup_fmap, Hp. Qed.

Lemma lookup_insert_cases {A} (l : list A) p q x y z :
  l !! p = Some x -> <[p := y]> l !! q = Some z -> (q = p /\ z = y) \/ (q <> p /\ l !! q = Some z).
Proof.
  intros Hp Hq. destruct (decide (q = p)) as [-> | N].
  - rewrite list_lookup_insert_eq in Hq by (by eapply lookup_lt_Some). left. by simplify_eq.
  - rewrite list_lookup_insert_ne in Hq by done. by right.
Qed.

Lemma lookup_insert_same {A} (l : list A) p x y : l !! p = Some x -> <[p := y]> l !! p = Some y.
Proof. intros Hp. apply list_lookup_insert_eq. by eapply lookup_lt_Some. Qed.

(** The effect of [conn_Close] on an open connection. *)
Lemma conn_Close_open w p o : conns w !! p = Some o -> c_closed o = false ->
  exists cs rs, (conn_Close w p).1 =
    set_socks (set_maps (set_objs w (<[p := mkConnObj true (c_managed o) (c_under o) (c_config o)]> (conns w)) (lstns w)) cs (listeners w))
      (opened w) (released w ++ rs)
  /\ cs = (if c_managed o then delete p (connections w) else connections w)
  /\ (rs = [conn_id o] \/ rs = [] /\ conn_id o ∈ released w).
Proof.
  intros Hp Hc. exists (if c_managed o then delete p (connections w) else connections w),
    (if u_put (c_under o) && bool_decide (conn_id o ∈ released w) then [] else [conn_id o]). unfold conn_Close. rewrite Hp, Hc. unfold under_Close.
  fold (conn_id o). split_and!; [| done | destruct (u_put (c_under o)); cbn; [case_bool_decide; auto | auto]].
  destruct (c_managed o), (u_put (c_under o)); cbn; try done; case_decide; by rewrite ?bool_decide_eq_true_2, ?bool_decide_eq_false_2, ?app_nil_r by done.
Qed.

Lemma noise_listener_Close_open w p o : wf w -> lstns w !! p = Some o -> l_closed o = false ->
  exists ls, noise_listener_Close w p =
    (set_socks (set_maps (set_objs w (conns w) (<[p := mkListenerObj true (l_managed o) (l_under o) (l_config o)]> (lstns w))) (connections w) ls)
      (opened w) (released w ++ [lstn_id o]),
     if closeFails (lstn_id o) false then Some (ECloseFailed (lstn_id o)) else None)
  /\ ls = if l_managed o then delete p (listeners w) else listeners w.
Proof.
  intros W Hp Hc. eexists. split; [| done]. unfold noise_listener_Close. rewrite Hp, Hc. unfold under_Close.
  rewrite (wf_put w W p o Hp). fold (lstn_id o).
  assert (N : lstn_id o ∉ released w) by (rewrite <- (wf_lstn w W p o Hp), Hc; done).
  destruct (l_managed o); cbn; by rewrite bool_decide_eq_false_2.
Qed.

Lemma good_conn_Close w p : good w (conn_Close w p).1.
Proof.
  intros W. destruct (conns w !! p) as [o |] eqn:Hp; [| unfold conn_Close; rewrite Hp; by apply good_refl].
  destruct (c_closed o) eqn:Hc; [unfold conn_Close; rewrite Hp, Hc; by apply good_refl |].
  destruct (conn_Close_open w p o Hp Hc) as (cs & rs & E & Hcs & Hrs). rewrite E. clear E.
  set (o1 := mkConnObj true (c_managed o) (c_under o) (c_config o)).
  pose proof (lookup_insert_same _ _ _ o1 Hp) as Hnew.
  assert (Hreg : forall q, is_Some (cs !! q) -> is_Some (connections w !! q)).
  { intros q. rewrite Hcs. destruct (c_managed o); [| auto]. intros [x Hx]. apply lookup_delete_Some in Hx as [_ ?]. by eexists. }
  pose proof (conn_id_inj w) as Inj. pose proof (conn_lstn_id w p) as Dis. pose proof (conn_id_in w p o Hp) as Hin.
  pose proof W as [W1 W2 W3 W4 WO W5 W6 W7 W8].
  assert (Hmore : forall i, i ∈ released w ++ rs <-> i ∈ released w \/ i = conn_id o).
  { intros i. rewrite elem_of_app. destruct Hrs as [-> | [-> Hi]]; [by rewrite list_elem_of_singleton | rewrite elem_of_nil; naive_solver]. }
  set (w1 := set_socks _ _ _).
  assert (I : ids w1 = ids w) by (unfold ids; cbn; f_equal; by eapply ids_insert_conn).
  assert (HR : forall i, revived_socket w i -> revived_socket w1 i).
  { intros i (q & o' & Hq & Hi & Hn). destruct (decide (q = p)) as [-> | Hne]; [exists p, o1 | exists q, o'; cbn; by rewrite list_lookup_insert_ne].
    rewrite Hp in Hq. injection Hq as <-. done. }
  split; [split; rewrite ?I; cbn; try done | split; cbn; auto; try (rewrite ?length_app, ?length_insert; cbn; lia)].
  - destruct Hrs as [-> | [-> _]]; [| rewrite app_nil_r; by eapply once_mono].
    apply once_snoc; [by eapply once_mono |]. intros Hi. destruct (WO p o Hp Hi) as [Hc' | Hn]; [congruence |]. by exists p, o1.
  - intros i. rewrite Hmore, W3. naive_solver.
  - intros q o' Hq Hc'. apply Hmore.
    destruct (lookup_insert_cases _ _ _ _ _ _ Hp Hq) as [[-> ->] | [Hne Hq']]; [by right | left; by apply (W4 q o')].
  - intros q o' Hq Hi%Hmore.
    destruct (lookup_insert_cases _ _ _ _ _ _ Hp Hq) as [[-> ->] | [Hne Hq']]; [by left |].
    destruct Hi as [Hi | E']; [by apply WO | by destruct Hne, (Inj q p o' o W Hq' Hp E')].
  - intros q o' Hq. rewrite Hmore, (W5 q o' Hq).
    split; [auto | intros [? | E']; [done |]]. by destruct (Dis q o o' W Hp Hq).
  - intros q Hq%Hreg%W7. destruct (decide (q = p)) as [-> | Hqp]; [by exists o1 | by rewrite list_lookup_insert_ne].
  - intros q (o' & Ho' & Hc'). left. destruct (decide (q = p)) as [-> | Hqp]; [by exists o1 |].
    exists o'. cbn. by rewrite list_lookup_insert_ne.
  - intros q Hq. destruct (decide (q = p)) as [-> | Hqp]; [right; left; by exists o1 |].
    left. rewrite Hcs. destruct (c_managed o); [by rewrite lookup_delete_ne | done].
  - by apply prefix_app_r.
Qed.

(** A handshake on a closed connection. *)
Lemma good_conn_Handshake w p : good w (conn_Handshake w p).
Proof.
  intros W. unfold conn_Handshake. destruct (conns w !! p) as [o |] eqn:Hp; [| by apply good_refl].
  destruct (c_closed o) eqn:Hc; [| by apply good_refl]. set (o1 := mkConnObj false (c_managed o) (c_under o) (c_config o)).
  pose proof (lookup_insert_same _ _ _ o1 Hp) as Hnew. pose proof W as [W1 W2 W3 W4 WO W5 W6 W7 W8].
  set (w1 := add_note _ _).
  assert (I : ids w1 = ids w) by (unfold ids; cbn; f_equal; by eapply ids_insert_conn).
  assert (HN : forall n, n ∈ notes w -> n ∈ notes w1) by (intros n Hn; apply elem_of_app; by left).
  assert (Hlast : noted w w1 (Revived p)) by (unfold noted, since; cbn; rewrite drop_app_length; by apply list_elem_of_singleton).
  split; [split; rewrite ?I; try done | split; cbn; auto; try (rewrite ?length_insert; lia)].
  - eapply once_mono, W2. intros i (q & o' & Hq & Hi & Hn).
    destruct (decide (q = p)) as [-> | Hne]; [exists p, o1 | exists q, o'; cbn; rewrite list_lookup_insert_ne; auto].
    rewrite Hp in Hq. injection Hq as <-. auto.
  - intros q o' Hq Hc'. destruct (lookup_insert_cases _ _ _ _ _ _ Hp Hq) as [[-> ->] | [_ Hq']]; [done | by apply (W4 q o')].
  - intros q o' Hq Hi. destruct (lookup_insert_cases _ _ _ _ _ _ Hp Hq) as [[-> ->] | [_ Hq']].
    + right. apply elem_of_app. right. by apply list_elem_of_singleton.
    + destruct (WO q o' Hq' Hi); auto.
  - cbn. intros q Hq%W7. destruct (decide (q = p)) as [-> | Hqp]; [by exists o1 | by rewrite list_lookup_insert_ne].
  - cbn. intros q Hq. destruct (W8 q Hq) as (o' & Ho' & [? | ?]); exists o'; auto.
  - intros q (o' & Ho' & Hc'). destruct (decide (q = p)) as [-> | Hqp]; [by right |].
    left. exists o'. cbn. by rewrite list_lookup_insert_ne.
  - by apply prefix_app_r.
Qed.

Lemma good_listener_Close w p : good w (noise_listener_Close w p).1.
Proof.
  intros W. destruct (lstns w !! p) as [o |] eqn:Hp; [| unfold noise_listener_Close; rewrite Hp; by apply good_refl].
  destruct (l_closed o) eqn:Hc; [unfold noise_listener_Close; rewrite Hp, Hc; by apply good_refl |].
  destruct (noise_listener_Close_open w p o W Hp Hc) as (ls & E & Hls). rewrite E. clear E. cbn [fst].
  pose proof (lookup_insert_same _ _ _ (mkListenerObj true (l_managed o) (l_under o) (l_config o)) Hp) as Hnew.
  assert (N : lstn_id o ∉ released w) by (rewrite <- (wf_lstn w W p o Hp), Hc; done).
  assert (Hreg : forall q, is_Some (ls !! q) -> is_Some (listeners w !! q) /\ (q = p -> l_managed o = false)).
  { intros q. rewrite Hls. destruct (l_managed o); [| auto]. intros [x Hx]. apply lookup_delete_Some in Hx as [? ?]. split; [by eexists | congruence]. }
  pose proof (lstn_id_inj w) as Inj. pose proof (conn_lstn_id w) as Dis. pose proof (lstn_id_in w p o Hp) as Hin.
  pose proof W as [W1 W2 W3 W4 WO W5 W6 W7 W8].
  assert (I : ids (set_socks (set_maps (set_objs w (conns w) (<[p := mkListenerObj true (l_managed o) (l_under o) (l_config o)]> (lstns w))) (connections w) ls)
      (opened w) (released w ++ [lstn_id o])) = ids w).
  { unfold ids. cbn. f_equal. by eapply ids_insert_lstn. }
  split; [split; rewrite ?I; cbn; try done | split; cbn; auto; try (rewrite ?length_app, ?length_insert; cbn; lia)].
  - by apply once_snoc.
  - intros i. rewrite (elem_of_app (released w)), list_elem_of_singleton, W3. naive_solver.
  - intros q o' Hq Hc'. apply elem_of_app. left. by apply (W4 q o').
  - intros q o' Hq [Hi | E'%list_elem_of_singleton]%elem_of_app; [by apply WO | by destruct (Dis q p o' o W Hq Hp)].
  - intros q o' Hq. rewrite elem_of_app, list_elem_of_singleton.
    destruct (lookup_insert_cases _ _ _ _ _ _ Hp Hq) as [[-> ->] | [Hne Hq']]; [cbn; tauto |].
    rewrite (W5 q o' Hq'). split; [auto | intros [? | E']; [done |]]. by destruct Hne, (Inj q p o' o W Hq' Hp E').
  - intros q o' Hq. destruct (lookup_insert_cases _ _ _ _ _ _ Hp Hq) as [[-> ->] | [_ Hq']]; [apply (W6 p o Hp) | by apply (W6 q)].
  - intros q Hq. destruct (Hreg q Hq) as [Hq' Hne]. destruct (W8 q Hq') as (o' & Ho' & Hm).
    destruct (decide (q = p)) as [-> | Hqp]; [| exists o'; by rewrite list_lookup_insert_ne].
    rewrite Hp in Ho'. injection Ho' as <-. eexists. split; [exact Hnew |]. right. destruct Hm as [[Hm _] | ?]; [by rewrite Hne in Hm | done].
  - intros q (o' & Ho' & Hc'). destruct (decide (q = p)) as [-> | Hqp]; [eexists; by split; [apply Hnew |] |].
    exists o'. cbn. by rewrite list_lookup_insert_ne.
  - by apply prefix_app_r.
Qed.

Lemma good_conn_SetShutdownManager w p : is_Some (conns w !! p) -> good w (conn_SetShutdownManager w p).
Proof.
  intros [o Hp] W. unfold conn_SetShutdownManager.
  assert (Ea : alter (fun o => mkConnObj (c_closed o) true (c_under o) (c_config o)) p (conns w)
      = <[p := mkConnObj (c_closed o) true (c_under o) (c_config o)]> (conns w)).
  { apply list_eq. intros q. destruct (decide (q = p)) as [-> | N].
    - by rewrite list_lookup_alter_eq, Hp, (lookup_insert_same _ _ _ _ Hp).
    - by rewrite list_lookup_alter_ne, list_lookup_insert_ne. }
  rewrite Ea. set (o' := mkConnObj (c_closed o) true (c_under o) (c_config o)).
  pose proof (lookup_insert_same _ _ _ o' Hp) as Hnew. pose proof W as [W1 W2 W3 W4 WO W5 W6 W7 W8].
  assert (I : ids (RegisterConnection (set_objs w (<[p := o']> (conns w)) (lstns w)) p) = ids w).
  { unfold ids. cbn. f_equal. by eapply ids_insert_conn. }
  split; [split; rewrite ?I; try done | split; cbn; auto; try (rewrite ?length_app, ?length_insert; cbn; lia)].
  - eapply once_mono, W2. intros i (q & x & Hq & Hi & Hn).
    destruct (decide (q = p)) as [-> | N]; [exists p, o'; by simplify_eq | exists q, x; cbn; by rewrite list_lookup_insert_ne].
  - intros q x Hq. destruct (lookup_insert_cases _ _ _ _ _ _ Hp Hq) as [[-> ->] | [_ Hq']]; [exact (W4 p o Hp) | exact (W4 q x Hq')].
  - intros q x Hq. destruct (lookup_insert_cases _ _ _ _ _ _ Hp Hq) as [[-> ->] | [_ Hq']]; [exact (WO p o Hp) | exact (WO q x Hq')].
  - cbn. intros q [x Hq]. destruct (decide (q = p)) as [-> | N]; [by exists o' |].
    rewrite lookup_insert_ne in Hq by done. rewrite list_lookup_insert_ne by done. apply W7. by eexists.
  - intros q (x & Hx & Hc). left. destruct (decide (q = p)) as [-> | N].
    + exists o'. split; [done |]. cbn. congruence.
    + exists x. cbn. by rewrite list_lookup_insert_ne.
  - intros q Hq. left. destruct (decide (q = p)) as [-> | N]; [by rewrite lookup_insert_eq | by rewrite lookup_insert_ne].
Qed.

Lemma good_listener_SetShutdownManager w p : good w (listener_SetShutdownManager w p).
Proof.
  intros W. unfold listener_SetShutdownManager. destruct (lstns w !! p) as [o |] eqn:Hp; [| by apply good_refl].
  destruct (l_closed o) eqn:Hc; [by apply good_refl |]. set (o' := mkListenerObj false true (l_under o) (l_config o)).
  pose proof (lookup_insert_same _ _ _ o' Hp) as Hnew. pose proof W as [W1 W2 W3 W4 WO W5 W6 W7 W8].
  assert (I : ids (RegisterListener (set_objs w (conns w) (<[p := o']> (lstns w))) p) = ids w).
  { unfold ids. cbn. f_equal. by eapply ids_insert_lstn. }
  split; [split; rewrite ?I; try done | split; cbn; auto; try (rewrite ?length_app, ?length_insert; cbn; lia)].
  - intros q x Hq. destruct (lookup_insert_cases _ _ _ _ _ _ Hp Hq) as [[-> ->] | [_ Hq']]; [| by apply (W5 q)].
    change (false = true <-> lstn_id o ∈ released w). by rewrite <- (W5 p o Hp), Hc.
  - intros q x Hq. destruct (lookup_insert_cases _ _ _ _ _ _ Hp Hq) as [[-> ->] | [_ Hq']]; [exact (W6 p o Hp) | exact (W6 q x Hq')].
  - cbn. intros q [x Hq]. destruct (decide (q = p)) as [-> | N]; [exists o'; auto |].
    rewrite lookup_insert_ne in Hq by done. rewrite list_lookup_insert_ne by done. apply W8. by eexists.
  - intros q (x & Hx & Hcx). destruct (decide (q = p)) as [-> | N]; [congruence |].
    exists x. cbn. by rewrite list_lookup_insert_ne.
Qed.

(** The manager's own methods, called by others. *)
Lemma good_Register w p : is_Some (conns w !! p) -> good w (RegisterConnection w p).
Proof.
  intros Hp [W1 W2 W3 W4 WO W5 W6 W7 W8]. split; split; cbn; auto; intros q Hq; [| left];
    (destruct (decide (q = p)) as [-> | N]; [by rewrite ?lookup_insert_eq | rewrite lookup_insert_ne in *; auto]).
Qed.

Lemma good_Unregister w p : good w (add_note (UnregisterConnection w p) (Unregistered p)).
Proof.
  intros [W1 W2 W3 W4 WO W5 W6 W7 W8]. assert (HN : forall n, n ∈ notes w -> n ∈ notes w ++ [Unregistered p]) by (intros n Hn; apply elem_of_app; auto).
  split; split; cbn; auto.
  - eapply once_mono, W2. intros i (q & o & Hq & Hi & Hn). exists q, o. cbn. auto.
  - intros q o Hq Hi. destruct (WO q o Hq Hi); auto.
  - intros q [x [_ Hx]%lookup_delete_Some]. apply W7. by eexists.
  - intros q Hq. destruct (W8 q Hq) as (o & Ho & [? | ?]); exists o; auto.
  - intros q Hq. destruct (decide (q = p)) as [-> | N]; [right; right; right | left; by rewrite lookup_delete_ne].
    unfold noted, since. cbn. rewrite drop_app_length. by apply list_elem_of_singleton.
  - by apply prefix_app_r.
Qed.

Lemma good_RegisterListener w p : is_Some (lstns w !! p) -> good w (add_note (RegisterListener w p) (Listed p)).
Proof.
  intros [o0 Hp] [W1 W2 W3 W4 WO W5 W6 W7 W8]. assert (HN : forall n, n ∈ notes w -> n ∈ notes w ++ [Listed p]) by (intros n Hn; apply elem_of_app; auto).
  split; split; cbn; auto.
  - eapply once_mono, W2. intros i (q & o & Hq & Hi & Hn). exists q, o. cbn. auto.
  - intros q o Hq Hi. destruct (WO q o Hq Hi); auto.
  - intros q Hq. destruct (decide (q = p)) as [-> | N].
    + exists o0. split; [done |]. right. apply elem_of_app. right. by apply list_elem_of_singleton.
    + rewrite lookup_insert_ne in Hq by done. destruct (W8 q Hq) as (o & Ho & [? | ?]); exists o; auto.
  - by apply prefix_app_r.
Qed.

Lemma good_UnregisterListener w p : good w (UnregisterListener w p).
Proof.
  intros [W1 W2 W3 W4 WO W5 W6 W7 W8]. split; split; cbn; auto.
  intros q [x [_ Hx]%lookup_delete_Some]. apply W8. by eexists.
Qed.

(** Wrapping a socket just opened, with the clean-up on failure. *)
Definition wrap_conn (w : World) (put : bool) (config : ConnConfig) : World * result ShutError nat :=
  let '(w, u) := open_under w put in
  match new_conn w u config with
  | (w, Err e) => ((under_Close w u).1, Err e)
  | r => r
  end.

Lemma good_wrap_conn w put config w' r : wrap_conn w put config = (w', r) ->
  good w w' /\ forall p, r = Ok p -> is_Some (conns w' !! p).
Proof.
  unfold wrap_conn, new_conn. cbn. destruct (NewNoiseConn _ _ _ _); intros [= <- <-].
  - split; [by apply good_new_conn |]. intros p [= <-]. cbn. by rewrite list_lookup_middle.
  - split; [by apply good_fail | done].
Qed.

Lemma good_managed (sm : bool) w w' p : good w w' -> is_Some (conns w' !! p) ->
  good w (if sm then conn_SetShutdownManager w' p else w').
Proof. intros G Hp. destruct sm; [| done]. eapply good_trans, good_conn_SetShutdownManager; done. Qed.

Lemma good_handshake t w put config shaken :
  good w (let '(w, u) := open_under w put in createAndHandshakeConnTransport t w u config shaken).1.
Proof.
  destruct (wrap_conn w put config) as [w' r] eqn:E. destruct (good_wrap_conn _ _ _ _ _ E) as [G Hp]. revert E.
  unfold wrap_conn, createAndHandshakeConnTransport. cbn -[new_conn under_Close conn_Close].
  destruct (new_conn _ _ _) as [w1 [p | e]]; intros [= <- <-]; [| done].
  pose proof (good_managed (t_sm t) _ _ p G (Hp p eq_refl)) as G'. destruct shaken; [done |].
  eapply good_trans; [apply G' | apply good_conn_Close].
Qed.

Lemma good_dial_handshake t w network addr config opens shaken :
  good w (DialWithHandshakeContext t w network addr config opens shaken).1.
Proof.
  unfold DialWithHandshakeContext. destruct (transport_validateDialParams _ _ _) as [c | e]; [| apply good_refl].
  destruct opens; [| apply good_refl]. apply (good_handshake t w false c shaken).
Qed.

(** Wrapping a connection and giving it to the manager. *)
Lemma good_wrap_managed (sm : bool) w put config :
  good w (let '(w, u) := open_under w put in
    match new_conn w u config with
    | (w, Err e) => ((under_Close w u).1, Err e)
    | (w, Ok p) => (if sm then conn_SetShutdownManager w p else w, Ok p)
    end).1.
Proof.
  destruct (wrap_conn w put config) as [w' r] eqn:E. destruct (good_wrap_conn _ _ _ _ _ E) as [G Hp]. revert E.
  unfold wrap_conn. cbn -[new_conn under_Close].
  destruct (new_conn _ _ _) as [w1 [p | e]]; intros [= <- <-]; [| done].
  by apply good_managed, Hp.
Qed.

Lemma good_other w o : good w (other_step w o).
Proof.
  destruct o as [p | p | p | p | t n a c op | t n a c op | t n a c po op | t n a c po ps op sh | p acc | p | p | p | p | p]; cbn [other_step].
  - apply good_conn_Close.
  - apply good_listener_Close.
  - case_decide as Hp; [by apply good_conn_SetShutdownManager | apply good_refl].
  - apply good_listener_SetShutdownManager.
  - unfold Transport_Dial, openAndWrapTransport. destruct (transport_validateDialParams n a c) as [c' |]; [| apply good_refl].
    destruct op; [| apply good_refl]. apply (good_wrap_managed (t_sm t) w false c').
  - unfold Transport_Listen, openAndWrapTransport. destruct (transport_validateListenParams n a c) as [c' |]; [| apply good_refl].
    destruct op; [| apply good_refl]. cbn -[under_Close listener_SetShutdownManager]. unfold NewNoiseListener.
    destruct (listener_Validate c'); [by apply good_fail |].
    destruct (t_sm t); [eapply good_trans, good_listener_SetShutdownManager |];
      exact (good_new_lstn w (mkUnder (opened w) false) c' eq_refl eq_refl).
  - unfold DialWithPool. destruct (transport_validateDialParams n a c) as [c' |]; [| apply good_refl].
    destruct (_ && negb op); [apply good_refl |]. apply good_wrap_managed.
  - unfold DialWithPoolAndHandshakeContext. destruct (transport_validateDialParams n a c) as [c' |]; [| apply good_refl].
    destruct (t_pool t && po); [| apply good_dial_handshake].
    pose proof (good_handshake t w false c' ps) as G. cbn -[createAndHandshakeConnTransport] in *.
    destruct (createAndHandshakeConnTransport _ _ _ _ _) as [w1 [q | e]]; [done |].
    eapply good_trans, good_dial_handshake. done.
  - unfold noise_Accept. destruct (lstns w !! p) as [o |]; [| apply good_refl].
    destruct (l_closed o); [apply good_refl |]. destruct acc; [| apply good_refl].
    destruct (wrap_conn w false (acConn (createAcceptConnConfig (l_config o)))) as [w' r] eqn:E.
    pose proof (good_wrap_conn _ _ _ _ _ E) as [G _]. unfold wrap_conn in E. cbn -[new_conn under_Close] in *. by rewrite E.
  - apply good_conn_Handshake.
  - case_decide; [by apply good_Register | apply good_refl].
  - apply good_Unregister.
  - case_decide; [by apply good_RegisterListener | apply good_refl].
  - apply good_UnregisterListener.
Qed.

Lemma good_others w os : good w (others_run w os).
Proof.
  revert w. induction os as [| o os IH]; intros w; [apply good_refl |].
  eapply good_trans; [apply good_other | apply IH].
Qed.

(** ** Errors *)

(** An error is that of a socket closed between [w] and [w']. *)
Definition blames (w w' : World) (e : option ShutError) : Prop :=
  forall err, e = Some err -> exists id again, err = ECloseFailed id /\ closeFails id again = true /\ id ∈ since (released w) (released w').

Lemma blames_mono w0 w1 w2 w3 e : released w0 `prefix_of` released w1 -> released w1 `prefix_of` released w2 -> released w2 `prefix_of` released w3 ->
  blames w1 w2 e -> blames w0 w3 e.
Proof.
  intros P1 P2 P3 B err He. destruct (B err He) as (id & again & -> & Hf & Hin). exists id, again. split_and!; [done | done |].
  by eapply since_mono.
Qed.

Lemma conn_Close_blames w p : wf w -> blames w (conn_Close w p).1 (conn_Close w p).2.
Proof.
  intros _ err. unfold conn_Close. destruct (conns w !! p) as [o |]; [| done]. destruct (c_closed o); [done |].
  unfold under_Close. destruct (u_put (c_under o)); [done |]. cbn.
  destruct (closeFails _ _) eqn:Hf; [| done]. intros [= <-]. eexists _, _. split_and!; [done | exact Hf |].
  unfold since. destruct (c_managed o); cbn; rewrite drop_app_length; by apply list_elem_of_singleton.
Qed.

Lemma listener_Close_blames w p : wf w -> blames w (noise_listener_Close w p).1 (noise_listener_Close w p).2.
Proof.
  intros _ err. unfold noise_listener_Close. destruct (lstns w !! p) as [o |]; [| done]. destruct (l_closed o); [done |].
  unfold under_Close. destruct (u_put (l_under o)); [done |]. cbn.
  destruct (closeFails _ _) eqn:Hf; [| done]. intros [= <-]. eexists _, _. split_and!; [done | exact Hf |].
  unfold since. destruct (l_managed o); cbn; rewrite drop_app_length; by apply list_elem_of_singleton.
Qed.

(** ** The loops that close *)

Section CloseAll.
Context (close : World -> nat -> World * option ShutError) (closed : World -> nat -> Prop) (exists_in : World -> nat -> Prop).
Context (close_good : forall w p, good w (close w p).1).
Context (close_blames : forall w p, wf w -> blames w (close w p).1 (close w p).2).
Context (close_closes : forall w p, wf w -> exists_in w p -> closed (close w p).1 p).
Context (undone : World -> World -> nat -> Prop).
Context (closed_ext : forall w w' p, ext w w' -> closed w p -> closed w' p \/ undone w w' p).
Context (undone_ext : forall w0 w w' p, ext w0 w -> ext w w' -> undone w w' p -> undone w0 w' p).
Context (exists_ext : forall w w' p, ext w w' -> exists_in w p -> exists_in w' p).

Lemma close_all_spec w ps gaps e0 w' e : wf w -> close_all close w ps gaps e0 = (w', e) ->
  wf w' /\ ext w w' /\ (forall p, p ∈ ps -> exists_in w p -> closed w' p \/ undone w w' p)
  /\ (match e0 with Some _ => e = e0 | None => blames w w' e end).
Proof.
  revert w gaps e0. induction ps as [| p ps IH]; intros w gaps e0 W; cbn.
  { intros [= <- <-]. split_and!; [done | apply ext_refl | by intros p ?%elem_of_nil | by destruct e0]. }
  destruct (good_others w (hd [] gaps) W) as [W1 E1]. set (w1 := others_run w (hd [] gaps)) in *.
  pose proof (close_good w1 p W1) as [W2 E2]. pose proof (close_blames w1 p W1) as B.
  pose proof (close_closes w1 p W1) as C. destruct (close w1 p) as [w2 err]. cbn in *.
  intros HR. destruct (IH _ _ _ W2 HR) as (W' & E' & HC & HE).
  assert (E0 : ext w w2) by (by eapply ext_trans). split_and!; [done | by eapply ext_trans | |].
  - intros q [-> | Hq]%elem_of_cons Hex.
    + destruct (closed_ext w2 w' p E'); eauto.
    + destruct (HC q Hq); eauto.
  - destruct e0 as [x |]; [done |]. destruct err as [x |].
    + subst e. by eapply blames_mono; [apply (ext_released _ _ E1) | apply (ext_released _ _ E2) | apply (ext_released _ _ E') |].
    + by eapply blames_mono; [apply (ext_released _ _ E0) | apply (ext_released _ _ E') | |].
Qed.
End CloseAll.

Lemma conn_Close_closes w p : wf w -> (p < length (conns w))%nat -> conn_closed (conn_Close w p).1 p.
Proof.
  intros W [o Hp]%lookup_lt_is_Some. destruct (c_closed o) eqn:Hc.
  - unfold conn_Close. rewrite Hp, Hc. by exists o.
  - destruct (conn_Close_open w p o Hp Hc) as (cs & rs & -> & _). eexists. split; [by eapply lookup_insert_same | done].
Qed.

Lemma listener_Close_closes w p : wf w -> (p < length (lstns w))%nat -> listener_closed (noise_listener_Close w p).1 p.
Proof.
  intros W [o Hp]%lookup_lt_is_Some. destruct (l_closed o) eqn:Hc.
  - unfold noise_listener_Close. rewrite Hp, Hc. by exists o.
  - destruct (noise_listener_Close_open w p o W Hp Hc) as (ls & -> & _). eexists. split; [by eapply lookup_insert_same | done].
Qed.

(** The pointers that a loop over one of the manager's maps visits. *)
Lemma go_range_fst (m : gmap nat unit) p : p ∈ (go_range m).*1 <-> is_Some (m !! p).
Proof.
  rewrite go_range_perm, list_elem_of_fmap. split.
  - intros ([q []] & -> & Hq%elem_of_map_to_list). by eexists.
  - intros [[] Hp]. exists (p, ()). by rewrite elem_of_map_to_list.
Qed.

Lemma close_lstns_spec w ps gaps e0 w' e : wf w -> close_all noise_listener_Close w ps gaps e0 = (w', e) ->
  wf w' /\ ext w w' /\ (forall p, p ∈ ps -> (p < length (lstns w))%nat -> listener_closed w' p)
  /\ (match e0 with Some _ => e = e0 | None => blames w w' e end).
Proof.
  intros W HR. destruct (close_all_spec noise_listener_Close listener_closed (fun w p => p < length (lstns w))%nat
    good_listener_Close listener_Close_blames listener_Close_closes (fun _ _ _ => False)
    (fun w w' p E Hp => or_introl (ext_lstn w w' E p Hp)) (fun _ _ _ _ _ _ Hf => Hf)
    (fun w w' p E Hp => Nat.lt_le_trans _ _ _ Hp (ext_lstns w w' E)) _ _ _ _ _ _ W HR) as (W' & E & HC & B).
  split_and!; [done | done | | done]. intros p Hin Hp. by destruct (HC p Hin Hp).
Qed.

Lemma NoDup_go_range (m : gmap nat unit) : NoDup (go_range m).*1.
Proof. rewrite (go_range_perm m). apply NoDup_fst_map_to_list. Qed.

Lemma closeListeners_spec w gaps w' e : wf w -> closeListeners w gaps = (w', e) ->
  wf w' /\ ext w w' /\ (forall p, is_Some (listeners w !! p) -> listener_closed w' p) /\ blames w w' e.
Proof.
  intros W HR. destruct (close_lstns_spec _ _ _ _ _ _ W HR)
    as (W' & E & HC & B).
  split_and!; [done | done | | done]. intros p Hp. apply HC; [by apply go_range_fst |].
  destruct (wf_listeners w W p Hp) as (o & Ho & _). by eapply lookup_lt_Some.
Qed.

Lemma forceClose_spec w gaps w' e : wf w -> forceCloseConnections w gaps = (w', e) ->
  wf w' /\ ext w w' /\ (forall p, is_Some (connections w !! p) -> conn_closed w' p \/ noted w w' (Revived p)) /\ blames w w' e.
Proof.
  intros W HR. destruct (close_all_spec conn_Close conn_closed (fun w p => p < length (conns w))%nat
    good_conn_Close conn_Close_blames conn_Close_closes (fun w w' p => noted w w' (Revived p))
    (fun w w' p E => ext_conn w w' E p) (fun w0 w w' p E0 E => noted_before w0 w w' (Revived p) E0 E) (fun w w' p E Hp => Nat.lt_le_trans _ _ _ Hp (ext_conns w w' E)) _ _ _ _ _ _ W HR)
    as (W' & E & HC & B).
  split_and!; [done | done | | done]. intros p Hp. apply HC; [by apply go_range_fst |].
  by apply lookup_lt_is_Some, (wf_connections w W p).
Qed.

(** When the wait ends without the timer no connection is registered. *)
Lemma wait_spec w ticks last w' timer : wf w -> waitForConnectionsDrain w ticks last = (w', timer) ->
  wf w' /\ ext w w' /\ (timer = false -> connections w' = ∅).
Proof.
  revert w. induction ticks as [| os ticks IH]; intros w W; cbn.
  - intros [= <- <-]. destruct (good_others w last W). by split_and!.
  - destruct (good_others w os W) as [W1 E1]. case_decide as Hs.
    + intros [= <- <-]. split_and!; [done | done |]. intros _. by apply map_size_empty_iff.
    + intros HR. destruct (IH _ W1 HR) as (? & ? & ?). split_and!; [done | by eapply ext_trans | done].
Qed.

(** A connection that is registered in [w] is closed in [w'], unless it was revived or
    unregistered in between. *)
Definition closed_or_undone (w w' : World) (p : nat) : Prop :=
  conn_closed w' p \/ noted w w' (Revived p) \/ noted w w' (Unregistered p).

Lemma closed_later w w1 w' p : ext w w1 -> ext w1 w' ->
  closed_or_undone w w1 p \/ is_Some (connections w1 !! p) /\ closed_or_undone w1 w' p -> closed_or_undone w w' p.
Proof.
  intros E1 E2. pose proof (noted_before w w1 w') as Nb. pose proof (noted_after w w1 w') as Na. unfold closed_or_undone.
  intros [[Hc | [Hn | Hn]] | [_ [Hc | [Hn | Hn]]]]; auto. destruct (ext_conn _ _ E2 p Hc); auto.
Qed.

Lemma still_registered w w' p : ext w w' -> is_Some (connections w !! p) -> closed_or_undone w w' p \/ is_Some (connections w' !! p).
Proof. intros E Hp. unfold closed_or_undone. destruct (ext_registered _ _ E p Hp) as [? | [? | [? | ?]]]; auto. Qed.

Lemma draining_spec w s w' e : wf w -> handleConnectionDraining w s = (w', e) ->
  wf w' /\ ext w w' /\ (forall p, is_Some (connections w !! p) -> closed_or_undone w w' p) /\ blames w w' e.
Proof.
  intros W. unfold handleConnectionDraining. destruct (waitForConnectionsDrain _ _ _) as [w1 timer] eqn:HW.
  destruct (wait_spec _ _ _ _ _ W HW) as (W1 & E1 & Hempty). destruct timer.
  - intros HR. destruct (forceClose_spec _ _ _ _ W1 HR) as (W' & E' & HC & B).
    split_and!; [done | by eapply ext_trans | | by eapply blames_mono; [apply (ext_released _ _ E1) | apply (ext_released _ _ E') | |]].
    intros p Hp. apply (closed_later w w1 w' p E1 E'). destruct (still_registered _ _ p E1 Hp) as [? | Hr]; [by left |].
    right. split; [done |]. unfold closed_or_undone. destruct (HC p Hr); auto.
  - intros [= <- <-]. split_and!; [done | done | | done]. intros p Hp.
    destruct (still_registered _ _ p E1 Hp) as [? | [x Hx]]; [done |]. by rewrite (Hempty eq_refl), lookup_empty in Hx.
Qed.

(** ** Shutdown *)

Lemma listener_Close_other w p q : q <> p -> lstns (noise_listener_Close w q).1 !! p = lstns w !! p.
Proof.
  intros N. unfold noise_listener_Close. destruct (lstns w !! q) as [o |]; [| done]. destruct (l_closed o); [done |].
  unfold under_Close. destruct (l_managed o), (u_put (l_under o)); cbn; repeat case_decide; cbn; by rewrite list_lookup_insert_ne.
Qed.

(** Without interference the loop over the listeners reports a failure. *)
Lemma listeners_report ps w w' p o : wf w -> NoDup ps -> close_all noise_listener_Close w ps [] None = (w', None) ->
  p ∈ ps -> lstns w !! p = Some o -> l_closed o = false -> closeFails (lstn_id o) false = false.
Proof.
  revert w. induction ps as [| q ps IH]; intros w W N HR Hin Hp Hc; [by apply elem_of_nil in Hin |].
  apply NoDup_cons in N as [Nq N]. cbn in HR. pose proof (good_listener_Close w q W) as [W1 _].
  pose proof (listener_Close_other w p q) as Hother. destruct (decide (q = p)) as [-> | Hne].
  - destruct (noise_listener_Close_open w p o W Hp Hc) as (ls & E & _). rewrite E in HR, W1.
    destruct (closeFails (lstn_id o) false); [| done].
    by destruct (close_lstns_spec _ _ _ _ _ _ W1 HR)
      as (_ & _ & _ & HE).
  - apply elem_of_cons in Hin as [-> | Hin]; [done |]. specialize (Hother Hne).
    destruct (noise_listener_Close w q) as [w1 [err |]]; cbn in *.
    + by destruct (close_lstns_spec _ _ _ _ _ _ W1 HR)
        as (_ & _ & _ & HE).
    + apply (IH w1); try done. by rewrite Hother.
Qed.

(** An open socket has an open owner. *)
Definition owned_open (w : World) (i : nat) : Prop :=
  (exists p o, conns w !! p = Some o /\ c_closed o = false /\ conn_id o = i)
  \/ (exists p o, lstns w !! p = Some o /\ l_closed o = false /\ lstn_id o = i).

Lemma no_leak w i : wf w -> (i < opened w)%nat -> i ∈ released w \/ owned_open w i.
Proof.
  intros W Hi. apply (wf_opened w W) in Hi as [Hi | Hi]; [| by left].
  apply elem_of_app in Hi as [(o & -> & [p Hp]%list_elem_of_lookup)%list_elem_of_fmap | (o & -> & [p Hp]%list_elem_of_lookup)%list_elem_of_fmap].
  - destruct (c_closed o) eqn:Hc; [left; by apply (wf_conn w W p o) | right; left; eauto].
  - destruct (l_closed o) eqn:Hc; [left; by apply (wf_lstn w W p o Hp) | right; right; eauto].
Qed.

Lemma wf_set_done w c e : wf w -> wf (set_done w c e).
Proof. by intros []. Qed.

Lemma closed_unregistered w p : wf w -> listener_closed w p -> Listed p ∉ notes w -> ListenerRegistered w p = false.
Proof.
  intros W (o & Ho & Hc) Hn. apply bool_decide_eq_false. intros Hp.
  destruct (wf_listeners w W p Hp) as (o' & Ho' & [[_ Hc'] | ?]); [congruence | done].
Qed.

(** The sequence, from any state of the invariant. *)
Lemma sequence_spec w s w' e : wf w -> executeShutdownSequence w s = (w', e) ->
  wf w' /\ (forall p, is_Some (listeners w !! p) -> listener_closed (closeListeners w (s_listeners s)).1 p /\ listener_closed w' p)
  /\ (forall p, is_Some (connections w !! p) -> closed_or_undone w w' p) /\ blames w w' e
  /\ (e = None -> (closeListeners w (s_listeners s)).2 = None).
Proof.
  intros W. unfold executeShutdownSequence. destruct (closeListeners w (s_listeners s)) as [w1 e1] eqn:H1.
  destruct (closeListeners_spec _ _ _ _ W H1) as (W1 & E1 & HL & B1).
  destruct (handleConnectionDraining w1 s) as [w2 e2] eqn:H2.
  destruct (draining_spec _ _ _ _ W1 H2) as (W2 & E2 & HC & B2). intros [= <- <-]. split_and!; [done | | | | ].
  - intros p Hp. split; [by apply HL | by apply (ext_lstn _ _ E2), HL].
  - intros p Hp. apply (closed_later w w1 w2 p E1 E2). destruct (still_registered _ _ p E1 Hp); auto.
  - pose proof (ext_released _ _ E1). pose proof (ext_released _ _ E2). destruct e1; [by apply (blames_mono w w w1 w2) | by apply (blames_mono w w1 w2 w2)].
  - by destruct e1.
Qed.

Lemma history_err timeout history : shutdownErr (others_run (NewShutdownManager timeout) history) = None.
Proof. by destruct (good_others _ history (wf_new timeout)) as [_ ->%ext_err]. Qed.

(** C15: a shutdown, whatever has happened before and whatever other goroutines do
    meanwhile with connections, listeners, transports and the manager. The first shutdown
    closes every registered listener before it waits for connections; listeners stay
    closed, and are no longer registered unless [RegisterListener] was called directly.
    Every connection that was registered is closed at the end, unless meanwhile another
    goroutine unregistered it or a handshake took it out of the state Closed. A socket is
    released at most once, unless a handshake took its connection out of the state Closed,
    and one that is not released belongs to an open connection or listener. The error, if
    any, is that of a socket closed meanwhile; undisturbed, an open listener that fails to
    close is reported; and every later call changes nothing and returns the same error. *)
Theorem shutdown_closes timeout history s s' :
  let w := others_run (NewShutdownManager timeout) history in
  let '(w', e) := Shutdown w s in
  (forall p, ListenerRegistered w p = true ->
     listener_closed (closeListeners (set_done w true None) (s_listeners s)).1 p
     /\ listener_closed w' p /\ (Listed p ∉ notes w' -> ListenerRegistered w' p = false))
  /\ (forall p, ConnectionRegistered w p = true ->
       conn_closed w' p \/ noted w w' (Revived p) \/ noted w w' (Unregistered p))
  /\ (forall i j k, released w' !! j = Some i -> released w' !! k = Some i -> j = k \/ revived_socket w' i)
  /\ (forall i, (i < opened w')%nat -> i ∈ released w' \/ owned_open w' i)
  /\ blames w w' e
  /\ (s_listeners s = [] -> forall p o, ListenerRegistered w p = true -> lstns w !! p = Some o -> l_closed o = false ->
       closeFails (lstn_id o) false = true -> e <> None)
  /\ Shutdown w' s' = (w', e).
Proof.
  intros w. assert (W : wf w) by apply (good_others _ history (wf_new timeout)). unfold Shutdown.
  rewrite (history_err timeout history : shutdownErr w = None).
  destruct (executeShutdownSequence (set_done w true None) s) as [w1 e] eqn:HR.
  destruct (sequence_spec _ _ _ _ (wf_set_done _ _ _ W) HR) as (W1 & HL & HC & B & HE).
  assert (W' : wf (set_done w1 true (Some e))) by (by apply wf_set_done). split_and!; [| | apply W' | | done | | done].
  - intros p Hp%bool_decide_eq_true. destruct (HL p Hp). split_and!; [done | done | by apply closed_unregistered].
  - intros p Hp%bool_decide_eq_true. by apply HC.
  - intros i. by apply no_leak.
  - intros Hs p o Hp%bool_decide_eq_true Ho Hc Hf He. specialize (HE He). rewrite Hs in HE. unfold closeListeners in HE.
    destruct (close_all _ _ _ _ _) as [w2 e2] eqn:H2. cbn in HE. subst e2.
    rewrite (listeners_report _ _ _ p o (wf_set_done _ _ _ W) (NoDup_go_range _) H2) in Hf; try done. by apply go_range_fst.
Qed.

(** The settings that an accepted connection gets from accepted settings of a listener pass
    the validation of connections. *)
Lemma accept_config_valid (lc : ListenerConfig M H) : listener_Validate lc = None -> Validate (acConn (createAcceptConnConfig lc)) = None.
Proof.
  unfold listener_Validate. destruct (decide _) as [| Hne]; [done |]. destruct (parseHandshakePattern (lcPattern lc)) eqn:HP; [| done].
  destruct (_ && _) eqn:Hk; [done |]. destruct (lcHandshakeTimeout lc <=? 0) eqn:Ht; [done |]. intros _.
  unfold Validate, validatePattern, ValidatePattern, ValidateHandshakeTimeout, ValidateRetryConfig, ValidateKeyLength.
  cbn [createAcceptConnConfig acConn Pattern StaticKey RemoteKey cfgHandshakeTimeout HandshakeRetries RetryBackoff NewConnConfig].
  rewrite decide_False, HP, Ht, Hk by done.
  assert (Hr : ((if 0 <? lcHandshakeRetries lc then lcHandshakeRetries lc else 0) <? -1) = false) by (destruct (Z.ltb_spec 0 (lcHandshakeRetries lc)); lia).
  assert (Hb : ((if 0 <? lcRetryBackoff lc then lcRetryBackoff lc else 1 * Second) <? 0) = false).
  { destruct (Z.ltb_spec 0 (lcRetryBackoff lc)); [lia | done]. }
  by rewrite Hr, Hb.
Qed.

(** A connection that is given to the manager after it was closed stays registered: undisturbed,
    the wait lasts until the timer, and the forced close does not unregister it. *)
Lemma closed_conn_blocks w p n : conn_closed w p ->
  let w1 := conn_SetShutdownManager w p in
  waitForConnectionsDrain w1 (replicate n []) [] = (w1, true) /\ ConnectionRegistered (conn_Close w1 p).1 p = true.
Proof.
  intros (o & Ho & Hc) w1. assert (Hreg : is_Some (connections w1 !! p)) by (cbn; by rewrite lookup_insert_eq). split.
  - induction n as [| n IH]; [done |]. cbn [replicate waitForConnectionsDrain others_run foldl].
    rewrite decide_False; [done |]. intros E%map_size_empty_inv. rewrite E, lookup_empty in Hreg. by destruct Hreg.
  - unfold conn_Close, w1. cbn. rewrite list_lookup_alter_eq, Ho. cbn. rewrite Hc. by apply bool_decide_eq_true.
Qed.

End Transport.

(** ** An instance *)

#[local] Existing Instance demo_noise_lib.
#[local] Instance demo_range : GoRange nat unit := range_map_to_list nat unit.

Definition demo_transport : Transport := mkTransport false true.
Definition demo_listener_config : ListenerConfig unit unit :=
  mkListenerConfig _ _ "Noise_XX_25519_AESGCM_SHA256" demo_static_key (30 * Second) 0 0 [] None [] 0 (1 * Second).

(** A listener, a dialled and an accepted connection; the socket of the listener fails to close. *)
Definition demo_history : list (Other (M := unit) (H := unit)) :=
  [OListen demo_transport "tcp" ":1" (Some demo_listener_config) true;
   ODial demo_transport "tcp" ":2" (Some (demo_config true)) true;
   OAccept 0 true].
Definition demo_fails (i : nat) (again : bool) : bool := bool_decide (i = 0%nat) || again.
Definition demo_schedule : Schedule (M := unit) (H := unit) := mkSchedule [] [[]] [] [].

Lemma shutdown_closes_witness :
  let w := others_run demo_fails (NewShutdownManager 0) demo_history in
  ListenerRegistered w 0 = true /\ ConnectionRegistered w 0 = true
  /\ let '(w', e) := Shutdown demo_fails w demo_schedule in
     listener_closed w' 0 /\ conn_closed w' 0 /\ e <> None /\ Shutdown demo_fails w' demo_schedule = (w', e).
Proof.
  pose proof (shutdown_closes demo_fails 0 demo_history demo_schedule demo_schedule) as T. cbv zeta in T |- *.
  assert (HL : ListenerRegistered (others_run demo_fails (NewShutdownManager 0) demo_history) 0 = true) by (vm_compute; reflexivity).
  assert (HC : ConnectionRegistered (others_run demo_fails (NewShutdownManager 0) demo_history) 0 = true) by (vm_compute; reflexivity).
  assert (HF : (fun o => (l_closed o, demo_fails (lstn_id o) false)) <$> lstns (others_run demo_fails (NewShutdownManager 0) demo_history) !! 0%nat = Some (false, true))
    by (vm_compute; reflexivity).
  assert (HN : notes (Shutdown demo_fails (others_run demo_fails (NewShutdownManager 0) demo_history) demo_schedule).1 = []) by (vm_compute; reflexivity).
  split; [exact HL | split; [exact HC |]]. destruct (Shutdown _ _ _) as [w' e].
  destruct T as (TL & TC & _ & _ & _ & TE & TS). destruct (TL 0%nat HL) as (_ & Hl & _).
  split; [exact Hl | split; [| split; [| exact TS]]].
  - unfold noted in TC. cbn [fst] in HN. rewrite HN in TC. destruct (TC 0%nat HC) as [Hc | [Hn | Hn]]; [exact Hc | |]; by apply elem_of_nil in Hn.
  - destruct (lstns _ !! 0%nat) as [o |] eqn:Ho; [| discriminate HF]. injection HF as Ho' HF.
    exact (TE eq_refl 0%nat o HL Ho Ho' HF).
Defined.

(** A dial whose handshake is under way when the shutdown closes its connection: the
    handshake fails, which takes the connection out of the state Closed, and the dial
    closes the socket again. *)
Lemma revived_closed_twice :
  let w := others_run demo_fails (NewShutdownManager 0) [ODial demo_transport "tcp" ":2" (Some (demo_config true)) true] in
  let w' := (Shutdown demo_fails w demo_schedule).1 in
  released w' = [0%nat] /\ released (others_run demo_fails w' [OHandshake 0; OClose 0]) = [0; 0]%nat.
Proof. vm_compute. done. Qed.
